(* ===== verification/_CoqProject ===== *)
-Q . S2P
Prelude.v
Struct.v
PyString.v
DataStruct.v
Stream.v
Sata.v
SataReconstructor.v
ReconTheorems.v
NcqRefinement.v
MemorySensor.v
PhysicalMemory.v
VirtualMemory.v
Capture.v
DiskSensor.v
DiskVirtual.v
DiskServer.v
Filesystem.v
FilesystemTheorems.v
FilesystemInvariant.v
ShadowImage.v
BlockVolume.v
ShadowNtfs.v
ShadowNtfsTheorems.v
ShadowDisk.v
MftSession.v
MemoryAnalysis.v
DiskEngine.v
Tftp.v
TftpTheorems.v
TftpTermination.v
Pxe.v
PxeTheorems.v
PxeBoot.v
DhcpConstants.v
Dhcp.v
DhcpReplies.v
DhcpText.v
Filters.v
FiltersTheorems.v
Keypress.v
ControlPhysical.v
ControlVirtual.v
Machine.v
MachineVirtual.v
Dhcpd.v
DhcpdTheorems.v
Dns.v
Malware.v
Scheduler.v
Controller.v
Protobuf.v
Master.v
MasterTheorems.v
Rabbit.v
PacketLoss.v
Network.v
AddressSpace.v
Database.v
RemoteQueue.v
MemoryDiff.v
Replay.v
Setup.v
