(* ===== verification/Prelude.v ===== *)
(** * LO-PHI: a verification development

    LO-PHI instruments physical and virtual machines: sensors capture the memory and the
    disk traffic of a machine, reconstructors turn the traffic into disk and file
    operations, filters remove the noise of a clean system from the results, and network
    services boot the machines into known images.  The library models the parts of the
    Python sources with logic of their own and proves what they promise.

    ** Parts, sources and files

    - [Prelude] (this file): exceptions and results, the monad [PM] of a method body (state
      and exceptions, mutations kept when an exception is raised), outcome triples and the
      hint base [py_preserve] for invariants, Python's sequences and slices.
    - [Struct], [PyString]: the part of Python's [struct], [str] and [socket] that the
      sources use (packing, splitting, numbers, dotted addresses), with round trips.
    - [DataStruct]: [lophi/data.py], objects over packed fields.  [Stream]: a stream socket
      as its reader sees it.
    - [Sata]: [disk/sata.py], decoding of SATA frames. [SataReconstructor]:
      [disk/sata_reconstructor.py], the state machine from frames to disk packets;
      [ReconTheorems]: its invariant and its behaviour on regular transfers;
      [NcqRefinement]: an abstract queue of commands and a simulation of it by the code.
    - [MemorySensor]: [sensors/memory/__init__.py], cached reads around memory holes,
      proved against the class [Sensor]; [PhysicalMemory] and [VirtualMemory]:
      [sensors/memory/physical.py] and [virtual.py], two instances of the class, down to
      datagrams and to a stream.
    - [DiskSensor]: [sensors/disk/physical.py], commands and the reordering of frames;
      [DiskVirtual]: [sensors/disk/virtual.py], packets over connections that break;
      [DiskServer]: [tools/disk_sensor/lophi-disk-introspection-server.py], the server between
      virtual machines and their sensors.
    - [Capture]: [capture/__init__.py], capture files, their writer, reader and tail.
    - [Filesystem]: [disk/filesystem_reconstructor.py], the NTFS engine over a parser of
      file systems; [FilesystemTheorems]: sectors, runs, records, reads;
      [FilesystemInvariant]: consistency after any accesses.
    - [ShadowImage], [BlockVolume], [ShadowNtfs], [ShadowNtfsTheorems], [ShadowDisk]:
      [disk/filesystems/__init__.py], the earlier engine: an image with a cache of written
      sectors, volumes of any file system, NTFS volumes and the disk that holds them;
      [MftSession]: [disk/filesystems/ntfs/__init__.py], the paths of a whole MFT.
    - [MemoryAnalysis]: [memory/__init__.py] and [volatility_extensions.py], the rendering of
      what Volatility finds, the clicking of buttons and the process that runs plugins.
    - [DiskEngine]: [disk/__init__.py], the processes that join decoder, reconstructor and
      engine and report file operations.
    - [Tftp]: [pybootd/tftpd.py], a connection of the TFTP server; [TftpTheorems]: safety
      and progress of transfers; [TftpTermination]: a connection to which nothing more comes ends.
    - [Pxe]: [pybootd/pxed.py] and [pybootd/util.py], the server that leases addresses and
      follows a machine through its boot; [PxeTheorems]: leases, access control, replies;
      [PxeBoot]: option lists, capacity, a complete boot.
    - [DhcpConstants], [Dhcp], [DhcpReplies]: [proxydhcpd/dhcplib/dhcp_constants.py],
      [dhcp_basic_packet.py] and [dhcp_packet.py], packets, their encoding and the
      replies made from requests; [DhcpText]: their text, with [type_ipv4.py],
      [type_hwmac.py] and [dhcp_file_io.py].
    - [Keypress]: [actuation/keypressgenerator.py] and [keycodes.py], scripts of key presses.
    - [ControlPhysical], [ControlVirtual]: [sensors/control/physical.py] and [virtual.py],
      power, keys and state of a machine through a board and through libvirt.
    - [Machine], [MachineVirtual]: [machine/__init__.py], [physical.py] and [virtual.py],
      sensors, profiles, reverting and resetting of machines.
    - [Dhcpd], [DhcpdTheorems]: [proxydhcpd/dhcpd.py], [aclserver.py] and [pxeserver.py], the DHCP
      and access control servers and their client; [Dns]: [dns.py].
    - [Scheduler]: the scheduler of [lophi_automation/controller.py] and the analysis processes
      ([analysis_scripts.py]), as steps that interleave; [Controller]: commands and messages;
      [Protobuf]: [protobuf/helper.py], packed lists; [Master], [MasterTheorems]: [master.py],
      [configs/controllerconfig.py] and [network/command.py], the master over the controllers of
      [Controller]; [Rabbit]: [ext_interface/rabbitmq.py], the consumer as callbacks.
    - [Malware]: [analysis_scripts/malware.py] with the engines of [analysis/__init__.py] and
      [capture/network.py] that it starts, and the commands of [LophiAnalysis.run].
    - [Database]: [lophi_automation/database], documents, files, the record of an analysis and
      the samples; [RemoteQueue]: [dataconsumers/remotequeue.py], output over connections;
      [PacketLoss]: [analysis/packetloss.py], lost packets of a sensor; [Setup]: [configs] and
      [LoPhiController.__init__], from configuration files to machines and queues.
    - [Replay]: [analysis/disk/disk_analysis.py], captures replayed through [Capture], [Sata],
      [SataReconstructor] and [ShadowDisk], from and to [Database]; [MemoryDiff]:
      [analysis/memory/memory_analysis.py], the comparison of two memory images.
    - [AddressSpace]: [lophiaddressspace.py], the sensors of [MemorySensor] for Volatility;
      [Network]: [lophi/network], echo requests, addresses and datagrams.
    - [Filters], [FiltersTheorems]: [lophi_analysis/analysis_filter.py], the noise filters.

    ** How state and operations correspond

    An object is a record with the attributes that matter, a method a [Definition] or
    [Fixpoint] of its name in [PM], an exception a value [Raise e].  Integers keep their
    width where the code packs them.  Dictionaries are finite maps; where the order of an
    iteration shows ([Filters]) it is a parameter.  What lies outside the sources is a
    parameter: the network as lists of events or as an answering function, the file system
    and the URL library as the record [world] of [Tftp], the authentication host as
    [pxe_world] of [Pxe], the Sleuth Kit and the record parser as operations of
    [Filesystem], the guest and the physical device as functions of time and address.

    ** What the theorems show

    - Reassembly: for any interleaving of queued commands the reconstructor delivers what
      an abstract queue delivers ([ncq_reassembly], [ncq_refinement]); it keeps its
      invariant on every frame and does not raise on ordinary traffic.
    - Memory: a cached read returns memory no older than the cache timeout, with holes
      zeroed, for every sensor with the laws of the interface, and both sensors have them.
    - Disk and capture: frames are delivered in order and none is lost or repeated; capture
      files are read back; a growing file is followed record by record; the accesses of a
      virtual machine reach the sensor that asked for them.
    - File system: ownership of sectors is what the runs say, every sector of an access is
      reported once, and the parsed state stays that of the shadow image while the Sleuth Kit
      accepts it; the disk process of a virtual machine reports what the engine gives for its
      accesses (that of a physical machine dies on its first frame, see [extract_never_decodes]); reads of a
      shadow image see the writes; an MFT read record by record gives the paths stated.
    - Boot services: transfers send the blocks in order, complete up to the limit of the block
      numbers, and end; leases are
      exclusive and within the range, clients that are not listed get no reply, replies
      match their requests and a machine is granted one address and followed through its boot; packets
      are encoded and decoded without loss, if both tables agree on the names of their options, decoding ends and printed headers are read back; a client is offered the boot file exactly
      when it is on the access list.
    - Control: the characters of a script that have a key reach the guest, special keys reach the emulator, a
      reboot and a reset end with the machine on, the lock around libvirt is released, and a
      virtual machine that is reset starts from the image of its profile, if the copy can be made.
    - Automation: machines of the pool are conserved and used by one analysis at a time, none
      is lost unless the scheduler looks between two updates or a script cannot be imported, and then
      one can be; messages
      are received whole; a start reaches the right scheduler of a controller with such a
      machine, every reply is read by the call it answers, and a consumer recovers;
      a controller whose files are in order starts with its machines configured and queued.
    - Analyses of samples: one that ends has stored the results of its last attempt, from a machine
      that was reset, and no capture of it runs; its process releases the machine.
    - Results: the record of an analysis is what its updates say and its files are read back;
      a capture of a virtual machine is counted access by access; two memory images are compared line by
      line; output that arrives is in a remote queue once, and lost packets are counted exactly.
    - Memory analysis: which buttons are clicked, the module of an address, and what is reported.
    - Filters: what a trained filter removes, that a threshold is never passed wrongly, and
      in which order it is applied exactly.
    - Errors: inputs on which the code raises, hangs or loses data are theorems too.

    ** Bounds and fuel

    Loops whose recursion is not structural take fuel and raise [Diverges] when it runs
    out.  The fuel is the length of what the loop consumes ([DecodePacket], [parse_options],
    [serve]: packets or bytes that arrive) and theorems show that it is enough
    ([decode_ends], [connection_ends]) or that none is ([padding_hangs]).  Sequence and
    block numbers are 16 bits wide, addresses 32, and the limits are part of the theorems.

    ** Not modelled

    Code that only moves data between libraries: VNC and ssh, the GUI, the configuration of the DHCP servers, the
    generated message classes, Volatility itself, plotting and experiments; in the modelled
    parts logging and printing, and the threads and processes other than those of [Scheduler],
    [DiskServer] and [RemoteQueue].
    The library for RabbitMQ and its broker are the environment of [Rabbit], MongoDB is a pair
    of finite maps in [Database]. *)
From Stdlib Require Export ZArith Lia.
From stdpp Require Export base gmap strings numbers list.

#[global] Open Scope Z_scope.

(** * Python values and exceptions *)

(** The exceptions the modelled code raises.  [BareExn] is [raise Exception(..)];
    [Diverges] is no exception: the call blocks for ever, or has not ended within the
    rounds a loop was given. *)
Inductive pyexc :=
  | IndexError | KeyError | AttributeError | TypeError | NameError
  | ValueError | StructError | AssertionError | SocketTimeout | SocketError
  | StopIteration | NotImplementedError | IOError | OSError | BootpError | ZeroDivisionError | BareExn
  | TftpError (errnum : Z) (errtext : string) | Diverges.

#[global] Instance pyexc_eq_dec : EqDecision pyexc.
Proof. solve_decision. Defined.

(** Outcome of an evaluation: a value, or an exception that propagates. *)
Inductive res (A : Type) :=
  | Ret (a : A)
  | Raise (e : pyexc).
Arguments Ret {A} _.
Arguments Raise {A} _.

#[global] Instance res_eq_dec {A} `{EqDecision A} : EqDecision (res A).
Proof. solve_decision. Defined.

#[global] Instance Ret_inj {A} : Inj (=) (=) (@Ret A).
Proof. by intros x y [= ->]. Qed.

Definition res_bind {A B} (m : res A) (k : A -> res B) : res B :=
  match m with Ret a => k a | Raise e => Raise e end.

(** [None] becomes the exception [e]. *)
Definition of_option {A} (e : pyexc) (o : option A) : res A :=
  match o with Some a => Ret a | None => Raise e end.

(** A method body: it threads the object's state, and an exception keeps the
    mutations made before it was raised. *)
Definition PM (S A : Type) : Type := S -> res A * S.

Definition pm_ret {S A} (a : A) : PM S A := fun s => (Ret a, s).
Definition pm_raise {S A} (e : pyexc) : PM S A := fun s => (Raise e, s).
Definition pm_bind {S A B} (m : PM S A) (k : A -> PM S B) : PM S B :=
  fun s => match m s with
           | (Ret a, s') => k a s'
           | (Raise e, s') => (Raise e, s')
           end.
Definition pm_get {S A} (f : S -> A) : PM S A := fun s => (Ret (f s), s).
Definition pm_modify {S} (f : S -> S) : PM S unit := fun s => (Ret tt, f s).
Definition pm_lift {S A} (r : res A) : PM S A := fun s => (r, s).
(** [try: m except: h] with a handler for every exception. *)
Definition pm_catch {S A} (m : PM S A) (h : pyexc -> PM S A) : PM S A :=
  fun s => match m s with
           | (Ret a, s') => (Ret a, s')
           | (Raise e, s') => h e s'
           end.

Declare Scope py_scope.
Delimit Scope py_scope with py.
#[global] Open Scope py_scope.

Notation "'let!' x ':=' m 'in' k" := (pm_bind m (fun x => k))
  (at level 10, x binder, m at level 100, k at level 200) : py_scope.
Notation "m ;! k" := (pm_bind m (fun _ => k))
  (at level 100, k at level 200, right associativity) : py_scope.
Notation "'let?' x ':=' m 'in' k" := (res_bind m (fun x => k))
  (at level 10, x binder, m at level 100, k at level 200) : py_scope.

(** Outcome triples: [P] before, [Q] after a normal return, [E] after an exception. *)
Definition triple {S A} (P : S -> Prop) (m : PM S A)
    (Q : A -> S -> Prop) (E : pyexc -> S -> Prop) : Prop :=
  forall s, P s ->
    match m s with
    | (Ret a, s') => Q a s'
    | (Raise e, s') => E e s'
    end.

(** A method preserves an object invariant whether it returns or raises. *)
Definition preserves {S A} (I : S -> Prop) (m : PM S A) : Prop :=
  triple I m (fun _ => I) (fun _ => I).

Section triples.
Context {S : Type}.
Implicit Types (P I : S -> Prop).

Lemma triple_bind {A B} P (m : PM S A) (k : A -> PM S B) R Q E :
  triple P m R E -> (forall a, triple (R a) (k a) Q E) ->
  triple P (pm_bind m k) Q E.
Proof.
  intros Hm Hk s HP. unfold pm_bind. specialize (Hm s HP).
  destruct (m s) as [[a|e] s']; [by apply Hk|done].
Qed.

Lemma triple_conseq {A} P P' (m : PM S A) Q Q' E E' :
  triple P' m Q' E' -> (forall s, P s -> P' s) ->
  (forall a s, Q' a s -> Q a s) -> (forall e s, E' e s -> E e s) ->
  triple P m Q E.
Proof.
  intros Hm HP HQ HE s Hs. specialize (Hm s (HP s Hs)).
  destruct (m s) as [[a|e] s']; auto.
Qed.

Lemma preserves_ret {A} I (a : A) : preserves I (pm_ret a).
Proof. intros s H; exact H. Qed.
Lemma preserves_raise {A} I e : preserves I (pm_raise (A:=A) e).
Proof. intros s H; exact H. Qed.
Lemma preserves_get {A} I (f : S -> A) : preserves I (pm_get f).
Proof. intros s H; exact H. Qed.
Lemma preserves_lift {A} I (r : res A) : preserves I (pm_lift r).
Proof. intros s H; unfold pm_lift; by destruct r. Qed.
Lemma preserves_modify I f : (forall s, I s -> I (f s)) -> preserves I (pm_modify f).
Proof. intros Hf s H; by apply Hf. Qed.
Lemma preserves_bind {A B} I (m : PM S A) (k : A -> PM S B) :
  preserves I m -> (forall a, preserves I (k a)) -> preserves I (pm_bind m k).
Proof. intros Hm Hk. eapply triple_bind; [exact Hm|exact Hk]. Qed.
Lemma preserves_if {A} I (b : bool) (m n : PM S A) :
  preserves I m -> preserves I n -> preserves I (if b then m else n).
Proof. by destruct b. Qed.
End triples.

(** Method bodies in preservation proofs are taken apart by this hint base;
    component files add the lemma of each method they call. *)
Create HintDb py_preserve.
#[export] Hint Resolve preserves_ret preserves_raise preserves_get preserves_lift
  preserves_bind preserves_if : py_preserve.

(** * Python sequences *)

(** A Python 2 [str] holding binary data: each element is a byte in [0, 256). *)
Abbreviation bytes := (list Z).
Definition byte_ok (b : Z) : Prop := 0 <= b < 256.
Definition bytes_ok (bs : bytes) : Prop := Forall byte_ok bs.

Definition zlen {A} (l : list A) : Z := Z.of_nat (length l).

(** Clamping of a slice bound: negative bounds count from the end. *)
Definition clamp (n i : Z) : nat :=
  Z.to_nat (if i <? 0 then Z.max 0 (i + n) else Z.min i n).

(** [l[i:j]], [l[:j]], [l[i:]]. *)
Definition slice {A} (l : list A) (i j : Z) : list A :=
  let n := zlen l in take (clamp n j - clamp n i) (drop (clamp n i) l).
Definition slice_to {A} (l : list A) (j : Z) : list A := take (clamp (zlen l) j) l.
Definition slice_from {A} (l : list A) (i : Z) : list A := drop (clamp (zlen l) i) l.

(** [l[i]], with Python's negative indices. *)
Definition py_index {A} (l : list A) (i : Z) : res A :=
  let j := if i <? 0 then i + zlen l else i in
  if j <? 0 then Raise IndexError else of_option IndexError (l !! Z.to_nat j).

(** [l[i] = x] *)
Definition py_setitem {A} (l : list A) (i : Z) (x : A) : res (list A) :=
  let j := if i <? 0 then i + zlen l else i in
  if (j <? 0) || (zlen l <=? j) then Raise IndexError else Ret (<[Z.to_nat j := x]> l).

(** [l.pop()] returns the last element and the shortened list. *)
Definition py_pop {A} (l : list A) : res (A * list A) :=
  match last l with
  | Some x => Ret (x, take (length l - 1) l)
  | None => Raise IndexError
  end.

(** [b * n] for a one-byte string. *)
Definition py_repeat {A} (x : A) (n : Z) : list A := replicate (Z.to_nat n) x.

(** * Shared lemmas *)

Lemma zlen_nonneg {A} (l : list A) : 0 <= zlen l.
Proof. unfold zlen; lia. Qed.
Lemma zlen_nil {A} : zlen (@nil A) = 0.
Proof. done. Qed.
Lemma zlen_cons {A} (x : A) l : zlen (x :: l) = 1 + zlen l.
Proof. unfold zlen; cbn [length]; lia. Qed.
Lemma zlen_app {A} (l k : list A) : zlen (l ++ k) = zlen l + zlen k.
Proof. unfold zlen; rewrite length_app; lia. Qed.
Lemma zlen_repeat {A} (x : A) n : 0 <= n -> zlen (py_repeat x n) = n.
Proof. intros; unfold zlen, py_repeat; rewrite length_replicate; lia. Qed.
Lemma zlen_take {A} (l : list A) n : zlen (take n l) = Z.min (Z.of_nat n) (zlen l).
Proof. unfold zlen; rewrite length_take; lia. Qed.
Lemma zlen_drop {A} (l : list A) n : zlen (drop n l) = Z.max 0 (zlen l - Z.of_nat n).
Proof. unfold zlen; rewrite length_drop; lia. Qed.

Create Rewrite HintDb zlen.
#[export] Hint Rewrite @zlen_nil @zlen_cons @zlen_app @zlen_take @zlen_drop : zlen.

Lemma clamp_nonneg n i : 0 <= i -> clamp n i = Z.to_nat (Z.min i n).
Proof. intros; unfold clamp; destruct (Z.ltb_spec i 0); [lia|done]. Qed.

Lemma slice_split {A} (l : list A) i j k :
  0 <= i <= j -> j <= k -> slice l i j ++ slice l j k = slice l i k.
Proof.
  intros Hij Hjk. unfold slice. rewrite !clamp_nonneg by lia.
  set (a := Z.to_nat (Z.min i (zlen l))). set (b := Z.to_nat (Z.min j (zlen l))).
  set (c := Z.to_nat (Z.min k (zlen l))).
  assert (a <= b <= c)%nat as Hle by (subst a b c; lia).
  replace (c - a)%nat with ((b - a) + (c - b))%nat by lia.

  replace (drop b l) with (drop (b - a) (drop a l)) by (rewrite drop_drop; f_equal; lia).
  by rewrite take_take_drop.
Qed.

(** Keys of an association list without duplicates determine their entries. *)
Lemma nodup_keys_inj {A B} (l : list (A * B)) k a b :
  NoDup l.*1 -> (k, a) ∈ l -> (k, b) ∈ l -> a = b.
Proof.
  induction l as [|[k' c] l IH]; intros Hnd Ha Hb; [by apply elem_of_nil in Ha|].
  cbn in Hnd. apply NoDup_cons in Hnd as [Hk Hnd].
  assert (forall x, (k, x) ∈ l -> k <> k') as Hne.
  { intros x Hx ->. apply Hk, list_elem_of_fmap. by exists (k', x). }
  apply elem_of_cons in Ha as [[=]|Ha]; apply elem_of_cons in Hb as [[=]|Hb]; subst; eauto;
    exfalso; by eapply Hne.
Qed.

(** Induction on a sequence of 32-bit words with a remainder. *)
Lemma list_ind4 {A} (P : list A -> Prop) :
  P [] -> (forall a, P [a]) -> (forall a b, P [a; b]) -> (forall a b c, P [a; b; c]) ->
  (forall a b c d l, P l -> P (a :: b :: c :: d :: l)) -> forall l, P l.
Proof.
  intros H0 H1 H2 H3 H4. fix IH 1. intros [|a [|b [|c [|d l]]]]; [auto..|]. apply H4, IH.
Qed.

Lemma py_index_lookup {A} (l : list A) i x :
  0 <= i -> l !! Z.to_nat i = Some x -> py_index l i = Ret x.
Proof.
  intros Hi Hx. unfold py_index. destruct (Z.ltb_spec i 0); [lia|].
  destruct (Z.ltb_spec i 0); [lia|]. by rewrite Hx.
Qed.
Lemma py_setitem_ok {A} (l : list A) i x :
  0 <= i < zlen l -> py_setitem l i x = Ret (<[Z.to_nat i := x]> l).
Proof.
  intros Hi. unfold py_setitem. destruct (Z.ltb_spec i 0); [lia|].
  destruct (Z.ltb_spec i 0); [lia|]. destruct (Z.leb_spec (zlen l) i); [lia|]. done.
Qed.
Lemma py_pop_app {A} (l : list A) x : py_pop (l ++ [x]) = Ret (x, l).
Proof.
  unfold py_pop. rewrite last_snoc, length_app. cbn [length].
  replace (length l + 1 - 1)%nat with (length l) by lia. by rewrite take_app_length.
Qed.

(** A Python list used as a stack is empty or has a top. *)
Lemma stack_cases {A} (l : list A) : l = [] \/ exists l' x, l = l' ++ [x].
Proof. induction l as [|x l' _] using rev_ind; eauto. Qed.

(** ** Elements and slices between known parts *)

Lemma py_index_middle {A} (pre : list A) x post : py_index (pre ++ x :: post) (zlen pre) = Ret x.
Proof.
  unfold py_index. pose proof (zlen_nonneg pre). assert ((zlen pre <? 0) = false) as E by (apply Z.ltb_ge; lia). rewrite !E.
  unfold zlen. by rewrite Nat2Z.id, list_lookup_middle.
Qed.
Lemma slice_middle {A} (pre mid post : list A) i j :
  i = zlen pre -> j = zlen pre + zlen mid -> slice (pre ++ mid ++ post) i j = mid.
Proof.
  intros -> ->. pose proof (zlen_nonneg pre). pose proof (zlen_nonneg mid). pose proof (zlen_nonneg post).
  unfold slice. rewrite !clamp_nonneg by lia. rewrite !zlen_app, !Z.min_l by lia.
  unfold zlen. rewrite drop_app_length' by lia. apply take_app_length'. lia.
Qed.
Lemma slice_to_app {A} (pre post : list A) i : i = zlen pre -> slice_to (pre ++ post) i = pre.
Proof.
  intros ->. pose proof (zlen_nonneg pre). pose proof (zlen_nonneg post). unfold slice_to.
  rewrite clamp_nonneg, zlen_app, Z.min_l by lia. apply take_app_length'. unfold zlen. lia.
Qed.
Lemma slice_lookup {A} (l : list A) b e i : 0 <= b <= e -> e <= zlen l ->
  slice l b e !! i = if decide (b + Z.of_nat i < e) then l !! (Z.to_nat b + i)%nat else None.
Proof.
  intros Hb He. unfold slice. rewrite !clamp_nonneg, !Z.min_l by lia.
  destruct (decide _).
  - rewrite lookup_take_lt by lia. by rewrite lookup_drop.
  - apply lookup_take_ge. lia.
Qed.
Lemma slice_empty {A} (l : list A) a b : 0 <= b <= a -> slice l a b = [].
Proof. intros Hb. unfold slice. rewrite !clamp_nonneg by lia. by replace (_ - _)%nat with 0%nat by lia. Qed.
