(* ===== verification/Struct.v ===== *)
(** The part of Python's [struct] module that the source uses: fixed-width
    unsigned codes, byte strings and pad bytes, in network ("!", ">") or in
    native little-endian order.  The native formats of the source need no padding for
    alignment. *)
From S2P Require Import Prelude.

(** * Unsigned integers as bytes *)

Fixpoint le_split (n : nat) (z : Z) : bytes :=
  match n with
  | O => []
  | S n => z mod 256 :: le_split n (z / 256)
  end.

Fixpoint le_combine (bs : bytes) : Z :=
  match bs with
  | [] => 0
  | b :: bs => b + 256 * le_combine bs
  end.

Definition be_split (n : nat) (z : Z) : bytes := reverse (le_split n z).
Definition be_combine (bs : bytes) : Z := le_combine (reverse bs).

Lemma length_le_split n z : length (le_split n z) = n.
Proof. revert z; induction n; intros; cbn; auto. Qed.

Lemma le_split_ok n z : bytes_ok (le_split n z).
Proof.
  revert z; induction n; intros; cbn; constructor; [|apply IHn].
  unfold byte_ok; pose proof (Z.mod_pos_bound z 256); lia.
Qed.

Lemma le_combine_split n z : 0 <= z < 256 ^ Z.of_nat n -> le_combine (le_split n z) = z.
Proof.
  revert z; induction n as [|n IH]; intros z Hz; cbn [le_split le_combine].
  - change (256 ^ Z.of_nat 0) with 1 in Hz; lia.
  - rewrite Nat2Z.inj_succ, Z.pow_succ_r in Hz by lia.
    rewrite IH; [pose proof (Z.div_mod z 256); lia|].
    split; [apply Z.div_pos; lia|apply Z.div_lt_upper_bound; lia].
Qed.

Lemma le_split_combine bs : bytes_ok bs -> le_split (length bs) (le_combine bs) = bs.
Proof.
  unfold bytes_ok, byte_ok. induction 1 as [|b bs Hb _ IH]; [done|].
  cbn [length le_split le_combine]. f_equal.
  - rewrite (Z.mul_comm 256), Z.mod_add, Z.mod_small; lia.
  - rewrite (Z.mul_comm 256), Z.div_add, Z.div_small by lia. done.
Qed.

Lemma le_combine_bound bs : bytes_ok bs -> 0 <= le_combine bs < 256 ^ zlen bs.
Proof.
  unfold bytes_ok, byte_ok. induction 1 as [|b bs Hb _ IH]; [change (256 ^ zlen []) with 1; cbn; lia|].
  cbn [le_combine]. rewrite zlen_cons, Z.pow_add_r by (pose proof (zlen_nonneg bs); lia). lia.
Qed.

Lemma length_be_split n z : length (be_split n z) = n.
Proof. unfold be_split; rewrite length_reverse; apply length_le_split. Qed.
Lemma be_split_ok n z : bytes_ok (be_split n z).
Proof. unfold be_split, bytes_ok; rewrite Forall_reverse; apply le_split_ok. Qed.
Lemma be_combine_split n z : 0 <= z < 256 ^ Z.of_nat n -> be_combine (be_split n z) = z.
Proof. intros; unfold be_combine, be_split; rewrite reverse_involutive; by apply le_combine_split. Qed.
Lemma be_split_combine bs : bytes_ok bs -> be_split (length bs) (be_combine bs) = bs.
Proof.
  intros H; unfold be_combine, be_split. rewrite <- (length_reverse bs) at 1.
  rewrite le_split_combine by (unfold bytes_ok; by rewrite Forall_reverse).
  apply reverse_involutive.
Qed.
Lemma be_combine_bound bs : bytes_ok bs -> 0 <= be_combine bs < 256 ^ zlen bs.
Proof.
  intros H; unfold be_combine.
  replace (zlen bs) with (zlen (reverse bs)) by (unfold zlen; by rewrite length_reverse).
  apply le_combine_bound; unfold bytes_ok; by rewrite Forall_reverse.
Qed.

(** * Formats *)

Inductive order := Native | Network.
Inductive code :=
  | CInt (width : nat)     (* "B", "H", "I", "Q": 1, 2, 4, 8 bytes *)
  | CStr (n : nat)         (* "<n>s" *)
  | CPad (n : nat).        (* "<n>x" *)

Record fmt := Fmt { f_order : order; f_codes : list code }.

(** What [struct.pack] takes and [struct.unpack] returns. *)
Inductive sval := SInt (z : Z) | SStr (s : bytes).

#[global] Instance sval_eq_dec : EqDecision sval.
Proof. solve_decision. Defined.

Definition code_size (c : code) : nat :=
  match c with CInt w => w | CStr n => n | CPad n => n end.
Definition calcsize (f : fmt) : nat := sum_list_with code_size (f_codes f).

Definition int_split (o : order) : nat -> Z -> bytes :=
  match o with Native => le_split | Network => be_split end.
Definition int_combine (o : order) : bytes -> Z :=
  match o with Native => le_combine | Network => be_combine end.

(** One code consumes one value (a pad byte consumes none); a value out of the
    code's range or of the wrong type is a [struct.error]. *)
Fixpoint pack_codes (o : order) (cs : list code) (vs : list sval) : res bytes :=
  match cs, vs with
  | [], [] => Ret []
  | [], _ :: _ => Raise StructError
  | CPad n :: cs, vs =>
      let? rest := pack_codes o cs vs in Ret (replicate n 0 ++ rest)
  | CInt w :: cs, SInt z :: vs =>
      if (0 <=? z) && (z <? 256 ^ Z.of_nat w)
      then let? rest := pack_codes o cs vs in Ret (int_split o w z ++ rest)
      else Raise StructError
  | CStr n :: cs, SStr s :: vs =>
      let? rest := pack_codes o cs vs in
      Ret (take n s ++ replicate (n - length s) 0 ++ rest)
  | _, _ => Raise StructError
  end.
Definition pack (f : fmt) (vs : list sval) : res bytes := pack_codes (f_order f) (f_codes f) vs.

Fixpoint unpack_codes (o : order) (cs : list code) (d : bytes) : list sval :=
  match cs with
  | [] => []
  | CPad n :: cs => unpack_codes o cs (drop n d)
  | CInt w :: cs => SInt (int_combine o (take w d)) :: unpack_codes o cs (drop w d)
  | CStr n :: cs => SStr (take n d) :: unpack_codes o cs (drop n d)
  end.
(** [struct.unpack] insists on the exact length, [unpack_from] on enough bytes. *)
Definition unpack (f : fmt) (d : bytes) : res (list sval) :=
  if bool_decide (length d = calcsize f)
  then Ret (unpack_codes (f_order f) (f_codes f) d) else Raise StructError.
Definition unpack_from (f : fmt) (d : bytes) (off : nat) : res (list sval) :=
  if bool_decide (off + calcsize f <= length d)%nat
  then Ret (unpack_codes (f_order f) (f_codes f) (drop off d)) else Raise StructError.

(** * Round trips *)

Lemma length_int_split o n z : length (int_split o n z) = n.
Proof. destruct o; [apply length_le_split|apply length_be_split]. Qed.
Lemma int_split_ok o n z : bytes_ok (int_split o n z).
Proof. destruct o; [apply le_split_ok|apply be_split_ok]. Qed.
Lemma int_combine_split o n z :
  0 <= z < 256 ^ Z.of_nat n -> int_combine o (int_split o n z) = z.
Proof. destruct o; [apply le_combine_split|apply be_combine_split]. Qed.
Lemma int_split_combine o bs : bytes_ok bs -> int_split o (length bs) (int_combine o bs) = bs.
Proof. destruct o; [apply le_split_combine|apply be_split_combine]. Qed.
Lemma int_combine_bound o bs : bytes_ok bs -> 0 <= int_combine o bs < 256 ^ zlen bs.
Proof. destruct o; [apply le_combine_bound|apply be_combine_bound]. Qed.

(** A packed string comes back cut or NUL-padded to the code's width. *)
Definition norm_val (c : code) (v : sval) : sval :=
  match c, v with
  | CStr n, SStr s => SStr (take n s ++ replicate (n - length s) 0)
  | _, v => v
  end.
Fixpoint norm_vals (cs : list code) (vs : list sval) : list sval :=
  match cs, vs with
  | CPad _ :: cs, vs => norm_vals cs vs
  | c :: cs, v :: vs => norm_val c v :: norm_vals cs vs
  | _, _ => []
  end.

Lemma length_pack_codes o cs vs bs :
  pack_codes o cs vs = Ret bs -> length bs = sum_list_with code_size cs.
Proof.
  revert vs bs; induction cs as [|c cs IH]; intros vs bs H.
  - destruct vs; cbn in H; simplify_eq; done.
  - destruct c as [w|n|n]; cbn in *.
    + destruct vs as [|[z|s] vs]; try done. case_match; [|done].
      destruct (pack_codes o cs vs) eqn:E; cbn in H; simplify_eq.
      rewrite length_app, length_int_split, (IH _ _ E). done.
    + destruct vs as [|[z|s] vs]; try done.
      destruct (pack_codes o cs vs) eqn:E; cbn in H; simplify_eq.
      rewrite !length_app, length_take, length_replicate, (IH _ _ E). lia.
    + destruct (pack_codes o cs vs) eqn:E; cbn in H; simplify_eq.
      rewrite length_app, length_replicate, (IH _ _ E). done.
Qed.

Lemma take_drop_app {A} (l k : list A) n :
  length l = n -> take n (l ++ k) = l /\ drop n (l ++ k) = k.
Proof. intros <-. by rewrite take_app_length, drop_app_length. Qed.

Lemma unpack_pack_codes o cs vs bs :
  pack_codes o cs vs = Ret bs -> unpack_codes o cs bs = norm_vals cs vs.
Proof.
  revert vs bs; induction cs as [|c cs IH]; intros vs bs H.
  - destruct vs; cbn in H; simplify_eq; done.
  - destruct c as [w|n|n]; cbn in *.
    + destruct vs as [|[z|s] vs]; try done. destruct (_ && _) eqn:Hz; [|done].
      apply andb_true_iff in Hz as [?%Z.leb_le ?%Z.ltb_lt].
      destruct (pack_codes o cs vs) eqn:E; cbn in H; simplify_eq.
      destruct (take_drop_app (int_split o w z) a w (length_int_split o w z)) as [-> ->].
      rewrite int_combine_split by lia. f_equal. by apply IH.
    + destruct vs as [|[z|s] vs]; try done.
      destruct (pack_codes o cs vs) eqn:E; cbn in H; simplify_eq.
      rewrite app_assoc.
      destruct (take_drop_app (take n s ++ replicate (n - length s) 0) a n) as [-> ->].
      { rewrite length_app, length_take, length_replicate. lia. }
      f_equal. by apply IH.
    + destruct (pack_codes o cs vs) eqn:E; cbn in H; simplify_eq.
      rewrite drop_app_length' by (by rewrite length_replicate). by apply IH.
Qed.

(** The codes of [f] without pad bytes determine the packed bytes. *)
Definition no_pad (f : fmt) : bool :=
  forallb (fun c => match c with CPad _ => false | _ => true end) (f_codes f).

Lemma pack_unpack_codes o cs d :
  forallb (fun c => match c with CPad _ => false | _ => true end) cs = true ->
  bytes_ok d -> length d = sum_list_with code_size cs ->
  pack_codes o cs (unpack_codes o cs d) = Ret d.
Proof.
  revert d; induction cs as [|c cs IH]; intros d Hp Hd Hl.
  - destruct d; done.
  - cbn in Hp. apply andb_true_iff in Hp as [Hc Hp]. cbn in Hl.
    assert (bytes_ok (drop (code_size c) d)) as Hdr by (by apply Forall_drop).
    assert (length (drop (code_size c) d) = sum_list_with code_size cs) as Hlr
      by (rewrite length_drop; lia).
    destruct c as [w|n|n]; cbn in *; [| |done].
    + assert (bytes_ok (take w d)) as Ht by (by apply Forall_take).
      pose proof (int_combine_bound o _ Ht) as Hb.
      assert (zlen (take w d) = Z.of_nat w) as Hw by (unfold zlen; rewrite length_take; lia).
      rewrite Hw in Hb.
      replace (_ && _) with true by (symmetry; apply andb_true_iff; rewrite Z.leb_le, Z.ltb_lt; lia).
      rewrite IH by done. cbn.
      replace w with (length (take w d)) at 1 by (rewrite length_take; lia).
      rewrite int_split_combine by done. by rewrite take_drop.
    + rewrite IH by done. cbn.
      rewrite take_take, Nat.min_id, length_take.
      replace (n - (n `min` length d))%nat with 0%nat by lia.
      cbn. by rewrite take_drop.
Qed.
