(* ===== verification/PyString.v ===== *)
(** Python's byte strings, as the servers use them: literals, splitting and stripping,
    decimal and hexadecimal numbers, and the dotted notation of addresses. *)
From Stdlib Require Import Strings.Ascii.
From S2P Require Import Prelude Struct.

(** * Strings *)

(** A literal as bytes *)
Fixpoint lit (s : string) : bytes :=
  match s with
  | EmptyString => []
  | String c s => Z.of_nat (nat_of_ascii c) :: lit s
  end.

Definition is_digit (c : Z) : bool := (48 <=? c) && (c <=? 57).
Definition is_space (c : Z) : bool := ((9 <=? c) && (c <=? 13)) || (c =? 32).
Fixpoint lstrip (f : Z -> bool) (d : bytes) : bytes :=
  match d with c :: d' => if f c then lstrip f d' else d | [] => [] end.
Definition strip (d : bytes) : bytes := reverse (lstrip is_space (reverse (lstrip is_space d))).
Definition digits (d : bytes) : option Z :=
  match d with
  | [] => None
  | _ => if forallb is_digit d then Some (foldl (fun n c => 10 * n + (c - 48)) 0 d) else None
  end.
(** [int(value)] of a string *)
Definition py_int (value : bytes) : res Z :=
  of_option ValueError
    match strip value with
    | 43 :: d => digits d
    | 45 :: d => Z.opp <$> digits d
    | d => digits d
    end.

(** Whether [float(value)] accepts a string: digits with an optional fraction and
    exponent, or a name. *)
Fixpoint skip_digits (d : bytes) : nat * bytes :=
  match d with
  | c :: d' => if is_digit c then let (n, r) := skip_digits d' in (S n, r) else (O, d)
  | [] => (O, [])
  end.
Definition skip_sign (d : bytes) : bytes :=
  match d with 43 :: d | 45 :: d => d | d => d end.
Definition lower (d : bytes) : bytes := (fun c => if (65 <=? c) && (c <=? 90) then c + 32 else c) <$> d.
Definition exponent_ok (d : bytes) : bool :=
  match d with
  | [] => true
  | c :: d =>
      if (c =? 69) || (c =? 101) then
        let (n, r) := skip_digits (skip_sign d) in negb (n =? 0)%nat && bool_decide (r = [])
      else false
  end.
Definition float_ok (value : bytes) : bool :=
  let d := skip_sign (strip value) in
  bool_decide (lower d ∈ [lit "inf"; lit "infinity"; lit "nan"]) ||
  let (n, r) := skip_digits d in
  match r with
  | 46 :: r => let (k, r) := skip_digits r in negb (n + k =? 0)%nat && exponent_ok r
  | r => negb (n =? 0)%nat && exponent_ok r
  end.

(** [s.split(sep)] *)
Fixpoint split_on (sep : Z) (s cur : bytes) : list bytes :=
  match s with
  | [] => [reverse cur]
  | c :: s => if c =? sep then reverse cur :: split_on sep s [] else split_on sep s (c :: cur)
  end.
Fixpoint map_int (l : list bytes) : res (list Z) :=
  match l with
  | [] => Ret []
  | x :: l => let? n := py_int x in let? ns := map_int l in Ret (n :: ns)
  end.

(** [s.upper()], [sep.join(l)] *)
Definition upper (d : bytes) : bytes := (fun c => if (97 <=? c) && (c <=? 122) then c - 32 else c) <$> d.
Fixpoint join (sep : bytes) (l : list bytes) : bytes :=
  match l with
  | [] => []
  | [x] => x
  | x :: l => x ++ sep ++ join sep l
  end.
(** [os.path.join(a, b)] *)
Definition os_path_join (a b : bytes) : bytes :=
  if bool_decide (head b = Some 47) then b
  else if bool_decide (a = []) || bool_decide (last a = Some 47) then a ++ b else a ++ [47] ++ b.

(** [s.split()]: the words between white space *)
Fixpoint words (s cur : bytes) : list bytes :=
  let last := if bool_decide (cur = []) then [] else [reverse cur] in
  match s with
  | [] => last
  | c :: s => if is_space c then last ++ words s [] else words s (c :: cur)
  end.
(** [s.find(c)] *)
Fixpoint find_char (c : Z) (s : bytes) : option nat :=
  match s with
  | [] => None
  | x :: s => if x =? c then Some O else S <$> find_char c s
  end.
Definition py_find (c : Z) (s : bytes) : Z := match find_char c s with Some n => Z.of_nat n | None => -1 end.

(** ["%02X" % x] and ["%02x" % x] of a byte *)
Definition hex_digit (a : Z) (x : Z) : Z := if x <? 10 then 48 + x else a + (x - 10).
Definition hex2 (a : Z) (x : Z) : bytes := [hex_digit a (x / 16); hex_digit a (x mod 16)].
Definition HEX2 : Z -> bytes := hex2 65.
Definition hexlify (d : bytes) : bytes := concat (hex2 97 <$> d).

(** * Addresses *)

(** The decimal digits of a byte *)
Definition dec (x : Z) : bytes :=
  if x <? 10 then [48 + x]
  else if x <? 100 then [48 + x / 10; 48 + x mod 10]
  else [48 + x / 100; 48 + (x / 10) mod 10; 48 + x mod 10].
(** [socket.inet_ntoa] *)
Definition inet_ntoa (packed : bytes) : res bytes :=
  if bool_decide (length packed = 4%nat) then Ret (join [46] (dec <$> packed)) else Raise SocketError.

(** The number that [strtoul] with base 0 reads, when it takes the whole word: decimal,
    octal after a zero, or hexadecimal after [0x]. *)
Definition digit_of (base c : Z) : option Z :=
  let d := if is_digit c then c - 48
           else if (97 <=? c) && (c <=? 102) then c - 87
           else if (65 <=? c) && (c <=? 70) then c - 55 else 16 in
  if d <? base then Some d else None.
Fixpoint number_loop (base : Z) (acc : Z) (d : bytes) : option Z :=
  match d with
  | [] => Some acc
  | c :: d => x ← digit_of base c; number_loop base (base * acc + x) d
  end.
Definition number (d : bytes) : option Z :=
  match d with
  | [] => None
  | 48 :: x :: (h :: d') => if (x =? 120) || (x =? 88) then number_loop 16 0 (h :: d') else number_loop 8 0 (x :: h :: d')
  | 48 :: d' => number_loop 8 0 d'
  | _ => number_loop 10 0 d
  end.
(** One to four numbers: the last one fills the bytes that are left. *)
Fixpoint parts (room : nat) (l : list bytes) : option Z :=
  match l with
  | [] => None
  | [x] => n ← number x; if n <? 256 ^ Z.of_nat room then Some n else None
  | x :: l =>
      match room with
      | S (S r as room') =>
          n ← number x; rest ← parts room' l;
          if n <? 256 then Some (n * 256 ^ Z.of_nat room' + rest) else None
      | _ => None
      end
  end.
Fixpoint until_space (s : bytes) : bytes :=
  match s with c :: s => if is_space c then [] else c :: until_space s | [] => [] end.
(** [struct.unpack('!I', socket.inet_aton(s))[0]] and its inverse *)
Definition aton (s : bytes) : res Z := of_option SocketError (parts 4 (split_on 46 (until_space s) [])).
Definition inet_aton (s : bytes) : res bytes := let? z := aton s in Ret (be_split 4 z).

(** * Lemmas *)

Lemma split_on_word sep w cur : sep ∉ w -> split_on sep w cur = [reverse cur ++ w].
Proof.
  revert cur. induction w as [|c w IH]; intros cur Hw; [by rewrite app_nil_r|].
  apply not_elem_of_cons in Hw as [Hc Hw]. cbn [split_on]. rewrite (proj2 (Z.eqb_neq _ _)) by done.
  rewrite IH by done. by rewrite reverse_cons, <- app_assoc.
Qed.
Lemma split_on_app sep w r cur : sep ∉ w -> split_on sep (w ++ sep :: r) cur = (reverse cur ++ w) :: split_on sep r [].
Proof.
  revert cur. induction w as [|c w IH]; intros cur Hw; cbn [app split_on].
  { by rewrite Z.eqb_refl, app_nil_r. }
  apply not_elem_of_cons in Hw as [Hc Hw]. rewrite (proj2 (Z.eqb_neq _ _)) by done.
  rewrite IH by done. by rewrite reverse_cons, <- app_assoc.
Qed.
Lemma until_space_none s : forallb (fun c => negb (is_space c)) s = true -> until_space s = s.
Proof.
  induction s as [|c s IH]; [done|]. cbn. intros [Hc Hs]%andb_true_iff. apply negb_true_iff in Hc.
  by rewrite Hc, IH.
Qed.

(** A property of all bytes, by evaluation *)
Lemma all_bytes (f : Z -> bool) : forallb f (seqZ 0 256) = true -> forall x, byte_ok x -> f x = true.
Proof.
  intros H x Hx. apply (proj1 (forallb_forall _ _) H), list_elem_of_In, elem_of_seqZ. unfold byte_ok in Hx. lia.
Qed.
Lemma number_dec x : byte_ok x -> number (dec x) = Some x.
Proof.
  intros Hx. assert (match number (dec x) with Some y => y =? x | None => false end = true) as H.
  { revert x Hx. apply (all_bytes (fun x => match number (dec x) with Some y => y =? x | None => false end)). by vm_compute. }
  destruct (number (dec x)); [|done]. apply Z.eqb_eq in H. by subst.
Qed.
Lemma dec_chars x : byte_ok x -> forallb is_digit (dec x) = true.
Proof. apply (all_bytes (fun x => forallb is_digit (dec x))). by vm_compute. Qed.
Lemma digits_no_dot s : forallb is_digit s = true -> 46 ∉ s.
Proof. intros H Hin%list_elem_of_In. by apply (proj1 (forallb_forall _ _) H) in Hin. Qed.
Lemma digits_no_space s : forallb is_digit s = true -> forallb (fun c => negb (is_space c)) s = true.
Proof.
  intros H. apply forallb_forall. intros c Hc. pose proof (proj1 (forallb_forall _ _) H c Hc) as Hd.
  unfold is_digit, is_space in *. lia.
Qed.

(** The dotted notation is read back. *)
Lemma aton_ntoa packed s : bytes_ok packed -> inet_ntoa packed = Ret s -> aton s = Ret (be_combine packed).
Proof.
  intros Hok. unfold inet_ntoa. case_bool_decide as Hlen; [|done]. intros [= <-].
  destruct packed as [|a [|b [|c [|d [|]]]]]; try done.
  repeat (apply Forall_cons in Hok as [? Hok]).
  pose proof (dec_chars a ltac:(done)) as Da. pose proof (dec_chars b ltac:(done)) as Db.
  pose proof (dec_chars c ltac:(done)) as Dc. pose proof (dec_chars d ltac:(done)) as Dd.
  unfold aton. cbn [fmap list_fmap join app]. rewrite until_space_none.
  2: { repeat (rewrite forallb_app; cbn [forallb]). by rewrite !digits_no_space by done. }
  rewrite !split_on_app, split_on_word by (by apply digits_no_dot). rewrite reverse_nil. cbn [app parts].
  rewrite !number_dec by done. cbn [mbind option_bind]. unfold byte_ok in *.
  rewrite (proj2 (Z.ltb_lt _ _)) by lia. cbn [mbind option_bind].
  rewrite !(proj2 (Z.ltb_lt _ 256)) by lia. cbn [of_option].
  change (be_combine [a; b; c; d]) with (d + 256 * (c + 256 * (b + 256 * (a + 256 * 0)))).
  change (256 ^ Z.of_nat 3) with (256 * (256 * 256)). change (256 ^ Z.of_nat 2) with (256 * 256).
  change (256 ^ Z.of_nat 1) with 256. cbn [mbind option_bind of_option]. f_equal. lia.
Qed.
(** ** Decimal texts *)

(** [str(x)] of a number: the digits from the last to the first; a number has no more of them than bits *)
Fixpoint dec_loop (fuel : nat) (x : Z) (acc : bytes) : bytes :=
  match fuel with
  | O => acc
  | S fuel => if x <? 10 then (48 + x) :: acc else dec_loop fuel (x / 10) ((48 + x mod 10) :: acc)
  end.
Definition py_str (x : Z) : bytes :=
  let d := dec_loop (S (Z.to_nat (Z.log2 (Z.abs x)))) (Z.abs x) [] in if x <? 0 then 45 :: d else d.
Lemma dec_loop_digits fuel : forall x acc, 0 <= x -> forallb is_digit acc = true -> forallb is_digit (dec_loop fuel x acc) = true.
Proof.
  induction fuel as [|fuel IH]; intros x acc Hx Ha; cbn [dec_loop]; [done|]. destruct (Z.ltb_spec x 10).
  - cbn. rewrite Ha. unfold is_digit. lia.
  - apply IH; [apply Z.div_pos; lia|]. cbn. rewrite Ha. unfold is_digit. pose proof (Z.mod_pos_bound x 10 ltac:(lia)). lia.
Qed.
Lemma dec_loop_value fuel : forall x acc, 0 <= x -> (Z.log2 x < Z.of_nat fuel) ->
  exists d, dec_loop fuel x acc = d ++ acc /\ d <> [] /\ foldl (fun n c => 10 * n + (c - 48)) 0 d = x.
Proof.
  induction fuel as [|fuel IH]; intros x acc Hx Hf; cbn [dec_loop]; [pose proof (Z.log2_nonneg x); lia|].
  destruct (Z.ltb_spec x 10) as [Hlt|Hge]; [exists [48 + x]; cbn; split_and!; [done|done|lia]|].
  assert (Hlog : Z.log2 (x / 10) < Z.log2 x).
  { apply Z.log2_lt_pow2; [apply Z.div_str_pos; lia|]. apply Z.div_lt_upper_bound; [lia|].
    pose proof (Z.log2_spec x ltac:(lia)) as [_ Hs]. rewrite Z.pow_succ_r in Hs by apply Z.log2_nonneg. lia. }
  destruct (IH (x / 10) ((48 + x mod 10) :: acc)) as (d & -> & Hne & Hv); [apply Z.div_pos; lia|lia|].
  exists (d ++ [48 + x mod 10]). rewrite <- app_assoc. split_and!; [done|by destruct d|].
  rewrite foldl_app, Hv. cbn. pose proof (Z.div_mod x 10 ltac:(lia)). lia.
Qed.
Lemma lstrip_none f d : match d with c :: _ => f c = false | [] => True end -> lstrip f d = d.
Proof. destruct d as [|c d]; [done|]. cbn. by intros ->. Qed.
Lemma strip_none d : forallb (fun c => negb (is_space c)) d = true -> strip d = d.
Proof.
  intros H. assert (Hall : forall c, c ∈ d -> is_space c = false).
  { intros c Hc%list_elem_of_In. apply negb_true_iff. by apply (proj1 (forallb_forall _ _) H). }
  unfold strip. rewrite (lstrip_none is_space d) by (destruct d; [done|apply Hall; left]).
  rewrite lstrip_none; [apply reverse_involutive|]. destruct (reverse d) as [|c r] eqn:Hr; [done|]. apply Hall. rewrite <- (reverse_involutive d), Hr. set_solver.
Qed.
Lemma py_str_digits x : 0 <= x -> forallb is_digit (py_str x) = true /\ py_str x <> [] /\ digits (py_str x) = Some x.
Proof.
  intros Hx. unfold py_str. rewrite Z.abs_eq, (proj2 (Z.ltb_ge _ _)) by done.
  destruct (dec_loop_value (S (Z.to_nat (Z.log2 x))) x []) as (d & Hd & Hne & Hv); [done|pose proof (Z.log2_nonneg x); lia|].
  pose proof (dec_loop_digits (S (Z.to_nat (Z.log2 x))) x [] Hx eq_refl) as Hdig. rewrite Hd, app_nil_r in *. split_and!; [done|done|].
  unfold digits. destruct d; [done|]. rewrite Hdig. by rewrite Hv.
Qed.
(** A number is read back from its text. *)
Lemma py_int_str x : 0 <= x -> py_int (py_str x) = Ret x.
Proof.
  intros Hx. destruct (py_str_digits x Hx) as (Hd & Hne & Hv). unfold py_int. rewrite strip_none by (by apply digits_no_space).
  destruct (py_str x) as [|c d]; [done|]. cbn in Hd. apply andb_true_iff in Hd as [Hc _]. unfold is_digit in Hc.
  destruct (decide (c = 43)) as [->|]; [done|]. destruct (decide (c = 45)) as [->|]; [done|]. destruct c as [|p|p]; try by rewrite Hv.
  do 6 (destruct p as [p|p|]; try by rewrite Hv); done.
Qed.
(** White space after a text is dropped. *)
Lemma strip_space d c : is_space c = true -> forallb (fun c => negb (is_space c)) d = true -> strip (d ++ [c]) = d.
Proof.
  intros Hc H. assert (Hs : strip d = d) by (by apply strip_none). unfold strip in *.
  assert (Hl : forall x, d <> [] -> lstrip is_space (d ++ x) = d ++ x).
  { intros x Hne. apply lstrip_none. destruct d; [done|]. cbn in H |- *. by apply andb_true_iff in H as [?%negb_true_iff _]. }
  destruct (decide (d = [])) as [->|Hne]; [cbn; by rewrite Hc|]. pose proof (Hl [] Hne) as H0. rewrite app_nil_r in H0. rewrite Hl, H0 in * by done.
  rewrite reverse_app. cbn. by rewrite Hc.
Qed.
Lemma strip_newline d : forallb (fun c => negb (is_space c)) d = true -> strip (d ++ [10]) = d.
Proof. by apply strip_space. Qed.
Lemma py_int_newline x : 0 <= x -> py_int (py_str x ++ [10]) = Ret x.
Proof.
  intros Hx. destruct (py_str_digits x Hx) as (Hd & _). pose proof (py_int_str x Hx) as H. unfold py_int in *.
  by rewrite strip_newline by (by apply digits_no_space); rewrite strip_none in H by (by apply digits_no_space).
Qed.
(** Joining and splitting *)
Lemma split_join sep l : l <> [] -> Forall (fun w => sep ∉ w) l -> split_on sep (join [sep] l) [] = l.
Proof.
  intros Hne Hl. destruct l as [|w l]; [done|]. clear Hne. revert w Hl. induction l as [|w' l IH]; intros w [Hw Hl]%Forall_cons.
  - cbn. by rewrite split_on_word.
  - change (join [sep] (w :: w' :: l)) with (w ++ sep :: join [sep] (w' :: l)). rewrite split_on_app by done. by rewrite IH.
Qed.
Lemma join_snoc sep l w x : join sep (l ++ [w ++ x]) = join sep (l ++ [w]) ++ x.
Proof.
  induction l as [|y l IH]; [done|]. destruct l as [|z l]; [cbn; by rewrite <- !app_assoc|].
  change (join sep ((y :: z :: l) ++ [w ++ x])) with (y ++ sep ++ join sep ((z :: l) ++ [w ++ x])). rewrite IH.
  change (join sep ((y :: z :: l) ++ [w])) with (y ++ sep ++ join sep ((z :: l) ++ [w])). by rewrite <- !app_assoc.
Qed.

(** A text as a name *)
Definition name_of (d : bytes) : string := foldr (fun c s => String (ascii_of_nat (Z.to_nat c)) s) EmptyString d.
Lemma name_lit s : name_of (lit s) = s.
Proof. induction s as [|c s IH]; [done|]. cbn. rewrite Nat2Z.id, ascii_nat_embedding. f_equal. exact IH. Qed.
