(* ===== verification/DataStruct.v ===== *)
(** Model of [python-lophi/lophi/data.py]: the [DataStruct] base class (an
    object whose declared fields are mirrored in a packed byte buffer) and the
    packet formats derived from it. *)
From S2P Require Import Prelude Struct.

(** An attribute value: [None], one value, or a tuple of values. *)
Inductive fval := FNone | FVal (v : sval) | FSeq (vs : list sval).

#[global] Instance fval_eq_dec : EqDecision fval.
Proof. solve_decision. Defined.

(** [STRUCT] of a subclass: field names with their formats. *)
Abbreviation layout := (list (string * fmt)).

(** An instance.  [dict] is the instance dictionary: the declared fields, the
    trailing payload under ["data"], and any other attribute that is assigned.
    [struct_raw_data] is absent until the buffer has been set. *)
Record dstruct := DStruct {
  STRUCT : layout;
  dict : gmap string fval;
  struct_raw_data : option bytes
}.

Definition set_dict (m : gmap string fval) (d : dstruct) : dstruct :=
  DStruct (STRUCT d) m (struct_raw_data d).
Definition set_raw (r : bytes) (d : dstruct) : dstruct :=
  DStruct (STRUCT d) (dict d) (Some r).

Definition layout_size (L : layout) : nat := sum_list_with (fun kf => calcsize kf.2) L.
Definition STRUCT_SIZE (d : dstruct) : nat := layout_size (STRUCT d).

Definition zeros (n : nat) : bytes := replicate n 0.

(** [self.data] when it holds a string. *)
Definition payload (d : dstruct) : option bytes :=
  match dict d !! "data" with Some (FVal (SStr s)) => Some s | _ => None end.

(** ** [_unpack] *)

(** [self.__dict__[key] = v[0] if len(v) == 1 else v] *)
Definition fval_of (vs : list sval) : fval :=
  match vs with [v] => FVal v | vs => FSeq vs end.

Fixpoint unpack_fields (L : layout) (raw : bytes) (offset : nat)
    (m : gmap string fval) : res (gmap string fval) :=
  match L with
  | [] => Ret m
  | (key, f) :: L =>
      let? v := unpack_from f raw offset in
      unpack_fields L raw (offset + calcsize f) (<[key := fval_of v]> m)
  end.

(** Too little data is only logged: the instance keeps its old contents. *)
Definition _unpack (data : bytes) : PM dstruct unit := fun d =>
  if (length data <? STRUCT_SIZE d)%nat then (Ret tt, d)
  else
    let m := if (STRUCT_SIZE d <? length data)%nat
             then <["data" := FVal (SStr (drop (STRUCT_SIZE d) data))]> (dict d)
             else dict d in
    let raw := take (STRUCT_SIZE d) data in
    match unpack_fields (STRUCT d) raw 0 m with
    | Ret m' => (Ret tt, DStruct (STRUCT d) m' (Some raw))
    | Raise e => (Raise e, DStruct (STRUCT d) m (Some raw))
    end.

(** ** [_pack] *)

(** Bytes contributed by one field.  A tuple whose length differs from the byte
    size reaches a [logger.error] call whose format string has more directives
    than arguments, which raises [TypeError]. *)
Definition pack_field (f : fmt) (value : fval) : res bytes :=
  match value with
  | FSeq vs => if bool_decide (length vs = calcsize f) then pack f vs else Raise TypeError
  | FVal v => pack f [v]
  | FNone => Ret (zeros (calcsize f))
  end.

(** The loop of [_pack]: the buffer grows field by field, so that an exception
    leaves the bytes of the fields before it. *)
Fixpoint pack_loop (L : layout) (m : gmap string fval) (raw : bytes) : res bool * bytes :=
  match L with
  | [] => (Ret true, raw)
  | (key, f) :: L =>
      match m !! key with
      | None => (Raise KeyError, raw)
      | Some value =>
          match pack_field f value with
          | Ret b => pack_loop L m (raw ++ b)
          | Raise e => (Raise e, raw)
          end
      end
  end.
Definition _pack : PM dstruct bool := fun d =>
  let (r, raw) := pack_loop (STRUCT d) (dict d) [] in (r, set_raw raw d).

(** ** [__setattr__] *)

Fixpoint setattr_loop (L : layout) (key : string) (success : bool) : PM dstruct bool :=
  match L with
  | [] => pm_ret success
  | (key2, _) :: L =>
      if bool_decide (key = key2) then
        if success then let! ok := _pack in setattr_loop L key ok
        else setattr_loop L key false
      else setattr_loop L key success
  end.
Definition __setattr__ (key : string) (value : fval) : PM dstruct unit :=
  let! tmp := pm_get (fun d => default FNone (dict d !! key)) in
  pm_modify (fun d => set_dict (<[key := value]> (dict d)) d) ;!
  let! L := pm_get STRUCT in
  let! success := setattr_loop L key true in
  if success then pm_ret tt
  else pm_modify (fun d => set_dict (<[key := tmp]> (dict d)) d).

(** ** Construction *)

Definition blank_dict (L : layout) : gmap string fval :=
  <["data" := FNone]> (list_to_map ((fun kf => (kf.1, FNone)) <$> L)).
(** [Cls()]: every field [None], the buffer all zeros. *)
Definition new_struct (L : layout) : dstruct :=
  DStruct L (blank_dict L) (Some (zeros (layout_size L))).
(** [Cls(data)]: the buffer stays unset when the data is too short. *)
Definition init_struct (L : layout) (data : bytes) : res dstruct :=
  match _unpack data (DStruct L (blank_dict L) None) with
  | (Ret _, d) => Ret d
  | (Raise e, _) => Raise e
  end.

(** Consecutive assignments to attributes of one object. *)
Fixpoint assign (kvs : list (string * fval)) : PM dstruct unit :=
  match kvs with
  | [] => pm_ret tt
  | (key, value) :: kvs => __setattr__ key value ;! assign kvs
  end.

(** ** Observers *)

(** [self.key] *)
Definition getattr (d : dstruct) (key : string) : res fval :=
  of_option AttributeError (dict d !! key).
(** [self.key] used as a number. *)
Definition get_int (d : dstruct) (key : string) : res Z :=
  let? v := getattr d key in
  match v with FVal (SInt z) => Ret z | _ => Raise TypeError end.

Definition __len__ (d : dstruct) : nat :=
  STRUCT_SIZE d + match payload d with Some s => length s | None => 0 end.

Definition __repr__ (d : dstruct) : res bytes :=
  let? raw := of_option AttributeError (struct_raw_data d) in
  Ret (raw ++ default [] (payload d)).

Definition __getitem__ (d : dstruct) (index : Z) : res (option Z) :=
  let? raw := of_option AttributeError (struct_raw_data d) in
  if zlen raw <? index then let? b := py_index raw index in Ret (Some b)
  else Ret None.

(** [__eq__] against a raw buffer: for a field at [offset] of [size] bytes it
    compares the slices [offset:size]. *)
Fixpoint eq_loop (L : layout) (m : gmap string fval) (raw comp : bytes) (offset : Z) : res bool :=
  match L with
  | [] => Ret true
  | (key, f) :: L =>
      let? value := of_option KeyError (m !! key) in
      let size := Z.of_nat (calcsize f) in
      match value with
      | FNone => eq_loop L m raw comp (offset + size)
      | _ => if bool_decide (slice raw offset size = slice comp offset size)
             then eq_loop L m raw comp (offset + size) else Ret false
      end
  end.
Definition __eq__ (d : dstruct) (comp : bytes) : res bool :=
  if bool_decide (length comp = __len__ d) then
    let? raw := of_option AttributeError (struct_raw_data d) in
    eq_loop (STRUCT d) (dict d) raw comp 0
  else Ret false.

Definition keys (d : dstruct) : list string := (STRUCT d).*1.
Definition values (d : dstruct) : list fval :=
  (fun kf => match dict d !! kf.1 with
             | None | Some FNone => FVal (SStr [])
             | Some v => v
             end) <$> STRUCT d.

(** ** Packet formats *)

Definition fQ : fmt := Fmt Native [CInt 8].
Definition fI : fmt := Fmt Native [CInt 4].
Definition nI : fmt := Fmt Network [CInt 4].
Definition nH : fmt := Fmt Network [CInt 2].
Definition nB : fmt := Fmt Network [CInt 1].

Definition DiskSensorPacket : layout :=
  [("sector", fQ); ("num_sectors", fI); ("disk_operation", fI); ("size", fI)].
Definition MemorySensorPacket : layout :=
  [("name", Fmt Native [CStr 25]); ("address", fQ); ("length", fI)].
Definition MemoryRapidPacket : layout :=
  [("MAGIC_LOPHI", nI); ("address_high", nI); ("operation", nI); ("address_low", nI);
   ("length", nI); ("flags", nI); ("transaction_no", nI)].
Definition LOPHIPacket : layout :=
  [("MAGIC", nI); ("RESERVED", nB); ("op_code", nB); ("memory_addr", nH);
   ("memory_len", nH); ("frame_len", nH)].
Definition SATAFrame : layout := [("seqn_num", nH); ("direction", nH)].
Definition KvmMemRequest : layout := [("type", fQ); ("address", fQ); ("length", fQ)].

(** * Decoding *)

(** What a buffer says of each field of a layout. *)
Fixpoint decode (L : layout) (d : bytes) : list (string * fval) :=
  match L with
  | [] => []
  | (k, f) :: L =>
      (k, fval_of (unpack_codes (f_order f) (f_codes f) d)) :: decode L (drop (calcsize f) d)
  end.
Definition insert_all (m : gmap string fval) (l : list (string * fval)) : gmap string fval :=
  foldl (fun m kv => <[kv.1 := kv.2]> m) m l.

Lemma decode_keys L d : (decode L d).*1 = L.*1.
Proof. revert d; induction L as [|[k f] L IH]; intros d; cbn; [done|]. by rewrite IH. Qed.

Lemma insert_all_ne m l k : k ∉ l.*1 -> insert_all m l !! k = m !! k.
Proof.
  revert m; induction l as [|[k' v] l IH]; intros m Hk; [done|]. cbn in *.
  apply not_elem_of_cons in Hk as [? ?]. rewrite IH by done. by rewrite lookup_insert_ne.
Qed.
Lemma insert_all_in m l k v : NoDup l.*1 -> (k, v) ∈ l -> insert_all m l !! k = Some v.
Proof.
  revert m; induction l as [|[k' v'] l IH]; intros m Hnd Hin; [by apply elem_of_nil in Hin|].
  cbn in Hnd. apply NoDup_cons in Hnd as [Hk Hnd].
  apply elem_of_cons in Hin as [[=-> ->]|Hin]; [|by apply IH].
  cbn. rewrite insert_all_ne by done. apply lookup_insert_eq.
Qed.

Lemma unpack_fields_decode L raw off m :
  (off + layout_size L <= length raw)%nat ->
  unpack_fields L raw off m = Ret (insert_all m (decode L (drop off raw))).
Proof.
  revert off m; induction L as [|[k f] L IH]; intros off m H; [done|].
  cbn in *. unfold unpack_from. rewrite bool_decide_eq_true_2 by (unfold layout_size in *; cbn in *; lia).
  cbn. rewrite IH by (unfold layout_size in *; cbn in *; lia). rewrite drop_drop. done.
Qed.

Definition layout_ok (L : layout) : bool :=
  bool_decide (NoDup L.*1) && bool_decide ("data" ∉ L.*1) &&
  forallb (fun kf => match f_codes kf.2 with [CInt _] | [CStr _] => true | _ => false end) L.

Lemma layout_ok_spec L : layout_ok L = true ->
  NoDup L.*1 /\ ("data" ∉ L.*1) /\
  Forall (fun kf => match f_codes kf.2 with [CInt _] | [CStr _] => True | _ => False end) L.
Proof.
  unfold layout_ok. rewrite !andb_true_iff, !bool_decide_eq_true. intros [[? ?] Hf].
  split_and!; [done..|].
  apply Forall_forall. intros x Hx. rewrite forallb_forall in Hf.
  specialize (Hf x (proj1 (list_elem_of_In _ _) Hx)). by repeat case_match.
Qed.

Lemma blank_dict_data L : blank_dict L !! "data" = Some FNone.
Proof. apply lookup_insert_eq. Qed.
Lemma blank_dict_field L k f :
  "data" ∉ L.*1 -> (k, f) ∈ L -> blank_dict L !! k = Some FNone.
Proof.
  intros Hd Hin. unfold blank_dict.
  assert ("data" <> k) by (intros <-; apply Hd; apply list_elem_of_fmap; by exists ("data", f)).
  rewrite lookup_insert_ne by done. clear Hd.
  induction L as [|[k' f'] L IH]; [by apply elem_of_nil in Hin|]. cbn.
  destruct (decide (k' = k)) as [->|?]; [by rewrite lookup_insert_eq|].
  rewrite lookup_insert_ne by done. apply IH.
  apply elem_of_cons in Hin as [[=]|?]; congruence.
Qed.

Lemma init_struct_decode L data :
  (layout_size L <= length data)%nat ->
  init_struct L data = Ret (DStruct L
     (insert_all (if (layout_size L <? length data)%nat
                  then <["data" := FVal (SStr (drop (layout_size L) data))]> (blank_dict L)
                  else blank_dict L) (decode L (take (layout_size L) data)))
     (Some (take (layout_size L) data))).
Proof.
  intros H. unfold init_struct, _unpack, STRUCT_SIZE. cbn [STRUCT dict].
  destruct (Nat.ltb_spec (length data) (layout_size L)); [lia|].
  rewrite unpack_fields_decode by (rewrite length_take; lia). done.
Qed.

Lemma init_struct_payload L data d :
  "data" ∉ L.*1 -> (layout_size L <= length data)%nat -> init_struct L data = Ret d ->
  default [] (payload d) = drop (layout_size L) data.
Proof.
  intros Hd Hl. rewrite init_struct_decode by done. intros [= <-]. unfold payload. cbn [dict].
  rewrite insert_all_ne by (by rewrite decode_keys).
  destruct (Nat.ltb_spec (layout_size L) (length data)).
  - by rewrite lookup_insert_eq.
  - rewrite blank_dict_data. cbn. by rewrite drop_ge by lia.
Qed.

(** * The buffer mirrors the fields *)

(** The buffer is what [_pack] would write from the current attributes. *)
Definition consistent (d : dstruct) : Prop :=
  exists raw, struct_raw_data d = Some raw /\ pack_loop (STRUCT d) (dict d) [] = (Ret true, raw).

(** Packing the declared fields of [m] raises nothing. *)
Definition packable (L : layout) (m : gmap string fval) : Prop :=
  exists raw, pack_loop L m [] = (Ret true, raw).

Lemma pack_loop_prefix L m raw r out :
  pack_loop L m raw = (r, out) -> exists out', out = raw ++ out' /\ pack_loop L m [] = (r, out').
Proof.
  assert (forall raw0, pack_loop L m raw0 =
            let (r, o) := pack_loop L m [] in (r, raw0 ++ o)) as Hgen.
  { induction L as [|[k f] L IH]; intros raw0; cbn; [by rewrite app_nil_r|].
    destruct (m !! k) as [v|]; [|by rewrite app_nil_r].
    destruct (pack_field f v) as [b|]; [|by rewrite app_nil_r].
    rewrite IH, (IH b). destruct (pack_loop L m []). by rewrite app_assoc. }
  rewrite Hgen. destruct (pack_loop L m []) as [r' o'] eqn:E. intros [= <- <-].
  exists o'. auto.
Qed.

Lemma new_struct_consistent L :
  "data" ∉ L.*1 -> consistent (new_struct L).
Proof.
  intros Hd. exists (zeros (layout_size L)). split; [done|]. cbn [new_struct STRUCT dict].
  assert (forall L', L' ⊆ L -> forall raw,
            pack_loop L' (blank_dict L) raw = (Ret true, raw ++ zeros (layout_size L'))) as H.
  { induction L' as [|[k f] L' IH]; intros Hs raw; cbn; [by rewrite app_nil_r|].
    rewrite (blank_dict_field L k f) by (done || set_solver). cbn.
    rewrite IH by set_solver. unfold zeros. by rewrite <- app_assoc, replicate_add. }
  rewrite H by done. done.
Qed.

(** Every field format of the layout has one value. *)
Lemma setattr_loop_field L0 key d (d' : dstruct) :
  NoDup L0.*1 -> key ∈ L0.*1 -> _pack d = (Ret true, d') ->
  setattr_loop L0 key true d = (Ret true, d').
Proof.
  intros Hnd Hin Hp. revert Hnd Hin. induction L0 as [|[k f] L IH]; intros Hnd Hin.
  { by apply elem_of_nil in Hin. }
  cbn in *. apply NoDup_cons in Hnd as [Hk Hnd].
  destruct (decide (key = k)) as [->|Hne].
  - rewrite bool_decide_eq_true_2 by done. unfold pm_bind. rewrite Hp.
    clear IH Hin Hp. revert d'. induction L as [|[k' f'] L IH]; intros d'; [done|].
    cbn in *. rewrite bool_decide_eq_false_2 by set_solver.
    apply IH; [set_solver|by apply NoDup_cons in Hnd as [??]].
  - rewrite bool_decide_eq_false_2 by done. apply IH; [done|set_solver].
Qed.

Lemma setattr_field d key v raw :
  NoDup (STRUCT d).*1 -> key ∈ (STRUCT d).*1 ->
  pack_loop (STRUCT d) (<[key := v]> (dict d)) [] = (Ret true, raw) ->
  __setattr__ key v d = (Ret tt, DStruct (STRUCT d) (<[key := v]> (dict d)) (Some raw)).
Proof.
  intros Hnd Hin Hp. unfold __setattr__, pm_bind, pm_get, pm_modify. cbn [set_dict STRUCT].
  rewrite (setattr_loop_field _ _ _ (DStruct (STRUCT d) (<[key := v]> (dict d)) (Some raw)));
    [done..|]. unfold _pack, set_dict. cbn [STRUCT dict]. by rewrite Hp.
Qed.

(** An attribute that is not a declared field does not touch the buffer. *)
Lemma setattr_other d key v :
  key ∉ (STRUCT d).*1 ->
  __setattr__ key v d = (Ret tt, set_dict (<[key := v]> (dict d)) d).
Proof.
  intros Hin. unfold __setattr__, pm_bind, pm_get, pm_modify.
  assert (forall L (d0 : dstruct), key ∉ L.*1 -> setattr_loop L key true d0 = (Ret true, d0)) as H.
  { induction L as [|[k f] L IH]; intros d0 Hk; [done|]. cbn in *.
    rewrite bool_decide_eq_false_2 by set_solver. apply IH; set_solver. }
  cbn [set_dict STRUCT]. by rewrite H.
Qed.

Lemma pack_loop_total L m :
  packable L m <->
  Forall (fun kf => exists v b, m !! kf.1 = Some v /\ pack_field kf.2 v = Ret b) L.
Proof.
  unfold packable. induction L as [|[k f] L IH]; cbn.
  - split; eauto.
  - rewrite Forall_cons, <- IH. cbn. split.
    + intros [raw H]. destruct (m !! k) as [v|]; [|done].
      destruct (pack_field f v) as [b|] eqn:E; [|done].
      apply pack_loop_prefix in H as (o & _ & H). split; [exists v, b; auto|by exists o].
    + intros [(v & b & -> & ->) [raw H]].
      destruct (pack_loop L m b) as [r o] eqn:E.
      apply pack_loop_prefix in E as (o' & -> & E). rewrite H in E. simplify_eq. by exists (b ++ o').
Qed.

(** Setting a declared field to a value that can be packed. *)
Lemma setattr_keeps d key f v b :
  layout_ok (STRUCT d) = true -> consistent d -> (key, f) ∈ STRUCT d ->
  pack_field f v = Ret b ->
  exists d', __setattr__ key v d = (Ret tt, d') /\ consistent d' /\
    STRUCT d' = STRUCT d /\ dict d' = <[key := v]> (dict d).
Proof.
  intros (Hnd & Hdata & HL)%layout_ok_spec (r & Hr & Hp) Hin Hb.
  assert (packable (STRUCT d) (<[key := v]> (dict d))) as [r' Hr'].
  { apply pack_loop_total. assert (packable (STRUCT d) (dict d)) as Hpk by (by exists r).
    rewrite pack_loop_total in Hpk. rewrite Forall_forall in Hpk |- *.
    intros [k f'] Hk. cbn. destruct (decide (key = k)) as [->|Hne].
    - rewrite lookup_insert_eq. exists v, b. split; [done|].
      by rewrite (nodup_keys_inj _ k f' f Hnd Hk Hin).
    - rewrite lookup_insert_ne by done. apply (Hpk (k, f') Hk). }
  assert (key ∈ (STRUCT d).*1) as Hkey by (apply list_elem_of_fmap; by exists (key, f)).
  eexists; split; [by apply setattr_field|]. split; [|done]. by exists r'.
Qed.

(** An attribute outside the layout leaves the buffer as it is. *)
Lemma pack_loop_ext L m m' raw :
  Forall (fun kf => m !! kf.1 = m' !! kf.1) L -> pack_loop L m raw = pack_loop L m' raw.
Proof.
  intros H. revert raw. induction H as [|[k f] L Hk _ IH]; intros raw; [done|]. cbn in *.
  rewrite Hk. destruct (m' !! k); [|done]. by destruct (pack_field _ _).
Qed.
Lemma setattr_extra d key v :
  consistent d -> key ∉ (STRUCT d).*1 ->
  exists d', __setattr__ key v d = (Ret tt, d') /\ consistent d' /\
    STRUCT d' = STRUCT d /\ dict d' = <[key := v]> (dict d).
Proof.
  intros (raw & Hr & Hp) Hk. eexists. split; [by apply setattr_other|]. split; [|done].
  exists raw. split; [done|]. cbn. rewrite <- Hp. apply pack_loop_ext, Forall_forall.
  intros [k f] Hin. cbn. apply lookup_insert_ne. intros ->. apply Hk, list_elem_of_fmap.
  by exists (k, f).
Qed.

(** A series of assignments, each to a field that can hold the value or to an
    attribute outside the layout. *)
Definition assignable (L : layout) (kv : string * fval) : Prop :=
  (exists f b, (kv.1, f) ∈ L /\ pack_field f kv.2 = Ret b) \/ kv.1 ∉ L.*1.
Lemma assign_keeps kvs : forall d,
  layout_ok (STRUCT d) = true -> consistent d -> Forall (assignable (STRUCT d)) kvs ->
  exists d', assign kvs d = (Ret tt, d') /\ consistent d' /\
    STRUCT d' = STRUCT d /\ dict d' = insert_all (dict d) kvs.
Proof.
  induction kvs as [|[k v] kvs IH]; intros d HL Hc Hall; [by exists d|].
  apply Forall_cons in Hall as [Hk Hall].
  assert (exists d1, __setattr__ k v d = (Ret tt, d1) /\ consistent d1 /\
            STRUCT d1 = STRUCT d /\ dict d1 = <[k := v]> (dict d)) as (d1 & H1 & Hc1 & HS & Hd).
  { destruct Hk as [(f & b & Hin & Hb)|Hk]; [by eapply setattr_keeps|by apply setattr_extra]. }
  destruct (IH d1) as (d' & H' & Hc' & HS' & Hd'); [by rewrite HS|done|by rewrite HS|].
  exists d'. split; [cbn; unfold pm_bind; by rewrite H1|]. split; [done|].
  split; [congruence|]. by rewrite Hd', Hd.
Qed.

(** * What travels through the buffer *)

Definition zero_val (c : code) : sval :=
  match c with CInt _ => SInt 0 | CStr n | CPad n => SStr (zeros n) end.
(** The value a reader of the buffer finds for a field written as [v]: an unset
    field reads as zero, a string is cut or padded to its width. *)
Definition wire_val (f : fmt) (v : fval) : fval :=
  match f_codes f, v with
  | [c], FNone => FVal (zero_val c)
  | [c], FVal v | [c], FSeq [v] => FVal (norm_val c v)
  | _, _ => FNone
  end.

Lemma le_combine_zeros n : le_combine (replicate n 0) = 0.
Proof. induction n; cbn [replicate le_combine]; lia. Qed.
Lemma int_combine_zeros o n : int_combine o (replicate n 0) = 0.
Proof.
  destruct o; cbn; [apply le_combine_zeros|].
  unfold be_combine. rewrite reverse_replicate. apply le_combine_zeros.
Qed.

Lemma pack_field_decode f v b x :
  match f_codes f with [CInt _] | [CStr _] => True | _ => False end ->
  pack_field f v = Ret b ->
  fval_of (unpack_codes (f_order f) (f_codes f) (b ++ x)) = wire_val f v /\
  drop (calcsize f) (b ++ x) = x.
Proof.
  destruct f as [o cs]; unfold wire_val, pack_field, pack, calcsize; cbn [f_order f_codes].
  intros Hc H.
  assert (exists c, cs = [c] /\ match c with CPad _ => False | _ => True end) as (c & -> & Hc')
    by (destruct cs as [|[?|?|?] [|??]]; naive_solver).
  assert (forall v, pack_codes o [c] [v] = Ret b ->
            fval_of (unpack_codes o [c] (b ++ x)) = FVal (norm_val c v) /\
            drop (sum_list_with code_size [c]) (b ++ x) = x) as Hone.
  { intros v' H'. pose proof (length_pack_codes _ _ _ _ H') as Hl.
    apply unpack_pack_codes in H'. destruct (take_drop_app b x _ Hl) as [Ht Hd].
    split; [|exact Hd]. cbn in Hl, Ht. rewrite Nat.add_0_r in Hl, Ht.
    destruct c as [w|n|n]; [| |done]; cbn in *; rewrite Ht; rewrite take_ge in H' by lia;
      destruct v'; cbn in H'; congruence. }
  destruct v as [|v|vs].
  - injection H as <-. unfold zeros.
    destruct (take_drop_app (replicate (sum_list_with code_size [c]) 0) x _
                (length_replicate _ _)) as [Ht Hd]. split; [|exact Hd].
    destruct c as [w|n|n]; [| |done]; cbn in *; rewrite Nat.add_0_r in *; rewrite Ht; cbn;
      by rewrite ?int_combine_zeros.
  - by apply Hone.
  - case_bool_decide; [|done]. destruct vs as [|v [|v' vs]]; [| by apply Hone|].
    + destruct c; done.
    + destruct c; [..|done]; cbn in H; destruct v; try done; by case_match.
Qed.

Lemma decode_pack L m out x :
  Forall (fun kf => match f_codes kf.2 with [CInt _] | [CStr _] => True | _ => False end) L ->
  pack_loop L m [] = (Ret true, out) ->
  decode L (out ++ x) = (fun kf => (kf.1, wire_val kf.2 (default FNone (m !! kf.1)))) <$> L /\
  length out = layout_size L.
Proof.
  intros HL. revert out; induction HL as [|[k f] L Hf HL IH]; intros out H; cbn in *.
  { by simplify_eq. }
  destruct (m !! k) as [v|]; [|done]. destruct (pack_field f v) as [b|] eqn:E; [|done].
  apply pack_loop_prefix in H as (o & -> & H). rewrite <- app_assoc.
  destruct (pack_field_decode f v b (o ++ x) Hf E) as [-> ->].
  destruct (IH _ H) as [-> Hlo]. split; [done|].
  rewrite length_app, Hlo. unfold layout_size. cbn.
  destruct v as [|v|vs]; cbn in E.
  - simplify_eq. unfold zeros. rewrite length_replicate. done.
  - apply length_pack_codes in E. unfold calcsize. lia.
  - case_bool_decide; [|done]. apply length_pack_codes in E. unfold calcsize. lia.
Qed.

Lemma payload_length d :
  match payload d with Some s => length s | None => 0%nat end = length (default [] (payload d)).
Proof. by destruct (payload d). Qed.

(** ** Network words *)

Lemma word_bound z : 0 <= z < 2 ^ 32 -> 0 <= z < 256 ^ Z.of_nat 4.
Proof. done. Qed.
Lemma pack_word z : 0 <= z < 2 ^ 32 -> pack_field nI (FVal (SInt z)) = Ret (be_split 4 z).
Proof.
  intros Hz%word_bound. unfold pack_field, pack. cbn -[Z.pow be_split].
  replace (_ && _) with true by (symmetry; apply andb_true_iff; rewrite Z.leb_le, Z.ltb_lt; lia).
  cbn -[be_split]. by rewrite app_nil_r.
Qed.
Lemma take_word z rest : take 4 (be_split 4 z ++ rest) = be_split 4 z /\ drop 4 (be_split 4 z ++ rest) = rest.
Proof. apply take_drop_app, length_be_split. Qed.

(** Evaluates lookups of literal keys after a series of assignments. *)
Ltac key_lookup := unfold insert_all; cbn [foldl fst snd];
  repeat first [rewrite lookup_insert_eq | rewrite lookup_insert_ne by discriminate].

(** * Properties of [DataStruct] *)

(** Decoding then encoding: an instance initialised from at least
    [STRUCT_SIZE] bytes reproduces exactly those bytes with [repr], payload
    included, and its [len] is their number. *)
Theorem unpack_repr L data :
  layout_ok L = true -> (layout_size L <= length data)%nat ->
  exists d, init_struct L data = Ret d /\ __repr__ d = Ret data /\ __len__ d = length data.
Proof.
  intros (Hnd & Hdata & _)%layout_ok_spec Hl.
  destruct (init_struct L data) as [d|] eqn:E; [|by rewrite init_struct_decode in E].
  pose proof (init_struct_payload _ _ _ Hdata Hl E) as Hp.
  rewrite init_struct_decode in E by done. injection E as <-.
  eexists; split; [done|]. unfold __repr__, __len__, STRUCT_SIZE. cbn [struct_raw_data STRUCT of_option res_bind].
  rewrite Hp, take_drop. split; [done|].
  rewrite payload_length, Hp, length_drop. lia.
Qed.

Lemma unpack_repr_witness :
  exists d, init_struct SATAFrame [1; 2; 0; 1; 170; 187] = Ret d /\
    __repr__ d = Ret [1; 2; 0; 1; 170; 187] /\ __len__ d = 6%nat.
Proof. apply unpack_repr; [reflexivity|cbn; lia]. Defined.

(** Encoding then decoding: when the buffer mirrors the attributes, an
    instance initialised from [repr] reads back every declared field (unset
    fields as zero, strings cut or padded to their width) and the payload. *)
Theorem repr_init_roundtrip d raw :
  layout_ok (STRUCT d) = true -> consistent d -> __repr__ d = Ret raw ->
  exists d', init_struct (STRUCT d) raw = Ret d' /\
    (forall k f, (k, f) ∈ STRUCT d ->
       dict d' !! k = Some (wire_val f (default FNone (dict d !! k)))) /\
    default [] (payload d') = default [] (payload d).
Proof.
  intros (Hnd & Hdata & HL)%layout_ok_spec (r & Hr & Hp) Hrepr.
  unfold __repr__ in Hrepr. rewrite Hr in Hrepr. cbn in Hrepr. injection Hrepr as <-.
  destruct (decode_pack _ _ _ [] HL Hp) as [Hdec Hlr]. rewrite app_nil_r in Hdec.
  set (p := default [] (payload d)).
  assert (layout_size (STRUCT d) <= length (r ++ p))%nat as Hlen by (rewrite length_app; lia).
  destruct (init_struct (STRUCT d) (r ++ p)) as [d'|] eqn:E; [|by rewrite init_struct_decode in E].
  exists d'. split; [done|]. split.
  - intros k f Hkf. rewrite init_struct_decode in E by done. injection E as <-. cbn [dict].
    destruct (take_drop_app r p _ Hlr) as [-> _]. apply insert_all_in.
    + by rewrite decode_keys.
    + rewrite Hdec. apply list_elem_of_fmap. by exists (k, f).
  - rewrite (init_struct_payload _ _ _ Hdata Hlen E). by destruct (take_drop_app r p _ Hlr) as [_ ->].
Qed.

Definition sata_frame_example : dstruct :=
  ((__setattr__ "seqn_num" (FVal (SInt 513)) ;! __setattr__ "direction" (FVal (SInt 1)) ;!
    __setattr__ "data" (FVal (SStr [7]))) (new_struct SATAFrame)).2.

Lemma repr_init_roundtrip_witness :
  exists d', init_struct (STRUCT sata_frame_example) [2; 1; 0; 1; 7] = Ret d' /\
    (forall k f, (k, f) ∈ STRUCT sata_frame_example ->
       dict d' !! k = Some (wire_val f (default FNone (dict sata_frame_example !! k)))) /\
    default [] (payload d') = default [] (payload sata_frame_example).
Proof.
  apply repr_init_roundtrip; [reflexivity| |reflexivity].
  exists [2; 1; 0; 1]. split; reflexivity.
Defined.

(** Assigning an in-range value to a declared field keeps the buffer equal
    to the packed attributes and changes no other attribute. *)
Theorem setattr_consistent d key f v b :
  layout_ok (STRUCT d) = true -> consistent d -> (key, f) ∈ STRUCT d ->
  pack_field f v = Ret b ->
  exists d', __setattr__ key v d = (Ret tt, d') /\ consistent d' /\
    STRUCT d' = STRUCT d /\ dict d' = <[key := v]> (dict d).
Proof. apply setattr_keeps. Qed.

Lemma setattr_consistent_witness :
  exists d', __setattr__ "sector" (FVal (SInt 2048)) (new_struct DiskSensorPacket) = (Ret tt, d') /\
    consistent d' /\ STRUCT d' = DiskSensorPacket /\
    dict d' = <["sector" := FVal (SInt 2048)]> (dict (new_struct DiskSensorPacket)).
Proof.
  apply (setattr_consistent (new_struct DiskSensorPacket) "sector" fQ (FVal (SInt 2048))
           [0; 8; 0; 0; 0; 0; 0; 0]); [reflexivity| |set_solver|reflexivity].
  apply new_struct_consistent. apply (bool_decide_unpack _). reflexivity.
Defined.

(** A failed assignment is never undone: whatever [__setattr__] does (also
    when the value does not fit its field and [struct.error] escapes), the
    attribute holds the new value afterwards. *)
Theorem setattr_never_rolls_back d key v :
  dict (__setattr__ key v d).2 !! key = Some v.
Proof.
  assert (forall L (d0 : dstruct), dict (setattr_loop L key true d0).2 = dict d0 /\
            (setattr_loop L key true d0).1 <> Ret false) as Hloop.
  { induction L as [|[k f] L IH]; intros d0; [done|]. cbn. case_bool_decide; [|apply IH].
    unfold pm_bind, _pack. destruct (pack_loop _ _ _) as [[[|]|e] raw] eqn:E; [..|done].
    - destruct (IH (set_raw raw d0)) as [-> ?]. done.
    - exfalso. clear -E. revert E. generalize (@nil Z).
      induction (STRUCT d0) as [|[k f] L IH]; intros l E; cbn in E; [done|].
      repeat case_match; try done. by eapply IH. }
  unfold __setattr__, pm_bind, pm_get, pm_modify.
  set (d1 := set_dict _ d). destruct (Hloop (STRUCT d1) d1) as [Hd Hr].
  destruct (setattr_loop _ _ _ d1) as [[[|]|e] d2] eqn:E; cbn in *;
    [rewrite Hd; apply lookup_insert_eq|done|rewrite Hd; apply lookup_insert_eq].
Qed.

(** [__getitem__] never yields a byte: an index inside the buffer gives
    [None] and an index past its end raises [IndexError]. *)
Theorem getitem_no_byte d raw index :
  struct_raw_data d = Some raw ->
  __getitem__ d index = if zlen raw <? index then Raise IndexError else Ret None.
Proof.
  intros Hr. unfold __getitem__. rewrite Hr. cbn.
  destruct (Z.ltb_spec (zlen raw) index); [|done].
  unfold py_index. pose proof (zlen_nonneg raw).
  destruct (Z.ltb_spec index 0); [lia|]. destruct (Z.ltb_spec index 0); [lia|].
  rewrite lookup_ge_None_2 by (unfold zlen in *; lia). done.
Qed.

Lemma getitem_no_byte_witness : __getitem__ (new_struct SATAFrame) 1 = Ret None.
Proof. apply (getitem_no_byte _ [0; 0; 0; 0]). reflexivity. Defined.

(** [__eq__] ignores every field that does not start the buffer: once the
    first field agrees, buffers of the right length compare equal whatever
    the bytes of the later fields are, for any layout whose fields are no longer
    than the bytes before them. *)
Theorem eq_ignores_later_fields d raw comp k f L :
  STRUCT d = (k, f) :: L -> struct_raw_data d = Some raw ->
  Forall (fun kf => is_Some (dict d !! kf.1)) (STRUCT d) ->
  Forall (fun kf => (calcsize kf.2 <= calcsize f)%nat) L ->
  length comp = __len__ d -> take (calcsize f) comp = take (calcsize f) raw ->
  __eq__ d comp = Ret true.
Proof.
  intros HS Hr Hall HL Hlen Hpre. unfold __eq__. rewrite bool_decide_eq_true_2 by done.
  rewrite Hr, HS. rewrite HS in Hall. cbn [of_option res_bind]. apply Forall_cons in Hall as [[v Hv] Hall].
  assert (forall off, Z.of_nat (calcsize f) <= off -> eq_loop L (dict d) raw comp off = Ret true) as Hrest.
  { clear Hv v HS. induction L as [|[k' f'] L IH]; intros off Hoff; [done|].
    apply Forall_cons in Hall as [[v' Hv'] Hall]. apply Forall_cons in HL as [Hf' HL].
    cbn in *. rewrite Hv'. cbn.
    assert (forall l : bytes, slice l off (Z.of_nat (calcsize f')) = []) as Hempty.
    { intros l. unfold slice. pose proof (zlen_nonneg l). rewrite !clamp_nonneg by lia.
      apply nil_length_inv. rewrite length_take, length_drop. lia. }
    rewrite !Hempty. rewrite bool_decide_eq_true_2 by done.
    destruct v'; apply IH; auto; lia. }
  cbn in *. rewrite Hv. cbn.
  assert (forall l : bytes, slice l 0 (Z.of_nat (calcsize f)) = take (calcsize f) l) as Hs.
  { intros l. unfold slice. rewrite !clamp_nonneg by (pose proof (zlen_nonneg l); lia).
    replace (Z.to_nat (Z.min 0 (zlen l))) with 0%nat by (pose proof (zlen_nonneg l); lia).
    rewrite drop_0, Nat.sub_0_r. unfold zlen.
    destruct (Nat.le_gt_cases (calcsize f) (length l)).
    - f_equal. lia.
    - rewrite !take_ge by lia. done. }
  rewrite !Hs, Hpre, bool_decide_eq_true_2 by done. destruct v; apply Hrest; lia.
Qed.

(** Two disk packets that differ in sector count, operation and size. *)
Lemma eq_ignores_later_fields_witness :
  __eq__ (new_struct DiskSensorPacket)
    [0;0;0;0;0;0;0;0; 1;0;0;0; 1;0;0;0; 9;9;9;9] = Ret true.
Proof.
  apply (eq_ignores_later_fields _ (zeros 20) _ "sector" fQ
           [("num_sectors", fI); ("disk_operation", fI); ("size", fI)]);
    [reflexivity|reflexivity| | |reflexivity|reflexivity].
  - repeat constructor; vm_compute; eauto.
  - repeat constructor; vm_compute; lia.
Defined.

