(* ===== verification/Stream.v ===== *)
(** A stream socket as its reader sees it, shared by the components that read messages from one
    ([Controller], [DiskVirtual], [DiskServer]). *)
From S2P Require Import Prelude.

(** A socket: the bytes on the way and how many of them each call finds; [recv] blocks for
    the first byte and returns nothing when the peer has closed. *)
Record sock_state := Socket { pending_bytes : bytes; arrivals : list nat }.
Definition sock_recv (n : nat) : PM sock_state bytes := fun s =>
  let k := Nat.min n (match arrivals s with a :: _ => Nat.max 1 a | [] => n end) in
  (Ret (take k (pending_bytes s)), Socket (drop k (pending_bytes s)) (tail (arrivals s))).

(** No call finds fewer than [m] bytes unless fewer are left. *)
Definition whole (m : nat) (s : sock_state) : Prop := Forall (fun a => m <= a)%nat (arrivals s).
Lemma whole_next m s k : whole m s -> whole m (Socket (drop k (pending_bytes s)) (tail (arrivals s))).
Proof. unfold whole. by destruct 1. Qed.

Lemma whole_le m n s : whole m s -> (n <= m)%nat -> whole n s.
Proof. intros H ?. unfold whole in *. eapply Forall_impl; [exact H|]. intros a Ha. cbn in Ha. lia. Qed.

(** What [recv] gives: some bytes of those on the way, and all that is asked for if calls find as many *)
Lemma recv_some n s : (0 < n)%nat ->
  exists k, (0 < k <= n)%nat /\ sock_recv n s = (Ret (take k (pending_bytes s)), Socket (drop k (pending_bytes s)) (tail (arrivals s))) /\
    (forall m, whole m s -> (m <= n)%nat -> (m <= k)%nat).
Proof.
  intros Hn. unfold sock_recv. eexists. split_and!; [| |reflexivity|]; destruct (arrivals s) as [|a l] eqn:Ha; try lia.
  intros m Hf. unfold whole in Hf. rewrite Ha in Hf. inversion Hf. lia.
Qed.
Lemma recv_all n s : (0 < n)%nat -> whole n s ->
  sock_recv n s = (Ret (take n (pending_bytes s)), Socket (drop n (pending_bytes s)) (tail (arrivals s))).
Proof. intros Hn Hw. destruct (recv_some n s Hn) as (k & Hk & Hr & Hm). assert (k = n) as -> by (specialize (Hm n Hw); lia). exact Hr. Qed.
