(* ===== verification/Sata.v ===== *)
(** Model of [lophi_semanticgap/disk/sata.py] (decoding of SATA frames captured
    by the physical disk sensor) and of [flip_endianess] of [lophi/globals.py]. *)
From S2P Require Import Prelude Struct.

(** * [lophi.globals.flip_endianess] *)

(** Reverses each whole 32-bit word; [len(data) % 4] trailing bytes are lost. *)
Fixpoint flip_endianess (data : bytes) : bytes :=
  match data with
  | b0 :: b1 :: b2 :: b3 :: rest => b3 :: b2 :: b1 :: b0 :: flip_endianess rest
  | _ => []
  end.

(** * Frame types *)

Module FrameType.
Definition RegisterFIS_HtoD := 0x27.
Definition RegisterFIS_DtoH := 0x34.
Definition DMAActivateFIS := 0x39.
Definition DMASetupFIS := 0x41.
Definition DataFIS := 0x46.
Definition BISTActivateFIS := 0x58.
Definition PIOSetupFIS := 0x5f.
Definition SetDeviceBitsFIS := 0xa1.
(** The keys of [type_lookup], the names used in log messages. *)
Definition type_lookup_keys : list Z := [0x27; 0x34; 0x39; 0x41; 0x46; 0x58; 0x5f; 0xa1].
(** [FrameType.type_lookup[t]] *)
Definition type_lookup (t : Z) : res unit :=
  if bool_decide (t ∈ type_lookup_keys) then Ret tt else Raise KeyError.
End FrameType.

Module NCQCommandType.
Definition ReadFPDMAQueued := 0x60.
Definition WriteFPDMAQueued := 0x61.
Definition NCQQueueManagement := 0x63.
End NCQCommandType.

(** * [SATAInterpreter] *)

(** The dictionaries [sata_header]: which keys exist depends on the frame type. *)
Abbreviation header := (gmap string Z).
(** [sata_header[key]] *)
Definition hget (h : header) (key : string) : res Z := of_option KeyError (h !! key).

(** The fields of a struct of integers. *)
Definition unpack_ints (f : fmt) (d : bytes) : res (list Z) :=
  let? vs := unpack f d in
  Ret ((fun v => match v with SInt z => z | SStr _ => 0 end) <$> vs).

Definition _extract_header (HEADER : fmt) (packet : bytes) : res (list Z * bytes) :=
  let header_len := calcsize HEADER in
  let? extracted := unpack_ints HEADER (take header_len packet) in
  Ret (extracted, drop header_len packet).

(** Resolution of a name that is not local to the function: module globals. *)
Definition name (globals : gmap string Z) (n : string) : res Z := of_option NameError (globals !! n).

Definition codes (ws : list nat) : fmt := Fmt Network (CInt <$> ws).
Definition HEADER_27 : fmt := codes [1;1;1;1; 1;1;2; 1;1;2; 1;1;2; 4]%nat.
Definition HEADER_34 : fmt := codes [1;1;1;1; 1;1;2; 1;1;2; 2;2; 4]%nat.
Definition HEADER_41 : fmt := codes [1;1;1;1; 4; 4; 4; 4; 4; 4]%nat.
Definition HEADER_5f : fmt := codes [1;1;1;1; 1;1;2; 1;1;2; 1;1;2; 2;2]%nat.
Definition HEADER_46 : fmt := codes [1;1;1;1]%nat.
Definition HEADER_39 : fmt := codes [2;1;1]%nat.
Definition HEADER_a1 : fmt := codes [1;1;1;1; 4]%nat.

(** [lba1 = e5 << 16 | e6; lba2 = e8 << sh | e9; lba = lba2 << 24 | lba1] *)
Definition lba_of (e5 e6 e8 e9 sh : Z) : Z :=
  let lba1 := Z.lor (Z.shiftl e5 (8 * 2)) e6 in
  let lba2 := Z.lor (Z.shiftl e8 sh) e9 in
  Z.lor (Z.shiftl lba2 (8 * 3)) lba1.

Section interpreter.
(** The module's global names; [direction] and [lophi_seqn] are read from it. *)
Context (globals : gmap string Z).

(** 27h Register FIS - Host to Device *)
Definition extract_27 (mt : Z) (packet : bytes) : res (header * bytes) :=
  let? ed := _extract_header HEADER_27 packet in
  match ed.1 with
  | [e0; e1; e2; e3; e4; e5; e6; e7; e8; e9; e10; e11; e12; e13] =>
      let? direction := name globals "direction" in
      Ret (list_to_map
        [("type", mt); ("features", Z.lor e0 (Z.shiftl e7 8)); ("command", e1);
         ("C", Z.shiftr (Z.land e2 128) 7); ("pm_port", Z.land e2 15); ("fis_type", e3);
         ("device", e4); ("lba", lba_of e5 e6 e8 e9 (8 * 2)); ("control", e10); ("icc", e11);
         ("count", e12); ("tag", Z.land (Z.shiftr e12 3) 31); ("direction", direction);
         ("reserved", e13)], ed.2)
  | _ => Raise IndexError
  end.

(** 34h Register FIS - Device to Host *)
Definition extract_34 (mt : Z) (packet : bytes) : res (header * bytes) :=
  let? ed := _extract_header HEADER_34 packet in
  match ed.1 with
  | [e0; e1; e2; e3; e4; e5; e6; e7; e8; e9; e10; e11; e12] =>
      let? direction := name globals "direction" in
      Ret (list_to_map
        [("type", mt); ("error", e0); ("status", e1);
         ("interrupt", Z.shiftr (Z.land e2 64) 6); ("pm_port", Z.land e2 15);
         ("fis_type", e3); ("device", e4); ("lba", lba_of e5 e6 e8 e9 (8 * 2));
         ("count", e11); ("direction", direction); ("reserved0", e7);
         ("reserved1", e10); ("reserved2", e12)], ed.2)
  | _ => Raise IndexError
  end.

(** 41h DMA Setup FIS *)
Definition extract_41 (mt : Z) (packet : bytes) : res (header * bytes) :=
  let? ed := _extract_header HEADER_41 packet in
  match ed.1 with
  | [e0; e1; e2; e3; e4; e5; e6; e7; e8; e9] =>
      let? direction := name globals "direction" in
      Ret (list_to_map
        [("type", mt); ("auto_activate", Z.shiftr (Z.land e2 128) 7);
         ("interrupt", Z.shiftr (Z.land e2 64) 6);
         ("direction_bit", Z.shiftr (Z.land e2 32) 5); ("direction", direction);
         ("pm_port", Z.land e2 15); ("fis_type", e3); ("dma_buf_identifier_low", e4);
         ("dma_buf_identifier_high", e5); ("dma_buf_offset", e7); ("transfer_count", e8);
         ("reserved0", e6); ("reserved1", e9)], ed.2)
  | _ => Raise IndexError
  end.

(** 5Fh PIO Setup FIS *)
Definition extract_5f (mt : Z) (packet : bytes) : res (header * bytes) :=
  let? ed := _extract_header HEADER_5f packet in
  match ed.1 with
  | [e0; e1; e2; e3; e4; e5; e6; e7; e8; e9; e10; e11; e12; e13; e14] =>
      let? direction := name globals "direction" in
      Ret (list_to_map
        [("type", mt); ("error", e0); ("status", e1);
         ("direction_bit", Z.shiftr (Z.land e2 16) 4); ("direction", direction);
         ("pm_port", Z.land e2 15); ("fis_type", e3); ("device", e4);
         ("lba", lba_of e5 e6 e8 e9 (8 * 3)); ("count", e12); ("transfer_count", e14)], ed.2)
  | _ => Raise IndexError
  end.

(** 46h Data FIS *)
Definition extract_46 (mt : Z) (packet : bytes) : res (header * bytes) :=
  let? ed := _extract_header HEADER_46 packet in
  let? direction := name globals "direction" in
  Ret (list_to_map [("type", mt); ("direction", direction)], ed.2).

(** 39h DMA Activate FIS *)
Definition extract_39 (mt : Z) (packet : bytes) : res (header * bytes) :=
  let? ed := _extract_header HEADER_39 packet in
  match ed.1 with
  | [e0; e1; e2] =>
      let? direction := name globals "direction" in
      Ret (list_to_map [("pm_port", Z.land e1 15); ("type", mt); ("direction", direction);
                        ("reserved", e0)], ed.2)
  | _ => Raise IndexError
  end.

(** A1h Set Device Bits FIS *)
Definition extract_a1 (mt : Z) (packet : bytes) : res (header * bytes) :=
  let? ed := _extract_header HEADER_a1 packet in
  match ed.1 with
  | [e0; e1; e2; e3; e4] =>
      let? direction := name globals "direction" in
      Ret (list_to_map
        [("error", e0); ("status_hi", Z.shiftr (Z.land e1 112) 4); ("status_lo", Z.land e1 7);
         ("notification", Z.shiftr (Z.land e2 128) 7);
         ("interrupt", Z.shiftr (Z.land e2 64) 6); ("pm_port", Z.land e2 15); ("type", mt);
         ("direction", direction); ("proto", e4)], ed.2)
  | _ => Raise IndexError
  end.

(** [None] when the packet is too small to hold a header. *)
Definition extract_sata_data (packet : bytes) : res (option (header * option bytes)) :=
  if zlen packet <? 4 then Ret None else
  let? header_tmp := unpack_ints HEADER_46 (take 4 packet) in
  let? message_type := py_index header_tmp 3 in
  let known (r : res (header * bytes)) : res (header * option bytes) :=
    let? hd := r in Ret (hd.1, Some (flip_endianess hd.2)) in
  let? hd :=
    (if message_type =? 0x27 then known (extract_27 message_type packet)
     else if message_type =? 0x34 then known (extract_34 message_type packet)
     else if message_type =? 0x41 then known (extract_41 message_type packet)
     else if message_type =? 0x5f then known (extract_5f message_type packet)
     else if message_type =? 0x46 then known (extract_46 message_type packet)
     else if message_type =? 0x39 then known (extract_39 message_type packet)
     else if message_type =? 0xa1 then known (extract_a1 message_type packet)
     else Ret (∅, None)) in
  let? lophi_seqn := name globals "lophi_seqn" in
  Ret (Some (<["lophi_seqn" := lophi_seqn]> hd.1, hd.2)).
End interpreter.

(** [sata.py] binds neither [direction] nor [lophi_seqn] at module level: the
    lines that assigned them in the function are commented out. *)
Definition module_globals : gmap string Z := ∅.

(** * Lemmas *)

Lemma lor_shiftl_add a b n :
  0 <= n -> 0 <= b < 2 ^ n -> Z.lor (Z.shiftl a n) b = a * 2 ^ n + b.
Proof.
  intros Hn Hb. rewrite <- Z.shiftl_mul_pow2 by lia.
  assert (Z.land (Z.shiftl a n) b = 0) as Hl.
  { apply Z.bits_inj'. intros i Hi. rewrite Z.land_spec, Z.bits_0, Z.shiftl_spec by lia.
    destruct (Z.lt_ge_cases i n).
    - by rewrite Z.testbit_neg_r by lia.
    - destruct (decide (b = 0)) as [->|]; [by rewrite Z.bits_0, andb_false_r|].
      rewrite (Z.bits_above_log2 b i); [by rewrite andb_false_r|lia|].
      apply Z.lt_le_trans with n; [apply Z.log2_lt_pow2; lia|lia]. }
  rewrite <- Z.lxor_lor by done. by rewrite <- Z.add_nocarry_lxor by done.
Qed.

Lemma lba_of_16 e5 e6 e8 e9 :
  0 <= e5 < 256 -> 0 <= e6 < 65536 -> 0 <= e9 < 65536 ->
  lba_of e5 e6 e8 e9 16 = (e8 * 2 ^ 16 + e9) * 2 ^ 24 + (e5 * 2 ^ 16 + e6).
Proof.
  intros. unfold lba_of. rewrite !lor_shiftl_add; lia || (rewrite lor_shiftl_add; lia).
Qed.

Lemma unpack_ints_pack ws zs bs rest :
  pack (codes ws) (SInt <$> zs) = Ret bs ->
  _extract_header (codes ws) (bs ++ rest) = Ret (zs, rest).
Proof.
  intros H. unfold pack, codes in H. cbn [f_order f_codes] in H.
  pose proof (length_pack_codes _ _ _ _ H) as Hl.
  unfold _extract_header, unpack_ints, unpack.
  change (calcsize (codes ws)) with (sum_list_with code_size (CInt <$> ws)).
  destruct (take_drop_app bs rest _ Hl) as [-> ->].
  rewrite bool_decide_eq_true_2 by exact Hl. cbn [codes f_order f_codes res_bind].
  rewrite (unpack_pack_codes _ _ _ _ H). f_equal. f_equal. clear Hl rest.
  revert zs bs H; induction ws as [|w ws IH]; intros [|z zs] bs H; cbn in *; try done.
  f_equal. case_match; [|done].
  destruct (pack_codes Network (CInt <$> ws) (SInt <$> zs)) as [b|] eqn:E; [|done].
  by eapply IH.
Qed.

(** * Properties *)

(** The fields of a host-to-device register FIS (Serial ATA 3.0). *)
Record register_fis := {
  r_features : Z; r_command : Z; r_C : Z; r_pm_port : Z; r_device : Z; r_lba : Z;
  r_control : Z; r_icc : Z; r_count : Z; r_reserved : Z
}.
Definition register_fis_ok (r : register_fis) : Prop :=
  0 <= r_features r < 2 ^ 16 /\ 0 <= r_command r < 256 /\ 0 <= r_C r < 2 /\
  0 <= r_pm_port r < 16 /\ 0 <= r_device r < 256 /\ 0 <= r_lba r < 2 ^ 48 /\
  0 <= r_control r < 256 /\ 0 <= r_icc r < 256 /\ 0 <= r_count r < 2 ^ 16 /\
  0 <= r_reserved r < 2 ^ 32.
(** The five words of the frame, most significant byte first. *)
Definition register_fis_words (r : register_fis) : list Z :=
  [r_features r mod 256; r_command r; r_C r * 128 + r_pm_port r; 0x27;
   r_device r; r_lba r / 2 ^ 16 mod 256; r_lba r mod 2 ^ 16;
   r_features r / 256; r_lba r / 2 ^ 40; r_lba r / 2 ^ 24 mod 2 ^ 16;
   r_control r; r_icc r; r_count r; r_reserved r].
Definition encode_register_fis (r : register_fis) : res bytes :=
  pack HEADER_27 (SInt <$> register_fis_words r).

(** The header the interpreter is meant to produce for it. *)
Definition register_header (r : register_fis) (direction lophi_seqn : Z) : header :=
  <["lophi_seqn" := lophi_seqn]> (list_to_map
    [("type", 0x27); ("features", r_features r); ("command", r_command r); ("C", r_C r);
     ("pm_port", r_pm_port r); ("fis_type", 0x27); ("device", r_device r); ("lba", r_lba r);
     ("control", r_control r); ("icc", r_icc r); ("count", r_count r);
     ("tag", Z.land (Z.shiftr (r_count r) 3) 31); ("direction", direction);
     ("reserved", r_reserved r)]).

Lemma c_pm_bits c p : 0 <= c < 2 -> 0 <= p < 16 ->
  Z.shiftr (Z.land (c * 128 + p) 128) 7 = c /\ Z.land (c * 128 + p) 15 = p.
Proof.
  intros Hc Hp. assert (c = 0 \/ c = 1) as [-> | ->] by lia;
  (assert (exists n : nat, (n < 16)%nat /\ p = Z.of_nat n) as (n & Hn & ->)
     by (exists (Z.to_nat p); lia);
   do 16 (destruct n as [|n]; [split; reflexivity|]); lia).
Qed.

Lemma features_split x : 0 <= x < 2 ^ 16 -> Z.lor (x mod 256) (Z.shiftl (x / 256) 8) = x.
Proof.
  intros. rewrite Z.lor_comm, lor_shiftl_add by (pose proof (Z.mod_pos_bound x 256); lia).
  pose proof (Z.div_mod x 256). lia.
Qed.

Lemma lba_split x : 0 <= x < 2 ^ 48 ->
  lba_of (x / 2 ^ 16 mod 256) (x mod 2 ^ 16) (x / 2 ^ 40) (x / 2 ^ 24 mod 2 ^ 16) 16 = x.
Proof.
  intros. rewrite lba_of_16; [|apply Z.mod_pos_bound; lia..].
  change (2 ^ 16) with 65536. change (2 ^ 24) with 16777216.
  change (2 ^ 40) with 1099511627776.
  Z.to_euclidean_division_equations; lia.
Qed.

Lemma unpack_codes_prefix4 a b c d rest :
  unpack_ints HEADER_46 (take 4 (a :: b :: c :: d :: rest)) = Ret [a + 0; b + 0; c + 0; d + 0].
Proof. reflexivity. Qed.

Lemma pack_words ws zs :
  Forall2 (fun w z => 0 <= z < 256 ^ Z.of_nat w) ws zs ->
  exists bs, pack (codes ws) (SInt <$> zs) = Ret bs.
Proof.
  unfold pack, codes; cbn [f_order f_codes].
  induction 1 as [|w z ws zs Hz _ [bs IH]]; [by exists []|]. cbn -[Z.pow].
  replace (_ && _) with true by (symmetry; apply andb_true_iff; rewrite Z.leb_le, Z.ltb_lt; lia).
  unfold pack_codes in IH; fold pack_codes in IH. rewrite IH. cbn. eauto.
Qed.

Lemma pack_first4 ws a b c d zs bs :
  pack (codes (1 :: 1 :: 1 :: 1 :: ws)%nat) (SInt <$> a :: b :: c :: d :: zs) = Ret bs ->
  exists rest, bs = a :: b :: c :: d :: rest.
Proof.
  unfold pack, codes. cbn -[Z.pow Z.leb Z.ltb Z.modulo]. intros H.
  repeat match type of H with
  | context [if ?x then _ else _] => destruct x eqn:?; [|done]
  end.
  destruct (pack_codes _ _ _) as [l|] eqn:?; [|done]. cbn -[Z.pow Z.leb Z.ltb Z.modulo] in H.
  repeat match goal with
  | H : (_ <=? _) && (_ <? _) = true |- _ => apply andb_true_iff in H as [?%Z.leb_le ?%Z.ltb_lt]
  end.
  unfold be_split in H. cbn -[Z.pow Z.modulo Z.div] in H. simplify_eq.
  rewrite !Z.mod_small by (change (256 ^ Z.of_nat 1) with 256 in *; lia). eauto.
Qed.

(** With [direction] and [lophi_seqn] bound, a host-to-device register frame
    decodes to exactly the fields it was built from (48-bit LBA, 16-bit features and
    count, C bit, port, and the tag in bits 7:3 of the count), and the rest of the
    packet is the word-swapped payload. *)
Theorem extract_register_roundtrip g r direction lophi_seqn fis payload :
  register_fis_ok r -> encode_register_fis r = Ret fis ->
  g !! "direction" = Some direction -> g !! "lophi_seqn" = Some lophi_seqn ->
  extract_sata_data g (fis ++ payload) =
    Ret (Some (register_header r direction lophi_seqn, Some (flip_endianess payload))).
Proof.
  intros Hok Henc Hd Hs. destruct (pack_first4 _ _ _ _ _ _ _ Henc) as [rest Hfis].
  assert (_extract_header HEADER_27 (fis ++ payload) = Ret (register_fis_words r, payload)) as Hx
    by (by apply unpack_ints_pack).
  unfold extract_sata_data.
  assert (zlen (fis ++ payload) <? 4 = false) as ->.
  { apply Z.ltb_ge. rewrite Hfis, zlen_app, !zlen_cons.
    pose proof (zlen_nonneg rest). pose proof (zlen_nonneg payload). lia. }
  assert (unpack_ints HEADER_46 (take 4 (fis ++ payload)) =
          Ret [r_features r mod 256 + 0; r_command r + 0; r_C r * 128 + r_pm_port r + 0; 0x27]) as ->
    by (rewrite Hfis; reflexivity).
  cbn [res_bind py_index zlen length]. change (py_index _ 3) with (Ret 0x27). cbn [res_bind].
  change (0x27 =? 0x27) with true. cbn [res_bind].
  unfold extract_27. rewrite Hx. cbn [res_bind fst snd register_fis_words].
  unfold name. rewrite Hd, Hs. cbn [of_option res_bind fst snd].
  destruct Hok as (Hf & Hc & HC & Hp & Hdev & Hl & Hrest).
  destruct (c_pm_bits (r_C r) (r_pm_port r) HC Hp) as [-> ->].
  rewrite features_split by done. change (8 * 2) with 16. by rewrite lba_split.
Qed.

Definition register_example : register_fis :=
  {| r_features := 8; r_command := 0x60; r_C := 1; r_pm_port := 0; r_device := 64;
     r_lba := 0x123456789ABC; r_control := 0; r_icc := 0; r_count := 40; r_reserved := 0 |}.

Lemma extract_register_roundtrip_witness :
  extract_sata_data {["direction" := 0; "lophi_seqn" := 7]}
    ([8;96;128;39; 64;120;154;188; 0;18;52;86; 0;0;0;40; 0;0;0;0] ++ [1;2;3;4]) =
    Ret (Some (register_header register_example 0 7, Some [4;3;2;1])).
Proof.
  apply (extract_register_roundtrip _ register_example); [|reflexivity..].
  repeat split; vm_compute; congruence.
Defined.

(** As the module stands the interpreter never decodes a frame: a packet of
    four bytes or more always ends in an exception (the unbound [direction] or
    [lophi_seqn], or a short header), and a shorter one gives [None]. *)
Theorem extract_never_decodes packet :
  if zlen packet <? 4 then extract_sata_data module_globals packet = Ret None
  else exists e, extract_sata_data module_globals packet = Raise e.
Proof.
  destruct (zlen packet <? 4) eqn:E; unfold extract_sata_data; rewrite E; [done|].
  destruct packet as [|a [|b [|c [|d rest]]]]; [discriminate E..|].
  rewrite unpack_codes_prefix4. cbn [res_bind].
  change (py_index _ 3) with (Ret (d + 0)). cbn [res_bind].
  repeat match goal with
  | |- exists e, res_bind (if ?x then _ else _) _ = _ => destruct x
  | |- exists e, res_bind (res_bind ?x _) _ = _ => destruct x as [[??]|]; cbn; eauto
  end; eauto.
Qed.

(** [flip_endianess] keeps the whole words of its argument: it is its own
    inverse on whole words, and drops the last [len % 4] bytes. *)
Theorem flip_endianess_involutive data :
  flip_endianess (flip_endianess data) = take (4 * (length data / 4)) data.
Proof.
  induction data as [|a|a b|a b c|a b c d rest IH] using list_ind4; [done..|].
  cbn [flip_endianess length]. rewrite IH.
  replace (S (S (S (S (length rest)))))%nat with (length rest + 1 * 4)%nat by lia.
  rewrite Nat.div_add by lia. by replace (4 * (length rest / 4 + 1))%nat
    with (S (S (S (S (4 * (length rest / 4))))))%nat by lia.
Qed.

(** In a PIO setup frame the high LBA byte is shifted by 24 instead of 16 bits:
    the decoded LBA counts that byte eight binary orders too high. *)
Theorem pio_lba_shift e5 e6 e8 e9 :
  0 <= e5 < 256 -> 0 <= e6 < 65536 -> 0 <= e9 < 65536 ->
  lba_of e5 e6 e8 e9 (8 * 3) = lba_of e5 e6 e8 e9 (8 * 2) + e8 * (2 ^ 48 - 2 ^ 40).
Proof.
  intros. change (8 * 2) with 16. rewrite lba_of_16 by done. unfold lba_of.
  rewrite (lor_shiftl_add e8) by lia. rewrite (lor_shiftl_add e5) by lia.
  rewrite lor_shiftl_add by lia. lia.
Qed.

Lemma pio_lba_shift_witness : lba_of 1 2 3 4 (8 * 3) = lba_of 1 2 3 4 (8 * 2) + 3 * (2 ^ 48 - 2 ^ 40).
Proof. apply pio_lba_shift; lia. Defined.
