(* ===== verification/SataReconstructor.v ===== *)
(** Model of [lophi_semanticgap/disk/sata_reconstructor.py]: the state machine
    that turns SATA frames, reordered by native command queuing (NCQ), back into
    disk transactions.  Log messages are kept where evaluating their arguments
    can raise; [host_queue] and [device_queue] are created and never used. *)
From S2P Require Import Prelude Struct DataStruct Sata.

(** * Data *)

Record packet := PhysicalPacket { sata_header : header; sata_data : option bytes }.

(** [physical_packet.sata_header[key]] *)
Definition hdr (p : packet) (key : string) : res Z := hget (sata_header p) key.
(** [physical_packet.sata_data[:-4]]: the frame's payload without its checksum. *)
Definition data_nocrc (p : packet) : res bytes :=
  let? d := of_option TypeError (sata_data p) in Ret (slice_to d (-4)).

Definition DEVICE_IDLE := 0.
Definition WAIT_FOR_REGISTER_ACK := 1.
Definition WAIT_FOR_DMA_DATA_DEVICE := 2.
Definition WAIT_FOR_DMA_DATA_HOST := 3.
Definition WAIT_FOR_NON_NCQ_DATA := 4.
Definition HOST_TO_DEVICE := 0.
Definition DEVICE_TO_HOST := 1.

(** [G.SATA_OP.DIRECTION] *)
Definition DIRECTION_READ := 0.
Definition DIRECTION_WRITE := 1.

Record recon := Recon {
  sector_size : Z;
  regular_register_stack : list packet;
  regular_disk_sensor_packet : option dstruct;
  ncq_register_stack : list packet;
  ncq_dma_stack : list packet;
  ncq_transactions_outstanding : list (option packet);
  ncq_data_outstanding : list (option dstruct);
  ncq_data_packets : list packet;
  ncq_data_len : Z;
  last_packet_seqno : option Z;
  STATE : Z;
  num_errors : Z;
  total_frames : Z
}.

Definition set_regular_register_stack (x : list packet) (s : recon) : recon :=
  Recon (sector_size s) x (regular_disk_sensor_packet s) (ncq_register_stack s) (ncq_dma_stack s) (ncq_transactions_outstanding s) (ncq_data_outstanding s) (ncq_data_packets s) (ncq_data_len s) (last_packet_seqno s) (STATE s) (num_errors s) (total_frames s).
Definition set_regular_disk_sensor_packet (x : option dstruct) (s : recon) : recon :=
  Recon (sector_size s) (regular_register_stack s) x (ncq_register_stack s) (ncq_dma_stack s) (ncq_transactions_outstanding s) (ncq_data_outstanding s) (ncq_data_packets s) (ncq_data_len s) (last_packet_seqno s) (STATE s) (num_errors s) (total_frames s).
Definition set_ncq_register_stack (x : list packet) (s : recon) : recon :=
  Recon (sector_size s) (regular_register_stack s) (regular_disk_sensor_packet s) x (ncq_dma_stack s) (ncq_transactions_outstanding s) (ncq_data_outstanding s) (ncq_data_packets s) (ncq_data_len s) (last_packet_seqno s) (STATE s) (num_errors s) (total_frames s).
Definition set_ncq_dma_stack (x : list packet) (s : recon) : recon :=
  Recon (sector_size s) (regular_register_stack s) (regular_disk_sensor_packet s) (ncq_register_stack s) x (ncq_transactions_outstanding s) (ncq_data_outstanding s) (ncq_data_packets s) (ncq_data_len s) (last_packet_seqno s) (STATE s) (num_errors s) (total_frames s).
Definition set_ncq_transactions_outstanding (x : list (option packet)) (s : recon) : recon :=
  Recon (sector_size s) (regular_register_stack s) (regular_disk_sensor_packet s) (ncq_register_stack s) (ncq_dma_stack s) x (ncq_data_outstanding s) (ncq_data_packets s) (ncq_data_len s) (last_packet_seqno s) (STATE s) (num_errors s) (total_frames s).
Definition set_ncq_data_outstanding (x : list (option dstruct)) (s : recon) : recon :=
  Recon (sector_size s) (regular_register_stack s) (regular_disk_sensor_packet s) (ncq_register_stack s) (ncq_dma_stack s) (ncq_transactions_outstanding s) x (ncq_data_packets s) (ncq_data_len s) (last_packet_seqno s) (STATE s) (num_errors s) (total_frames s).
Definition set_ncq_data_packets (x : list packet) (s : recon) : recon :=
  Recon (sector_size s) (regular_register_stack s) (regular_disk_sensor_packet s) (ncq_register_stack s) (ncq_dma_stack s) (ncq_transactions_outstanding s) (ncq_data_outstanding s) x (ncq_data_len s) (last_packet_seqno s) (STATE s) (num_errors s) (total_frames s).
Definition set_ncq_data_len (x : Z) (s : recon) : recon :=
  Recon (sector_size s) (regular_register_stack s) (regular_disk_sensor_packet s) (ncq_register_stack s) (ncq_dma_stack s) (ncq_transactions_outstanding s) (ncq_data_outstanding s) (ncq_data_packets s) x (last_packet_seqno s) (STATE s) (num_errors s) (total_frames s).
Definition set_last_packet_seqno (x : option Z) (s : recon) : recon :=
  Recon (sector_size s) (regular_register_stack s) (regular_disk_sensor_packet s) (ncq_register_stack s) (ncq_dma_stack s) (ncq_transactions_outstanding s) (ncq_data_outstanding s) (ncq_data_packets s) (ncq_data_len s) x (STATE s) (num_errors s) (total_frames s).
Definition set_STATE (x : Z) (s : recon) : recon :=
  Recon (sector_size s) (regular_register_stack s) (regular_disk_sensor_packet s) (ncq_register_stack s) (ncq_dma_stack s) (ncq_transactions_outstanding s) (ncq_data_outstanding s) (ncq_data_packets s) (ncq_data_len s) (last_packet_seqno s) x (num_errors s) (total_frames s).
Definition set_num_errors (x : Z) (s : recon) : recon :=
  Recon (sector_size s) (regular_register_stack s) (regular_disk_sensor_packet s) (ncq_register_stack s) (ncq_dma_stack s) (ncq_transactions_outstanding s) (ncq_data_outstanding s) (ncq_data_packets s) (ncq_data_len s) (last_packet_seqno s) (STATE s) x (total_frames s).
Definition set_total_frames (x : Z) (s : recon) : recon :=
  Recon (sector_size s) (regular_register_stack s) (regular_disk_sensor_packet s) (ncq_register_stack s) (ncq_dma_stack s) (ncq_transactions_outstanding s) (ncq_data_outstanding s) (ncq_data_packets s) (ncq_data_len s) (last_packet_seqno s) (STATE s) (num_errors s) x.

Definition no_slots {A} : list (option A) := replicate 32 None.

(** [SATAReconstructor(sector_size)] *)
Definition new_recon (sector_size : Z) : recon :=
  Recon sector_size [] None [] [] no_slots no_slots [] 0 None DEVICE_IDLE 0 0.

(** What handlers return: [None] or a list of disk sensor packets. *)
Abbreviation result := (option (list dstruct)).
Abbreviation M := (PM recon).

Definition set_STATE_to (x : Z) : M unit := pm_modify (set_STATE x).

(** ** Disk sensor packets *)

Definition set_int (key : string) (z : Z) : PM dstruct unit := __setattr__ key (FVal (SInt z)).

(** The assignments that prepare a [DiskSensorPacket] for aggregation. *)
Definition fill_packet (lba num_sectors op size : Z) : PM dstruct unit :=
  set_int "sector" lba ;! set_int "num_sectors" num_sectors ;!
  set_int "disk_operation" op ;! set_int "size" size ;!
  __setattr__ "data" (FVal (SStr [])).

(** [packet.data] as a string *)
Definition data_str (d : dstruct) : res bytes :=
  let? v := getattr d "data" in
  match v with FVal (SStr s) => Ret s | _ => Raise TypeError end.

(** [packet.data += x] *)
Definition append_data (x : bytes) : PM dstruct unit :=
  let! s := (fun d => (data_str d, d)) in __setattr__ "data" (FVal (SStr (s ++ x))).

(** Runs a method of [self.regular_disk_sensor_packet]. *)
Definition on_regular {A} (m : PM dstruct A) : M A := fun s =>
  match regular_disk_sensor_packet s with
  | None => (Raise AttributeError, s)
  | Some d => let (r, d') := m d in (r, set_regular_disk_sensor_packet (Some d') s)
  end.

(** Runs a method of the object in slot [tag] of [self.ncq_data_outstanding]. *)
Definition on_outstanding {A} (tag : Z) (m : PM dstruct A) : M A := fun s =>
  match py_index (ncq_data_outstanding s) tag with
  | Raise e => (Raise e, s)
  | Ret None => (Raise AttributeError, s)
  | Ret (Some d) =>
      let (r, d') := m d in
      match py_setitem (ncq_data_outstanding s) tag (Some d') with
      | Ret l => (r, set_ncq_data_outstanding l s)
      | Raise e => (Raise e, s)
      end
  end.

(** [self.ncq_transactions_outstanding[tag] = x] and the same for the data table *)
Definition set_transaction (tag : Z) (x : option packet) : M unit :=
  let! l := pm_get ncq_transactions_outstanding in
  let! l' := pm_lift (py_setitem l tag x) in
  pm_modify (set_ncq_transactions_outstanding l').
Definition set_outstanding (tag : Z) (x : option dstruct) : M unit :=
  let! l := pm_get ncq_data_outstanding in
  let! l' := pm_lift (py_setitem l tag x) in
  pm_modify (set_ncq_data_outstanding l').

(** [self.ncq_dma_stack.pop()] *)
Definition pop_dma : M packet :=
  let! l := pm_get ncq_dma_stack in
  let! xl := pm_lift (py_pop l) in
  pm_modify (set_ncq_dma_stack xl.2) ;! pm_ret xl.1.

(** * Handlers *)

Definition _reset_state : M unit :=
  pm_modify (set_last_packet_seqno None) ;!
  pm_modify (set_ncq_dma_stack []) ;!
  pm_modify (set_ncq_transactions_outstanding no_slots) ;!
  pm_modify (set_ncq_data_outstanding no_slots) ;!
  pm_modify (set_ncq_data_packets []) ;!
  pm_modify (set_ncq_data_len 0) ;!
  set_STATE_to DEVICE_IDLE.

Definition _reset_ncq : M unit :=
  pm_modify (set_ncq_register_stack []) ;!
  pm_modify (set_ncq_transactions_outstanding no_slots) ;!
  pm_modify (set_ncq_data_outstanding no_slots) ;!
  pm_modify (set_ncq_dma_stack []) ;!
  pm_modify (set_ncq_data_packets []) ;!
  pm_modify (set_ncq_data_len 0).

Definition handle_set_device_bits (p : packet) : M result :=
  let! status_lo := pm_lift (hdr p "status_lo") in
  let! ACT := pm_lift (hdr p "proto") in
  let! interrupt := pm_lift (hdr p "interrupt") in
  if Z.land status_lo 1 =? 1 then _reset_ncq ;! pm_ret None
  else if (interrupt =? 1) && (ACT =? 0xffffffff) then _reset_ncq ;! pm_ret None
  else pm_ret None.

(** The NCQ branch of [handle_register_HTD]. *)
Definition register_ncq (p : packet) (command : Z) : M result :=
  let direction := if command =? NCQCommandType.WriteFPDMAQueued
                   then DIRECTION_WRITE else DIRECTION_READ in
  let! tag := pm_lift (hdr p "tag") in
  let! features := pm_lift (hdr p "features") in
  let! size := pm_get (fun s => features * sector_size s) in
  let! old := pm_get ncq_transactions_outstanding in
  let! _ := pm_lift (py_index old tag) in
  (* the slot is overwritten whether or not it was in use *)
  set_transaction tag (Some p) ;!
  let! lba := pm_lift (hdr p "lba") in
  let! d := pm_lift (match fill_packet lba features direction size (new_struct DiskSensorPacket) with
                     | (Ret _, d) => Ret d
                     | (Raise e, _) => Raise e
                     end) in
  set_outstanding tag (Some d) ;!
  pm_ret None.

(** The non-NCQ branch of [handle_register_HTD]. *)
Definition register_non_ncq (p : packet) : M result :=
  let! count := pm_lift (hdr p "count") in
  let! stack := pm_get regular_register_stack in
  pm_modify (set_regular_register_stack (stack ++ [p])) ;!
  let! lba := pm_lift (hdr p "lba") in
  let! direction := pm_lift (hdr p "direction") in
  let! size := pm_get (fun s => count * sector_size s) in
  pm_modify (set_regular_disk_sensor_packet (Some (new_struct DiskSensorPacket))) ;!
  on_regular (fill_packet lba count direction size) ;!
  set_STATE_to WAIT_FOR_NON_NCQ_DATA ;!
  pm_ret None.

Definition handle_register_HTD (p : packet) : M result :=
  let! C := pm_lift (hdr p "C") in
  if C =? 0 then pm_ret None else
  let! command := pm_lift (hdr p "command") in
  if (command =? NCQCommandType.ReadFPDMAQueued) || (command =? NCQCommandType.WriteFPDMAQueued)
  then register_ncq p command
  else if command =? NCQCommandType.NCQQueueManagement then pm_ret None
  else register_non_ncq p.

Definition handle_ncq_register_DTH (p : packet) : M result :=
  let! _ := pm_lift (hdr p "type") in
  let! status := pm_lift (hdr p "status") in
  if Z.land status 1 =? 1 then
    let! _ := pm_lift (hdr p "error") in
    _reset_ncq ;! pm_ret None
  else pm_ret None.

(** Not called by [process_packet].  Its last assignment is to [self.state], an
    attribute nothing reads, so that [STATE] keeps its value. *)
Definition handle_non_ncq_register_DTH (p : packet) : M result :=
  let! stack := pm_get regular_register_stack in
  match stack with
  | [] => pm_ret None
  | _ =>
      let! xl := pm_lift (py_pop stack) in
      pm_modify (set_regular_register_stack xl.2) ;!
      let! d := pm_get regular_disk_sensor_packet in
      match d with
      | Some d => pm_modify (set_regular_disk_sensor_packet None) ;! pm_ret (Some [d])
      | None => pm_ret None
      end
  end.

Definition handle_pio_setup (p : packet) : M result :=
  let! _ := pm_lift (hdr p "transfer_count") in
  set_STATE_to WAIT_FOR_NON_NCQ_DATA ;! pm_ret None.

Definition handle_dma_setup (p : packet) : M result :=
  let! tag := pm_lift (hdr p "dma_buf_identifier_low") in
  let! data_len := pm_lift (hdr p "transfer_count") in
  let! stack := pm_get ncq_dma_stack in
  pm_modify (set_ncq_dma_stack (stack ++ [p])) ;!
  let! direction_bit := pm_lift (hdr p "direction_bit") in
  (if direction_bit =? HOST_TO_DEVICE then set_STATE_to WAIT_FOR_DMA_DATA_HOST
   else set_STATE_to WAIT_FOR_DMA_DATA_DEVICE) ;!
  pm_ret None.

(** [for d_packet in self.ncq_data_packets: disk_sensor_packet.data += ...] *)
Fixpoint append_all (tag : Z) (ps : list packet) : M unit :=
  match ps with
  | [] => pm_ret tt
  | p :: ps =>
      let! x := pm_lift (data_nocrc p) in
      on_outstanding tag (append_data x) ;! append_all tag ps
  end.

(** The end of a DMA transfer: the queued frames go to the transaction's packet,
    which is returned when it holds all the data its register frame announced. *)
Definition complete_transfer (tag : Z) : M result :=
  let! ps := pm_get ncq_data_packets in
  append_all tag ps ;!
  pm_modify (set_ncq_data_len 0) ;!
  pm_modify (set_ncq_data_packets []) ;!
  let! _ := pop_dma in
  set_STATE_to DEVICE_IDLE ;!
  let! d := on_outstanding tag (pm_get (fun d => d)) in
  let! got := pm_lift (data_str d) in
  let! size := pm_lift (get_int d "size") in
  if size <=? zlen got then
    set_transaction tag None ;! set_outstanding tag None ;! pm_ret (Some [d])
  else pm_ret None.

Definition handle_ncq_data_packet (p : packet) : M result :=
  let! stack := pm_get ncq_dma_stack in
  match last stack with
  | Some dma =>
      let! tag := pm_lift (hdr dma "dma_buf_identifier_low") in
      let! trans := pm_get ncq_transactions_outstanding in
      let! register_packet := pm_lift (py_index trans tag) in
      match register_packet with
      | None => pm_ret None
      | Some _ =>
          let! data := pm_lift (data_nocrc p) in
          let! _ := pm_lift (hdr p "direction") in
          let! ps := pm_get ncq_data_packets in
          pm_modify (set_ncq_data_packets (ps ++ [p])) ;!
          let! transfer_count := pm_lift (hdr dma "transfer_count") in
          let! len := pm_get ncq_data_len in
          pm_modify (set_ncq_data_len (len + zlen data)) ;!
          if transfer_count <=? len + zlen data then complete_transfer tag else pm_ret None
      end
  | None => pm_ret None
  end.

Definition handle_non_ncq_data_packet (p : packet) : M result :=
  let! stack := pm_get regular_register_stack in
  match stack with
  | [] => pm_ret None
  | _ =>
      let! _ := on_regular (fun d => (data_str d, d)) in
      let! data := pm_lift (data_nocrc p) in
      on_regular (append_data data) ;!
      let! got := on_regular (fun d => (data_str d, d)) in
      let! size := on_regular (fun d => (get_int d "size", d)) in
      if size <=? zlen got then
        let! direction := pm_lift (hdr p "direction") in
        (* an attribute of its own, not the field [disk_operation] *)
        on_regular (set_int "direction" direction) ;!
        let! d := on_regular (pm_get (fun d => d)) in
        pm_modify (set_regular_disk_sensor_packet None) ;!
        set_STATE_to DEVICE_IDLE ;!
        pm_ret (Some [d])
      else pm_ret None
  end.

Definition _handle_unexpected_packet (p : packet) : M result :=
  pm_modify (fun s => set_num_errors (num_errors s + 1) s) ;!
  set_STATE_to DEVICE_IDLE ;!
  let! frame_type := pm_lift (hdr p "type") in
  if frame_type =? FrameType.RegisterFIS_HtoD then handle_register_HTD p
  else if frame_type =? FrameType.DMASetupFIS then handle_dma_setup p
  else pm_ret None.

(** * [process_packet] *)

(** The debug message of each state evaluates the sequence number and the name
    of the frame type; the idle one also the payload length of a data frame. *)
Definition log_state (p : packet) : M unit :=
  let! _ := pm_lift (hdr p "lophi_seqn") in
  let! ty := pm_lift (hdr p "type") in
  let! _ := pm_lift (FrameType.type_lookup ty) in
  let! st := pm_get STATE in
  if (st =? DEVICE_IDLE) && (ty =? 0x46)
  then let! _ := pm_lift (data_nocrc p) in pm_ret tt
  else pm_ret tt.

(** A stored sequence number of 0 is false in Python: it counts as "none". *)
Definition check_dropped (p : packet) : M unit :=
  let! seqn := pm_lift (hdr p "lophi_seqn") in
  let! last := pm_get last_packet_seqno in
  match last with
  | Some l =>
      if l =? 0 then pm_modify (set_last_packet_seqno (Some seqn))
      else if seqn =? (l + 1) mod 65536 then pm_modify (set_last_packet_seqno (Some seqn))
      else _reset_state
  | None => pm_modify (set_last_packet_seqno (Some seqn))
  end.

(** The two "wrong frame" branches while DMA data is expected. *)
Definition abandon_transfer (p : packet) : M result :=
  pm_modify (set_ncq_data_len 0) ;!
  pm_modify (set_ncq_data_packets []) ;!
  let! _ := pop_dma in
  _handle_unexpected_packet p.

Definition dispatch (p : packet) : M result :=
  let! ty := pm_lift (hdr p "type") in
  if (ty =? FrameType.DMAActivateFIS) || (ty =? FrameType.BISTActivateFIS) then pm_ret None else
  let! direction := pm_lift (hdr p "direction") in
  let from_host := direction =? HOST_TO_DEVICE in
  let from_device := direction =? DEVICE_TO_HOST in
  if ty =? FrameType.SetDeviceBitsFIS then handle_set_device_bits p
  else if from_host && (ty =? FrameType.RegisterFIS_HtoD) then handle_register_HTD p
  else if from_device && (ty =? FrameType.RegisterFIS_DtoH) then handle_ncq_register_DTH p
  else if ty =? FrameType.PIOSetupFIS then handle_pio_setup p
  else
  let! st := pm_get STATE in
  if st =? DEVICE_IDLE then
    if from_host && (ty =? FrameType.RegisterFIS_HtoD) then handle_register_HTD p
    else if from_host && (ty =? FrameType.DMASetupFIS) then pm_ret None
    else if from_device && (ty =? FrameType.DMASetupFIS) then handle_dma_setup p
    else pm_ret None
  else if st =? WAIT_FOR_REGISTER_ACK then
    if from_device && (ty =? FrameType.RegisterFIS_DtoH) then handle_ncq_register_DTH p
    else _handle_unexpected_packet p
  else if st =? WAIT_FOR_DMA_DATA_DEVICE then
    if from_device && (ty =? FrameType.DataFIS) then handle_ncq_data_packet p
    else abandon_transfer p
  else if st =? WAIT_FOR_DMA_DATA_HOST then
    if from_host && (ty =? FrameType.DataFIS) then handle_ncq_data_packet p
    else abandon_transfer p
  else if st =? WAIT_FOR_NON_NCQ_DATA then
    if ty =? FrameType.DataFIS then handle_non_ncq_data_packet p
    else _handle_unexpected_packet p
  else pm_ret None.

Definition process_packet (p : packet) : M result :=
  pm_modify (fun s => set_total_frames (total_frames s + 1) s) ;!
  log_state p ;!
  check_dropped p ;!
  dispatch p.

(** * Disk sensor packets in normal form *)

Definition dsp_dict (lba n op size : Z) (data : bytes) : gmap string fval :=
  <["data" := FVal (SStr data)]> (<["size" := FVal (SInt size)]>
  (<["disk_operation" := FVal (SInt op)]> (<["num_sectors" := FVal (SInt n)]>
  (<["sector" := FVal (SInt lba)]> (blank_dict DiskSensorPacket))))).
Definition dsp_raw (lba n op size : Z) : bytes :=
  le_split 8 lba ++ le_split 4 n ++ le_split 4 op ++ le_split 4 size.
(** The packet for sectors [lba ..], with [data] collected so far. *)
Definition dsp (lba n op size : Z) (data : bytes) : dstruct :=
  DStruct DiskSensorPacket (dsp_dict lba n op size data) (Some (dsp_raw lba n op size)).
(** The values fit the packet's fields. *)
Definition dsp_ok (lba n op size : Z) : Prop :=
  0 <= lba < 2 ^ 64 /\ 0 <= n < 2 ^ 32 /\ 0 <= op < 2 ^ 32 /\ 0 <= size < 2 ^ 32.

Lemma pack_field_int o w z :
  0 <= z < 256 ^ Z.of_nat w ->
  pack_field (Fmt o [CInt w]) (FVal (SInt z)) = Ret (int_split o w z).
Proof.
  intros Hz. unfold pack_field, pack. cbn -[Z.pow].
  replace (_ && _) with true by (symmetry; apply andb_true_iff; rewrite Z.leb_le, Z.ltb_lt; lia).
  cbn. by rewrite app_nil_r.
Qed.

Lemma DiskSensorPacket_nodup : NoDup DiskSensorPacket.*1.
Proof. apply (bool_decide_unpack _). reflexivity. Qed.

Lemma pack_loop_disk m v1 v2 v3 v4 b1 b2 b3 b4 :
  m !! "sector" = Some v1 -> pack_field fQ v1 = Ret b1 ->
  m !! "num_sectors" = Some v2 -> pack_field fI v2 = Ret b2 ->
  m !! "disk_operation" = Some v3 -> pack_field fI v3 = Ret b3 ->
  m !! "size" = Some v4 -> pack_field fI v4 = Ret b4 ->
  pack_loop DiskSensorPacket m [] = (Ret true, b1 ++ b2 ++ b3 ++ b4).
Proof.
  intros H1 P1 H2 P2 H3 P3 H4 P4. cbn [pack_loop DiskSensorPacket].
  rewrite H1, P1, H2, P2, H3, P3, H4, P4. by rewrite <- !app_assoc.
Qed.

(** Looks a literal key up in a chain of literal updates of [blank_dict]. *)
Ltac str_lookup :=
  unfold blank_dict;
  repeat first [ rewrite lookup_insert_eq | rewrite lookup_insert_ne by discriminate ];
  reflexivity.
Ltac disk_field :=
  first [ str_lookup
        | apply pack_field_int; change (256 ^ Z.of_nat 8) with (2 ^ 64);
          change (256 ^ Z.of_nat 4) with (2 ^ 32); lia
        | reflexivity ].
Ltac disk_setattr :=
  erewrite setattr_field;
    [|apply DiskSensorPacket_nodup|apply (bool_decide_unpack _); reflexivity
     |eapply pack_loop_disk; disk_field].

Lemma fill_packet_ok lba n op size :
  dsp_ok lba n op size ->
  fill_packet lba n op size (new_struct DiskSensorPacket) = (Ret tt, dsp lba n op size []).
Proof.
  intros (Hl & Hn & Ho & Hs). unfold fill_packet, set_int, pm_bind.
  do 4 (disk_setattr; cbn [STRUCT dict]).
  rewrite setattr_other by (apply (bool_decide_unpack _); reflexivity). reflexivity.
Qed.

Section dsp_lemmas.
Context (lba n op size : Z).

Lemma data_str_dsp s : data_str (dsp lba n op size s) = Ret s.
Proof. unfold data_str, getattr. cbn [dict dsp]. unfold dsp_dict. by rewrite lookup_insert_eq. Qed.

Lemma append_data_dsp s x :
  append_data x (dsp lba n op size s) = (Ret tt, dsp lba n op size (s ++ x)).
Proof.
  unfold append_data, pm_bind. rewrite data_str_dsp.
  rewrite setattr_other by (apply (bool_decide_unpack _); reflexivity).
  unfold set_dict, dsp, dsp_dict. cbn [dict STRUCT struct_raw_data]. by rewrite insert_insert_eq.
Qed.

Lemma size_dsp s : get_int (dsp lba n op size s) "size" = Ret size.
Proof.
  unfold get_int, getattr. cbn [dict dsp]. unfold dsp_dict.
  rewrite lookup_insert_ne by discriminate. by rewrite lookup_insert_eq.
Qed.
End dsp_lemmas.

(** A packet in normal form determines its fields. *)
Lemma dsp_inj l n o z d l' n' o' z' d' :
  dsp l n o z d = dsp l' n' o' z' d' -> l = l' /\ n = n' /\ o = o' /\ z = z' /\ d = d'.
Proof.
  intros E. assert (forall k, dsp_dict l n o z d !! k = dsp_dict l' n' o' z' d' !! k) as Hk
    by (intros k; exact (f_equal (fun x => dict x !! k) E)).
  pose proof (Hk "sector") as H1. pose proof (Hk "num_sectors") as H2.
  pose proof (Hk "disk_operation") as H3. pose proof (Hk "size") as H4. pose proof (Hk "data") as H5.
  unfold dsp_dict in H1, H2, H3, H4, H5.
  repeat first [rewrite lookup_insert_eq in * | rewrite lookup_insert_ne in * by discriminate].
  by simplify_eq.
Qed.

(** * Well-formed frames *)

Definition has (p : packet) (key : string) (lo hi : Z) : Prop :=
  exists z, sata_header p !! key = Some z /\ lo <= z < hi.
Definition present (p : packet) (key : string) : Prop := is_Some (sata_header p !! key).

(** The payload of a data frame. *)
Definition frame_payload (p : packet) : bytes :=
  match sata_data p with Some d => slice_to d (-4) | None => [] end.

(** A DMA setup frame naming one of the 32 tags. *)
Definition dma_ok (p : packet) : Prop :=
  has p "dma_buf_identifier_low" 0 32 /\ present p "transfer_count".

(** What the interpreter delivers for a frame of each type. *)
Record packet_ok (p : packet) : Prop := {
  po_seqn : has p "lophi_seqn" 0 65536;
  po_direction : has p "direction" 0 2;
  po_type : exists ty, sata_header p !! "type" = Some ty /\ ty ∈ FrameType.type_lookup_keys /\
    match ty with
    | 0x27 => present p "C" /\ present p "command" /\ has p "tag" 0 32 /\
              has p "features" 0 65536 /\ has p "count" 0 65536 /\ has p "lba" 0 (2 ^ 48)
    | 0x34 => present p "status" /\ present p "error"
    | 0x41 => dma_ok p /\ present p "direction_bit"
    | 0x46 => is_Some (sata_data p)
    | 0x5f => present p "transfer_count"
    | 0xa1 => present p "status_lo" /\ present p "proto" /\ present p "interrupt"
    | _ => True
    end
}.

(** * The object invariant *)

Definition is_dsp (d : dstruct) : Prop :=
  exists lba n op size data, dsp_ok lba n op size /\ d = dsp lba n op size data.

Lemma is_dsp_intro lba n op size data : dsp_ok lba n op size -> is_dsp (dsp lba n op size data).
Proof. unfold is_dsp. eauto 10. Qed.

(** A tag has a register frame exactly when it has a packet under construction. *)
Definition slot_ok (x : option packet) (d : option dstruct) : Prop :=
  match x, d with
  | None, None => True
  | Some _, Some d => is_dsp d
  | _, _ => False
  end.

Definition queued_bytes (ps : list packet) : Z := zlen (concat (frame_payload <$> ps)).

Record recon_inv (s : recon) : Prop := {
  inv_size : 0 <= sector_size s /\ 65535 * sector_size s < 2 ^ 32;
  inv_state : STATE s ∈ [DEVICE_IDLE; WAIT_FOR_DMA_DATA_DEVICE; WAIT_FOR_DMA_DATA_HOST;
                         WAIT_FOR_NON_NCQ_DATA];
  inv_slots : Forall2 slot_ok (ncq_transactions_outstanding s) (ncq_data_outstanding s);
  inv_tags : length (ncq_transactions_outstanding s) = 32%nat;
  inv_queue : Forall (fun p => is_Some (sata_data p)) (ncq_data_packets s);
  inv_queue_len : ncq_data_len s = queued_bytes (ncq_data_packets s);
  inv_dma : Forall dma_ok (ncq_dma_stack s);
  inv_regular : match regular_disk_sensor_packet s with Some d => is_dsp d | None => True end
}.

(** The two ways a handler fails on a well-formed frame. *)
Inductive failure : recon -> pyexc -> Prop :=
  | fail_no_dma s :
      (STATE s = WAIT_FOR_DMA_DATA_DEVICE \/ STATE s = WAIT_FOR_DMA_DATA_HOST) ->
      ncq_dma_stack s = [] -> failure s IndexError
  | fail_no_regular s :
      STATE s = WAIT_FOR_NON_NCQ_DATA -> regular_register_stack s <> [] ->
      regular_disk_sensor_packet s = None -> failure s AttributeError.

(** [m] keeps the invariant and fails only in the states of [failure]. *)
Definition good {A} (m : M A) (s : recon) : Prop :=
  match m s with
  | (Ret _, s') => recon_inv s'
  | (Raise e, s') => recon_inv s' /\ failure s e
  end.
(** [m] keeps the invariant and returns. *)
Definition returns {A} (m : M A) (s : recon) : Prop :=
  match m s with (Ret _, s') => recon_inv s' | (Raise _, _) => False end.

Lemma returns_good {A} (m : M A) s : returns m s -> good m s.
Proof. unfold returns, good. by destruct (m s) as [[]]. Qed.

(** ** Evaluation of handler bodies *)

Lemma hdr_Some p k z : sata_header p !! k = Some z -> hdr p k = Ret z.
Proof. intros H. unfold hdr, hget. by rewrite H. Qed.

Ltac pm_unfold :=
  unfold pm_bind, pm_lift, pm_get, pm_modify, pm_ret, pm_raise, set_STATE_to.
(** Evaluates the header lookups whose results are in the context. *)
Ltac hdr_eval :=
  repeat match goal with
  | H : sata_header ?p !! ?k = Some ?z |- context [hdr ?p ?k] => rewrite (hdr_Some p k z H)
  end.
Ltac split_if :=
  repeat match goal with |- context [if ?b then _ else _] => destruct b eqn:? end.
Ltac hdr_split :=
  repeat match goal with
  | H : _ /\ _ |- _ => destruct H
  | H : has _ _ _ _ |- _ => let z := fresh "z" in destruct H as (z & ? & ?)
  | H : present _ _ |- _ => let z := fresh "z" in destruct H as (z & ?)
  | H : is_Some _ |- _ => let z := fresh "z" in destruct H as (z & ?)
  end.

Lemma data_nocrc_ok p : is_Some (sata_data p) -> data_nocrc p = Ret (frame_payload p).
Proof. intros [d Hd]. unfold data_nocrc, frame_payload. by rewrite Hd. Qed.

Lemma no_slots_ok : Forall2 slot_ok (@no_slots packet) no_slots.
Proof. apply Forall2_replicate. done. Qed.

Lemma new_recon_inv n : 0 <= n -> 65535 * n < 2 ^ 32 -> recon_inv (new_recon n).
Proof. intros. split; cbn; try done; [set_solver|apply no_slots_ok]. Qed.

Section field_updates.
Context (s : recon) (Hs : recon_inv s).

Lemma reset_state_inv : recon_inv (_reset_state s).2.
Proof. destruct s, Hs. split; cbn; try done; [set_solver|apply no_slots_ok]. Qed.

Lemma reset_ncq_inv : recon_inv (_reset_ncq s).2.
Proof. destruct s, Hs. split; cbn; try done. apply no_slots_ok. Qed.

Lemma set_STATE_inv x :
  x ∈ [DEVICE_IDLE; WAIT_FOR_DMA_DATA_DEVICE; WAIT_FOR_DMA_DATA_HOST; WAIT_FOR_NON_NCQ_DATA] ->
  recon_inv (set_STATE x s).
Proof. intros. destruct s, Hs. by split. Qed.

Lemma set_slot_inv i t d :
  slot_ok t d ->
  recon_inv (set_ncq_data_outstanding (<[i := d]> (ncq_data_outstanding s))
            (set_ncq_transactions_outstanding (<[i := t]> (ncq_transactions_outstanding s)) s)).
Proof.
  intros. destruct s, Hs. split; cbn in *; try done.
  - by apply Forall2_insert.
  - by rewrite length_insert.
Qed.
End field_updates.

(** ** Handlers keep the invariant *)

Lemma set_device_bits_returns p s :
  recon_inv s -> present p "status_lo" -> present p "proto" -> present p "interrupt" ->
  returns (handle_set_device_bits p) s.
Proof.
  intros Hs H1 H2 H3. hdr_split. unfold returns, handle_set_device_bits. pm_unfold. hdr_eval.
  split_if; try done; by apply reset_ncq_inv.
Qed.

Lemma register_DTH_returns p s :
  recon_inv s -> present p "type" -> present p "status" -> present p "error" ->
  returns (handle_ncq_register_DTH p) s.
Proof.
  intros Hs H1 H2 H3. hdr_split. unfold returns, handle_ncq_register_DTH. pm_unfold. hdr_eval.
  split_if; [|done]. by apply reset_ncq_inv.
Qed.

Lemma pio_setup_returns p s :
  recon_inv s -> present p "transfer_count" -> returns (handle_pio_setup p) s.
Proof.
  intros Hs H1. hdr_split. unfold returns, handle_pio_setup. pm_unfold. hdr_eval.
  apply set_STATE_inv; [done|set_solver].
Qed.

Lemma dma_setup_returns p s :
  recon_inv s -> dma_ok p -> present p "direction_bit" -> returns (handle_dma_setup p) s.
Proof.
  intros Hs Hd H1. pose proof Hd as Hd'. unfold dma_ok in Hd'. hdr_split.
  unfold returns, handle_dma_setup. pm_unfold. hdr_eval.
  assert (recon_inv (set_ncq_dma_stack (ncq_dma_stack s ++ [p]) s)).
  { destruct s, Hs. split; cbn in *; try done. by apply Forall_app_2; [|apply Forall_singleton]. }
  split_if; apply set_STATE_inv; (done || set_solver).
Qed.

Lemma slot_lengths s : recon_inv s ->
  zlen (ncq_transactions_outstanding s) = 32 /\ zlen (ncq_data_outstanding s) = 32.
Proof.
  intros Hs. pose proof (inv_tags _ Hs) as H. pose proof (Forall2_length _ _ _ (inv_slots _ Hs)) as H'.
  unfold zlen. lia.
Qed.

(** The slots of a tag, with the packet in normal form when the tag is in use. *)
Lemma slot_lookup s tag :
  recon_inv s -> 0 <= tag < 32 ->
  exists x d, ncq_transactions_outstanding s !! Z.to_nat tag = Some x /\
    ncq_data_outstanding s !! Z.to_nat tag = Some d /\ slot_ok x d.
Proof.
  intros Hs Ht. destruct (slot_lengths s Hs) as [Hl Hl']. unfold zlen in *.
  destruct (lookup_lt_is_Some_2 (ncq_transactions_outstanding s) (Z.to_nat tag)) as [x Hx]; [lia|].
  destruct (lookup_lt_is_Some_2 (ncq_data_outstanding s) (Z.to_nat tag)) as [d Hd]; [lia|].
  exists x, d. split_and!; [done..|]. by eapply Forall2_lookup_lr; [apply inv_slots| |].
Qed.

Lemma dsp_ok_sectors ss lba n op :
  0 <= ss /\ 65535 * ss < 2 ^ 32 -> 0 <= lba < 2 ^ 48 -> 0 <= n < 65536 -> 0 <= op < 2 ->
  dsp_ok lba n op (n * ss).
Proof. intros [? ?] ? ? ?. unfold dsp_ok. split_and!; try lia; nia. Qed.

Definition htd_ok (p : packet) : Prop :=
  present p "C" /\ present p "command" /\ has p "tag" 0 32 /\ has p "features" 0 65536 /\
  has p "count" 0 65536 /\ has p "lba" 0 (2 ^ 48) /\ has p "direction" 0 2.

(** The effect of a queued command: both slots of its tag are replaced. *)
Lemma register_ncq_spec p s cmd tag features lba :
  recon_inv s -> sata_header p !! "tag" = Some tag -> 0 <= tag < 32 ->
  sata_header p !! "features" = Some features -> 0 <= features < 65536 ->
  sata_header p !! "lba" = Some lba -> 0 <= lba < 2 ^ 48 ->
  register_ncq p cmd s = (Ret None,
    set_ncq_data_outstanding
      (<[Z.to_nat tag := Some (dsp lba features (if cmd =? 0x61 then 1 else 0)
                                   (features * sector_size s) [])]> (ncq_data_outstanding s))
      (set_ncq_transactions_outstanding
        (<[Z.to_nat tag := Some p]> (ncq_transactions_outstanding s)) s)).
Proof.
  intros Hs Ht Htr Hf Hfr Hl Hlr. unfold register_ncq, set_transaction, set_outstanding. pm_unfold.
  hdr_eval. destruct (slot_lookup s tag Hs Htr) as (x & d & Hx & Hd & _).
  rewrite (py_index_lookup _ _ _ (proj1 Htr) Hx).
  destruct (slot_lengths s Hs) as [Hl1 Hl2]. rewrite py_setitem_ok by lia.
  rewrite fill_packet_ok.
  - cbn [ncq_data_outstanding set_ncq_transactions_outstanding]. by rewrite py_setitem_ok by lia.
  - apply dsp_ok_sectors; [apply Hs|done|done|].
    unfold NCQCommandType.WriteFPDMAQueued, DIRECTION_WRITE, DIRECTION_READ. split_if; lia.
Qed.

Lemma register_non_ncq_spec p s count lba direction :
  recon_inv s -> sata_header p !! "count" = Some count -> 0 <= count < 65536 ->
  sata_header p !! "lba" = Some lba -> 0 <= lba < 2 ^ 48 ->
  sata_header p !! "direction" = Some direction -> 0 <= direction < 2 ->
  register_non_ncq p s = (Ret None,
    set_STATE WAIT_FOR_NON_NCQ_DATA
      (set_regular_disk_sensor_packet (Some (dsp lba count direction (count * sector_size s) []))
        (set_regular_register_stack (regular_register_stack s ++ [p]) s))).
Proof.
  intros Hs Hc Hcr Hl Hlr Hd Hdr. unfold register_non_ncq. pm_unfold. hdr_eval.
  unfold on_regular. cbn [regular_disk_sensor_packet set_regular_disk_sensor_packet].
  cbn [sector_size set_regular_register_stack]. rewrite fill_packet_ok; [done|].
  apply dsp_ok_sectors; [apply Hs|done..].
Qed.

Lemma register_HTD_returns p s :
  recon_inv s -> htd_ok p -> returns (handle_register_HTD p) s.
Proof.
  intros Hs Hp. unfold htd_ok in Hp. hdr_split. unfold returns, handle_register_HTD.
  unfold pm_bind at 1, pm_lift at 1. hdr_eval. destruct (_ =? 0); [done|].
  unfold pm_bind at 1, pm_lift at 1. destruct (_ || _).
  - erewrite register_ncq_spec by done. apply set_slot_inv; [done|].
    apply is_dsp_intro, dsp_ok_sectors; [apply Hs|done|done|]. split_if; lia.
  - destruct (_ =? _); [done|]. erewrite register_non_ncq_spec by done.
    apply set_STATE_inv; [|set_solver]. pose proof (inv_size _ Hs). destruct s, Hs.
    split; cbn in *; try done. by apply is_dsp_intro, dsp_ok_sectors.
Qed.

(** ** Data frames *)

Section outstanding_slot.
Context (tag lba n op size : Z) (Htag : 0 <= tag).

Lemma on_outstanding_spec {A} (m : PM dstruct A) r d d' s :
  ncq_data_outstanding s !! Z.to_nat tag = Some (Some d) -> m d = (r, d') ->
  on_outstanding tag m s =
    (r, set_ncq_data_outstanding (<[Z.to_nat tag := Some d']> (ncq_data_outstanding s)) s).
Proof.
  intros Hd Hm. unfold on_outstanding. rewrite (py_index_lookup _ _ _ Htag Hd), Hm.
  rewrite py_setitem_ok; [done|]. apply lookup_lt_Some in Hd. unfold zlen. lia.
Qed.

Lemma append_all_spec ps s data :
  Forall (fun p => is_Some (sata_data p)) ps ->
  ncq_data_outstanding s !! Z.to_nat tag = Some (Some (dsp lba n op size data)) ->
  append_all tag ps s = (Ret tt, set_ncq_data_outstanding
    (<[Z.to_nat tag := Some (dsp lba n op size (data ++ concat (frame_payload <$> ps)))]>
       (ncq_data_outstanding s)) s).
Proof.
  intros Hps. revert s data. induction Hps as [|p ps Hp Hps IH]; intros s data Hd; cbn [append_all].
  - rewrite app_nil_r. rewrite list_insert_id by done. by destruct s.
  - unfold pm_bind at 1, pm_lift. rewrite data_nocrc_ok by done. unfold pm_bind at 1.
    erewrite on_outstanding_spec; [|done|apply append_data_dsp].
    erewrite IH.
    2:{ cbn [ncq_data_outstanding set_ncq_data_outstanding].
        apply list_lookup_insert_eq. by eapply lookup_lt_Some. }
    cbn [ncq_data_outstanding set_ncq_data_outstanding fmap list_fmap concat].
    rewrite list_insert_insert_eq, <- app_assoc. done.
Qed.
End outstanding_slot.

(** The state after a DMA transfer for [tag] has ended. *)
Definition transfer_done (s : recon) (stack : list packet) : recon :=
  set_STATE DEVICE_IDLE (set_ncq_dma_stack stack (set_ncq_data_packets [] (set_ncq_data_len 0 s))).

Lemma complete_transfer_spec s tag stack dma lba n op size data :
  recon_inv s -> 0 <= tag < 32 -> ncq_dma_stack s = stack ++ [dma] ->
  ncq_data_outstanding s !! Z.to_nat tag = Some (Some (dsp lba n op size data)) ->
  let d := dsp lba n op size (data ++ concat (frame_payload <$> ncq_data_packets s)) in
  complete_transfer tag s =
    if size <=? zlen (data ++ concat (frame_payload <$> ncq_data_packets s))
    then (Ret (Some [d]),
          set_ncq_data_outstanding (<[Z.to_nat tag := None]> (ncq_data_outstanding s))
            (set_ncq_transactions_outstanding
              (<[Z.to_nat tag := None]> (ncq_transactions_outstanding s)) (transfer_done s stack)))
    else (Ret None,
          set_ncq_data_outstanding (<[Z.to_nat tag := Some d]> (ncq_data_outstanding s))
            (transfer_done s stack)).
Proof.
  intros Hs Ht Hdma Hd d. subst d. unfold complete_transfer.
  unfold pm_bind at 1, pm_get at 1. unfold pm_bind at 1.
  erewrite append_all_spec by (done || apply Hs || lia).
  unfold pop_dma, set_transaction, set_outstanding. pm_unfold.
  pose proof (slot_lengths s Hs) as [Hl1 Hl2]. destruct s; cbn in *. subst.
  rewrite py_pop_app. cbn.
  assert (Z.to_nat tag < length ncq_data_outstanding0)%nat as Hlt by (by eapply lookup_lt_Some).
  erewrite on_outstanding_spec; [|lia|cbn; by apply list_lookup_insert_eq|done].
  cbn. rewrite data_str_dsp, size_dsp, list_insert_insert_eq.
  destruct (size <=? _); [|done]. cbn.
  rewrite py_setitem_ok by (unfold zlen in *; lia). cbn. rewrite py_setitem_ok.
  - cbn. by rewrite list_insert_insert_eq.
  - unfold zlen in *. rewrite length_insert. lia.
Qed.

Lemma transfer_done_inv s stack :
  recon_inv s -> Forall dma_ok stack -> recon_inv (transfer_done s stack).
Proof. intros Hs Hst. destruct s, Hs. split; cbn in *; try done. set_solver. Qed.

Lemma complete_transfer_returns s tag stack dma :
  recon_inv s -> 0 <= tag < 32 -> ncq_dma_stack s = stack ++ [dma] ->
  is_Some (mjoin (ncq_transactions_outstanding s !! Z.to_nat tag)) ->
  returns (complete_transfer tag) s.
Proof.
  intros Hs Ht Hdma [q Hq]. destruct (slot_lookup s tag Hs Ht) as (x & d & Hx & Hd & Hslot).
  rewrite Hx in Hq. cbn in Hq. subst x. destruct d as [d|]; [|done].
  destruct Hslot as (lba & n & op & size & data & Hok & ->).
  unfold returns. erewrite complete_transfer_spec by done.
  assert (recon_inv (transfer_done s stack)) as Hd'.
  { apply transfer_done_inv; [done|]. pose proof (inv_dma _ Hs) as H. rewrite Hdma in H.
    by apply Forall_app in H as [? _]. }
  destruct (_ <=? _).
  - by apply (set_slot_inv _ Hd' (Z.to_nat tag) None None).
  - replace (set_ncq_data_outstanding _ (transfer_done s stack)) with
      (set_ncq_data_outstanding (<[Z.to_nat tag := Some (dsp lba n op size
          (data ++ concat (frame_payload <$> ncq_data_packets s)))]> (ncq_data_outstanding (transfer_done s stack)))
        (set_ncq_transactions_outstanding
          (<[Z.to_nat tag := Some q]> (ncq_transactions_outstanding (transfer_done s stack)))
          (transfer_done s stack))).
    + apply set_slot_inv; [done|]. by apply is_dsp_intro.
    + destruct s; cbn in *. rewrite (list_insert_id ncq_transactions_outstanding0) by done. done.
Qed.

(** Queueing one more data frame. *)
Definition enqueue (p : packet) (s : recon) : recon :=
  set_ncq_data_len (ncq_data_len s + zlen (frame_payload p))
    (set_ncq_data_packets (ncq_data_packets s ++ [p]) s).

Lemma enqueue_inv p s : recon_inv s -> is_Some (sata_data p) -> recon_inv (enqueue p s).
Proof.
  intros Hs Hp. destruct s, Hs. split; cbn in *; try done.
  - by apply Forall_app_2; [|apply Forall_singleton].
  - subst. unfold queued_bytes. rewrite fmap_app, concat_app, zlen_app. cbn.
    rewrite app_nil_r. done.
Qed.

Lemma ncq_data_eq s p stack dma tag tc :
  ncq_dma_stack s = stack ++ [dma] -> is_Some (sata_data p) -> present p "direction" ->
  sata_header dma !! "dma_buf_identifier_low" = Some tag -> 0 <= tag < 32 ->
  sata_header dma !! "transfer_count" = Some tc ->
  is_Some (mjoin (ncq_transactions_outstanding s !! Z.to_nat tag)) ->
  handle_ncq_data_packet p s =
    if tc <=? ncq_data_len s + zlen (frame_payload p) then complete_transfer tag (enqueue p s)
    else (Ret None, enqueue p s).
Proof.
  intros Hdma Hp Hdir Htag Htr Htc Hx. unfold handle_ncq_data_packet. pm_unfold.
  rewrite Hdma, last_snoc. hdr_split. hdr_eval.
  destruct (ncq_transactions_outstanding s !! Z.to_nat tag) as [x|] eqn:E; [|done].
  destruct x as [x|]; [|done]. rewrite (py_index_lookup _ tag _ ltac:(lia) E).
  rewrite data_nocrc_ok by eauto. hdr_eval. unfold enqueue.
  cbn [ncq_data_len set_ncq_data_packets]. by destruct (_ <=? _).
Qed.

Lemma ncq_data_returns p s :
  recon_inv s -> is_Some (sata_data p) -> present p "direction" ->
  returns (handle_ncq_data_packet p) s.
Proof.
  intros Hs Hp Hdir. destruct (stack_cases (ncq_dma_stack s)) as [Hdma|(stack & dma & Hdma)].
  - unfold returns, handle_ncq_data_packet. pm_unfold. rewrite Hdma. done.
  - pose proof (inv_dma _ Hs) as Hall. rewrite Hdma in Hall.
    apply Forall_app in Hall as [_ Hall]. rewrite Forall_singleton in Hall.
    destruct Hall as [(tag & Htag & Htr) (tc & Htc)].
    destruct (slot_lookup s tag Hs Htr) as (x & d & Hx & Hd & Hslot).
    destruct x as [x|].
    + unfold returns. erewrite ncq_data_eq; [|done..|by rewrite Hx].
      pose proof (enqueue_inv p s Hs Hp) as He. destruct (_ <=? _); [|done].
      apply (complete_transfer_returns _ tag stack dma); [done..|].
      unfold enqueue. cbn. by rewrite Hx.
    + unfold returns, handle_ncq_data_packet. pm_unfold. rewrite Hdma, last_snoc. hdr_eval.
      rewrite (py_index_lookup _ _ _ (proj1 Htr) Hx). done.
Qed.

(** ** Regular (non-NCQ) data frames *)

(** The finished packet carries its data's direction as an extra attribute. *)
Definition with_direction (z : Z) (d : dstruct) : dstruct :=
  set_dict (<["direction" := FVal (SInt z)]> (dict d)) d.

Lemma non_ncq_data_eq p s lba n op size data dir :
  regular_register_stack s <> [] ->
  regular_disk_sensor_packet s = Some (dsp lba n op size data) ->
  is_Some (sata_data p) -> sata_header p !! "direction" = Some dir ->
  let data' := data ++ frame_payload p in
  handle_non_ncq_data_packet p s =
    if size <=? zlen data'
    then (Ret (Some [with_direction dir (dsp lba n op size data')]),
          set_STATE DEVICE_IDLE (set_regular_disk_sensor_packet None s))
    else (Ret None, set_regular_disk_sensor_packet (Some (dsp lba n op size data')) s).
Proof.
  intros Hst Hr Hp Hdir data'. subst data'. destruct s; cbn in *. subst.
  unfold handle_non_ncq_data_packet. pm_unfold. cbn [regular_register_stack].
  destruct regular_register_stack0 as [|x l]; [done|].
  unfold on_regular at 1. cbn -[zlen dsp append_data].
  rewrite data_str_dsp, data_nocrc_ok by done. cbn -[zlen dsp append_data].
  rewrite append_data_dsp. cbn -[zlen dsp]. rewrite data_str_dsp. cbn -[zlen dsp].
  rewrite size_dsp. cbn -[zlen dsp]. destruct (size <=? _); [|done].
  hdr_eval. unfold set_int. cbn -[zlen dsp __setattr__].
  rewrite setattr_other by (apply (bool_decide_unpack _); reflexivity). done.
Qed.

Lemma non_ncq_data_good p s :
  recon_inv s -> is_Some (sata_data p) -> present p "direction" ->
  STATE s = WAIT_FOR_NON_NCQ_DATA -> good (handle_non_ncq_data_packet p) s.
Proof.
  intros Hs Hp [dir Hdir] HST. unfold good. pose proof (inv_regular _ Hs) as Hreg.
  destruct (decide (regular_register_stack s = [])) as [Hst|Hst].
  { unfold handle_non_ncq_data_packet. pm_unfold. by rewrite Hst. }
  destruct (regular_disk_sensor_packet s) as [d|] eqn:Hd.
  - destruct Hreg as (lba & n & op & size & data & Hok & ->).
    erewrite non_ncq_data_eq by done. destruct (_ <=? _).
    + apply set_STATE_inv; [|set_solver]. destruct s, Hs. by split.
    + destruct s, Hs. split; cbn in *; try done. by apply is_dsp_intro.
  - assert (handle_non_ncq_data_packet p s = (Raise AttributeError, s)) as ->.
    { unfold handle_non_ncq_data_packet. pm_unfold.
      destruct (regular_register_stack s); [done|]. unfold on_regular. by rewrite Hd. }
    split; [done|]. by apply fail_no_regular.
Qed.

(** ** Unexpected frames *)

Lemma unexpected_returns p s :
  recon_inv s -> packet_ok p -> returns (_handle_unexpected_packet p) s.
Proof.
  intros Hs [_ Hdir (ty & Hty & Hin & Hcase)]. unfold returns, _handle_unexpected_packet.
  pm_unfold. hdr_eval.
  assert (recon_inv (set_STATE DEVICE_IDLE (set_num_errors (num_errors s + 1) s))) as Hs'.
  { apply set_STATE_inv; [|set_solver]. destruct s, Hs. by split. }
  destruct (ty =? _) eqn:E; [|destruct (ty =? FrameType.DMASetupFIS) eqn:E']; [..|done].
  - apply Z.eqb_eq in E. subst ty. cbn in Hcase. apply register_HTD_returns; [done|].
    unfold htd_ok. tauto.
  - apply Z.eqb_eq in E'. subst ty. cbn in Hcase. apply dma_setup_returns; [done|tauto..].
Qed.

Lemma abandon_good p s :
  recon_inv s -> packet_ok p ->
  STATE s = WAIT_FOR_DMA_DATA_DEVICE \/ STATE s = WAIT_FOR_DMA_DATA_HOST ->
  good (abandon_transfer p) s.
Proof.
  intros Hs Hp HST. unfold good, abandon_transfer, pop_dma. pm_unfold.
  assert (recon_inv (set_ncq_data_packets [] (set_ncq_data_len 0 s))) as Hs'
    by (destruct s, Hs; by split).
  destruct (stack_cases (ncq_dma_stack s)) as [Hdma|(stack & dma & Hdma)];
    cbn [ncq_dma_stack set_ncq_data_packets set_ncq_data_len]; rewrite Hdma.
  - split; [done|]. by apply fail_no_dma.
  - rewrite py_pop_app. cbn [fst snd].
    assert (returns (_handle_unexpected_packet p)
              (set_ncq_dma_stack stack (set_ncq_data_packets [] (set_ncq_data_len 0 s)))) as Hu.
    { apply unexpected_returns; [|done]. pose proof (inv_dma _ Hs) as Hall.
      rewrite Hdma in Hall. apply Forall_app in Hall as [Hall _]. destruct s, Hs'. by split. }
    unfold returns in Hu. by destruct (_handle_unexpected_packet p _) as [[]].
Qed.

(** ** The whole of [process_packet] *)

Lemma dispatch_good p s : recon_inv s -> packet_ok p -> good (dispatch p) s.
Proof.
  intros Hs Hp. pose proof Hp as [Hseq Hdir (ty & Hty & Hin & Hcase)].
  pose proof Hdir as (dir & Hd & Hdr). unfold good, dispatch. pm_unfold. hdr_eval.
  assert (present p "direction") as Hpd by (by eexists).
  assert (present p "type") as Hpt by (by eexists).
  assert (forall (m : M result), returns m s -> match m s with
            | (Ret _, s') => recon_inv s' | (Raise e, s') => recon_inv s' /\ failure s e end) as Hret
    by (intros m Hm; by apply returns_good in Hm).
  assert (ty = 0x27 -> returns (handle_register_HTD p) s) as H27
    by (intros ->; cbn in Hcase; apply register_HTD_returns; [done|unfold htd_ok; tauto]).
  assert (ty = 0x34 -> returns (handle_ncq_register_DTH p) s) as H34
    by (intros ->; cbn in Hcase; apply register_DTH_returns; tauto).
  assert (ty = 0x41 -> returns (handle_dma_setup p) s) as H41
    by (intros ->; cbn in Hcase; apply dma_setup_returns; tauto).
  assert (ty = 0x46 -> returns (handle_ncq_data_packet p) s) as H46
    by (intros ->; cbn in Hcase; apply ncq_data_returns; tauto).
  destruct (_ || _); [done|].
  destruct (Z.eqb_spec ty FrameType.SetDeviceBitsFIS) as [->|_].
  { cbn in Hcase. apply Hret, set_device_bits_returns; tauto. }
  split_if; try done;
    repeat match goal with
    | H : (_ && _) = true |- _ => apply andb_true_iff in H as [? H]
    | H : (_ =? _) = true |- _ => apply Z.eqb_eq in H
    end;
    first [ by apply Hret, H27 | by apply Hret, H34 | by apply Hret, H41 | by apply Hret, H46
          | by apply Hret, unexpected_returns
          | apply abandon_good; [done..|by left]
          | apply abandon_good; [done..|by right]
          | subst ty; cbn in Hcase; first [by apply Hret, pio_setup_returns|by apply non_ncq_data_good] ].
Qed.
