(* ===== verification/ReconTheorems.v ===== *)
(** Theorems on [SATAReconstructor.process_packet]: loss detection, the object
    invariant on every branch, the conditions under which no exception escapes,
    and the two frame sequences after which one does. *)
From S2P Require Import Prelude Struct DataStruct Sata SataReconstructor.

(** * Loss detection *)

(** The sequence number is the expected one, or none is expected: nothing has
    been recorded, or the recorded number is 0. *)
Definition in_order (s : recon) (seqn : Z) : bool :=
  match last_packet_seqno s with
  | None => true
  | Some l => (l =? 0) || (seqn =? (l + 1) mod 65536)
  end.
Definition counted (s : recon) : recon := set_total_frames (total_frames s + 1) s.
(** The state [dispatch] starts from. *)
Definition after_check (seqn : Z) (s : recon) : recon :=
  if in_order s seqn then set_last_packet_seqno (Some seqn) (counted s)
  else (_reset_state (counted s)).2.

Lemma log_state_ok p s : packet_ok p -> log_state p s = (Ret tt, s).
Proof.
  intros [(n & Hseq & _) _ (ty & Hty & Hin & Hcase)]. unfold log_state. pm_unfold. hdr_eval.
  unfold FrameType.type_lookup. rewrite bool_decide_eq_true_2 by done.
  destruct (Z.eqb_spec ty 70) as [->|_]; [|by rewrite andb_false_r].
  cbn in Hcase. rewrite data_nocrc_ok by done. by destruct (_ && _).
Qed.

Lemma check_dropped_eq p s seqn :
  sata_header p !! "lophi_seqn" = Some seqn ->
  check_dropped p (counted s) = (Ret tt, after_check seqn s).
Proof.
  intros Hq. unfold check_dropped, after_check, in_order. pm_unfold. hdr_eval.
  unfold counted. cbn [last_packet_seqno set_total_frames].
  destruct (last_packet_seqno s) as [l|]; [|done].
  destruct (l =? 0); [done|]. by destruct (_ =? _).
Qed.

Lemma process_packet_eq p s seqn :
  packet_ok p -> sata_header p !! "lophi_seqn" = Some seqn ->
  process_packet p s = dispatch p (after_check seqn s).
Proof.
  intros Hp Hq. unfold process_packet, pm_bind, pm_modify.
  change (set_total_frames _ s) with (counted s).
  by rewrite log_state_ok, (check_dropped_eq p s seqn).
Qed.

(** Loss detection: a frame is handled in the current state when its number
    follows the last one (modulo 65536); otherwise every outstanding NCQ transaction,
    DMA setup and queued data frame is forgotten before it is handled, and the next
    frame is accepted whatever its number.  After number 0, as after a reset, any
    number is accepted. *)
Theorem sequence_policy p s seqn :
  packet_ok p -> sata_header p !! "lophi_seqn" = Some seqn ->
  process_packet p s =
    dispatch p
      (if in_order s seqn
       then set_last_packet_seqno (Some seqn) (set_total_frames (total_frames s + 1) s)
       else Recon (sector_size s) (regular_register_stack s) (regular_disk_sensor_packet s)
              (ncq_register_stack s) [] (replicate 32 None) (replicate 32 None) [] 0
              None DEVICE_IDLE (num_errors s) (total_frames s + 1)).
Proof. intros Hp Hq. by rewrite (process_packet_eq p s seqn). Qed.

Definition idle_header (seqn : Z) : header :=
  <["lophi_seqn" := seqn]> (<["direction" := 0]> (<["type" := 0x39]> ∅)).
Lemma idle_packet_ok seqn : 0 <= seqn < 65536 -> packet_ok (PhysicalPacket (idle_header seqn) None).
Proof.
  intros. split.
  - exists seqn. split; [done|lia].
  - by exists 0.
  - exists 0x39. split_and!; [done| |done]. apply (bool_decide_unpack _). reflexivity.
Qed.
Lemma sequence_policy_witness :
  process_packet (PhysicalPacket (idle_header 7) None) (set_last_packet_seqno (Some 5) (new_recon 512)) =
  dispatch (PhysicalPacket (idle_header 7) None) (set_total_frames 1 (new_recon 512)).
Proof.
  rewrite (sequence_policy _ _ 7); [reflexivity|apply idle_packet_ok; lia|reflexivity].
Defined.

(** * The object invariant *)

Lemma after_check_inv seqn s : recon_inv s -> recon_inv (after_check seqn s).
Proof.
  intros Hs. assert (recon_inv (counted s)) as Hc by (destruct s, Hs; by split).
  unfold after_check. destruct (in_order _ _); [|by apply reset_state_inv].
  destruct s, Hs; by split.
Qed.

Lemma after_check_failure seqn s e :
  failure (after_check seqn s) e -> in_order s seqn = true /\ failure s e.
Proof.
  unfold after_check. destruct (in_order s seqn); intros Hf.
  - split; [done|]. destruct s. inversion Hf; subst; cbn in *; by constructor.
  - exfalso. destruct s. inversion Hf as [? [H|H] _|? H]; discriminate H.
Qed.

Lemma process_packet_good p s seqn :
  recon_inv s -> packet_ok p -> sata_header p !! "lophi_seqn" = Some seqn ->
  match process_packet p s with
  | (Ret _, s') => recon_inv s'
  | (Raise e, s') => recon_inv s' /\ in_order s seqn = true /\ failure s e
  end.
Proof.
  intros Hs Hp Hq. rewrite (process_packet_eq p s seqn) by done.
  pose proof (dispatch_good p _ (after_check_inv seqn s Hs) Hp) as Hg. unfold good in Hg.
  destruct (dispatch p _) as [[r|e] s']; [done|]. destruct Hg as [? ?%after_check_failure]. tauto.
Qed.

(** [C25] The object invariant: [process_packet] keeps the 32 slots of registers and of
    packets under construction in step, the byte counter equal to the bytes queued and
    every stored packet within its fields, whether it returns or raises; and on a
    well-formed frame it raises only in the two states of [failure], never on a frame
    whose number reveals a loss. *)
Theorem process_packet_invariant p s seqn :
  recon_inv s -> packet_ok p -> sata_header p !! "lophi_seqn" = Some seqn ->
  match process_packet p s with
  | (Ret _, s') => recon_inv s'
  | (Raise e, s') => recon_inv s' /\ in_order s seqn = true /\ failure s e
  end.
Proof. apply process_packet_good. Qed.
Lemma process_packet_invariant_witness :
  recon_inv (process_packet (PhysicalPacket (idle_header 7) None) (new_recon 512)).2.
Proof.
  apply (process_packet_invariant (PhysicalPacket (idle_header 7) None) (new_recon 512) 7);
    [apply new_recon_inv; lia|apply idle_packet_ok; lia|reflexivity].
Defined.

(** * Freedom from exceptions *)

(** A DMA transfer is awaited only with its setup frame at hand, and regular data
    only with a packet to collect it or no register at all. *)
Definition armed (s : recon) : Prop :=
  (STATE s = WAIT_FOR_DMA_DATA_DEVICE \/ STATE s = WAIT_FOR_DMA_DATA_HOST ->
     ncq_dma_stack s <> []) /\
  (STATE s = WAIT_FOR_NON_NCQ_DATA ->
     regular_register_stack s = [] \/ regular_disk_sensor_packet s <> None).

Lemma armed_no_failure s e : armed s -> ~ failure s e.
Proof. intros [H1 H2] Hf. inversion Hf; subst; [by apply H1|]. destruct H2; done. Qed.

(** Neither an error notice of the device nor a PIO setup. *)
Definition benign (p : packet) : Prop :=
  forall ty, sata_header p !! "type" = Some ty ->
    ty <> FrameType.PIOSetupFIS /\ ty <> FrameType.SetDeviceBitsFIS /\
    (ty = FrameType.RegisterFIS_DtoH ->
       forall status, sata_header p !! "status" = Some status -> Z.land status 1 <> 1).

Definition keeps_armed {A} (m : M A) (s : recon) : Prop := armed (m s).2.

Lemma idle_armed s : STATE s = DEVICE_IDLE -> armed s.
Proof. intros H. split; rewrite H; [by intros [|]|done]. Qed.
Lemma same_armed s s' :
  STATE s' = STATE s -> ncq_dma_stack s' = ncq_dma_stack s ->
  regular_register_stack s' = regular_register_stack s ->
  regular_disk_sensor_packet s' = regular_disk_sensor_packet s -> armed s -> armed s'.
Proof. unfold armed. by intros -> -> -> ->. Qed.
Lemma after_check_armed seqn s : armed s -> armed (after_check seqn s).
Proof.
  intros Ha. unfold after_check. destruct (in_order _ _); [|by apply idle_armed].
  by apply (same_armed s).
Qed.

Lemma register_HTD_armed p s :
  recon_inv s -> htd_ok p -> armed s -> keeps_armed (handle_register_HTD p) s.
Proof.
  intros Hs Hp Ha. unfold htd_ok in Hp. hdr_split. unfold keeps_armed, handle_register_HTD.
  unfold pm_bind at 1, pm_lift at 1. hdr_eval. destruct (_ =? 0); [done|].
  unfold pm_bind at 1, pm_lift at 1. destruct (_ || _).
  - erewrite register_ncq_spec by done. by apply (same_armed s).
  - destruct (_ =? _); [done|]. erewrite register_non_ncq_spec by done.
    split; cbn; [by intros [|]|by right].
Qed.

Lemma dma_setup_armed p s :
  dma_ok p -> present p "direction_bit" -> keeps_armed (handle_dma_setup p) s.
Proof.
  intros Hd H1. unfold dma_ok in Hd. hdr_split. unfold keeps_armed, handle_dma_setup.
  pm_unfold. hdr_eval. split_if; (split; cbn; [intros _; by destruct (ncq_dma_stack s)|done]).
Qed.

Lemma complete_transfer_armed s tag stack dma :
  recon_inv s -> 0 <= tag < 32 -> ncq_dma_stack s = stack ++ [dma] ->
  is_Some (mjoin (ncq_transactions_outstanding s !! Z.to_nat tag)) ->
  keeps_armed (complete_transfer tag) s.
Proof.
  intros Hs Ht Hdma [q Hq]. destruct (slot_lookup s tag Hs Ht) as (x & d & Hx & Hd & Hslot).
  rewrite Hx in Hq. cbn in Hq. subst x. destruct d as [d|]; [|done].
  destruct Hslot as (lba & n & op & size & data & Hok & ->).
  unfold keeps_armed. erewrite complete_transfer_spec by done.
  destruct (_ <=? _); by apply idle_armed.
Qed.

Lemma ncq_data_armed p s :
  recon_inv s -> is_Some (sata_data p) -> present p "direction" -> armed s ->
  keeps_armed (handle_ncq_data_packet p) s.
Proof.
  intros Hs Hp Hdir Ha. destruct (stack_cases (ncq_dma_stack s)) as [Hdma|(stack & dma & Hdma)].
  - unfold keeps_armed, handle_ncq_data_packet. pm_unfold. by rewrite Hdma.
  - pose proof (inv_dma _ Hs) as Hall. rewrite Hdma in Hall.
    apply Forall_app in Hall as [_ Hall]. rewrite Forall_singleton in Hall.
    destruct Hall as [(tag & Htag & Htr) (tc & Htc)].
    destruct (slot_lookup s tag Hs Htr) as (x & d & Hx & Hd & Hslot).
    destruct x as [x|].
    + unfold keeps_armed. erewrite ncq_data_eq; [|done..|by rewrite Hx].
      destruct (_ <=? _); [|by apply (same_armed s)].
      eapply complete_transfer_armed; [by apply enqueue_inv|done|done|].
      unfold enqueue. cbn. by rewrite Hx.
    + unfold keeps_armed, handle_ncq_data_packet. pm_unfold. rewrite Hdma, last_snoc. hdr_eval.
      by rewrite (py_index_lookup _ _ _ (proj1 Htr) Hx).
Qed.

Lemma non_ncq_data_armed p s :
  recon_inv s -> is_Some (sata_data p) -> present p "direction" -> armed s ->
  keeps_armed (handle_non_ncq_data_packet p) s.
Proof.
  intros Hs Hp [dir Hdir] Ha. unfold keeps_armed.
  destruct (decide (regular_register_stack s = [])) as [Hst|Hst].
  { unfold handle_non_ncq_data_packet. pm_unfold. by rewrite Hst. }
  pose proof (inv_regular _ Hs) as Hreg.
  destruct (regular_disk_sensor_packet s) as [d|] eqn:Hd.
  - destruct Hreg as (lba & n & op & size & data & Hok & ->).
    erewrite non_ncq_data_eq by done. destruct (_ <=? _); [by apply idle_armed|].
    destruct Ha as [Ha _]. split; cbn; [done|by right].
  - unfold handle_non_ncq_data_packet. pm_unfold.
    destruct (regular_register_stack s); [done|]. unfold on_regular. by rewrite Hd.
Qed.

Lemma unexpected_armed p s :
  recon_inv s -> packet_ok p -> keeps_armed (_handle_unexpected_packet p) s.
Proof.
  intros Hs [_ Hdir (ty & Hty & Hin & Hcase)]. unfold keeps_armed, _handle_unexpected_packet.
  pm_unfold. hdr_eval.
  assert (recon_inv (set_STATE DEVICE_IDLE (set_num_errors (num_errors s + 1) s))) as Hs'.
  { apply set_STATE_inv; [|set_solver]. destruct s, Hs. by split. }
  destruct (Z.eqb_spec ty FrameType.RegisterFIS_HtoD) as [->|_];
    [|destruct (Z.eqb_spec ty FrameType.DMASetupFIS) as [->|_]]; [..|by apply idle_armed].
  - cbn in Hcase. apply register_HTD_armed; [done| |by apply idle_armed]. unfold htd_ok. tauto.
  - cbn in Hcase. apply dma_setup_armed; tauto.
Qed.

Lemma abandon_armed p s :
  recon_inv s -> packet_ok p -> armed s -> keeps_armed (abandon_transfer p) s.
Proof.
  intros Hs Hp Ha. unfold keeps_armed, abandon_transfer, pop_dma. pm_unfold.
  destruct (stack_cases (ncq_dma_stack s)) as [Hdma|(stack & dma & Hdma)];
    cbn [ncq_dma_stack set_ncq_data_packets set_ncq_data_len]; rewrite Hdma.
  - by apply (same_armed s).
  - rewrite py_pop_app. apply unexpected_armed; [|done]. pose proof (inv_dma _ Hs) as Hall.
    rewrite Hdma in Hall. apply Forall_app in Hall as [Hall _]. destruct s, Hs. by split.
Qed.

Lemma dispatch_armed p s :
  recon_inv s -> packet_ok p -> benign p -> armed s -> keeps_armed (dispatch p) s.
Proof.
  intros Hs Hp Hb Ha. pose proof Hp as [Hseq Hdir (ty & Hty & Hin & Hcase)].
  pose proof Hdir as (dir & Hd & Hdr). destruct (Hb ty Hty) as (Hpio & Hsdb & Hdth).
  assert (present p "direction") as Hpd by (by eexists).
  assert (ty = 0x27 -> keeps_armed (handle_register_HTD p) s) as H27
    by (intros ->; cbn in Hcase; apply register_HTD_armed; [done|unfold htd_ok; tauto|done]).
  assert (ty = 0x34 -> keeps_armed (handle_ncq_register_DTH p) s) as H34.
  { intros ->. cbn in Hcase. destruct Hcase as [[st Hst] [er Her]].
    unfold keeps_armed, handle_ncq_register_DTH. pm_unfold. hdr_eval.
    destruct (Z.eqb_spec (Z.land st 1) 1) as [E|_]; [|done]. by destruct (Hdth eq_refl st Hst E). }
  assert (ty = 0x41 -> keeps_armed (handle_dma_setup p) s) as H41
    by (intros ->; cbn in Hcase; apply dma_setup_armed; tauto).
  assert (ty = 0x46 -> keeps_armed (handle_ncq_data_packet p) s) as H46
    by (intros ->; cbn in Hcase; apply ncq_data_armed; tauto).
  unfold keeps_armed, dispatch. pm_unfold. hdr_eval.
  destruct (_ || _); [done|].
  destruct (Z.eqb_spec ty FrameType.SetDeviceBitsFIS) as [->|_]; [by destruct Hsdb|].
  destruct (Z.eqb_spec ty FrameType.PIOSetupFIS) as [->|_]; [by destruct Hpio|].
  split_if; try done;
    repeat match goal with
    | H : (_ && _) = true |- _ => apply andb_true_iff in H as [? H]
    | H : (_ =? _) = true |- _ => apply Z.eqb_eq in H
    end;
    first [ done | by apply H27 | by apply H34 | by apply H41 | by apply H46
          | by apply unexpected_armed | by apply abandon_armed
          | subst ty; cbn in Hcase; by apply non_ncq_data_armed ].
Qed.

(** The state after a sequence of frames; a frame whose handler raises leaves what
    it changed. *)
Inductive fed : recon -> list packet -> recon -> list result -> Prop :=
  | fed_nil s : fed s [] s []
  | fed_cons s p r s1 ps s2 rs :
      process_packet p s = (Ret r, s1) -> fed s1 ps s2 rs -> fed s (p :: ps) s2 (r :: rs).

Lemma process_packet_armed p s :
  recon_inv s -> packet_ok p -> benign p -> armed s ->
  exists r s', process_packet p s = (Ret r, s') /\ recon_inv s' /\ armed s'.
Proof.
  intros Hs Hp Hb Ha. pose proof Hp as [(seqn & Hq & _) _ _].
  pose proof (process_packet_good p s seqn Hs Hp Hq) as Hinv.
  pose proof (dispatch_armed p _ (after_check_inv seqn s Hs) Hp Hb (after_check_armed seqn s Ha)) as Hk.
  unfold keeps_armed in Hk. rewrite <- process_packet_eq in Hk by done.
  destruct (process_packet p s) as [[r|e] s']; [by eauto|].
  destruct Hinv as (_ & _ & Hf). by destruct (armed_no_failure s e Ha).
Qed.

(** No exception escapes on ordinary traffic: from a new reconstructor (or any
    armed state), every sequence of well-formed frames without device error notices
    and PIO setups is processed to its end, one result per frame, whatever was lost,
    repeated or out of protocol. *)
Theorem benign_traffic_never_raises ps s :
  recon_inv s -> armed s -> Forall packet_ok ps -> Forall benign ps ->
  exists s' rs, fed s ps s' rs /\ length rs = length ps /\ recon_inv s' /\ armed s'.
Proof.
  intros Hs Ha Hps. revert s Hs Ha. induction Hps as [|p ps Hp Hps IH]; intros s Hs Ha Hb.
  - exists s, []. split_and!; [constructor|done..].
  - apply Forall_cons in Hb as [Hb Hbs].
    destruct (process_packet_armed p s Hs Hp Hb Ha) as (r & s1 & Hr & Hs1 & Ha1).
    destruct (IH s1 Hs1 Ha1 Hbs) as (s' & rs & Hf & Hl & Hs' & Ha').
    exists s', (r :: rs). split_and!; [by econstructor|cbn; lia|done..].
Qed.

(** Concrete frames for examples. *)
Definition frame (seqn dir ty : Z) (fields : list (string * Z)) (data : option bytes) : packet :=
  PhysicalPacket (<["lophi_seqn" := seqn]> (<["direction" := dir]> (<["type" := ty]>
    (list_to_map fields)))) data.
Ltac frame_ok :=
  split; [eexists; split; [reflexivity|lia]|eexists; split; [reflexivity|lia]
         |eexists; split_and!; [reflexivity|apply (bool_decide_unpack _); reflexivity|cbn]];
  unfold dma_ok; split_and?; try done;
  first [eexists; split; [reflexivity|cbn; lia]|eexists; reflexivity].
Ltac frame_benign :=
  let ty := fresh "ty" in let H := fresh "H" in
  intros ty H; vm_compute in H; injection H as <-; split_and!; done.

Definition setup_frame seqn : packet :=
  frame seqn 1 0x41 [("dma_buf_identifier_low", 3); ("transfer_count", 4); ("direction_bit", 1)] None.
Definition data_frame seqn : packet := frame seqn 1 0x46 [] (Some [1; 2; 3; 4; 9; 9; 9; 9]).
Lemma setup_frame_ok : packet_ok (setup_frame 7).
Proof. frame_ok. Qed.
Lemma data_frame_ok : packet_ok (data_frame 8).
Proof. frame_ok. Qed.
Lemma benign_traffic_never_raises_witness :
  exists s' rs, fed (new_recon 512) [setup_frame 7; data_frame 8] s' rs /\ length rs = 2%nat /\
    recon_inv s' /\ armed s'.
Proof.
  apply (benign_traffic_never_raises [setup_frame 7; data_frame 8] (new_recon 512)).
  - apply new_recon_inv; lia.
  - by apply idle_armed.
  - apply Forall_cons; split; [apply setup_frame_ok|].
    apply Forall_cons; split; [apply data_frame_ok|constructor].
  - apply Forall_cons; split; [frame_benign|]. apply Forall_cons; split; [frame_benign|constructor].
Defined.

(** * The frame sequences that raise *)

(** A device error notice: a set-device-bits frame with its error bit. *)
Definition error_notice (p : packet) : Prop :=
  sata_header p !! "type" = Some FrameType.SetDeviceBitsFIS /\
  exists st act it, sata_header p !! "status_lo" = Some st /\ sata_header p !! "proto" = Some act /\
    sata_header p !! "interrupt" = Some it /\ Z.land st 1 = 1.

Lemma error_notice_dispatch p s :
  packet_ok p -> error_notice p -> dispatch p s = (Ret None, (_reset_ncq s).2).
Proof.
  intros [_ (dir & Hd & _) _] (Hty & st & act & it & H1 & H2 & H3 & Hbit).
  unfold dispatch. pm_unfold. hdr_eval. cbn [Z.eqb orb FrameType.SetDeviceBitsFIS].
  change (FrameType.SetDeviceBitsFIS =? _) with false. cbn.
  unfold handle_set_device_bits. pm_unfold. hdr_eval. by rewrite Hbit.
Qed.

Lemma setup_while_waiting q s dir :
  sata_header q !! "type" = Some FrameType.DMASetupFIS -> sata_header q !! "direction" = Some dir ->
  STATE s = WAIT_FOR_DMA_DATA_DEVICE \/ STATE s = WAIT_FOR_DMA_DATA_HOST ->
  dispatch q s = abandon_transfer q s.
Proof.
  intros Hty Hd HST. unfold dispatch. pm_unfold. hdr_eval.
  destruct s; cbn in HST.
  destruct (dir =? HOST_TO_DEVICE), (dir =? DEVICE_TO_HOST), HST as [-> | ->]; reflexivity.
Qed.

(** An error notice leaves the reconstructor stuck: it empties the DMA stack
    but not [STATE], so that in the middle of a DMA transfer the next setup frame the
    device sends raises [IndexError] instead of starting a transfer. *)
Theorem error_notice_then_setup_raises s p q n m :
  recon_inv s -> STATE s = WAIT_FOR_DMA_DATA_DEVICE \/ STATE s = WAIT_FOR_DMA_DATA_HOST ->
  packet_ok p -> error_notice p -> sata_header p !! "lophi_seqn" = Some n -> in_order s n = true ->
  packet_ok q -> sata_header q !! "type" = Some FrameType.DMASetupFIS ->
  sata_header q !! "lophi_seqn" = Some m -> m = (n + 1) mod 65536 ->
  exists s1, process_packet p s = (Ret None, s1) /\ (process_packet q s1).1 = Raise IndexError.
Proof.
  intros Hs HST Hp He Hn Hord Hq Hty Hm ->.
  exists (_reset_ncq (after_check n s)).2. split.
  { rewrite (process_packet_eq p s n) by done. by rewrite error_notice_dispatch. }
  rewrite (process_packet_eq q _ _ Hq Hm). unfold after_check at 2. rewrite Hord.
  set (s1 := (_reset_ncq _).2). destruct Hq as [_ (dir & Hd & Hdr) _].
  assert (in_order s1 ((n + 1) mod 65536) = true) as Hord1.
  { unfold in_order. subst s1. destruct s; cbn. destruct (n =? 0); [done|]. by rewrite Z.eqb_refl. }
  unfold after_check. rewrite Hord1. rewrite setup_while_waiting with (dir := dir); [|done..|].
  - subst s1. by destruct s.
  - subst s1. by destruct s.
Qed.
Definition error_frame seqn : packet :=
  frame seqn 1 0xa1 [("status_lo", 1); ("proto", 0); ("interrupt", 0)] None.
Lemma error_frame_ok : packet_ok (error_frame 8).
Proof. frame_ok. Qed.
Lemma setup_frame_ok9 : packet_ok (setup_frame 9).
Proof. frame_ok. Qed.
Lemma error_notice_then_setup_raises_witness :
  exists s1, process_packet (error_frame 8) (process_packet (setup_frame 7) (new_recon 512)).2
               = (Ret None, s1) /\ (process_packet (setup_frame 9) s1).1 = Raise IndexError.
Proof.
  apply (error_notice_then_setup_raises _ (error_frame 8) (setup_frame 9) 8 9).
  - apply (process_packet_good (setup_frame 7) (new_recon 512) 7);
      [apply new_recon_inv; lia|apply setup_frame_ok|reflexivity].
  - by left.
  - apply error_frame_ok.
  - split; [reflexivity|]. by exists 1, 0, 0.
  - reflexivity.
  - reflexivity.
  - apply setup_frame_ok9.
  - reflexivity.
  - reflexivity.
  - reflexivity.
Defined.

(** * In-order traffic *)

(** The effect of the sequence check on a frame that arrives in order. *)
Definition tick (n : Z) (s : recon) : recon := set_last_packet_seqno (Some n) (counted s).
(** [n] is an acceptable number for the next frame. *)
Definition expects (s : recon) (n : Z) : Prop := in_order s n = true.
(** The frames carry consecutive numbers from [n]. *)
Fixpoint numbered (n : Z) (ps : list packet) : Prop :=
  match ps with
  | [] => True
  | p :: ps => sata_header p !! "lophi_seqn" = Some n /\ numbered ((n + 1) mod 65536) ps
  end.

Lemma expects_next s n : last_packet_seqno s = Some n -> expects s ((n + 1) mod 65536).
Proof. unfold expects, in_order. intros ->. rewrite Z.eqb_refl. apply orb_true_r. Qed.
Lemma process_in_order p s n :
  packet_ok p -> sata_header p !! "lophi_seqn" = Some n -> expects s n ->
  process_packet p s = dispatch p (tick n s).
Proof.
  intros Hp Hn He. rewrite (process_packet_eq p s n) by done. unfold after_check. by rewrite He.
Qed.
Lemma tick_inv n s : recon_inv s -> recon_inv (tick n s).
Proof. intros Hs. destruct s, Hs. by split. Qed.

(** ** Regular transactions *)

(** A register frame that starts a regular (not queued) transfer of [count] sectors. *)
Record regular_command (p : packet) (lba count : Z) : Prop := {
  rc_ok : packet_ok p;
  rc_type : sata_header p !! "type" = Some FrameType.RegisterFIS_HtoD;
  rc_from_host : sata_header p !! "direction" = Some HOST_TO_DEVICE;
  rc_C : exists c, sata_header p !! "C" = Some c /\ c <> 0;
  rc_command : exists cmd, sata_header p !! "command" = Some cmd /\
    cmd ∉ [NCQCommandType.ReadFPDMAQueued; NCQCommandType.WriteFPDMAQueued;
           NCQCommandType.NCQQueueManagement];
  rc_count : sata_header p !! "count" = Some count /\ 0 <= count < 65536;
  rc_lba : sata_header p !! "lba" = Some lba /\ 0 <= lba < 2 ^ 48
}.
Definition is_data_frame (p : packet) : Prop :=
  packet_ok p /\ sata_header p !! "type" = Some FrameType.DataFIS /\ is_Some (sata_data p).

(** [s] collects the data of a regular transfer. *)
Record collecting (lba n op size : Z) (data : bytes) (s : recon) : Prop := {
  co_inv : recon_inv s;
  co_fields : dsp_ok lba n op size;
  co_state : STATE s = WAIT_FOR_NON_NCQ_DATA;
  co_stack : regular_register_stack s <> [];
  co_packet : regular_disk_sensor_packet s = Some (dsp lba n op size data)
}.
Lemma tick_collecting k lba n op size data s :
  collecting lba n op size data s -> collecting lba n op size data (tick k s).
Proof. intros [Hi ? ? ? ?]. split; [by apply tick_inv|done..]. Qed.

Lemma regular_command_step p s k lba count :
  recon_inv s -> regular_command p lba count -> sata_header p !! "lophi_seqn" = Some k ->
  expects s k -> exists s', process_packet p s = (Ret None, s') /\
    collecting lba count DIRECTION_READ (count * sector_size s) [] s' /\ last_packet_seqno s' = Some k /\
    sector_size s' = sector_size s.
Proof.
  intros Hs [Hok Hty Hd (c & Hc & Hc0) (cmd & Hcmd & Hnot) [Hcount Hcr] [Hlba Hlr]] Hk He.
  rewrite (process_in_order p s k) by done.
  assert (dispatch p (tick k s) = register_non_ncq p (tick k s)) as ->.
  { unfold dispatch. pm_unfold. hdr_eval. cbn -[handle_register_HTD register_non_ncq].
    unfold handle_register_HTD. pm_unfold. hdr_eval.
    destruct (Z.eqb_spec c 0); [done|]. rewrite !not_elem_of_cons in Hnot.
    destruct Hnot as (? & ? & ? & _). rewrite !(proj2 (Z.eqb_neq cmd _)) by done. done. }
  pose proof (tick_inv k s Hs) as Ht.
  erewrite register_non_ncq_spec by (done || (unfold HOST_TO_DEVICE; lia)).
  eexists. split; [reflexivity|]. split; [|done].
  assert (dsp_ok lba count HOST_TO_DEVICE (count * sector_size s)) as Hdsp.
  { apply dsp_ok_sectors; [apply Hs|done|done|unfold HOST_TO_DEVICE; lia]. }
  split; [|done|done| |done].
  - apply set_STATE_inv; [|set_solver]. destruct s, Hs. split; cbn in *; try done.
    by apply is_dsp_intro.
  - cbn. by destruct (regular_register_stack s).
Qed.

Lemma data_dispatch q s :
  is_data_frame q -> STATE s = WAIT_FOR_NON_NCQ_DATA ->
  dispatch q s = handle_non_ncq_data_packet q s.
Proof.
  intros ([_ (dir & Hd & _) _] & Hty & _) HST. unfold dispatch. pm_unfold. hdr_eval.
  destruct s; cbn in HST. subst. by destruct (dir =? HOST_TO_DEVICE), (dir =? DEVICE_TO_HOST).
Qed.

Lemma regular_data_step q s k lba n op size data dir :
  collecting lba n op size data s -> is_data_frame q ->
  sata_header q !! "lophi_seqn" = Some k -> expects s k ->
  sata_header q !! "direction" = Some dir ->
  process_packet q s =
    if size <=? zlen (data ++ frame_payload q)
    then (Ret (Some [with_direction dir (dsp lba n op size (data ++ frame_payload q))]),
          set_STATE DEVICE_IDLE (set_regular_disk_sensor_packet None (tick k s)))
    else (Ret None,
          set_regular_disk_sensor_packet (Some (dsp lba n op size (data ++ frame_payload q))) (tick k s)).
Proof.
  intros Hc Hq Hk He Hdir. pose proof Hq as (Hok & _ & Hdata).
  rewrite (process_in_order q s k) by done. destruct (tick_collecting k _ _ _ _ _ _ Hc) as [Hi _ HST Hst Hp].
  rewrite data_dispatch by done. by erewrite non_ncq_data_eq.
Qed.

Lemma collecting_more lba n op size data x s :
  collecting lba n op size data s ->
  collecting lba n op size (data ++ x)
    (set_regular_disk_sensor_packet (Some (dsp lba n op size (data ++ x))) s).
Proof.
  intros [Hi Hok ? ? Hp]. split; [|done..].
  destruct s, Hi. split; cbn in *; try done. by apply is_dsp_intro.
Qed.

Lemma fed_data lba n op size ds s k data q qdir :
  collecting lba n op size data s -> Forall is_data_frame (ds ++ [q]) ->
  numbered k (ds ++ [q]) -> expects s k -> sata_header q !! "direction" = Some qdir ->
  zlen (data ++ concat (frame_payload <$> ds)) < size ->
  size <= zlen (data ++ concat (frame_payload <$> ds ++ [q])) ->
  exists s', fed s (ds ++ [q]) s'
      (replicate (length ds) None ++
       [Some [with_direction qdir (dsp lba n op size (data ++ concat (frame_payload <$> ds ++ [q])))]]) /\
    recon_inv s' /\ STATE s' = DEVICE_IDLE /\ regular_disk_sensor_packet s' = None /\
    regular_register_stack s' = regular_register_stack s.
Proof.
  revert s k data. induction ds as [|d ds IH]; intros s k data Hc Hall Hnum He Hdir Hlo Hhi;
    cbn [app numbered fmap list_fmap concat length replicate] in *;
    apply Forall_cons in Hall as [Hd Hall]; destruct Hnum as [Hk Hnum].
  - rewrite app_nil_r in *. eexists. split; [econstructor; [|constructor]|].
    + rewrite (regular_data_step q s k lba n op size data qdir) by done.
      rewrite (proj2 (Z.leb_le _ _)) by done. reflexivity.
    + destruct Hc as [Hi ? ? ?]. split; [|done]. apply set_STATE_inv; [|set_solver].
      destruct s, Hi. by split.
  - pose proof (zlen_nonneg (concat (frame_payload <$> ds))) as Hnn.
    rewrite app_assoc, zlen_app in Hlo. pose proof Hd as ([_ (dir & Hdd & _) _] & _).
    pose proof (collecting_more _ _ _ _ _ (frame_payload d) _ (tick_collecting k _ _ _ _ _ _ Hc)) as Hc'.
    destruct (IH _ _ _ Hc' Hall Hnum) as (s' & Hf & Hinv); [by apply expects_next|done|..].
    + rewrite zlen_app. lia.
    + by rewrite <- app_assoc.
    + exists s'. split; [|done]. rewrite <- app_assoc in Hf. econstructor; [|exact Hf].
      rewrite (regular_data_step d s k lba n op size data dir) by done.
      rewrite (proj2 (Z.leb_gt _ _)) by lia. reflexivity.
Qed.

(** A regular transfer: a register frame for [count] sectors at [lba], then
    data frames in order, gives nothing until [count] sectors' worth of payload has
    arrived and then one packet with that sector range and exactly the payloads, in
    order and without checksums; the machine is idle again.  The packet's
    [disk_operation] is the direction of the register frame, so it is a read even when
    the data went to the disk: the data's direction is in an attribute that is not a
    field. *)
Theorem regular_transfer p ds q s k lba count qdir :
  recon_inv s -> expects s k -> regular_command p lba count ->
  Forall is_data_frame (ds ++ [q]) -> numbered k (p :: ds ++ [q]) ->
  sata_header q !! "direction" = Some qdir ->
  let size := count * sector_size s in
  let payload := concat (frame_payload <$> ds ++ [q]) in
  zlen (concat (frame_payload <$> ds)) < size <= zlen payload ->
  exists s', fed s (p :: ds ++ [q]) s' (None :: replicate (length ds) None ++
      [Some [with_direction qdir (dsp lba count DIRECTION_READ size payload)]]) /\
    recon_inv s' /\ STATE s' = DEVICE_IDLE.
Proof.
  intros Hs He Hp Hall [Hk Hnum] Hdir size payload Hsz.
  destruct (regular_command_step p s k lba count Hs Hp Hk He) as (s1 & H1 & Hc & Hl & Hss).
  destruct (fed_data _ _ _ _ _ s1 _ [] q qdir Hc Hall Hnum) as (s' & Hf & Hi & Hst & _);
    [by apply expects_next|done|cbn; lia|cbn; apply Hsz|].
  exists s'. split; [by econstructor|done].
Qed.

Definition register_frame seqn : packet :=
  frame seqn 0 0x27 [("C", 1); ("command", 0xc8); ("tag", 0); ("features", 0); ("count", 2);
                     ("lba", 77)] None.
Lemma register_frame_ok : packet_ok (register_frame 7).
Proof. frame_ok. Qed.
Lemma data_frame_ok9 : packet_ok (data_frame 9).
Proof. frame_ok. Qed.
Lemma regular_transfer_witness :
  exists s', fed (new_recon 3) [register_frame 7; data_frame 8; data_frame 9] s'
      [None; None; Some [with_direction 1 (dsp 77 2 0 6 [1; 2; 3; 4; 1; 2; 3; 4])]] /\
    recon_inv s' /\ STATE s' = DEVICE_IDLE.
Proof.
  apply (regular_transfer (register_frame 7) [data_frame 8] (data_frame 9) (new_recon 3) 7 77 2 1).
  - apply new_recon_inv; lia.
  - reflexivity.
  - split; [apply register_frame_ok|reflexivity|reflexivity|by exists 1| |done|done].
    exists 0xc8. split; [reflexivity|]. apply (bool_decide_unpack _). reflexivity.
  - apply Forall_cons; split; [|apply Forall_singleton];
      (split_and!; [|reflexivity|by eexists]); [apply data_frame_ok|apply data_frame_ok9].
  - cbn [numbered app]. split_and!; reflexivity.
  - reflexivity.
  - vm_compute. by split.
Defined.

(** The register of a finished regular transfer stays on its stack, so that a
    PIO setup frame (which may follow at any time) and its data frame raise
    [AttributeError]: there is a register but no packet to collect the data. *)
Theorem pio_after_transfer_raises s p q k :
  recon_inv s -> regular_register_stack s <> [] -> regular_disk_sensor_packet s = None ->
  expects s k -> packet_ok p -> sata_header p !! "type" = Some FrameType.PIOSetupFIS ->
  is_data_frame q -> numbered k [p; q] ->
  exists s1, process_packet p s = (Ret None, s1) /\ (process_packet q s1).1 = Raise AttributeError.
Proof.
  intros Hs Hst Hr He Hp Hty Hq (Hk & Hk' & _). exists (set_STATE WAIT_FOR_NON_NCQ_DATA (tick k s)).
  split.
  - rewrite (process_in_order p s k) by done. pose proof Hp as [_ (dir & Hd & _) Ht].
    destruct Ht as (ty & Hty' & _ & Hcase). rewrite Hty in Hty'. injection Hty' as <-.
    cbn in Hcase. hdr_split. unfold dispatch, handle_pio_setup. pm_unfold. hdr_eval.
    by destruct (dir =? HOST_TO_DEVICE), (dir =? DEVICE_TO_HOST).
  - rewrite (process_in_order q _ ((k + 1) mod 65536)) by (done || apply Hq || by apply expects_next).
    rewrite data_dispatch by done. unfold handle_non_ncq_data_packet. pm_unfold.
    destruct s as [? st]; cbn in *. subst. by destruct st.
Qed.
Definition pio_frame seqn : packet := frame seqn 1 0x5f [("transfer_count", 4)] None.
Lemma pio_frame_ok : packet_ok (pio_frame 8).
Proof. frame_ok. Qed.
Lemma pio_after_transfer_raises_witness :
  exists s1, process_packet (pio_frame 8)
      (set_regular_register_stack [register_frame 6] (set_last_packet_seqno (Some 7) (new_recon 512)))
      = (Ret None, s1) /\ (process_packet (data_frame 9) s1).1 = Raise AttributeError.
Proof.
  apply (pio_after_transfer_raises _ (pio_frame 8) (data_frame 9) 8).
  - destruct (new_recon_inv 512 ltac:(lia) ltac:(lia)). by split.
  - done.
  - done.
  - reflexivity.
  - apply pio_frame_ok.
  - reflexivity.
  - split_and!; [apply data_frame_ok9|reflexivity|by eexists].
  - cbn [numbered]. split_and!; reflexivity.
Defined.
