(* ===== verification/NcqRefinement.v ===== *)
(** What native command queuing promises, and that the reconstructor implements it.

    The specification knows transactions by tag and at most one DMA transfer in
    progress; it has no frames, stacks, slots or packed structures.  The refinement
    relates it to [SATAReconstructor] step by step, and a property of the
    specification's traces, that a finished transaction carries exactly the payload
    transferred for its tag since its command, is transported to the code. *)
From S2P Require Import Prelude Struct DataStruct Sata SataReconstructor ReconTheorems.

(** * Specification *)

Record txn := Txn { t_lba : Z; t_count : Z; t_op : Z; t_size : Z; t_data : bytes }.
Record xfer := Xfer { x_tag : Z; x_len : Z; x_dir : Z; x_data : bytes }.
Record ncq := Ncq { open : gmap Z txn; current : option xfer }.

(** Commands, DMA setups and data; status frames that report no error (acknowledgements, set
    device bits, DMA activate); and errors, which end every open transaction. *)
Inductive event :=
  | Command (tag lba count op : Z)
  | Setup (tag len dir : Z)
  | Payload (dir : Z) (data : bytes)
  | Notice
  | Failure.

Definition with_data (t : txn) (data : bytes) : txn :=
  Txn (t_lba t) (t_count t) (t_op t) (t_size t) data.

(** One step for sectors of [ss] bytes; no result when the event is out of protocol. *)
Definition spec_step (ss : Z) (e : event) (a : ncq) : option (ncq * option (Z * txn)) :=
  match e with
  | Command tag lba count op =>
      Some (Ncq (<[tag := Txn lba count op (count * ss) []]> (open a)) (current a), None)
  | Setup tag len dir =>
      match current a with
      | None => Some (Ncq (open a) (Some (Xfer tag len dir [])), None)
      | Some _ => None
      end
  | Payload dir data =>
      match current a with
      | None => None
      | Some x =>
          if negb (dir =? x_dir x) then None else
          match open a !! x_tag x with
          | None => None
          | Some t =>
              let got := x_data x ++ data in
              if x_len x <=? zlen got then
                let t' := with_data t (t_data t ++ got) in
                if t_size t <=? zlen (t_data t')
                then Some (Ncq (delete (x_tag x) (open a)) None, Some (x_tag x, t'))
                else Some (Ncq (<[x_tag x := t']> (open a)) None, None)
              else Some (Ncq (open a) (Some (Xfer (x_tag x) (x_len x) (x_dir x) got)), None)
          end
      end
  | Notice => Some (a, None)
  | Failure => match current a with None => Some (Ncq ∅ None, None) | Some _ => None end
  end.

(** Runs of the specification, from the newest event backwards. *)
Inductive spec_run (ss : Z) : list event -> ncq -> list (option (Z * txn)) -> Prop :=
  | run_nil : spec_run ss [] (Ncq ∅ None) []
  | run_snoc es a os e a' o :
      spec_run ss es a os -> spec_step ss e a = Some (a', o) ->
      spec_run ss (es ++ [e]) a' (os ++ [o]).

(** ** What the specification delivers *)

(** The transfer in progress after a trace and, for one tag, the bytes transferred
    since its last command.  Neither looks at the specification's state. *)
Definition track_tag (cur : option Z) (e : event) : option Z :=
  match e with Setup t _ _ => Some t | _ => cur end.
Definition track (tag : Z) (st : option Z * bytes) (e : event) : option Z * bytes :=
  (track_tag st.1 e,
   match e with
   | Command t _ _ _ => if t =? tag then [] else st.2
   | Payload _ d => if bool_decide (st.1 = Some tag) then st.2 ++ d else st.2
   | _ => st.2
   end).
Definition transferred (tag : Z) (es : list event) : bytes :=
  (fold_left (track tag) es (None, [])).2.
(** The last command for [tag] in the trace. *)
Definition last_command (tag : Z) (es : list event) : option (Z * Z * Z) :=
  fold_left (fun r e => match e with
    | Command t lba count op => if t =? tag then Some (lba, count, op) else r
    | _ => r end) es None.

Definition setup_of (es : list event) : option Z := fold_left track_tag es None.

Lemma track_fst tag es st : (fold_left (track tag) es st).1 = fold_left track_tag es st.1.
Proof. revert st. induction es as [|e es IH]; intros st; [done|]. cbn. by rewrite IH. Qed.
Lemma transferred_snoc tag es e :
  transferred tag (es ++ [e]) = (track tag (setup_of es, transferred tag es) e).2.
Proof.
  unfold transferred, setup_of. rewrite fold_left_app. cbn [fold_left].
  change None with ((@None Z, @nil Z).1) at 2. rewrite <- (track_fst tag es (None, [])).
  by destruct (fold_left (track tag) es _).
Qed.
Lemma setup_of_snoc es e : setup_of (es ++ [e]) = track_tag (setup_of es) e.
Proof. unfold setup_of. by rewrite fold_left_app. Qed.
Lemma last_command_snoc tag es e :
  last_command tag (es ++ [e]) =
  match e with
  | Command t lba count op => if t =? tag then Some (lba, count, op) else last_command tag es
  | _ => last_command tag es end.
Proof. unfold last_command. by rewrite fold_left_app. Qed.

(** No command reuses the tag of the transfer in progress. *)
Inductive no_reuse (ss : Z) : list event -> Prop :=
  | nr_nil : no_reuse ss []
  | nr_snoc es e a os :
      no_reuse ss es -> spec_run ss es a os ->
      (forall x tag lba count op, current a = Some x -> e = Command tag lba count op -> tag <> x_tag x) ->
      no_reuse ss (es ++ [e]).

Lemma spec_run_det ss es a os a' os' :
  spec_run ss es a os -> spec_run ss es a' os' -> a = a' /\ os = os'.
Proof.
  intros H. revert a' os'. induction H as [|es a os e a1 o H IH Hs]; intros a' os' H'.
  - inversion H' as [|? ? ? ? ? ? ? ? E]; [done|]. by destruct es.
  - inversion H' as [E|es2 a2 os2 e2 a3 o2 H2 Hs2 E]; [by destruct es|].
    apply app_inj_tail in E as [-> ->]. destruct (IH _ _ H2) as [-> ->]. by simplify_eq.
Qed.
Lemma no_reuse_inv ss es e a os :
  no_reuse ss (es ++ [e]) -> spec_run ss es a os ->
  no_reuse ss es /\
  (forall x tag lba count op, current a = Some x -> e = Command tag lba count op -> tag <> x_tag x).
Proof.
  intros H Hr. inversion H as [E|es' e' a' os' Hn Hr' Hc E]; [by destruct es|].
  apply app_inj_tail in E as [-> ->]. by destruct (spec_run_det _ _ _ _ _ _ Hr Hr') as [-> _].
Qed.

(** A transaction's data so far, the buffered part of a running transfer included. *)
Definition pending (tag : Z) (a : ncq) : bytes :=
  match current a with Some x => if x_tag x =? tag then x_data x else [] | None => [] end.
Record spec_inv (ss : Z) (es : list event) (a : ncq) : Prop := {
  si_open : forall tag t, open a !! tag = Some t ->
    last_command tag es = Some (t_lba t, t_count t, t_op t) /\ t_size t = t_count t * ss /\
    transferred tag es = t_data t ++ pending tag a;
  si_current : forall x, current a = Some x -> setup_of es = Some (x_tag x)
}.

Lemma spec_inv_command ss es a tag lba count op :
  spec_inv ss es a -> (forall x, current a = Some x -> tag <> x_tag x) ->
  spec_inv ss (es ++ [Command tag lba count op])
    (Ncq (<[tag := Txn lba count op (count * ss) []]> (open a)) (current a)).
Proof.
  intros [Ho Hc] Hn. split; cbn [open current].
  - intros tag' t Ht. rewrite transferred_snoc, last_command_snoc. cbn.
    destruct (Z.eqb_spec tag tag') as [<-|Hne].
    + rewrite lookup_insert_eq in Ht. injection Ht as <-. cbn. split_and!; [done..|].
      unfold pending. cbn. destruct (current a) as [x|]; [|done].
      destruct (Z.eqb_spec (x_tag x) tag); [|done]. by destruct (Hn x).
    + rewrite lookup_insert_ne in Ht by done. by destruct (Ho _ _ Ht) as (? & ? & ->).
  - intros x Hx. rewrite setup_of_snoc. by apply Hc.
Qed.

Lemma spec_inv_setup ss es a tag len dir :
  spec_inv ss es a -> current a = None ->
  spec_inv ss (es ++ [Setup tag len dir]) (Ncq (open a) (Some (Xfer tag len dir []))).
Proof.
  intros [Ho Hc] Hn. split; cbn [open current].
  - intros tag' t Ht. rewrite transferred_snoc, last_command_snoc. cbn.
    destruct (Ho _ _ Ht) as (? & ? & ->). split_and!; [done..|].
    unfold pending. cbn. rewrite Hn. by destruct (_ =? _).
  - intros x [= <-]. by rewrite setup_of_snoc.
Qed.

(** What a payload adds to each tag. *)
Lemma payload_transferred ss es a x dir data tag t :
  spec_inv ss es a -> current a = Some x -> open a !! tag = Some t ->
  transferred tag (es ++ [Payload dir data]) =
    t_data t ++ (if x_tag x =? tag then x_data x ++ data else []).
Proof.
  intros [Ho Hc] Hx Ht. rewrite transferred_snoc. cbn. rewrite (Hc _ Hx).
  destruct (Ho _ _ Ht) as (_ & _ & ->). unfold pending. rewrite Hx.
  destruct (Z.eqb_spec (x_tag x) tag) as [->|Hne].
  - rewrite bool_decide_true by done. by rewrite app_assoc.
  - by rewrite bool_decide_false by congruence.
Qed.

Lemma spec_inv_payload ss es a x dir data a' o :
  spec_inv ss es a -> current a = Some x ->
  spec_step ss (Payload dir data) a = Some (a', o) -> spec_inv ss (es ++ [Payload dir data]) a'.
Proof.
  intros Hi Hx Hs. cbn in Hs. rewrite Hx in Hs. destruct (negb _); [done|].
  destruct (open a !! x_tag x) as [t|] eqn:Ht; [|done]. pose proof Hi as [Ho Hc].
  assert (forall a'', open a'' !! x_tag x = None \/
            open a'' !! x_tag x = Some (with_data t (t_data t ++ x_data x ++ data)) ->
          (forall tag, tag <> x_tag x -> open a'' !! tag = open a !! tag) ->
          current a'' = None -> spec_inv ss (es ++ [Payload dir data]) a'') as Hdone.
  { intros a'' Hsame Hother Hcur. split; [|by rewrite Hcur]. intros tag t' Ht'.
    rewrite last_command_snoc. destruct (decide (tag = x_tag x)) as [->|Hne].
    - destruct Hsame as [E|E]; rewrite E in Ht'; [done|]. injection Ht' as <-.
      rewrite (payload_transferred ss es a x dir data _ t) by done. rewrite Z.eqb_refl.
      destruct (Ho _ _ Ht) as (? & ? & _). unfold pending. rewrite Hcur. cbn.
      by rewrite app_nil_r.
    - rewrite Hother in Ht' by done. rewrite (payload_transferred ss es a x dir data _ t') by done.
      destruct (Ho _ _ Ht') as (? & ? & _). unfold pending. rewrite Hcur.
      by rewrite (proj2 (Z.eqb_neq _ _)) by done. }
  destruct (_ <=? _); [destruct (_ <=? _)|]; simplify_eq/=.
  - apply Hdone; cbn; [left; apply lookup_delete_eq|intros; by apply lookup_delete_ne|done].
  - apply Hdone; cbn; [right; apply lookup_insert_eq|intros; by apply lookup_insert_ne|done].
  - split; cbn.
    + intros tag t' Ht'. rewrite last_command_snoc.
      rewrite (payload_transferred ss es a x dir data _ t') by done.
      by destruct (Ho _ _ Ht') as (? & ? & _).
    + intros x' [= <-]. cbn. rewrite setup_of_snoc. by apply Hc.
Qed.

Lemma spec_inv_notice ss es a : spec_inv ss es a -> spec_inv ss (es ++ [Notice]) a.
Proof.
  intros [Ho Hc]. split.
  - intros tag t Ht. rewrite transferred_snoc, last_command_snoc. by apply Ho.
  - intros x Hx. rewrite setup_of_snoc. by apply Hc.
Qed.

Lemma spec_run_inv ss es a os : spec_run ss es a os -> no_reuse ss es -> spec_inv ss es a.
Proof.
  induction 1 as [|es a os e a' o Hr IH Hs]; intros Hn; [split; [intros ? ?; cbn; by rewrite lookup_empty|done]|].
  destruct (no_reuse_inv _ _ _ _ _ Hn Hr) as [Hn' Hc]. specialize (IH Hn').
  destruct e as [tag lba count op|tag len dir|dir data| |].
  - cbn in Hs. simplify_eq. apply spec_inv_command; [done|]. intros x Hx. by eapply Hc.
  - cbn in Hs. destruct (current a) eqn:E; simplify_eq. by apply spec_inv_setup.
  - destruct (current a) as [x|] eqn:E; [by eapply spec_inv_payload|].
    cbn in Hs. by rewrite E in Hs.
  - cbn in Hs. simplify_eq. by apply spec_inv_notice.
  - cbn in Hs. destruct (current a) eqn:E; simplify_eq. split; [intros ? ?; cbn; by rewrite lookup_empty|done].
Qed.

(** Queued transfers are kept apart: in any trace the protocol allows, a
    transaction is delivered with the sector range and direction of the last command
    for its tag and with exactly the payload transferred for that tag since, in order,
    however the transfers of other tags interleave. *)
Lemma spec_delivers ss es e a os a' tag t :
  spec_run ss es a os -> no_reuse ss es -> spec_step ss e a = Some (a', Some (tag, t)) ->
  last_command tag (es ++ [e]) = Some (t_lba t, t_count t, t_op t) /\
  t_size t = t_count t * ss /\
  t_data t = transferred tag (es ++ [e]) /\ t_size t <= zlen (t_data t).
Proof.
  intros Hr Hn Hs. pose proof (spec_run_inv _ _ _ _ Hr Hn) as Hi.
  destruct e as [tag' lba count op|tag' len dir|dir data| |]; [..|by cbn in Hs|cbn in Hs; by destruct (current a)].
  - by cbn in Hs.
  - cbn in Hs. by destruct (current a).
  - cbn in Hs. destruct (current a) as [x|] eqn:Hx; [|done]. destruct (negb _); [done|].
    destruct (open a !! x_tag x) as [t0|] eqn:Ht; [|done].
    destruct (_ <=? _); [|done]. destruct (Z.leb_spec (t_size t0) (zlen (t_data t0 ++ x_data x ++ data)));
      simplify_eq. rewrite last_command_snoc, (payload_transferred ss es a x dir data _ t0) by done.
    rewrite Z.eqb_refl. destruct Hi as [Ho _]. by destruct (Ho _ _ Ht) as (? & ? & _).
Qed.

(** * Refinement *)

Definition txn_packet (t : txn) : dstruct := dsp (t_lba t) (t_count t) (t_op t) (t_size t) (t_data t).
(** What [process_packet] returns for the specification's output. *)
Definition delivered (o : option (Z * txn)) : result := (fun x => [txn_packet x.2]) <$> o.

(** The status frames: set device bits, with the error bit or a queued error log or without, the
    device's register frame, with the error bit or without, and frames that are ignored. *)
Definition device_bits (p : packet) (failed : bool) : Prop :=
  sata_header p !! "type" = Some FrameType.SetDeviceBitsFIS /\
  exists st act it, sata_header p !! "status_lo" = Some st /\ sata_header p !! "proto" = Some act /\
    sata_header p !! "interrupt" = Some it /\ (Z.land st 1 =? 1) || ((it =? 1) && (act =? 0xffffffff)) = failed.
Definition device_register (p : packet) (failed : bool) : Prop :=
  sata_header p !! "type" = Some FrameType.RegisterFIS_DtoH /\ sata_header p !! "direction" = Some DEVICE_TO_HOST /\
  exists st, sata_header p !! "status" = Some st /\ (Z.land st 1 =? 1) = failed.
Definition ignored_frame (p : packet) : Prop :=
  sata_header p !! "type" = Some FrameType.DMAActivateFIS \/ sata_header p !! "type" = Some FrameType.BISTActivateFIS \/
  sata_header p !! "type" = Some FrameType.RegisterFIS_HtoD /\ sata_header p !! "direction" = Some HOST_TO_DEVICE /\
    (sata_header p !! "C" = Some 0 \/ sata_header p !! "command" = Some NCQCommandType.NCQQueueManagement).

(** The event a frame stands for. *)
Definition frame_event (p : packet) (e : event) : Prop :=
  packet_ok p /\
  match e with
  | Command tag lba count op =>
      sata_header p !! "type" = Some FrameType.RegisterFIS_HtoD /\
      sata_header p !! "direction" = Some HOST_TO_DEVICE /\
      (exists c, sata_header p !! "C" = Some c /\ c <> 0) /\
      (op = DIRECTION_READ /\ sata_header p !! "command" = Some NCQCommandType.ReadFPDMAQueued \/
       op = DIRECTION_WRITE /\ sata_header p !! "command" = Some NCQCommandType.WriteFPDMAQueued) /\
      sata_header p !! "tag" = Some tag /\ sata_header p !! "features" = Some count /\
      sata_header p !! "lba" = Some lba
  | Setup tag len dir =>
      sata_header p !! "type" = Some FrameType.DMASetupFIS /\
      sata_header p !! "direction" = Some DEVICE_TO_HOST /\
      sata_header p !! "dma_buf_identifier_low" = Some tag /\
      sata_header p !! "transfer_count" = Some len /\
      sata_header p !! "direction_bit" = Some dir /\ (dir = HOST_TO_DEVICE \/ dir = DEVICE_TO_HOST)
  | Payload dir data =>
      sata_header p !! "type" = Some FrameType.DataFIS /\
      sata_header p !! "direction" = Some dir /\
      is_Some (sata_data p) /\ frame_payload p = data
  | Notice => device_bits p false \/ device_register p false \/ ignored_frame p
  | Failure => device_bits p true \/ device_register p true
  end.

Definition wait_state (dir : Z) : Z :=
  if dir =? HOST_TO_DEVICE then WAIT_FOR_DMA_DATA_HOST else WAIT_FOR_DMA_DATA_DEVICE.

(** The reconstructor's side of a transfer. *)
Definition transfer_rel (s : recon) (c : option xfer) : Prop :=
  match c with
  | None => STATE s = DEVICE_IDLE /\ ncq_dma_stack s = [] /\ ncq_data_packets s = []
  | Some x => exists dma, ncq_dma_stack s = [dma] /\
      sata_header dma !! "dma_buf_identifier_low" = Some (x_tag x) /\ 0 <= x_tag x < 32 /\
      sata_header dma !! "transfer_count" = Some (x_len x) /\
      (x_dir x = HOST_TO_DEVICE \/ x_dir x = DEVICE_TO_HOST) /\ STATE s = wait_state (x_dir x) /\
      concat (frame_payload <$> ncq_data_packets s) = x_data x
  end.
Record refines (s : recon) (a : ncq) : Prop := {
  rf_inv : recon_inv s;
  rf_slots : forall tag, 0 <= tag < 32 ->
    ncq_data_outstanding s !! Z.to_nat tag = Some (txn_packet <$> open a !! tag);
  rf_current : transfer_rel s (current a)
}.

Lemma refines_new ss : 0 <= ss -> 65535 * ss < 2 ^ 32 -> refines (new_recon ss) (Ncq ∅ None).
Proof.
  intros. split; [by apply new_recon_inv| |done]. intros tag Ht. cbn [ncq_data_outstanding new_recon open].
  rewrite lookup_empty. unfold no_slots. apply lookup_replicate_2. lia.
Qed.
Lemma refines_tick n s a : refines s a -> refines (tick n s) a.
Proof. intros [Hi Hs Hc]. split; [by apply tick_inv|done..]. Qed.

Lemma insert_slot {A} (l : list A) (f : Z -> A) tag x :
  length l = 32%nat -> 0 <= tag < 32 ->
  (forall t, 0 <= t < 32 -> l !! Z.to_nat t = Some (f t)) ->
  forall t, 0 <= t < 32 ->
    <[Z.to_nat tag := x]> l !! Z.to_nat t = Some (if t =? tag then x else f t).
Proof.
  intros Hl Ht Hf t Htr. destruct (Z.eqb_spec t tag) as [->|Hne].
  - apply list_lookup_insert_eq. lia.
  - rewrite list_lookup_insert_ne by lia. by apply Hf.
Qed.

Lemma command_refines p s a tag lba count op :
  refines s a -> frame_event p (Command tag lba count op) ->
  exists s', dispatch p s = (Ret None, s') /\
    refines s' (Ncq (<[tag := Txn lba count op (count * sector_size s) []]> (open a)) (current a)) /\
    last_packet_seqno s' = last_packet_seqno s /\ sector_size s' = sector_size s.
Proof.
  intros Hr (Hok & Hty & Hd & (c & Hc & Hc0) & Hcmd & Htag & Hf & Hl).
  pose proof Hok as [_ _ (ty & Hty' & _ & Hcase)]. rewrite Hty in Hty'. injection Hty' as <-.
  cbn in Hcase. destruct Hcase as (_ & _ & (tag' & Htag' & Htr) & (f' & Hf' & Hfr) & _ & (l' & Hl' & Hlr)).
  simplify_eq. pose proof (rf_inv _ _ Hr) as Hs.
  assert (dispatch p s = register_ncq p (if op =? 0 then 0x60 else 0x61) s) as ->.
  { unfold dispatch. pm_unfold. hdr_eval. cbn -[handle_register_HTD register_ncq].
    unfold handle_register_HTD. pm_unfold.
    destruct Hcmd as [[-> Hcmd]|[-> Hcmd]]; hdr_eval; by rewrite (proj2 (Z.eqb_neq c 0)). }
  erewrite register_ncq_spec by done. eexists. split; [reflexivity|]. split; [|done].
  assert ((if (if op =? 0 then 0x60 else 0x61) =? 0x61 then 1 else 0) = op) as ->
    by (destruct Hcmd as [[-> _]|[-> _]]; done).
  split; [| |apply Hr].
  - apply set_slot_inv; [done|]. apply is_dsp_intro, dsp_ok_sectors; [apply Hs|done|done|].
    unfold DIRECTION_READ, DIRECTION_WRITE in Hcmd. lia.
  - intros t Ht. cbn [ncq_data_outstanding set_ncq_data_outstanding open].
    destruct (slot_lengths s Hs) as [_ Hlen]. unfold zlen in Hlen.
    rewrite (insert_slot (ncq_data_outstanding s) (fun t => txn_packet <$> open a !! t) tag _ ltac:(lia) Htr (rf_slots _ _ Hr)) by done.
    destruct (Z.eqb_spec t tag) as [->|Hne]; [by rewrite lookup_insert_eq|].
    by rewrite lookup_insert_ne.
Qed.

Lemma setup_refines p s a tag len dir :
  refines s a -> current a = None -> frame_event p (Setup tag len dir) ->
  exists s', dispatch p s = (Ret None, s') /\
    refines s' (Ncq (open a) (Some (Xfer tag len dir []))) /\
    last_packet_seqno s' = last_packet_seqno s /\ sector_size s' = sector_size s.
Proof.
  intros [Hs Hsl Hcur] Hn (Hok & Hty & Hd & Htag & Hlen & Hbit & Hdir).
  pose proof Hok as [_ _ (ty & Hty' & _ & Hcase)]. rewrite Hty in Hty'. injection Hty' as <-.
  cbn in Hcase. destruct Hcase as [Hdma _]. pose proof Hdma as [(tag' & Htag' & Htr) _].
  simplify_eq. rewrite Hn in Hcur. destruct Hcur as (HST & Hst & Hps).
  assert (dispatch p s = (Ret None, set_STATE (wait_state dir) (set_ncq_dma_stack [p] s))) as ->.
  { destruct s; cbn in HST, Hst. subst. unfold dispatch. pm_unfold. hdr_eval.
    cbn -[handle_dma_setup]. unfold handle_dma_setup. pm_unfold. hdr_eval. cbn.
    unfold wait_state. by destruct (dir =? HOST_TO_DEVICE). }
  eexists. split; [reflexivity|]. split; [|done]. split; [|done|].
  - apply set_STATE_inv; [|unfold wait_state; destruct (_ =? _); set_solver].
    destruct s, Hs. split; cbn in *; try done. by apply Forall_singleton.
  - exists p. cbn. by rewrite Hps.
Qed.

Lemma notice_dispatch p s : frame_event p Notice -> dispatch p s = (Ret None, s).
Proof.
  intros [Hok He]. pose proof (po_direction _ Hok) as (dir & Hd & _).
  destruct He as [(Hty & st & act & it & H1 & H2 & H3 & Hb)|[(Hty & Hd' & st & H1 & Hb)|[Hty|[Hty|(Hty & Hd' & Hc)]]]].
  - unfold dispatch. pm_unfold. hdr_eval. cbn -[handle_set_device_bits]. unfold handle_set_device_bits. pm_unfold. hdr_eval.
    apply orb_false_elim in Hb as [-> ->]. done.
  - clear Hd. unfold dispatch. pm_unfold. hdr_eval. cbn -[handle_ncq_register_DTH]. unfold handle_ncq_register_DTH. pm_unfold. hdr_eval. by rewrite Hb.
  - unfold dispatch. pm_unfold. by hdr_eval.
  - unfold dispatch. pm_unfold. by hdr_eval.
  - destruct Hok as [_ _ (ty & Hty' & _ & Hcase)]. rewrite Hty in Hty'. injection Hty' as <-. destruct Hcase as ([c H1] & [cmd H2] & _). clear Hd.
    unfold dispatch. pm_unfold. hdr_eval. cbn -[handle_register_HTD]. unfold handle_register_HTD. pm_unfold. hdr_eval.
    destruct (Z.eqb_spec c 0) as [->|Hc0]; [done|]. hdr_eval. destruct Hc as [Hc|Hc]; [congruence|]. rewrite H2 in Hc. by injection Hc as ->.
Qed.

Lemma failure_dispatch p s : frame_event p Failure -> dispatch p s = (Ret None, (_reset_ncq s).2).
Proof.
  intros [Hok He]. pose proof (po_direction _ Hok) as (dir & Hd & _). destruct He as [(Hty & st & act & it & H1 & H2 & H3 & Hb)|(Hty & Hd' & st & H1 & Hb)].
  - unfold dispatch. pm_unfold. hdr_eval. cbn -[handle_set_device_bits]. unfold handle_set_device_bits. pm_unfold. hdr_eval.
    destruct (Z.land st 1 =? 1); [done|]. cbn in Hb. by rewrite Hb.
  - destruct Hok as [_ _ (ty & Hty' & _ & Hcase)]. rewrite Hty in Hty'. injection Hty' as <-. destruct Hcase as (_ & [er H2]). clear Hd.
    unfold dispatch. pm_unfold. hdr_eval. cbn -[handle_ncq_register_DTH]. unfold handle_ncq_register_DTH. pm_unfold. hdr_eval. by rewrite Hb; hdr_eval.
Qed.

Lemma failure_refines p s a : refines s a -> current a = None -> frame_event p Failure ->
  exists s', dispatch p s = (Ret None, s') /\ refines s' (Ncq ∅ None) /\
    last_packet_seqno s' = last_packet_seqno s /\ sector_size s' = sector_size s.
Proof.
  intros [Hi _ Hc] Hn He. rewrite failure_dispatch by done. rewrite Hn in Hc. eexists. split; [reflexivity|]. split; [|done].
  split; [by apply reset_ncq_inv| |by split_and!; [apply Hc|..]].
  intros tag Ht. change (no_slots !! Z.to_nat tag = Some (txn_packet <$> (∅ : gmap Z txn) !! tag)).
  rewrite lookup_empty. unfold no_slots. apply lookup_replicate_2. lia.
Qed.

Lemma payload_dispatch p s dir data :
  frame_event p (Payload dir data) -> dir = HOST_TO_DEVICE \/ dir = DEVICE_TO_HOST ->
  STATE s = wait_state dir -> dispatch p s = handle_ncq_data_packet p s.
Proof.
  intros (Hok & Hty & Hd & _) Hdir HST. unfold dispatch. pm_unfold. hdr_eval.
  destruct s; cbn in HST. subst. by destruct Hdir as [-> | ->].
Qed.

(** The slot of a tag in use holds the specification's transaction. *)
Lemma open_slot s a tag t :
  refines s a -> 0 <= tag < 32 -> open a !! tag = Some t ->
  ncq_data_outstanding s !! Z.to_nat tag = Some (Some (txn_packet t)) /\
  is_Some (mjoin (ncq_transactions_outstanding s !! Z.to_nat tag)).
Proof.
  intros [Hs Hsl _] Htag Ht. rewrite (Hsl tag Htag), Ht. split; [done|].
  destruct (slot_lookup s tag Hs Htag) as (x & d & Hx & Hd & Hslot).
  rewrite Hsl, Ht in Hd by done. injection Hd as <-. rewrite Hx. by destruct x.
Qed.

(** New data leaves a packet well formed. *)
Lemma txn_packet_data t data : is_dsp (txn_packet t) -> is_dsp (txn_packet (with_data t data)).
Proof.
  intros (l & n & o & z & dd & Hz & Eq). unfold txn_packet in *.
  apply dsp_inj in Eq as (<- & <- & <- & <- & _). by apply is_dsp_intro.
Qed.

(** Closing or updating the slot of [tag] at the end of a transfer. *)
Lemma slot_update_refines s a tag stack (t : option txn) x :
  refines s a -> recon_inv (transfer_done s stack) -> 0 <= tag < 32 -> stack = [] ->
  slot_ok x (txn_packet <$> t) ->
  refines (set_ncq_data_outstanding (<[Z.to_nat tag := txn_packet <$> t]> (ncq_data_outstanding s))
            (set_ncq_transactions_outstanding
              (<[Z.to_nat tag := x]> (ncq_transactions_outstanding s)) (transfer_done s stack)))
    (Ncq (match t with Some t => <[tag := t]> (open a) | None => delete tag (open a) end) None).
Proof.
  intros Hr Hd Htr -> Hslot. split; [|intros t' Ht'|done].
  - by apply (set_slot_inv _ Hd (Z.to_nat tag) x (txn_packet <$> t)).
  - destruct (slot_lengths s (rf_inv _ _ Hr)) as [_ Hlen]. unfold zlen in Hlen.
    cbn [ncq_data_outstanding set_ncq_data_outstanding open].
    rewrite (insert_slot (ncq_data_outstanding s) (fun t => txn_packet <$> open a !! t) tag _ ltac:(lia) Htr (rf_slots _ _ Hr)) by done.
    destruct (Z.eqb_spec t' tag) as [->|Hne], t as [t|];
      rewrite ?lookup_insert_eq, ?lookup_delete_eq, ?lookup_insert_ne, ?lookup_delete_ne by done; done.
Qed.

Lemma enqueue_refines p s a x data :
  refines s a -> current a = Some x -> is_Some (sata_data p) -> frame_payload p = data ->
  refines (enqueue p s) (Ncq (open a) (Some (Xfer (x_tag x) (x_len x) (x_dir x) (x_data x ++ data)))).
Proof.
  intros [Hs Hsl Hcur] Hx Hp <-. split; [by apply enqueue_inv|done|]. rewrite Hx in Hcur.
  destruct Hcur as (dma & ? & ? & ? & ? & ? & ? & Hps). exists dma. do 6 (split; [done|]).
  unfold enqueue; cbn [x_data ncq_data_packets set_ncq_data_len set_ncq_data_packets].
  rewrite fmap_app, concat_app, Hps. cbn. by rewrite app_nil_r.
Qed.

Lemma payload_refines p s a dir data a' o :
  refines s a -> frame_event p (Payload dir data) ->
  spec_step (sector_size s) (Payload dir data) a = Some (a', o) ->
  exists s', dispatch p s = (Ret (delivered o), s') /\ refines s' a' /\
    last_packet_seqno s' = last_packet_seqno s /\ sector_size s' = sector_size s.
Proof.
  intros Hr He Hstep. cbn in Hstep. destruct (current a) as [x|] eqn:Hx; [|done].
  destruct (Z.eqb_spec dir (x_dir x)) as [->|]; [|done]. cbn in Hstep.
  destruct (open a !! x_tag x) as [t|] eqn:Ht; [|done].
  pose proof He as (_ & _ & Hd & Hdata & Hpay). pose proof (rf_current _ _ Hr) as Hcur.
  rewrite Hx in Hcur. destruct Hcur as (dma & Hst & Htag & Htr & Hlen & Hdir & HST & Hps).
  rewrite (payload_dispatch p s (x_dir x) data) by done.
  destruct (open_slot s a _ t Hr Htr Ht) as [Hslot Hin].
  rewrite (ncq_data_eq s p [] dma (x_tag x) (x_len x)) by (done || by eexists).
  assert (ncq_data_len s + zlen (frame_payload p) = zlen (x_data x ++ data)) as ->.
  { rewrite (inv_queue_len _ (rf_inv _ _ Hr)). unfold queued_bytes. by rewrite Hps, Hpay, zlen_app. }
  pose proof (enqueue_refines p s a x data Hr Hx Hdata Hpay) as Hq.
  destruct (x_len x <=? _); [|simplify_eq; by exists (enqueue p s)].
  assert (concat (frame_payload <$> ncq_data_packets (enqueue p s)) = x_data x ++ data) as Hps'.
  { cbn. rewrite fmap_app, concat_app, Hps. cbn. by rewrite app_nil_r, Hpay. }
  rewrite (complete_transfer_spec (enqueue p s) (x_tag x) [] dma (t_lba t) (t_count t) (t_op t)
             (t_size t) (t_data t)) by (done || apply Hq).
  rewrite Hps'. change (t_data (with_data t ?d)) with d in Hstep.
  assert (recon_inv (transfer_done (enqueue p s) [])) as Hdone
    by (apply transfer_done_inv; [apply Hq|constructor]).
  destruct (t_size t <=? _); injection Hstep as <- <-; eexists; (split; [reflexivity|]); (split; [|done]).
  - apply (slot_update_refines (enqueue p s) _ (x_tag x) [] None None Hq); done.
  - destruct Hin as [q Hin]. destruct (ncq_transactions_outstanding s !! _) as [x0|] eqn:E; [|done].
    cbn in Hin. subst x0.
    replace (set_ncq_data_outstanding _ (transfer_done (enqueue p s) [])) with
      (set_ncq_data_outstanding (<[Z.to_nat (x_tag x) := txn_packet <$> Some (with_data t (t_data t ++ x_data x ++ data))]>
         (ncq_data_outstanding (enqueue p s)))
        (set_ncq_transactions_outstanding
          (<[Z.to_nat (x_tag x) := Some q]> (ncq_transactions_outstanding (enqueue p s)))
          (transfer_done (enqueue p s) []))).
    + apply (slot_update_refines (enqueue p s) _ (x_tag x) [] (Some _) (Some q) Hq); [done..|].
      destruct (slot_lookup _ (x_tag x) (rf_inv _ _ Hr) Htr) as (x0 & d0 & E' & Hd0 & Hok).
      rewrite Hslot in Hd0. apply (inj Some) in Hd0. subst d0. destruct x0; [|done].
      by apply txn_packet_data.
    + rewrite (list_insert_id (ncq_transactions_outstanding (enqueue p s))) by exact E.
      by destruct s.
Qed.

(** Every step of the specification is a step of the code. *)
Lemma step_refines p s a e k a' o :
  refines s a -> frame_event p e -> sata_header p !! "lophi_seqn" = Some k -> expects s k ->
  spec_step (sector_size s) e a = Some (a', o) ->
  exists s', process_packet p s = (Ret (delivered o), s') /\ refines s' a' /\
    last_packet_seqno s' = Some k /\ sector_size s' = sector_size s.
Proof.
  intros Hr He Hk Hexp Hstep. rewrite (process_in_order p s k) by (done || apply He).
  apply (refines_tick k) in Hr. change (sector_size s) with (sector_size (tick k s)) in Hstep |- *.
  change (Some k) with (last_packet_seqno (tick k s)). generalize dependent (tick k s).
  intros s0 Hr Hstep. destruct e as [tag lba count op|tag len dir|dir data| |].
  - cbn in Hstep. simplify_eq. by apply command_refines.
  - cbn in Hstep. destruct (current a) eqn:Hc; simplify_eq. by apply setup_refines with (p := p).
  - by apply (payload_refines p s0 a dir data).
  - cbn in Hstep. simplify_eq. exists s0. by rewrite notice_dispatch.
  - cbn in Hstep. destruct (current a) eqn:Hc; simplify_eq. by apply failure_refines with (p := p) (a := a).
Qed.

Lemma fed_snoc s ps s' rs p r s'' :
  fed s ps s' rs -> process_packet p s' = (Ret r, s'') -> fed s (ps ++ [p]) s'' (rs ++ [r]).
Proof. induction 1; intros Hp; cbn; econstructor; eauto. constructor. Qed.

(** The frames, numbered from [k], stand for the events of a trace. *)
Definition trace_of (k : Z) (ps : list packet) (es : list event) : Prop :=
  numbered k ps /\ Forall2 frame_event ps es.

Lemma numbered_snoc k ps p :
  0 <= k < 65536 -> numbered k (ps ++ [p]) ->
  numbered k ps /\ sata_header p !! "lophi_seqn" = Some ((k + zlen ps) mod 65536).
Proof.
  revert k. induction ps as [|q ps IH]; intros k Hk Hn; cbn in Hn.
  - destruct Hn as [Hn _]. split; [done|]. rewrite zlen_nil, Z.add_0_r, Z.mod_small by lia. done.
  - destruct Hn as [Hq Hn]. apply IH in Hn as [Hn Hp]; [|apply Z.mod_pos_bound; lia].
    split; [done|]. rewrite Hp, zlen_cons. f_equal.
    rewrite Zplus_mod_idemp_l. f_equal. lia.
Qed.

Lemma run_refines ss k es a os :
  0 <= ss -> 65535 * ss < 2 ^ 32 -> 0 <= k < 65536 -> spec_run ss es a os ->
  forall ps, trace_of k ps es ->
  exists s, fed (new_recon ss) ps s (delivered <$> os) /\ refines s a /\ sector_size s = ss /\
    expects s ((k + zlen ps) mod 65536).
Proof.
  intros Hss Hss' Hk Hrun. induction Hrun as [|es a os e a' o Hrun IH Hstep]; intros ps [Hnum Hev].
  - apply Forall2_nil_inv_r in Hev as ->. exists (new_recon ss).
    split_and!; [constructor|by apply refines_new|done..].
  - apply Forall2_app_inv_r in Hev as (ps1 & ps2 & Hev1 & Hev2 & ->).
    apply Forall2_cons_inv_r in Hev2 as (p & ps3 & Hp & Hev3 & ->).
    apply Forall2_nil_inv_r in Hev3 as ->. apply numbered_snoc in Hnum as [Hnum Hseq]; [|done].
    destruct (IH ps1 (conj Hnum Hev1)) as (s & Hfed & Hr & <- & Hexp).
    destruct (step_refines p s a e _ a' o Hr Hp Hseq Hexp Hstep) as (s' & Hs' & Hr' & Hl & Hsz).
    exists s'. split_and!; [|done..|].
    + rewrite fmap_app. by eapply fed_snoc.
    + rewrite zlen_app, zlen_cons, zlen_nil.
      replace (_ mod 65536) with (((k + zlen ps1) mod 65536 + 1) mod 65536)
        by (rewrite Zplus_mod_idemp_l; f_equal; lia).
      by apply expects_next.
Qed.

(** [C2] Refinement: on every in-order sequence of frames that stands for a trace the
    NCQ protocol allows (commands, DMA setups and data of any tags, and between them
    acknowledgements, device bits, activations and control frames, and errors of the device
    while no transfer is under way), [process_packet] returns, frame by frame, exactly the
    packets the specification delivers, and ends in a state related to the
    specification's. *)
Theorem ncq_refinement ss k es a os ps :
  0 <= ss -> 65535 * ss < 2 ^ 32 -> 0 <= k < 65536 -> spec_run ss es a os -> trace_of k ps es ->
  exists s, fed (new_recon ss) ps s (delivered <$> os) /\ refines s a.
Proof.
  intros H1 H2 H3 Hr Ht. destruct (run_refines ss k es a os H1 H2 H3 Hr ps Ht) as (s & ? & ? & _).
  eauto.
Qed.

(** [C1] Reassembly: when a transaction's last data frame arrives, [process_packet]
    returns one packet with the sector range and direction of the tag's command, whose
    data is exactly the payload transferred for that tag since the command, however
    the frames of other tags interleave with it. *)
Theorem ncq_reassembly ss k es e a os a' tag t ps p :
  0 <= ss -> 65535 * ss < 2 ^ 32 -> 0 <= k < 65536 ->
  spec_run ss es a os -> no_reuse ss es -> spec_step ss e a = Some (a', Some (tag, t)) ->
  trace_of k (ps ++ [p]) (es ++ [e]) -> length ps = length es ->
  exists s s' lba count op data,
    fed (new_recon ss) ps s (delivered <$> os) /\
    process_packet p s = (Ret (Some [dsp lba count op (count * ss) data]), s') /\
    last_command tag (es ++ [e]) = Some (lba, count, op) /\
    data = transferred tag (es ++ [e]) /\ count * ss <= zlen data.
Proof.
  intros H1 H2 H3 Hr Hn Hstep [Hnum Hev] Hlen.
  apply Forall2_app_inv in Hev as [Hev1 Hev2]; [|done]. apply Forall2_cons_1 in Hev2 as [Hp _].
  apply numbered_snoc in Hnum as [Hnum Hseq]; [|done].
  destruct (run_refines ss k es a os H1 H2 H3 Hr ps (conj Hnum Hev1)) as (s & Hfed & Href & <- & Hexp).
  destruct (step_refines p s a e _ _ _ Href Hp Hseq Hexp Hstep) as (s' & Hs' & _).
  destruct (spec_delivers _ _ _ _ _ _ _ _ Hr Hn Hstep) as (Hcmd & Hsz & Hdata & Hle).
  exists s, s', (t_lba t), (t_count t), (t_op t), (t_data t).
  rewrite Hsz in Hle. split_and!; try done. rewrite Hs'. cbn. unfold txn_packet. by rewrite Hsz.
Qed.

(** ** An interleaved example *)

Definition reuses (a : ncq) (e : event) : bool :=
  match current a, e with
  | Some x, Command tag _ _ _ => tag =? x_tag x
  | _, _ => false
  end.
(** Runs the specification forwards, refusing a reused tag. *)
Fixpoint spec_exec (ss : Z) (a : ncq) (es : list event) : option (ncq * list (option (Z * txn))) :=
  match es with
  | [] => Some (a, [])
  | e :: es =>
      if reuses a e then None else
      '(a', o) ← spec_step ss e a; '(a'', os) ← spec_exec ss a' es; Some (a'', o :: os)
  end.
Lemma spec_exec_sound ss es2 a2 os2 : forall es1 a os,
  spec_run ss es1 a os -> no_reuse ss es1 -> spec_exec ss a es2 = Some (a2, os2) ->
  spec_run ss (es1 ++ es2) a2 (os ++ os2) /\ no_reuse ss (es1 ++ es2).
Proof.
  revert os2. induction es2 as [|e es2 IH]; intros os2 es1 a os Hr Hn He.
  - cbn in He. simplify_eq. by rewrite !app_nil_r.
  - cbn in He. destruct (reuses a e) eqn:Hre; [done|].
    destruct (spec_step ss e a) as [[a' o]|] eqn:Hs; [|done]. cbn in He.
    destruct (spec_exec ss a' es2) as [[a'' os']|] eqn:He'; [|done]. cbn in He. simplify_eq.
    rewrite (cons_middle e es1 es2), (cons_middle o os os'), !app_assoc.
    eapply IH; [by econstructor| |exact He']. econstructor; [done..|].
    intros x tag lba count op Hx ->. unfold reuses in Hre. rewrite Hx in Hre. by apply Z.eqb_neq.
Qed.

Definition command_frame (seqn tag lba count cmd : Z) : packet :=
  frame seqn 0 0x27 [("C", 1); ("command", cmd); ("tag", tag); ("features", count); ("count", 0);
                     ("lba", lba)] None.
Definition dma_frame (seqn tag len dir : Z) : packet :=
  frame seqn 1 0x41 [("dma_buf_identifier_low", tag); ("transfer_count", len); ("direction_bit", dir)] None.
Definition payload_frame (seqn dir : Z) (data : bytes) : packet :=
  frame seqn dir 0x46 [] (Some (data ++ [0; 0; 0; 0])).
Definition bits_frame (seqn status act : Z) : packet :=
  frame seqn 1 0xa1 [("status_lo", status); ("proto", act); ("interrupt", 1)] None.
Definition ack_frame (seqn status : Z) : packet := frame seqn 1 0x34 [("status", status); ("error", 0)] None.
Definition example_events : list event :=
  [Command 3 70 1 0; Notice; Failure; Command 1 10 2 0; Notice; Command 2 50 1 1; Setup 1 2 1; Payload 1 [1; 2]; Setup 2 2 0; Notice;
   Payload 0 [8; 9]; Notice; Setup 1 2 1].
Definition example_frames : list packet :=
  [command_frame 65533 3 70 1 0x60; ack_frame 65534 0x50; bits_frame 65535 1 0; command_frame 0 1 10 2 0x60; ack_frame 1 0x40;
   command_frame 2 2 50 1 0x61; dma_frame 3 1 2 1; payload_frame 4 1 [1; 2]; dma_frame 5 2 2 0; frame 6 1 0x39 [] None;
   payload_frame 7 0 [8; 9]; bits_frame 8 0 4; dma_frame 9 1 2 1].
Ltac status_ok :=
  first [left; split; [reflexivity|do 3 eexists; split_and!; reflexivity]
        |right; left; split; [reflexivity|split; [reflexivity|eexists; split; reflexivity]]
        |right; right; left; reflexivity].
Ltac event_ok :=
  split; [frame_ok|cbn; unfold DIRECTION_READ, DIRECTION_WRITE];
  first [status_ok|split_and?; try reflexivity; try (by eexists); try (by left); try (by right)].
Lemma example_trace : trace_of 65533 (example_frames ++ [payload_frame 10 1 [3; 4]])
  (example_events ++ [Payload 1 [3; 4]]).
Proof.
  split; [cbn [numbered app example_frames]; split_and!; reflexivity|].
  repeat (apply Forall2_cons; split; [event_ok|]). constructor.
Qed.
Definition example_outputs : ncq * list (option (Z * txn)) :=
  default (Ncq ∅ None, []) (spec_exec 2 (Ncq ∅ None) example_events).
Lemma example_run :
  spec_run 2 example_events example_outputs.1 example_outputs.2 /\ no_reuse 2 example_events.
Proof. by apply (spec_exec_sound 2 _ _ _ [] (Ncq ∅ None) [] (run_nil 2) (nr_nil 2)). Qed.

Lemma ncq_refinement_witness :
  exists s, fed (new_recon 2) example_frames s (delivered <$> example_outputs.2) /\
    refines s example_outputs.1.
Proof.
  apply (ncq_refinement 2 65533 example_events); [lia..|apply example_run|].
  split; [cbn [numbered example_frames]; split_and!; reflexivity|].
  apply (Forall2_app_inv frame_event example_frames [payload_frame 10 1 [3; 4]] example_events
           [Payload 1 [3; 4]] eq_refl (proj2 example_trace)).
Defined.
Lemma ncq_reassembly_witness :
  exists s s' lba count op data,
    fed (new_recon 2) example_frames s (delivered <$> example_outputs.2) /\
    process_packet (payload_frame 10 1 [3; 4]) s =
      (Ret (Some [dsp lba count op (count * 2) data]), s') /\
    last_command 1 (example_events ++ [Payload 1 [3; 4]]) = Some (lba, count, op) /\
    data = transferred 1 (example_events ++ [Payload 1 [3; 4]]) /\ count * 2 <= zlen data.
Proof.
  eapply (ncq_reassembly 2 65533 example_events (Payload 1 [3; 4]) example_outputs.1
            example_outputs.2 _ 1 _ example_frames (payload_frame 10 1 [3; 4]));
    [lia..|apply example_run|apply example_run|reflexivity|apply example_trace|reflexivity].
Defined.
Example transferred_example : transferred 1 (example_events ++ [Payload 1 [3; 4]]) = [1; 2; 3; 4].
Proof. reflexivity. Qed.
