(* ===== verification/MemorySensor.v ===== *)
(** Model of [lophi/sensors/memory/__init__.py]: reads through the temporal cache,
    with the memory holes of the machine filled with zeros.  The sensor that performs
    [_read_from_sensor] is an interface: its clock and its read operation.  What
    [MemorySensor] relies on is stated as laws, which the concrete sensors discharge. *)
From Stdlib Require Import Sorting.Sorted.
From S2P Require Import Prelude.

(** * The sensor interface *)

(** [time.time()] and the subclass's [_read_from_sensor]. *)
Class Sensor (S : Type) := {
  sensor_now : S -> Z;
  sensor_read : Z -> Z -> PM S (option bytes)
}.

(** The bytes [mem x], for [x] from [a], [n] of them. *)
Definition mem_range (mem : Z -> Z) (a n : Z) : bytes := mem <$> seqZ a n.

(** A sensor over memory below [lim]: every read succeeds and shows the memory at one
    moment between the start and the end of the read. *)
Class SensorLaws (S : Type) `{Sensor S} (mem : Z -> Z -> Z) (lim : Z) (ok : S -> Prop) : Prop := {
  sensor_reads : forall s a n, ok s -> 0 <= a -> 0 < n -> a + n <= lim ->
    exists t s', sensor_read a n s = (Ret (Some (mem_range (mem t) a n)), s') /\
      ok s' /\ sensor_now s <= t <= sensor_now s'
}.

(** * The memory sensor *)

Definition CACHE_CHUNK := 7680.

Record msensor (S : Type) := MSensor {
  dev : S;
  cache : gmap Z bytes;
  cache_timeouts : gmap Z Z;
  CACHE_TIMEOUT : Z;
  BAD_MEM_REGIONS : list (Z * Z)
}.
Arguments MSensor {S}.
Arguments dev {S}.
Arguments cache {S}.
Arguments cache_timeouts {S}.
Arguments CACHE_TIMEOUT {S}.
Arguments BAD_MEM_REGIONS {S}.

Section operations.
Context {S : Type} `{Sensor S}.
Abbreviation M := (PM (msensor S)).

Definition _read_from_sensor (address length : Z) : M (option bytes) := fun m =>
  let (r, d) := sensor_read address length (dev m) in
  (r, MSensor d (cache m) (cache_timeouts m) (CACHE_TIMEOUT m) (BAD_MEM_REGIONS m)).

Definition time_time : M Z := pm_get (fun m => sensor_now (dev m)).

Definition set_cache (i : Z) (entry : bytes) (t : Z) : M unit := pm_modify (fun m =>
  MSensor (dev m) (<[i := entry]> (cache m)) (<[i := t]> (cache_timeouts m))
    (CACHE_TIMEOUT m) (BAD_MEM_REGIONS m)).

(** [cacheindex not in self.cache or self.cache_timeouts[cacheindex] <= NOW - self.CACHE_TIMEOUT] *)
Definition must_read (i NOW : Z) : M bool := fun m =>
  match cache m !! i with
  | None => (Ret true, m)
  | Some _ =>
      match cache_timeouts m !! i with
      | None => (Raise KeyError, m)
      | Some t => (Ret (t <=? NOW - CACHE_TIMEOUT m), m)
      end
  end.

(** The loop over cache chunks.  Every round takes at least one byte off
    [length], so that [length] rounds are enough. *)
Fixpoint cached_loop (fuel : nat) (NOW address length : Z) (datas : bytes) : M bytes :=
  match fuel with
  | O => pm_ret datas
  | Datatypes.S fuel =>
      if length <=? 0 then pm_ret datas else
      let cacheindex := address / CACHE_CHUNK in
      let chunkstart := cacheindex * CACHE_CHUNK in
      let cacheoffset := address - chunkstart in
      let inchunk := CACHE_CHUNK - cacheoffset in
      let! stale := must_read cacheindex NOW in
      let! got := (if stale
        then let! entry := _read_from_sensor chunkstart CACHE_CHUNK in
             match entry with
             | None => pm_ret false
             | Some e => set_cache cacheindex e NOW ;! pm_ret true
             end
        else pm_ret true) in
      if negb got then pm_ret datas else
      let! c := pm_get (fun m => cache m !! cacheindex) in
      let! chunk := pm_lift (of_option KeyError c) in
      let datas := datas ++ (if CACHE_CHUNK - cacheoffset <? length
                             then slice_from chunk cacheoffset
                             else slice chunk cacheoffset (cacheoffset + length)) in
      cached_loop fuel NOW (address + inchunk) (length - inchunk) datas
  end.

Definition _read_cached (address length : Z) : M bytes :=
  let! timeout := pm_get CACHE_TIMEOUT in
  if timeout <=? 0 then
    let! rtn := _read_from_sensor address length in
    pm_ret (default [] rtn)
  else
    let! NOW := time_time in
    cached_loop (Z.to_nat length) NOW address length [].

(** The loop over [BAD_MEM_REGIONS]: [None] when one of them holds the whole read,
    otherwise the reads to issue and the last region met. *)
Fixpoint bad_loop (address length : Z) (bads : list (Z * Z))
    (READS : list (Z * Z)) (last_bad : option (Z * Z)) : option (list (Z * Z) * option (Z * Z)) :=
  match bads with
  | [] => Some (READS, last_bad)
  | bad :: bads =>
      if (bad.1 <=? address) && (address + length <=? bad.2) then None
      else if (address <=? bad.1) && (bad.1 <? address + length) then
        let READS := match last_bad with
                     | None => if negb (address =? bad.1) then READS ++ [(address, bad.1)] else READS
                     | Some last => READS ++ [(last.2, bad.1)]
                     end in
        bad_loop address length bads READS (Some bad)
      else if (address <? bad.2) && (bad.2 <? address + length) then
        bad_loop address length bads READS (Some bad)
      else bad_loop address length bads READS last_bad
  end.

(** The loop over the reads; [None] when one of them gives no data. *)
Fixpoint reads_loop (READS : list (Z * Z)) (last_read : option (Z * Z)) (data : bytes) :
    M (option bytes) :=
  match READS with
  | [] => pm_ret (Some data)
  | read :: READS =>
      let data := match last_read with
                  | None => data
                  | Some l => data ++ py_repeat 0 (read.1 - l.2)
                  end in
      let! read_data := _read_cached read.1 (read.2 - read.1) in
      if zlen read_data =? 0 then pm_ret None
      else reads_loop READS (Some read) (data ++ read_data)
  end.

(** The branch of [read] that issues several reads. *)
Definition multiple_reads (address length : Z) (READS : list (Z * Z)) (last_bad : option (Z * Z)) :
    M (option bytes) :=
  let! last := pm_lift (of_option TypeError last_bad) in
  let READS := if last.2 <? address + length then READS ++ [(last.2, address + length)] else READS in
  let! first := pm_lift (py_index READS 0) in
  let data := if address <? first.1 then py_repeat 0 (first.1 - address) else [] in
  let! r := reads_loop READS None data in
  pm_ret (match r with
          | None => None
          | Some data => Some (if zlen data <? length
                               then data ++ py_repeat 0 (length - zlen data) else data)
          end).

Definition read (address length : Z) : M (option bytes) :=
  let! bads := pm_get BAD_MEM_REGIONS in
  match bad_loop address length bads [] None with
  | None => pm_ret (Some (py_repeat 0 length))
  | Some ([], None) =>
      let! d := _read_cached address length in pm_ret (Some d)
  | Some (READS, last_bad) => multiple_reads address length READS last_bad
  end.
End operations.

(** * Reads deliver recent memory *)

(** The bytes of [data] lie at addresses from [lo] and satisfy [P] there. *)
Definition bytes_at (P : Z -> Z -> Prop) (lo : Z) (data : bytes) : Prop :=
  forall i b, data !! i = Some b -> P (lo + Z.of_nat i) b.

Section bytes_at.
Context (P : Z -> Z -> Prop).

Lemma bytes_at_nil lo : bytes_at P lo [].
Proof. by intros i b Hi. Qed.
Lemma bytes_at_app lo d1 d2 hi :
  bytes_at P lo d1 -> bytes_at P hi d2 -> hi = lo + zlen d1 -> bytes_at P lo (d1 ++ d2).
Proof.
  intros H1 H2 -> i b Hi. apply lookup_app_Some in Hi as [Hi|[Hle Hi]]; [by apply H1|].
  apply H2 in Hi. unfold zlen in Hi. by replace (lo + Z.of_nat i)
    with (lo + Z.of_nat (length d1) + Z.of_nat (i - length d1)) by lia.
Qed.
Lemma bytes_at_repeat lo n b :
  (forall x, lo <= x < lo + n -> P x b) -> bytes_at P lo (py_repeat b n).
Proof.
  intros HP i c Hi. unfold py_repeat in Hi. apply lookup_replicate in Hi as [-> Hi].
  apply HP. lia.
Qed.
Lemma bytes_at_range lo mem a n :
  lo = a -> (forall x, a <= x < a + n -> P x (mem x)) -> bytes_at P lo (mem_range mem a n).
Proof.
  intros -> HP i b Hi. unfold mem_range in Hi. apply list_lookup_fmap_Some in Hi as (x & -> & Hx).
  apply lookup_seqZ in Hx as [-> Hx]. apply HP. lia.
Qed.
Lemma bytes_at_slice lo data i n :
  bytes_at P lo data -> 0 <= i -> 0 <= n -> bytes_at P (lo + i) (slice data i (i + n)).
Proof.
  intros HP Hi Hn k b Hk. unfold slice in Hk. rewrite lookup_take_Some, lookup_drop in Hk.
  destruct Hk as [Hk _]. apply HP in Hk as Hk'. apply lookup_lt_Some in Hk.
  rewrite clamp_nonneg in Hk', Hk by lia. unfold zlen in *.
  by replace (lo + i + Z.of_nat k) with
    (lo + Z.of_nat (Z.to_nat (Z.min i (Z.of_nat (length data))) + k)) by lia.
Qed.
End bytes_at.

Lemma bytes_at_mono (P Q : Z -> Z -> Prop) lo data :
  (forall x b, P x b -> Q x b) -> bytes_at P lo data -> bytes_at Q lo data.
Proof. intros HPQ HP i b Hi. by apply HPQ, HP. Qed.

Lemma zlen_mem_range mem a n : 0 <= n -> zlen (mem_range mem a n) = n.
Proof. intros Hn. unfold zlen, mem_range. rewrite length_fmap, length_seqZ. lia. Qed.
Lemma zlen_slice {A} (l : list A) i j :
  0 <= i <= j -> j <= zlen l -> zlen (slice l i j) = j - i.
Proof.
  intros Hi Hj. unfold slice. rewrite zlen_take, zlen_drop, !clamp_nonneg by lia. lia.
Qed.
Lemma slice_from_slice {A} (l : list A) i : 0 <= i <= zlen l -> slice_from l i = slice l i (zlen l).
Proof.
  intros Hi. unfold slice_from, slice. rewrite !clamp_nonneg by lia.
  symmetry. apply take_ge. rewrite length_drop. unfold zlen. lia.
Qed.

Section freshness.
Context {S : Type} `{Sensor S} (mem : Z -> Z -> Z) (lim : Z) (ok : S -> Prop)
        `{!SensorLaws S mem lim ok}.
Implicit Types m : msensor S.

Abbreviation now m := (sensor_now (dev m)).

(** [b] was at [x] at some moment of the interval. *)
Definition fresh (lo hi x b : Z) : Prop := exists t, lo <= t <= hi /\ b = mem t x.

Lemma fresh_mono lo hi lo' hi' x b : fresh lo hi x b -> lo' <= lo -> hi <= hi' -> fresh lo' hi' x b.
Proof. intros (t & Ht & ->) Hlo Hhi. exists t. split; [lia|done]. Qed.

(** Every cached chunk shows memory at one moment since its time stamp. *)
Record cache_inv m : Prop := {
  ci_ok : ok (dev m);
  ci_entries : forall i e, cache m !! i = Some e -> exists T t, cache_timeouts m !! i = Some T /\
    T <= t <= now m /\ e = mem_range (mem t) (i * CACHE_CHUNK) CACHE_CHUNK
}.

(** [m'] is a later state of the same sensor. *)
Record later m m' : Prop := {
  la_inv : cache_inv m';
  la_now : now m <= now m';
  la_timeout : CACHE_TIMEOUT m' = CACHE_TIMEOUT m;
  la_bad : BAD_MEM_REGIONS m' = BAD_MEM_REGIONS m
}.
Lemma later_refl m : cache_inv m -> later m m.
Proof. by split. Qed.
Lemma later_trans m1 m2 m3 : later m1 m2 -> later m2 m3 -> later m1 m3.
Proof. intros [] []. split; [done|lia|congruence..]. Qed.

Lemma read_from_sensor_spec m a n :
  cache_inv m -> 0 <= a -> 0 < n -> a + n <= lim ->
  exists t m', _read_from_sensor a n m = (Ret (Some (mem_range (mem t) a n)), m') /\
    later m m' /\ now m <= t <= now m' /\
    cache m' = cache m /\ cache_timeouts m' = cache_timeouts m.
Proof.
  intros [Hok He] Ha Hn Hl. destruct (sensor_reads (dev m) a n Hok Ha Hn Hl) as (t & d & Hr & Hok' & Ht).
  exists t, (MSensor d (cache m) (cache_timeouts m) (CACHE_TIMEOUT m) (BAD_MEM_REGIONS m)).
  split; [unfold _read_from_sensor; by rewrite Hr|]. split; [|done].
  split; cbn; [|lia|done..]. split; [done|]. cbn. intros i e Hi.
  destruct (He i e Hi) as (T & t' & ? & ? & ?). exists T, t'. split; [done|]. split; [lia|done].
Qed.

Lemma set_cache_inv m i T t :
  cache_inv m -> T <= t <= now m ->
  later m (set_cache i (mem_range (mem t) (i * CACHE_CHUNK) CACHE_CHUNK) T m).2.
Proof.
  intros [Hok He] Ht. split; cbn; [|lia|done..]. split; [done|]. cbn. intros j e.
  destruct (decide (j = i)) as [->|Hne].
  - rewrite !lookup_insert_eq. intros [= <-]. by exists T, t.
  - rewrite !lookup_insert_ne by done. apply He.
Qed.

(** The refresh of one chunk: afterwards it is cached and recent. *)
Definition refresh (i NOW : Z) : PM (msensor S) bool :=
  let! stale := must_read i NOW in
  if stale
  then let! entry := _read_from_sensor (i * CACHE_CHUNK) CACHE_CHUNK in
       match entry with
       | None => pm_ret false
       | Some e => set_cache i e NOW ;! pm_ret true
       end
  else pm_ret true.

Lemma refresh_spec m i NOW :
  cache_inv m -> 0 < CACHE_TIMEOUT m -> NOW <= now m -> 0 <= i -> (i + 1) * CACHE_CHUNK <= lim ->
  exists t m', refresh i NOW m = (Ret true, m') /\ later m m' /\
    NOW - CACHE_TIMEOUT m <= t <= now m' /\
    cache m' !! i = Some (mem_range (mem t) (i * CACHE_CHUNK) CACHE_CHUNK).
Proof.
  intros Hm Hto HNOW Hi Hlim.
  assert (must_read i NOW m = (Ret true, m) \/ exists t, must_read i NOW m = (Ret false, m) /\
            NOW - CACHE_TIMEOUT m < t <= now m /\
            cache m !! i = Some (mem_range (mem t) (i * CACHE_CHUNK) CACHE_CHUNK)) as [Hst|(t & Hst & Ht & Hc)].
  { unfold must_read. destruct (cache m !! i) as [e|] eqn:Hc; [|by left].
    destruct (ci_entries _ Hm i e Hc) as (T & t & HT & Ht & ->). rewrite HT.
    destruct (Z.leb_spec T (NOW - CACHE_TIMEOUT m)); [by left|]. right. exists t.
    split; [done|]. split; [lia|done]. }
  - destruct (read_from_sensor_spec m (i * CACHE_CHUNK) CACHE_CHUNK) as (t & m1 & Hr & Hl & Ht & _);
      [done|unfold CACHE_CHUNK in *; lia..|].
    pose proof (set_cache_inv m1 i NOW t (la_inv _ _ Hl) ltac:(lia)) as Hl'.
    eexists t, _. split; [unfold refresh, pm_bind; by rewrite Hst, Hr|].
    split; [by eapply later_trans|]. pose proof (la_now _ _ Hl') as Hnow. cbn in *.
    split; [lia|apply lookup_insert_eq].
  - exists t, m. split; [unfold refresh, pm_bind; by rewrite Hst|].
    split; [by apply later_refl|]. split; [lia|done].
Qed.

Lemma cached_loop_step fuel NOW a n datas m m1 chunk :
  0 < n -> refresh (a / CACHE_CHUNK) NOW m = (Ret true, m1) ->
  cache m1 !! (a / CACHE_CHUNK) = Some chunk ->
  let off := a - a / CACHE_CHUNK * CACHE_CHUNK in
  cached_loop (Datatypes.S fuel) NOW a n datas m =
  cached_loop fuel NOW (a + (CACHE_CHUNK - off)) (n - (CACHE_CHUNK - off))
    (datas ++ (if CACHE_CHUNK - off <? n then slice_from chunk off else slice chunk off (off + n))) m1.
Proof.
  intros Hn Hr Hc off. cbn [cached_loop]. rewrite (proj2 (Z.leb_gt n 0)) by lia.
  unfold refresh in Hr. unfold pm_bind in *. destruct (must_read _ _ m) as [[st|e] m0]; [|done].
  rewrite Hr. cbn [negb]. unfold pm_get at 1, pm_lift at 1. rewrite Hc. done.
Qed.

Lemma chunk_arith a :
  0 <= a -> 0 <= a / CACHE_CHUNK /\ 0 <= a - a / CACHE_CHUNK * CACHE_CHUNK < CACHE_CHUNK /\
    (a / CACHE_CHUNK + 1) * CACHE_CHUNK <= a + CACHE_CHUNK.
Proof.
  intros Ha. unfold CACHE_CHUNK. pose proof (Z.div_mod a 7680). pose proof (Z.mod_pos_bound a 7680). lia.
Qed.

Lemma cached_loop_spec fuel m NOW a n datas lo :
  cache_inv m -> 0 < CACHE_TIMEOUT m -> NOW <= now m -> 0 <= a -> a + n + CACHE_CHUNK <= lim ->
  0 <= n -> (Z.to_nat n <= fuel)%nat -> a = lo + zlen datas ->
  bytes_at (fresh (NOW - CACHE_TIMEOUT m) (now m)) lo datas ->
  exists d m', cached_loop fuel NOW a n datas m = (Ret d, m') /\ later m m' /\
    zlen d = zlen datas + n /\ bytes_at (fresh (NOW - CACHE_TIMEOUT m) (now m')) lo d.
Proof.
  revert m a n datas. induction fuel as [|fuel IH];
    intros m a n datas Hm Hto HNOW Ha Hlim Hn Hf -> Hd.
  { exists datas, m. split; [done|]. split; [by apply later_refl|]. split; [lia|done]. }
  destruct (Z.leb_spec n 0) as [Hn0|Hn0].
  { exists datas, m. split; [cbn [cached_loop]; by rewrite (proj2 (Z.leb_le n 0)) by lia|].
    split; [by apply later_refl|]. split; [lia|done]. }
  set (a := lo + zlen datas) in *. destruct (chunk_arith a Ha) as (Hi & Hoff & Hnext).
  destruct (refresh_spec m (a / CACHE_CHUNK) NOW) as (t & m1 & Hr & Hl & Ht & Hc); [done..|lia|].
  rewrite (cached_loop_step fuel NOW a n datas m m1 _ Hn0 Hr Hc).
  set (off := a - a / CACHE_CHUNK * CACHE_CHUNK) in *.
  set (chunk := mem_range (mem t) (a / CACHE_CHUNK * CACHE_CHUNK) CACHE_CHUNK) in *.
  assert (zlen chunk = CACHE_CHUNK) as Hlen by (apply zlen_mem_range; done).
  set (k := Z.min n (CACHE_CHUNK - off)).
  assert ((if CACHE_CHUNK - off <? n then slice_from chunk off else slice chunk off (off + n))
          = slice chunk off (off + k)) as ->.
  { subst k. destruct (Z.ltb_spec (CACHE_CHUNK - off) n).
    - rewrite slice_from_slice by lia. f_equal. lia.
    - f_equal. lia. }
  assert (zlen (slice chunk off (off + k)) = k) as Hk by (rewrite zlen_slice; subst k; lia).
  assert (bytes_at (fresh (NOW - CACHE_TIMEOUT m) (now m1)) lo (datas ++ slice chunk off (off + k))) as Hd'.
  { apply bytes_at_app with (hi := a); [|..|done].
    - eapply bytes_at_mono; [|exact Hd]. intros x b Hx. eapply fresh_mono; [done|lia|apply Hl].
    - replace a with (a / CACHE_CHUNK * CACHE_CHUNK + off) by lia.
      apply bytes_at_slice; [|lia..]. apply bytes_at_range; [done|]. intros x _. by exists t. }
  destruct (Z.ltb_spec (CACHE_CHUNK - off) n) as [Hlt|Hge].
  - rewrite <- (la_timeout _ _ Hl) in *. pose proof (la_now _ _ Hl).
    destruct (IH m1 (a + (CACHE_CHUNK - off)) (n - (CACHE_CHUNK - off))
                (datas ++ slice chunk off (off + k)) (la_inv _ _ Hl) Hto)
      as (d & m' & Hr' & Hl' & Hz & Hb); [lia..|rewrite zlen_app; lia|done|].
    exists d, m'. split; [done|]. split; [by eapply later_trans|].
    split; [rewrite Hz, zlen_app; lia|done].
  - exists (datas ++ slice chunk off (off + k)), m1. split.
    { destruct fuel as [|fuel']; [done|]. cbn [cached_loop].
      by rewrite (proj2 (Z.leb_le _ 0)) by lia. }
    split; [done|]. split; [rewrite zlen_app; lia|done].
Qed.

(** [_read_cached] returns as many bytes as asked for, none older than the cache
    timeout. *)
Lemma read_cached_spec m a n :
  cache_inv m -> 0 <= a -> 0 < n -> a + n + CACHE_CHUNK <= lim ->
  exists d m', _read_cached a n m = (Ret d, m') /\ later m m' /\ zlen d = n /\
    bytes_at (fresh (now m - Z.max 0 (CACHE_TIMEOUT m)) (now m')) a d.
Proof.
  intros Hm Ha Hn Hlim. unfold _read_cached, pm_bind, pm_get, time_time.
  destruct (Z.leb_spec (CACHE_TIMEOUT m) 0).
  - destruct (read_from_sensor_spec m a n) as (t & m' & Hr & Hl & Ht & _);
      [done..|unfold CACHE_CHUNK in *; lia|].
    rewrite Hr. cbn. eexists _, m'. split; [done|]. split; [done|].
    split; [apply zlen_mem_range; lia|]. apply bytes_at_range; [done|]. intros x _.
    exists t. split; [lia|done].
  - unfold pm_get. cbn. destruct (cached_loop_spec (Z.to_nat n) m (now m) a n [] a)
      as (d & m' & Hr & Hl & Hz & Hb); [done|lia..|by rewrite zlen_nil, Z.add_0_r|apply bytes_at_nil|].
    exists d, m'. split; [done|]. split; [done|]. split; [done|].
    by replace (Z.max 0 (CACHE_TIMEOUT m)) with (CACHE_TIMEOUT m) by lia.
Qed.
End freshness.

(** * Memory holes *)

Definition is_bad (bads : list (Z * Z)) (x : Z) : Prop := Exists (fun r => r.1 <= x < r.2) bads.
#[global] Instance is_bad_dec bads x : Decision (is_bad bads x).
Proof. unfold is_bad. apply _. Defined.

(** Non-empty regions in ascending order, with a gap between any two. *)
Definition separated (bads : list (Z * Z)) : Prop :=
  StronglySorted (fun r r' => r.2 < r'.1) bads /\ Forall (fun r => r.1 < r.2) bads.

Section holes.
Context (bads : list (Z * Z)).

Definition all_bad lo hi : Prop := forall x, lo <= x < hi -> is_bad bads x.
Definition all_good lo hi : Prop := forall x, lo <= x < hi -> ~ is_bad bads x.

(** The reads split [lo, hi): they are good memory and what lies between is bad. *)
Fixpoint covers (lo : Z) (reads : list (Z * Z)) (hi : Z) : Prop :=
  match reads with
  | [] => lo <= hi /\ all_bad lo hi
  | r :: reads => lo <= r.1 < r.2 /\ all_bad lo r.1 /\ all_good r.1 r.2 /\ covers r.2 reads hi
  end.

Lemma covers_le lo reads hi : covers lo reads hi -> lo <= hi.
Proof.
  revert lo. induction reads as [|r reads IH]; intros lo; cbn; [lia|].
  intros (? & _ & _ & ?%IH). lia.
Qed.
Lemma covers_extend lo reads m hi :
  covers lo reads m -> m <= hi -> all_bad m hi -> covers lo reads hi.
Proof.
  revert lo. induction reads as [|r reads IH]; intros lo; cbn.
  - intros [Hle Hb] Hm Hb'. split; [lia|]. intros x Hx.
    destruct (Z.lt_ge_cases x m); [apply Hb|apply Hb']; lia.
  - intros (? & ? & ? & ?) ? ?. auto.
Qed.
Lemma covers_snoc lo reads m b :
  covers lo reads m -> m < b -> all_good m b -> covers lo (reads ++ [(m, b)]) b.
Proof.
  revert lo. induction reads as [|r reads IH]; intros lo; cbn.
  - intros [Hle Hb] Hm Hg. split_and!; [lia..|done|done|lia|]. intros x Hx. lia.
  - intros (? & ? & ? & ?) ? ?. auto.
Qed.

(** The state of [bad_loop] after the regions [pre]. *)
Definition cur (address : Z) (last : option (Z * Z)) : Z :=
  match last with Some l => l.2 | None => address end.
Record loop_inv (address E : Z) (pre : list (Z * Z)) (READS : list (Z * Z)) (last : option (Z * Z)) : Prop := {
  li_covers : covers address READS (Z.min (cur address last) E);
  li_past : forall x, cur address last <= x < E -> ~ is_bad pre x;
  li_last : match last with
            | None => READS = []
            | Some l => l ∈ pre /\ address < l.2 /\ (READS = [] -> l.2 < E)
            end
}.

Lemma is_bad_app pre suf x : is_bad (pre ++ suf) x <-> is_bad pre x \/ is_bad suf x.
Proof. unfold is_bad. apply Exists_app. Qed.
Lemma is_bad_here pre b suf x : b.1 <= x < b.2 -> is_bad (pre ++ b :: suf) x.
Proof. intros. apply is_bad_app. right. by left. Qed.

Section step.
Context (address E : Z) (Haddr : address < E).
Context (pre suf : list (Z * Z)) (b : Z * Z) (Hall : bads = pre ++ b :: suf).
Context (Hsep : separated bads) (READS : list (Z * Z)) (last : option (Z * Z)).
Context (Hinv : loop_inv address E pre READS last).

Lemma pre_before l : l ∈ pre -> l.2 < b.1.
Proof.
  intros Hl. destruct Hsep as [Hs _]. rewrite Hall in Hs.
  clear -Hs Hl. induction pre as [|r pre' IH]; [by apply elem_of_nil in Hl|].
  cbn in Hs. apply StronglySorted_inv in Hs as [Hs Hf].
  apply elem_of_cons in Hl as [->|Hl]; [|by apply IH].
  rewrite Forall_forall in Hf. apply Hf. set_solver.
Qed.
Lemma suf_after x : is_bad suf x -> b.2 < x.
Proof.
  destruct Hsep as [Hs _]. rewrite Hall in Hs.
  assert (StronglySorted (fun r r' : Z * Z => r.2 < r'.1) (b :: suf)) as Hb.
  { clear -Hs. induction pre as [|r pre' IH]; [done|]. by apply StronglySorted_inv in Hs as [? _]; auto. }
  apply StronglySorted_inv in Hb as [_ Hf]. intros Hx. unfold is_bad in Hx.
  rewrite Exists_exists in Hx. destruct Hx as (r & Hr & Hx).
  rewrite Forall_forall in Hf. specialize (Hf r Hr). lia.
Qed.
Lemma b_nonempty : b.1 < b.2.
Proof. destruct Hsep as [_ Hf]. rewrite Hall in Hf. by apply Forall_app in Hf as [_ [? _]%Forall_cons]. Qed.
Lemma bad_here : all_bad b.1 b.2.
Proof. intros x Hx. rewrite Hall. by apply is_bad_here. Qed.
Lemma good_before : all_good (cur address last) (Z.min b.1 E).
Proof.
  intros x Hx Hbad. rewrite Hall in Hbad. apply is_bad_app in Hbad as [Hbad|Hbad].
  - apply (li_past _ _ _ _ _ Hinv x); [lia|done].
  - unfold is_bad in Hbad. apply Exists_cons in Hbad as [Hbad|Hbad]; [lia|].
    apply suf_after in Hbad. pose proof b_nonempty. lia.
Qed.

(** The region is met: it lies ahead of what is covered. *)
Lemma past_snoc c : cur address last <= c -> b.2 <= c ->
  forall x, c <= x < E -> ~ is_bad (pre ++ [b]) x.
Proof.
  intros Hc Hb x Hx Hbad. apply is_bad_app in Hbad as [Hbad|Hbad].
  - apply (li_past _ _ _ _ _ Hinv x); [lia|done].
  - unfold is_bad in Hbad. apply Exists_cons in Hbad as [Hbad|Hbad]; [lia|by apply Exists_nil in Hbad].
Qed.

Lemma step_starts_inside :
  ~ (b.1 <= address /\ E <= b.2) -> address <= b.1 < E ->
  loop_inv address E (pre ++ [b])
    (match last with
     | None => if negb (address =? b.1) then READS ++ [(address, b.1)] else READS
     | Some l => READS ++ [(l.2, b.1)]
     end) (Some b).
Proof.
  intros Hwhole Hin. pose proof b_nonempty as Hne. pose proof good_before as Hg.
  pose proof (li_last _ _ _ _ _ Hinv) as Hlast. pose proof (li_covers _ _ _ _ _ Hinv) as Hcov.
  assert (cur address last <= b.1) as Hcb.
  { destruct last as [l|]; cbn; [|lia]. pose proof (pre_before l (proj1 Hlast)). lia. }
  rewrite Z.min_l in Hg, Hcov by lia.
  assert (all_bad b.1 (Z.min b.2 E)) as Hb by (intros x Hx; apply bad_here; lia).
  split; cbn [cur]; [|apply past_snoc; lia|].
  - destruct last as [l|].
    + apply covers_extend with (m := b.1); [|lia|done]. apply covers_snoc; [done| |done].
      by apply pre_before, Hlast.
    + subst READS. destruct (Z.eqb_spec address b.1) as [Heq|Hneq]; cbn [negb].
      * split; [lia|]. by rewrite Heq.
      * apply covers_extend with (m := b.1); [|lia|done]. apply (covers_snoc _ [] address); [done|lia|done].
  - split; [set_solver|]. split; [lia|]. destruct last as [l|]; [by destruct READS|].
    subst READS. destruct (Z.eqb_spec address b.1); cbn; [lia|done].
Qed.

Lemma step_ends_inside :
  ~ (address <= b.1 < E) -> address < b.2 < E -> loop_inv address E (pre ++ [b]) READS (Some b).
Proof.
  intros Hnot Hin. pose proof b_nonempty as Hne. pose proof (li_last _ _ _ _ _ Hinv) as Hlast.
  pose proof (past_snoc b.2) as Hpast. pose proof bad_here as Hbad. pose proof pre_before as Hpre.
  destruct last as [l|].
  { destruct Hlast as (Hl & ? & _). pose proof (Hpre l Hl). lia. }
  subst READS. split; cbn [cur] in *; [|apply Hpast; lia|].
  - split; [lia|]. intros x Hx. apply Hbad. lia.
  - split; [set_solver|]. lia.
Qed.

Lemma step_outside :
  ~ (b.1 <= address /\ E <= b.2) -> ~ (address <= b.1 < E) -> ~ (address < b.2 < E) ->
  loop_inv address E (pre ++ [b]) READS last.
Proof.
  intros H1 H2 H3. split; [apply Hinv| |].
  - intros x Hx Hbad. apply is_bad_app in Hbad as [Hbad|Hbad].
    + by apply (li_past _ _ _ _ _ Hinv x).
    + unfold is_bad in Hbad. apply Exists_cons in Hbad as [Hbad|Hbad]; [|by apply Exists_nil in Hbad].
      assert (address <= cur address last).
      { pose proof (li_last _ _ _ _ _ Hinv) as Hlast. destruct last; cbn; [|lia]. lia. }
      lia.
  - pose proof (li_last _ _ _ _ _ Hinv) as Hlast. destruct last as [l|]; [|done].
    destruct Hlast as (? & ? & ?). split; [set_solver|done].
Qed.
End step.
End holes.

Lemma bad_loop_spec bads address length suf : forall pre READS last,
  0 < length -> bads = pre ++ suf -> separated bads ->
  loop_inv bads address (address + length) pre READS last ->
  match bad_loop address length suf READS last with
  | None => all_bad bads address (address + length)
  | Some (READS', last') => loop_inv bads address (address + length) bads READS' last'
  end.
Proof.
  induction suf as [|b suf IH]; intros pre READS last Hlen Hall Hsep Hinv; cbn [bad_loop].
  { rewrite app_nil_r in Hall. by subst. }
  assert (bads = (pre ++ [b]) ++ suf) as Hall' by (by rewrite <- app_assoc).
  destruct ((b.1 <=? address) && (address + length <=? b.2)) eqn:H1.
  { apply andb_true_iff in H1 as [?%Z.leb_le ?%Z.leb_le]. intros x Hx. rewrite Hall.
    apply is_bad_here. lia. }
  assert (~ (b.1 <= address /\ address + length <= b.2)) as H1'.
  { intros [?%Z.leb_le ?%Z.leb_le]. by rewrite H, H0 in H1. }
  destruct ((address <=? b.1) && (b.1 <? address + length)) eqn:H2.
  { apply andb_true_iff in H2 as [?%Z.leb_le ?%Z.ltb_lt].
    apply (IH (pre ++ [b])); [done..|]. apply step_starts_inside with (suf := suf); (done || lia). }
  assert (~ (address <= b.1 < address + length)) as H2'.
  { intros [H%Z.leb_le H0%Z.ltb_lt]. by rewrite H, H0 in H2. }
  destruct ((address <? b.2) && (b.2 <? address + length)) eqn:H3.
  { apply andb_true_iff in H3 as [?%Z.ltb_lt ?%Z.ltb_lt].
    apply (IH (pre ++ [b])); [done..|]. apply step_ends_inside with (suf := suf) (last := last); (done || lia). }
  assert (~ (address < b.2 < address + length)) as H3'.
  { intros [H%Z.ltb_lt H0%Z.ltb_lt]. by rewrite H, H0 in H3. }
  apply (IH (pre ++ [b])); [done..|]. apply step_outside with (suf := suf); (done || lia).
Qed.

(** * [read] *)

Section read_spec.
Context {S : Type} `{Sensor S} (mem : Z -> Z -> Z) (lim : Z) (ok : S -> Prop)
        `{!SensorLaws S mem lim ok}.
Implicit Types m : msensor S.
Abbreviation now m := (sensor_now (dev m)).
Abbreviation later := (later mem ok).
Abbreviation fresh := (fresh mem).

(** Zero in a hole, recent memory elsewhere. *)
Definition masked (bads : list (Z * Z)) (lo hi x b : Z) : Prop :=
  (is_bad bads x -> b = 0) /\ (~ is_bad bads x -> fresh lo hi x b).

Lemma masked_mono bads lo hi lo' hi' x b :
  masked bads lo hi x b -> lo' <= lo -> hi <= hi' -> masked bads lo' hi' x b.
Proof. intros [H1 H2] Hlo Hhi. split; [done|]. intros Hg. eapply fresh_mono; [by apply H2|done..]. Qed.
Lemma masked_zeros bads lo hi a n :
  all_bad bads a (a + n) -> bytes_at (masked bads lo hi) a (py_repeat 0 n).
Proof. intros Hb. apply bytes_at_repeat. intros x Hx. split; [done|]. intros Hg; by destruct (Hg (Hb x Hx)). Qed.
Lemma masked_good bads lo hi a data :
  all_good bads a (a + zlen data) -> bytes_at (fresh lo hi) a data -> bytes_at (masked bads lo hi) a data.
Proof.
  intros Hg Hf i b Hi. split; [|intros _; by apply Hf]. intros Hbad.
  exfalso. eapply Hg; [|exact Hbad]. apply lookup_lt_Some in Hi. unfold zlen. lia.
Qed.

(** The last address the reads reach. *)
Definition reads_end (lo : Z) (READS : list (Z * Z)) : Z := (default (lo, lo) (last READS)).2.
Lemma reads_end_cons lo r READS : reads_end lo (r :: READS) = reads_end r.2 READS.
Proof. unfold reads_end. rewrite last_cons. by destruct (last READS). Qed.

Lemma reads_loop_spec bads T READS : forall m lo hi last_read data a,
  cache_inv mem ok m -> covers bads lo READS hi -> 0 <= lo -> hi + CACHE_CHUNK <= lim ->
  match last_read with
  | Some l => l.2 = lo
  | None => match READS with r :: _ => r.1 = lo | [] => False end
  end ->
  T <= now m - Z.max 0 (CACHE_TIMEOUT m) -> lo = a + zlen data ->
  bytes_at (masked bads T (now m)) a data ->
  exists d m', reads_loop READS last_read data m = (Ret (Some d), m') /\ later m m' /\
    a + zlen d = reads_end lo READS /\ covers bads (reads_end lo READS) [] hi /\
    bytes_at (masked bads T (now m')) a d.
Proof.
  induction READS as [|r READS IH]; intros m lo hi last_read data a Hm Hcov Hlo Hlim Hlast HT -> Hd.
  { exists data, m. split; [done|]. split; [by apply later_refl|]. done. }
  cbn [covers] in Hcov. destruct Hcov as (Hr & Hbad & Hgood & Hcov).
  pose proof (covers_le _ _ _ _ Hcov) as Hle. cbn [reads_loop].
  set (data1 := match last_read with None => data | Some l => data ++ py_repeat 0 (r.1 - l.2) end).
  assert (a + zlen data1 = r.1 /\ bytes_at (masked bads T (now m)) a data1) as [Hz1 Hd1].
  { subst data1. destruct last_read as [l|]; [|split; [lia|done]]. rewrite Hlast.
    rewrite zlen_app, zlen_repeat by lia. split; [lia|].
    eapply bytes_at_app; [done| |done]. apply masked_zeros. intros x Hx. apply Hbad. lia. }
  destruct (read_cached_spec mem lim ok m r.1 (r.2 - r.1)) as (d & m1 & Hrd & Hl1 & Hz & Hb);
    [done|lia..|].
  unfold pm_bind at 1. rewrite Hrd. rewrite (proj2 (Z.eqb_neq (zlen d) 0)) by lia.
  pose proof (la_now _ _ _ _ Hl1) as Hnow. pose proof (la_timeout _ _ _ _ Hl1) as Hto.
  rewrite reads_end_cons.
  destruct (IH m1 r.2 hi (Some r) (data1 ++ d) a) as (d' & m' & Hr' & Hl' & Hz' & Hc' & Hb');
    [apply Hl1|done|lia|done|done|lia|rewrite zlen_app; lia| |].
  - apply bytes_at_app with (hi := r.1); [|..|lia].
    + eapply bytes_at_mono; [|exact Hd1]. intros x b Hx. eapply masked_mono; [done|lia..].
    + apply masked_good; [intros x Hx; apply Hgood; lia|].
      eapply bytes_at_mono; [|exact Hb]. intros x b Hx. eapply fresh_mono; [done|lia..].
  - exists d', m'. split; [done|]. split; [by eapply later_trans|]. done.
Qed.

(** The reads of a plan, then zeros up to the requested length. *)
Lemma issue_spec bads T READS m address length first :
  cache_inv mem ok m -> covers bads address READS (address + length) -> 0 <= address ->
  address + length + CACHE_CHUNK <= lim -> py_index READS 0 = Ret first ->
  T <= now m - Z.max 0 (CACHE_TIMEOUT m) ->
  exists d m', reads_loop READS None
      (if address <? first.1 then py_repeat 0 (first.1 - address) else []) m = (Ret (Some d), m') /\
    later m m' /\
    let d' := if zlen d <? length then d ++ py_repeat 0 (length - zlen d) else d in
    zlen d' = length /\ bytes_at (masked bads T (now m')) address d'.
Proof.
  intros Hm Hcov Ha Hlim Hfirst HT. destruct READS as [|r READS]; [done|].
  cbn in Hfirst. injection Hfirst as <-. cbn [covers] in Hcov. destruct Hcov as (Hr & Hbad & Hcov).
  set (zs := if address <? r.1 then _ else _).
  assert (zlen zs = r.1 - address /\ bytes_at (masked bads T (now m)) address zs) as [Hz Hzs].
  { subst zs. destruct (Z.ltb_spec address r.1).
    - rewrite zlen_repeat by lia. split; [done|]. apply masked_zeros. intros x Hx. apply Hbad. lia.
    - rewrite zlen_nil. split; [lia|apply bytes_at_nil]. }
  destruct (reads_loop_spec bads T (r :: READS) m r.1 (address + length) None zs address)
    as (d & m' & Hr' & Hl & Hend & [Hle Hrest] & Hb); [done| |lia|done|done|done|lia|done|].
  { cbn. split_and!; [lia..| |apply Hcov|apply Hcov]. intros x Hx. lia. }
  exists d, m'. split; [done|]. split; [done|]. cbn zeta.
  destruct (Z.ltb_spec (zlen d) length).
  - rewrite zlen_app, zlen_repeat by lia. split; [lia|].
    eapply bytes_at_app; [done| |done]. apply masked_zeros. intros x Hx. apply Hrest. lia.
  - split; [lia|done].
Qed.

Lemma read_holes_spec m address length :
  cache_inv mem ok m -> separated (BAD_MEM_REGIONS m) -> 0 <= address -> 0 < length ->
  address + length + CACHE_CHUNK <= lim ->
  exists d m', read address length m = (Ret (Some d), m') /\ later m m' /\ zlen d = length /\
    bytes_at (masked (BAD_MEM_REGIONS m) (now m - Z.max 0 (CACHE_TIMEOUT m)) (now m')) address d.
Proof.
  intros Hm Hsep Ha Hlen Hlim. unfold read. unfold pm_bind at 1, pm_get.
  set (bads := BAD_MEM_REGIONS m) in *.
  pose proof (bad_loop_spec bads address length bads [] [] None Hlen eq_refl Hsep) as Hloop.
  destruct (bad_loop address length bads [] None) as [[READS last]|].
  - destruct Hloop as [Hcov Hpast Hlast].
    { split; cbn; [split; [lia|intros x Hx; lia]| |done]. intros x _ Hx. by apply Exists_nil in Hx. }
    destruct last as [l|].
    + destruct Hlast as (_ & Hl & Hne). cbn [cur] in *.
      set (READS' := if l.2 <? address + length then READS ++ [(l.2, address + length)] else READS).
      assert (covers bads address READS' (address + length)) as Hcov'.
      { subst READS'. destruct (Z.ltb_spec l.2 (address + length)).
        - rewrite Z.min_l in Hcov by lia. by apply covers_snoc.
        - by rewrite Z.min_r in Hcov by lia. }
      assert (exists first, py_index READS' 0 = Ret first) as [first Hfirst].
      { subst READS'. destruct (Z.ltb_spec l.2 (address + length)), READS; cbn; eauto. specialize (Hne eq_refl). lia. }
      destruct (issue_spec bads (now m - Z.max 0 (CACHE_TIMEOUT m)) READS' m address length first)
        as (d & m' & Hr & Hl' & Hz & Hb); [done..|lia|].
      exists (if zlen d <? length then d ++ py_repeat 0 (length - zlen d) else d), m'.
      split; [|done]. transitivity (multiple_reads address length READS (Some l) m); [by destruct READS|].
      unfold multiple_reads, pm_bind, pm_lift, of_option. fold READS'. by rewrite Hfirst, Hr.
    + subst READS. cbn [cur] in *.
      destruct (read_cached_spec mem lim ok m address length) as (d & m' & Hr & Hl & Hz & Hb); [done..|].
      exists d, m'. unfold pm_bind. rewrite Hr. split; [done|]. split; [done|]. split; [done|].
      apply masked_good; [|done]. rewrite Hz. done.
  - exists (py_repeat 0 length), m. split; [done|]. split; [by apply later_refl|].
    split; [apply zlen_repeat; lia|]. apply masked_zeros, Hloop.
    split; cbn; [split; [lia|intros x Hx; lia]| |done]. intros x _ Hx. by apply Exists_nil in Hx.
Qed.
End read_spec.

(** ** Regions away from the read *)

(** The region meets the read [address, address + length). *)
Definition touches (address length : Z) (r : Z * Z) : Prop := r.1 < address + length /\ address < r.2.
#[global] Instance touches_dec address length r : Decision (touches address length r).
Proof. unfold touches. apply _. Defined.

(** Regions away from the read do not matter, wherever they are in the list. *)
Lemma bad_loop_filter address length bads : forall READS last,
  0 < length -> Forall (fun r => r.1 < r.2) bads ->
  bad_loop address length bads READS last =
  bad_loop address length (filter (touches address length) bads) READS last.
Proof.
  induction bads as [|r bads IH]; intros READS last Hlen Hne; [done|].
  apply Forall_cons in Hne as [Hr Hne].
  destruct (decide (touches address length r)) as [Ht|Ht].
  - rewrite filter_cons_True by done. cbn [bad_loop].
    destruct (_ && _); [done|]. destruct (_ && _); [by apply IH|]. destruct (_ && _); by apply IH.
  - rewrite filter_cons_False by done. cbn [bad_loop]. unfold touches in Ht.
    assert ((r.1 <=? address) && (address + length <=? r.2) = false) as ->
      by (apply andb_false_iff; rewrite !Z.leb_gt; lia).
    assert ((address <=? r.1) && (r.1 <? address + length) = false) as ->
      by (apply andb_false_iff; rewrite Z.leb_gt, Z.ltb_ge; lia).
    assert ((address <? r.2) && (r.2 <? address + length) = false) as ->
      by (apply andb_false_iff; rewrite !Z.ltb_ge; lia).
    by apply IH.
Qed.

Lemma is_bad_filter address length bads x :
  address <= x < address + length ->
  is_bad (filter (touches address length) bads) x <-> is_bad bads x.
Proof.
  intros Hx. unfold is_bad. rewrite !Exists_exists. split.
  - intros (r & Hr & ?). apply list_elem_of_filter in Hr as [_ Hr]. eauto.
  - intros (r & Hr & ?). exists r. split; [|done]. apply list_elem_of_filter. split; [|done].
    split; lia.
Qed.

Definition with_regions {S} (bads : list (Z * Z)) (m : msensor S) : msensor S :=
  MSensor (dev m) (cache m) (cache_timeouts m) (CACHE_TIMEOUT m) bads.

Section regions.
Context {S : Type} `{Sensor S}.
Implicit Types m : msensor S.

(** A computation that neither reads nor changes the list of regions. *)
Definition regionless {A} (c : PM (msensor S) A) : Prop :=
  forall bads m, c (with_regions bads m) = let (r, m') := c m in (r, with_regions bads m').

Lemma regionless_ret {A} (a : A) : regionless (pm_ret a).
Proof. done. Qed.
Lemma regionless_bind {A B} (c : PM (msensor S) A) (k : A -> PM (msensor S) B) :
  regionless c -> (forall a, regionless (k a)) -> regionless (pm_bind c k).
Proof.
  intros Hc Hk bads m. unfold pm_bind. rewrite Hc. destruct (c m) as [[a|e] m']; [apply Hk|done].
Qed.
Lemma regionless_sensor a n : regionless (_read_from_sensor a n).
Proof. intros bads m. unfold _read_from_sensor, with_regions. cbn. by destruct (sensor_read a n _). Qed.
Lemma regionless_must_read i t : regionless (must_read i t).
Proof.
  intros bads m. unfold must_read, with_regions. cbn. destruct (cache m !! i); [|done].
  by destruct (cache_timeouts m !! i).
Qed.
Lemma regionless_cached_loop fuel t a n d : regionless (cached_loop fuel t a n d).
Proof.
  revert a n d. induction fuel as [|fuel IH]; intros a n d; cbn [cached_loop]; [done|].
  destruct (n <=? 0); [done|]. apply regionless_bind; [apply regionless_must_read|].
  intros st. apply regionless_bind.
  - destruct st; [|done]. apply regionless_bind; [apply regionless_sensor|]. intros [e|]; done.
  - intros [|]; [|done]. apply regionless_bind; [done|]. intros c.
    apply regionless_bind; [by destruct c|]. intros ch. apply IH.
Qed.
Lemma regionless_read_cached a n : regionless (_read_cached a n).
Proof.
  apply regionless_bind; [done|]. intros t. destruct (t <=? 0).
  - apply regionless_bind; [apply regionless_sensor|done].
  - apply regionless_bind; [done|]. intros ?. apply regionless_cached_loop.
Qed.
Lemma regionless_reads_loop READS l d : regionless (reads_loop READS l d).
Proof.
  revert l d. induction READS as [|r READS IH]; intros l d; cbn [reads_loop]; [done|].
  apply regionless_bind; [apply regionless_read_cached|]. intros x.
  destruct (zlen x =? 0); [done|apply IH].
Qed.

(** [read] sees only the regions that meet it. *)
Lemma read_filter address length m :
  0 < length -> Forall (fun r => r.1 < r.2) (BAD_MEM_REGIONS m) ->
  read address length m =
  let (r, m') := read address length
    (with_regions (filter (touches address length) (BAD_MEM_REGIONS m)) m) in
  (r, with_regions (BAD_MEM_REGIONS m) m').
Proof.
  intros Hlen Hne. unfold read, pm_bind at 1 3, pm_get. cbn [BAD_MEM_REGIONS with_regions].
  rewrite (bad_loop_filter address length (BAD_MEM_REGIONS m)) by done.
  set (bads := filter _ _). assert (with_regions (BAD_MEM_REGIONS m) m = m) as Hm by (by destruct m).
  assert (forall A (c : PM (msensor S) A), regionless c ->
    c m = let (r, m') := c (with_regions bads m) in (r, with_regions (BAD_MEM_REGIONS m) m')) as Hany.
  { intros A c Hc. rewrite Hc. rewrite <- Hm at 1. rewrite Hc. by destruct (c m). }
  destruct (bad_loop address length bads [] None) as [[READS last]|]; [|by rewrite <- Hm at 1].
  assert (regionless (multiple_reads address length READS last)) as Hmr.
  { apply regionless_bind; [by destruct last|]. intros l.
    apply regionless_bind; [by intros ??; destruct (py_index _ _)|]. intros f.
    apply regionless_bind; [apply regionless_reads_loop|]. done. }
  destruct READS, last; try by apply Hany.
  apply Hany, regionless_bind; [apply regionless_read_cached|done].
Qed.
End regions.

Section read_all.
Context {S : Type} `{Sensor S} (mem : Z -> Z -> Z) (lim : Z) (ok : S -> Prop)
        `{!SensorLaws S mem lim ok}.
Implicit Types m : msensor S.

Lemma cache_inv_regions bads m : cache_inv mem ok m <-> cache_inv mem ok (with_regions bads m).
Proof. split; intros [? ?]; by split. Qed.

Lemma masked_filter lo hi bads address d :
  bytes_at (masked mem (filter (touches address (zlen d)) bads) lo hi) address d ->
  bytes_at (masked mem bads lo hi) address d.
Proof.
  intros Hb i b Hi. pose proof (lookup_lt_Some _ _ _ Hi) as Hlt. apply Hb in Hi as [H1 H2].
  rewrite (is_bad_filter address (zlen d)) in H1, H2 by (unfold zlen; lia). by split.
Qed.

Lemma read_spec m address length :
  cache_inv mem ok m -> Forall (fun r => r.1 < r.2) (BAD_MEM_REGIONS m) ->
  separated (filter (touches address length) (BAD_MEM_REGIONS m)) ->
  0 <= address -> 0 < length -> address + length + CACHE_CHUNK <= lim ->
  exists d m', read address length m = (Ret (Some d), m') /\ cache_inv mem ok m' /\ zlen d = length /\
    BAD_MEM_REGIONS m' = BAD_MEM_REGIONS m /\ CACHE_TIMEOUT m' = CACHE_TIMEOUT m /\
    bytes_at (masked mem (BAD_MEM_REGIONS m) (sensor_now (dev m) - Z.max 0 (CACHE_TIMEOUT m))
                (sensor_now (dev m'))) address d.
Proof.
  intros Hm Hne Hsep Ha Hlen Hlim. rewrite read_filter by done.
  set (bads := filter _ _) in *. apply (cache_inv_regions bads) in Hm.
  destruct (read_holes_spec mem lim ok (with_regions bads m) address length Hm Hsep Ha Hlen Hlim)
    as (d & m' & Hr & Hl & Hz & Hb). rewrite Hr.
  exists d, (with_regions (BAD_MEM_REGIONS m) m'). split; [done|].
  split; [apply cache_inv_regions, Hl|]. split; [done|]. split; [done|]. split; [apply Hl|].
  apply masked_filter. by rewrite Hz.
Qed.
End read_all.

(** [C4] Reads deliver recent memory with the holes zeroed: for a sensor that obeys its
    laws, [read] returns exactly [length] bytes; each byte is 0 when its address lies in
    a bad region and otherwise what memory held there at some moment no older than the
    cache timeout before the call.  It holds with and without cache, across any number
    of chunks and holes, when the bad regions that meet the read are in order and not
    adjacent. *)
Theorem read_recent_memory {S} `{Sensor S} (mem : Z -> Z -> Z) (lim : Z) (ok : S -> Prop)
    `{!SensorLaws S mem lim ok} (m : msensor S) address length :
  cache_inv mem ok m -> Forall (fun r => r.1 < r.2) (BAD_MEM_REGIONS m) ->
  separated (filter (touches address length) (BAD_MEM_REGIONS m)) ->
  0 <= address -> 0 < length -> address + length + CACHE_CHUNK <= lim ->
  exists d m', read address length m = (Ret (Some d), m') /\ cache_inv mem ok m' /\ zlen d = length /\
    bytes_at (fun x b => if decide (is_bad (BAD_MEM_REGIONS m) x) then b = 0
      else exists t, sensor_now (dev m) - Z.max 0 (CACHE_TIMEOUT m) <= t <= sensor_now (dev m') /\
           b = mem t x) address d.
Proof.
  intros Hm Hne Hsep Ha Hlen Hlim.
  destruct (read_spec mem lim ok m address length Hm Hne Hsep Ha Hlen Hlim)
    as (d & m' & Hr & Hm' & Hz & _ & _ & Hb).
  exists d, m'. split; [done|]. split; [done|]. split; [done|].
  eapply bytes_at_mono; [|exact Hb]. intros x b [H1 H2]. destruct (decide _); [by apply H1|by apply H2].
Qed.

(** Two adjacent holes defeat a read: [read] plans an empty read between them and
    takes its empty answer for a timeout, so that a cached read that starts in the first
    and ends behind the second returns [None], whatever the sensor would deliver. *)
Theorem adjacent_holes_read_nothing {S} `{Sensor S} (m : msensor S) a b c length :
  0 < CACHE_TIMEOUT m -> BAD_MEM_REGIONS m = [(a, b); (b, c)] ->
  a < b -> b < c < a + length -> (read a length m).1 = Ret None.
Proof.
  intros Hto Hbads Hab Hbc. unfold read, pm_bind at 1, pm_get. rewrite Hbads.
  assert (bad_loop a length [(a, b); (b, c)] [] None = Some ([(b, b)], Some (b, c))) as ->.
  { cbn [bad_loop fst snd]. rewrite Z.eqb_refl. cbn [negb].
    repeat match goal with
    | |- context [?x <=? ?y] => destruct (Z.leb_spec x y); try lia
    | |- context [?x <? ?y] => destruct (Z.ltb_spec x y); try lia
    end; done. }
  unfold multiple_reads, pm_bind, pm_lift. cbn -[reads_loop Z.ltb]. rewrite (proj2 (Z.ltb_lt c (a + length))) by lia.
  cbn -[_read_cached Z.ltb]. rewrite Z.sub_diag. unfold _read_cached, pm_bind, pm_get.
  by rewrite (proj2 (Z.leb_gt (CACHE_TIMEOUT m) 0)) by lia.
Qed.
