(* ===== verification/PhysicalMemory.v ===== *)
(** Model of [lophi/sensors/memory/physical.py]: the memory sensor on an FPGA card,
    spoken to over UDP with one request per chunk.  The card and the network are the
    parameter [card], which gives the datagrams that answer a request; the sensor
    discharges the laws [MemorySensor] relies on when the card answers faithfully. *)
From Stdlib Require Import Sorting.Sorted.
From S2P Require Import Prelude Struct DataStruct MemorySensor.

Definition READ_CHUNK := 7680.
Definition MAGIC_LOPHI := 0xDEADBEEF.
Definition DEFAULT_FLAGS := 0.
Definition COMMAND_READ := 0.

Record phys := Phys {
  transaction_no : Z;
  TIMED_OUT : bool;
  sock : bool;                       (* [_sock] is open *)
  connect_count : Z;
  RETRIES : Z;
  use_threading : bool;
  inbox : list (option bytes);       (* what the socket will deliver; [None]: a time-out *)
  opens : list bool                  (* whether the next attempts to open a socket succeed *)
}.

Definition set_transaction_no (x : Z) (s : phys) : phys :=
  Phys x (TIMED_OUT s) (sock s) (connect_count s) (RETRIES s) (use_threading s) (inbox s) (opens s).
Definition set_sock (x : bool) (s : phys) : phys :=
  Phys (transaction_no s) (TIMED_OUT s) x (connect_count s) (RETRIES s) (use_threading s) (inbox s) (opens s).
Definition set_connect_count (x : Z) (s : phys) : phys :=
  Phys (transaction_no s) (TIMED_OUT s) (sock s) x (RETRIES s) (use_threading s) (inbox s) (opens s).
Definition set_inbox (x : list (option bytes)) (s : phys) : phys :=
  Phys (transaction_no s) (TIMED_OUT s) (sock s) (connect_count s) (RETRIES s) (use_threading s) x (opens s).
Definition set_opens (x : list bool) (s : phys) : phys :=
  Phys (transaction_no s) (TIMED_OUT s) (sock s) (connect_count s) (RETRIES s) (use_threading s) (inbox s) x.

Section sensor.
(** The datagrams that answer a request. *)
Context (card : bytes -> list (option bytes)).
(** Rounds granted to the loop that may retry for ever. *)
Context (rounds : nat).
Abbreviation M := (PM phys).

(** [connect_count] is never reset: the line that does so follows a [return]. *)
Definition _connect : M bool := fun s =>
  if sock s then (Ret true, s) else
  match opens s with
  | false :: rest =>
      let n := connect_count s + 1 in
      let s := set_connect_count n (set_opens rest s) in
      if RETRIES s <? n then (Raise SocketError, s) else (Ret false, s)
  | _ => (Ret true, set_sock true (set_opens (tail (opens s)) s))
  end.

(** Closing the socket discards what it has not delivered. *)
Definition _disconnect : M unit := pm_modify (fun s => set_inbox [] (set_sock false s)).

(** [while not self._connect(): time.sleep(1)]; a failed attempt uses up one
    element of [opens]. *)
Fixpoint connect_loop (n : nat) : M unit :=
  match n with
  | O => pm_raise Diverges
  | S n => let! ok := _connect in if (ok : bool) then pm_ret tt else connect_loop n
  end.
Definition wait_connect : M unit := let! l := pm_get opens in connect_loop (S (length l)).

(** The assignments to the request packet, in the order of the code. *)
Definition request_fields (command address length tno : Z) (data : fval) : list (string * fval) :=
  [("MAGIC_LOPHI", FVal (SInt MAGIC_LOPHI)); ("flags", FVal (SInt DEFAULT_FLAGS));
   ("operation", FVal (SInt command));
   ("address_high", FVal (SInt (Z.shiftr address 32)));
   ("address_low", FVal (SInt (Z.land address 0xFFFFFFFF)));
   ("length", FVal (SInt length)); ("data", data); ("transaction_no", FVal (SInt tno))].

Definition _send_command (command address length : Z) (data : fval) : M unit :=
  let! tno := pm_get transaction_no in
  let! packet := pm_lift (match assign (request_fields command address length tno data)
                                  (new_struct MemoryRapidPacket) with
                          | (Ret _, d) => Ret d
                          | (Raise e, _) => Raise e
                          end) in
  pm_modify (set_transaction_no ((tno + 1) mod 0xffff)) ;!
  wait_connect ;!
  let! raw := pm_lift (__repr__ packet) in
  pm_modify (fun s => set_inbox (inbox s ++ card raw) s).

(** The next datagram: [recvfrom] raises after a time-out, the queue of the reader
    process has none. *)
Fixpoint next_datagram (l : list (option bytes)) (threading : bool) : res (bytes * list (option bytes)) :=
  match l with
  | Some d :: l => Ret (d, l)
  | None :: l => if threading then next_datagram l threading else Raise SocketTimeout
  | [] => Raise (if threading then Diverges else SocketTimeout)
  end.
Definition _read_raw_packet : M bytes :=
  let! dead := pm_get TIMED_OUT in
  if dead then pm_raise SocketTimeout else
  wait_connect ;!
  (fun s => match next_datagram (inbox s) (use_threading s) with
            | Ret (d, rest) => (Ret d, set_inbox rest s)
            | Raise e => (Raise e, set_inbox (if use_threading s then [] else tail (inbox s)) s)
            end).

Definition get_rapid_packet : M dstruct :=
  let! recv_data := _read_raw_packet in
  pm_lift (init_struct MemoryRapidPacket recv_data).

(** The loop of [_get_read_response]; every round takes a datagram off [inbox].  Both
    mismatches format the field with [%x], and the length check takes [len] of the
    payload, so that a field or payload that is [None] raises [TypeError]. *)
Fixpoint response_loop (n : nat) (length transaction_no : Z) (data : bytes) : M (option bytes) :=
  match n with
  | O => pm_raise Diverges
  | S n =>
      if length <=? zlen data then pm_ret (Some (slice_to data length)) else
      let! p := get_rapid_packet in
      let! magic := pm_lift (get_int p "MAGIC_LOPHI") in
      if negb (magic =? MAGIC_LOPHI) then pm_ret None else
      let! tno := pm_lift (get_int p "transaction_no") in
      if negb (tno =? transaction_no) then pm_ret None else
      let! op := pm_lift (get_int p "operation") in
      if negb (op =? COMMAND_READ + 2) then response_loop n length transaction_no data else
      let! d := pm_lift (of_option TypeError (payload p)) in
      response_loop n length ((transaction_no + 1) mod 0xffff) (data ++ d)
  end.
Definition _get_read_response (length : Z) (read_multiple : bool) : M (option bytes) :=
  let! tno := pm_get transaction_no in
  let! l := pm_get inbox in
  response_loop (S (List.length l)) length
    (if read_multiple then 0 else (tno - 1) mod 0xffff) [].

(** [try: m except socket.timeout: pass] *)
Definition catch_timeout {A} (m : M A) : M (option A) := fun s =>
  match m s with
  | (Ret a, s') => (Ret (Some a), s')
  | (Raise SocketTimeout, s') => (Ret None, s')
  | (Raise e, s') => (Raise e, s')
  end.

(** The attempts to read one chunk.  An answer of [None] starts over without counting
    as an attempt. *)
Fixpoint attempts (n : nat) (attempt address req_len : Z) : M bytes :=
  match n with
  | O => pm_raise Diverges
  | S n =>
      let! retries := pm_get RETRIES in
      if retries <=? attempt then
        if attempt =? retries then pm_raise SocketTimeout else pm_raise NameError
      else
      let! r := catch_timeout (
        _send_command COMMAND_READ address req_len FNone ;!
        let! tmp := _get_read_response req_len false in
        match tmp with
        | None => _disconnect ;! let! _ := _connect in pm_ret None
        | Some tmp => pm_ret (Some tmp)
        end) in
      match r with
      | None => attempts n (attempt + 1) address req_len
      | Some None => attempts n attempt address req_len
      | Some (Some tmp) => pm_ret tmp
      end
  end.

(** [while remaining_length > 0]: every round reads at least one byte. *)
Fixpoint chunk_loop (n : nat) (address remaining_length offset : Z) (rtn_data : bytes) : M bytes :=
  match n with
  | O => pm_ret rtn_data
  | S n =>
      if remaining_length <=? 0 then pm_ret rtn_data else
      let req_len := Z.min READ_CHUNK remaining_length in
      let! tmp := attempts rounds 0 (address + offset) req_len in
      chunk_loop n address (remaining_length - req_len) (offset + req_len) (rtn_data ++ tmp)
  end.

(** The requests of the threaded branch; the state of the loop is in and out. *)
Fixpoint send_all (n : nat) (address remaining_length offset : Z) : M Z :=
  match n with
  | O => pm_ret offset
  | S n =>
      if remaining_length <=? 0 then pm_ret offset else
      let req_len := Z.min READ_CHUNK remaining_length in
      _send_command COMMAND_READ (address + offset) req_len FNone ;!
      send_all n address (remaining_length - req_len) (offset + req_len)
  end.
(** The attempts of the threaded branch.  [offset] is not reset, so that a second
    attempt asks for the memory behind the range. *)
Fixpoint threaded (n : nat) (attempt address length remaining_length offset : Z) : M bytes :=
  match n with
  | O => pm_raise Diverges
  | S n =>
      let! retries := pm_get RETRIES in
      if retries <=? attempt then
        if attempt =? retries then pm_raise SocketTimeout else pm_ret []
      else
      let! offset := send_all (Z.to_nat remaining_length) address remaining_length offset in
      let! r := catch_timeout (_get_read_response length true) in
      match r with
      | None => threaded n (attempt + 1) address length 0 offset
      | Some None => _disconnect ;! let! _ := _connect in threaded n (attempt + 1) address length length offset
      | Some (Some d) => pm_ret d
      end
  end.

Definition _read_from_sensor (address length : Z) : M bytes :=
  let adjust_addr := address mod 4 in
  let address := address - adjust_addr in
  let length := length + adjust_addr in
  let adjust_len := if length mod 4 =? 0 then 0 else 4 - length mod 4 in
  let length := length + adjust_len in
  pm_modify (set_transaction_no 0) ;!
  let! threading := pm_get use_threading in
  let! retries := pm_get RETRIES in
  let! rtn_data := (if negb threading
                    then chunk_loop (Z.to_nat length) address length 0 []
                    else threaded (S (Z.to_nat retries)) 0 address length length 0) in
  pm_ret (slice rtn_data adjust_addr (length - adjust_len)).

(** ** Writing *)

(** The request of [write] has its own layout: a field [transcation_no], which is
    never set, and an address behind seven pad bytes. *)
Definition MemoryWritePacket : layout :=
  [("MAGIC_LOPHI", nI); ("transcation_no", nH); ("operation", nB);
   ("address", Fmt Network [CPad 7; CInt 8]); ("length", nI)].
Definition COMMAND_WRITE := 2.
Definition write (address : Z) (data : bytes) : M unit :=
  let! packet := pm_lift (match assign
      [("address", FVal (SInt address)); ("data", FVal (SStr data)); ("length", FVal (SInt (zlen data)));
       ("operation", FVal (SInt COMMAND_WRITE)); ("MAGIC_LOPHI", FVal (SInt MAGIC_LOPHI))]
      (new_struct MemoryWritePacket) with
    | (Ret _, d) => Ret d
    | (Raise e, _) => Raise e
    end) in
  wait_connect ;!
  let! raw := pm_lift (__repr__ packet) in
  pm_modify (fun s => set_inbox (inbox s ++ card raw) s).
End sensor.

(** * The wire format *)

Definition rapid_bytes (high op low len flags tno : Z) (data : bytes) : bytes :=
  be_split 4 MAGIC_LOPHI ++ be_split 4 high ++ be_split 4 op ++ be_split 4 low ++
  be_split 4 len ++ be_split 4 flags ++ be_split 4 tno ++ data.
(** What [_send_command] puts on the wire. *)
Definition request (op address len tno : Z) : bytes :=
  rapid_bytes (Z.shiftr address 32) op (Z.land address 0xFFFFFFFF) len DEFAULT_FLAGS tno [].

Lemma address_words a : 0 <= a < 2 ^ 64 ->
  0 <= Z.shiftr a 32 < 2 ^ 32 /\ 0 <= Z.land a 0xFFFFFFFF < 2 ^ 32.
Proof.
  intros Ha. rewrite Z.shiftr_div_pow2 by lia. change 0xFFFFFFFF with (Z.ones 32).
  rewrite Z.land_ones by lia. split; [|apply Z.mod_pos_bound; lia].
  split; [apply Z.div_pos; lia|apply Z.div_lt_upper_bound; lia].
Qed.

Lemma rapid_layout_ok : layout_ok MemoryRapidPacket = true.
Proof. reflexivity. Qed.
Lemma rapid_consistent : consistent (new_struct MemoryRapidPacket).
Proof. apply new_struct_consistent. apply (bool_decide_unpack _). reflexivity. Qed.

Lemma rapid_assignable k z :
  k ∈ MemoryRapidPacket.*1 -> 0 <= z < 2 ^ 32 -> assignable MemoryRapidPacket (k, FVal (SInt z)).
Proof.
  intros Hk Hz. left. exists nI, (be_split 4 z). split; [|by apply pack_word].
  apply list_elem_of_fmap in Hk as ([k' f] & -> & Hin). cbn.
  assert (Forall (fun kf => kf.2 = nI) MemoryRapidPacket) as Hall by (repeat constructor).
  rewrite Forall_forall in Hall. by rewrite <- (Hall _ Hin) at 1.
Qed.


Lemma request_ok op address len tno :
  0 <= op < 2 ^ 32 -> 0 <= address < 2 ^ 64 -> 0 <= len < 2 ^ 32 -> 0 <= tno < 2 ^ 32 ->
  exists d, assign (request_fields op address len tno FNone) (new_struct MemoryRapidPacket) = (Ret tt, d) /\
    __repr__ d = Ret (request op address len tno).
Proof.
  intros Hop Ha Hl Ht. destruct (address_words address Ha) as [Hh Hlo].
  destruct (assign_keeps (request_fields op address len tno FNone) (new_struct MemoryRapidPacket))
    as (d & Hd & (raw & Hraw & Hpack) & HS & Hdict); [done|apply rapid_consistent| |].
  { unfold request_fields. repeat (apply Forall_cons; split); [..|constructor];
      first [ apply rapid_assignable; [apply (bool_decide_unpack _); reflexivity
                                      |unfold MAGIC_LOPHI, DEFAULT_FLAGS; lia]
            | right; apply (bool_decide_unpack _); reflexivity ]. }
  exists d. split; [done|]. unfold __repr__, payload. rewrite Hraw, Hdict.
  rewrite HS, Hdict in Hpack. cbn [new_struct STRUCT dict] in *. unfold request_fields in *.
  cbn [MemoryRapidPacket pack_loop] in Hpack.
  assert (forall m, (insert_all m (request_fields op address len tno FNone)) !! "data" = Some FNone) as Hdata.
  { intros m. unfold request_fields. key_lookup. done. }
  unfold request_fields in Hdata. rewrite Hdata. cbn [of_option res_bind default].
  revert Hpack. key_lookup. rewrite !pack_word by (unfold MAGIC_LOPHI, DEFAULT_FLAGS; lia).
  intros Hpack%(f_equal snd). cbn [snd] in Hpack. subst raw. unfold request, rapid_bytes.
  by rewrite <- !app_assoc, !app_nil_r.
Qed.


Lemma rapid_decode high op low len flags tno data :
  0 <= high < 2 ^ 32 -> 0 <= op < 2 ^ 32 -> 0 <= low < 2 ^ 32 -> 0 <= len < 2 ^ 32 ->
  0 <= flags < 2 ^ 32 -> 0 <= tno < 2 ^ 32 -> data <> [] ->
  exists p, init_struct MemoryRapidPacket (rapid_bytes high op low len flags tno data) = Ret p /\
    get_int p "MAGIC_LOPHI" = Ret MAGIC_LOPHI /\ get_int p "transaction_no" = Ret tno /\
    get_int p "operation" = Ret op /\ payload p = Some data.
Proof.
  intros Hh Ho Hl Hn Hf Ht Hdata.
  set (hd := be_split 4 MAGIC_LOPHI ++ be_split 4 high ++ be_split 4 op ++ be_split 4 low ++
             be_split 4 len ++ be_split 4 flags ++ be_split 4 tno).
  assert (rapid_bytes high op low len flags tno data = hd ++ data) as ->
    by (unfold rapid_bytes, hd; by rewrite <- !app_assoc).
  assert (length hd = 28%nat) as Hhd by (unfold hd; by rewrite !length_app, !length_be_split).
  assert (0 < length data)%nat as Hpos by (destruct data; [done|cbn; lia]).
  rewrite init_struct_decode by (rewrite length_app, Hhd; change (layout_size _) with 28%nat; lia).
  eexists. split; [reflexivity|]. change (layout_size MemoryRapidPacket) with 28%nat.
  rewrite (proj2 (Nat.ltb_lt _ _)) by (rewrite length_app; lia).
  destruct (take_drop_app hd data 28 Hhd) as [-> ->].
  assert (decode MemoryRapidPacket hd = [("MAGIC_LOPHI", FVal (SInt MAGIC_LOPHI));
    ("address_high", FVal (SInt high)); ("operation", FVal (SInt op)); ("address_low", FVal (SInt low));
    ("length", FVal (SInt len)); ("flags", FVal (SInt flags)); ("transaction_no", FVal (SInt tno))]) as ->.
  { unfold hd. rewrite <- (app_nil_r (be_split 4 tno)).
    cbn [decode MemoryRapidPacket nI f_order f_codes unpack_codes fval_of int_combine calcsize
         sum_list_with code_size Nat.add].
    do 7 (rewrite (proj1 (take_word _ _)), ?(proj2 (take_word _ _)), be_combine_split
            by (apply word_bound; unfold MAGIC_LOPHI; lia)). done. }
  unfold get_int, getattr, payload. cbn [dict]. key_lookup. done.
Qed.

(** * Reading from a faithful card *)

Section faithful.
Context (card : bytes -> list (option bytes)) (memory : Z -> Z) (lim : Z) (rounds : nat).
(** The card answers each read request with one datagram: the request's transaction
    number and the bytes it asked for. *)
Definition card_ok : Prop := forall a n tno,
  0 <= a -> 0 < n <= READ_CHUNK -> a + n <= lim -> 0 <= tno < 0xffff ->
  exists high low flags, 0 <= high < 2 ^ 32 /\ 0 <= low < 2 ^ 32 /\ 0 <= flags < 2 ^ 32 /\
  card (request COMMAND_READ a n tno) =
    [Some (rapid_bytes high (COMMAND_READ + 2) low n flags tno (mem_range memory a n))].
Context (Hcard : card_ok) (Hlim : lim mod 4 = 0 /\ lim <= 2 ^ 64) (Hrounds : (0 < rounds)%nat).

(** Sockets can be opened, nothing is waiting and the sensor has not been given up. *)
Record ready (s : phys) : Prop := {
  rd_alive : TIMED_OUT s = false;
  rd_opens : opens s = [];
  rd_tno : 0 <= transaction_no s < 0xffff;
  rd_retries : 0 < RETRIES s
}.

Lemma wait_connect_ready s : opens s = [] -> wait_connect s = (Ret tt, set_sock true s).
Proof.
  intros Ho. unfold wait_connect, pm_bind, pm_get. rewrite Ho. cbn. unfold pm_bind, _connect.
  destruct s as [? ? [] ? ? ? ? ?]; cbn in *; subst; done.
Qed.

Definition after_send (s : phys) : phys :=
  set_sock true (set_transaction_no ((transaction_no s + 1) mod 0xffff) s).
Lemma send_spec s a n :
  ready s -> 0 <= a < 2 ^ 64 -> 0 < n <= READ_CHUNK ->
  _send_command card COMMAND_READ a n FNone s = (Ret tt,
    set_inbox (inbox s ++ card (request COMMAND_READ a n (transaction_no s))) (after_send s)).
Proof.
  intros [? Ho Ht ?] Ha Hn. unfold _send_command. unfold pm_bind at 1, pm_get at 1.
  destruct (request_ok COMMAND_READ a n (transaction_no s)) as (d & Hd & Hrepr);
    [unfold COMMAND_READ; lia|done|unfold READ_CHUNK in *; lia|lia|].
  unfold pm_bind, pm_lift, pm_modify. rewrite Hd. rewrite wait_connect_ready by done.
  by rewrite Hrepr.
Qed.

Lemma get_rapid_packet_spec s d rest p :
  TIMED_OUT s = false -> opens s = [] -> inbox s = Some d :: rest ->
  init_struct MemoryRapidPacket d = Ret p ->
  get_rapid_packet s = (Ret p, set_inbox rest (set_sock true s)).
Proof.
  intros Ht Ho Hi Hp. unfold get_rapid_packet, _read_raw_packet, pm_bind, pm_get, pm_lift.
  rewrite Ht, wait_connect_ready by done. cbn [inbox set_sock]. rewrite Hi. cbn. by rewrite Hp.
Qed.

(** One round of the response loop on a good datagram. *)
Lemma response_step fuel s rest length tno data high low n flags d :
  TIMED_OUT s = false -> opens s = [] -> zlen data < length -> d <> [] ->
  0 <= high < 2 ^ 32 -> 0 <= low < 2 ^ 32 -> 0 <= flags < 2 ^ 32 -> 0 <= n < 2 ^ 32 ->
  0 <= tno < 0xffff ->
  inbox s = Some (rapid_bytes high (COMMAND_READ + 2) low n flags tno d) :: rest ->
  response_loop (S fuel) length tno data s =
    response_loop fuel length ((tno + 1) mod 0xffff) (data ++ d) (set_inbox rest (set_sock true s)).
Proof.
  intros Ht Ho Hlen Hd Hh Hl Hf Hn Htno Hi. cbn [response_loop].
  rewrite (proj2 (Z.leb_gt length (zlen data))) by lia.
  destruct (rapid_decode high (COMMAND_READ + 2) low n flags tno d)
    as (p & Hp & Hm & Htn & Hop & Hpay); [done|unfold COMMAND_READ; lia|done..|lia|done|].
  unfold pm_bind at 1. erewrite get_rapid_packet_spec by done.
  unfold pm_bind, pm_lift. rewrite Hm, Z.eqb_refl, Htn. cbn [negb]. rewrite Z.eqb_refl, Hop.
  cbn [negb]. rewrite Z.eqb_refl. cbn [negb]. by rewrite Hpay.
Qed.

Lemma slice_to_all {A} (l : list A) : slice_to l (zlen l) = l.
Proof. unfold slice_to. rewrite clamp_nonneg by apply zlen_nonneg. rewrite take_ge; [done|unfold zlen; lia]. Qed.
Lemma response_end fuel s length tno data :
  zlen data = length -> response_loop (S fuel) length tno data s = (Ret (Some data), s).
Proof. intros <-. cbn [response_loop]. by rewrite Z.leb_refl, slice_to_all. Qed.

Lemma mem_range_nonempty a n : 0 < n -> mem_range memory a n <> [].
Proof. intros Hn E. apply (f_equal zlen) in E. rewrite zlen_mem_range, zlen_nil in E; lia. Qed.

Lemma attempts_spec s a n :
  ready s -> inbox s = [] -> 0 <= a -> 0 < n <= READ_CHUNK -> a + n <= lim ->
  exists s', attempts card rounds 0 a n s = (Ret (mem_range memory a n), s') /\ ready s' /\
    inbox s' = [] /\ use_threading s' = use_threading s.
Proof.
  intros Hr Hi Ha Hn Hl. pose proof Hr as [Ht Ho Htno Hre].
  destruct (Hcard a n (transaction_no s)) as (high & low & flags & Hh & Hlo & Hf & Hc); [done..|].
  assert (exists r, rounds = S r) as [r Er] by (exists (pred rounds); lia).
  rewrite Er. cbn [attempts]. unfold pm_bind at 1, pm_get at 1.
  rewrite (proj2 (Z.leb_gt (RETRIES s) 0)) by lia. unfold pm_bind at 1, catch_timeout, pm_bind at 1.
  rewrite send_spec by (done || lia). rewrite Hi, Hc. unfold _get_read_response, pm_get, pm_bind at 1 2 3.
  cbn [inbox set_inbox app length transaction_no after_send set_sock set_transaction_no].
  replace (((transaction_no s + 1) mod 0xffff - 1) mod 0xffff) with (transaction_no s)
    by (rewrite Zminus_mod_idemp_l, Z.add_simpl_r, Z.mod_small; lia).
  rewrite (response_step _ _ [] n (transaction_no s) [] high low n flags (mem_range memory a n))
    by first [done | rewrite zlen_nil; lia | apply mem_range_nonempty; lia | unfold READ_CHUNK in *; lia].
  rewrite response_end by (rewrite zlen_app, zlen_nil, zlen_mem_range; lia).
  eexists. split; [reflexivity|]. split; [|done]. split; cbn; try done.
  apply Z.mod_pos_bound. lia.
Qed.

Lemma mem_range_app a n k : 0 <= n -> 0 <= k ->
  mem_range memory a n ++ mem_range memory (a + n) k = mem_range memory a (n + k).
Proof.
  intros Hn Hk. unfold mem_range. rewrite <- fmap_app. f_equal. rewrite seqZ_app by lia. done.
Qed.

Lemma chunk_loop_spec fuel : forall s a remaining offset rtn,
  ready s -> inbox s = [] -> 0 <= a + offset -> 0 <= remaining -> a + offset + remaining <= lim ->
  (Z.to_nat remaining <= fuel)%nat ->
  exists s', chunk_loop card rounds fuel a remaining offset rtn s =
    (Ret (rtn ++ mem_range memory (a + offset) remaining), s') /\ ready s' /\ inbox s' = [] /\
    use_threading s' = use_threading s.
Proof.
  induction fuel as [|fuel IH]; intros s a remaining offset rtn Hr Hi Ha Hrem Hl Hf.
  { assert (remaining = 0) as -> by lia. exists s. cbn. by rewrite app_nil_r. }
  cbn [chunk_loop]. destruct (Z.leb_spec remaining 0).
  { assert (remaining = 0) as -> by lia. exists s. cbn. by rewrite app_nil_r. }
  assert (0 < Z.min READ_CHUNK remaining <= READ_CHUNK) as Hreq by (unfold READ_CHUNK in *; lia).
  destruct (attempts_spec s (a + offset) (Z.min READ_CHUNK remaining)) as (s1 & H1 & Hr1 & Hi1 & Hu1);
    [done..|lia|]. unfold pm_bind at 1. rewrite H1.
  destruct (IH s1 a (remaining - Z.min READ_CHUNK remaining) (offset + Z.min READ_CHUNK remaining)
              (rtn ++ mem_range memory (a + offset) (Z.min READ_CHUNK remaining)))
    as (s' & H' & Hr' & Hi' & Hu'); [done|done|lia..|].
  exists s'. rewrite H'. split; [|split; [done|split; [done|congruence]]].
  rewrite <- app_assoc, Z.add_assoc, mem_range_app by lia. do 4 f_equal. lia.
Qed.

Lemma mem_range_slice a n i k :
  0 <= i -> 0 <= k -> i + k <= n -> slice (mem_range memory a n) i (i + k) = mem_range memory (a + i) k.
Proof.
  intros Hi Hk Hn. replace n with (i + (k + (n - i - k))) by lia.
  rewrite <- !mem_range_app by lia. unfold slice.
  rewrite !clamp_nonneg by lia. rewrite !zlen_app, !zlen_mem_range by lia.
  replace (Z.to_nat (Z.min i (i + (k + (n - i - k))))) with (length (mem_range memory a i))
    by (pose proof (zlen_mem_range memory a i Hi); unfold zlen in *; lia).
  rewrite drop_app_length. apply take_app_length'.
  pose proof (zlen_mem_range memory (a + i) k Hk). pose proof (zlen_mem_range memory a i Hi).
  unfold zlen in *. lia.
Qed.

Lemma phys_read_spec s a n :
  ready s -> inbox s = [] -> use_threading s = false -> 0 <= a -> 0 < n -> a + n <= lim ->
  exists s', _read_from_sensor card rounds a n s = (Ret (mem_range memory a n), s') /\ ready s' /\
    inbox s' = [] /\ use_threading s' = false.
Proof.
  intros Hr Hi Hth Ha Hn Hl. unfold _read_from_sensor.
  set (x := a mod 4). set (n1 := n + x).
  set (y := if n1 mod 4 =? 0 then 0 else 4 - n1 mod 4).
  assert (0 <= x < 4) as Hx by (apply Z.mod_pos_bound; lia).
  assert (0 <= y < 4 /\ (n1 + y) mod 4 = 0) as [Hy Hmod].
  { subst y. pose proof (Z.mod_pos_bound n1 4). destruct (Z.eqb_spec (n1 mod 4) 0); [by rewrite Z.add_0_r|].
    split; [lia|]. pose proof (Z.div_mod n1 4). symmetry.
    apply Z.mod_unique with (q := n1 / 4 + 1); lia. }
  assert ((a - x) mod 4 = 0) as Ham by (subst x; rewrite Zminus_mod_idemp_r, Z.sub_diag; done).
  assert (a - x + (n1 + y) <= lim) as Hlim'.
  { destruct Hlim as [Hm _]. pose proof (Z.div_mod lim 4). pose proof (Z.div_mod (a - x) 4).
    pose proof (Z.div_mod (n1 + y) 4). lia. }
  unfold pm_bind, pm_modify, pm_get. cbn [use_threading set_transaction_no]. rewrite Hth. cbn [negb].
  destruct (chunk_loop_spec (Z.to_nat (n1 + y)) (set_transaction_no 0 s) (a - x) (n1 + y) 0 [])
    as (s' & H' & Hr' & Hi' & Hu'); [by destruct Hr; split|done|pose proof (Z.mod_le a 4); lia..|].
  rewrite H'. exists s'. split; [|by rewrite Hu']. cbn [app]. unfold pm_ret. do 2 f_equal.
  replace (n1 + y - y) with (x + n) by lia. rewrite mem_range_slice by lia.
  f_equal. lia.
Qed.
End faithful.

(** * The physical memory sensor as a [Sensor] *)

#[export] Instance phys_sensor card rounds : Sensor phys := {
  sensor_now _ := 0;
  sensor_read a n := let! d := _read_from_sensor card rounds a n in pm_ret (Some d)
}.

Definition phys_ok (s : phys) : Prop := ready s /\ inbox s = [] /\ use_threading s = false.

Lemma phys_laws card memory lim rounds :
  card_ok card memory lim -> lim mod 4 = 0 /\ lim <= 2 ^ 64 -> (0 < rounds)%nat ->
  @SensorLaws phys (phys_sensor card rounds) (fun _ => memory) lim phys_ok.
Proof.
  intros Hc Hl Hr. split. intros s a n (Hs & Hi & Ht) Ha Hn Hlim.
  destruct (phys_read_spec card memory lim rounds Hc Hl Hr s a n) as (s' & H' & Hs' & Hi' & Ht'); [done..|].
  exists 0, s'. split; [unfold sensor_read, phys_sensor, pm_bind; by rewrite H'|]. done.
Qed.

(** [MemorySensorPhysical.BAD_MEM_REGIONS], in the order of the source. *)
Definition default_regions : list (Z * Z) :=
  [(0xA0000, 0x100000); (0x7fe00000, 0x80000000); (0xdbf00000, 0x100000000); (0x3ff00000, 0x40000000)].

Lemma default_regions_nonempty : Forall (fun r => r.1 < r.2) default_regions.
Proof. repeat constructor. Qed.

Lemma separated_2 r r' : r.1 < r.2 -> r'.1 < r'.2 -> r.2 < r'.1 -> separated [r; r'].
Proof. intros. split; repeat constructor; done. Qed.
Lemma separated_1 r : r.1 < r.2 -> separated [r].
Proof. intros. split; repeat constructor; done. Qed.
Lemma separated_0 : separated [].
Proof. split; constructor. Qed.

(** A read on one side of the third gigabyte meets regions that are in order. *)
Lemma default_regions_separated a n :
  a + n <= 0x7fe00000 \/ 0x40000000 <= a -> separated (filter (touches a n) default_regions).
Proof.
  intros Hside. unfold default_regions. rewrite !filter_cons, filter_nil.
  repeat match goal with |- context [decide (touches a n ?r)] =>
    destruct (decide (touches a n r)) as [[??]|] end; cbn [fst snd] in *;
  first [ apply separated_0 | by apply separated_1 | by apply separated_2 | lia ].
Qed.

Section default_machine.
Context (card : bytes -> list (option bytes)) (memory : Z -> Z) (lim : Z) (rounds : nat).
Abbreviation read := (@read phys (phys_sensor card rounds)).


(** The regions the class declares are not in order, though [read] assumes it:
    a cached read that starts below the hole at [0x3ff00000] and ends above 2 GB plans
    a read of negative length and returns [None]. *)
Theorem default_regions_out_of_order m address length :
  card_ok card memory lim -> lim mod 4 = 0 /\ lim <= 2 ^ 64 -> (0 < rounds)%nat ->
  phys_ok (dev m) -> cache m = ∅ -> 0 < CACHE_TIMEOUT m -> BAD_MEM_REGIONS m = default_regions ->
  0x100000 <= address < 0x3ff00000 -> 0x80000000 < address + length <= 0xdbf00000 ->
  0x80000000 + CACHE_CHUNK <= lim ->
  (read address length m).1 = Ret None.
Proof.
  intros Hc Hl Hr Hok Hca Hto Hbads Ha Hlen Hlim.
  pose proof (phys_laws card memory lim rounds Hc Hl Hr) as Hlaws.
  unfold MemorySensor.read, pm_bind at 1, pm_get. rewrite Hbads.
  assert (bad_loop address length default_regions [] None =
    Some ([(address, 0x7fe00000); (0x80000000, 0x3ff00000)], Some (0x3ff00000, 0x40000000))) as ->.
  { cbn [bad_loop default_regions fst snd].
    repeat match goal with
    | |- context [?x <=? ?y] => destruct (Z.leb_spec x y); try lia
    | |- context [?x <? ?y] => destruct (Z.ltb_spec x y); try lia
    | |- context [?x =? ?y] => destruct (Z.eqb_spec x y); try lia
    end; done. }
  unfold multiple_reads, pm_bind, pm_lift. cbn -[reads_loop Z.ltb].
  rewrite (proj2 (Z.ltb_lt _ (address + length))) by lia. cbn [py_index app].
  change (py_index ((address, 2145386496) :: ?l) 0) with (@Ret (Z * Z) (address, 2145386496)).
  cbn [fst]. rewrite Z.ltb_irrefl.
  destruct (@read_cached_spec phys (phys_sensor card rounds) (fun _ => memory) lim phys_ok Hlaws m
              address (0x7fe00000 - address))
    as (d & m1 & Hrd & Hl1 & Hz & _); [|lia..|unfold CACHE_CHUNK in *; lia|].
  { split; [done|]. intros i e. by rewrite Hca, lookup_empty. }
  cbn [reads_loop fst snd]. unfold pm_bind at 1. rewrite Hrd.
  rewrite (proj2 (Z.eqb_neq (zlen d) 0)) by lia.
  unfold pm_bind at 1, _read_cached, pm_bind at 1, pm_get. rewrite (la_timeout _ _ _ _ Hl1).
  by rewrite (proj2 (Z.leb_gt (CACHE_TIMEOUT m) 0)) by lia.
Qed.
End default_machine.

(** ** A card *)

Definition word (i : nat) (raw : bytes) : Z := be_combine (take 4 (drop (4 * i) raw)).
(** A card over [memory] that answers every request with the bytes it names. *)
Definition memory_card (memory : Z -> Z) (raw : bytes) : list (option bytes) :=
  let address := Z.lor (Z.shiftl (word 1 raw) 32) (word 3 raw) in
  [Some (rapid_bytes (word 1 raw) (COMMAND_READ + 2) (word 3 raw) (word 4 raw) 0 (word 6 raw)
           (mem_range memory address (word 4 raw)))].

Lemma word_0 z rest : 0 <= z < 2 ^ 32 -> word 0 (be_split 4 z ++ rest) = z.
Proof.
  intros Hz. unfold word. rewrite drop_0, (proj1 (take_word z rest)).
  by apply be_combine_split, word_bound.
Qed.
Lemma word_S i z rest : word (S i) (be_split 4 z ++ rest) = word i rest.
Proof.
  unfold word. replace (4 * S i)%nat with (4 + 4 * i)%nat by lia.
  by rewrite <- drop_drop, (proj2 (take_word z rest)).
Qed.
Lemma join_address a : 0 <= a -> Z.lor (Z.shiftl (Z.shiftr a 32) 32) (Z.land a 0xFFFFFFFF) = a.
Proof.
  intros Ha. change 0xFFFFFFFF with (Z.ones 32). rewrite <- Z.ldiff_ones_r by lia.
  rewrite Z.lor_comm. apply Z.bits_inj'. intros n Hn.
  rewrite Z.lor_spec, Z.land_spec, Z.ldiff_spec. by destruct (Z.testbit a n), (Z.testbit (Z.ones 32) n).
Qed.

Lemma request_words a n tno :
  0 <= a < 2 ^ 64 -> 0 <= n < 2 ^ 32 -> 0 <= tno < 2 ^ 32 ->
  let r := request COMMAND_READ a n tno in
  word 1 r = Z.shiftr a 32 /\ word 3 r = Z.land a 0xFFFFFFFF /\ word 4 r = n /\ word 6 r = tno.
Proof.
  intros Ha Hn Ht. destruct (address_words a Ha) as [Hh Hl]. cbn zeta. unfold request, rapid_bytes.
  rewrite !word_S, !word_0 by done. done.
Qed.

Lemma memory_card_ok memory lim : lim <= 2 ^ 64 -> card_ok (memory_card memory) memory lim.
Proof.
  intros Hlim a n tno Ha Hn Hl Ht. unfold READ_CHUNK in *.
  destruct (request_words a n tno) as (H1 & H3 & H4 & H6); [lia..|].
  destruct (address_words a) as [Hh Hlo]; [lia|].
  exists (Z.shiftr a 32), (Z.land a 0xFFFFFFFF), 0. split_and!; try lia.
  unfold memory_card. by rewrite H1, H3, H4, H6, join_address.
Qed.

Definition example_memory (x : Z) : Z := x mod 251.
Definition example_phys : phys := Phys 1 false false 0 5 false [] [].
Definition example_sensor (timeout : Z) : msensor phys :=
  MSensor example_phys ∅ ∅ timeout default_regions.
Lemma example_phys_ok : phys_ok example_phys.
Proof. split_and!; [by split|done..]. Qed.


Lemma default_regions_out_of_order_witness :
  (@read phys (phys_sensor (memory_card example_memory) 1) 0x3fe00000 0x41000000
     (example_sensor 5)).1 = Ret None.
Proof.
  apply (default_regions_out_of_order (memory_card example_memory) example_memory (2 ^ 40) 1);
    [apply memory_card_ok; lia|by split|lia|apply example_phys_ok|done|cbn; lia|done|lia|lia
    |unfold CACHE_CHUNK; lia].
Defined.

Lemma read_recent_memory_witness :
  exists d m', @read phys (phys_sensor (memory_card example_memory) 1) 0x9fffd 6 (example_sensor 5) =
      (Ret (Some d), m') /\ @cache_inv phys (phys_sensor (memory_card example_memory) 1) (fun _ => example_memory) phys_ok m' /\
    zlen d = 6 /\
    bytes_at (fun x b => if decide (is_bad default_regions x) then b = 0
      else exists t, 0 - Z.max 0 5 <= t <= 0 /\ b = example_memory x) 0x9fffd d.
Proof.
  apply (@read_recent_memory phys (phys_sensor (memory_card example_memory) 1)
           (fun _ => example_memory) (2 ^ 40) phys_ok
           (phys_laws _ _ _ 1 (memory_card_ok example_memory (2 ^ 40) ltac:(lia)) ltac:(by split) ltac:(lia))
           (example_sensor 5)).
  - split; [apply example_phys_ok|]. intros i e. cbn [cache example_sensor]. by rewrite lookup_empty.
  - apply default_regions_nonempty.
  - apply default_regions_separated. by left.
  - lia.
  - lia.
  - unfold CACHE_CHUNK. lia.
Defined.

Lemma adjacent_holes_read_nothing_witness :
  (@read phys (phys_sensor (memory_card example_memory) 1) 16 48
     (MSensor example_phys ∅ ∅ 5 [(16, 32); (32, 48)])).1 = Ret None.
Proof.
  apply (@adjacent_holes_read_nothing phys (phys_sensor (memory_card example_memory) 1) _ 16 32 48 48);
    [cbn; lia|done|lia|lia].
Defined.
