(* ===== verification/VirtualMemory.v ===== *)
(** Model of [lophi/sensors/memory/virtual.py]: the memory sensor of a virtual machine,
    spoken to over a stream socket of the hypervisor.  The hypervisor is the parameter
    [guest], which gives the bytes that answer a request at a moment; how the stream
    cuts them into pieces is part of the state.  The sensor discharges the laws that
    [MemorySensor] relies on, over memory that changes between requests. *)
From Stdlib Require Import Sorting.Sorted.
From S2P Require Import Prelude Struct DataStruct MemorySensor.

Definition CMD_READ := 1.
Definition CMD_WRITE := 2.

(** [SOCK]: [None], a socket whose [connect] failed, or a connected one. *)
Inductive socket := NoSock | Unconnected | Connected.
(** An attempt to connect: the monitor command fails, [connect] raises, or all is well. *)
Inductive outcome := QmpFails | ConnectFails | Connects.

Record virt := Virt {
  SOCK : socket;
  stream : bytes;            (* sent by the hypervisor and not yet received *)
  hup : bool;                (* the hypervisor has closed the connection *)
  timed : bool;              (* the socket has a time-out *)
  attempts : list outcome;   (* of the next calls that connect; then [Connects] *)
  pieces : list nat;         (* the most the next calls of [recv] deliver; then all *)
  hangups : list bool;       (* whether the next requests close the connection; then not *)
  delays : list nat;         (* how long the next requests take; then nothing *)
  clock : Z                  (* the time *)
}.
Definition set_SOCK (x : socket) (s : virt) : virt :=
  Virt x (stream s) (hup s) (timed s) (attempts s) (pieces s) (hangups s) (delays s) (clock s).
Definition set_stream (x : bytes) (s : virt) : virt :=
  Virt (SOCK s) x (hup s) (timed s) (attempts s) (pieces s) (hangups s) (delays s) (clock s).
Definition set_hup (x : bool) (s : virt) : virt :=
  Virt (SOCK s) (stream s) x (timed s) (attempts s) (pieces s) (hangups s) (delays s) (clock s).
Definition settimeout (x : bool) (s : virt) : virt :=
  Virt (SOCK s) (stream s) (hup s) x (attempts s) (pieces s) (hangups s) (delays s) (clock s).
Definition set_attempts (x : list outcome) (s : virt) : virt :=
  Virt (SOCK s) (stream s) (hup s) (timed s) x (pieces s) (hangups s) (delays s) (clock s).
Definition set_pieces (x : list nat) (s : virt) : virt :=
  Virt (SOCK s) (stream s) (hup s) (timed s) (attempts s) x (hangups s) (delays s) (clock s).
Definition set_hangups (x : list bool) (s : virt) : virt :=
  Virt (SOCK s) (stream s) (hup s) (timed s) (attempts s) (pieces s) x (delays s) (clock s).
Definition tick (s : virt) : virt :=
  Virt (SOCK s) (stream s) (hup s) (timed s) (attempts s) (pieces s) (hangups s) (tail (delays s))
    (clock s + Z.of_nat (default 0%nat (head (delays s)))).

Section sensor.
Context (guest : Z -> bytes -> bytes).
Abbreviation M := (PM virt).

(** A socket whose [connect] failed is kept, and the next call takes it for connected. *)
Definition _connect : M bool := fun s =>
  match SOCK s with
  | Unconnected | Connected => (Ret true, s)
  | NoSock =>
      let s' := set_attempts (tail (attempts s)) s in
      match head (attempts s) with
      | Some QmpFails => (Ret false, s')
      | Some ConnectFails => (Ret false, settimeout false (set_SOCK Unconnected s'))
      | Some Connects | None => (Ret true, settimeout false (set_hup false (set_stream [] (set_SOCK Connected s'))))
      end
  end.

Definition _disconnect : M unit := pm_modify (fun s => set_stream [] (set_SOCK NoSock s)).

(** [SOCK.send] *)
Definition send (raw : bytes) : M unit := fun s =>
  match SOCK s with
  | NoSock => (Raise AttributeError, s)
  | Unconnected => (Raise SocketError, s)
  | Connected =>
      if hup s then (Raise SocketError, s) else
      let s' := tick (set_hangups (tail (hangups s)) s) in
      if default false (head (hangups s)) then (Ret tt, set_hup true s')
      else (Ret tt, set_stream (stream s ++ guest (clock s) raw) s')
  end.

(** [SOCK.recv(n)]: at least one byte when there is one, nothing after the end of the
    stream; otherwise it waits. *)
Definition recv (n : Z) : M bytes := fun s =>
  match SOCK s with
  | NoSock => (Raise AttributeError, s)
  | Unconnected => (Raise SocketError, s)
  | Connected =>
      match stream s with
      | [] => if hup s then (Ret [], s) else (Raise (if timed s then SocketTimeout else Diverges), s)
      | _ =>
          let k := match pieces s with
                   | p :: _ => Nat.min (Nat.max 1 p) (Z.to_nat n)
                   | [] => Z.to_nat n
                   end in
          (Ret (take k (stream s)), set_pieces (tail (pieces s)) (set_stream (drop k (stream s)) s))
      end
  end.

(** [while len(read) < read_len+1]: the bytes read, and whether the loop ended without
    an exception.  Every round delivers a byte unless the stream has ended, after which
    the loop never ends. *)
Fixpoint receive (fuel : nat) (read_len : Z) (read : bytes) : M (bytes * bool) :=
  match fuel with
  | O => pm_raise Diverges
  | S fuel =>
      if read_len + 1 <=? zlen read then pm_ret (read, true) else fun s =>
      match recv (read_len + 1 - zlen read) s with
      | (Ret d, s') =>
          let read := read ++ d in
          receive fuel read_len
            (if bool_decide (read = [0xff]) then py_repeat 0xff read_len ++ [0x01] else read)
            (settimeout false s')
      | (Raise Diverges, s') => (Raise Diverges, s')
      | (Raise _, s') => (Ret (read, false), s')
      end
  end.

(** The body of [try]: send the request and receive the answer. *)
Definition exchange (raw : bytes) (read_len : Z) : M (bytes * bool) := fun s =>
  match send raw (settimeout true s) with
  | (Ret _, s') => receive (S (Z.to_nat (read_len + 1))) read_len [] s'
  | (Raise _, s') => (Ret ([], false), s')
  end.

(** [for retry in range(3)], which nothing leaves early: the request is sent [n] times
    and the last answer counts.  [None] when there is no connection. *)
Fixpoint retries (n : nat) (raw : bytes) (read_len : Z) (read : bytes) : M (option bytes) :=
  match n with
  | O => pm_ret (Some read)
  | S n =>
      let! connected := _connect in
      if negb connected then pm_ret None else
      let! r := exchange raw read_len in
      (if r.2 : bool then pm_ret tt else _disconnect) ;!
      retries n raw read_len r.1
  end.

Definition request_fields (type address length : Z) (data : option bytes) : list (string * fval) :=
  [("type", FVal (SInt type)); ("address", FVal (SInt address)); ("length", FVal (SInt length))]
  ++ match data with Some d => [("data", FVal (SStr d))] | None => [] end.
Definition make_request (type address length : Z) (data : option bytes) : res bytes :=
  match assign (request_fields type address length data) (new_struct KvmMemRequest) with
  | (Ret _, d) => __repr__ d
  | (Raise e, _) => Raise e
  end.

(** The status byte is a string and never equals the number 0 it is compared with. *)
Definition _read_from_sensor (address read_len : Z) : M (option bytes) :=
  let! raw := pm_lift (make_request CMD_READ address read_len None) in
  let! r := retries 3 raw read_len [] in
  match r with
  | None => pm_ret None
  | Some read =>
      if negb (zlen read =? read_len + 1) then pm_ret None else
      let! status := pm_lift (py_index read (-1)) in
      pm_ret (Some (slice_to read (-1)))
  end.

(** [Some true] and [Some false] are [True] and [False]. *)
Definition write (address : Z) (data : bytes) : M (option bool) :=
  let! connected := _connect in
  if negb connected then pm_ret (Some false) else
  let! raw := pm_lift (make_request CMD_WRITE address (zlen data) (Some data)) in
  fun s =>
    match (send raw ;! recv 1) s with
    | (Ret status, s') => (Ret (Some (negb (bool_decide (status = [0x00])))), s')
    | (Raise Diverges, s') => (Raise Diverges, s')
    | (Raise _, s') => (_disconnect ;! pm_ret None) s'
    end.
End sensor.

(** * The wire format *)

Definition kvm_request (type address length : Z) : bytes :=
  le_split 8 type ++ le_split 8 address ++ le_split 8 length.

Lemma pack_quad z : 0 <= z < 2 ^ 64 -> pack_field fQ (FVal (SInt z)) = Ret (le_split 8 z).
Proof.
  intros Hz. assert (0 <= z < 256 ^ Z.of_nat 8) as Hz' by done.
  unfold pack_field, pack. cbn -[Z.pow le_split].
  replace (_ && _) with true by (symmetry; apply andb_true_iff; rewrite Z.leb_le, Z.ltb_lt; lia).
  cbn -[le_split]. by rewrite app_nil_r.
Qed.
Lemma kvm_assignable k z :
  k ∈ KvmMemRequest.*1 -> 0 <= z < 2 ^ 64 -> assignable KvmMemRequest (k, FVal (SInt z)).
Proof.
  intros Hk Hz. left. exists fQ, (le_split 8 z). split; [|by apply pack_quad].
  apply list_elem_of_fmap in Hk as ([k' f] & -> & Hin). cbn.
  assert (Forall (fun kf => kf.2 = fQ) KvmMemRequest) as Hall by (repeat constructor).
  rewrite Forall_forall in Hall. by rewrite <- (Hall _ Hin) at 1.
Qed.
Lemma make_request_ok type address length :
  0 <= type < 2 ^ 64 -> 0 <= address < 2 ^ 64 -> 0 <= length < 2 ^ 64 ->
  make_request type address length None = Ret (kvm_request type address length).
Proof.
  intros Ht Ha Hl. unfold make_request.
  destruct (assign_keeps (request_fields type address length None) (new_struct KvmMemRequest))
    as (d & Hd & (raw & Hraw & Hpack) & HS & Hdict);
    [done|apply new_struct_consistent; apply (bool_decide_unpack _); reflexivity| |].
  { unfold request_fields. repeat (apply Forall_cons; split); [..|constructor];
      apply kvm_assignable; try done; apply (bool_decide_unpack _); reflexivity. }
  rewrite Hd. unfold __repr__, payload. rewrite Hraw, Hdict.
  rewrite HS, Hdict in Hpack. cbn [new_struct STRUCT dict] in *. unfold request_fields in *.
  cbn [KvmMemRequest pack_loop app] in *.
  assert (insert_all (blank_dict KvmMemRequest) [("type", FVal (SInt type)); ("address", FVal (SInt address));
     ("length", FVal (SInt length))] !! "data" = Some FNone) as ->.
  { key_lookup. apply blank_dict_data. }
  cbn [of_option res_bind default].
  revert Hpack. key_lookup. rewrite !pack_quad by done.
  intros Hpack%(f_equal snd). cbn [snd] in Hpack. subst raw. unfold kvm_request.
  by rewrite <- ?app_assoc, !app_nil_r.
Qed.

(** * A hypervisor that answers *)

(** Connections succeed, and no piece of the stream is a single byte. *)
Record calm (s : virt) : Prop := {
  ca_sock : SOCK s <> Unconnected;
  ca_hup : hup s = false;
  ca_attempts : attempts s = [];
  ca_hangups : hangups s = [];
  ca_pieces : Forall (fun p => (2 <= p)%nat) (pieces s)
}.
(** Calm, connected and with nothing left over, at time [t]. *)
Record idle (t : Z) (s : virt) : Prop := {
  id_calm : calm s;
  id_sock : SOCK s = Connected;
  id_stream : stream s = [];
  id_clock : clock s = t
}.

Lemma recv_calm s n :
  calm s -> SOCK s = Connected -> stream s <> [] -> 0 < n -> exists k s',
  recv n s = (Ret (take k (stream s)), s') /\ (Nat.min 2 (Z.to_nat n) <= k)%nat /\ calm s' /\ SOCK s' = Connected /\
  stream s' = drop k (stream s) /\ clock s' = clock s.
Proof.
  intros [? ? ? ? Hp] Hc Hne Hn. unfold recv. rewrite Hc.
  destruct (stream s) as [|b l] eqn:E; [done|]. cbn [stream set_stream set_pieces].
  destruct (pieces s) as [|p ps] eqn:Ep; eexists _, _; (split; [reflexivity|]).
  - split; [lia|]. by split_and!; [split|..].
  - apply Forall_cons in Hp as [? ?]. split; [lia|]. by split_and!; [split|..].
Qed.

(** The loop collects what is missing, however the stream is cut. *)
Lemma receive_rest n : forall fuel s read,
  calm s -> SOCK s = Connected -> 2 <= zlen read -> zlen read + zlen (stream s) = n + 1 ->
  (length (stream s) < fuel)%nat ->
  exists s', receive fuel n read s = (Ret (read ++ stream s, true), s') /\ idle (clock s) s'.
Proof.
  induction fuel as [|fuel IH]; intros s read Hcalm Hs Hr Hz Hf; [lia|]. cbn [receive].
  destruct (stream s) as [|b l] eqn:E.
  - rewrite zlen_nil in Hz. rewrite (proj2 (Z.leb_le _ _)) by lia. exists s. rewrite app_nil_r. by split.
  - rewrite zlen_cons in Hz. pose proof (zlen_nonneg l). rewrite (proj2 (Z.leb_gt _ _)) by lia.
    destruct (recv_calm s (n + 1 - zlen read)) as (k & s' & Hrecv & Hk & Hc' & Hs' & Hst & Hcl);
      [done|done|by rewrite E|lia|].
    rewrite Hrecv, E in *. set (d := take k (b :: l)) in *.
    assert (1 <= zlen d) as Hd by (subst d; rewrite zlen_take, zlen_cons; lia).
    rewrite bool_decide_eq_false_2 by (intros Heq%(f_equal zlen); rewrite zlen_app, zlen_cons, zlen_nil in Heq; lia).
    destruct (IH (settimeout false s') (read ++ d)) as (s2 & H2 & Hi).
    + destruct Hc'. by split.
    + done.
    + rewrite zlen_app. lia.
    + cbn [stream settimeout]. rewrite Hst, zlen_app. subst d. rewrite zlen_take, zlen_drop, zlen_cons. lia.
    + cbn [stream settimeout]. rewrite Hst, length_drop. change (length (b :: l)) with (S (length l)) in Hf |- *. lia.
    + exists s2. cbn [stream settimeout clock] in *. rewrite H2, Hst, <- app_assoc, Hcl in *.
      subst d. by rewrite take_drop.
Qed.

(** An answer with data [d]: all of it and a status byte, or one byte that stands for
    ones throughout. *)
Definition answer (d a : bytes) : Prop :=
  (exists status, a = d ++ [status]) \/ (a = [0xff] /\ d = py_repeat 0xff (zlen d)).

Lemma receive_answer s d :
  calm s -> SOCK s = Connected -> answer d (stream s) -> 0 < zlen d ->
  exists status s', receive (S (Z.to_nat (zlen d + 1))) (zlen d) [] s = (Ret (d ++ [status], true), s') /\ idle (clock s) s'.
Proof.
  intros Hc Hs Ha Hn. cbn [receive]. rewrite (proj2 (Z.leb_gt _ _)) by (rewrite zlen_nil; lia).
  rewrite zlen_nil, Z.sub_0_r.
  destruct (recv_calm s (zlen d + 1)) as (k & s' & Hrecv & Hk & Hc' & Hs' & Hst & Hcl); [done|done| |lia|].
  { destruct Ha as [[st ->]|[-> _]]; [by destruct d|done]. }
  rewrite Hrecv. cbn [app]. destruct Ha as [[st Ea]|[Ea Ed]]; rewrite Ea in *.
  - exists st. set (r := take k (d ++ [st])) in *.
    assert (2 <= zlen r) as Hr.
    { subst r. rewrite zlen_take, zlen_app, zlen_cons, zlen_nil. lia. }
    rewrite bool_decide_eq_false_2 by (intros Heq; rewrite Heq, zlen_cons, zlen_nil in Hr; lia).
    destruct (receive_rest (zlen d) (Z.to_nat (zlen d + 1)) (settimeout false s') r) as (s2 & H2 & Hi).
    + destruct Hc'. by split.
    + done.
    + done.
    + cbn [stream settimeout]. rewrite Hst. subst r. rewrite zlen_take, zlen_drop, zlen_app, zlen_cons, zlen_nil. lia.
    + cbn [stream settimeout]. rewrite Hst, length_drop, length_app. cbn. unfold zlen. lia.
    + exists s2. cbn [stream settimeout clock] in *. rewrite H2, Hst, Hcl in *. subst r. by rewrite take_drop.
  - exists 1. assert (take k [0xff] = [0xff]) as -> by (destruct k as [|[|k]]; [lia|done..]).
    rewrite bool_decide_eq_true_2, <- Ed by done. exists (settimeout false s').
    destruct (Z.to_nat (zlen d + 1)) as [|m] eqn:Em; [lia|]. cbn [receive].
    rewrite (proj2 (Z.leb_le _ _)) by (rewrite zlen_app, zlen_cons, zlen_nil; lia). split; [done|].
    split; [by destruct Hc'|done| |done]. cbn. rewrite Hst. destruct k; [lia|]. by destruct k.
Qed.

Section answering.
Context (guest : Z -> bytes -> bytes) (raw : bytes) (n : Z) (D : Z -> bytes).
Context (Hn : 0 < n) (HD : forall t, zlen (D t) = n).

Lemma exchange_answer s :
  calm s -> SOCK s = Connected -> stream s = [] -> answer (D (clock s)) (guest (clock s) raw) ->
  exists status t s', exchange guest raw n s = (Ret (D (clock s) ++ [status], true), s') /\ idle t s' /\ clock s <= t.
Proof.
  intros Hc Hs Hst Ha. pose proof Hc as [H1 H2 H3 H4 H5]. unfold exchange, send. cbn [SOCK settimeout hup hangups].
  rewrite Hs, H2, H4. cbn [head default].
  edestruct (receive_answer (set_stream (stream (settimeout true s) ++ guest (clock (settimeout true s)) raw)
               (tick (set_hangups (tail []) (settimeout true s)))) (D (clock s))) as (st & s' & Hr & Hi).
  - by split.
  - done.
  - cbn [stream set_stream settimeout]. by rewrite Hst.
  - by rewrite HD.
  - rewrite HD in Hr. eexists st, _, s'. split; [exact Hr|]. split; [exact Hi|]. cbn. lia.
Qed.
(** Every try connects and gets its answer; the last answer counts. *)
Lemma retries_answers k : forall s read,
  calm s -> (SOCK s = Connected -> stream s = []) ->
  (forall t, clock s <= t -> answer (D t) (guest t raw)) ->
  exists status t t' s', retries guest (S k) raw n read s = (Ret (Some (D t ++ [status])), s') /\
    idle t' s' /\ clock s <= t <= t'.
Proof.
  induction k as [|k IH]; intros s read Hc Hst Ha.
  all: assert (exists s0, _connect s = (Ret true, s0) /\ calm s0 /\ SOCK s0 = Connected /\ stream s0 = [] /\
                 clock s0 = clock s) as (s0 & Hcon & Hc0 & Hs0 & Hst0 & Hcl0) by
    (destruct Hc as [? ? Hat ? ?]; unfold _connect; destruct (SOCK s) eqn:E; [|done|];
     [rewrite Hat; eexists; split; [reflexivity|by split_and!; [split|..]]
     |exists s; split_and!; [done|split; by rewrite ?E|done|by apply Hst|done]]).
  all: destruct (exchange_answer s0 Hc0 Hs0 Hst0) as (st & t1 & s1 & Hx & [Hc1 Hs1 Hst1 Hcl1] & Ht1); [apply Ha; lia|].
  all: cbn [retries]; unfold pm_bind at 1; rewrite Hcon; cbn [negb]; unfold pm_bind at 1; rewrite Hx;
    cbn [snd fst]; unfold pm_bind at 1, pm_ret at 1.
  - exists st, (clock s0), t1, s1. split; [done|]. split; [by split|lia].
  - destruct (IH s1 (D (clock s0) ++ [st])) as (st' & t & t' & s2 & Hr & Hi & Ht); [done|done| |].
    { intros t Ht. apply Ha. lia. }
    cbn [retries] in Hr. exists st', t, t', s2. split; [exact Hr|]. split; [done|lia].
Qed.
End answering.

(** An answer is its data and the status byte at its end. *)
Lemma last_byte n (l : bytes) st : zlen l = n -> 0 < n ->
  zlen (l ++ [st]) = n + 1 /\ slice_to (l ++ [st]) (-1) = l /\ py_index (l ++ [st]) (-1) = Ret st.
Proof.
  intros Hl Hn. assert (zlen (l ++ [st]) = n + 1) as Ez by (rewrite zlen_app, zlen_cons, zlen_nil; lia).
  split; [done|]. unfold slice_to, clamp, py_index. rewrite Ez, (proj2 (Z.ltb_lt (-1) 0)) by lia.
  rewrite (proj2 (Z.ltb_ge (-1 + (n + 1)) 0)) by lia. unfold zlen in Hl. split.
  - apply take_app_length'. lia.
  - replace (Z.to_nat _) with (length l) by lia. by rewrite list_lookup_middle.
Qed.
(** What [_read_from_sensor] returns: the data of one of the answers, the last. *)
Lemma virt_read_answers guest s a n (D : Z -> bytes) :
  0 <= a < 2 ^ 64 -> 0 < n < 2 ^ 64 -> (forall t, zlen (D t) = n) ->
  calm s -> (SOCK s = Connected -> stream s = []) ->
  (forall t, clock s <= t -> answer (D t) (guest t (kvm_request CMD_READ a n))) ->
  exists t t' s', _read_from_sensor guest a n s = (Ret (Some (D t)), s') /\ idle t' s' /\ clock s <= t <= t'.
Proof.
  intros Ha Hn HD Hc Hst Hans. unfold _read_from_sensor. unfold pm_bind at 1, pm_lift at 1.
  rewrite make_request_ok by (unfold CMD_READ; lia).
  destruct (retries_answers guest (kvm_request CMD_READ a n) n D ltac:(lia) HD 2 s [])
    as (st & t & t' & s' & Hr & Hi & Ht); [done..|].
  exists t, t', s'. split; [|by split]. unfold pm_bind at 1. rewrite Hr. clear Hr.
  destruct (last_byte n (D t) st (HD t) ltac:(lia)) as (-> & -> & E). rewrite Z.eqb_refl. cbn [negb].
  unfold pm_bind, pm_lift. by rewrite E.
Qed.

(** * The virtual memory sensor as a [Sensor] *)

#[export] Instance virt_sensor guest : Sensor virt := {
  sensor_now := clock;
  sensor_read := _read_from_sensor guest
}.
Definition guest_ok (guest : Z -> bytes -> bytes) (mem : Z -> Z -> Z) (lim : Z) : Prop := forall t a n,
  0 <= a -> 0 < n -> a + n <= lim -> answer (mem_range (mem t) a n) (guest t (kvm_request CMD_READ a n)).
Definition virt_ok (s : virt) : Prop := calm s /\ (SOCK s = Connected -> stream s = []).

Lemma virt_laws guest mem lim :
  guest_ok guest mem lim -> lim < 2 ^ 64 -> @SensorLaws virt (virt_sensor guest) mem lim virt_ok.
Proof.
  intros Hg Hlim. split. intros s a n [Hc Hst] Ha Hn Hl.
  destruct (virt_read_answers guest s a n (fun t => mem_range (mem t) a n)) as (t & t' & s' & Hr & Hi & Ht);
    [lia|lia| |done|done| |].
  - intros t. apply zlen_mem_range. lia.
  - intros t _. by apply Hg.
  - exists t, s'. split; [exact Hr|]. destruct Hi. split; [done|]. cbn. lia.
Qed.

(** [MemorySensorVirtual.BAD_MEM_REGIONS] *)
Definition first_page : list (Z * Z) := [(0x0, 4096)].

(** [C19] The virtual memory sensor, from [read] down to the stream: for a hypervisor
    that answers its requests, also with the one byte that stands for ones, and for any
    cutting of the stream into pieces of at least two bytes, a read returns zeros in
    the first page and elsewhere what the guest's memory held at a moment no older than
    the cache timeout, while the memory changes. *)
Theorem virtual_read guest mem lim (m : msensor virt) address length :
  guest_ok guest mem lim -> lim < 2 ^ 64 ->
  @cache_inv virt (virt_sensor guest) mem virt_ok m -> BAD_MEM_REGIONS m = first_page ->
  0 <= address -> 0 < length -> address + length + CACHE_CHUNK <= lim ->
  exists d m', @read virt (virt_sensor guest) address length m = (Ret (Some d), m') /\ virt_ok (dev m') /\
    zlen d = length /\
    bytes_at (fun x b => if decide (0 <= x < 4096) then b = 0
      else exists t, clock (dev m) - Z.max 0 (CACHE_TIMEOUT m) <= t <= clock (dev m') /\ b = mem t x) address d.
Proof.
  intros Hg Hlim Hinv Hbads Ha Hlen Hl.
  pose proof (virt_laws guest mem lim Hg Hlim) as Hlaws.
  destruct (@read_spec virt (virt_sensor guest) mem lim virt_ok Hlaws m address length)
    as (d & m' & Hread & Hinv' & Hz & _ & _ & Hb); [done|rewrite Hbads..|done|done|done|].
  - repeat constructor.
  - unfold first_page. rewrite filter_cons, filter_nil.
    destruct (decide _); [split; repeat constructor|split; constructor].
  - exists d, m'. split; [done|]. split; [apply Hinv'|]. split; [done|].
    eapply bytes_at_mono; [|exact Hb]. intros x b [H1 H2]. rewrite Hbads in H1, H2.
    assert (is_bad first_page x <-> 0 <= x < 4096) as Hbad.
    { unfold first_page, is_bad. rewrite Exists_cons, Exists_nil. cbn. tauto. }
    destruct (decide _) as [Hx|Hx]; [by apply H1, Hbad|]. apply H2. by rewrite Hbad.
Qed.

(** A hypervisor over constant memory, which answers with data and a status. *)
Definition le_word (i : nat) (raw : bytes) : Z := le_combine (take 8 (drop (8 * i) raw)).
Definition memory_guest (mem : Z -> Z -> Z) (status : Z) (t : Z) (raw : bytes) : bytes :=
  mem_range (mem t) (le_word 1 raw) (le_word 2 raw) ++ [status].
Lemma memory_guest_reply mem status t type a n :
  0 <= a < 2 ^ 64 -> 0 <= n < 2 ^ 64 ->
  memory_guest mem status t (kvm_request type a n) = mem_range (mem t) a n ++ [status].
Proof.
  intros Ha Hn. unfold memory_guest, le_word, kvm_request.
  change (8 * 1)%nat with 8%nat. change (8 * 2)%nat with (8 + 8)%nat.
  rewrite <- drop_drop, !drop_app_length' by (by rewrite length_le_split).
  rewrite take_app_length', take_ge by (by rewrite length_le_split).
  by rewrite !le_combine_split by done.
Qed.
Lemma memory_guest_ok mem lim : lim < 2 ^ 64 -> guest_ok (memory_guest mem 1) mem lim.
Proof. intros Hlim t a n Ha Hn Hl. left. exists 1. apply memory_guest_reply; lia. Qed.

Definition example_guest_memory (t x : Z) : Z := (x + t) mod 251.
Definition example_virt (ps : list nat) : virt := Virt NoSock [] false false [] ps [] [1%nat; 2%nat; 3%nat] 100.
Definition example_virtual (timeout : Z) : msensor virt := MSensor (example_virt [2%nat; 3%nat]) ∅ ∅ timeout first_page.
Lemma example_virt_ok : virt_ok (example_virt [2%nat; 3%nat]).
Proof. split; [split; [done..|repeat constructor]|done]. Qed.
(** A read across the end of the first page, cut into small pieces. *)
Lemma virtual_read_witness :
  exists d m', @read virt (virt_sensor (memory_guest example_guest_memory 1)) 4090 20 (example_virtual 0)
      = (Ret (Some d), m') /\ virt_ok (dev m') /\ zlen d = 20 /\
    bytes_at (fun x b => if decide (0 <= x < 4096) then b = 0
      else exists t, 100 - 0 <= t <= clock (dev m') /\ b = example_guest_memory t x) 4090 d.
Proof.
  apply (virtual_read (memory_guest example_guest_memory 1) example_guest_memory (2 ^ 40) (example_virtual 0));
    [apply memory_guest_ok; lia|lia| |done|lia|lia|unfold CACHE_CHUNK; lia].
  split; [apply example_virt_ok|]. intros i e. cbn [cache example_virtual]. by rewrite lookup_empty.
Defined.

(** An error the hypervisor reports goes unnoticed: whatever the status byte, also
    the zero that stands for failure, [_read_from_sensor] returns the bytes before it,
    because the byte is compared with a number. *)
Theorem status_ignored mem status s a n :
  0 <= a < 2 ^ 64 -> 0 < n < 2 ^ 64 -> virt_ok s ->
  exists t s', _read_from_sensor (memory_guest mem status) a n s = (Ret (Some (mem_range (mem t) a n)), s') /\
    clock s <= t <= clock s'.
Proof.
  intros Ha Hn [Hc Hst].
  destruct (virt_read_answers (memory_guest mem status) s a n (fun t => mem_range (mem t) a n))
    as (t & t' & s' & Hr & [_ _ _ Hcl] & Ht); [done|done| |done|done| |].
  - intros t. apply zlen_mem_range. lia.
  - intros t _. left. exists status. apply memory_guest_reply; lia.
  - exists t, s'. split; [done|lia].
Qed.
Lemma status_ignored_witness :
  exists t s', _read_from_sensor (memory_guest example_guest_memory 0) 8192 4 (example_virt [2%nat; 3%nat])
      = (Ret (Some (mem_range (example_guest_memory t) 8192 4)), s') /\ 100 <= t <= clock s'.
Proof. apply (status_ignored example_guest_memory 0); [lia|lia|apply example_virt_ok]. Defined.

(** Connected, with the rest [X] of an answer in the stream. *)
Record shifted (X : bytes) (s : virt) : Prop := {
  sh_sock : SOCK s = Connected;
  sh_hup : hup s = false;
  sh_hangups : hangups s = [];
  sh_pieces : pieces s = [];
  sh_stream : stream s = X
}.
Section shifting.
Context (guest : Z -> bytes -> bytes) (raw X : bytes) (n : Z).
Context (Hn : 0 < n) (HX : zlen X = n) (Hguest : forall t, guest t raw = 0xff :: X).

Lemma exchange_short s :
  hup s = false -> hangups s = [] ->
  SOCK s = Connected -> stream s = [] -> pieces s = [1%nat] ->
  exists s', exchange guest raw n s = (Ret (py_repeat 0xff n ++ [1], true), s') /\ shifted X s'.
Proof.
  intros Hh Hg Hs Hst Hp. unfold exchange, send. cbn [SOCK settimeout hup hangups].
  rewrite Hs, Hh, Hg. cbn [head default receive]. rewrite zlen_nil, (proj2 (Z.leb_gt _ _)) by lia.
  unfold recv. cbn [SOCK stream set_stream settimeout tick set_hangups pieces clock].
  rewrite Hs, Hst, Hguest, Hp. cbn [app]. replace (Z.to_nat (n + 1 - 0)) with (S (Z.to_nat n)) by lia.
  cbn [Nat.min Nat.max take drop]. rewrite bool_decide_eq_true_2 by done.
  replace (Z.to_nat (n + 1)) with (S (Z.to_nat n)) by lia. cbn [receive].
  rewrite (proj2 (Z.leb_le _ _)) by (rewrite zlen_app, zlen_cons, zlen_nil, zlen_repeat; lia).
  eexists. split; [reflexivity|]. split; done.
Qed.
Lemma exchange_shifted s :
  shifted X s -> exists s', exchange guest raw n s = (Ret (X ++ [0xff], true), s') /\ shifted X s'.
Proof.
  intros [Hs Hh Hg Hp Hst]. unfold exchange, send. cbn [SOCK settimeout hup hangups].
  rewrite Hs, Hh, Hg. cbn [head default receive]. rewrite zlen_nil, (proj2 (Z.leb_gt _ _)) by lia.
  unfold recv. cbn [SOCK stream set_stream settimeout tick set_hangups pieces clock].
  rewrite Hs, Hst, Hguest, Hp. assert (X ++ 0xff :: X = (X ++ [0xff]) ++ X) as -> by (by rewrite <- app_assoc).
  destruct ((X ++ [0xff]) ++ X) as [|y Y] eqn:EY; [by destruct X|]. rewrite <- EY. assert (Z.to_nat (n + 1 - 0) = length (X ++ [0xff])) as ->
    by (rewrite length_app; cbn; unfold zlen in HX; lia).
  rewrite take_app_length, drop_app_length. cbn [app]. rewrite bool_decide_eq_false_2
    by (intros E%(f_equal zlen); rewrite zlen_app, zlen_cons, zlen_nil in E; lia).
  replace (Z.to_nat (n + 1)) with (S (Z.to_nat n)) by lia. cbn [receive].
  rewrite (proj2 (Z.leb_le _ _)) by (rewrite zlen_app, zlen_cons, zlen_nil; lia).
  eexists. split; [reflexivity|]. by split.
Qed.
Lemma retries_shifted k : forall s read, shifted X s ->
  exists s', retries guest (S k) raw n read s = (Ret (Some (X ++ [0xff])), s') /\ shifted X s'.
Proof.
  induction k as [|k IH]; intros s read Hs.
  all: destruct (exchange_shifted s Hs) as (s1 & Hx & Hs1).
  all: cbn [retries]; unfold pm_bind at 1, _connect at 1; rewrite (sh_sock _ _ Hs); cbn [negb];
    unfold pm_bind at 1; rewrite Hx; cbn [snd fst]; unfold pm_bind at 1, pm_ret at 1.
  - by exists s1.
  - apply (IH s1 (X ++ [0xff]) Hs1).
Qed.
End shifting.

(** A short delivery shifts the data: memory that starts with [0xff] whose first
    byte arrives alone is taken for ones throughout, the rest of the answer stays in
    the stream, and the read returns memory from one byte further on with a status byte
    at its end.  The rest of the last answer is still in the stream for the next read. *)
Theorem short_delivery_shifts mem s a n :
  0 <= a < 2 ^ 64 -> 0 < n < 2 ^ 64 -> mem a = 0xff ->
  SOCK s = NoSock -> attempts s = [] -> hangups s = [] -> pieces s = [1%nat] ->
  exists s', _read_from_sensor (memory_guest (fun _ => mem) 1) a n s
      = (Ret (Some (mem_range mem (a + 1) (n - 1) ++ [1])), s') /\
    stream s' = mem_range mem (a + 1) (n - 1) ++ [1].
Proof.
  intros Ha Hn Hff Hs Hat Hg Hp. set (X := mem_range mem (a + 1) (n - 1) ++ [1]).
  assert (zlen X = n) as HX by (unfold X; rewrite zlen_app, zlen_mem_range, zlen_cons, zlen_nil by lia; lia).
  assert (forall t, memory_guest (fun _ => mem) 1 t (kvm_request CMD_READ a n) = 0xff :: X) as Hguest.
  { intros t. rewrite memory_guest_reply by lia. unfold X, mem_range. rewrite (seqZ_cons a) by lia.
    cbn. rewrite Hff. do 4 f_equal; lia. }
  unfold _read_from_sensor, pm_bind at 1, pm_lift at 1. rewrite make_request_ok by (unfold CMD_READ; lia).
  set (guest := memory_guest (fun _ => mem) 1) in *. set (raw := kvm_request CMD_READ a n) in *.
  set (s0 := settimeout false (set_hup false (set_stream [] (set_SOCK Connected (set_attempts [] s))))).
  destruct (exchange_short guest raw X n ltac:(lia) Hguest s0) as (s1 & Hx & Hs1); [done..|].
  destruct (retries_shifted guest raw X n ltac:(lia) HX Hguest 1 s1 (py_repeat 0xff n ++ [1])) as (s2 & Hr & Hs2); [done|].
  exists s2. split; [|by apply sh_stream].
  assert (retries guest 3 raw n [] s = (Ret (Some (X ++ [0xff])), s2)) as Hr3.
  { cbn [retries] in Hr |- *. unfold pm_bind at 1, _connect at 1. rewrite Hs, Hat. cbn [head tail negb].
    unfold pm_bind at 1. fold s0. rewrite Hx. exact Hr. }
  unfold pm_bind at 1. rewrite Hr3. destruct (last_byte n X 0xff HX) as (-> & -> & E); [lia|].
  rewrite Z.eqb_refl. cbn [negb]. unfold pm_bind, pm_lift. by rewrite E.
Qed.
Lemma short_delivery_shifts_witness :
  exists s', _read_from_sensor (memory_guest (fun _ x => 0xff - (x - 8192)) 1) 8192 4 (example_virt [1%nat])
      = (Ret (Some [0xfe; 0xfd; 0xfc; 1]), s') /\ stream s' = [0xfe; 0xfd; 0xfc; 1].
Proof.
  apply (short_delivery_shifts (fun x => 0xff - (x - 8192)) (example_virt [1%nat]) 8192 4); [lia|lia|done..].
Defined.
