(* ===== verification/Capture.v ===== *)
(** Model of [lophi/capture/__init__.py]: the file format of raw captures, the writer
    that appends packets taken from a queue and the two readers.  A file is its bytes;
    what other processes have appended by the time of a call is part of the reader's
    state.  A time stamp is the bit pattern of the single-precision number the format
    [>f] stores. *)
From S2P Require Import Prelude Struct DataStruct.

Definition CapHeader : layout := [("timestamp", nI); ("length", nI)].

(** What is put on the writer's queue. *)
Inductive cpacket := PStr (s : bytes) | PStruct (d : dstruct).

(** ** Python's [repr] of a string *)

Definition hex_digit (n : Z) : Z := if n <? 10 then 48 + n else 87 + n.
Definition repr_char (quote c : Z) : bytes :=
  if (c =? quote) || (c =? 92) then [92; c]
  else if c =? 9 then [92; 116]
  else if c =? 10 then [92; 110]
  else if c =? 13 then [92; 114]
  else if (c <? 32) || (126 <? c) then [92; 120; hex_digit (c / 16); hex_digit (c mod 16)]
  else [c].
(** Double quotes when the string has a single quote and no double one. *)
Definition str_repr (s : bytes) : bytes :=
  let quote := if bool_decide (39 ∈ s) && negb (bool_decide (34 ∈ s)) then 34 else 39 in
  [quote] ++ concat (repr_char quote <$> s) ++ [quote].

Definition packet_len (p : cpacket) : Z :=
  match p with PStr s => zlen s | PStruct d => Z.of_nat (__len__ d) end.
Definition packet_repr (p : cpacket) : res bytes :=
  match p with PStr s => Ret (str_repr s) | PStruct d => __repr__ d end.

(** ** [CaptureWriter] *)

Record writer := Writer { w_file : bytes; cap_header : dstruct }.

Definition write (data : bytes) : PM writer unit :=
  pm_modify (fun w => Writer (w_file w ++ data) (cap_header w)).
Definition on_header (m : PM dstruct unit) : PM writer unit := fun w =>
  let (r, h) := m (cap_header w) in (r, Writer (w_file w) h).

(** One round of the loop.  [type(packet) == 'str'] compares a type with a string and
    is never true, so that the other branch is taken for strings too. *)
Definition write_packet (now : Z) (p : cpacket) : PM writer unit :=
  on_header (__setattr__ "timestamp" (FVal (SInt now)) ;!
             __setattr__ "length" (FVal (SInt (packet_len p)))) ;!
  let! h := (fun w => (__repr__ (cap_header w), w)) in
  write h ;!
  let! b := pm_lift (packet_repr p) in
  write b.

(** [run] on the packets that arrive before the process is stopped, each with the time
    it is taken off the queue; the file is truncated first. *)
Fixpoint write_all (q : list (Z * cpacket)) : PM writer unit :=
  match q with
  | [] => pm_ret tt
  | (now, p) :: q => write_packet now p ;! write_all q
  end.
Definition run (q : list (Z * cpacket)) : res unit * writer :=
  write_all q (Writer [] (new_struct CapHeader)).

(** ** [CaptureReader] *)

Record reader := Reader { content : bytes; pos : nat }.

(** [self.f.read(size)] *)
Definition read (size : nat) : PM reader bytes := fun r =>
  let d := take size (drop (pos r) (content r)) in
  (Ret d, Reader (content r) (pos r + length d)).

(** [cap_header._unpack(header_data)], then the two fields; a header cut short leaves
    them [None], which the log message cannot format. *)
Definition parse_header (data : bytes) : res (Z * Z) :=
  match _unpack data (new_struct CapHeader) with
  | (Ret _, h) =>
      let? len := get_int h "length" in
      let? ts := get_int h "timestamp" in
      Ret (ts, len)
  | (Raise e, _) => Raise e
  end.

Definition next : PM reader (Z * bytes) :=
  let! header_data := read 8 in
  match header_data with
  | [] => pm_raise StopIteration
  | _ =>
      let! h := pm_lift (parse_header header_data) in
      let! packet_data := read (Z.to_nat h.2) in
      pm_ret (h.1, packet_data)
  end.

(** One round of the generator [tail]: [None] when it sleeps and starts over, which
    also happens between a header and its data. *)
Definition tail_round : PM reader (option (Z * bytes)) :=
  let! header_data := read 8 in
  match header_data with
  | [] => pm_ret None
  | _ =>
      let! h := pm_lift (parse_header header_data) in
      let! packet_data := read (Z.to_nat h.2) in
      match packet_data with
      | [] => pm_ret None
      | _ => pm_ret (Some (h.1, packet_data))
      end
  end.

(** ** [CaptureReaderTail] *)

Record tailer := Tailer { t_content : bytes; where_ : nat }.

(** The loop of [next] from position [p]: the records it collects and the position
    behind the last complete one.  A round that goes on has read at least a header. *)
Fixpoint tail_loop (fuel : nat) (p : nat) (ret : list (Z * bytes)) (f : bytes) (whr : nat) :
    res (list (Z * bytes)) * nat :=
  match fuel with
  | O => (Raise Diverges, whr)
  | S fuel =>
      let header_data := take 8 (drop p f) in
      if (length header_data <? 8)%nat then (Ret ret, whr) else
      match parse_header header_data with
      | Raise e => (Raise e, whr)
      | Ret (ts, len) =>
          let packet_data := take (Z.to_nat len) (drop (p + 8) f) in
          if zlen packet_data <? len then (Ret ret, whr)
          else let p' := (p + 8 + length packet_data)%nat in
               tail_loop fuel p' (ret ++ [(ts, packet_data)]) f p'
      end
  end.
Definition tail_next : PM tailer (list (Z * bytes)) := fun t =>
  let (r, whr) := tail_loop (S (length (t_content t))) (where_ t) [] (t_content t) (where_ t) in
  (r, Tailer (t_content t) whr).

(** * Records *)

Definition record_bytes (r : Z * bytes) : bytes := be_split 4 r.1 ++ be_split 4 (zlen r.2) ++ r.2.
Definition file_bytes (rs : list (Z * bytes)) : bytes := concat (record_bytes <$> rs).
Definition record_ok (r : Z * bytes) : Prop := 0 <= r.1 < 2 ^ 32 /\ zlen r.2 < 2 ^ 32.


Lemma cap_header_repr h now len :
  STRUCT h = CapHeader -> consistent h -> payload h = None ->
  0 <= now < 2 ^ 32 -> 0 <= len < 2 ^ 32 ->
  exists h', (__setattr__ "timestamp" (FVal (SInt now)) ;! __setattr__ "length" (FVal (SInt len))) h =
      (Ret tt, h') /\ STRUCT h' = CapHeader /\ consistent h' /\ payload h' = None /\
    __repr__ h' = Ret (be_split 4 now ++ be_split 4 len).
Proof.
  intros HS Hc Hp Hn Hl.
  destruct (assign_keeps [("timestamp", FVal (SInt now)); ("length", FVal (SInt len))] h)
    as (h' & Hh & Hc' & HS' & Hd); [by rewrite HS|done| |].
  { rewrite HS. repeat (apply Forall_cons; split); [..|constructor]; left;
      exists nI; eexists; (split; [set_solver|by apply pack_word]). }
  exists h'. split; [cbn in Hh; unfold pm_bind in *; destruct (__setattr__ _ _ h) as [[]]; [|done];
                     by destruct (__setattr__ _ _ d) as [[[]|] ?]|].
  split; [congruence|]. split; [done|].
  assert (payload h' = None) as Hp'.
  { unfold payload in *. rewrite Hd. key_lookup. exact Hp. }
  split; [done|]. destruct Hc' as (raw & Hraw & Hpack). unfold __repr__. rewrite Hraw, Hp'. cbn.
  rewrite app_nil_r. f_equal. rewrite HS', HS, Hd in Hpack. cbn [CapHeader pack_loop] in Hpack.
  revert Hpack. key_lookup. rewrite !pack_word by done. intros E%(f_equal snd). by cbn in E.
Qed.

Lemma parse_header_ok ts len rest :
  0 <= ts < 2 ^ 32 -> 0 <= len < 2 ^ 32 -> length rest = 0%nat ->
  parse_header (be_split 4 ts ++ be_split 4 len ++ rest) = Ret (ts, len).
Proof.
  intros Ht Hl Hr%nil_length_inv. subst rest. unfold parse_header, _unpack.
  change (STRUCT_SIZE (new_struct CapHeader)) with 8%nat.
  assert (length (be_split 4 ts ++ be_split 4 len ++ []) = 8%nat) as Hlen
    by (by rewrite !length_app, !length_be_split).
  rewrite Hlen. cbn [Nat.ltb Nat.leb]. cbn [STRUCT new_struct dict].
  rewrite unpack_fields_decode by (rewrite length_take, Hlen; cbn; lia).
  rewrite drop_0, take_ge by lia.
  assert (decode CapHeader (be_split 4 ts ++ be_split 4 len ++ []) =
            [("timestamp", FVal (SInt ts)); ("length", FVal (SInt len))]) as ->.
  { cbn [decode CapHeader nI f_order f_codes unpack_codes fval_of int_combine calcsize
         sum_list_with code_size Nat.add].
    do 2 (rewrite (proj1 (take_word _ _)), ?(proj2 (take_word _ _)), be_combine_split
            by (by apply word_bound)). done. }
  unfold get_int, getattr. cbn [dict]. key_lookup. done.
Qed.

(** * Writing *)

(** The packet is written as it is: its [len] is that of its [repr]. *)
Definition structural (p : cpacket) (b : bytes) : Prop :=
  packet_repr p = Ret b /\ packet_len p = zlen b /\ zlen b < 2 ^ 32.

Definition writer_ok (w : writer) : Prop :=
  STRUCT (cap_header w) = CapHeader /\ consistent (cap_header w) /\ payload (cap_header w) = None.

Lemma write_packet_ok w now p b :
  writer_ok w -> 0 <= now < 2 ^ 32 -> structural p b ->
  exists h, write_packet now p w = (Ret tt, Writer (w_file w ++ record_bytes (now, b)) h) /\
    writer_ok (Writer (w_file w ++ record_bytes (now, b)) h).
Proof.
  intros (HS & Hc & Hp) Hn (Hr & Hl & Hb). pose proof (zlen_nonneg b).
  destruct (cap_header_repr (cap_header w) now (packet_len p))
    as (h & Hset & HS' & Hc' & Hp' & Hrepr); [done..|lia|].
  exists h. split; [|done]. unfold write_packet, on_header. unfold pm_bind at 1. rewrite Hset.
  unfold pm_bind, pm_lift, write, pm_modify. cbn [cap_header]. rewrite Hrepr, Hr. cbn [w_file cap_header].
  unfold record_bytes. rewrite Hl. cbn [fst snd]. by rewrite <- !app_assoc.
Qed.

Lemma write_all_ok q : forall w bs,
  writer_ok w -> Forall2 (fun tp b => 0 <= tp.1 < 2 ^ 32 /\ structural tp.2 b) q bs ->
  exists h, write_all q w = (Ret tt, Writer (w_file w ++ file_bytes (zip q.*1 bs)) h).
Proof.
  induction q as [|[t p] q IH]; intros w bs Hw Hall.
  - apply Forall2_nil_inv_l in Hall as ->. exists (cap_header w). cbn.
    rewrite app_nil_r. by destruct w.
  - apply Forall2_cons_inv_l in Hall as (b & bs' & [Ht Hs] & Hall & ->). cbn [write_all].
    destruct (write_packet_ok w t p b Hw Ht Hs) as (h & Hp & Hw'). unfold pm_bind. rewrite Hp.
    destruct (IH _ bs' Hw' Hall) as (h' & ->). exists h'. cbn [w_file].
    change (((t, p) :: q).*1) with (t :: q.*1). cbn [zip zip_with].
    unfold file_bytes. cbn [fmap list_fmap concat]. by rewrite <- app_assoc.
Qed.

Lemma new_writer_ok : writer_ok (Writer [] (new_struct CapHeader)).
Proof.
  split; [done|]. split; [|reflexivity]. apply new_struct_consistent.
  apply (bool_decide_unpack _). reflexivity.
Qed.

(** * Reading *)

Lemma length_record r : length (record_bytes r) = (8 + length r.2)%nat.
Proof. unfold record_bytes. rewrite !length_app, !length_be_split. lia. Qed.
Lemma record_header r : take 8 (record_bytes r) = be_split 4 r.1 ++ be_split 4 (zlen r.2) ++ [].
Proof.
  unfold record_bytes. rewrite app_nil_r, app_assoc. apply take_app_length'.
  by rewrite length_app, !length_be_split.
Qed.
Lemma record_data r rest : drop 8 (record_bytes r ++ rest) = r.2 ++ rest.
Proof.
  unfold record_bytes. rewrite <- !app_assoc, app_assoc. apply drop_app_length'.
  by rewrite length_app, !length_be_split.
Qed.
Lemma take_record r rest n : (8 <= n)%nat -> take 8 (take n (record_bytes r ++ rest)) = take 8 (record_bytes r).
Proof.
  intros Hn. rewrite take_take, Nat.min_l by lia. rewrite take_app_le; [done|rewrite length_record; lia].
Qed.

Lemma next_record pre r rest :
  record_ok r -> next (Reader (pre ++ record_bytes r ++ rest) (length pre)) =
    (Ret r, Reader (pre ++ record_bytes r ++ rest) (length pre + length (record_bytes r))).
Proof.
  intros [Hts Hlen]. unfold next, read. unfold pm_bind at 1. cbn [content pos].
  rewrite drop_app_length. rewrite take_app_le by (rewrite length_record; lia).
  assert (length (take 8 (record_bytes r)) = 8%nat) as H8
    by (rewrite length_take, length_record; lia).
  destruct (take 8 (record_bytes r)) as [|x l] eqn:E; [done|]. rewrite <- E in *. clear E x l.
  unfold pm_bind at 1, pm_lift. rewrite record_header in *. rewrite parse_header_ok by
    (done || (pose proof (zlen_nonneg r.2); lia)).
  unfold pm_bind. cbn [content pos fst snd]. rewrite H8, <- drop_drop, drop_app_length, record_data.
  unfold zlen. rewrite Nat2Z.id, take_app_length. unfold pm_ret.
  rewrite length_record, Nat.add_assoc. by destruct r.
Qed.

Lemma next_end f : next (Reader f (length f)) = (Raise StopIteration, Reader f (length f)).
Proof. unfold next, read, pm_bind. cbn. rewrite drop_all. cbn. by rewrite Nat.add_0_r. Qed.

(** [for x in reader]: the packets up to [StopIteration]. *)
Fixpoint read_rest (fuel : nat) (r : reader) : res (list (Z * bytes)) :=
  match fuel with
  | O => Raise Diverges
  | S fuel =>
      match next r with
      | (Ret x, r') => let? xs := read_rest fuel r' in Ret (x :: xs)
      | (Raise StopIteration, _) => Ret []
      | (Raise e, _) => Raise e
      end
  end.

Lemma read_rest_ok rs : forall pre,
  Forall record_ok rs ->
  read_rest (S (length rs)) (Reader (pre ++ file_bytes rs) (length pre)) = Ret rs.
Proof.
  induction rs as [|r rs IH]; intros pre Hrs.
  - unfold file_bytes. cbn [fmap list_fmap concat read_rest length]. rewrite app_nil_r.
    by rewrite next_end.
  - apply Forall_cons in Hrs as [Hr Hrs]. unfold file_bytes. cbn [fmap list_fmap concat length].
    cbn [read_rest]. rewrite next_record by done. rewrite app_assoc, <- length_app.
    change (concat (record_bytes <$> rs)) with (file_bytes rs).
    specialize (IH (pre ++ record_bytes r) Hrs). cbn [read_rest] in IH. by rewrite IH.
Qed.

(** Captures round-trip: what [CaptureWriter.run] writes for a queue of packets
    whose [len] is the length of their [repr] (every [DataStruct] packet), iterating
    over a [CaptureReader] gives back: each packet's bytes with its time stamp, in order
    and then the end of the file. *)
Theorem capture_roundtrip q bs :
  Forall2 (fun tp b => 0 <= tp.1 < 2 ^ 32 /\ structural tp.2 b) q bs ->
  exists w, run q = (Ret tt, w) /\
    read_rest (S (length q)) (Reader (w_file w) 0) = Ret (zip q.*1 bs).
Proof.
  intros Hall. destruct (write_all_ok q _ bs new_writer_ok Hall) as (h & Hw).
  eexists. split; [exact Hw|]. cbn [w_file app].
  pose proof (Forall2_length _ _ _ Hall) as Hlen.
  replace (length q) with (length (zip q.*1 bs)) by (rewrite length_zip_with, length_fmap; lia).
  apply (read_rest_ok (zip q.*1 bs) []). clear Hw h Hlen.
  induction Hall as [|[t p] b q bs [Ht (_ & _ & Hb)] _ IH]; cbn; constructor; [by split|exact IH].
Qed.

Lemma capture_roundtrip_witness :
  exists w, run [(77, PStruct sata_frame_example); (78, PStruct (new_struct SATAFrame))] = (Ret tt, w) /\
    read_rest 3 (Reader (w_file w) 0) = Ret [(77, [2; 1; 0; 1; 7]); (78, [0; 0; 0; 0])].
Proof.
  apply (capture_roundtrip [(77, PStruct sata_frame_example); (78, PStruct (new_struct SATAFrame))]
           [[2; 1; 0; 1; 7]; [0; 0; 0; 0]]).
  repeat constructor; cbn; lia.
Defined.

(** A captured string is not written as it is: its header announces [len] bytes
    and the quoted, escaped [repr] follows, which is always longer, so that every record
    behind it is read from the wrong place. *)
Theorem string_record_misaligned now s w :
  writer_ok w -> 0 <= now < 2 ^ 32 -> zlen s < 2 ^ 32 ->
  exists h body, write_packet now (PStr s) w =
      (Ret tt, Writer (w_file w ++ be_split 4 now ++ be_split 4 (zlen s) ++ body) h) /\
    body = str_repr s /\ zlen s + 2 <= zlen body.
Proof.
  intros (HS & Hc & Hp) Hn Hs. pose proof (zlen_nonneg s).
  destruct (cap_header_repr (cap_header w) now (zlen s)) as (h & Hset & _ & _ & _ & Hrepr); [done..|].
  exists h, (str_repr s). split; [|split; [done|]].
  - unfold write_packet, on_header. unfold pm_bind at 1. cbn [packet_len]. rewrite Hset.
    unfold pm_bind, pm_lift, write, pm_modify. cbn [cap_header]. rewrite Hrepr. cbn [packet_repr w_file].
    by rewrite <- !app_assoc.
  - unfold str_repr. cbn zeta. generalize (if bool_decide (39 ∈ s) && negb (bool_decide (34 ∈ s)) then 34 else 39).
    intros quote.
    assert (zlen s <= zlen (concat (repr_char quote <$> s))) as Hle.
    { clear. induction s as [|c s IH]; [done|]. cbn [fmap list_fmap concat]. rewrite zlen_app, zlen_cons.
      assert (1 <= zlen (repr_char quote c)); [|lia].
      unfold repr_char. repeat case_match; done. }
    cbn [app]. rewrite zlen_cons, zlen_app, zlen_cons, zlen_nil. lia.
Qed.
Lemma string_record_misaligned_witness :
  exists h body, write_packet 5 (PStr [0; 255]) (Writer [] (new_struct CapHeader)) =
      (Ret tt, Writer ([] ++ be_split 4 5 ++ be_split 4 2 ++ body) h) /\
    body = str_repr [0; 255] /\ 2 + 2 <= zlen body.
Proof.
  apply (string_record_misaligned 5 [0; 255] (Writer [] (new_struct CapHeader)));
    [apply new_writer_ok|lia|reflexivity].
Defined.

(** ** Following a growing file *)

(** The records of [rs] that lie completely within the first [n] bytes of the file. *)
Fixpoint complete (rs : list (Z * bytes)) (n : nat) : list (Z * bytes) :=
  match rs with
  | [] => []
  | r :: rs =>
      if (length (record_bytes r) <=? n)%nat then r :: complete rs (n - length (record_bytes r)) else []
  end.

(** The data of a record in a file cut off after [n] bytes. *)
Lemma record_cut r rest n : (8 <= n)%nat ->
  take (Z.to_nat (zlen r.2)) (drop 8 (take n (record_bytes r ++ rest))) = take (n - 8) r.2.
Proof.
  intros Hn. replace n with (8 + (n - 8))%nat at 1 by lia. rewrite <- take_drop_commute, record_data.
  unfold zlen. by rewrite Nat2Z.id, take_take, Nat.min_comm, <- take_take, take_app_length.
Qed.

Lemma tail_loop_ok rs : forall fuel pre n acc whr,
  Forall record_ok rs -> (length (take n (file_bytes rs)) < fuel)%nat -> whr = length pre ->
  tail_loop fuel (length pre) acc (pre ++ take n (file_bytes rs)) whr =
    (Ret (acc ++ complete rs n), length pre + length (file_bytes (complete rs n)))%nat.
Proof.
  induction rs as [|r rs IH]; intros fuel pre n acc whr Hrs Hf ->; (destruct fuel as [|fuel]; [lia|]);
    cbn [tail_loop]; rewrite drop_app_length.
  - unfold file_bytes. cbn. rewrite take_nil. cbn. by rewrite app_nil_r, Nat.add_0_r.
  - apply Forall_cons in Hrs as [[Hts Hlen] Hrs].
    change (file_bytes (r :: rs)) with (record_bytes r ++ file_bytes rs) in *.
    cbn [complete]. pose proof (length_record r) as Hlr. rewrite length_take, length_app in Hf.
    destruct (Nat.ltb_spec (length (take 8 (take n (record_bytes r ++ file_bytes rs)))) 8) as [Hsh|Hge].
    { rewrite !length_take, length_app in Hsh.
      rewrite (proj2 (Nat.leb_gt _ _)) by lia. cbn. by rewrite app_nil_r, Nat.add_0_r. }
    rewrite !length_take, length_app in Hge. rewrite take_record by lia.
    rewrite record_header, parse_header_ok by (done || (pose proof (zlen_nonneg r.2); lia)).
    rewrite <- drop_drop, drop_app_length.
    rewrite record_cut by lia.
    destruct (Nat.leb_spec (length (record_bytes r)) n) as [Hfit|Hcut].
    + rewrite (take_ge r.2) by lia. rewrite Z.ltb_irrefl.
      replace (length pre + 8 + length r.2)%nat with (length (pre ++ record_bytes r))
        by (rewrite length_app; lia).
      rewrite take_app_ge by lia. rewrite app_assoc.
      rewrite (IH fuel _ _ _ _ Hrs); [|rewrite length_take; lia|done].
      rewrite <- app_assoc. destruct r as [ts d]. cbn [app fst snd]. f_equal.
      unfold file_bytes. cbn [fmap list_fmap concat]. rewrite !length_app. lia.
    + rewrite (proj2 (Z.ltb_lt _ _)) by (rewrite zlen_take; unfold zlen; lia).
      cbn. by rewrite app_nil_r, Nat.add_0_r.
Qed.


Lemma file_bytes_app rs rs' : file_bytes (rs ++ rs') = file_bytes rs ++ file_bytes rs'.
Proof. unfold file_bytes. by rewrite fmap_app, concat_app. Qed.
Lemma file_bytes_cons r rs : file_bytes (r :: rs) = record_bytes r ++ file_bytes rs.
Proof. done. Qed.

Lemma complete_app done rest n :
  (length (file_bytes done) <= n)%nat ->
  complete (done ++ rest) n = done ++ complete rest (n - length (file_bytes done)).
Proof.
  revert n. induction done as [|r done IH]; intros n Hn; [cbn [app]; by rewrite Nat.sub_0_r|].
  rewrite file_bytes_cons, length_app in Hn. rewrite <- !app_comm_cons. cbn [complete].
  rewrite (proj2 (Nat.leb_le _ _)), IH by lia. do 3 f_equal. rewrite file_bytes_cons, length_app. lia.
Qed.
Lemma complete_fits rs n :
  (length (file_bytes (complete rs n)) <= n)%nat /\ exists rest, rs = complete rs n ++ rest.
Proof.
  revert n. induction rs as [|r rs IH]; intros n; cbn [complete]; [cbn; split; [lia|by exists []]|].
  destruct (Nat.leb_spec (length (record_bytes r)) n); [|cbn; split; [lia|by exists (r :: rs)]].
  destruct (IH (n - length (record_bytes r))%nat) as [Hl [rest Hr]].
  rewrite file_bytes_cons, length_app. split; [lia|]. exists rest. rewrite <- app_comm_cons. by rewrite <- Hr.
Qed.
Lemma complete_all rs n : (length (file_bytes rs) <= n)%nat -> complete rs n = rs.
Proof. intros Hn. rewrite <- (app_nil_r rs) at 1. rewrite complete_app by done. cbn. by rewrite app_nil_r. Qed.

(** One call of [next] when [n] bytes of the file are there. *)
Lemma tail_next_ok rs n n0 :
  Forall record_ok rs -> (n0 <= n)%nat ->
  exists new, tail_next (Tailer (take n (file_bytes rs)) (length (file_bytes (complete rs n0)))) =
      (Ret new, Tailer (take n (file_bytes rs)) (length (file_bytes (complete rs n)))) /\
    complete rs n = complete rs n0 ++ new.
Proof.
  intros Hrs Hn. destruct (complete_fits rs n0) as [Hfit [rest Hrest]].
  set (done := complete rs n0) in *. exists (complete rest (n - length (file_bytes done))).
  assert (complete rs n = done ++ complete rest (n - length (file_bytes done))) as Hc
    by (rewrite Hrest; apply complete_app; lia).
  split; [|done]. unfold tail_next. cbn [t_content where_].
  assert (take n (file_bytes rs) = file_bytes done ++ take (n - length (file_bytes done)) (file_bytes rest)) as ->
    by (rewrite Hrest, file_bytes_app, take_app_ge by lia; done).
  rewrite tail_loop_ok; [|rewrite Hrest in Hrs; by apply Forall_app in Hrs as [_ ?]|rewrite length_app; lia|done].
  by rewrite Hc, file_bytes_app, length_app.
Qed.

(** Calls of [next] while the file grows: before each call it has the given length. *)
Fixpoint poll (file : bytes) (ns : list nat) (whr : nat) : res (list (list (Z * bytes))) :=
  match ns with
  | [] => Ret []
  | n :: ns =>
      match tail_next (Tailer (take n file) whr) with
      | (Ret x, t) => let? xs := poll file ns (where_ t) in Ret (x :: xs)
      | (Raise e, _) => Raise e
      end
  end.
(** Lengths that never decrease, from [n0]. *)
Fixpoint growing (n0 : nat) (ns : list nat) : Prop :=
  match ns with [] => True | n :: ns => (n0 <= n)%nat /\ growing n ns end.

Lemma poll_ok rs ns : forall n0,
  Forall record_ok rs -> growing n0 ns ->
  exists xss, poll (file_bytes rs) ns (length (file_bytes (complete rs n0))) = Ret xss /\
    complete rs n0 ++ concat xss = complete rs (default n0 (last ns)).
Proof.
  induction ns as [|n ns IH]; intros n0 Hrs Hg; [exists []; cbn; by rewrite app_nil_r|].
  destruct Hg as [Hn Hg]. destruct (tail_next_ok rs n n0 Hrs Hn) as (new & Ht & Hc).
  destruct (IH n Hrs Hg) as (xss & Hp & Hx). exists (new :: xss). cbn [poll]. rewrite Ht. cbn [where_].
  rewrite Hp. split; [done|]. cbn [concat]. rewrite app_assoc, <- Hc, Hx, last_cons. by destruct (last ns).
Qed.

(** [C12] Following a capture while it is written: however the file grows between the
    calls of [CaptureReaderTail.next] (also in the middle of a header or of a packet),
    the calls together return every record complete by then exactly once and in order;
    when the whole file is there, that is all of them. *)
Theorem tail_exactly_once rs ns n :
  Forall record_ok rs -> growing 0 ns -> last ns = Some n ->
  exists xss, poll (file_bytes rs) ns 0 = Ret xss /\ concat xss = complete rs n /\
    ((length (file_bytes rs) <= n)%nat -> concat xss = rs).
Proof.
  intros Hrs Hg Hl. assert (complete rs 0 = []) as H0.
  { destruct rs as [|r rs]; [done|]. cbn [complete].
    by rewrite (proj2 (Nat.leb_gt _ _)) by (rewrite length_record; lia). }
  destruct (poll_ok rs ns 0 Hrs Hg) as (xss & Hp & Hx). rewrite H0, Hl in *. cbn in Hx, Hp.
  exists xss. split; [done|]. split; [done|]. intros Hall. by rewrite Hx, complete_all.
Qed.
Lemma tail_exactly_once_witness :
  exists xss, poll (file_bytes [(5, [1; 2; 3]); (6, [9])]) [4%nat; 12%nat; 20%nat] 0 = Ret xss /\
    concat xss = complete [(5, [1; 2; 3]); (6, [9])] 20 /\
    ((20 <= 20)%nat -> concat xss = [(5, [1; 2; 3]); (6, [9])]).
Proof.
  apply (tail_exactly_once [(5, [1; 2; 3]); (6, [9])] [4%nat; 12%nat; 20%nat] 20).
  - repeat constructor; cbn; lia.
  - cbn. lia.
  - done.
Defined.
