(* ===== verification/DiskSensor.v ===== *)
(** Model of [lophi/sensors/disk/physical.py]: the disk sensor on an FPGA card, which
    streams the SATA frames it sees over UDP.  The wire is the list of datagrams that
    have not been read yet; a read from an empty wire blocks.  Frames the network has
    reordered are held in a heap, modelled by its contents in ascending order. *)
From Stdlib Require Import Sorting.Sorted.
From S2P Require Import Prelude Struct DataStruct.

Definition MAX_HEAP_SIZE : nat := 20.
Definition SENSOR_DISK_MAGIC := 0xDEADBEEF.
Definition OP_REG_READ := 0x0.
Definition OP_REG_WRITE := 0x01.
Definition OP_SATA_FRAME := 0x80.
Definition ADDR_UDP_DELAY := 0x01.
Definition ADDR_IP_SENS := 0x04.
Definition ADDR_IP_DEST := 0x08.
Definition ADDR_MTU_SIZE := 0xa.
Definition ADDR_SATA_CTRL := 0x10.

(** Sequence numbers: [None] for a frame too short to carry one.  Python 2 orders
    [None] before every number. *)
Abbreviation seqn := (option Z).
Definition seqn_leb (a b : seqn) : bool :=
  match a, b with
  | None, _ => true
  | Some _, None => false
  | Some x, Some y => x <=? y
  end.

Record sensor := Sensor_ {
  wire : list bytes;
  sent : list bytes;
  sata_enabled : bool;
  sata_heap : list (seqn * dstruct);
  last_lophi_seqn : seqn;
  last_lophi_packet : option dstruct;
  DROPPED_PACKETS : Z
}.
Definition new_sensor (w : list bytes) : sensor := Sensor_ w [] false [] None None 0.

Definition set_wire (x : list bytes) (s : sensor) : sensor :=
  Sensor_ x (sent s) (sata_enabled s) (sata_heap s) (last_lophi_seqn s) (last_lophi_packet s) (DROPPED_PACKETS s).
Definition set_sent (x : list bytes) (s : sensor) : sensor :=
  Sensor_ (wire s) x (sata_enabled s) (sata_heap s) (last_lophi_seqn s) (last_lophi_packet s) (DROPPED_PACKETS s).
Definition set_sata_enabled (x : bool) (s : sensor) : sensor :=
  Sensor_ (wire s) (sent s) x (sata_heap s) (last_lophi_seqn s) (last_lophi_packet s) (DROPPED_PACKETS s).
Definition set_sata_heap (x : list (seqn * dstruct)) (s : sensor) : sensor :=
  Sensor_ (wire s) (sent s) (sata_enabled s) x (last_lophi_seqn s) (last_lophi_packet s) (DROPPED_PACKETS s).
Definition set_last (n : seqn) (p : dstruct) (s : sensor) : sensor :=
  Sensor_ (wire s) (sent s) (sata_enabled s) (sata_heap s) n (Some p) (DROPPED_PACKETS s).
Definition set_DROPPED_PACKETS (x : Z) (s : sensor) : sensor :=
  Sensor_ (wire s) (sent s) (sata_enabled s) (sata_heap s) (last_lophi_seqn s) (last_lophi_packet s) x.

Abbreviation M := (PM sensor).

(** [recvfrom] *)
Definition _read_raw_packet : M bytes := fun s =>
  match wire s with
  | [] => (Raise Diverges, s)
  | d :: w => (Ret d, set_wire w s)
  end.
Definition get_lophi_packet : M dstruct :=
  let! recv_data := _read_raw_packet in
  pm_lift (init_struct LOPHIPacket recv_data).

(** The assignments to a command packet.  [frame_length] is no field of the packet (the
    field is [frame_len]), and [len(data) / 4] is already rounded down. *)
Definition command_fields (operation memory_address : Z) (data : bytes) : list (string * fval) :=
  [("MAGIC", FVal (SInt SENSOR_DISK_MAGIC)); ("op_code", FVal (SInt operation));
   ("memory_addr", FVal (SInt memory_address)); ("memory_len", FVal (SInt (zlen data / 4)));
   ("frame_length", FVal (SInt (3 + zlen data / 4))); ("data", FVal (SStr data))].
(** The default [data=None] has no length. *)
Definition _send_command (operation memory_address : Z) (data : option bytes) : M dstruct :=
  let! data := pm_lift (of_option TypeError data) in
  let! packet := pm_lift (match assign (command_fields operation memory_address data)
                                  (new_struct LOPHIPacket) with
                          | (Ret _, d) => Ret d
                          | (Raise e, _) => Raise e
                          end) in
  let! raw_data := pm_lift (__repr__ packet) in
  pm_modify (fun s => set_sent (sent s ++ [raw_data]) s) ;!
  get_lophi_packet.

Definition sata_enable_host : M unit :=
  let! _ := _send_command OP_REG_WRITE ADDR_SATA_CTRL (Some [0; 0; 0; 1]) in pm_ret tt.
Definition sata_enable_device : M unit :=
  let! _ := _send_command OP_REG_WRITE ADDR_SATA_CTRL (Some [0; 0; 0; 2]) in pm_ret tt.
Definition sata_enable_all : M unit :=
  let! _ := _send_command OP_REG_WRITE ADDR_SATA_CTRL (Some [0; 0; 0; 3]) in
  pm_modify (set_sata_enabled true).
Definition sata_disable : M bool :=
  let! _ := _send_command OP_REG_WRITE ADDR_SATA_CTRL (Some [0; 0; 0; 0]) in
  pm_modify (set_sata_enabled false) ;! pm_ret true.
Definition get_version : M fval :=
  let! _ := _send_command OP_REG_READ 0 None in
  let! packet := get_lophi_packet in
  pm_lift (getattr packet "data").

(** The four setters write a register and then look at [lophi_packet.header], an
    attribute a [LOPHIPacket] does not have. *)
Definition set_register (addr value : Z) : M bool :=
  let! v := pm_lift (pack nI [SInt value]) in
  let! p := _send_command OP_REG_WRITE addr (Some v) in
  let! _ := pm_lift (getattr p "header") in
  pm_ret true.
Definition set_dest_ip (ip : Z) : M bool := set_register ADDR_IP_DEST ip.
Definition set_sensor_ip (ip : Z) : M bool := set_register ADDR_IP_SENS ip.
Definition set_udp_delay (delay : Z) : M bool := set_register ADDR_UDP_DELAY delay.
Definition set_mtu_size (mtu_size : Z) : M bool := set_register ADDR_MTU_SIZE mtu_size.

(** ** Reordering *)

(** [heapq.heappush]: after the entries that are not larger. *)
Fixpoint heappush (heap : list (seqn * dstruct)) (x : seqn * dstruct) : list (seqn * dstruct) :=
  match heap with
  | [] => [x]
  | y :: heap => if seqn_leb y.1 x.1 then y :: heappush heap x else x :: y :: heap
  end.

(** [SATAFrame(lophi_packet.data)] *)
Definition sata_frame (p : dstruct) : res dstruct :=
  match payload p with
  | Some d => init_struct SATAFrame d
  | None => Ret (new_struct SATAFrame)
  end.
Definition frame_seqn (f : dstruct) : seqn :=
  match dict f !! "seqn_num" with Some (FVal (SInt z)) => Some z | _ => None end.
(** [(self.last_lophi_seqn + 1) % 65536] *)
Definition expected (last : seqn) : res Z :=
  match last with Some l => Ret ((l + 1) mod 65536) | None => Raise TypeError end.

(** What [_get_sata_packet] returns: the SATA frame of a packet that arrived in order,
    but the whole packet for one that waited in the heap. *)
Inductive delivery := DFrame (f : dstruct) | DPacket (p : dstruct).

(** The branch that takes a packet off the heap, or [None] when it must not. *)
Definition try_heap : M (option delivery) := fun s =>
  match sata_heap s with
  | [] => (Ret None, s)
  | (n, p) :: heap =>
      match expected (last_lophi_seqn s) with
      | Raise e => (Raise e, s)
      | Ret e =>
          let full := (MAX_HEAP_SIZE <? length (sata_heap s))%nat in
          if bool_decide (n = Some e) || full then
            let s := if full then set_DROPPED_PACKETS (DROPPED_PACKETS s + 1) s else s in
            (Ret (Some (DPacket p)), set_last n p (set_sata_heap heap s))
          else (Ret None, s)
      end
  end.

(** The packet from the wire: delivered, put on the heap or skipped. *)
Definition take_packet (p : dstruct) : M (option delivery) :=
  let! op := pm_lift (getattr p "op_code") in
  if bool_decide (op = FVal (SInt OP_SATA_FRAME)) then
    let! f := pm_lift (sata_frame p) in
    let n := frame_seqn f in
    let! last := pm_get last_lophi_seqn in
    match last with
    | Some l =>
        if bool_decide (n = Some ((l + 1) mod 65536))
        then pm_modify (set_last n p) ;! pm_ret (Some (DFrame f))
        else pm_modify (fun s => set_sata_heap (heappush (sata_heap s) (n, p)) s) ;!
             (* the message formats the number with [%d] *)
             let! _ := pm_lift (of_option TypeError n) in pm_ret None
    | None => pm_modify (set_last n p) ;! pm_ret (Some (DFrame f))
    end
  else pm_ret None.

(** [while 1]: a round that goes on has taken a datagram off the wire. *)
Fixpoint packet_loop (fuel : nat) : M delivery :=
  match fuel with
  | O => pm_raise Diverges
  | S fuel =>
      let! h := try_heap in
      match h with
      | Some d => pm_ret d
      | None =>
          let! p := get_lophi_packet in
          let! r := take_packet p in
          match r with Some d => pm_ret d | None => packet_loop fuel end
      end
  end.
Definition _get_sata_packet : M delivery :=
  let! on := pm_get sata_enabled in
  (if on then pm_ret tt else sata_enable_all) ;!
  let! w := pm_get wire in
  packet_loop (S (length w)).

(** * Nothing is lost or repeated *)

(** The packets with SATA frames among the datagrams. *)
Definition sata_packet (d : bytes) : option dstruct :=
  match init_struct LOPHIPacket d with
  | Ret p => if bool_decide (getattr p "op_code" = Ret (FVal (SInt OP_SATA_FRAME))) then Some p else None
  | Raise _ => None
  end.
Definition pending (s : sensor) : list dstruct := (sata_heap s).*2 ++ omap sata_packet (wire s).

Lemma heappush_perm heap x : heappush heap x ≡ₚ x :: heap.
Proof.
  induction heap as [|y heap IH]; cbn; [done|]. destruct (seqn_leb _ _); [|done].
  rewrite IH. apply Permutation_swap.
Qed.

Lemma getattr_eq p k v : getattr p k = Ret v -> dict p !! k = Some v.
Proof. unfold getattr. destruct (dict p !! k); cbn; [by intros [= ->]|done]. Qed.

Lemma try_heap_conserves s r s' :
  try_heap s = (Ret r, s') ->
  match r with
  | None => s' = s
  | Some d => exists p, last_lophi_packet s' = Some p /\ d = DPacket p /\ pending s = p :: pending s'
  end.
Proof.
  unfold try_heap. destruct (sata_heap s) as [|[n p] heap] eqn:Hh; [by intros [= <- <-]|].
  destruct (expected _) as [e|e]; [|done]. destruct (_ || _); [|by intros [= <- <-]].
  intros [= <- <-]. exists p. split; [done|]. split; [done|]. unfold pending. rewrite Hh. cbn.
  by repeat case_match.
Qed.

Lemma take_packet_conserves p s r s' :
  take_packet p s = (Ret r, s') -> wire s' = wire s /\
  match r with
  | Some d => last_lophi_packet s' = Some p /\ sata_heap s' = sata_heap s /\
              getattr p "op_code" = Ret (FVal (SInt OP_SATA_FRAME))
  | None => (sata_heap s').*2 ++ omap sata_packet (wire s) ≡ₚ
            (if bool_decide (getattr p "op_code" = Ret (FVal (SInt OP_SATA_FRAME))) then [p] else [])
              ++ (sata_heap s).*2 ++ omap sata_packet (wire s)
  end.
Proof.
  unfold take_packet, pm_bind, pm_lift, pm_get. destruct (getattr p "op_code") as [op|] eqn:Hop; [|done].
  destruct (decide (op = FVal (SInt OP_SATA_FRAME))) as [->|Hne].
  - rewrite !bool_decide_eq_true_2 by done. destruct (sata_frame p) as [f|]; [|done].
    destruct (last_lophi_seqn s) as [l|]; [|by intros [= <- <-]].
    case_bool_decide; [by intros [= <- <-]|]. unfold pm_modify. cbn.
    destruct (frame_seqn f) as [n|]; [|done]. intros [= <- <-]. split; [done|]. cbn [sata_heap set_sata_heap].
    by rewrite heappush_perm.
  - rewrite (bool_decide_eq_false_2 (op = _)) by done. intros [= <- <-]. split; [done|].
    rewrite bool_decide_eq_false_2 by congruence. done.
Qed.

Lemma packet_loop_conserves fuel : forall s d s',
  packet_loop fuel s = (Ret d, s') ->
  exists p, last_lophi_packet s' = Some p /\ pending s ≡ₚ p :: pending s'.
Proof.
  induction fuel as [|fuel IH]; intros s d s' H; [done|]. cbn [packet_loop] in H. unfold pm_bind at 1 in H.
  destruct (try_heap s) as [[r|e] s0] eqn:Hh; [|done]. apply try_heap_conserves in Hh.
  destruct r as [d0|].
  { injection H as -> <-. destruct Hh as (p & Hl & _ & Hp). exists p. by rewrite Hp. }
  subst s0. unfold pm_bind at 1, get_lophi_packet, pm_bind at 1, _read_raw_packet, pm_lift in H.
  destruct (wire s) as [|w ws] eqn:Hw; [done|].
  destruct (init_struct LOPHIPacket w) as [p|] eqn:Hp; [|done]. unfold pm_bind in H.
  destruct (take_packet p (set_wire ws s)) as [[r|e] s1] eqn:Ht; [|done].
  apply take_packet_conserves in Ht as [Hw1 Hr]. cbn [wire set_wire sata_heap] in *.
  assert (omap sata_packet (w :: ws) =
    (if bool_decide (getattr p "op_code" = Ret (FVal (SInt OP_SATA_FRAME))) then [p] else [])
      ++ omap sata_packet ws) as Hom.
  { cbn. unfold sata_packet at 1. rewrite Hp. by case_bool_decide. }
  destruct r as [d1|].
  - injection H as -> <-. destruct Hr as (Hl & Hh & Hop). exists p. split; [done|].
    unfold pending. rewrite Hw, Hom, Hw1, Hh, bool_decide_eq_true_2 by done. cbn.
    symmetry. apply Permutation_middle.
  - destruct (IH s1 d s' H) as (q & Hl & Hq). exists q. split; [done|]. rewrite <- Hq.
    unfold pending. rewrite Hw, Hom, Hw1, Hr. by rewrite Permutation_app_swap_app.
Qed.

Lemma enabled_packet s :
  sata_enabled s = true -> _get_sata_packet s = packet_loop (S (length (wire s))) s.
Proof. intros Hon. unfold _get_sata_packet, pm_bind at 1, pm_get. by rewrite Hon. Qed.

(** The reordering neither loses nor repeats a frame: whenever
    [_get_sata_packet] returns, the SATA packets that were in the heap and on the wire
    are, as a multiset, the one delivered and those now in the heap and on the wire.
    This holds for any order of arrival, across number wrap-around and when the heap
    overflows. *)
Theorem reorder_conserves s d s' :
  sata_enabled s = true -> _get_sata_packet s = (Ret d, s') ->
  exists p, last_lophi_packet s' = Some p /\ pending s ≡ₚ p :: pending s'.
Proof.
  intros Hon H. rewrite enabled_packet in H by done. by apply packet_loop_conserves in H.
Qed.

(** * Delivery in order *)

(** The datagram carries the SATA packet [x.2], numbered [x.1]. *)
Definition carries (d : bytes) (x : Z * dstruct) : Prop :=
  init_struct LOPHIPacket d = Ret x.2 /\ getattr x.2 "op_code" = Ret (FVal (SInt OP_SATA_FRAME)) /\
  exists f, sata_frame x.2 = Ret f /\ frame_seqn f = Some x.1.
(** Of the packets that arrive in the order [wp], the one numbered [n] arrives in time: behind every
    packet with a smaller number. *)
Fixpoint prompt (wp : list (Z * dstruct)) (n : Z) : bool :=
  match wp with
  | [] => false
  | y :: wp => if y.1 =? n then forallb (fun z => n <? z.1) wp else prompt wp n
  end.
(** What is returned for a packet: its frame if it arrives in time, the whole packet if it has to wait. *)
Definition delivers (in_time : Z -> bool) (d : delivery) (x : Z * dstruct) : Prop :=
  match d with
  | DPacket p => in_time x.1 = false /\ p = x.2
  | DFrame f => in_time x.1 = true /\ sata_frame x.2 = Ret f
  end.

Definition entry (x : Z * dstruct) : seqn * dstruct := (Some x.1, x.2).
Definition by_seqn : Z * dstruct -> Z * dstruct -> Prop := fun a b => a.1 <= b.1.

Lemma heappush_sorted hs x :
  StronglySorted by_seqn hs -> exists hs', heappush (entry <$> hs) (entry x) = entry <$> hs' /\
    hs' ≡ₚ x :: hs /\ StronglySorted by_seqn hs'.
Proof.
  induction 1 as [|y hs Hs IH Hy]; [by exists [x]; repeat constructor|].
  cbn. destruct (Z.leb_spec y.1 x.1).
  - destruct IH as (hs' & -> & Hp & Hs'). exists (y :: hs'). split; [done|].
    split; [rewrite Hp; apply Permutation_swap|]. constructor; [done|]. rewrite Hp. by constructor.
  - exists (x :: y :: hs). split; [done|]. split; [done|]. constructor; [by constructor|].
    constructor; [unfold by_seqn; lia|]. eapply Forall_impl; [exact Hy|].
    unfold by_seqn. intros z Hz. lia.
Qed.

Section in_order.
Context (in_time : Z -> bool).

(** The sensor awaits the packets [pk], numbered consecutively behind [l]; some of them
    are in the heap [hs] and the others, [wp], on the wire in any order. *)
Record awaiting (l : Z) (pk hs wp : list (Z * dstruct)) (s : sensor) : Prop := {
  aw_on : sata_enabled s = true;
  aw_last : last_lophi_seqn s = Some l;
  aw_range : 0 <= l /\ l + Z.of_nat (length pk) < 65536;
  aw_numbers : pk.*1 = seqZ (l + 1) (Z.of_nat (length pk));
  aw_few : (length pk <= MAX_HEAP_SIZE)%nat;
  aw_split : hs ++ wp ≡ₚ pk;
  aw_sorted : StronglySorted by_seqn hs;
  aw_heap : sata_heap s = entry <$> hs;
  aw_wire : Forall2 carries (wire s) wp;
  aw_late : Forall (fun y => in_time y.1 = false) hs;
  aw_prompt : Forall (fun y => in_time y.1 = prompt wp y.1) wp
}.

Section awaiting.
Context (l : Z) (x0 : Z * dstruct) (pk hs wp : list (Z * dstruct)) (s : sensor).
Context (Haw : awaiting l (x0 :: pk) hs wp s).

Lemma first_number : x0.1 = l + 1.
Proof.
  pose proof (aw_numbers _ _ _ _ _ Haw) as H. cbn [fmap list_fmap length] in H.
  rewrite Nat2Z.inj_succ, seqZ_cons in H by lia. by injection H.
Qed.
Lemma rest_numbers : pk.*1 = seqZ (l + 1 + 1) (Z.of_nat (length pk)).
Proof.
  pose proof (aw_numbers _ _ _ _ _ Haw) as H. cbn [fmap list_fmap length] in H.
  rewrite Nat2Z.inj_succ, seqZ_cons in H by lia. injection H as _ H. rewrite H.
  f_equal; lia.
Qed.
Lemma number_ge y : y ∈ x0 :: pk -> l + 1 <= y.1.
Proof.
  intros Hy. assert (y.1 ∈ (x0 :: pk).*1) as Hin by (by apply list_elem_of_fmap_2).
  rewrite (aw_numbers _ _ _ _ _ Haw), elem_of_seqZ in Hin. lia.
Qed.
Lemma number_unique y : y ∈ x0 :: pk -> y.1 = l + 1 -> y = x0.
Proof.
  intros Hy Hn. apply elem_of_cons in Hy as [?|Hy]; [done|].
  assert (y.1 ∈ pk.*1) as Hin by (by apply list_elem_of_fmap_2).
  rewrite rest_numbers, elem_of_seqZ in Hin. lia.
Qed.
Lemma arrivals_distinct y wp' : wp = y :: wp' -> Forall (fun z => y.1 <> z.1) wp'.
Proof.
  intros ->. apply Forall_forall. intros z Hz E. pose proof (fmap_Permutation fst _ _ (aw_split _ _ _ _ _ Haw)) as Hp.
  rewrite (aw_numbers _ _ _ _ _ Haw), fmap_app, fmap_cons in Hp. assert (NoDup (hs.*1 ++ y.1 :: wp'.*1)) as Hd by (rewrite Hp; apply NoDup_seqZ).
  apply NoDup_app in Hd as (_ & _ & [Hy _]%NoDup_cons). apply Hy. rewrite E. by apply list_elem_of_fmap_2.
Qed.
Lemma expected_next : expected (last_lophi_seqn s) = Ret (l + 1).
Proof.
  rewrite (aw_last _ _ _ _ _ Haw). pose proof (aw_range _ _ _ _ _ Haw) as H. cbn [length] in H.
  cbn. rewrite Z.mod_small by lia. done.
Qed.
Lemma heap_small : (length (sata_heap s) <= MAX_HEAP_SIZE)%nat.
Proof.
  rewrite (aw_heap _ _ _ _ _ Haw), length_fmap. pose proof (aw_few _ _ _ _ _ Haw).
  pose proof (Permutation_length (aw_split _ _ _ _ _ Haw)) as Hl. rewrite length_app in Hl. lia.
Qed.
End awaiting.

Lemma awaiting_next l x0 pk hs wp s s' n p :
  awaiting l (x0 :: pk) hs wp s -> p = x0.2 -> n = Some (l + 1) ->
  forall hs' wp', hs' ++ wp' ≡ₚ pk -> StronglySorted by_seqn hs' -> sata_heap s' = entry <$> hs' ->
  Forall2 carries (wire s') wp' -> sata_enabled s' = true ->
  Forall (fun y => in_time y.1 = false) hs' -> Forall (fun y => in_time y.1 = prompt wp' y.1) wp' ->
  awaiting (l + 1) pk hs' wp' (set_last n p s').
Proof.
  intros Haw -> -> hs' wp' Hp Hs Hh Hw Hon Hlate Hpr. pose proof Haw as [_ _ Hr _ Hf _ _ _ _ _ _].
  cbn [length] in *. split; cbn; try done; try lia. by eapply rest_numbers.
Qed.


(** The heap is used exactly when the expected packet waits in it. *)
Lemma try_heap_awaiting l x0 pk hs wp s :
  awaiting l (x0 :: pk) hs wp s ->
  (exists hs' s', hs = x0 :: hs' /\ in_time x0.1 = false /\ try_heap s = (Ret (Some (DPacket x0.2)), s') /\
     awaiting (l + 1) pk hs' wp s') \/
  (try_heap s = (Ret None, s) /\ x0 ∈ wp).
Proof.
  intros Haw. pose proof Haw as [Hon Hlast Hrange _ Hfew Hsplit Hsort Hheap Hwire Hlate Hpr].
  pose proof (heap_small _ _ _ _ _ _ Haw) as Hsmall. pose proof (expected_next _ _ _ _ _ _ Haw) as Hexp.
  assert (x0 ∈ hs ++ wp) as Hx0 by (rewrite Hsplit; set_solver).
  unfold try_heap. rewrite Hheap. destruct hs as [|h hs].
  { right. split; [done|]. by rewrite app_nil_l in Hx0. }
  cbn [fmap list_fmap]. change (entry h) with (Some h.1, h.2). cbv beta iota zeta.
  rewrite Hexp. rewrite Hheap in Hsmall.
  cbn [fmap list_fmap] in Hsmall. change (entry h) with (Some h.1, h.2) in Hsmall.
  rewrite (proj2 (Nat.ltb_ge _ _)) by done. rewrite orb_false_r.
  assert (forall y, y ∈ h :: hs -> y ∈ x0 :: pk) as Hsub.
  { intros y Hy. rewrite <- Hsplit. set_solver. }
  destruct (decide (h.1 = l + 1)) as [Hh|Hh].
  - left. assert (h = x0) as -> by (eapply number_unique; [done|apply Hsub; set_solver|done]).
    exists hs. eexists. split; [done|]. apply Forall_cons in Hlate as [Hx Hlate]. split; [done|].
    rewrite bool_decide_eq_true_2 by congruence.
    split; [reflexivity|]. apply StronglySorted_inv in Hsort as [Hsort _].
    eapply awaiting_next; [done|done|by rewrite Hh| |done..].
    by apply Permutation_cons_inv in Hsplit.
  - right. rewrite bool_decide_eq_false_2 by (intros [= E]; by apply Hh). split; [done|].
    apply elem_of_app in Hx0 as [Hx0|?]; [|done]. exfalso. apply Hh.
    apply StronglySorted_inv in Hsort as [_ Hmin].
    assert (h.1 <= x0.1) as Hle.
    { apply elem_of_cons in Hx0 as [->|Hx0]; [done|]. rewrite Forall_forall in Hmin. by apply Hmin. }
    rewrite (first_number _ _ _ _ _ _ Haw) in Hle.
    pose proof (number_ge _ _ _ _ _ _ Haw h ltac:(apply Hsub; set_solver)). lia.
Qed.

(** A packet off the wire is delivered when it is the expected one and otherwise waits. *)
Lemma take_awaiting l x0 pk hs wp s w ws y :
  awaiting l (x0 :: pk) hs (y :: wp) s -> wire s = w :: ws -> x0 ∈ y :: wp ->
  get_lophi_packet s = (Ret y.2, set_wire ws s) /\
  ((y = x0 /\ in_time x0.1 = true /\ exists f s', take_packet y.2 (set_wire ws s) = (Ret (Some (DFrame f)), s') /\
      sata_frame x0.2 = Ret f /\ awaiting (l + 1) pk hs wp s') \/
   exists s' hs', take_packet y.2 (set_wire ws s) = (Ret None, s') /\
      awaiting l (x0 :: pk) hs' wp s' /\ wire s' = ws).
Proof.
  intros Haw Hw Hx0. pose proof Haw as [Hon Hlast Hrange Hnum Hfew Hsplit Hsort Hheap Hwire Hlate Hpr].
  rewrite Hw in Hwire. apply Forall2_cons_1 in Hwire as [(Hp & Hop & f & Hf & Hn) Hws].
  split. { unfold get_lophi_packet, _read_raw_packet, pm_bind, pm_lift. by rewrite Hw, Hp. }
  assert (y ∈ x0 :: pk) as Hy by (rewrite <- Hsplit; set_solver).
  pose proof (arrivals_distinct _ _ _ _ _ _ Haw y wp eq_refl) as Hd. apply Forall_cons in Hpr as [Hpy Hpr].
  assert (Forall (fun z => in_time z.1 = prompt wp z.1) wp) as Hpr'.
  { apply Forall_forall. intros z Hz. rewrite Forall_forall in Hpr, Hd. rewrite (Hpr z Hz). cbn [prompt].
    by rewrite (proj2 (Z.eqb_neq _ _) (Hd z Hz)). }
  cbn [prompt] in Hpy. rewrite Z.eqb_refl in Hpy.
  unfold take_packet, pm_bind, pm_lift, pm_get. rewrite Hop, bool_decide_eq_true_2, Hf by done.
  cbn [last_lophi_seqn set_wire]. rewrite Hlast, Hn. cbn [length] in Hrange.
  rewrite Z.mod_small by lia. destruct (decide (y.1 = l + 1)) as [Hy1|Hy1].
  - left. assert (y = x0) as -> by (by eapply number_unique). split; [done|]. split.
    { rewrite Hpy. apply forallb_forall. intros z Hz%list_elem_of_In. rewrite Forall_forall in Hd. specialize (Hd z Hz).
      pose proof (number_ge _ _ _ _ _ _ Haw z ltac:(rewrite <- Hsplit; set_solver)). lia. }
    rewrite bool_decide_eq_true_2 by congruence. exists f. eexists. split; [reflexivity|]. split; [done|].
    eapply awaiting_next; [done|done|by rewrite Hy1| |done..].
    apply (Permutation_cons_inv (a := x0)). by rewrite <- Hsplit, Permutation_middle.
  - right. rewrite bool_decide_eq_false_2 by congruence. unfold pm_modify. cbn.
    destruct (heappush_sorted hs y Hsort) as (hs' & Hpush & Hperm & Hsort').
    eexists _, hs'. split; [reflexivity|]. split; [|done].
    split; try done.
    + rewrite Hperm. cbn. by rewrite Permutation_middle.
    + cbn. rewrite Hheap. exact Hpush.
    + rewrite Hperm. constructor; [|done]. rewrite Hpy. apply not_true_is_false. intros Hall.
      rewrite forallb_forall in Hall. pose proof (first_number _ _ _ _ _ _ Haw) as H1. apply elem_of_cons in Hx0 as [<-|Hx0]; [done|].
      apply list_elem_of_In, Hall in Hx0. pose proof (number_ge _ _ _ _ _ _ Haw y Hy). lia.
Qed.

Lemma packet_loop_ordered fuel : forall l x0 pk hs wp s,
  awaiting l (x0 :: pk) hs wp s -> (length (wire s) < fuel)%nat ->
  exists d s' hs' wp', packet_loop fuel s = (Ret d, s') /\ delivers in_time d x0 /\
    awaiting (l + 1) pk hs' wp' s'.
Proof.
  induction fuel as [|fuel IH]; intros l x0 pk hs wp s Haw Hf; [lia|].
  cbn [packet_loop]. unfold pm_bind at 1.
  destruct (try_heap_awaiting _ _ _ _ _ _ Haw) as [(hs' & s' & -> & Ht & -> & Haw')|[-> Hx0]].
  { by exists (DPacket x0.2), s', hs', wp. }
  destruct wp as [|y wp]; [by apply elem_of_nil in Hx0|].
  pose proof (aw_wire _ _ _ _ _ Haw) as Hwire.
  apply Forall2_cons_inv_r in Hwire as (w & ws & _ & _ & Hw).
  destruct (take_awaiting _ _ _ _ _ _ w ws y Haw Hw Hx0) as [Hget Hcase].
  unfold pm_bind at 1. rewrite Hget. unfold pm_bind at 1.
  destruct Hcase as [(-> & Ht & f & s' & -> & Hfr & Haw')|(s' & hs' & -> & Haw' & Hw')].
  - by exists (DFrame f), s', hs, wp.
  - apply (IH _ _ _ _ _ _ Haw'). rewrite Hw in Hf. rewrite Hw'. cbn in Hf. lia.
Qed.

(** [k] calls of [_get_sata_packet] *)
Fixpoint calls (k : nat) : M (list delivery) :=
  match k with
  | O => pm_ret []
  | S k => let! d := _get_sata_packet in let! ds := calls k in pm_ret (d :: ds)
  end.

Lemma calls_ordered pk : forall l hs wp s,
  awaiting l pk hs wp s -> exists ds s', calls (length pk) s = (Ret ds, s') /\ Forall2 (delivers in_time) ds pk.
Proof.
  induction pk as [|x0 pk IH]; intros l hs wp s Haw; [by exists [], s|].
  destruct (packet_loop_ordered (S (length (wire s))) _ _ _ _ _ _ Haw ltac:(lia))
    as (d & s' & hs' & wp' & Hloop & Hd & Haw').
  destruct (IH _ _ _ _ Haw') as (ds & s'' & Hc & Hds).
  exists (d :: ds), s''. split; [|by constructor]. cbn [length calls].
  unfold pm_bind. rewrite enabled_packet, Hloop by apply Haw. by rewrite Hc.
Qed.

End in_order.

(** [C13] Frames the network has reordered are delivered in the order the sensor sent
    them: when up to [MAX_HEAP_SIZE] packets numbered consecutively behind the last one
    arrive in any order, as many calls of [_get_sata_packet] return them by ascending
    number, provided the numbers do not wrap around: the SATA frame of a packet that arrives
    behind all with smaller numbers, and the whole packet for one that has to wait in the heap. *)
Theorem reorder_in_order s l pk wp :
  sata_enabled s = true -> last_lophi_seqn s = Some l -> sata_heap s = [] ->
  0 <= l -> l + Z.of_nat (length pk) < 65536 -> (length pk <= MAX_HEAP_SIZE)%nat ->
  pk.*1 = seqZ (l + 1) (Z.of_nat (length pk)) -> wp ≡ₚ pk -> Forall2 carries (wire s) wp ->
  exists ds s', calls (length pk) s = (Ret ds, s') /\ Forall2 (delivers (prompt wp)) ds pk.
Proof.
  intros Hon Hl Hh H0 Hr Hf Hn Hp Hw. apply (calls_ordered (prompt wp) pk l [] wp s).
  split; try done; [constructor|]. by apply Forall_true.
Qed.

(** Wrap-around defeats the reordering: once a packet numbered 0 has arrived
    early, it is the smallest number in the heap, and a packet in the heap that is the
    expected one is not delivered; the sensor waits for more packets instead. *)
Theorem wrap_around_stalls s l p q heap :
  sata_enabled s = true -> last_lophi_seqn s = Some l -> 0 <= l < 65535 ->
  sata_heap s = (Some 0, p) :: heap -> (Some (l + 1), q) ∈ heap ->
  (length (sata_heap s) <= MAX_HEAP_SIZE)%nat -> wire s = [] ->
  (_get_sata_packet s).1 = Raise Diverges.
Proof.
  intros Hon Hl Hr Hh _ Hf Hw. rewrite enabled_packet, Hw by done.
  cbn [length packet_loop]. unfold pm_bind at 1, try_heap. rewrite Hh in *. rewrite Hl. cbn [expected].
  rewrite Z.mod_small by lia. rewrite bool_decide_eq_false_2 by (intros [= E]; lia).
  rewrite (proj2 (Nat.ltb_ge _ _)) by done. cbn [orb].
  unfold pm_bind, get_lophi_packet, _read_raw_packet, pm_bind. by rewrite Hw.
Qed.

(** ** Examples *)

(** A datagram with a SATA frame numbered [n]. *)
Definition frame_datagram (n : Z) (body : bytes) : bytes :=
  [0xDE; 0xAD; 0xBE; 0xEF; 0; 0x80; 0; 0; 0; 0; 0; 0] ++ be_split 2 n ++ [0; 1] ++ body.
Definition decoded (n : Z) (body : bytes) : dstruct :=
  match init_struct LOPHIPacket (frame_datagram n body) with Ret p => p | Raise _ => new_struct LOPHIPacket end.
Definition example_disk : sensor :=
  Sensor_ [frame_datagram 9 [1]; frame_datagram 8 [2]] [] true [] (Some 7) None 0.

Lemma example_carries :
  carries (frame_datagram 9 [1]) (9, decoded 9 [1]) /\ carries (frame_datagram 8 [2]) (8, decoded 8 [2]).
Proof.
  split; (split; [reflexivity|split; [reflexivity|]]); eexists; (split; [reflexivity|reflexivity]).
Qed.

Lemma reorder_in_order_witness :
  exists f s', calls 2 example_disk = (Ret [DFrame f; DPacket (decoded 9 [1])], s') /\ sata_frame (decoded 8 [2]) = Ret f.
Proof.
  destruct (reorder_in_order example_disk 7 [(8, decoded 8 [2]); (9, decoded 9 [1])]
           [(9, decoded 9 [1]); (8, decoded 8 [2])]) as (ds & s' & Hc & Hd); try done.
  - unfold MAX_HEAP_SIZE. cbn [length]. lia.
  - apply Permutation_swap.
  - repeat constructor; apply example_carries.
  - apply Forall2_cons_inv_r in Hd as (d1 & ? & H1 & Hd & ->). apply Forall2_cons_inv_r in Hd as (d2 & ? & H2 & ->%Forall2_nil_inv_r & ->).
    destruct d1 as [f|]; [|by destruct H1]. destruct d2 as [|p]; [by destruct H2|]. destruct H1 as [_ H1], H2 as [_ H2].
    exists f, s'. cbn [snd] in H2. rewrite <- H2. by split.
Defined.

Definition example_taken : delivery * sensor :=
  match _get_sata_packet example_disk with
  | (Ret d, s) => (d, s)
  | (Raise _, s) => (DPacket (new_struct LOPHIPacket), s)
  end.
Lemma reorder_conserves_witness :
  exists p, last_lophi_packet example_taken.2 = Some p /\
    pending example_disk ≡ₚ p :: pending example_taken.2.
Proof.
  apply (reorder_conserves example_disk example_taken.1); [reflexivity|vm_compute; reflexivity].
Defined.

Lemma wrap_around_stalls_witness :
  (_get_sata_packet (Sensor_ [] [] true
     [(Some 0, decoded 0 [1]); (Some 65535, decoded 65535 [2])] (Some 65534) None 0)).1 = Raise Diverges.
Proof.
  apply (wrap_around_stalls _ 65534 (decoded 0 [1]) (decoded 65535 [2]) [(Some 65535, decoded 65535 [2])]);
    [reflexivity|reflexivity|lia|reflexivity|set_solver|unfold MAX_HEAP_SIZE; cbn; lia|reflexivity].
Defined.
