(* ===== verification/DiskVirtual.v ===== *)
(** Model of [sensors/disk/virtual.py], the disk sensor of virtual machines: packets are read from a
    connection to the introspection server, which is made again when it breaks.  Theorems: whatever
    pieces the data arrives in and wherever connections break, the complete packets of all
    connections are returned in order, as long as headers arrive whole. *)
From S2P Require Import Prelude Struct PyString DataStruct Stream.

(** The connection, the connections the server will accept one after the other, and the requests sent
    (the name of an image is never [None]: the constructor takes its base name first) *)
Record vdisk := VDisk { DISK_IMG : bytes; SOCK : option sock_state; accepts : list sock_state; requests : list bytes }.
Definition set_SOCK (x : option sock_state) (s : vdisk) : vdisk := VDisk (DISK_IMG s) x (accepts s) (requests s).

(** [_connect] with [_connect_sock]: retried until the server accepts, for ever if it never does.  A socket that is open
    is not closed. *)
Definition _connect : PM vdisk unit := fun s =>
  match accepts s with
  | [] => (Raise Diverges, s)
  | c :: rest => (Ret tt, VDisk (DISK_IMG s) (Some c) rest (requests s ++ [lit "n " ++ DISK_IMG s]))
  end.
Definition _disconnect : PM vdisk unit := pm_modify (set_SOCK None).
Definition _read_raw_packet (size : nat) : PM vdisk bytes := fun s =>
  match SOCK s with
  | None => (Raise AttributeError, s)
  | Some c => let '(r, c) := sock_recv size c in (r, set_SOCK (Some c) s)
  end.
Fixpoint data_loop (fuel size : nat) (data : bytes) : PM vdisk bytes :=
  if (size <=? length data)%nat then pm_ret data else
  match fuel with
  | O => pm_raise Diverges
  | S fuel =>
      let! tmp := _read_raw_packet (size - length data) in
      if bool_decide (tmp = []) then pm_ret (data ++ tmp) else data_loop fuel size (data ++ tmp)
  end.
(** Each round but the last ends with a new connection. *)
Fixpoint packet_loop (fuel : nat) (access_packet : dstruct) : PM vdisk dstruct :=
  match fuel with
  | O => pm_raise Diverges
  | S fuel =>
      let! header := _read_raw_packet (__len__ access_packet) in
      if (length header <? __len__ access_packet)%nat then _connect ;! packet_loop fuel access_packet else
      let! access_packet := pm_lift (init_struct DiskSensorPacket header) in
      let! size := pm_lift (get_int access_packet "size") in
      let! data := data_loop (Z.to_nat size) (Z.to_nat size) [] in
      if zlen data <? size then _connect ;! packet_loop fuel access_packet else
      match __setattr__ "data" (FVal (SStr data)) access_packet with
      | (Ret _, access_packet) => pm_ret access_packet
      | (Raise e, _) => pm_raise e
      end
  end.
Definition get_disk_packet : PM vdisk dstruct :=
  let! sock := pm_get SOCK in
  (if sock then pm_ret tt else _connect) ;!
  let! more := pm_get accepts in
  packet_loop (S (length more)) (new_struct DiskSensorPacket).
(** [n] calls, as the disk engine makes them *)
Fixpoint get_packets (n : nat) : PM vdisk (list dstruct) :=
  match n with
  | O => pm_ret []
  | S n => let! p := get_disk_packet in let! ps := get_packets n in pm_ret (p :: ps)
  end.

(** * Packets *)

Record dpkt := DPkt { p_sector : Z; p_num_sectors : Z; p_operation : Z; p_data : bytes }.
Definition dpkt_ok (p : dpkt) : Prop :=
  0 <= p_sector p < 2 ^ 64 /\ 0 <= p_num_sectors p < 2 ^ 32 /\ 0 <= p_operation p < 2 ^ 32 /\ zlen (p_data p) < 2 ^ 32.
Definition header_of (p : dpkt) : bytes :=
  le_split 8 (p_sector p) ++ le_split 4 (p_num_sectors p) ++ le_split 4 (p_operation p) ++ le_split 4 (zlen (p_data p)).
Definition wire (p : dpkt) : bytes := header_of p ++ p_data p.
(** The object that is returned for a packet *)
Definition reads (p : dpkt) (d : dstruct) : Prop :=
  get_int d "sector" = Ret (p_sector p) /\ get_int d "num_sectors" = Ret (p_num_sectors p) /\
  get_int d "disk_operation" = Ret (p_operation p) /\ get_int d "size" = Ret (zlen (p_data p)) /\ payload d = Some (p_data p) /\
  __repr__ d = Ret (wire p).

Lemma header_length p : length (header_of p) = 20%nat.
Proof. unfold header_of. by rewrite !length_app, !length_le_split. Qed.
Lemma wire_nonempty p : wire p <> [].
Proof. intros H%(f_equal length). unfold wire in H. rewrite length_app, header_length in H. cbn in H. lia. Qed.
Definition blank_len d : Prop := __len__ d = 20%nat.
(** The fields of a header, read into any object *)
Lemma header_fields p m : dpkt_ok p ->
  let m' := insert_all m (decode DiskSensorPacket (header_of p)) in
  m' !! "sector" = Some (FVal (SInt (p_sector p))) /\ m' !! "num_sectors" = Some (FVal (SInt (p_num_sectors p))) /\
  m' !! "disk_operation" = Some (FVal (SInt (p_operation p))) /\ m' !! "size" = Some (FVal (SInt (zlen (p_data p)))) /\ m' !! "data" = m !! "data".
Proof.
  intros (H1 & H2 & H3 & H4) m'. pose proof (zlen_nonneg (p_data p)).
  assert (Hd : decode DiskSensorPacket (header_of p) =
    [("sector", FVal (SInt (p_sector p))); ("num_sectors", FVal (SInt (p_num_sectors p))); ("disk_operation", FVal (SInt (p_operation p))); ("size", FVal (SInt (zlen (p_data p))))]).
  { unfold header_of. cbn [decode DiskSensorPacket fQ fI f_order f_codes unpack_codes fval_of int_combine].
    change (calcsize fQ) with 8%nat. change (calcsize fI) with 4%nat.
    repeat (rewrite ?take_app_length', ?drop_app_length' by (by rewrite length_le_split)). rewrite take_ge by (by rewrite length_le_split).
    by rewrite !le_combine_split by done. }
  assert (Hm : Forall (fun kv => m' !! kv.1 = Some kv.2) (decode DiskSensorPacket (header_of p))).
  { apply Forall_forall. intros [k v] Hk. apply insert_all_in; [|done]. rewrite decode_keys. by apply (bool_decide_unpack _). }
  rewrite Hd, !Forall_cons in Hm. destruct Hm as (E1 & E2 & E3 & E4 & _). split_and!; [done..|].
  unfold m'. rewrite insert_all_ne; [done|]. rewrite decode_keys. by apply (bool_decide_unpack _).
Qed.
Lemma header_decoded p : dpkt_ok p -> exists d, init_struct DiskSensorPacket (header_of p) = Ret d /\ blank_len d /\
  get_int d "size" = Ret (zlen (p_data p)) /\
  forall data, data = p_data p -> exists d', __setattr__ "data" (FVal (SStr data)) d = (Ret tt, d') /\ reads p d'.
Proof.
  intros Hp. rewrite init_struct_decode by (by rewrite header_length). eexists. split; [reflexivity|].
  change (layout_size DiskSensorPacket) with 20%nat. rewrite Nat.ltb_irrefl, take_ge by (by rewrite header_length).
  destruct (header_fields p (blank_dict DiskSensorPacket) Hp) as (E1 & E2 & E3 & E4 & E5). rewrite blank_dict_data in E5.
  split_and!.
  - unfold blank_len, __len__, payload. cbn [dict]. by rewrite E5.
  - unfold get_int, getattr. cbn [dict]. by rewrite E4.
  - intros data ->. rewrite setattr_other by (by apply (bool_decide_unpack _)). eexists. split; [reflexivity|].
    unfold reads, get_int, getattr, payload, __repr__, set_dict. cbn [dict struct_raw_data STRUCT of_option res_bind].
    rewrite !(lookup_insert_ne _ "data") by done. unfold payload. cbn [dict]. rewrite !lookup_insert_eq, E1, E2, E3, E4. done.
Qed.

(** * Connections *)

(** A packet whose end is missing *)
Definition cut (t : bytes) : Prop := exists p r, dpkt_ok p /\ wire p = t ++ r /\ r <> [].
(** A connection that delivers packets and then ends, maybe within one *)
Definition delivers (ps : list dpkt) (c : sock_state) : Prop :=
  exists t, cut t /\ Forall dpkt_ok ps /\ whole 20 c /\ pending_bytes c = concat (wire <$> ps) ++ t.
(** The packets that the sensor will still get, over all connections *)
Definition offers (l : list dpkt) (s : vdisk) : Prop :=
  exists ps more, match SOCK s with None => ps = [] | Some c => delivers ps c end /\ Forall2 delivers more (accepts s) /\ l = ps ++ concat more.

Section connected.
Context (s : vdisk) (c : sock_state) (HS : SOCK s = Some c).
Lemma recv_on n : (0 < n)%nat -> exists k, (0 < k <= n)%nat /\ (forall m, whole m c -> (m <= n)%nat -> (m <= k)%nat) /\
  _read_raw_packet n s = (Ret (take k (pending_bytes c)), set_SOCK (Some (Socket (drop k (pending_bytes c)) (tail (arrivals c)))) s).
Proof. intros Hn. destruct (recv_some n c Hn) as (k & Hk & Hr & Hm). exists k. split; [done|]. split; [done|]. unfold _read_raw_packet. by rewrite HS, Hr. Qed.
Lemma recv_header : whole 20 c -> _read_raw_packet 20 s =
  (Ret (take 20 (pending_bytes c)), set_SOCK (Some (Socket (drop 20 (pending_bytes c)) (tail (arrivals c)))) s).
Proof. intros Hw. unfold _read_raw_packet. rewrite HS. by rewrite recv_all by (done || lia). Qed.
End connected.
(** What is there of the data is read: all of it, or what came before the end of the connection *)
Lemma data_loop_spec fuel size got s c : SOCK s = Some c -> whole 20 c -> (size <= fuel + length got)%nat -> (length got <= size)%nat ->
  exists c', whole 20 c' /\ pending_bytes c' = drop (size - length got) (pending_bytes c) /\
    data_loop fuel size got s = (Ret (got ++ take (size - length got) (pending_bytes c)), set_SOCK (Some c') s).
Proof.
  revert got s c. induction fuel as [|fuel IH]; intros got s c HS Hw Hf Hg; cbn [data_loop]; destruct (Nat.leb_spec size (length got)); try lia.
  1,2: replace (size - length got)%nat with 0%nat by lia; exists c; split; [done|]; split; [done|]; rewrite take_0, app_nil_r; destruct s; cbn in HS |- *; by rewrite HS.
  destruct (recv_on s c HS (size - length got)) as (k & Hk & _ & Hr); [lia|]. unfold pm_bind. rewrite Hr.
  pose proof (whole_next 20 c k Hw) as Hw'. case_bool_decide as He.
  - eexists. split; [exact Hw'|]. assert (pending_bytes c = []) as Hp by (destruct (pending_bytes c); [done|destruct k; [lia|done]]).
    rewrite Hp, !drop_nil, !take_nil. split; [done|]. done.
  - destruct (IH (got ++ take k (pending_bytes c)) (set_SOCK (Some (Socket (drop k (pending_bytes c)) (tail (arrivals c)))) s) _ eq_refl Hw') as (c' & Hc' & Hp & ->).
    { rewrite length_app, length_take. assert (pending_bytes c <> []) by (intros E; by rewrite E, take_nil in He). destruct (pending_bytes c); [done|cbn [length]; lia]. }
    { rewrite length_app, length_take. lia. }
    exists c'. split; [done|]. cbn [pending_bytes] in *. rewrite length_app, length_take in Hp |- *.
    destruct (Nat.le_gt_cases k (length (pending_bytes c))) as [Hle|Hgt].
    + rewrite Nat.min_l in Hp |- * by done. rewrite drop_drop in Hp. rewrite Hp, <- app_assoc, take_take_drop. split; [f_equal; lia|]. do 4 f_equal. lia.
    + rewrite (drop_ge (pending_bytes c) k) in Hp |- * by lia. rewrite drop_nil in Hp. rewrite take_nil, app_nil_r, Hp, !take_ge, drop_ge by lia. done.
Qed.
Lemma packet_next fuel acc s c p ps : SOCK s = Some c -> delivers (p :: ps) c -> blank_len acc ->
  exists q c', packet_loop (S fuel) acc s = (Ret q, set_SOCK (Some c') s) /\ reads p q /\ delivers ps c'.
Proof.
  intros HS (t & Ht & [Hp Hps]%Forall_cons & Hw & Hb) Hl. cbn [fmap list_fmap concat] in Hb. unfold wire in Hb at 1. rewrite <- !app_assoc in Hb. cbn [packet_loop]. rewrite Hl. unfold pm_bind at 1. rewrite (recv_header s c HS Hw), Hb.
  rewrite take_app_length', drop_app_length' by (by rewrite header_length).
  rewrite header_length. cbn [Nat.ltb Nat.leb]. destruct (header_decoded p Hp) as (d & Hd & _ & Hsize & Hset). unfold pm_bind, pm_lift. rewrite Hd, Hsize.
  unfold zlen. rewrite Nat2Z.id.
  edestruct (data_loop_spec (length (p_data p)) (length (p_data p)) []) as (c' & Hw' & Hp' & ->); [reflexivity|by apply (whole_next 20 c 0)|cbn; lia|cbn; lia|].
  cbn [length app pending_bytes] in *. rewrite Nat.sub_0_r in Hp' |- *. rewrite take_app_length. rewrite drop_app_length in Hp'. rewrite Z.ltb_irrefl.
  destruct (Hset _ eq_refl) as (q & -> & Hq). exists q, c'. split; [done|]. split; [done|]. by exists t.
Qed.
(** The end of a connection leads to the next one. *)
Lemma cut_next fuel acc s c : SOCK s = Some c -> delivers [] c -> blank_len acc ->
  exists acc' c', blank_len acc' /\ packet_loop (S fuel) acc s = (_connect ;! packet_loop fuel acc') (set_SOCK (Some c') s).
Proof.
  intros HS (t & (p & r & Hp & Ht & Hr) & _ & Hw & Hb) Hl. cbn in Hb. cbn [packet_loop]. rewrite Hl. unfold pm_bind at 1. rewrite (recv_header s c HS Hw), Hb.
  pose proof (f_equal length Ht) as Hlen. unfold wire in Hlen. rewrite !length_app, header_length in Hlen.
  destruct (Nat.ltb_spec (length (take 20 t)) 20) as [Hshort|Hlong].
  { exists acc. eexists. split; [done|reflexivity]. }
  rewrite length_take in Hlong. assert (Hh : take 20 t = header_of p).
  { rewrite <- (take_app_le t r), <- Ht by lia. unfold wire. by rewrite take_app_length' by (by rewrite header_length). }
  rewrite Hh. destruct (header_decoded p Hp) as (d & Hd & Hblank & Hsize & _). unfold pm_bind at 1 2, pm_lift. rewrite Hd, Hsize.
  unfold zlen at 1 2. rewrite !Nat2Z.id. unfold pm_bind at 1.
  edestruct (data_loop_spec (length (p_data p)) (length (p_data p)) []) as (c' & _ & _ & ->); [reflexivity|by apply (whole_next 20 c 0)|cbn; lia|cbn; lia|].
  cbn [length app pending_bytes] in *. rewrite Nat.sub_0_r. assert (length r <> 0%nat) by (by destruct r).
  rewrite (proj2 (Z.ltb_lt _ _)); [by exists d, c'|]. unfold zlen. rewrite length_take, length_drop. lia.
Qed.
Lemma loop_next more : forall fuel acc s c ps p l, SOCK s = Some c -> delivers ps c -> Forall2 delivers more (accepts s) ->
  ps ++ concat more = p :: l -> blank_len acc -> (length more < fuel)%nat ->
  exists q s', packet_loop fuel acc s = (Ret q, s') /\ reads p q /\ offers l s'.
Proof.
  induction more as [|ps2 more IH]; intros [|fuel] acc s c ps p l HS Hc Hm Hl Hb Hf; try (cbn in Hf; lia).
  all: destruct ps as [|p' ps]; [|injection Hl as -> Hl; destruct (packet_next fuel acc s c p ps HS Hc Hb) as (q & c' & -> & Hq & Hc'); exists q; eexists;
    split; [done|]; split; [done|]; eexists ps, _; cbn; split; [exact Hc'|]; split; [exact Hm|done]].
  - done.
  - destruct (cut_next fuel acc s c HS Hc Hb) as (acc' & c' & Hb' & ->). inversion Hm as [|? c2 ? rest Hc2 Hrest E1 E2]; subst.
    unfold pm_bind, _connect. cbn [set_SOCK accepts]. rewrite <- E2. apply (IH _ _ _ c2 ps2); try done. cbn in Hf. lia.
Qed.
Lemma get_next p l s : offers (p :: l) s -> exists q s', get_disk_packet s = (Ret q, s') /\ reads p q /\ offers l s'.
Proof.
  intros (ps & more & HS & Hm & Hl). unfold get_disk_packet, pm_bind, pm_get, pm_ret. destruct (SOCK s) as [c|] eqn:Hs.
  - apply (loop_next more _ _ s c ps); try done. rewrite (Forall2_length _ _ _ Hm). lia.
  - subst ps. unfold _connect. destruct (accepts s) as [|c2 rest] eqn:Ha; inversion Hm as [|ps2 ? more' ? Hc2 Hrest]; subst; [done|].
    apply (loop_next more' _ _ _ c2 ps2); try done. cbn. rewrite (Forall2_length _ _ _ Hrest). lia.
Qed.
Lemma get_all l s : offers l s -> exists qs s', get_packets (length l) s = (Ret qs, s') /\ Forall2 reads l qs.
Proof.
  revert s. induction l as [|p l IH]; intros s Hl; [by exists [], s|]. cbn [length get_packets].
  destruct (get_next p l s Hl) as (q & s1 & H1 & Hq & Hl1). destruct (IH s1 Hl1) as (qs & s2 & H2 & Hqs).
  exists (q :: qs), s2. unfold pm_bind. rewrite H1, H2. split; [done|by constructor].
Qed.
(** The virtual disk sensor: however data is cut into pieces and wherever connections break, within headers or data
    too, calls return the complete packets of all connections, in order and with all their fields and data, as long
    as no header that is complete arrives in two pieces. *)
Theorem packets_in_order img l conns : Forall2 delivers l conns ->
  exists qs s', get_packets (length (concat l)) (VDisk img None conns []) = (Ret qs, s') /\ Forall2 reads (concat l) qs.
Proof. intros H. apply get_all. by exists [], l. Qed.
Definition pkt1 : dpkt := DPkt 63 1 0 [1; 2; 3].
Definition pkt2 : dpkt := DPkt 64 1 1 [4; 5].
(** The first connection breaks within the data of a packet, the second delivers one in pieces. *)
Definition broken_disk : vdisk := VDisk (lit "sda.img") None [Socket (wire pkt1 ++ take 21 (wire pkt2)) []; Socket (wire pkt2) [20; 20]%nat] [].
Lemma packets_in_order_witness : exists qs s', get_packets 2 broken_disk = (Ret qs, s') /\ Forall2 reads [pkt1; pkt2] qs.
Proof.
  assert (Hok : dpkt_ok pkt1 /\ dpkt_ok pkt2) by (by vm_compute). destruct Hok as [H1 H2].
  apply (packets_in_order (lit "sda.img") [[pkt1]; [pkt2]]).
  constructor; [|constructor; [|constructor]].
  - exists (take 21 (wire pkt2)). split; [exists pkt2, (drop 21 (wire pkt2)); by rewrite take_drop|]. split; [by constructor|]. split; [by constructor|done].
  - exists []. split; [exists pkt2, (wire pkt2); split; [done|]; split; [done|apply wire_nonempty]|]. split; [by constructor|]. split; [|by rewrite app_nil_r].
    repeat constructor.
Defined.
(** A header that arrives in two pieces is taken for the end of the connection: its packet and all later ones are lost. *)
Lemma split_header_lost p rest a more img n q s' : (0 < a < 20)%nat ->
  get_disk_packet (VDisk img (Some (Socket (wire p ++ rest) (a :: more))) n q) = s' ->
  s' = (_connect ;! packet_loop (length n) (new_struct DiskSensorPacket)) (VDisk img (Some (Socket (drop a (wire p ++ rest)) more)) n q).
Proof.
  intros Ha <-. unfold get_disk_packet, pm_bind, pm_get, pm_ret. cbn [SOCK accepts]. cbn [packet_loop].
  change (__len__ (new_struct DiskSensorPacket)) with 20%nat. unfold pm_bind at 1. unfold _read_raw_packet, sock_recv. cbn [SOCK arrivals pending_bytes tail set_SOCK DISK_IMG accepts requests].
  replace (20 `min` (1 `max` a))%nat with a by lia. rewrite (proj2 (Nat.ltb_lt _ _)); [done|]. rewrite length_take. lia.
Qed.
