(* ===== verification/DiskServer.v ===== *)
(** Model of [tools/disk_sensor/lophi-disk-introspection-server.py]: processes that read the disk accesses of
    virtual machines and put them into the queues of the sensors that asked for them, and the processes
    that send a queue to its sensor.  Both share a dictionary of queues by image name, changed in several
    steps that interleave.  Theorems: a sensor that is registered, with no registration for the
    same image half done, gets every later packet once and in order whatever else happens, so
    that the accesses of a machine reach the sensor of [DiskVirtual] unchanged. *)
From S2P Require Import Prelude Struct PyString DataStruct Stream DiskVirtual.

(** * A virtual machine *)

Definition MetaHeader : layout := [("filename", Fmt Native [CStr 1024]); ("sector_size", fI)].
Definition strip_chars (f : Z -> bool) (d : bytes) : bytes := reverse (lstrip f (reverse (lstrip f d))).
(** The first message names the image; [None] when the machine is gone. *)
Definition vm_meta : PM sock_state (option bytes) :=
  let! meta_data := sock_recv (__len__ (new_struct MetaHeader)) in
  if bool_decide (meta_data = []) then pm_ret None else
  match _unpack meta_data (new_struct MetaHeader) with
  | (Raise e, _) => pm_raise e
  | (Ret _, meta) =>
      match dict meta !! "filename" with
      | Some (FVal (SStr s)) => pm_ret (Some (strip_chars (Z.eqb 0) s))
      | _ => pm_raise AttributeError
      end
  end.
(** The connection of a machine and the packet object that is used again and again *)
Record vm := VM { vm_conn : sock_state; sensor_packet : dstruct }.
Definition vm_recv (n : nat) : PM vm bytes := fun s => let '(r, c) := sock_recv n (vm_conn s) in (r, VM c (sensor_packet s)).
Definition on_packet {A} (m : PM dstruct A) : PM vm A := fun s => let '(r, d) := m (sensor_packet s) in (r, VM (vm_conn s) d).
(** A round: the bytes to forward, or [None] when the machine is gone.  The failure to receive, without a size to ask for,
    is caught. *)
Definition vm_round : PM vm (option bytes) :=
  let! header_data := vm_recv 20 in
  if bool_decide (header_data = []) then pm_ret None else
  on_packet (_unpack header_data) ;!
  let! p := pm_get sensor_packet in
  (match get_int p "size" with
   | Ret size => let! data := vm_recv (Z.to_nat size) in on_packet (__setattr__ "data" (FVal (SStr data)))
   | Raise _ => pm_ret tt
   end) ;!
  let! p := pm_get sensor_packet in
  match payload p with
  | None => pm_raise TypeError
  | Some [] => pm_ret None
  | Some _ => let! raw := pm_lift (__repr__ p) in pm_ret (Some raw)
  end.
(** The packets forwarded by [fuel] rounds *)
Fixpoint vm_rounds (fuel : nat) : PM vm (list bytes) :=
  match fuel with
  | O => pm_ret []
  | S fuel => let! r := vm_round in match r with None => pm_ret [] | Some raw => let! rest := vm_rounds fuel in pm_ret (raw :: rest) end
  end.

(** * Queues *)

(** Where the process of a sensor is: waiting for a command, or between two uses of the shared dictionary *)
Inductive cpc :=
  | Waiting
  | Missing (filename : bytes)
  | Present (filename : bytes)
  | Copied (filename : bytes) (shared_list : list nat)
  | Serving (filename : bytes).
Record client := Client { pc : cpc; sensor_queue : list bytes; to_sensor : list bytes }.
Record dserver := DServer { disk_stream_dict : gmap bytes (list nat); clients : gmap nat client }.
Definition set_client (c : nat) (x : client) (s : dserver) : dserver := DServer (disk_stream_dict s) (<[c := x]> (clients s)).
Definition set_pc (c : nat) (x : client) (p : cpc) (s : dserver) : dserver := set_client c (Client p (sensor_queue x) (to_sensor x)) s.
Definition is_blank (c : Z) : bool := (c =? 32) || (c =? 9) || (c =? 10) || (c =? 13).
(** The image that a command asks for; other commands are skipped. *)
Definition requested (cmd : bytes) : res (option bytes) :=
  match split_on 32 cmd [] with
  | verb :: rest =>
      if bool_decide (verb = lit "n") then
        match rest with name :: _ => Ret (Some (strip_chars is_blank name)) | [] => Raise IndexError end
      else Ret None
  | [] => Ret None
  end.
(** One step of the process of a sensor: up to the next use of the dictionary, or the sending of one packet.  Without
    a name after the verb the process ends. *)
Definition client_step (c : nat) (cmd : bytes) (s : dserver) : dserver :=
  match clients s !! c with
  | None => s
  | Some x =>
      match pc x with
      | Waiting =>
          match requested cmd with
          | Ret None => s
          | Ret (Some filename) => set_pc c x (match disk_stream_dict s !! filename with None => Missing filename | Some _ => Present filename end) s
          | Raise _ => DServer (disk_stream_dict s) (delete c (clients s))
          end
      | Missing filename => DServer (<[filename := []]> (disk_stream_dict s)) (clients (set_pc c x (Present filename) s))
      | Present filename => set_pc c x (Copied filename (default [] (disk_stream_dict s !! filename))) s
      | Copied filename shared_list => DServer (<[filename := shared_list ++ [c]]> (disk_stream_dict s)) (clients (set_pc c x (Serving filename) s))
      | Serving filename =>
          match sensor_queue x with
          | [] => s
          | raw :: rest => set_client c (Client (pc x) rest (to_sensor x ++ [raw])) s
          end
      end
  end.
Definition put (raw : bytes) (cs : gmap nat client) (c : nat) : gmap nat client :=
  alter (fun x => Client (pc x) (sensor_queue x ++ [raw]) (to_sensor x)) c cs.
Definition forward (filename raw : bytes) (s : dserver) : dserver :=
  match disk_stream_dict s !! filename with
  | None => s
  | Some l => DServer (disk_stream_dict s) (foldl (put raw) (clients s) l)
  end.
(** A sensor connects, a sensor's process makes a step, a packet of a machine is forwarded *)
Inductive sevent := EAccept (c : nat) | EClient (c : nat) (cmd : bytes) | EPacket (filename raw : bytes).
Definition server_step (s : dserver) (e : sevent) : dserver :=
  match e with
  | EAccept c => match clients s !! c with None => set_client c (Client Waiting [] []) s | Some _ => s end
  | EClient c cmd => client_step c cmd s
  | EPacket filename raw => forward filename raw s
  end.
Definition server_run (s : dserver) (es : list sevent) : dserver := foldl server_step s es.

(** * What is forwarded *)

Lemma vm_round_ok n p rest s : dpkt_ok p -> p_data p <> [] -> (20 <= n)%nat -> (length (p_data p) <= n)%nat ->
  STRUCT (sensor_packet s) = DiskSensorPacket -> whole n (vm_conn s) -> pending_bytes (vm_conn s) = wire p ++ rest ->
  exists s', vm_round s = (Ret (Some (wire p)), s') /\ STRUCT (sensor_packet s') = DiskSensorPacket /\ whole n (vm_conn s') /\ pending_bytes (vm_conn s') = rest.
Proof.
  intros Hp Hne H20 Hn Hstr Hw Hpend. destruct s as [c [st m raw]]. cbn [sensor_packet vm_conn STRUCT] in Hstr, Hw, Hpend. subst st. unfold wire in Hpend. rewrite <- app_assoc in Hpend.
  unfold vm_round, vm_recv. unfold pm_bind at 1. cbn [vm_conn sensor_packet]. rewrite recv_all by (lia || by eapply whole_le). rewrite Hpend.
  rewrite take_app_length', drop_app_length' by (by rewrite header_length).
  pose proof (header_length p) as Hhl. rewrite bool_decide_false by (by intros E; rewrite E in Hhl).
  unfold pm_bind at 1, on_packet. cbn [sensor_packet vm_conn]. unfold _unpack, STRUCT_SIZE. cbn [STRUCT dict]. change (layout_size DiskSensorPacket) with 20%nat.
  rewrite Hhl. cbn [Nat.ltb Nat.leb]. rewrite take_ge by lia. rewrite unpack_fields_decode by (by rewrite Hhl).
  rewrite drop_0. destruct (header_fields p m Hp) as (E1 & E2 & E3 & E4 & E5). set (m' := insert_all m _) in *.
  unfold pm_bind at 1, pm_get at 1. cbn [sensor_packet]. unfold get_int, getattr. cbn [dict]. rewrite E4. cbn [of_option res_bind]. unfold pm_bind. cbn [vm_conn sensor_packet].
  unfold zlen. rewrite Nat2Z.id. assert (0 < length (p_data p))%nat by (destruct (p_data p); [done|cbn; lia]).
  rewrite recv_all; [|done|eapply whole_le; [|exact Hn]; unfold whole in *; cbn; by destruct Hw]. cbn [pending_bytes].
  rewrite take_app_length, drop_app_length, setattr_other by (by apply (bool_decide_unpack _)). unfold pm_get, set_dict, payload, __repr__. cbn [sensor_packet dict vm_conn STRUCT struct_raw_data].
  rewrite !lookup_insert_eq. destruct (p_data p) as [|b d] eqn:Hd; [done|]. unfold pm_lift, payload. cbn [of_option res_bind dict]. rewrite lookup_insert_eq. cbn [default].
  eexists. split; [unfold wire; by rewrite Hd|]. split; [done|]. split; [|done]. unfold whole in *. cbn. by do 2 (destruct Hw; [done|]).
Qed.
(** Packets that fit what each call of the server finds *)
Definition fits (n : nat) (p : dpkt) : Prop := dpkt_ok p /\ p_data p <> [] /\ (length (p_data p) <= n)%nat.
Lemma vm_rounds_ok n ps : (20 <= n)%nat -> Forall (fits n) ps -> forall s, STRUCT (sensor_packet s) = DiskSensorPacket -> whole n (vm_conn s) ->
  pending_bytes (vm_conn s) = concat (wire <$> ps) -> exists s', vm_rounds (S (length ps)) s = (Ret (wire <$> ps), s').
Proof.
  intros H20. induction 1 as [|p ps (Hp & Hne & Hn) Hps IH]; intros s Hstr Hw Hpend.
  - cbn [length vm_rounds]. unfold vm_round, vm_recv, pm_bind, sock_recv. rewrite Hpend. cbn [fmap list_fmap concat]. rewrite take_nil, drop_nil.
    rewrite bool_decide_true by done. by eexists.
  - cbn [length fmap list_fmap concat] in *. destruct (vm_round_ok n p _ s Hp Hne H20 Hn Hstr Hw Hpend) as (s1 & H1 & Hstr1 & Hw1 & Hp1).
    destruct (IH s1 Hstr1 Hw1 Hp1) as (s2 & H2). exists s2. cbn [vm_rounds] in *. unfold pm_bind at 1. rewrite H1. unfold pm_bind at 1. by rewrite H2.
Qed.

(** * Who gets a packet *)

Definition occurrences (c : nat) (l : list nat) : nat := length (filter (fun c' => c' = c) l).
Lemma occurrences_app c l k : occurrences c (l ++ k) = (occurrences c l + occurrences c k)%nat.
Proof. unfold occurrences. by rewrite filter_app, length_app. Qed.
Lemma put_all raw c l : forall cs, foldl (put raw) cs l !! c =
  (fun x => Client (pc x) (sensor_queue x ++ replicate (occurrences c l) raw) (to_sensor x)) <$> cs !! c.
Proof.
  induction l as [|c' l IH]; intros cs; cbn [foldl].
  - unfold occurrences. cbn. destruct (cs !! c) as [[]|]; cbn; by rewrite ?app_nil_r.
  - rewrite IH. unfold put, occurrences. rewrite filter_cons. destruct (decide (c' = c)) as [->|Hne].
    + rewrite lookup_alter_eq. destruct (cs !! c) as [[]|]; cbn; [|done]. by rewrite <- app_assoc.
    + by rewrite lookup_alter_ne by done.
Qed.
(** The process [c] serves [f]; it is in the list of [f] once and in no other, and no registration for [f] that is half done
    will write a list without it. *)
Definition listed (c : nat) (f f' : bytes) (l : list nat) : Prop := occurrences c l = if decide (f' = f) then 1%nat else 0%nat.
Record settled (c : nat) (f : bytes) (s : dserver) : Prop := {
  settled_serving : exists x, clients s !! c = Some x /\ pc x = Serving f;
  settled_known : is_Some (disk_stream_dict s !! f);
  settled_listed : map_Forall (listed c f) (disk_stream_dict s);
  settled_copies : map_Forall (fun _ x => pc x <> Missing f /\ forall f' l, pc x = Copied f' l -> listed c f f' l) (clients s)
}.
(** What a sensor was sent or will be *)
Definition stream_of (c : nat) (s : dserver) : list bytes := match clients s !! c with Some x => to_sensor x ++ sensor_queue x | None => [] end.
Definition packets_for (f : bytes) (es : list sevent) : list bytes :=
  omap (fun e => match e with EPacket f' raw => if decide (f' = f) then Some raw else None | _ => None end) es.
Section settled.
Context (c : nat) (f : bytes).
Definition harmless (p : cpc) : Prop := p <> Missing f /\ forall f' l, p = Copied f' l -> listed c f f' l.
Lemma settled_set s c' x' : settled c f s -> (c' = c -> pc x' = Serving f) -> harmless (pc x') -> settled c f (set_client c' x' s).
Proof.
  intros [(x & Hx & Hpc) Hk Hl Hc] Hc' Hx'. split; cbn; [|done..|by apply map_Forall_insert_2].
  destruct (decide (c' = c)) as [->|?]; [exists x'; split; [by rewrite lookup_insert_eq|by apply Hc']|exists x; by rewrite lookup_insert_ne].
Qed.
Lemma settled_dict s f' l : settled c f s -> listed c f f' l -> settled c f (DServer (<[f' := l]> (disk_stream_dict s)) (clients s)).
Proof.
  intros [Hx Hk Hl Hc] Hl'. split; [exact Hx| |by apply map_Forall_insert_2|exact Hc].
  cbn. destruct (decide (f' = f)) as [->|?]; [by rewrite lookup_insert_eq|by rewrite lookup_insert_ne].
Qed.
Lemma stream_set s c' x' : stream_of c (set_client c' x' s) = if decide (c' = c) then to_sensor x' ++ sensor_queue x' else stream_of c s.
Proof. unfold stream_of. cbn. case_decide; [subst; by rewrite lookup_insert_eq|by rewrite lookup_insert_ne]. Qed.
Lemma settled_forward f' raw s : settled c f s ->
  settled c f (forward f' raw s) /\ stream_of c (forward f' raw s) = stream_of c s ++ (if decide (f' = f) then [raw] else []).
Proof.
  intros Hs. pose proof Hs as [(x & Hx & Hpc) Hk Hl Hc]. unfold forward, stream_of. destruct (disk_stream_dict s !! f') as [l|] eqn:Hf'.
  - pose proof (Hl _ _ Hf') as Hocc. unfold listed in Hocc. split.
    + split; cbn; [|done..|].
      * rewrite put_all, Hx. by eexists.
      * intros c' x'. rewrite put_all. destruct (clients s !! c') as [y|] eqn:Hy; [|done]. intros [= <-]. by apply (Hc c' y).
    + cbn. rewrite put_all, Hx. cbn. rewrite Hocc. case_decide; cbn; by rewrite app_assoc.
  - rewrite decide_False by (intros ->; destruct Hk; congruence). by rewrite app_nil_r.
Qed.
Lemma settled_client c' cmd s : settled c f s -> settled c f (client_step c' cmd s) /\ stream_of c (client_step c' cmd s) = stream_of c s.
Proof.
  intros Hs. pose proof Hs as [(x & Hx & Hpc) Hk Hl Hc]. unfold client_step. destruct (clients s !! c') as [y|] eqn:Hy; [|done].
  destruct (Hc c' y Hy) as [Hm Hcp]. assert (Hne : pc y <> Serving f -> c' <> c) by (intros ? ->; congruence).
  assert (Hset : forall p, harmless p -> pc y <> Serving f -> settled c f (set_pc c' y p s) /\ stream_of c (set_pc c' y p s) = stream_of c s).
  { intros p Hp Hy'. unfold set_pc. rewrite stream_set, decide_False by auto. split; [|done]. apply settled_set; [done| |done]. intros ->. by destruct Hne. }
  destruct (pc y) as [|f'|f'|f' l|f'] eqn:Hpy.
  - destruct (requested cmd) as [[f'|]|]; [|done|].
    + apply Hset; [|done]. destruct (disk_stream_dict s !! f') eqn:Hf'; split; try done. intros [= ->]. destruct Hk; congruence.
    + unfold stream_of. cbn. rewrite lookup_delete_ne by auto. split; [|done]. split; cbn; [|done..|by apply map_Forall_delete].
      exists x. by rewrite lookup_delete_ne by auto.
  - destruct (Hset (Present f')) as [H1 H2]; [by split|done|]. split; [|exact H2]. apply (settled_dict (set_pc c' y (Present f') s)); [done|].
    unfold listed. rewrite decide_False; [done|]. by intros ->.
  - apply Hset; [|done]. split; [done|]. intros f2 l [= <- <-]. destruct (disk_stream_dict s !! f') as [l|] eqn:Hf'; cbn; [by apply Hl|].
    unfold listed. rewrite decide_False; [done|]. intros ->. destruct Hk; congruence.
  - destruct (Hset (Serving f')) as [H1 H2]; [by split|done|]. split; [|exact H2]. apply (settled_dict (set_pc c' y (Serving f') s)); [done|].
    unfold listed. rewrite occurrences_app. specialize (Hcp f' l eq_refl). unfold listed in Hcp. rewrite Hcp.
    unfold occurrences. rewrite filter_cons, (decide_False (P := c' = c)) by (by apply Hne). cbn. lia.
  - destruct (sensor_queue y) as [|raw rest] eqn:Hq; [done|]. rewrite stream_set. split.
    + apply settled_set; [done|cbn; congruence|cbn; by split].
    + case_decide; [subst|done]. unfold stream_of. rewrite Hy, Hq. cbn. by rewrite <- app_assoc.
Qed.
(** Whatever happens after, a settled process gets each packet of its image once, in order. *)
Lemma settled_run es : forall s, settled c f s -> settled c f (server_run s es) /\ stream_of c (server_run s es) = stream_of c s ++ packets_for f es.
Proof.
  induction es as [|e es IH]; intros s Hs; [by rewrite app_nil_r|]. cbn [server_run foldl].
  assert (H1 : settled c f (server_step s e) /\ stream_of c (server_step s e) = stream_of c s ++ packets_for f [e]).
  { destruct e as [c'|c' cmd|f' raw]; cbn [server_step packets_for omap].
    - rewrite app_nil_r. destruct (clients s !! c') as [y|] eqn:Hy; [done|]. rewrite stream_set. case_decide as Hcc.
      + subst. destruct (settled_serving _ _ _ Hs) as (x & Hx & _). congruence.
      + split; [|done]. apply settled_set; [done|done|by split].
    - rewrite app_nil_r. by apply settled_client.
    - destruct (settled_forward f' raw s Hs) as [H1 H2]. split; [done|]. rewrite H2. cbn. by case_decide. }
  destruct H1 as [H1 H2]. destruct (IH _ H1) as [H3 H4]. split; [exact H3|]. unfold server_run in H4. rewrite H4, H2, <- app_assoc. f_equal.
  unfold packets_for. by rewrite <- (omap_app _ [e] es).
Qed.
End settled.

(** A new process, and nobody between two uses of the list of [f] *)
Record quiet (c : nat) (f : bytes) (s : dserver) : Prop := {
  quiet_new : clients s !! c = Some (Client Waiting [] []);
  quiet_lists : map_Forall (fun _ l => occurrences c l = 0%nat) (disk_stream_dict s);
  quiet_others : map_Forall (fun _ x => pc x <> Missing f /\ forall f' l, pc x = Copied f' l -> f' <> f /\ occurrences c l = 0%nat) (clients s)
}.
Definition register (c : nat) (cmd : bytes) : list sevent := replicate 4 (EClient c cmd).
(** A registration that nothing interrupts settles. *)
Lemma register_settles c f cmd s : quiet c f s -> requested cmd = Ret (Some f) ->
  settled c f (server_run s (register c cmd)) /\ stream_of c (server_run s (register c cmd)) = [].
Proof.
  intros [Hn Hl Ho] Hr. set (l := default [] (disk_stream_dict s !! f)).
  assert (Hend : server_run s (register c cmd) = DServer (<[f := l ++ [c]]> (disk_stream_dict s)) (<[c := Client (Serving f) [] []]> (clients s))).
  { unfold server_run, register. cbn [replicate foldl server_step]. unfold client_step at 4. rewrite Hn. cbn [pc]. rewrite Hr. subst l.
    destruct (disk_stream_dict s !! f) as [l|] eqn:Hf; unfold client_step; cbn; repeat (rewrite ?lookup_insert_eq; cbn).
    all: rewrite ?Hf, ?insert_insert_eq; cbn; rewrite ?insert_insert_eq; repeat (rewrite ?lookup_insert_eq; cbn); by rewrite ?insert_insert_eq. }
  rewrite Hend. split; [split; cbn|].
  - eexists. by rewrite lookup_insert_eq.
  - by rewrite lookup_insert_eq.
  - intros f' l'. destruct (decide (f' = f)) as [->|Hne].
    + rewrite lookup_insert_eq. intros [= <-]. unfold listed. rewrite decide_True, occurrences_app by done.
      assert (occurrences c l = 0%nat) as -> by (subst l; destruct (disk_stream_dict s !! f) eqn:Hf; [by apply (Hl f)|done]).
      unfold occurrences. by rewrite filter_cons, decide_True by done.
    + rewrite lookup_insert_ne by done. intros Hl'. unfold listed. rewrite decide_False by done. by apply (Hl f').
  - apply map_Forall_insert_2; [by split|]. intros c' x Hx. destruct (Ho c' x Hx) as [? Hc]. split; [done|]. intros f' l' Hp.
    destruct (Hc f' l' Hp) as [? ?]. unfold listed. by rewrite decide_False.
  - unfold stream_of. cbn. by rewrite lookup_insert_eq.
Qed.
(** Two sensors that ask for the same image at the same time: the second writes back a list without the first, which gets nothing. *)
Lemma registration_lost raw : let ask c := EClient c (lit "n sda") in
  let s := server_run (DServer ∅ ∅) [EAccept 1; EAccept 2; ask 1; ask 1; ask 1; ask 2; ask 2; ask 1; ask 2; EPacket (lit "sda") raw]%nat in
  stream_of 1 s = [] /\ stream_of 2 s = [raw].
Proof. by vm_compute. Qed.

(** [C34] The accesses of a machine reach its sensor: what the machine writes to the server, in pieces that hold whole headers and whole, nonempty data, is
    read by the sensor packet by packet, with all fields and data, whatever the server does meanwhile
    for other sensors and machines, if the sensor registered undisturbed before. *)
Theorem accesses_reach_sensor n ps machine s c img es x arrivals :
  (20 <= n)%nat -> Forall (fits n) ps -> STRUCT (sensor_packet machine) = DiskSensorPacket -> whole n (vm_conn machine) ->
  pending_bytes (vm_conn machine) = concat (wire <$> ps) ->
  quiet c img s -> requested (lit "n " ++ img) = Ret (Some img) ->
  Ret (packets_for img es) = (vm_rounds (S (length ps)) machine).1 ->
  clients (server_run s (register c (lit "n " ++ img) ++ es)) !! c = Some x -> sensor_queue x = [] ->
  Forall (fun a => 20 <= a)%nat arrivals ->
  exists qs s', get_packets (length ps) (VDisk img None [Socket (concat (to_sensor x)) arrivals] []) = (Ret qs, s') /\ Forall2 reads ps qs.
Proof.
  intros H20 Hps Hstr Hw Hpend Hq Hreq Hes Hx Hempty Harr.
  destruct (vm_rounds_ok n ps H20 Hps machine Hstr Hw Hpend) as [m' Hm]. rewrite Hm in Hes. injection Hes as Hes.
  destruct (register_settles c img _ s Hq Hreq) as [Hs Hst]. destruct (settled_run c img es _ Hs) as [_ Hstream].
  unfold server_run in Hx, Hstream, Hst. rewrite foldl_app in Hx. rewrite Hst, Hes in Hstream. unfold stream_of in Hstream.
  rewrite Hx, Hempty, app_nil_r in Hstream. cbn in Hstream. rewrite Hstream.
  apply get_all. exists [], [ps]. split; [done|]. split; [|cbn; by rewrite app_nil_r]. constructor; [|constructor].
  exists []. split; [|split; [|split; [exact Harr|by rewrite app_nil_r]]].
  - exists (DPkt 0 0 0 []), (wire (DPkt 0 0 0 [])). split; [by vm_compute|]. split; [done|apply wire_nonempty].
  - eapply Forall_impl; [exact Hps|]. by intros p (? & _).
Qed.
(** Data that arrives in two pieces is forwarded in two: the first with the header, whose size it does not have. *)
Lemma short_data_forwarded : (vm_round (VM (Socket (wire pkt1) [20; 1]%nat) (new_struct DiskSensorPacket))).1 = Ret (Some (take 21 (wire pkt1))).
Proof. by vm_compute. Qed.
(** A sensor that is gone before it asked is read from for ever. *)
Lemma closed_sensor_spins c s q t n : clients s !! c = Some (Client Waiting q t) -> server_run s (replicate n (EClient c [])) = s.
Proof.
  intros H. induction n as [|n IH]; [done|]. cbn [replicate server_run foldl server_step]. unfold client_step at 1. rewrite H. exact IH.
Qed.
Definition demo_img : bytes := lit "sda.img".
Definition demo_events : list sevent := [EPacket demo_img (wire pkt1); EAccept 2; EClient 2 (lit "n " ++ demo_img); EClient 1 []; EPacket demo_img (wire pkt2); EClient 1 []]%nat.
Definition demo_client : client := Client (Serving demo_img) [] [wire pkt1; wire pkt2].
Lemma accesses_reach_sensor_witness :
  exists qs s', get_packets 2 (VDisk demo_img None [Socket (concat (to_sensor demo_client)) [20; 30]%nat] []) = (Ret qs, s') /\ Forall2 reads [pkt1; pkt2] qs.
Proof.
  apply (accesses_reach_sensor 20 [pkt1; pkt2] (VM (Socket (wire pkt1 ++ wire pkt2) []) (new_struct DiskSensorPacket))
    (DServer ∅ {[1%nat := Client Waiting [] []]}) 1 demo_img demo_events demo_client [20; 30]%nat).
  - lia.
  - repeat constructor; by vm_compute.
  - done.
  - constructor.
  - cbn [fmap list_fmap concat]. by rewrite app_nil_r.
  - split; cbn [clients disk_stream_dict]; [by rewrite lookup_singleton_eq|by apply map_Forall_empty|]. by apply map_Forall_singleton.
  - by vm_compute.
  - by vm_compute.
  - by vm_compute.
  - done.
  - repeat constructor; lia.
Defined.
