(* ===== verification/Filesystem.v ===== *)
(** Model of [lophi_semanticgap/disk/filesystem_reconstructor.py]: which file each
    sector of an NTFS volume belongs to, kept up to date from the writes seen on the
    wire, and what every disk access means in terms of files.

    The Sleuth Kit (pytsk3) is a parameter: [fs_info] is what it finds in an image, if it accepts
    it, and [parse_record] stands for [mft.parse_record] of analyzeMFT.  The order in which
    Python iterates over a dictionary is the parameter [dict_order]. *)
From Stdlib Require Import Strings.Ascii.
From S2P Require Import Prelude Struct.

Definition MFT_ENTRY_SIZE := 1024.
(** [pytsk3.TSK_FS_META_FLAG_...] *)
Definition FLAG_ALLOC := 1.
Definition FLAG_UNALLOC := 2.
Definition FLAG_USED := 4.
Definition FLAG_UNUSED := 8.
Definition FLAG_COMP := 16.
Definition FLAG_ORPHAN := 32.
Definition DIRECTION_WRITE := 1.

(** ** What the Sleuth Kit reports *)

(** A file: its attributes (is it the NTFS data attribute? its runs as length and
    address in blocks), flags, name and the other metadata by key. *)
Record tfile := TFile {
  f_attrs : list (bool * list (Z * Z));
  f_flags : Z;
  f_name : option string;
  f_meta : list (string * Z)
}.
Inductive dirent := Dirent (name : string) (addr : option Z) (is_dir : bool) (entries : list dirent).
Record tsk_fs := TskFs {
  last_inum : Z;
  open_meta : Z -> res tfile;
  root_dir : list dirent;
  mft_content : bytes
}.
(** What analyzeMFT extracts from a record: the parent, name and name space of each
    file name attribute. *)
Definition mft_record := list (Z * string * Z).

(** ** The volume *)

Inductive error :=
  | datarun_out_of_bounds (inode num_blocks addr : Z)
  | datarun_collision (filename1 : string) (inode1 : Z) (filename2 : string) (inode2 block_addr : Z).

Record volume := Volume {
  SECTOR_SIZE : Z;
  VOLUME_OFFSET : Z;
  BLOCK_SIZE : Z;
  BLOCK_COUNT : Z;
  ROOT_INUM : Z;
  IMG : bytes;
  FILE_SYSTEM : tsk_fs;
  LAST_INUM : Z;
  fs_sector_to_inode : gmap Z Z;
  fs_inode_to_path : gmap Z string;
  fs_inode_to_sector_resident : gmap Z Z;
  mft_raw : option bytes;
  old_mft_raw : option bytes;
  error_log : list error
}.

Definition set_fs (i : bytes) (f : tsk_fs) (v : volume) : volume :=
  Volume (SECTOR_SIZE v) (VOLUME_OFFSET v) (BLOCK_SIZE v) (BLOCK_COUNT v) (ROOT_INUM v) i f (LAST_INUM v)
    (fs_sector_to_inode v) (fs_inode_to_path v) (fs_inode_to_sector_resident v) (mft_raw v) (old_mft_raw v) (error_log v).
Definition set_LAST_INUM (x : Z) (v : volume) : volume :=
  Volume (SECTOR_SIZE v) (VOLUME_OFFSET v) (BLOCK_SIZE v) (BLOCK_COUNT v) (ROOT_INUM v) (IMG v) (FILE_SYSTEM v) x
    (fs_sector_to_inode v) (fs_inode_to_path v) (fs_inode_to_sector_resident v) (mft_raw v) (old_mft_raw v) (error_log v).
Definition set_sectors (x : gmap Z Z) (v : volume) : volume :=
  Volume (SECTOR_SIZE v) (VOLUME_OFFSET v) (BLOCK_SIZE v) (BLOCK_COUNT v) (ROOT_INUM v) (IMG v) (FILE_SYSTEM v) (LAST_INUM v)
    x (fs_inode_to_path v) (fs_inode_to_sector_resident v) (mft_raw v) (old_mft_raw v) (error_log v).
Definition set_paths (x : gmap Z string) (v : volume) : volume :=
  Volume (SECTOR_SIZE v) (VOLUME_OFFSET v) (BLOCK_SIZE v) (BLOCK_COUNT v) (ROOT_INUM v) (IMG v) (FILE_SYSTEM v) (LAST_INUM v)
    (fs_sector_to_inode v) x (fs_inode_to_sector_resident v) (mft_raw v) (old_mft_raw v) (error_log v).
Definition set_resident (x : gmap Z Z) (v : volume) : volume :=
  Volume (SECTOR_SIZE v) (VOLUME_OFFSET v) (BLOCK_SIZE v) (BLOCK_COUNT v) (ROOT_INUM v) (IMG v) (FILE_SYSTEM v) (LAST_INUM v)
    (fs_sector_to_inode v) (fs_inode_to_path v) x (mft_raw v) (old_mft_raw v) (error_log v).
Definition set_mft (x y : option bytes) (v : volume) : volume :=
  Volume (SECTOR_SIZE v) (VOLUME_OFFSET v) (BLOCK_SIZE v) (BLOCK_COUNT v) (ROOT_INUM v) (IMG v) (FILE_SYSTEM v) (LAST_INUM v)
    (fs_sector_to_inode v) (fs_inode_to_path v) (fs_inode_to_sector_resident v) x y (error_log v).
Definition log_error (e : error) (v : volume) : volume :=
  Volume (SECTOR_SIZE v) (VOLUME_OFFSET v) (BLOCK_SIZE v) (BLOCK_COUNT v) (ROOT_INUM v) (IMG v) (FILE_SYSTEM v) (LAST_INUM v)
    (fs_sector_to_inode v) (fs_inode_to_path v) (fs_inode_to_sector_resident v) (mft_raw v) (old_mft_raw v) (error_log v ++ [e]).

Abbreviation M := (PM volume).

(** [for x in l: body(x)] *)
Fixpoint for_each {A} (l : list A) (body : A -> M unit) : M unit :=
  match l with
  | [] => pm_ret tt
  | x :: l => body x ;! for_each l body
  end.

(** ** Sectors and blocks *)

Definition _sector_to_block (v : volume) (sector : Z) : Z :=
  (sector - VOLUME_OFFSET v) * SECTOR_SIZE v / BLOCK_SIZE v.

(** [range(a, b)] *)
Definition range (a b : Z) : list Z := seqZ a (b - a).

Definition block_start (v : volume) (block : Z) : Z :=
  (VOLUME_OFFSET v * SECTOR_SIZE v + block * BLOCK_SIZE v) / SECTOR_SIZE v.
Definition _block_to_sectors (v : volume) (block : Z) : res (list Z) :=
  if SECTOR_SIZE v <=? BLOCK_SIZE v
  then Ret (range (block_start v block) (block_start v block + BLOCK_SIZE v / SECTOR_SIZE v))
  else Raise AssertionError.

(** ** The MFT *)

(** Insertion into runs ordered by address, behind equal ones ([sorted] is stable). *)
Fixpoint insert_run (r : Z * Z) (l : list (Z * Z)) : list (Z * Z) :=
  match l with
  | [] => [r]
  | x :: l => if x.2 <=? r.2 then x :: insert_run r l else r :: x :: l
  end.
Definition sort_runs (l : list (Z * Z)) : list (Z * Z) := foldl (fun acc r => insert_run r acc) [] l.
Definition _mft_dataruns (v : volume) : res (list (Z * Z)) :=
  let? f := open_meta (FILE_SYSTEM v) 0 in
  Ret (sort_runs (concat ((fun a => if a.1 : bool then a.2 else []) <$> f_attrs f))).

(** The loop of [_mft_record_to_sectors]: the first sector of the record. *)
Fixpoint locate_record (v : volume) (runs : list (Z * Z)) (bytes_left : Z) : res (option Z) :=
  match runs with
  | [] => Ret None
  | (num_blocks, lba) :: runs =>
      if bytes_left <? num_blocks * BLOCK_SIZE v then
        let block := lba + bytes_left / BLOCK_SIZE v in
        let? sectors := _block_to_sectors v block in
        let? first := py_index sectors 0 in
        Ret (Some (first + (bytes_left mod BLOCK_SIZE v) / SECTOR_SIZE v))
      else locate_record v runs (bytes_left - num_blocks * BLOCK_SIZE v)
  end.
(** The sectors of a record.  When the first belongs to the MFT, it and the sector
    behind the record are noted as resident sectors. *)
Definition _mft_record_to_sectors (record_no : Z) : M (list Z) :=
  let! runs := (fun v => (_mft_dataruns v, v)) in
  let! start := (fun v => (locate_record v runs (record_no * 1024), v)) in
  match start with
  | None => pm_ret []
  | Some sector_start =>
      let! sectors := pm_get fs_sector_to_inode in
      let! ss := pm_get SECTOR_SIZE in
      (if bool_decide (sectors !! sector_start = Some 0)
       then pm_modify (fun v => set_resident
              (<[sector_start + 1024 / ss := record_no]>
                (<[sector_start := record_no]> (fs_inode_to_sector_resident v))) v)
       else pm_ret tt) ;!
      pm_ret (range sector_start (sector_start + 1024 / ss))
  end.

(** Appends the records of one run that the sectors touch; the run's end counts as
    inside. *)
Fixpoint records_in_run (v : volume) (sector_start sector_end inode_start : Z) (sectors : list Z)
    (inodes : list Z) : list Z :=
  match sectors with
  | [] => inodes
  | sector :: sectors =>
      let inodes :=
        if (sector_start <=? sector) && (sector <=? sector_end) then
          let record_num := inode_start + (sector - sector_start) * SECTOR_SIZE v / MFT_ENTRY_SIZE in
          if bool_decide (record_num ∈ inodes) then inodes else inodes ++ [record_num]
        else inodes in
      records_in_run v sector_start sector_end inode_start sectors inodes
  end.
Fixpoint records_in_runs (v : volume) (runs : list (Z * Z)) (inode_start : Z) (sectors inodes : list Z) :
    res (list Z) :=
  match runs with
  | [] => Ret inodes
  | (num_blocks, block_addr) :: runs =>
      let? ss := _block_to_sectors v block_addr in
      let? sector_start := py_index ss 0 in
      let sector_end := sector_start + num_blocks * BLOCK_SIZE v / SECTOR_SIZE v in
      let inodes := records_in_run v sector_start sector_end inode_start sectors inodes in
      records_in_runs v runs
        (inode_start + (sector_end - sector_start) * SECTOR_SIZE v / MFT_ENTRY_SIZE) sectors inodes
  end.
Definition _get_records_from_sectors (v : volume) (sectors : list Z) : res (list Z) :=
  let? runs := _mft_dataruns v in records_in_runs v runs 0 sectors [].

(** ** Data runs *)

Definition out_of_bounds (v : volume) (addr length : Z) : bool :=
  (length <? 0) || (BLOCK_COUNT v <? length) || (addr <? 0) || (BLOCK_COUNT v <? addr + length).

Definition on_blocks (addr length : Z) (body : Z -> Z -> M unit) : M unit :=
  for_each (seqZ 0 length) (fun i =>
    let! sectors := (fun v => (_block_to_sectors v (addr + i), v)) in
    for_each sectors (body (addr + i))).

Definition _remove_run (inode_num addr length : Z) : M unit :=
  let! v := pm_get (fun v => v) in
  if out_of_bounds v addr length then pm_modify (log_error (datarun_out_of_bounds inode_num length addr))
  else on_blocks addr length (fun _ sector =>
         pm_modify (fun v => set_sectors (delete sector (fs_sector_to_inode v)) v)).

(** [name[1] != '$']; a path of one character has no second one. *)
Definition plain_name (name : string) : res bool :=
  match String.get 1 name with
  | Some c => Ret (negb (bool_decide (c = "$"%char)))
  | None => Raise IndexError
  end.
(** [f1_name != "" and f1_name[1] != '$' and f2_name != "" and f2_name[1] != '$'] *)
Definition reportable (f1_name f2_name : string) : res bool :=
  if bool_decide (f1_name = "") then Ret false else
  let? p1 := plain_name f1_name in
  if negb p1 then Ret false else
  if bool_decide (f2_name = "") then Ret false else plain_name f2_name.

(** One sector of a run: a sector of another named file that is not a metafile keeps
    its owner, and the collision is logged. *)
Definition add_sector (inode_num block sector : Z) : M unit :=
  let! owner := pm_get (fun v => fs_sector_to_inode v !! sector) in
  let! keep := match owner with
    | Some inode2 =>
        let! f1_name := pm_get (fun v => default "" (fs_inode_to_path v !! inode_num)) in
        let! f2_name := pm_get (fun v => default "" (fs_inode_to_path v !! inode2)) in
        if negb (inode_num =? inode2) then
          let! r := pm_lift (reportable f1_name f2_name) in
          if r then pm_modify (log_error (datarun_collision f1_name inode_num f2_name inode2 block)) ;! pm_ret true
          else pm_ret false
        else pm_ret false
    | None => pm_ret false
    end in
  if keep then pm_ret tt
  else pm_modify (fun v => set_sectors (<[sector := inode_num]> (fs_sector_to_inode v)) v).
Definition _add_run (inode_num block_addr length : Z) : M unit :=
  let! v := pm_get (fun v => v) in
  if out_of_bounds v block_addr length
  then pm_modify (log_error (datarun_out_of_bounds inode_num length block_addr))
  else on_blocks block_addr length (add_sector inode_num).

(** ** File entries *)

Definition open_file (inode : Z) : M tfile := fun v => (open_meta (FILE_SYSTEM v) inode, v).

Definition _clean_file_entry (inode_num : Z) : M unit :=
  let! f := open_file inode_num in
  for_each (f_attrs f) (fun a => for_each a.2 (fun run => _remove_run inode_num run.2 run.1)).

(** A run at block 0 is sparse, except in the boot file. *)
Definition _load_file_entry (inode_num : Z) : M unit :=
  let! _ := _mft_record_to_sectors inode_num in
  let! f := open_file inode_num in
  for_each (f_attrs f) (fun a => for_each a.2 (fun run =>
    if negb (run.2 =? 0) || bool_decide (f_name f = Some "$Boot")
    then _add_run inode_num run.2 run.1 else pm_ret tt)).

Definition _reload_file_entry (inode_num : Z) : M unit :=
  _clean_file_entry inode_num ;! _load_file_entry inode_num.

(** [os.path.join] of two names *)
Definition path_join (a b : string) : string :=
  match String.get 0 b with
  | Some c => if bool_decide (c = "/"%char) then b else
      match a with
      | EmptyString => b
      | _ => if bool_decide (String.get (String.length a - 1) a = Some "/"%char)
             then String.append a b else String.append a (String.append "/" b)
      end
  | None => match a with
            | EmptyString => b
            | _ => if bool_decide (String.get (String.length a - 1) a = Some "/"%char)
                   then a else String.append a "/"
            end
  end.

Fixpoint parse_entry (parent_path : string) (e : dirent) (paths : gmap Z string) : gmap Z string :=
  match e with
  | Dirent filename addr is_dir entries =>
      if bool_decide (filename = ".") || bool_decide (filename = "..") then paths else
      let abs_filename := path_join parent_path filename in
      let paths := match addr with Some inode => <[inode := abs_filename]> paths | None => paths end in
      match addr with
      | Some _ => if is_dir then foldl (fun p e => parse_entry abs_filename e p) paths entries else paths
      | None => paths
      end
  end.
Definition _parse_paths (directory : list dirent) (parent_path : string) : M unit :=
  pm_modify (fun v => set_paths (foldl (fun p e => parse_entry parent_path e p) (fs_inode_to_path v) directory) v).

(** The steps that start both [_load_file_system] and the reload after new entries. *)
Definition parse_root : M unit :=
  let! root := pm_get (fun v => root_dir (FILE_SYSTEM v)) in
  pm_modify (fun v => set_paths (<[ROOT_INUM v := "/"]> (fs_inode_to_path v)) v) ;!
  _parse_paths root "/".

Definition _load_file_system : M unit :=
  parse_root ;!
  let! last := pm_get (fun v => last_inum (FILE_SYSTEM v)) in
  for_each (range 0 (last + 1)) _load_file_entry.

(** ** Writing to the image *)

(** [seek(off); write(data)], which fills a gap behind the end with zeros. *)
Definition write_at (off : nat) (data img : bytes) : bytes :=
  take off (img ++ replicate (off - length img) 0) ++ data ++ drop (off + length data) img.

Section engine.
Context (fs_info : bytes -> res tsk_fs) (parse_record : bytes -> res mft_record).
Context (dict_order : list Z -> list Z).

(** The image is written first; when the Sleuth Kit then rejects it, the old file system stays. *)
Definition _update_file_system (sector : Z) (data : bytes) : M unit := fun v =>
  let img := write_at (Z.to_nat (sector * SECTOR_SIZE v)) data (IMG v) in
  match fs_info img with
  | Ret fs => (Ret tt, set_fs img fs v)
  | Raise e => (Raise e, set_fs img (FILE_SYSTEM v) v)
  end.

(** ** Paths from raw records *)

Definition set_path (inode : Z) (p : string) : M (option string) :=
  pm_modify (fun v => set_paths (<[inode := p]> (fs_inode_to_path v)) v) ;! pm_ret (Some p).

(** The name and parent chosen among several file names: only the first and the last
    are looked at for a long name. *)
Definition choose_name (r : mft_record) : option (Z * string) :=
  match r with
  | [] => None
  | [(par, n, _)] => Some (par, n)
  | (par, n, ns) :: _ =>
      let '(_, nl, nsl) := List.last r (par, n, ns) in
      let long x := (x =? 1) || (x =? 3) in
      Some (par, if long nsl then nl else if long ns then n else nl)
  end.
(** [os.path.join(parentpath, filename)]; [None] has no method [endswith], which is only
    called for a relative name. *)
Definition join_parent (parentpath : option string) (filename : string) : res string :=
  match parentpath with
  | Some pp => Ret (path_join pp filename)
  | None => if bool_decide (String.get 0 filename = Some "/"%char) then Ret filename else Raise AttributeError
  end.
(** Python's recursion limit is the bound [fuel]: a cycle of parents exceeds it. *)
Fixpoint _get_path (fuel : nat) (raw_mft : option bytes) (inode : Z) : M (option string) :=
  match fuel with
  | O => pm_raise BareExn
  | S fuel =>
      match raw_mft with
      | None => pm_ret None
      | Some raw =>
          let raw_mft_record := slice raw (inode * 1024) ((inode + 1) * 1024) in
          if zlen raw_mft_record <? 4 then pm_ret None
          else if negb (zlen raw_mft_record =? 1024) then set_path inode "NoFNRecord" else
          let! record := pm_lift (parse_record raw_mft_record) in
          match choose_name record with
          | None => set_path inode "NoFNRecord"
          | Some (par_ref, filename) =>
              if par_ref =? 5 then set_path inode (path_join "/" filename)
              else if par_ref =? inode then set_path inode (String.append "ORPHAN/" filename)
              else
                let! parentpath := _get_path fuel raw_mft par_ref in
                let! p := pm_lift (join_parent parentpath filename) in
                set_path inode p
          end
      end
  end.

(** ** Metadata *)

Inductive mval := MInt (z : Z) | MStr (s : option string).
#[global] Instance mval_eq_dec : EqDecision mval.
Proof. solve_decision. Defined.
Record diff := Diff {
  d_inode : Z;
  d_filename : option string;
  d_meta : list (string * mval);
  d_changes : option (list (string * (mval * mval)))   (* [None]: there was no old entry *)
}.
Definition metadata (f : tfile) (filename : option string) : list (string * mval) :=
  let flags := f_flags f in
  [("filename", MStr filename); ("flags", MInt flags); ("flag_alloc", MInt (Z.land flags FLAG_ALLOC));
   ("flag_comp", MInt (Z.shiftr (Z.land flags FLAG_COMP) 4));
   ("flag_orphan", MInt (Z.shiftr (Z.land flags FLAG_ORPHAN) 5));
   ("flag_unalloc", MInt (Z.shiftr (Z.land flags FLAG_UNALLOC) 1));
   ("flag_unused", MInt (Z.shiftr (Z.land flags FLAG_UNUSED) 3));
   ("flag_used", MInt (Z.shiftr (Z.land flags FLAG_USED) 2))]
  ++ ((fun kz => (kz.1, MInt kz.2)) <$> f_meta f).
Fixpoint assoc (l : list (string * mval)) (k : string) : option mval :=
  match l with
  | [] => None
  | (k', x) :: l => if bool_decide (k' = k) then Some x else assoc l k
  end.
(** The fields that changed; an old value of [None] does not count. *)
Definition changes (new old : list (string * mval)) : list (string * (mval * mval)) :=
  omap (fun kv => match assoc old kv.1 with
                  | Some o => if bool_decide (kv.2 = o) || bool_decide (o = MStr None)
                              then None else Some (kv.1, (kv.2, o))
                  | None => None
                  end) new.
Definition recursion_limit : nat := 1000.
Definition _diff_metadata (old_file : option tfile) (new_file : tfile) (inode : Z) : M diff :=
  let! raw := pm_get mft_raw in
  let! mft_filename := _get_path recursion_limit raw inode in
  let new := metadata new_file mft_filename in
  match old_file with
  | Some old_file =>
      let! old_raw := pm_get old_mft_raw in
      let! old_mft_filename := _get_path recursion_limit old_raw inode in
      pm_ret (Diff inode mft_filename new (Some (changes new (metadata old_file old_mft_filename))))
  | None => pm_ret (Diff inode mft_filename new None)
  end.

(** ** Accesses *)

Inductive inode_ref := Inode (n : Z) | NoInode (s : string).
Record fsop := _fs_operation {
  o_sector : Z; o_op : string; o_op_type : string; o_inode : inode_ref; o_filename : string;
  o_raw_data : bytes; o_semantic_data : list diff
}.

Definition sector_data (v : volume) (data : bytes) (i : Z) : bytes :=
  slice data (i * SECTOR_SIZE v) ((i + 1) * SECTOR_SIZE v).
(** The suffix that names the file whose record is in this sector of the MFT. *)
Definition resident_suffix (v : volume) (sector : Z) (sep : string) : string :=
  match fs_inode_to_sector_resident v !! sector with
  | Some res_inode =>
      match fs_inode_to_path v !! res_inode with
      | Some p => String.append sep p
      | None => ""
      end
  | None => ""
  end.

Definition read_operation (v : volume) (sector i : Z) (data : bytes) : fsop :=
  let s := sector + i in
  match fs_sector_to_inode v !! s with
  | Some inode =>
      let filename := default "unknown" (fs_inode_to_path v !! inode) in
      if s =? 1 then _fs_operation s "READ" "[MBR READ]" (Inode inode) filename (sector_data v data i) []
      else if inode =? 0 then
        _fs_operation s "READ" "[MFT READ]" (Inode inode)
          (String.append filename (resident_suffix v s "entry for ")) (sector_data v data i) []
      else _fs_operation s "READ" "[CONTENT READ]" (Inode inode) filename (sector_data v data i) []
  | None => _fs_operation s "READ" "[UNKNOWN READ]" (NoInode "unknown") "unknown" (sector_data v data i) []
  end.

(** [updated_mft_entries]: the touched records with their files before the write. *)
Abbreviation updates := (gmap Z (option tfile)).
Definition record_keys (u : updates) : list Z := dict_order (elements (dom u)).

(** [try: open_meta(inode) except: log] for each record *)
Fixpoint snapshot (v : volume) (inodes : list Z) (u : updates) : updates :=
  match inodes with
  | [] => u
  | inode :: inodes =>
      snapshot v inodes (match open_meta (FILE_SYSTEM v) inode with
                         | Ret f => <[inode := Some f]> u
                         | Raise _ => u
                         end)
  end.

(** [while self.LAST_INUM < self.FILE_SYSTEM.info.last_inum], [n] entries. *)
Fixpoint load_new (n : nat) (u : updates) : M updates :=
  match n with
  | O => pm_ret u
  | S n =>
      pm_modify (fun v => set_LAST_INUM (LAST_INUM v + 1) v) ;!
      let! i := pm_get LAST_INUM in
      _load_file_entry i ;! load_new n (<[i := None]> u)
  end.

Definition missing (u : updates) (inodes : list Z) : updates :=
  foldl (fun u i => match u !! i with Some _ => u | None => <[i := None]> u end) u inodes.

Definition is_set (flags flag : Z) : bool := negb (Z.land flags flag =? 0).
Definition file_event (record_no : Z) (op_type : string) : M fsop :=
  let! sectors := _mft_record_to_sectors record_no in
  let! filename := pm_get (fun v => default "unknown" (fs_inode_to_path v !! record_no)) in
  let! s := pm_lift (py_index sectors 0) in
  pm_ret (_fs_operation s "WRITE" op_type (Inode record_no) filename [] []).

(** The loop that reloads the touched records and reports creations and deletions.  It
    stops at the first record that had no file before. *)
Fixpoint reload_all (u : updates) (records : list Z) (ops : list fsop) : M (list fsop) :=
  match records with
  | [] => pm_ret ops
  | record_no :: records =>
      _reload_file_entry record_no ;!
      let! new_f := open_file record_no in
      match mjoin (u !! record_no) with
      | None => pm_ret ops
      | Some old_f =>
          let old_flags := f_flags old_f in
          let new_flags := f_flags new_f in
          if negb (is_set old_flags FLAG_ALLOC) && is_set new_flags FLAG_ALLOC then
            let! e := file_event record_no "[FILE CREATED]" in reload_all u records (ops ++ [e])
          else if negb (is_set old_flags FLAG_UNALLOC) && is_set new_flags FLAG_UNALLOC then
            let! e := file_event record_no "[FILE DELETED]" in reload_all u records (ops ++ [e])
          else reload_all u records ops
      end
  end.

Fixpoint diffs (u : updates) (records : list Z) : M (list diff) :=
  match records with
  | [] => pm_ret []
  | record_no :: records =>
      let! new_f := open_file record_no in
      let! d := _diff_metadata (mjoin (u !! record_no)) new_f record_no in
      let! ds := diffs u records in
      pm_ret (d :: ds)
  end.

Definition write_operation (u : updates) (sector i : Z) (data : bytes) : M fsop :=
  let s := sector + i in
  let! raw_data := pm_get (fun v => sector_data v data i) in
  let! owner := pm_get (fun v => fs_sector_to_inode v !! s) in
  match owner with
  | Some inode =>
      let! path := pm_get (fun v => fs_inode_to_path v !! inode) in
      let! filename := match path with
                       | Some p => pm_ret p
                       | None => let! f := open_file inode in pm_ret (default "unknown" (f_name f))
                       end in
      if inode =? 0 then
        let! semantic_data := diffs u (record_keys u) in
        let! suffix := pm_get (fun v => resident_suffix v s " entry for ") in
        pm_ret (_fs_operation s "WRITE" "[MFT WRITE]" (Inode inode) (String.append filename suffix)
                  raw_data semantic_data)
      else if (s =? 1) || (s =? 0) then
        pm_ret (_fs_operation s "WRITE" "[MBR WRITE]" (Inode inode) filename raw_data [])
      else pm_ret (_fs_operation s "WRITE" "[CONTENT WRITE]" (Inode inode) filename raw_data [])
  | None => pm_ret (_fs_operation s "WRITE" "[UNKNOWN WRITE]" (NoInode "[unknown inode]") "unknown" raw_data [])
  end.
Fixpoint write_operations (u : updates) (sector : Z) (ixs : list Z) (data : bytes) : M (list fsop) :=
  match ixs with
  | [] => pm_ret []
  | i :: ixs =>
      let! o := write_operation u sector i data in
      let! os := write_operations u sector ixs data in
      pm_ret (o :: os)
  end.

(** The write branch up to the point where the maps are current: the touched records
    and the creations and deletions. *)
Definition apply_write (sector sector_count : Z) (data : bytes) : M (updates * list fsop) :=
  let touched := fun v => (_get_records_from_sectors v (range sector (sector + sector_count)), v) in
  let! inodes := touched in
  let! u := pm_get (fun v => snapshot v inodes ∅) in
  pm_modify (fun v => set_LAST_INUM (last_inum (FILE_SYSTEM v)) v) ;!
  (if bool_decide (u = ∅) then pm_ret tt else
     let! raw := pm_get mft_raw in
     pm_modify (set_mft raw raw) ;!
     _update_file_system sector data ;!
     let! _ := open_file 0 in
     pm_modify (fun v => set_mft (Some (mft_content (FILE_SYSTEM v))) raw v)) ;!
  let! new := pm_get (fun v => Z.to_nat (last_inum (FILE_SYSTEM v) - LAST_INUM v)) in
  (if (new =? 0)%nat then pm_ret tt else parse_root) ;!
  let! u := load_new new u in
  pm_modify (fun v => set_LAST_INUM (last_inum (FILE_SYSTEM v)) v) ;!
  let! new_inodes := touched in
  let u := missing u new_inodes in
  let! ops := reload_all u (record_keys u) [] in
  pm_ret (u, ops).

Definition get_access (sector sector_count direction : Z) (data : bytes) : M (list fsop) :=
  if direction =? DIRECTION_WRITE then
    let! uo := apply_write sector sector_count data in
    let! os := write_operations uo.1 sector (range 0 sector_count) data in
    pm_ret (uo.2 ++ os)
  else pm_get (fun v => (fun i => read_operation v sector i data) <$> range 0 sector_count).
End engine.

(** ** The disk *)

(** [bisect.bisect]: how many boundaries are at or before the sector, which is what the
    binary search finds in a sorted list. *)
Fixpoint bisect_loop (fuel : nat) (l : list Z) (x : Z) (lo hi : nat) : nat :=
  match fuel with
  | O => lo
  | S fuel =>
      if (lo <? hi)%nat then
        let mid := ((lo + hi) / 2)%nat in
        if x <? nth mid l 0 then bisect_loop fuel l x lo mid else bisect_loop fuel l x (S mid) hi
      else lo
  end.
Definition bisect (l : list Z) (x : Z) : nat := bisect_loop (S (length l)) l x 0 (length l).

Section disk.
Context {V : Type}.
(** [VOLUMES] with [VOLUME_BOUNDARIES]; index 0 less 1 is Python's last element. *)
Definition _get_volume (boundaries : list Z) (volumes : list V) (sector : Z) : res (option V) :=
  let idx := bisect boundaries sector in
  if (length volumes <? idx)%nat then Ret None
  else let? v := py_index volumes (Z.of_nat idx - 1) in Ret (Some v).

(** [SemanticEngineDisk.get_access]: the access is handed to the engine of the volume,
    which only NTFS volumes have. *)
Definition disk_access {R} (boundaries : list Z) (volumes : list V) (engine : V -> option (Z -> Z -> Z -> bytes -> R))
    (sector sector_count direction : Z) (data : bytes) : res (option R) :=
  let? vol := _get_volume boundaries volumes sector in
  Ret (SE ← vol ≫= engine; Some (SE sector sector_count direction data)).
End disk.

(** [_is_MFT_data] *)
Definition _is_MFT_data (data : bytes) : res bool :=
  let? v := unpack (Fmt Native [CInt 4]) (slice_to data 4) in
  match v with
  | [SInt magic_number] => Ret ((magic_number =? 0x46494C45) || (magic_number =? 0x44414142))
  | _ => Raise StructError
  end.
