(* ===== verification/FilesystemTheorems.v ===== *)
(** Theorems on the NTFS engine: sector and block arithmetic, MFT records and their
    sectors, data runs, volumes, and what [get_access] reports and changes. *)
From Stdlib Require Import Sorting.Sorted Strings.Ascii.
From stdpp Require sorting.
From S2P Require Import Prelude Struct Filesystem.

(** * Geometry *)

(** Blocks are whole sectors, and so are MFT records. *)
Record geometry (v : volume) (k r : Z) : Prop := {
  ge_sector : 0 < SECTOR_SIZE v;
  ge_block : BLOCK_SIZE v = k * SECTOR_SIZE v;
  ge_k : 0 < k;
  ge_record : MFT_ENTRY_SIZE = r * SECTOR_SIZE v
}.

Lemma block_start_eq v k r b : geometry v k r -> block_start v b = VOLUME_OFFSET v + b * k.
Proof.
  intros [Hs Hb _ _]. unfold block_start. rewrite Hb.
  replace (_ + _) with ((VOLUME_OFFSET v + b * k) * SECTOR_SIZE v) by lia. apply Z.div_mul. lia.
Qed.
Lemma block_to_sectors_eq v k r b :
  geometry v k r -> _block_to_sectors v b = Ret (seqZ (VOLUME_OFFSET v + b * k) k).
Proof.
  intros Hg. pose proof Hg as [Hs Hb Hk _]. unfold _block_to_sectors, range.
  rewrite (proj2 (Z.leb_le _ _)) by nia. rewrite (block_start_eq v k r b Hg), Hb, Z.div_mul by lia.
  do 2 f_equal. lia.
Qed.
Lemma sector_to_block_eq v k r s :
  geometry v k r -> _sector_to_block v s = (s - VOLUME_OFFSET v) / k.
Proof.
  intros [Hs Hb Hk _]. unfold _sector_to_block. rewrite Hb. apply Z.div_mul_cancel_r; lia.
Qed.
Lemma seqZ_first a k : 0 < k -> py_index (seqZ a k) 0 = Ret a.
Proof. intros Hk. rewrite seqZ_cons by lia. done. Qed.

(** The blocks of a volume partition its sectors: a sector is among the sectors of
    a block exactly when [_sector_to_block] gives that block, for any whole number of
    sectors per block and any volume offset. *)
Theorem blocks_partition_sectors v k r b s sectors :
  geometry v k r -> _block_to_sectors v b = Ret sectors ->
  (s ∈ sectors <-> _sector_to_block v s = b) /\ NoDup sectors /\ zlen sectors = k.
Proof.
  intros Hg Hb. rewrite (block_to_sectors_eq v k r b Hg) in Hb. injection Hb as <-.
  rewrite (sector_to_block_eq v k r s Hg), elem_of_seqZ. pose proof (ge_k _ _ _ Hg) as Hk.
  split; [|split; [apply NoDup_seqZ|unfold zlen; rewrite length_seqZ; lia]].
  set (x := s - VOLUME_OFFSET v). split; intros H.
  - symmetry. apply Z.div_unique with (x - b * k); lia.
  - pose proof (Z.div_mod x k). pose proof (Z.mod_pos_bound x k). nia.
Qed.

Definition example_fs : tsk_fs :=
  TskFs 3 (fun i => Ret (TFile [(true, [(2, 4); (2, 10)])] 1 None [])) [] [].
Definition example_volume : volume :=
  Volume 512 63 4096 1000 5 [] example_fs 3 ∅ ∅ ∅ None None [].
Lemma example_geometry : geometry example_volume 8 2.
Proof. by split. Qed.
Lemma blocks_partition_sectors_witness :
  (72 ∈ seqZ 71 8 <-> _sector_to_block example_volume 72 = 1) /\ NoDup (seqZ 71 8) /\ zlen (seqZ 71 8) = 8.
Proof.
  apply (blocks_partition_sectors example_volume 8 2 1 72 (seqZ 71 8) example_geometry). reflexivity.
Defined.

(** * MFT records *)

Section records.
Context (v : volume) (k r : Z) (Hg : geometry v k r).
(** Records do not straddle blocks. *)
Context (m : Z) (Hm : 0 < m) (Hblock : BLOCK_SIZE v = m * MFT_ENTRY_SIZE).

Lemma records_in_run_mono a b i sectors : forall inodes x,
  x ∈ inodes -> x ∈ records_in_run v a b i sectors inodes.
Proof.
  induction sectors as [|s sectors IH]; intros inodes x Hx; [done|]. cbn. apply IH.
  destruct (_ && _); [|done]. case_bool_decide; [done|]. set_solver.
Qed.
Lemma records_in_runs_mono runs : forall i sectors inodes x,
  x ∈ inodes -> exists l, records_in_runs v runs i sectors inodes = Ret l /\ x ∈ l.
Proof.
  induction runs as [|[nb a] runs IH]; intros i sectors inodes x Hx; [by exists inodes|].
  cbn [records_in_runs]. rewrite (block_to_sectors_eq v k r a Hg). cbn [res_bind].
  rewrite seqZ_first by apply Hg. cbn [res_bind]. apply IH. by apply records_in_run_mono.
Qed.

Lemma hit_run a b i s inodes :
  a <= s <= b -> i + (s - a) * SECTOR_SIZE v / MFT_ENTRY_SIZE ∈ records_in_run v a b i [s] inodes.
Proof.
  intros Hs. cbn. rewrite (proj2 (Z.leb_le a s)), (proj2 (Z.leb_le s b)) by lia. cbn.
  case_bool_decide; [done|set_solver].
Qed.

Lemma locate_hit lba bytes_left :
  0 <= bytes_left ->
  block_start v (lba + bytes_left / BLOCK_SIZE v) + (bytes_left mod BLOCK_SIZE v) / SECTOR_SIZE v
  = VOLUME_OFFSET v + lba * k + bytes_left / SECTOR_SIZE v.
Proof.
  intros Hl. rewrite (block_start_eq v k r _ Hg). pose proof Hg as [Hs Hb Hk _].
  assert (0 < BLOCK_SIZE v) by (rewrite Hb; nia).
  rewrite (Z.div_mod bytes_left (BLOCK_SIZE v)) at 3 by lia.
  rewrite Hb at 3. replace (k * SECTOR_SIZE v * (bytes_left / BLOCK_SIZE v))
    with (k * (bytes_left / BLOCK_SIZE v) * SECTOR_SIZE v) by ring.
  rewrite Z.div_add_l by lia. lia.
Qed.

Lemma located_record runs : forall bytes_left inode_start s j inodes,
  locate_record v runs bytes_left = Ret (Some s) -> 0 <= bytes_left -> bytes_left mod MFT_ENTRY_SIZE = 0 ->
  0 <= j < r ->
  exists l, records_in_runs v runs inode_start [s + j] inodes = Ret l /\
    inode_start + bytes_left / MFT_ENTRY_SIZE ∈ l.
Proof.
  pose proof Hg as [Hs Hb Hk Hr].
  induction runs as [|[nb lba] runs IH]; intros bl i s j inodes Hloc Hbl Hmod Hj; [done|].
  cbn [locate_record records_in_runs] in *. rewrite !(block_to_sectors_eq v k r _ Hg) in *.
  cbn [res_bind] in *. rewrite !seqZ_first in * by done. cbn [res_bind] in *.
  assert (nb * BLOCK_SIZE v / SECTOR_SIZE v = nb * k) as Hend.
  { rewrite Hb. replace (nb * (k * SECTOR_SIZE v)) with (nb * k * SECTOR_SIZE v) by ring.
    apply Z.div_mul. lia. }
  destruct (Z.ltb_spec bl (nb * BLOCK_SIZE v)) as [Hin|Hout].
  - apply (inj Ret), (inj Some) in Hloc. pose proof (locate_hit lba bl Hbl) as Hl.
    rewrite (block_start_eq v k r _ Hg) in Hl. rewrite Hl in Hloc. subst s.
    assert (bl = MFT_ENTRY_SIZE * (bl / MFT_ENTRY_SIZE)) as Hblm
      by (pose proof (Z.div_mod bl MFT_ENTRY_SIZE ltac:(done)); lia).
    set (q := bl / MFT_ENTRY_SIZE) in *.
    assert (bl / SECTOR_SIZE v = r * q) as Hq.
    { rewrite Hblm, Hr. replace (r * SECTOR_SIZE v * q) with (r * q * SECTOR_SIZE v) by ring.
      apply Z.div_mul. lia. }
    rewrite Hq. apply records_in_runs_mono.
    assert (0 <= q) by (apply Z.div_pos; [done|reflexivity]).
    assert (i + q = i + (VOLUME_OFFSET v + lba * k + r * q + j - (VOLUME_OFFSET v + lba * k))
                        * SECTOR_SIZE v / MFT_ENTRY_SIZE) as ->.
    { f_equal. symmetry. replace (_ - _) with (r * q + j) by lia. rewrite Hr.
      symmetry. apply Z.div_unique with (j * SECTOR_SIZE v); [left; nia|ring]. }
    apply hit_run. rewrite Hend. split; [nia|].
    assert (r * q + j < nb * k); [|lia].
    assert ((r * q + j) * SECTOR_SIZE v < nb * k * SECTOR_SIZE v); [|nia].
    assert (MFT_ENTRY_SIZE * (q + 1) <= nb * BLOCK_SIZE v) as Hfit.
    { rewrite Hblock, Z.mul_assoc in Hin |- *. unfold MFT_ENTRY_SIZE in *. lia. }
    rewrite Hr, Hb in Hfit. nia.
  - replace (i + bl / MFT_ENTRY_SIZE) with
      (i + (VOLUME_OFFSET v + lba * k + nb * k - (VOLUME_OFFSET v + lba * k)) * SECTOR_SIZE v / MFT_ENTRY_SIZE
         + (bl - nb * BLOCK_SIZE v) / MFT_ENTRY_SIZE).
    + rewrite Hend. apply IH; [done|lia| |done].
      rewrite Hblock. replace (bl - nb * (m * MFT_ENTRY_SIZE)) with (bl + (- (nb * m)) * MFT_ENTRY_SIZE) by ring.
      by rewrite Z.mod_add.
    + replace (_ - (VOLUME_OFFSET v + lba * k)) with (nb * k) by lia.
      replace (nb * k * SECTOR_SIZE v) with (nb * m * MFT_ENTRY_SIZE) by (rewrite Hb in Hblock; nia).
      rewrite Z.div_mul by done. rewrite Hblock.
      replace (bl - nb * (m * MFT_ENTRY_SIZE)) with (bl + (- (nb * m)) * MFT_ENTRY_SIZE) by ring.
      rewrite Z.div_add by done. lia.
Qed.
End records.

(** MFT records and their sectors agree: every sector [_mft_record_to_sectors]
    gives for a record is resolved to that record by [_get_records_from_sectors],
    wherever the runs of the MFT lie, when blocks are whole sectors and hold whole
    records. *)
Theorem record_sectors_roundtrip v k r m record_no s sectors v' :
  geometry v k r -> 0 < m -> BLOCK_SIZE v = m * MFT_ENTRY_SIZE -> 0 <= record_no ->
  _mft_record_to_sectors record_no v = (Ret sectors, v') -> s ∈ sectors ->
  exists l, _get_records_from_sectors v [s] = Ret l /\ record_no ∈ l.
Proof.
  intros Hg Hm Hb Hn Hrec Hs. unfold _mft_record_to_sectors, pm_bind in Hrec.
  unfold _get_records_from_sectors. destruct (_mft_dataruns v) as [runs|]; [|done]. cbn [res_bind].
  destruct (locate_record v runs (record_no * 1024)) as [[st|]|] eqn:Hloc; [|injection Hrec as <- _; by apply elem_of_nil in Hs|done].
  assert (sectors = range st (st + 1024 / SECTOR_SIZE v)) as ->.
  { unfold pm_get, pm_modify, pm_ret in Hrec. destruct (bool_decide _) in Hrec; by injection Hrec. }
  pose proof Hg as [Hss _ _ Hr]. unfold range in Hs. apply elem_of_seqZ in Hs.
  assert (1024 / SECTOR_SIZE v = r) as Hrq.
  { change 1024 with MFT_ENTRY_SIZE. rewrite Hr. apply Z.div_mul. lia. }
  rewrite Hrq in Hs.
  destruct (located_record v k r Hg m Hm Hb runs (record_no * 1024) 0 st (s - st) [])
    as (l & Hl & Hin); [done|lia|by apply Z.mod_mul|lia|].
  exists l. replace (st + (s - st)) with s in Hl by lia. split; [done|].
  change 1024 with MFT_ENTRY_SIZE in Hin. by rewrite Z.div_mul in Hin.
Qed.
Lemma record_sectors_roundtrip_witness :
  exists l, _get_records_from_sectors example_volume [102] = Ret l /\ 3 ∈ l.
Proof.
  apply (record_sectors_roundtrip example_volume 8 2 4 3 102 [101; 102] example_volume example_geometry);
    [lia|reflexivity|lia|reflexivity|set_solver].
Defined.

(** The first sector behind the MFT is taken for a record: a write there is
    reported as a change of a record number the MFT does not have. *)
Theorem sector_behind_mft_is_a_record v k r m num_blocks lba :
  geometry v k r -> BLOCK_SIZE v = m * MFT_ENTRY_SIZE -> 0 <= num_blocks ->
  _mft_dataruns v = Ret [(num_blocks, lba)] ->
  let behind := VOLUME_OFFSET v + (lba + num_blocks) * k in
  _sector_to_block v behind = lba + num_blocks /\
  _get_records_from_sectors v [behind] = Ret [num_blocks * m].
Proof.
  intros Hg Hblock Hn Hruns behind. pose proof Hg as [Hs Hb Hk Hr]. subst behind. split.
  - rewrite (sector_to_block_eq v k r _ Hg). replace (_ - _) with ((lba + num_blocks) * k) by lia.
    apply Z.div_mul. lia.
  - unfold _get_records_from_sectors. rewrite Hruns. cbn [res_bind records_in_runs].
    rewrite (block_to_sectors_eq v k r lba Hg). cbn [res_bind]. rewrite seqZ_first by done.
    cbn [res_bind records_in_run].
    assert (num_blocks * BLOCK_SIZE v / SECTOR_SIZE v = num_blocks * k) as ->.
    { rewrite Hb. replace (num_blocks * (k * SECTOR_SIZE v)) with (num_blocks * k * SECTOR_SIZE v) by ring.
      apply Z.div_mul. lia. }
    rewrite (proj2 (Z.leb_le _ _)), (proj2 (Z.leb_le _ _)) by nia. cbn [andb].
    rewrite bool_decide_eq_false_2 by set_solver. cbn [app]. do 3 f_equal.
    replace (_ - _) with (num_blocks * k) by lia.
    replace (num_blocks * k * SECTOR_SIZE v) with (num_blocks * m * MFT_ENTRY_SIZE) by (rewrite Hb in Hblock; nia).
    rewrite Z.div_mul by done. lia.
Qed.
Definition single_run_volume : volume :=
  Volume 512 63 4096 1000 5 [] (TskFs 3 (fun i => Ret (TFile [(true, [(2, 4)])] 1 None [])) [] []) 3 ∅ ∅ ∅ None None [].
Lemma sector_behind_mft_is_a_record_witness :
  _sector_to_block single_run_volume 111 = 6 /\ _get_records_from_sectors single_run_volume [111] = Ret [8].
Proof.
  apply (sector_behind_mft_is_a_record single_run_volume 8 2 4 2 4); [by split|reflexivity|lia|reflexivity].
Defined.

(** * Data runs *)

Section runs.
Context (k r : Z).

Definition update_all (f : Z -> option Z) (l : list Z) (m : gmap Z Z) : gmap Z Z :=
  foldl (fun m s => partial_alter (fun _ => f s) s m) m l.

Lemma update_all_lookup f l m s :
  update_all f l m !! s = if bool_decide (s ∈ l) then f s else m !! s.
Proof.
  revert m. induction l as [|x l IH]; intros m; [done|].
  unfold update_all in *. cbn [foldl]. rewrite IH.
  destruct (decide (s ∈ l)) as [Hin|Hin].
  - rewrite !bool_decide_eq_true_2 by set_solver. done.
  - rewrite (bool_decide_eq_false_2 (s ∈ l)) by done. destruct (decide (s = x)) as [->|Hne].
    + rewrite lookup_partial_alter_eq. by rewrite bool_decide_eq_true_2 by set_solver.
    + rewrite lookup_partial_alter_ne by done. by rewrite bool_decide_eq_false_2 by set_solver.
Qed.

Lemma for_each_updates I f body l : forall v,
  (forall s v, s ∈ l -> I v -> body s v = (Ret tt, set_sectors (partial_alter (fun _ => f s) s (fs_sector_to_inode v)) v) /\
     I (set_sectors (partial_alter (fun _ => f s) s (fs_sector_to_inode v)) v)) ->
  I v -> for_each l body v = (Ret tt, set_sectors (update_all f l (fs_sector_to_inode v)) v) /\
         I (set_sectors (update_all f l (fs_sector_to_inode v)) v).
Proof.
  induction l as [|s l IH]; intros v Hb Hv.
  - cbn. unfold pm_ret. assert (set_sectors (fs_sector_to_inode v) v = v) as -> by (by destruct v). done.
  - cbn [for_each]. unfold pm_bind. destruct (Hb s v ltac:(set_solver) Hv) as [-> Hi].
    destruct (IH _ ltac:(intros; apply Hb; set_solver) Hi) as [-> Hi']. done.
Qed.

(** The sectors of consecutive blocks. *)
Definition run_sectors (v : volume) (addr : Z) (ixs : list Z) : list Z :=
  concat ((fun i => seqZ (VOLUME_OFFSET v + (addr + i) * k) k) <$> ixs).

Lemma run_sectors_spec v addr n s :
  geometry v k r -> s ∈ run_sectors v addr (seqZ 0 n) <-> addr <= _sector_to_block v s < addr + n.
Proof.
  intros Hg. rewrite (sector_to_block_eq v k r s Hg). pose proof (ge_k _ _ _ Hg) as Hk.
  set (x := s - VOLUME_OFFSET v). unfold run_sectors. rewrite list_elem_of_In, in_concat.
  pose proof (Z.div_mod x k ltac:(lia)) as Hd. pose proof (Z.mod_pos_bound x k Hk) as Hmod. split.
  - intros (l & Hl%list_elem_of_In & Hs%list_elem_of_In).
    apply list_elem_of_fmap in Hl as (i & -> & Hi). apply elem_of_seqZ in Hi, Hs.
    assert (x / k = addr + i) as ->; [|lia].
    symmetry. apply Z.div_unique with (x - (addr + i) * k); lia.
  - intros Hr. exists (seqZ (VOLUME_OFFSET v + (addr + (x / k - addr)) * k) k).
    rewrite <- !list_elem_of_In. split.
    + apply list_elem_of_fmap. exists (x / k - addr). split; [done|]. apply elem_of_seqZ. lia.
    + apply elem_of_seqZ. nia.
Qed.

Lemma on_blocks_updates (I : volume -> Prop) f addr body ixs : forall v off,
  (forall v, I v -> geometry v k r /\ VOLUME_OFFSET v = off) ->
  (forall b s v, s ∈ run_sectors v addr ixs -> I v ->
     body b s v = (Ret tt, set_sectors (partial_alter (fun _ => f s) s (fs_sector_to_inode v)) v) /\
     I (set_sectors (partial_alter (fun _ => f s) s (fs_sector_to_inode v)) v)) ->
  I v ->
  for_each ixs (fun i => let! sectors := (fun v => (_block_to_sectors v (addr + i), v)) in
                         for_each sectors (body (addr + i))) v =
    (Ret tt, set_sectors (update_all f (run_sectors v addr ixs) (fs_sector_to_inode v)) v).
Proof.
  induction ixs as [|i ixs IH]; intros v off HI Hb Hv.
  - cbn. unfold pm_ret. by assert (set_sectors (fs_sector_to_inode v) v = v) as -> by (by destruct v).
  - destruct (HI v Hv) as [Hg Hoff]. cbn [for_each]. unfold pm_bind at 1 2.
    rewrite (block_to_sectors_eq v k r _ Hg).
    destruct (for_each_updates I f (body (addr + i)) (seqZ (VOLUME_OFFSET v + (addr + i) * k) k) v)
      as [-> Hi]; [|done|].
    { intros s v0 Hs Hv0. apply Hb; [|done]. unfold run_sectors. cbn [fmap list_fmap concat].
      destruct (HI v0 Hv0) as [_ Hoff0]. rewrite Hoff0, <- Hoff. set_solver. }
    rewrite (IH _ off HI); [| |done].
    + unfold run_sectors. cbn [fmap list_fmap concat]. unfold update_all. rewrite foldl_app. done.
    + intros b s v0 Hs Hv0. apply Hb; [|done]. unfold run_sectors in *. cbn [fmap list_fmap concat].
      set_solver.
Qed.
End runs.

Definition in_run (v : volume) (addr length s : Z) : Prop :=
  addr <= _sector_to_block v s < addr + length.

(** Adding a run: a run inside the volume whose sectors nobody else owns gives
    each of its sectors, and no other, to the file; nothing else of the volume changes.
    A run that leaves the volume is logged and changes no mapping. *)
Theorem add_run_owns v k r inode addr length :
  geometry v k r ->
  (forall s, in_run v addr length s ->
     fs_sector_to_inode v !! s = None \/ fs_sector_to_inode v !! s = Some inode) ->
  exists v', _add_run inode addr length v = (Ret tt, v') /\
    if out_of_bounds v addr length
    then fs_sector_to_inode v' = fs_sector_to_inode v /\
         error_log v' = error_log v ++ [datarun_out_of_bounds inode length addr]
    else (forall s, in_run v addr length s -> fs_sector_to_inode v' !! s = Some inode) /\
         (forall s, ~ in_run v addr length s -> fs_sector_to_inode v' !! s = fs_sector_to_inode v !! s) /\
         v' = set_sectors (fs_sector_to_inode v') v.
Proof.
  intros Hg Hfree. unfold _add_run, pm_bind at 1, pm_get. destruct (out_of_bounds v addr length).
  { eexists. split; [reflexivity|]. done. }
  unfold on_blocks.
  set (I := fun w => exists mp, w = set_sectors mp v /\
              forall s, in_run v addr length s -> mp !! s = None \/ mp !! s = Some inode).
  rewrite (on_blocks_updates k r I (fun _ => Some inode) addr (add_sector inode) (seqZ 0 length) v (VOLUME_OFFSET v)).
  - eexists. split; [reflexivity|]. cbn [fs_sector_to_inode set_sectors].
    split; [|split; [|by destruct v]]; intros s Hs; rewrite update_all_lookup;
      unfold in_run in Hs; rewrite <- (run_sectors_spec k r v addr length s Hg) in Hs.
    + by rewrite bool_decide_eq_true_2.
    + by rewrite bool_decide_eq_false_2.
  - intros w (mp & -> & _). destruct Hg. by split.
  - intros b s w Hs (mp & -> & Hmp).
    change (run_sectors k (set_sectors mp v)) with (run_sectors k v) in Hs.
    apply (run_sectors_spec k r v addr length s Hg) in Hs. specialize (Hmp s Hs) as Hown. split.
    + unfold add_sector, pm_bind, pm_get. cbn [fs_sector_to_inode set_sectors].
      destruct Hown as [-> | ->]; cbn; [done|]. by rewrite Z.eqb_refl.
    + exists (partial_alter (fun _ => Some inode) s mp). split; [done|]. intros s' Hs'.
      destruct (decide (s' = s)) as [->|Hne]; [right; apply lookup_partial_alter_eq|].
      rewrite lookup_partial_alter_ne by done. by apply Hmp.
  - exists (fs_sector_to_inode v). split; [by destruct v|done].
Qed.
Lemma add_run_owns_witness :
  exists v', _add_run 7 3 2 example_volume = (Ret tt, v') /\
    (forall s, in_run example_volume 3 2 s -> fs_sector_to_inode v' !! s = Some 7) /\
    (forall s, ~ in_run example_volume 3 2 s -> fs_sector_to_inode v' !! s = None) /\
    v' = set_sectors (fs_sector_to_inode v') example_volume.
Proof.
  apply (add_run_owns example_volume 8 2 7 3 2 example_geometry). intros s _. left. apply lookup_empty.
Defined.

(** Removing a run inside the volume frees its sectors and no others. *)
Theorem remove_run_frees v k r inode addr length :
  geometry v k r -> out_of_bounds v addr length = false ->
  exists v', _remove_run inode addr length v = (Ret tt, v') /\
    (forall s, in_run v addr length s -> fs_sector_to_inode v' !! s = None) /\
    (forall s, ~ in_run v addr length s -> fs_sector_to_inode v' !! s = fs_sector_to_inode v !! s) /\
    v' = set_sectors (fs_sector_to_inode v') v.
Proof.
  intros Hg Hb. unfold _remove_run, pm_bind at 1, pm_get. rewrite Hb. unfold on_blocks.
  set (I := fun w => exists mp, w = set_sectors mp v).
  rewrite (on_blocks_updates k r I (fun _ => None) addr
             (fun _ sector => pm_modify (fun v => set_sectors (delete sector (fs_sector_to_inode v)) v))
             (seqZ 0 length) v (VOLUME_OFFSET v)).
  - eexists. split; [reflexivity|]. cbn [fs_sector_to_inode set_sectors].
    split; [|split; [|by destruct v]]; intros s Hs; rewrite update_all_lookup;
      unfold in_run in Hs; rewrite <- (run_sectors_spec k r v addr length s Hg) in Hs.
    + by rewrite bool_decide_eq_true_2.
    + by rewrite bool_decide_eq_false_2.
  - intros w (mp & ->). destruct Hg. by split.
  - intros b s w Hs (mp & ->). split; [done|]. by eexists.
  - exists (fs_sector_to_inode v). by destruct v.
Qed.
Definition busy_volume : volume := set_sectors {[ 90 := 7; 200 := 8 ]} example_volume.
Lemma remove_run_frees_witness :
  exists v', _remove_run 7 3 2 busy_volume = (Ret tt, v') /\
    (forall s, in_run busy_volume 3 2 s -> fs_sector_to_inode v' !! s = None) /\
    (forall s, ~ in_run busy_volume 3 2 s -> fs_sector_to_inode v' !! s = fs_sector_to_inode busy_volume !! s) /\
    v' = set_sectors (fs_sector_to_inode v') busy_volume.
Proof. apply (remove_run_frees busy_volume 8 2 7 3 2); [by split|reflexivity]. Defined.

(** * Reads *)

Lemma sector_data_concat (data : list Z) ss n :
  0 < ss -> zlen data = Z.of_nat n * ss ->
  concat ((fun i => slice data (i * ss) ((i + 1) * ss)) <$> seqZ 0 (Z.of_nat n)) = data.
Proof.
  intros Hss. assert (forall m, concat ((fun i => slice data (i * ss) ((i + 1) * ss)) <$> seqZ 0 (Z.of_nat m))
                      = slice data 0 (Z.of_nat m * ss)) as Hpre.
  { induction m as [|m IH]; [cbn; unfold slice; by rewrite Nat.sub_diag|].
    replace (Z.of_nat (S m)) with (Z.of_nat m + 1) by lia. rewrite seqZ_app by lia.
    rewrite fmap_app, concat_app, IH, Z.add_0_l. change (seqZ (Z.of_nat m) 1) with [0 + Z.of_nat m].
    cbn [fmap list_fmap concat]. rewrite app_nil_r, Z.add_0_l. apply slice_split; nia. }
  intros Hlen. rewrite Hpre, <- Hlen. unfold slice. pose proof (zlen_nonneg data).
  rewrite !clamp_nonneg by lia. replace (Z.min 0 (zlen data)) with 0 by lia. cbn [Z.to_nat].
  rewrite drop_0. apply take_ge. unfold zlen. lia.
Qed.

(** What a read of one sector is called. *)
Definition read_type (v : volume) (s : Z) : string :=
  match fs_sector_to_inode v !! s with
  | None => "[UNKNOWN READ]"
  | Some inode => if s =? 1 then "[MBR READ]" else if inode =? 0 then "[MFT READ]" else "[CONTENT READ]"
  end.

(** A read reports every sector once: [get_access] changes nothing, gives one
    operation per sector in order, each of the type its owner determines, and the raw
    data of the operations together is the data read. *)
Theorem read_access_complete fs_info parse_record dict_order v sector count direction data :
  direction <> DIRECTION_WRITE -> 0 < SECTOR_SIZE v -> 0 <= count -> zlen data = count * SECTOR_SIZE v ->
  exists ops, get_access fs_info parse_record dict_order sector count direction data v = (Ret ops, v) /\
    o_sector <$> ops = range sector (sector + count) /\
    concat (o_raw_data <$> ops) = data /\
    o_op_type <$> ops = read_type v <$> range sector (sector + count).
Proof.
  intros Hdir Hss Hc Hlen. unfold get_access. rewrite (proj2 (Z.eqb_neq _ _)) by done.
  eexists. split; [reflexivity|]. unfold range. rewrite Z.sub_0_r, Z.add_simpl_l.
  rewrite <- (Z2Nat.id count) in * by done. set (n := Z.to_nat count) in *.
  assert (seqZ sector (Z.of_nat n) = (fun i => sector + i) <$> seqZ 0 (Z.of_nat n)) as Hseq.
  { pose proof (fmap_add_seqZ sector 0 (Z.of_nat n)) as E. rewrite Z.add_0_r in E. symmetry. apply E. }
  rewrite <- !list_fmap_compose, Hseq, <- list_fmap_compose.
  assert (forall i, o_sector (read_operation v sector i data) = sector + i /\
            o_raw_data (read_operation v sector i data) = sector_data v data i /\
            o_op_type (read_operation v sector i data) = read_type v (sector + i)) as Hop.
  { intros i. unfold read_operation, read_type. by repeat case_match. }
  split; [|split].
  - apply list_fmap_ext. intros ? i _. apply Hop.
  - etransitivity; [|apply (sector_data_concat data (SECTOR_SIZE v) n Hss Hlen)]. f_equal.
    apply list_fmap_ext. intros ? i _. apply Hop.
  - apply list_fmap_ext. intros ? i _. apply Hop.
Qed.
Lemma read_access_complete_witness :
  exists ops, get_access (fun _ => Ret example_fs) (fun _ => Ret []) (fun l => l) 200 1 0 (py_repeat 5 512) busy_volume
      = (Ret ops, busy_volume) /\
    o_sector <$> ops = range 200 201 /\ concat (o_raw_data <$> ops) = py_repeat 5 512 /\
    o_op_type <$> ops = read_type busy_volume <$> range 200 201.
Proof.
  apply (read_access_complete (fun _ => Ret example_fs) (fun _ => Ret []) (fun l => l) busy_volume 200 1 0);
    [done|reflexivity|lia|reflexivity].
Defined.

(** * Volumes *)

Lemma bisect_loop_spec l x : forall fuel lo hi,
  StronglySorted Z.le l -> (lo <= hi <= length l)%nat -> (hi - lo < fuel)%nat ->
  (forall i y, l !! i = Some y -> (i < lo)%nat -> y <= x) ->
  (forall i y, l !! i = Some y -> (hi <= i)%nat -> x < y) ->
  let n := bisect_loop fuel l x lo hi in
  (n <= length l)%nat /\ forall i y, l !! i = Some y -> ((i < n)%nat <-> y <= x).
Proof.
  induction fuel as [|fuel IH]; intros lo hi Hs Hb Hf Hlo Hhi; [lia|]. cbn [bisect_loop].
  destruct (Nat.ltb_spec lo hi) as [Hlt|Hge].
  - set (mid := ((lo + hi) / 2)%nat).
    assert (lo <= mid < hi)%nat as Hmid.
    { subst mid. pose proof (Nat.div_mod_eq (lo + hi) 2). pose proof (Nat.mod_upper_bound (lo + hi) 2). lia. }
    destruct (lookup_lt_is_Some_2 l mid) as [z Hz]; [lia|].
    assert (nth mid l 0 = z) as ->.
    { rewrite nth_lookup, Hz. done. }
    assert (forall i j a b, l !! i = Some a -> l !! j = Some b -> (i <= j)%nat -> a <= b) as Hmono.
    { intros i j a b Hi Hj Hij. destruct (decide (i = j)) as [->|Hne]; [by simplify_eq|].
      apply (sorting.StronglySorted_app_1_elem_of Z.le (take (S i) l) (drop (S i) l)); [by rewrite take_drop|..].
      - eapply list_elem_of_lookup_2. rewrite lookup_take_lt; [done|lia].
      - eapply (list_elem_of_lookup_2 _ (j - S i)). rewrite lookup_drop. by replace (S i + (j - S i))%nat with j by lia. }
    destruct (Z.ltb_spec x z).
    + apply IH; [done|lia|lia|done|]. intros i y Hi Hge. pose proof (Hmono _ _ _ _ Hz Hi Hge). lia.
    + apply IH; [done|lia|lia| |done]. intros i y Hi Hlt'. pose proof (Hmono _ _ _ _ Hi Hz ltac:(lia)). lia.
  - split; [lia|]. intros i y Hi. split; intros H.
    + by eapply Hlo.
    + destruct (Nat.lt_ge_cases i lo) as [?|Hge']; [done|]. assert (hi <= i)%nat as Hge2 by lia.
      pose proof (Hhi _ _ Hi Hge2). lia.
Qed.

Lemma bisect_spec l x :
  StronglySorted Z.le l -> (bisect l x <= length l)%nat /\
  forall i y, l !! i = Some y -> ((i < bisect l x)%nat <-> y <= x).
Proof.
  intros Hs. apply bisect_loop_spec; [done|lia|lia| |].
  - intros. lia.
  - intros i y Hi%lookup_lt_Some. lia.
Qed.

(** A sector is resolved to the volume it lies in: the last one that starts at
    or before it.  A sector before every volume (the boot sector, say) is resolved to
    the last volume of the disk, because index -1 is valid in Python. *)
Theorem get_volume_spec {V} (boundaries : list Z) (volumes : list V) sector :
  StronglySorted Z.le boundaries -> length volumes = length boundaries -> volumes <> [] ->
  exists vol, _get_volume boundaries volumes sector = Ret (Some vol) /\
    ((exists i start, volumes !! i = Some vol /\ boundaries !! i = Some start /\ start <= sector /\
        forall start', boundaries !! S i = Some start' -> sector < start') \/
     (last volumes = Some vol /\ Forall (fun start => sector < start) boundaries)).
Proof.
  intros Hs Hl Hne. destruct (bisect_spec boundaries sector Hs) as [Hle Hspec].
  unfold _get_volume. rewrite (proj2 (Nat.ltb_ge _ _)) by lia.
  destruct (bisect boundaries sector) as [|n].
  - destruct (stack_cases volumes) as [?|(l & vol & ->)]; [done|]. exists vol. split.
    + unfold py_index. change (Z.of_nat 0 - 1) with (-1). cbn [Z.ltb Z.compare].
      rewrite zlen_app, zlen_cons, zlen_nil. pose proof (zlen_nonneg l).
      rewrite (proj2 (Z.ltb_ge _ 0)) by lia. unfold zlen.
      replace (Z.to_nat _) with (length l) by lia. by rewrite list_lookup_middle.
    + right. split; [apply last_snoc|]. apply Forall_lookup. intros i y Hi.
      destruct (Z.lt_ge_cases sector y) as [?|Hge]; [done|]. apply (Hspec i y Hi) in Hge. lia.
  - destruct (lookup_lt_is_Some_2 volumes n) as [vol Hvol]; [lia|].
    destruct (lookup_lt_is_Some_2 boundaries n) as [start Hstart]; [lia|].
    exists vol. split.
    + rewrite (py_index_lookup volumes _ vol); [done|lia|].
      by replace (Z.to_nat (Z.of_nat (S n) - 1)) with n by lia.
    + left. exists n, start. split; [done|]. split; [done|]. split; [apply (Hspec n start Hstart); lia|].
      intros start' Hs'. destruct (Z.lt_ge_cases sector start') as [?|Hge]; [done|].
      apply (Hspec _ _ Hs') in Hge. lia.
Qed.
Lemma get_volume_spec_witness :
  exists vol, _get_volume [63; 1000] ["a"; "b"] 10 = Ret (Some vol) /\
    ((exists i start, ["a"; "b"] !! i = Some vol /\ [63; 1000] !! i = Some start /\ start <= 10 /\
        forall start', [63; 1000] !! S i = Some start' -> 10 < start') \/
     (last ["a"; "b"] = Some vol /\ Forall (fun start => 10 < start) [63; 1000])).
Proof.
  apply (get_volume_spec [63; 1000] ["a"; "b"] 10); [repeat constructor; done|done|done].
Defined.

(** [_is_MFT_data] rejects every MFT record: it reads the magic number [FILE] in
    the wrong byte order. *)
Theorem is_MFT_data_rejects_records rest :
  _is_MFT_data ([0x46; 0x49; 0x4C; 0x45] ++ rest) = Ret false /\
  _is_MFT_data ([0x42; 0x41; 0x41; 0x44] ++ rest) = Ret true.
Proof.
  assert (forall a b c d : Z, slice_to ([a; b; c; d] ++ rest) 4 = [a; b; c; d]) as Hs.
  { intros a b c d. unfold slice_to. rewrite clamp_nonneg, zlen_app by lia.
    change (zlen [a; b; c; d]) with 4. pose proof (zlen_nonneg rest).
    by replace (Z.to_nat _) with (length [a; b; c; d]) by (cbn; lia); rewrite take_app_length. }
  unfold _is_MFT_data. by rewrite !Hs.
Qed.
