(* ===== verification/FilesystemInvariant.v ===== *)
(** Theorems on whole accesses to an NTFS volume: the invariant that every method of the
    engine preserves, and what a write outside the MFT does. *)
From S2P Require Import Prelude Struct Filesystem FilesystemTheorems.

(** * The invariant of a volume *)

Section invariant.
Context (fs_info : bytes -> res tsk_fs) (parse_record : bytes -> res mft_record) (dict_order : list Z -> list Z).
Context (ss off k bc : Z) (Hss : 0 < ss) (Hk : 0 < k).

(** The geometry is fixed, the file system is the Sleuth Kit's view of the shadow image, if it
    accepts that, and only sectors inside the volume have an owner. *)
Record consistent (v : volume) : Prop := {
  co_ss : SECTOR_SIZE v = ss;
  co_off : VOLUME_OFFSET v = off;
  co_bs : BLOCK_SIZE v = k * ss;
  co_bc : BLOCK_COUNT v = bc;
  co_view : forall fs, fs_info (IMG v) = Ret fs -> FILE_SYSTEM v = fs;
  co_owned : forall s, is_Some (fs_sector_to_inode v !! s) -> off <= s < off + bc * k
}.

Lemma for_each_preserves {A} (l : list A) body :
  (forall x, x ∈ l -> preserves consistent (body x)) -> preserves consistent (for_each l body).
Proof.
  induction l as [|x l IH]; intros Hb; cbn [for_each]; [apply preserves_ret|].
  apply preserves_bind; [apply Hb; left|]. intros _. apply IH. intros y Hy. apply Hb. by right.
Qed.
Lemma consult_preserves {A} (f : volume -> res A) : preserves consistent (fun v => (f v, v)).
Proof. intros v Hv. by destruct (f v). Qed.
(** Updates of anything but the geometry, the image and the owners. *)
Definition quiet (f : volume -> volume) : Prop := forall v,
  SECTOR_SIZE (f v) = SECTOR_SIZE v /\ VOLUME_OFFSET (f v) = VOLUME_OFFSET v /\
  BLOCK_SIZE (f v) = BLOCK_SIZE v /\ BLOCK_COUNT (f v) = BLOCK_COUNT v /\ IMG (f v) = IMG v /\
  FILE_SYSTEM (f v) = FILE_SYSTEM v /\ fs_sector_to_inode (f v) = fs_sector_to_inode v.
Lemma quiet_preserves f : quiet f -> preserves consistent (pm_modify f).
Proof.
  intros Hf. apply preserves_modify. intros v [? ? ? ? Hview Ho].
  destruct (Hf v) as (E1 & E2 & E3 & E4 & E5 & E6 & E7).
  split; rewrite ?E1, ?E2, ?E3, ?E4, ?E5, ?E6, ?E7; auto.
Qed.
(** Only the method's own case distinctions are left to it. *)
Ltac preserve := repeat first
  [ progress intros
  | by apply quiet_preserves
  | apply preserves_ret | apply preserves_raise | apply preserves_get | apply preserves_lift
  | apply for_each_preserves | apply preserves_if
  | progress eauto 2 with py_preserve nocore
  | apply preserves_bind
  | apply consult_preserves
  | match goal with |- preserves _ (match ?x with _ => _ end) => destruct x end ].

Lemma mft_record_to_sectors_preserves n : preserves consistent (_mft_record_to_sectors n).
Proof. unfold _mft_record_to_sectors. preserve. Qed.
Lemma open_file_preserves n : preserves consistent (open_file n).
Proof. apply consult_preserves. Qed.
Hint Resolve mft_record_to_sectors_preserves open_file_preserves : py_preserve.

Lemma delete_preserves s :
  preserves consistent (pm_modify (fun v => set_sectors (delete s (fs_sector_to_inode v)) v)).
Proof.
  apply preserves_modify. intros v [? ? ? ? ? Ho]. split; try done.
  cbn [fs_sector_to_inode set_sectors]. intros t. rewrite lookup_delete_is_Some. intros [_ Ht]. by apply Ho.
Qed.
Lemma insert_preserves s inode :
  off <= s < off + bc * k ->
  preserves consistent (pm_modify (fun v => set_sectors (<[s := inode]> (fs_sector_to_inode v)) v)).
Proof.
  intros Hs. apply preserves_modify. intros v [? ? ? ? ? Ho]. split; try done.
  cbn [fs_sector_to_inode set_sectors]. intros t. rewrite lookup_insert_is_Some. intros [->|[_ Ht]]; [done|].
  by apply Ho.
Qed.

(** A loop over the blocks of a run visits only sectors of the volume. *)
Lemma on_blocks_preserves addr length body :
  0 <= addr -> addr + length <= bc ->
  (forall b s, off <= s < off + bc * k -> preserves consistent (body b s)) ->
  preserves consistent (on_blocks addr length body).
Proof.
  intros Ha Hl Hb. apply for_each_preserves. intros i Hi%elem_of_seqZ.
  apply (triple_bind _ _ _ (fun l v => consistent v /\ Forall (fun s => off <= s < off + bc * k) l)).
  - intros v Hv. pose proof Hv as [Ess Eoff Ebs _ _ _].
    unfold _block_to_sectors, range, block_start. rewrite Ess, Eoff, Ebs, (proj2 (Z.leb_le _ _)) by nia.
    split; [done|]. apply Forall_forall. intros s Hs%elem_of_seqZ.
    replace (off * ss + (addr + i) * (k * ss)) with ((off + (addr + i) * k) * ss) in Hs by lia.
    rewrite !Z.div_mul in Hs by lia. nia.
  - intros l v [Hv Hall]. revert v Hv. apply for_each_preserves. intros s Hs.
    apply Hb. by eapply Forall_forall in Hall.
Qed.
Lemma in_bounds_preserves addr length (out : M unit) body :
  preserves consistent out ->
  (forall b s, off <= s < off + bc * k -> preserves consistent (body b s)) ->
  preserves consistent (let! v := pm_get (fun v => v) in
                        if out_of_bounds v addr length then out else on_blocks addr length body).
Proof.
  intros Hout Hb v Hv. unfold pm_bind at 1, pm_get. destruct (out_of_bounds v addr length) eqn:E.
  - by apply Hout.
  - revert E. unfold out_of_bounds. rewrite (co_bc v Hv), !orb_false_iff, !Z.ltb_ge. intros [[[? ?] ?] ?].
    by apply on_blocks_preserves.
Qed.
Lemma remove_run_preserves inode addr length : preserves consistent (_remove_run inode addr length).
Proof. apply in_bounds_preserves; [preserve|]. intros. apply delete_preserves. Qed.
Lemma add_run_preserves inode addr length : preserves consistent (_add_run inode addr length).
Proof.
  apply in_bounds_preserves; [preserve|]. intros b s Hs. pose proof (insert_preserves s inode Hs).
  unfold add_sector. preserve.
Qed.
Hint Resolve remove_run_preserves add_run_preserves : py_preserve.

Lemma load_file_entry_preserves n : preserves consistent (_load_file_entry n).
Proof. unfold _load_file_entry. preserve. Qed.
Lemma reload_file_entry_preserves n : preserves consistent (_reload_file_entry n).
Proof. unfold _reload_file_entry, _clean_file_entry. pose proof load_file_entry_preserves. preserve. Qed.
Lemma parse_root_preserves : preserves consistent parse_root.
Proof. unfold parse_root, _parse_paths. preserve. Qed.
Hint Resolve load_file_entry_preserves reload_file_entry_preserves parse_root_preserves : py_preserve.
Lemma load_file_system_preserves : preserves consistent _load_file_system.
Proof. unfold _load_file_system. preserve. Qed.

Lemma get_path_preserves fuel raw n : preserves consistent (_get_path parse_record fuel raw n).
Proof.
  revert n. induction fuel as [|fuel IH]; intros n; cbn [_get_path]; unfold set_path; preserve.
Qed.
Hint Resolve get_path_preserves : py_preserve.
Lemma diff_metadata_preserves old new n : preserves consistent (_diff_metadata parse_record old new n).
Proof. unfold _diff_metadata. preserve. Qed.
Hint Resolve diff_metadata_preserves : py_preserve.
Lemma diffs_preserves u l : preserves consistent (diffs parse_record u l).
Proof. induction l; cbn [diffs]; preserve. Qed.
Lemma load_new_preserves n : forall u, preserves consistent (load_new n u).
Proof. induction n; intros u; cbn [load_new]; preserve. Qed.
Lemma file_event_preserves n t : preserves consistent (file_event n t).
Proof. unfold file_event. preserve. Qed.
Hint Resolve diffs_preserves load_new_preserves file_event_preserves : py_preserve.
Lemma reload_all_preserves u l : forall ops, preserves consistent (reload_all u l ops).
Proof. induction l; intros ops; cbn [reload_all]; preserve. Qed.
Lemma update_file_system_preserves s data : preserves consistent (_update_file_system fs_info s data).
Proof.
  intros v [H1 H2 H3 H4 H5 H6]. unfold _update_file_system. destruct (fs_info (write_at _ _ _)) as [fs|e] eqn:E; cbn; split; cbn [IMG set_fs FILE_SYSTEM]; try done.
  - intros fs'. rewrite E. by intros [= ->].
  - intros fs'. by rewrite E.
Qed.
Hint Resolve reload_all_preserves update_file_system_preserves : py_preserve.
Lemma write_operations_preserves u s l data :
  preserves consistent (write_operations parse_record dict_order u s l data).
Proof. induction l; cbn [write_operations]; [preserve|]. unfold write_operation. preserve. Qed.
Lemma apply_write_preserves s n data : preserves consistent (apply_write fs_info dict_order s n data).
Proof. unfold apply_write. preserve. Qed.
Hint Resolve write_operations_preserves apply_write_preserves : py_preserve.
Lemma get_access_preserves s n d data :
  preserves consistent (get_access fs_info parse_record dict_order s n d data).
Proof. unfold get_access. preserve. Qed.

(** The volume after a list of accesses, whether or not they raise. *)
Definition after (accesses : list (Z * Z * Z * bytes)) (v : volume) : volume :=
  foldl (fun v '(s, n, d, data) => (get_access fs_info parse_record dict_order s n d data v).2) v accesses.

(** [C11] A volume that is loaded and then sees any accesses, some of which may raise,
    stays consistent: the parsed file system is what the Sleuth Kit finds in the shadow image,
    whenever it accepts the image as it was written, only sectors of the volume have an
    owner, and the geometry never changes. *)
Theorem accesses_keep_consistent v accesses :
  consistent v -> consistent (after accesses (_load_file_system v).2).
Proof.
  intros Hv. assert (consistent (_load_file_system v).2) as Hl.
  { pose proof (load_file_system_preserves v Hv) as H. by destruct (_load_file_system v) as [[?|?] ?]. }
  revert Hl. generalize (_load_file_system v).2. clear v Hv.
  induction accesses as [|[[[s n] d] data] l IH]; intros v Hv; [done|]. cbn. apply IH.
  pose proof (get_access_preserves s n d data v Hv) as H. by destruct (get_access _ _ _ _ _ _ _ v) as [[?|?] ?].
Qed.
End invariant.
(** The second access writes a boot sector that the Sleuth Kit rejects. *)
Definition picky_fs (img : bytes) : res tsk_fs := if bool_decide (img !! 48640%nat = Some 9) then Raise IOError else Ret example_fs.
Lemma accesses_keep_consistent_witness :
  consistent picky_fs 512 63 8 1000
    (after picky_fs (fun _ => Ret []) (fun l => l) [(95, 2, 1, py_repeat 0 1024); (95, 2, 1, py_repeat 9 1024)]
       (_load_file_system example_volume).2).
Proof.
  apply (accesses_keep_consistent picky_fs (fun _ => Ret []) (fun l => l) 512 63 8 1000); [lia|lia|].
  split; try done.
  - intros fs. unfold picky_fs. case_bool_decide; [done|]. by intros [= <-].
  - intros s [x Hx]. change ((∅ : gmap Z Z) !! s = Some x) in Hx. by rewrite lookup_empty in Hx.
Defined.

(** * Writes outside the MFT *)

(** What a write to one sector is called when no MFT record is touched. *)
Definition write_type (v : volume) (s : Z) : string :=
  match fs_sector_to_inode v !! s with
  | None => "[UNKNOWN WRITE]"
  | Some inode => if inode =? 0 then "[MFT WRITE]" else
                  if (s =? 1) || (s =? 0) then "[MBR WRITE]" else "[CONTENT WRITE]"
  end.

Section content_write.
Context (fs_info : bytes -> res tsk_fs) (parse_record : bytes -> res mft_record) (dict_order : list Z -> list Z).
Hypothesis dict_order_perm : forall l, dict_order l ≡ₚ l.

Lemma no_record_keys : record_keys dict_order ∅ = [].
Proof. unfold record_keys. rewrite dom_empty_L, elements_empty. by apply Permutation_nil, symmetry, dict_order_perm. Qed.

Lemma write_operation_plain sector i data v :
  (forall inode, fs_sector_to_inode v !! (sector + i) = Some inode -> is_Some (fs_inode_to_path v !! inode)) ->
  exists o, write_operation parse_record dict_order ∅ sector i data v = (Ret o, v) /\
    o_sector o = sector + i /\ o_raw_data o = sector_data v data i /\ o_op_type o = write_type v (sector + i) /\
    o_semantic_data o = [].
Proof.
  intros Hp. unfold write_operation, write_type, pm_bind, pm_get.
  destruct (fs_sector_to_inode v !! (sector + i)) as [inode|] eqn:E; [|by eexists].
  destruct (Hp inode eq_refl) as [p ->]. cbn.
  destruct (inode =? 0).
  - rewrite no_record_keys. cbn. by eexists.
  - destruct ((sector + i =? 1) || (sector + i =? 0)); by eexists.
Qed.
Lemma write_operations_plain sector data v : forall ixs,
  (forall i inode, i ∈ ixs -> fs_sector_to_inode v !! (sector + i) = Some inode ->
     is_Some (fs_inode_to_path v !! inode)) ->
  exists ops, write_operations parse_record dict_order ∅ sector ixs data v = (Ret ops, v) /\
    o_sector <$> ops = Z.add sector <$> ixs /\ o_raw_data <$> ops = sector_data v data <$> ixs /\
    o_op_type <$> ops = (fun i => write_type v (sector + i)) <$> ixs /\ Forall (fun o => o_semantic_data o = []) ops.
Proof.
  induction ixs as [|i ixs IH]; intros Hp; cbn [write_operations]; [by exists []|].
  destruct (write_operation_plain sector i data v) as (o & Ho & E1 & E2 & E3 & E4).
  { intros inode. apply Hp. left. }
  destruct IH as (ops & Hops & F1 & F2 & F3 & F4); [intros j inode Hj; apply Hp; by right|].
  exists (o :: ops). unfold pm_bind. rewrite Ho, Hops. split; [done|].
  rewrite !fmap_cons. split; [|split; [|split]]; [congruence..|by constructor].
Qed.
Lemma range_shift sector count : Z.add sector <$> range 0 count = range sector (sector + count).
Proof. unfold range. rewrite fmap_add_seqZ. f_equal; lia. Qed.
Lemma records_LAST_INUM x v l :
  _get_records_from_sectors (set_LAST_INUM x v) l = _get_records_from_sectors v l.
Proof.
  assert (forall ss a b n js, records_in_run (set_LAST_INUM x v) a b n ss js = records_in_run v a b n ss js) as Hr.
  { induction ss as [|s ss IH]; intros; [done|]. apply IH. }
  unfold _get_records_from_sectors. change (_mft_dataruns (set_LAST_INUM x v)) with (_mft_dataruns v).
  destruct (_mft_dataruns v) as [runs|]; [|done]. cbn [res_bind].
  generalize 0, (@nil Z). induction runs as [|[n a] runs IH]; intros i js; [done|].
  cbn [records_in_runs]. change (_block_to_sectors (set_LAST_INUM x v)) with (_block_to_sectors v).
  destruct (_block_to_sectors v a) as [ss|]; [|done]. cbn [res_bind].
  destruct (py_index ss 0); [|done]. cbn [res_bind]. rewrite Hr. apply IH.
Qed.
Lemma apply_write_plain v sector count data :
  _get_records_from_sectors v (range sector (sector + count)) = Ret [] ->
  apply_write fs_info dict_order sector count data v
    = (Ret (∅, []), set_LAST_INUM (last_inum (FILE_SYSTEM v)) v).
Proof.
  intros Hrec. unfold apply_write, pm_bind. rewrite Hrec. cbn [snapshot pm_get pm_modify].
  rewrite bool_decide_eq_true_2 by done. cbn [pm_ret pm_get FILE_SYSTEM LAST_INUM set_LAST_INUM].
  rewrite Z.sub_diag. change (Z.to_nat 0) with 0%nat. cbn [Nat.eqb load_new pm_ret].
  rewrite !records_LAST_INUM, Hrec. cbn [missing foldl]. rewrite no_record_keys. done.
Qed.

(** A write that touches no MFT record, to sectors whose owners have a path,
    reports every sector once, in order, with the type its owner determines; the raw
    data of the operations together is the data written, no metadata changes are
    reported, and the volume stays the same but for [LAST_INUM].  In particular the
    data does not reach the shadow image. *)
Theorem content_write_complete v sector count data :
  0 < SECTOR_SIZE v -> 0 <= count -> zlen data = count * SECTOR_SIZE v ->
  _get_records_from_sectors v (range sector (sector + count)) = Ret [] ->
  (forall s inode, fs_sector_to_inode v !! s = Some inode -> is_Some (fs_inode_to_path v !! inode)) ->
  exists ops, get_access fs_info parse_record dict_order sector count DIRECTION_WRITE data v
      = (Ret ops, set_LAST_INUM (last_inum (FILE_SYSTEM v)) v) /\
    o_sector <$> ops = range sector (sector + count) /\
    concat (o_raw_data <$> ops) = data /\
    o_op_type <$> ops = write_type v <$> range sector (sector + count) /\
    Forall (fun o => o_semantic_data o = []) ops.
Proof.
  intros Hss Hc Hlen Hrec Hp. set (v1 := set_LAST_INUM (last_inum (FILE_SYSTEM v)) v).
  destruct (write_operations_plain sector data v1 (range 0 count)) as (ops & Hops & E1 & E2 & E3 & E4).
  { intros i inode _. apply Hp. }
  exists ops. split; [|split; [|split; [|split]]].
  - unfold get_access. rewrite Z.eqb_refl. unfold pm_bind at 1. rewrite apply_write_plain by done. cbn [fst snd].
    fold v1. unfold pm_bind. by rewrite Hops.
  - rewrite E1, range_shift. done.
  - rewrite E2. unfold range. rewrite Z.sub_0_r, <- (Z2Nat.id count) by done.
    apply (sector_data_concat data (SECTOR_SIZE v)); [done|]. by rewrite Z2Nat.id.
  - rewrite E3, <- range_shift, <- list_fmap_compose. done.
  - done.
Qed.
End content_write.
Lemma content_write_complete_witness :
  exists ops, get_access (fun _ => Ret example_fs) (fun _ => Ret []) (fun l => l) 300 1 DIRECTION_WRITE (py_repeat 5 512)
      example_volume = (Ret ops, set_LAST_INUM 3 example_volume) /\
    o_sector <$> ops = range 300 301 /\ concat (o_raw_data <$> ops) = py_repeat 5 512 /\
    o_op_type <$> ops = write_type example_volume <$> range 300 301 /\
    Forall (fun o => o_semantic_data o = []) ops.
Proof.
  apply (content_write_complete (fun _ => Ret example_fs) (fun _ => Ret []) (fun l => l) (fun l => reflexivity l)
           example_volume 300 1); [done|lia|reflexivity|reflexivity|].
  intros s inode Hs. change ((∅ : gmap Z Z) !! s = Some inode) in Hs. by rewrite lookup_empty in Hs.
Defined.
