(* ===== verification/ShadowImage.v ===== *)
(** Model of the shadow image of [lophi_semanticgap/disk/filesystems/__init__.py]
    ([Shadow_Img_Info]): writes go to a cache of sectors and reads see them, while the image
    itself is only read.  Theorem: reading through the cache is reading an image to which
    the writes were applied. *)
From S2P Require Import Prelude Filesystem.

Section shadow.
Context (SECTOR_SIZE : Z) (image : bytes).

(** [CACHE] *)
Abbreviation cache := (gmap Z bytes).
(** [fd.seek(off); fd.read(length)], which ends at the end of the file *)
Definition fd_read (off length : Z) : bytes := take (Z.to_nat length) (drop (Z.to_nat off) image).
Definition _read_sector (CACHE : cache) (sector offset_into_sector length : Z) : bytes :=
  match CACHE !! sector with
  | Some d => slice d offset_into_sector (offset_into_sector + length)
  | None => fd_read (sector * SECTOR_SIZE + offset_into_sector) length
  end.
(** Every round reads at least one byte. *)
Fixpoint shadow_loop (fuel : nat) (CACHE : cache) (off length : Z) : res bytes :=
  if length <=? 0 then Ret [] else
  match fuel with
  | O => Raise Diverges
  | S fuel =>
      let sector := off / SECTOR_SIZE in
      let offset_into_sector := off mod SECTOR_SIZE in
      let l := Z.min length (SECTOR_SIZE - offset_into_sector) in
      let? rest := shadow_loop fuel CACHE (off + l) (length - l) in
      Ret (_read_sector CACHE sector offset_into_sector l ++ rest)
  end.
Definition shadow_read (CACHE : cache) (off length : Z) : res bytes := shadow_loop (Z.to_nat length) CACHE off length.
Definition shadow_write (sector sector_count : Z) (data : bytes) (CACHE : cache) : cache :=
  foldl (fun c i => <[sector + i := slice data (i * SECTOR_SIZE) ((i + 1) * SECTOR_SIZE)]> c) CACHE (seqZ 0 sector_count).

(** * Reading what was written *)

Context (SS_pos : 0 < SECTOR_SIZE).

(** The cache and the image together are the image [flat]. *)
Definition shadows (CACHE : cache) (flat : bytes) : Prop :=
  length flat = length image /\
  (forall k d, CACHE !! k = Some d -> 0 <= k /\ (k + 1) * SECTOR_SIZE <= zlen flat /\ d = slice flat (k * SECTOR_SIZE) ((k + 1) * SECTOR_SIZE)) /\
  (forall i : nat, CACHE !! (Z.of_nat i / SECTOR_SIZE) = None -> flat !! i = image !! i).
Lemma shadows_empty : shadows ∅ image.
Proof. split; [done|]. split; [|done]. intros k d H. by rewrite lookup_empty in H. Qed.

(** One sector of a read *)
Lemma read_sector_flat CACHE flat k o l : shadows CACHE flat -> 0 <= k -> 0 <= o -> 0 < l -> o + l <= SECTOR_SIZE ->
  k * SECTOR_SIZE + o + l <= zlen flat ->
  _read_sector CACHE k o l = slice flat (k * SECTOR_SIZE + o) (k * SECTOR_SIZE + o + l).
Proof.
  intros (Hlen & Hin & Hout) Hk Ho Hl Hs Hf. apply list_eq. intros i.
  rewrite slice_lookup by nia. unfold _read_sector. destruct (CACHE !! k) as [d|] eqn:Hc.
  - destruct (Hin k d Hc) as (_ & Hb & ->). rewrite slice_lookup.
    2: lia. 2: { unfold slice. rewrite !clamp_nonneg by nia. unfold zlen. rewrite length_take, length_drop. unfold zlen in *. nia. }
    repeat destruct (decide _); try lia; [|done]. rewrite slice_lookup by nia. rewrite decide_True by nia. f_equal. nia.
  - unfold fd_read. destruct (decide _).
    + rewrite lookup_take_lt by lia. rewrite lookup_drop. rewrite Hout; [done|].
      replace (Z.of_nat (Z.to_nat (k * SECTOR_SIZE + o) + i) / SECTOR_SIZE) with k; [done|].
      apply Z.div_unique with (o + Z.of_nat i); nia.
    + apply lookup_take_ge. lia.
Qed.
Lemma shadow_loop_flat CACHE flat : shadows CACHE flat -> forall fuel off length, 0 <= off -> 0 <= length -> off + length <= zlen flat ->
  length <= Z.of_nat fuel -> shadow_loop fuel CACHE off length = Ret (slice flat off (off + length)).
Proof.
  intros Hs. induction fuel as [|fuel IH]; intros off length Ho H0 Hl Hf; cbn [shadow_loop].
  - rewrite (proj2 (Z.leb_le _ _)) by lia. by rewrite slice_empty by lia.
  - destruct (Z.leb_spec length 0); [by rewrite slice_empty by lia|].
    pose proof (Z.mod_pos_bound off SECTOR_SIZE SS_pos) as Hm. pose proof (Z.div_mod off SECTOR_SIZE ltac:(lia)) as Hd.
    assert (0 <= off / SECTOR_SIZE) by (apply Z.div_pos; lia).
    set (l := Z.min length (SECTOR_SIZE - off mod SECTOR_SIZE)).
    rewrite IH by lia. cbn [res_bind]. rewrite (read_sector_flat CACHE flat) by (done || lia).
    replace (off / SECTOR_SIZE * SECTOR_SIZE + off mod SECTOR_SIZE) with off by lia.
    rewrite <- (slice_split flat off (off + l) (off + length)) by lia. do 3 f_equal. lia.
Qed.

(** ** Writing *)

Lemma write_at_lookup off data (img : bytes) i : (off + length data <= length img)%nat ->
  write_at off data img !! i = if decide (off <= i < off + length data)%nat then data !! (i - off)%nat else img !! i.
Proof.
  intros Hb. unfold write_at. replace (off - length img)%nat with 0%nat by lia. cbn [replicate]. rewrite app_nil_r.
  destruct (decide (i < off)%nat).
  - rewrite decide_False by lia. rewrite lookup_app_l by (rewrite length_take; lia). by rewrite lookup_take_lt by lia.
  - rewrite lookup_app_r by (rewrite length_take; lia). rewrite length_take, Nat.min_l by lia. destruct (decide _).
    + by rewrite lookup_app_l by lia.
    + rewrite lookup_app_r by lia. rewrite lookup_drop. f_equal. lia.
Qed.
Lemma write_at_length off data (img : bytes) : (off + length data <= length img)%nat -> length (write_at off data img) = length img.
Proof.
  intros Hb. unfold write_at. rewrite !length_app, length_take, length_drop, length_app, length_replicate. lia.
Qed.
Lemma write_cache_lookup sector (n : nat) data CACHE k :
  shadow_write sector (Z.of_nat n) data CACHE !! k =
    if decide (sector <= k < sector + Z.of_nat n)
    then Some (slice data ((k - sector) * SECTOR_SIZE) ((k - sector + 1) * SECTOR_SIZE)) else CACHE !! k.
Proof.
  unfold shadow_write. induction n as [|n IH]; [by rewrite decide_False by lia|].
  rewrite Nat2Z.inj_succ, <- Z.add_1_r, seqZ_app by lia. rewrite foldl_app. cbn [foldl fmap list_fmap seqZ].
  change (seqZ (0 + Z.of_nat n) 1) with [0 + Z.of_nat n]. cbn [foldl]. rewrite Z.add_0_l.
  destruct (decide (k = sector + Z.of_nat n)) as [->|Hne].
  - rewrite lookup_insert_eq, decide_True by lia. do 2 f_equal; f_equal; lia.
  - rewrite lookup_insert_ne by lia. rewrite IH. repeat destruct (decide _); try lia; done.
Qed.
Lemma shadows_write CACHE flat sector (n : nat) data : shadows CACHE flat -> 0 <= sector ->
  zlen data = Z.of_nat n * SECTOR_SIZE -> (sector + Z.of_nat n) * SECTOR_SIZE <= zlen flat ->
  shadows (shadow_write sector (Z.of_nat n) data CACHE) (write_at (Z.to_nat (sector * SECTOR_SIZE)) data flat).
Proof.
  intros (Hlen & Hin & Hout) Hs Hd Hf. set (off := Z.to_nat (sector * SECTOR_SIZE)).
  assert (off + length data <= length flat)%nat as Hb by (unfold zlen in *; nia).
  pose proof (write_at_length off data flat Hb) as Hl. split_and!; [lia| |].
  - intros k d. rewrite write_cache_lookup. unfold zlen. rewrite Hl. fold (zlen flat). destruct (decide _) as [Hk|Hk].
    + intros [= <-]. split_and!; [lia|nia|]. apply list_eq. intros i.
      rewrite (slice_lookup data), (slice_lookup (write_at off data flat)) by (unfold zlen in *; nia).
      destruct (decide (_ + Z.of_nat i < _)); [|by rewrite decide_False by nia]. rewrite decide_True by nia.
      rewrite write_at_lookup by done. rewrite decide_True by (unfold zlen in *; nia). f_equal. nia.
    + intros Hc. destruct (Hin k d Hc) as (H0 & H1 & ->). split_and!; [done|done|]. apply list_eq. intros i.
      rewrite !slice_lookup by (unfold zlen in *; nia). destruct (decide _); [|done].
      rewrite write_at_lookup by done. rewrite decide_False; [done|]. unfold zlen in *.
      assert (k + 1 <= sector \/ sector + Z.of_nat n <= k) as [?|?] by lia; nia.
  - intros i. rewrite write_cache_lookup. destruct (decide _) as [Hk|Hk]; [done|]. intros Hc. rewrite write_at_lookup by done.
    rewrite decide_False; [by apply Hout|]. intros Hi. apply Hk. unfold zlen in *.
    split; [apply Z.div_le_lower_bound; nia|apply Z.div_lt_upper_bound; nia].
Qed.
End shadow.

(** A write: first sector, number of sectors, data *)
Definition write_fits (SECTOR_SIZE : Z) (image : bytes) (w : Z * nat * bytes) : Prop :=
  let '(sector, n, data) := w in
  0 <= sector /\ zlen data = Z.of_nat n * SECTOR_SIZE /\ (sector + Z.of_nat n) * SECTOR_SIZE <= zlen image.
Definition run_writes (SECTOR_SIZE : Z) (l : list (Z * nat * bytes)) : gmap Z bytes :=
  foldl (fun c '(sector, n, data) => shadow_write SECTOR_SIZE sector (Z.of_nat n) data c) ∅ l.
Definition flat_writes (SECTOR_SIZE : Z) (l : list (Z * nat * bytes)) (image : bytes) : bytes :=
  foldl (fun img '(sector, _, data) => write_at (Z.to_nat (sector * SECTOR_SIZE)) data img) image l.

(** [C40] The shadow image: after any writes of whole sectors within the image, every read
    through the cache of sectors ends and returns what the image holds to which the writes
    were applied one after the other. *)
Theorem shadow_is_overlay SECTOR_SIZE image l off length : 0 < SECTOR_SIZE -> Forall (write_fits SECTOR_SIZE image) l ->
  0 <= off -> 0 <= length -> off + length <= zlen image ->
  shadow_read SECTOR_SIZE image (run_writes SECTOR_SIZE l) off length
  = Ret (slice (flat_writes SECTOR_SIZE l image) off (off + length)).
Proof.
  intros Hss Hl Ho H0 Hb. assert (shadows SECTOR_SIZE image (run_writes SECTOR_SIZE l) (flat_writes SECTOR_SIZE l image)) as Hs.
  { unfold run_writes, flat_writes. pose proof (shadows_empty SECTOR_SIZE image) as H1. revert H1.
    generalize (∅ : gmap Z bytes) as c. generalize image at 2 4 as flat. induction Hl as [|[[sector n] data] l Hw _ IH]; intros flat c Hc; [done|].
    cbn [foldl]. apply IH. destruct Hw as (? & ? & ?). apply shadows_write; [done..|]. destruct Hc as [Hc _]. unfold zlen in *. by rewrite Hc. }
  unfold shadow_read. apply shadow_loop_flat; [done|done|done|done| |lia]. destruct Hs as [Hs _]. unfold zlen in *. by rewrite Hs.
Qed.
Lemma shadow_is_overlay_witness :
  shadow_read 4 (replicate 16 7) (run_writes 4 [(1, 2%nat, [1; 2; 3; 4; 5; 6; 7; 8]); (2, 1%nat, [9; 9; 9; 9])]) 2 8
  = Ret [7; 7; 1; 2; 3; 4; 9; 9].
Proof.
  apply (shadow_is_overlay 4 (replicate 16 7) [(1, 2%nat, [1; 2; 3; 4; 5; 6; 7; 8]); (2, 1%nat, [9; 9; 9; 9])] 2 8);
    [done| |done|done|done]. by repeat constructor.
Defined.
