(* ===== verification/BlockVolume.v ===== *)
(** Model of [SemanticEngineVolumePyTSK] of [lophi_semanticgap/disk/filesystems/__init__.py]:
    which file each block of a volume belongs to, for any file system the Sleuth Kit reads,
    and the files an access touches.  The directory tree is a parameter.
    Theorems: an access looks at every block it touches once, reports exactly the files that
    own one of them, and only blocks of the volume have an owner. *)
From Stdlib Require Import Strings.Ascii.
From S2P Require Import Prelude Filesystem.

(** * Files and blocks *)

(** An entry of a directory: the file object (by number), its name, the address of its
    metadata if it has any, whether it is a directory, the runs of each attribute (length and
    address in blocks) and the entries below *)
Inductive gent := GEnt (id : Z) (name : string) (meta : option Z) (is_dir : bool) (attrs : list (list (Z * Z))) (entries : list gent).
Definition ent_name (e : gent) : string := match e with GEnt _ n _ _ _ _ => n end.
Inductive gerror :=
  | run_out_of_bounds (filename : string) (num_blocks block_addr : Z)
  | run_collision (filename1 : string) (inode1 : Z) (filename2 : string) (inode2 block_addr : Z).
(** A file object: its name and the address of its metadata *)
Abbreviation gfile := (string * option Z)%type.
Record gvol := GVol {
  g_sector_size : Z; g_offset : Z; g_block_size : Z; g_block_count : Z;
  fs_block_to_file : gmap Z Z; fs_file_to_path : gmap Z string; g_files : gmap Z gfile; g_errors : list gerror
}.
Definition g_set_blocks x v := GVol (g_sector_size v) (g_offset v) (g_block_size v) (g_block_count v) x (fs_file_to_path v) (g_files v) (g_errors v).
Definition g_set_paths x f v := GVol (g_sector_size v) (g_offset v) (g_block_size v) (g_block_count v) (fs_block_to_file v) x f (g_errors v).
Definition g_log e v := GVol (g_sector_size v) (g_offset v) (g_block_size v) (g_block_count v) (fs_block_to_file v) (fs_file_to_path v) (g_files v) (g_errors v ++ [e]).

(** [name[0] != '$']; a name is not empty. *)
Definition plain_first (name : string) : res bool :=
  match String.get 0 name with Some c => Ret (negb (bool_decide (c = "$"%char))) | None => Raise IndexError end.
Definition g_out_of_bounds (v : gvol) (addr length : Z) : bool :=
  (length <? 0) || (g_block_count v <? length) || (addr <? 0) || (g_block_count v <? addr + length).
(** One block of a run: a block of another file, neither of them a metafile, keeps its owner. *)
Definition g_add_block (id : Z) (name : string) (meta : option Z) (block_addr length i : Z) : PM gvol unit :=
  let! v := pm_get (fun v => v) in
  if g_out_of_bounds v block_addr length then pm_modify (g_log (run_out_of_bounds name length block_addr)) else
  let! keep := match fs_block_to_file v !! (block_addr + i) with
    | None => pm_ret false
    | Some id2 =>
        let '(name2, meta2) := default ("", None) (g_files v !! id2) in
        let! p1 := pm_lift (plain_first name) in
        let! both := (if p1 then pm_lift (plain_first name2) else pm_ret false) in
        if both then
          match meta, meta2 with
          | Some inode1, Some inode2 =>
              if negb (inode1 =? inode2)
              then pm_modify (g_log (run_collision name inode1 name2 inode2 (block_addr + i))) ;! pm_ret true
              else pm_ret false
          | _, _ => pm_ret false
          end
        else pm_ret false
    end in
  if keep then pm_ret tt else pm_modify (fun v => g_set_blocks (<[block_addr + i := id]> (fs_block_to_file v)) v).
Fixpoint g_each {A} (l : list A) (body : A -> PM gvol unit) : PM gvol unit :=
  match l with [] => pm_ret tt | x :: l => body x ;! g_each l body end.
Definition g_add_run (id : Z) (name : string) (meta : option Z) (block_addr length : Z) : PM gvol unit :=
  g_each (seqZ 0 length) (g_add_block id name meta block_addr length).
(** A run at block 0 is sparse, except in the boot file. *)
Definition _add_file (id : Z) (name : string) (meta : option Z) (attrs : list (list (Z * Z))) (path : string) : PM gvol unit :=
  pm_modify (fun v => g_set_paths (<[id := path]> (fs_file_to_path v)) (<[id := (name, meta)]> (g_files v)) v) ;!
  g_each attrs (fun attribute => g_each attribute (fun run =>
    if negb (run.2 =? 0) || bool_decide (name = "$Boot") then g_add_run id name meta run.2 run.1 else pm_ret tt)).
Fixpoint scan_entry (path : string) (e : gent) : PM gvol unit :=
  match e with
  | GEnt id name meta is_dir attrs entries =>
      if bool_decide (name = ".") || bool_decide (name = "..") then pm_ret tt else
      let abs_filename := path_join path name in
      _add_file id name meta attrs abs_filename ;!
      if is_dir && bool_decide (is_Some meta) then
        (fix each l := match l with [] => pm_ret tt | e :: l => scan_entry abs_filename e ;! each l end) entries
      else pm_ret tt
  end.
Definition _scan_file_system (directory : list gent) : PM gvol unit := g_each directory (scan_entry "").

(** * Accesses *)

Definition g_sector_to_block (v : gvol) (sector : Z) : Z := (sector - g_offset v) * g_sector_size v / g_block_size v.
Definition lookup_block (v : gvol) (block : Z) : option Z := fs_block_to_file v !! block.
(** [while fs_block == self._sector_to_block(sector + i) and i < sector_count: i += 1] *)
Fixpoint skip_block (n : nat) (v : gvol) (sector sector_count fs_block i : Z) : Z :=
  match n with
  | O => i
  | S n => if (fs_block =? g_sector_to_block v (sector + i)) && (i <? sector_count)
           then skip_block n v sector sector_count fs_block (i + 1) else i
  end.
(** The blocks the loop of [get_access] looks at *)
Fixpoint walk_blocks (fuel : nat) (v : gvol) (sector sector_count i : Z) (first : bool) : res (list Z) :=
  if negb (i <? sector_count) then Ret [] else
  match fuel with
  | O => Raise Diverges
  | S fuel =>
      let fs_block := g_sector_to_block v (sector + i) in
      let i := if first then skip_block (Z.to_nat sector_count) v sector sector_count fs_block (i + 1)
               else i + g_block_size v / g_sector_size v in
      let? rest := walk_blocks fuel v sector sector_count i false in
      Ret (fs_block :: rest)
  end.
Record gout := GOut { g_blocks : list Z; g_op : option string; g_data : bytes }.
(** What one block adds: the files in the order they are met, and the blocks by path *)
Definition visit (v : gvol) (fs_block : Z) (acc : list Z * gmap string gout) : res (list Z * gmap string gout) :=
  let '(files, out) := acc in
  match lookup_block v fs_block with
  | None => Ret acc
  | Some f =>
      let files := if bool_decide (f ∈ files) then files else files ++ [f] in
      let? filename := of_option KeyError (fs_file_to_path v !! f) in
      Ret (files, <[filename := match out !! filename with
                                | Some o => GOut (g_blocks o ++ [fs_block]) (g_op o) (g_data o)
                                | None => GOut [fs_block] None []
                                end]> out)
  end.
Fixpoint visit_all (v : gvol) (blocks : list Z) (acc : list Z * gmap string gout) : res (list Z * gmap string gout) :=
  match blocks with [] => Ret acc | b :: blocks => let? acc := visit v b acc in visit_all v blocks acc end.

Section access.
(** [FILE_SYSTEM.open(path)], whose result is not used *)
Context (fs_open : string -> res unit).
(** The files in turn: [None] when the access is looked at again because of a metafile *)
Fixpoint mark (v : gvol) (write : bool) (depth : Z) (data : bytes) (files : list Z) (out : gmap string gout) :
    res (option (gmap string gout)) :=
  match files with
  | [] => Ret (Some out)
  | f :: files =>
      let? path := of_option KeyError (fs_file_to_path v !! f) in
      let? o := of_option KeyError (out !! path) in
      let out := <[path := GOut (g_blocks o) (Some (if write then "WRITE" else "READ")) data]> out in
      if write && bool_decide (fst <$> g_files v !! f = Some "$MFT") && (depth =? 0) then
        let? _ := fs_open path in Ret None
      else mark v write depth data files out
  end.
(** The blocks an access of at most [fuel] sectors looks at, then the files *)
Definition g_access_once (v : gvol) (sector sector_count direction : Z) (data : bytes) (depth : Z) : res (option (gmap string gout)) :=
  let? blocks := walk_blocks (Z.to_nat sector_count) v sector sector_count 0 true in
  let? fo := visit_all v blocks ([], ∅) in
  mark v (negb (direction =? 0)) depth data fo.1 fo.2.
Definition g_get_access (v : gvol) (sector sector_count direction : Z) (data : bytes) : res (option (gmap string gout)) :=
  let? r := g_access_once v sector sector_count direction data 0 in
  match r with Some out => Ret (Some out) | None => g_access_once v sector sector_count direction data 1 end.
End access.

(** * Every block once *)

Section walk.
Context (v : gvol) (k : Z) (SS_pos : 0 < g_sector_size v) (k_pos : 0 < k) (BS : g_block_size v = k * g_sector_size v).

Lemma block_div s : g_sector_to_block v s = (s - g_offset v) / k.
Proof. unfold g_sector_to_block. rewrite BS. apply Z.div_mul_cancel_r; lia. Qed.
Lemma block_between s b : k * b <= s - g_offset v < k * (b + 1) -> g_sector_to_block v s = b.
Proof. intros H. rewrite block_div. symmetry. apply Z.div_unique with (s - g_offset v - k * b); lia. Qed.
Lemma block_bounds s : k * g_sector_to_block v s <= s - g_offset v < k * (g_sector_to_block v s + 1).
Proof. rewrite block_div. pose proof (Z.div_mod (s - g_offset v) k). pose proof (Z.mod_pos_bound (s - g_offset v) k k_pos). lia. Qed.

Lemma skip_block_spec n sector count i b : g_sector_to_block v sector = b ->
  0 <= i <= Z.min count (k * (b + 1) - (sector - g_offset v)) -> Z.min count (k * (b + 1) - (sector - g_offset v)) - i <= Z.of_nat n ->
  skip_block n v sector count b i = Z.min count (k * (b + 1) - (sector - g_offset v)).
Proof.
  intros Hb. pose proof (block_bounds sector) as Hbd. rewrite Hb in Hbd.
  revert i. induction n as [|n IH]; intros i Hi Hn; cbn [skip_block]; [lia|].
  destruct (Z.ltb_spec i count).
  - destruct (Z.eqb_spec b (g_sector_to_block v (sector + i))) as [He|He]; cbn [andb].
    + pose proof (block_bounds (sector + i)). apply IH; lia.
    + destruct (decide (sector + i - g_offset v < k * (b + 1))); [|lia]. destruct He. symmetry. apply block_between. lia.
  - rewrite andb_false_r. lia.
Qed.
Lemma walk_aligned fuel sector count i b : sector + i - g_offset v = k * b -> count - i <= Z.of_nat fuel ->
  walk_blocks fuel v sector count i false =
    Ret (if i <? count then seqZ b (g_sector_to_block v (sector + count - 1) - b + 1) else []).
Proof.
  revert i b. induction fuel as [|fuel IH]; intros i b Hi Hf; cbn [walk_blocks]; destruct (Z.ltb_spec i count); cbn [negb]; try done; [lia|].
  rewrite (block_between (sector + i) b) by lia. rewrite BS, Z.div_mul by lia. rewrite (IH (i + k) (b + 1)) by lia. cbn [res_bind].
  pose proof (block_bounds (sector + count - 1)) as He. set (b1 := g_sector_to_block v (sector + count - 1)) in *.
  assert (b <= b1) by nia. rewrite (seqZ_cons b) by lia. f_equal. f_equal. destruct (Z.ltb_spec (i + k) count).
  - f_equal; lia.
  - assert (b1 = b) as -> by nia. by rewrite seqZ_nil by lia.
Qed.
Lemma walk_all sector count : 0 < count ->
  walk_blocks (Z.to_nat count) v sector count 0 true =
    Ret (seqZ (g_sector_to_block v sector) (g_sector_to_block v (sector + count - 1) - g_sector_to_block v sector + 1)).
Proof.
  intros Hc. destruct (Z.to_nat count) as [|fuel] eqn:Ef; [lia|]. cbn [walk_blocks]. rewrite (proj2 (Z.ltb_lt 0 count)) by lia. cbn [negb].
  rewrite Z.add_0_r. set (b := g_sector_to_block v sector). pose proof (block_bounds sector) as Hb. fold b in Hb.
  rewrite (skip_block_spec _ sector count 1 b) by (done || lia). set (e := k * (b + 1) - (sector - g_offset v)) in *.
  pose proof (block_bounds (sector + count - 1)) as He. set (b1 := g_sector_to_block v (sector + count - 1)) in *.
  assert (b <= b1) by nia. destruct (Z.min_spec count e) as [[H1 ->]|[H1 ->]].
  - assert (b1 = b) as -> by nia. replace (b - b + 1) with 1 by lia. destruct fuel; cbn [walk_blocks];
      rewrite (proj2 (Z.ltb_ge count count)) by lia; done.
  - rewrite (walk_aligned fuel sector count e (b + 1)) by lia. cbn [res_bind]. rewrite (seqZ_cons b) by lia. do 2 f_equal.
    fold b1. destruct (Z.ltb_spec e count); [f_equal; lia|]. assert (b1 = b) as -> by nia. by rewrite seqZ_nil by lia.
Qed.
End walk.
(** With blocks smaller than sectors the loop does not move. *)
Lemma small_blocks_hang v sector count fuel : 0 < g_block_size v < g_sector_size v -> 0 < count ->
  walk_blocks fuel v sector count 0 false = Raise Diverges.
Proof.
  intros Hs Hc. assert (g_block_size v / g_sector_size v = 0) as Hd by (apply Z.div_small; lia).
  induction fuel as [|fuel IH]; cbn [walk_blocks]; rewrite (proj2 (Z.ltb_lt 0 count)) by lia; cbn [negb]; [done|].
  rewrite Hd, Z.add_0_r. by rewrite IH.
Qed.

(** * Owners *)

(** Only blocks of the volume have an owner, and the volume knows every owner's path. *)
Definition gvol_ok (v : gvol) : Prop :=
  map_Forall (fun b id => 0 <= b < g_block_count v /\ is_Some (fs_file_to_path v !! id) /\ is_Some (g_files v !! id)) (fs_block_to_file v).
(** ... and [id] is one of the files. *)
Definition knows (id : Z) (v : gvol) : Prop := gvol_ok v /\ is_Some (fs_file_to_path v !! id) /\ is_Some (g_files v !! id).

Lemma g_each_preserves {A} (I : gvol -> Prop) (l : list A) body : (forall x, x ∈ l -> preserves I (body x)) -> preserves I (g_each l body).
Proof.
  induction l as [|x l IH]; intros H; cbn [g_each]; [apply preserves_ret|].
  apply preserves_bind; [apply H, list_elem_of_here|]. intros []. apply IH. intros y Hy. by apply H, list_elem_of_further.
Qed.
Lemma add_block_knows id name meta addr length i : 0 <= i < length -> preserves (knows id) (g_add_block id name meta addr length i).
Proof.
  intros Hi v Hv. unfold g_add_block, pm_bind, pm_get. destruct (g_out_of_bounds v addr length) eqn:Hb; [exact Hv|].
  assert (Hnew : knows id (g_set_blocks (<[addr + i := id]> (fs_block_to_file v)) v)).
  { destruct Hv as (Hv & Hp & Hf). split; [|done]. apply map_Forall_insert_2; [|done].
    unfold g_out_of_bounds in Hb. apply orb_false_iff in Hb as [[[H1 H2]%orb_false_iff H3]%orb_false_iff H4].
    apply Z.ltb_ge in H1, H2, H3, H4. cbn. repeat split; (lia || done). }
  destruct (fs_block_to_file v !! (addr + i)) as [id2|]; [|exact Hnew].
  destruct (default _ (g_files v !! id2)) as [name2 meta2]. unfold pm_lift.
  destruct (plain_first name) as [[]|]; [|exact Hnew|exact Hv]. destruct (plain_first name2) as [[]|]; [|exact Hnew|exact Hv].
  destruct meta as [m1|], meta2 as [m2|]; try exact Hnew. destruct (m1 =? m2); cbn; [exact Hnew|exact Hv].
Qed.
Lemma add_file_ok id name meta attrs path : preserves gvol_ok (_add_file id name meta attrs path).
Proof.
  unfold _add_file, preserves. apply triple_bind with (fun _ => knows id).
  - intros v Hv. cbn. split; [|cbn; by rewrite !lookup_insert_eq]. intros b f Hf. cbn in *. destruct (Hv b f Hf) as (? & ? & ?).
    split; [done|]. destruct (decide (f = id)) as [->|]; [by rewrite !lookup_insert_eq|]. by rewrite !lookup_insert_ne by done.
  - intros _. eapply triple_conseq with (Q' := fun _ => knows id) (E' := fun _ => knows id); [|done| |]; [|by intros ?? [? _]..].
    apply g_each_preserves. intros attribute _. apply g_each_preserves. intros run _. destruct (_ || _); [|apply preserves_ret].
    apply g_each_preserves. intros i Hi%elem_of_seqZ. apply add_block_knows. lia.
Qed.
Lemma scan_entry_ok : forall e path, preserves gvol_ok (scan_entry path e).
Proof.
  fix IH 1. intros [id name meta is_dir attrs entries] path. cbn [scan_entry]. destruct (_ || _); [apply preserves_ret|].
  apply preserves_bind; [apply add_file_ok|]. intros _. destruct (_ && _); [|apply preserves_ret].
  induction entries as [|e entries IHl]; [apply preserves_ret|]. apply preserves_bind; [apply IH|]. intros _. exact IHl.
Qed.
Lemma scan_ok directory v : fs_block_to_file v = ∅ -> gvol_ok (_scan_file_system directory v).2.
Proof.
  intros Hv. assert (H : preserves gvol_ok (_scan_file_system directory)) by (apply g_each_preserves; intros; apply scan_entry_ok).
  specialize (H v). destruct (_scan_file_system directory v) as [[] v']; apply H; intros b f Hb; by rewrite Hv in Hb.
Qed.
(** However the scan of a directory tree ends, only blocks inside the volume have an owner, and
    every owner is a file whose path and name the volume keeps, so that the look-ups an access makes
    do not fail. *)
Theorem scan_owners (directory : list gent) (v : gvol) (b f : Z) :
  fs_block_to_file v = ∅ -> let v' := (_scan_file_system directory v).2 in
  fs_block_to_file v' !! b = Some f ->
  0 <= b < g_block_count v' /\ is_Some (fs_file_to_path v' !! f) /\ is_Some (g_files v' !! f).
Proof. intros Hv v' Hb. by apply (scan_ok directory v Hv b f). Qed.

(** * What an access reports *)

Definition path_of_block (v : gvol) (b : Z) : option string := lookup_block v b ≫= fun f => fs_file_to_path v !! f.
(** The blocks of [l] that belong to the file at [path] *)
Definition blocks_of (v : gvol) (l : list Z) (path : string) : list Z := filter (fun b => path_of_block v b = Some path) l.
Definition reported (v : gvol) (op : option string) (data : bytes) (l : list Z) (path : string) : option gout :=
  match blocks_of v l path with [] => None | bs => Some (GOut bs op data) end.
(** The result of looking at the blocks [l] *)
Definition visited (v : gvol) (l : list Z) (acc : list Z * gmap string gout) : Prop :=
  (forall f, f ∈ acc.1 <-> exists b, b ∈ l /\ lookup_block v b = Some f) /\ (forall path, acc.2 !! path = reported v None [] l path).

Lemma visit_step v l acc b : gvol_ok v -> visited v l acc -> exists acc', visit v b acc = Ret acc' /\ visited v (l ++ [b]) acc'.
Proof.
  intros Hok [Hf Ho]. destruct acc as [files out]. cbn [fst snd] in *. unfold visit.
  assert (Hfilter : forall path, blocks_of v (l ++ [b]) path = blocks_of v l path ++ (if decide (path_of_block v b = Some path) then [b] else [])).
  { intros path. unfold blocks_of. by rewrite filter_app, filter_cons, filter_nil. }
  destruct (lookup_block v b) as [f|] eqn:Hb.
  - destruct (Hok b f Hb) as (_ & [p Hp] & _). rewrite Hp. cbn [of_option res_bind]. eexists. split; [done|]. split; cbn [fst snd].
    + intros g. transitivity (g ∈ files \/ g = f).
      { case_bool_decide; [|rewrite elem_of_app, list_elem_of_singleton; done]. split; [by left|]. by intros [?| ->]. }
      rewrite Hf. setoid_rewrite elem_of_app. setoid_rewrite list_elem_of_singleton. split.
      * intros [(b' & ? & ?)| ->]; eauto.
      * intros (b' & [?| ->] & He); [left; eauto|right; congruence].
    + assert (Hpb : path_of_block v b = Some p) by (unfold path_of_block; by rewrite Hb).
      intros path. unfold reported. rewrite Hfilter, Hpb. rewrite Ho. destruct (decide (p = path)) as [->|Hne].
      * rewrite lookup_insert_eq, decide_True by done. unfold reported. destruct (blocks_of v l path); done.
      * rewrite lookup_insert_ne, decide_False by congruence. rewrite app_nil_r. by rewrite Ho.
  - eexists. split; [done|]. split; cbn [fst snd].
    + intros g. rewrite Hf. setoid_rewrite elem_of_app. setoid_rewrite list_elem_of_singleton. split; [naive_solver|].
      intros (b' & [?| ->] & He); [eauto|congruence].
    + intros path. unfold reported. rewrite Hfilter. unfold path_of_block. rewrite Hb. cbn. rewrite app_nil_r. apply Ho.
Qed.
Lemma visit_all_visited v l l0 acc : gvol_ok v -> visited v l0 acc -> exists acc', visit_all v l acc = Ret acc' /\ visited v (l0 ++ l) acc'.
Proof.
  intros Hok. revert l0 acc. induction l as [|b l IH]; intros l0 acc Hv; cbn [visit_all].
  - eexists. by rewrite app_nil_r.
  - destruct (visit_step v l0 acc b Hok Hv) as (acc' & -> & Hv'). cbn [res_bind]. destruct (IH _ _ Hv') as (acc'' & -> & H).
    eexists. split; [done|]. by rewrite <- app_assoc in H.
Qed.

Definition op_name (direction : Z) : string := if direction =? 0 then "READ" else "WRITE".
(** Marking the files keeps the blocks of each and sets the operation and the data. *)
Definition marked (v : gvol) (op : string) (data : bytes) (files : list Z) (path : string) (o : gout) : gout :=
  if decide (Exists (fun f => fs_file_to_path v !! f = Some path) files) then GOut (g_blocks o) (Some op) data else o.
Lemma mark_spec fs_open v (write : bool) depth data files out (op := if write then "WRITE" else "READ") :
  (write = true -> forall p, fs_open p = Ret tt) ->
  Forall (fun f => exists p, fs_file_to_path v !! f = Some p /\ is_Some (out !! p)) files ->
  mark fs_open v write depth data files out = Ret None /\ depth = 0 \/
  exists out', mark fs_open v write depth data files out = Ret (Some out') /\
    forall path, out' !! path = marked v op data files path <$> out !! path.
Proof.
  intros Hopen. revert out. induction files as [|f files IH]; intros out Hall; cbn [mark].
  { right. eexists. split; [done|]. intros path. destruct (out !! path); [|done]. cbn. unfold marked.
    by rewrite decide_False by (intros H; by apply Exists_nil in H). }
  apply Forall_cons in Hall as [(p & Hp & [o Ho]) Hall]. rewrite Hp. cbn [of_option res_bind]. rewrite Ho. cbn [of_option res_bind].
  destruct (write && _ && _) eqn:Hg.
  { apply andb_true_iff in Hg as [[-> _]%andb_true_iff ->%Z.eqb_eq]. rewrite Hopen by done. by left. }
  destruct (IH (<[p := GOut (g_blocks o) (Some op) data]> out)) as [?|(out' & He & Hout)].
  { eapply Forall_impl; [exact Hall|]. intros g (q & Hq & Hs). exists q. split; [done|].
    destruct (decide (q = p)) as [->|]; [by rewrite lookup_insert_eq|by rewrite lookup_insert_ne]. }
  { by left. }
  right. exists out'. split; [exact He|]. intros path. rewrite Hout. unfold marked.
  destruct (decide (p = path)) as [->|Hne].
  - rewrite lookup_insert_eq, Ho. cbn. rewrite (decide_True (P := Exists _ (f :: files))) by (by left). by destruct (decide _).
  - rewrite lookup_insert_ne by done. destruct (out !! path); [|done]. cbn. f_equal.
    apply decide_ext. rewrite Exists_cons. split; [by right|]. intros [?|?]; [congruence|done].
Qed.
Lemma once_spec fs_open v k sector count direction data depth :
  gvol_ok v -> 0 < g_sector_size v -> 0 < k -> g_block_size v = k * g_sector_size v -> 0 < count ->
  (direction <> 0 -> forall p, fs_open p = Ret tt) ->
  g_access_once fs_open v sector count direction data depth = Ret None /\ depth = 0 \/
  exists out, g_access_once fs_open v sector count direction data depth = Ret (Some out) /\
    forall path, out !! path = reported v (Some (op_name direction)) data
      (seqZ (g_sector_to_block v sector) (g_sector_to_block v (sector + count - 1) - g_sector_to_block v sector + 1)) path.
Proof.
  intros Hok Hss Hk Hbs Hc Hopen. unfold g_access_once. rewrite (walk_all v k) by done. cbn [res_bind].
  set (l := seqZ _ _). destruct (visit_all_visited v l [] ([], ∅) Hok) as (acc & -> & Hf & Ho).
  { split; cbn; [|done]. intros f. split; [by intros ?%elem_of_nil|]. by intros (b & ?%elem_of_nil & _). }
  cbn [app] in Hf, Ho. cbn [res_bind].
  assert (Hfile : forall f path, f ∈ acc.1 -> fs_file_to_path v !! f = Some path -> blocks_of v l path <> []).
  { intros f path (b & Hb & Hl)%Hf Hp Hn. apply (not_elem_of_nil b). rewrite <- Hn. apply list_elem_of_filter. split; [|done].
    unfold path_of_block. by rewrite Hl. }
  assert (Hback : forall path, blocks_of v l path <> [] -> Exists (fun f => fs_file_to_path v !! f = Some path) acc.1).
  { intros path Hn. destruct (blocks_of v l path) as [|b bs] eqn:Hb; [done|].
    assert (b ∈ blocks_of v l path) as [Hp Hin]%list_elem_of_filter by (rewrite Hb; apply list_elem_of_here).
    unfold path_of_block in Hp. destruct (lookup_block v b) as [f|] eqn:Hl; [|done]. apply Exists_exists.
    exists f. split; [apply Hf; eauto|done]. }
  destruct (mark_spec fs_open v (negb (direction =? 0)) depth data acc.1 acc.2) as [?|(out & -> & Hout)].
  - intros Hw. apply Hopen. intros ->. done.
  - apply Forall_forall. intros f Hin. destruct (proj1 (Hf f) Hin) as (b & Hb & Hl). destruct (Hok b f Hl) as (_ & [p Hp] & _).
    exists p. split; [done|]. rewrite Ho. unfold reported. specialize (Hfile f p Hin Hp). by destruct (blocks_of v l p).
  - by left.
  - right. exists out. split; [done|]. intros path. rewrite Hout, Ho. unfold reported, marked, op_name.
    specialize (Hback path). destruct (blocks_of v l path); [done|]. cbn. rewrite decide_True by (by apply Hback).
    by destruct (direction =? 0).
Qed.
(** An access to sectors of a volume whose blocks are whole sectors always ends and reports
    exactly the files that own one of the touched blocks, each with those of the touched blocks
    that are its own, in order, and with the direction and the data of the access; a write to
    [$MFT] is looked at a second time and gives the same report. *)
Theorem access_reports (fs_open : string -> res unit) (v : gvol) (k sector count direction : Z) (data : bytes) :
  gvol_ok v -> 0 < g_sector_size v -> 0 < k -> g_block_size v = k * g_sector_size v -> 0 < count ->
  (direction <> 0 -> forall p, fs_open p = Ret tt) ->
  exists out, g_get_access fs_open v sector count direction data = Ret (Some out) /\
    forall path, out !! path = reported v (Some (op_name direction)) data
      (seqZ (g_sector_to_block v sector) (g_sector_to_block v (sector + count - 1) - g_sector_to_block v sector + 1)) path.
Proof.
  intros Hok Hss Hk Hbs Hc Hopen. unfold g_get_access.
  destruct (once_spec fs_open v k sector count direction data 0) as [[-> _]|(out & -> & Hout)]; try done; [|by exists out].
  cbn [res_bind]. destruct (once_spec fs_open v k sector count direction data 1) as [[_ ?]|(out & -> & Hout)]; try done. by exists out.
Qed.

(** A volume of 16 blocks of two sectors, with a directory and a file inside *)
Definition small_volume : gvol := GVol 512 63 1024 16 ∅ ∅ ∅ [].
Definition small_tree : list gent :=
  [GEnt 0 "$MFT" (Some 0) false [[(2, 4)]] [];
   GEnt 1 "docs" (Some 30) true [[(1, 7)]] [GEnt 2 "." (Some 30) true [] []; GEnt 3 "a.txt" (Some 31) false [[(3, 8); (1, 0)]] []];
   GEnt 4 "b.txt" (Some 32) false [[(2, 10); (4, 14)]] []].
Definition scanned : gvol := (_scan_file_system small_tree small_volume).2.
Lemma scan_owners_witness : exists p, fs_block_to_file scanned !! 9 = Some 3 /\ 0 <= 9 < g_block_count scanned /\ fs_file_to_path scanned !! 3 = Some p.
Proof. destruct (scan_owners small_tree small_volume 9 3) as (H1 & [p H2] & _); [done|by vm_compute|]. exists p. split; [by vm_compute|]. split; [exact H1|exact H2]. Defined.
Lemma access_reports_witness : exists out, g_get_access (fun _ => Ret tt) scanned 70 15 1 [7] = Ret (Some out) /\
  out !! "$MFT" = Some (GOut [4; 5] (Some "WRITE") [7]) /\ out !! "docs/a.txt" = Some (GOut [8; 9; 10] (Some "WRITE") [7]) /\ out !! "b.txt" = None.
Proof.
  destruct (access_reports (fun _ => Ret tt) scanned 2 70 15 1 [7]) as (out & He & Hout).
  - by apply scan_ok.
  - by vm_compute.
  - done.
  - by vm_compute.
  - done.
  - done.
  - exists out. split; [exact He|]. rewrite !Hout. clear He Hout. vm_compute. repeat split.
Defined.
