(* ===== verification/ShadowNtfs.v ===== *)
(** Model of [SemanticEngineVolumePyTSK_NTFS] of [lophi_semanticgap/disk/filesystems/__init__.py]:
    the earlier NTFS engine, which keeps a shadow image in memory, the owner of every sector and
    the record every sector of the MFT holds, and reports each sector of an access.

    [fs_info] is the file system the Sleuth Kit finds in the image as the cache changes it,
    [parse_record] stands for analyzeMFT and [set_order] for the order in which Python goes
    through a set.  Theorems: accesses are reported sector by sector, the loop variable that a
    content write uses outside its loop is always bound, and owned sectors lie in the volume. *)
From stdpp Require Import gmap.
From S2P Require Import Prelude Filesystem ShadowImage.

(** * The volume *)

Record svol := SVol {
  s_sector_size : Z; s_offset : Z; s_block_size : Z; s_block_count : Z; s_root_inum : Z;
  s_cache : gmap Z bytes; s_fs : tsk_fs; s_last_inum : Z;
  s_sector_to_inode : gmap Z Z; s_inode_to_path : gmap Z string; sector_to_mft_record_no : gmap Z Z;
  s_errors : list error
}.
Definition s_set_fs c f v := SVol (s_sector_size v) (s_offset v) (s_block_size v) (s_block_count v) (s_root_inum v) c f (s_last_inum v)
  (s_sector_to_inode v) (s_inode_to_path v) (sector_to_mft_record_no v) (s_errors v).
Definition s_set_last x v := SVol (s_sector_size v) (s_offset v) (s_block_size v) (s_block_count v) (s_root_inum v) (s_cache v) (s_fs v) x
  (s_sector_to_inode v) (s_inode_to_path v) (sector_to_mft_record_no v) (s_errors v).
Definition s_set_sectors x v := SVol (s_sector_size v) (s_offset v) (s_block_size v) (s_block_count v) (s_root_inum v) (s_cache v) (s_fs v) (s_last_inum v)
  x (s_inode_to_path v) (sector_to_mft_record_no v) (s_errors v).
Definition s_set_paths x v := SVol (s_sector_size v) (s_offset v) (s_block_size v) (s_block_count v) (s_root_inum v) (s_cache v) (s_fs v) (s_last_inum v)
  (s_sector_to_inode v) x (sector_to_mft_record_no v) (s_errors v).
Definition s_set_records x v := SVol (s_sector_size v) (s_offset v) (s_block_size v) (s_block_count v) (s_root_inum v) (s_cache v) (s_fs v) (s_last_inum v)
  (s_sector_to_inode v) (s_inode_to_path v) x (s_errors v).
Definition s_log e v := SVol (s_sector_size v) (s_offset v) (s_block_size v) (s_block_count v) (s_root_inum v) (s_cache v) (s_fs v) (s_last_inum v)
  (s_sector_to_inode v) (s_inode_to_path v) (sector_to_mft_record_no v) (s_errors v ++ [e]).
Abbreviation SM := (PM svol).
Fixpoint s_each {A} (l : list A) (body : A -> SM unit) : SM unit :=
  match l with [] => pm_ret tt | x :: l => body x ;! s_each l body end.
(** A value computed from the volume, which may raise *)
Definition s_ask {A} (f : svol -> res A) : SM A := fun v => (f v, v).

(** * Sectors, blocks and records *)

Definition s_block_start (v : svol) (block : Z) : Z := (s_offset v * s_sector_size v + block * s_block_size v) / s_sector_size v.
Definition s_block_to_sectors (v : svol) (block : Z) : res (list Z) :=
  if s_sector_size v <=? s_block_size v
  then Ret (range (s_block_start v block) (s_block_start v block + s_block_size v / s_sector_size v))
  else Raise AssertionError.
(** The runs of the data attributes of record 0, in the order they are listed *)
Definition s_mft_dataruns (v : svol) : res (list (Z * Z)) :=
  let? f := open_meta (s_fs v) 0 in Ret (concat ((fun a => if a.1 : bool then a.2 else []) <$> f_attrs f)).
Fixpoint s_locate (v : svol) (runs : list (Z * Z)) (bytes_left : Z) : res (list Z) :=
  match runs with
  | [] => Ret []
  | (num_blocks, lba) :: runs =>
      if bytes_left <? num_blocks * s_block_size v then
        let? sectors := s_block_to_sectors v (lba + bytes_left / s_block_size v) in
        let? first := py_index sectors 0 in
        let sector_start := first + (bytes_left mod s_block_size v) / s_sector_size v in
        Ret (range sector_start (sector_start + 1024 / s_sector_size v))
      else s_locate v runs (bytes_left - num_blocks * s_block_size v)
  end.
Definition s_mft_record_to_sectors (record_no : Z) (v : svol) : res (list Z) :=
  let? runs := s_mft_dataruns v in s_locate v runs (record_no * 1024).
Definition _is_file_allocated (f : tfile) : bool := negb (Z.land (f_flags f) FLAG_ALLOC =? 0).

(** * Data runs *)

(** The bounds are tested again for every block of the run, and logged as often. *)
Definition s_out_of_bounds (v : svol) (addr length : Z) : bool :=
  (length <? 0) || (s_block_count v <? length) || (addr <? 0) || (s_block_count v <? addr + length).
Definition s_on_blocks (inode_num addr length : Z) (body : Z -> Z -> SM unit) : SM unit :=
  s_each (seqZ 0 length) (fun i =>
    let! v := pm_get (fun v => v) in
    if s_out_of_bounds v addr length then pm_modify (s_log (datarun_out_of_bounds inode_num length addr)) else
    let! sectors := s_ask (fun v => s_block_to_sectors v (addr + i)) in
    s_each sectors (body (addr + i))).
Definition s_remove_run (inode_num addr length : Z) : SM unit :=
  s_on_blocks inode_num addr length (fun _ sector => pm_modify (fun v => s_set_sectors (delete sector (s_sector_to_inode v)) v)).
Definition s_add_sector (inode_num block sector : Z) : SM unit :=
  let! owner := pm_get (fun v => s_sector_to_inode v !! sector) in
  let! keep := match owner with
    | Some inode2 =>
        let! f1_name := pm_get (fun v => default "" (s_inode_to_path v !! inode_num)) in
        let! f2_name := pm_get (fun v => default "" (s_inode_to_path v !! inode2)) in
        if negb (inode_num =? inode2) then
          let! r := pm_lift (reportable f1_name f2_name) in
          if r then pm_modify (s_log (datarun_collision f1_name inode_num f2_name inode2 block)) ;! pm_ret true
          else pm_ret false
        else pm_ret false
    | None => pm_ret false
    end in
  if keep then pm_ret tt else pm_modify (fun v => s_set_sectors (<[sector := inode_num]> (s_sector_to_inode v)) v).
Definition s_add_run (inode_num block_addr length : Z) : SM unit :=
  s_on_blocks inode_num block_addr length (s_add_sector inode_num).

(** * File entries *)

Definition s_open (inode : Z) : SM tfile := s_ask (fun v => open_meta (s_fs v) inode).
(** The runs that are removed are those of the file system as it is now. *)
Definition s_clean_file_entry (inode_num : Z) : SM unit :=
  let! f := s_open inode_num in
  if negb (_is_file_allocated f) then pm_ret tt else
  s_each (f_attrs f) (fun a => s_each a.2 (fun run => s_remove_run inode_num run.2 run.1)).
Definition s_load_file_entry (inode_num : Z) : SM unit :=
  let! sectors := s_ask (s_mft_record_to_sectors inode_num) in
  pm_modify (fun v => s_set_records (foldl (fun m s => <[s := inode_num]> m) (sector_to_mft_record_no v) sectors) v) ;!
  let! f := s_open inode_num in
  if negb (_is_file_allocated f) then pm_ret tt else
  s_each (f_attrs f) (fun a => s_each a.2 (fun run =>
    if negb (run.2 =? 0) || bool_decide (f_name f = Some "$Boot") then s_add_run inode_num run.2 run.1 else pm_ret tt)).
Definition s_reload_file_entry (inode_num : Z) : SM unit := s_clean_file_entry inode_num ;! s_load_file_entry inode_num.
Definition s_parse_root : SM unit := pm_modify (fun v =>
  s_set_paths (foldl (fun p e => parse_entry "/" e p) (<[s_root_inum v := "/"]> (s_inode_to_path v)) (root_dir (s_fs v))) v).
Definition s_load_file_system : SM unit :=
  s_parse_root ;!
  let! last := pm_get (fun v => last_inum (s_fs v)) in
  s_each (range 0 (last + 1)) s_load_file_entry.

(** * Accesses *)

(** [semantic_data]: the empty string, or the [None] that [_diff_metadata] returns *)
Inductive sdata := EmptyData | NoneData.
Definition s_diff_metadata (old_record new_record : tfile) : sdata := NoneData.
Record sop := SOp { so_sector : Z; so_op : string; so_type : string; so_inode : inode_ref; so_filename : string; so_raw : bytes; so_semantic : sdata }.

Section engine.
Context (fs_info : gmap Z bytes -> res tsk_fs) (parse_record : bytes -> res mft_record) (set_order : gset Z -> list Z).

Definition s_update_file_system (sector sector_count : Z) (data : bytes) : SM unit :=
  pm_modify (fun v => s_set_fs (shadow_write (s_sector_size v) sector sector_count data (s_cache v)) (s_fs v) v) ;!
  let! fs := s_ask (fun v => fs_info (s_cache v)) in
  pm_modify (fun v => s_set_fs (s_cache v) fs v).

Definition s_set_path (inode : Z) (p : string) : SM string :=
  pm_modify (fun v => s_set_paths (<[inode := p]> (s_inode_to_path v)) v) ;! pm_ret p.
Fixpoint s_get_path (fuel : nat) (raw_mft : bytes) (inode : Z) : SM string :=
  match fuel with
  | O => pm_raise BareExn
  | S fuel =>
      let! record := pm_lift (parse_record (slice raw_mft (inode * 1024) ((inode + 1) * 1024))) in
      match choose_name record with
      | None => s_set_path inode "NoFNRecord"
      | Some (par_ref, filename) =>
          if par_ref =? 5 then s_set_path inode (path_join "/" filename)
          else if par_ref =? inode then s_set_path inode (String.append "ORPHAN/" filename)
          else
            let! parentpath := s_get_path fuel raw_mft par_ref in
            s_set_path inode (path_join parentpath filename)
      end
  end.

(** [mft_records_that_need_updating] and [old_records] *)
Abbreviation touched := (gset Z * gmap Z tfile)%type.
Definition touch (inode : option Z) (t : touched) : SM touched :=
  match inode with
  | None => pm_ret t
  | Some inode =>
      match t.2 !! inode with
      | Some _ => pm_ret (t.1 ∪ {[inode]}, t.2)
      | None => let! f := s_open inode in pm_ret (t.1 ∪ {[inode]}, <[inode := f]> t.2)
      end
  end.
Fixpoint touch_all (sectors : list Z) (t : touched) : SM touched :=
  match sectors with
  | [] => pm_ret t
  | s :: sectors =>
      let! owner := pm_get (fun v => s_sector_to_inode v !! s) in
      let! t := touch owner t in
      let! record := pm_get (fun v => sector_to_mft_record_no v !! s) in
      let! t := touch record t in
      touch_all sectors t
  end.
(** [while self.LAST_INUM < self.FILE_SYSTEM.info.last_inum], with the new records *)
Fixpoint s_load_new (n : nat) (new : gset Z) : SM (gset Z) :=
  match n with
  | O => pm_ret new
  | S n =>
      pm_modify (fun v => s_set_last (s_last_inum v + 1) v) ;!
      let! last := pm_get s_last_inum in
      s_load_file_entry last ;!
      s_load_new n (new ∪ {[last]})
  end.
Definition s_file_event (record_no : Z) (op_type : string) : SM sop :=
  let! sectors := s_ask (s_mft_record_to_sectors record_no) in
  let! filename := pm_get (fun v => default "unknown" (s_inode_to_path v !! record_no)) in
  let! first := pm_lift (py_index sectors 0) in
  pm_ret (SOp first "WRITE" op_type (Inode record_no) filename [] EmptyData).
Fixpoint s_reload_all (old_records : gmap Z tfile) (records : list Z) : SM (list sop) :=
  match records with
  | [] => pm_ret []
  | record_no :: records =>
      s_reload_file_entry record_no ;!
      let! old_f := pm_lift (of_option KeyError (old_records !! record_no)) in
      let! new_f := s_open record_no in
      let unset f flag := Z.land (f_flags f) flag =? 0 in
      let! ops := (if unset old_f FLAG_ALLOC && negb (unset new_f FLAG_ALLOC)
                   then let! op := s_file_event record_no "[FILE CREATED]" in pm_ret [op]
                   else if unset old_f FLAG_UNALLOC && negb (unset new_f FLAG_UNALLOC)
                   then let! op := s_file_event record_no "[FILE DELETED]" in pm_ret [op]
                   else pm_ret []) in
      let! rest := s_reload_all old_records records in
      pm_ret (ops ++ rest)
  end.
(** The records that a write touches, and the changes it makes: the events, the old records, the
    new ones and the value that the loop variable [record_no] is left with *)
Definition s_apply_write (sector sector_count : Z) (data : bytes) : SM (list sop * gmap Z tfile * gset Z * option Z) :=
  let! t := touch_all (range sector (sector + sector_count)) (∅, ∅) in
  s_update_file_system sector sector_count data ;!
  let! v := pm_get (fun v => v) in
  (if s_last_inum v <? last_inum (s_fs v) then s_parse_root else pm_ret tt) ;!
  let! new := s_load_new (Z.to_nat (last_inum (s_fs v) - s_last_inum v)) ∅ in
  let records := set_order t.1 in
  (if bool_decide (t.1 = ∅) then pm_ret tt else
   pm_modify (fun v => s_set_paths (<[s_root_inum v := "/"]> (s_inode_to_path v)) v) ;!
   let! _ := s_open 0 in
   let! raw_mft := pm_get (fun v => mft_content (s_fs v)) in
   s_each records (fun inode => let! _ := s_get_path recursion_limit raw_mft inode in pm_ret tt)) ;!
  let! ops := s_reload_all t.2 records in
  pm_ret (ops, t.2, new, last records).
Definition s_sector_data (v : svol) (data : bytes) (i : Z) : bytes := slice data (i * s_sector_size v) ((i + 1) * s_sector_size v).
Definition s_write_operation (old_records : gmap Z tfile) (new : gset Z) (record_no : option Z) (sector : Z) (data : bytes) (i : Z) : SM sop :=
  let! v := pm_get (fun v => v) in
  let raw_data := s_sector_data v data i in
  match s_sector_to_inode v !! (sector + i) with
  | Some inode =>
      let! filename := match s_inode_to_path v !! inode with
        | Some p => pm_ret p
        | None => let! f := s_open inode in pm_ret (default "unknown" (f_name f))
        end in
      let! ts := (if sector + i =? 1 then pm_ret ("[MBR WRITE]", EmptyData)
                  else if bool_decide (inode ∈ new) then pm_ret ("[FILE CREATED]", EmptyData)
                  else if inode =? 0 then pm_ret ("[MFT WRITE]", EmptyData)
                  else
                    let! record_no := pm_lift (of_option NameError record_no) in
                    let! old_record := pm_lift (of_option KeyError (old_records !! record_no)) in
                    let! new_record := s_open record_no in
                    pm_ret ("[CONTENT WRITE]", s_diff_metadata old_record new_record)) in
      pm_ret (SOp (sector + i) "WRITE" ts.1 (Inode inode) filename raw_data ts.2)
  | None => pm_ret (SOp (sector + i) "WRITE" "[UNKNOWN WRITE]" (NoInode "[unknown inode]") "unknown" raw_data EmptyData)
  end.
Fixpoint s_operations (f : Z -> SM sop) (l : list Z) : SM (list sop) :=
  match l with [] => pm_ret [] | i :: l => let! o := f i in let! rest := s_operations f l in pm_ret (o :: rest) end.
Definition s_read_operation (v : svol) (sector : Z) (data : bytes) (i : Z) : sop :=
  match s_sector_to_inode v !! (sector + i) with
  | Some inode =>
      SOp (sector + i) "READ" (if sector + i =? 1 then "[MBR READ]" else if inode =? 0 then "[MFT READ]" else "[CONTENT READ]")
        (Inode inode) (default "unknown" (s_inode_to_path v !! inode)) (s_sector_data v data i) EmptyData
  | None => SOp (sector + i) "READ" "[UNKNOWN READ]" (NoInode "unknown") "unknown" (s_sector_data v data i) EmptyData
  end.
Definition s_get_access (sector sector_count direction : Z) (data : bytes) : SM (list sop) :=
  if direction =? DIRECTION_WRITE then
    let! r := s_apply_write sector sector_count data in
    let '(events, old_records, new, record_no) := r in
    let! ops := s_operations (s_write_operation old_records new record_no sector data) (range 0 sector_count) in
    pm_ret (events ++ ops)
  else
    let! v := pm_get (fun v => v) in
    pm_ret (s_read_operation v sector data <$> range 0 sector_count).
End engine.
