(* ===== verification/ShadowNtfsTheorems.v ===== *)
(** Theorems on the NTFS engine with a shadow image: which sectors can have an owner, and what
    is reported of reads and writes. *)
From stdpp Require Import gmap.
From S2P Require Import Prelude Filesystem FilesystemTheorems FilesystemInvariant ShadowImage ShadowNtfs.

(** * Owners *)

Definition geometry_of (v : svol) : Z * Z * Z * Z := (s_sector_size v, s_offset v, s_block_size v, s_block_count v).
(** The sectors of the blocks of a volume *)
Definition in_volume (g : Z * Z * Z * Z) (s : Z) : Prop :=
  let '(ss, off, bs, count) := g in exists b, 0 <= b < count /\ (off * ss + b * bs) / ss <= s < (off * ss + b * bs) / ss + bs / ss.
(** The volume has the geometry [g] and every owned sector satisfies [P] with its owner. *)
Definition held (g : Z * Z * Z * Z) (P : Z -> Z -> Prop) (v : svol) : Prop :=
  geometry_of v = g /\ map_Forall P (s_sector_to_inode v).

Section owners.
Context (g : Z * Z * Z * Z) (P : Z -> Z -> Prop).
Abbreviation I := (held g P).

Lemma s_each_preserves {A} (l : list A) body : (forall x, x ∈ l -> preserves I (body x)) -> preserves I (s_each l body).
Proof.
  induction l as [|x l IH]; intros H; cbn [s_each]; [apply preserves_ret|].
  apply preserves_bind; [apply H, list_elem_of_here|]. intros []. apply IH. intros y Hy. by apply H, list_elem_of_further.
Qed.
Lemma s_ask_preserves {A} (f : svol -> res A) : preserves I (s_ask f).
Proof. intros v Hv. unfold s_ask. by destruct (f v). Qed.
(** A change of other fields *)
Definition silent (f : svol -> svol) : Prop := forall v, geometry_of (f v) = geometry_of v /\ s_sector_to_inode (f v) = s_sector_to_inode v.
Lemma silent_preserves f : silent f -> preserves I (pm_modify f).
Proof. intros Hf. apply preserves_modify. intros v [H1 H2]. destruct (Hf v) as [Hg Hs]. split; [congruence|by rewrite Hs]. Qed.
Lemma on_blocks_held inode addr length body :
  (forall block s, in_volume g s -> preserves I (body block s)) -> preserves I (s_on_blocks inode addr length body).
Proof.
  intros Hb. apply s_each_preserves. intros i Hi%elem_of_seqZ v Hv. unfold pm_bind, pm_get.
  destruct (s_out_of_bounds v addr length) eqn:Ho; [by apply (silent_preserves (s_log _))|].
  unfold s_ask, s_block_to_sectors. destruct (_ <=? _); [|done].
  apply (s_each_preserves _ (body (addr + i))); [|done]. intros s Hs. apply Hb. destruct Hv as [<- _]. exists (addr + i).
  unfold s_out_of_bounds in Ho. apply orb_false_iff in Ho as [[[H1 H2]%orb_false_iff H3]%orb_false_iff H4].
  apply Z.ltb_ge in H1, H2, H3, H4. unfold range in Hs. apply elem_of_seqZ in Hs. unfold s_block_start in Hs. lia.
Qed.
Lemma remove_run_held inode addr length : preserves I (s_remove_run inode addr length).
Proof. apply on_blocks_held. intros _ s _. apply preserves_modify. intros v [H1 H2]. split; [done|]. by apply map_Forall_delete. Qed.
Lemma add_run_held inode addr length : (forall s, in_volume g s -> P s inode) -> preserves I (s_add_run inode addr length).
Proof.
  intros HP. apply on_blocks_held. intros block s Hs. unfold s_add_sector.
  repeat first [apply preserves_bind; [|intros ?]|apply preserves_get|apply preserves_lift|apply preserves_ret|apply preserves_if|case_match].
  - by apply silent_preserves.
  - apply preserves_modify. intros v [H1 H2]. split; [done|]. apply map_Forall_insert_2; auto.
Qed.
Lemma clean_held n : preserves I (s_clean_file_entry n).
Proof.
  apply preserves_bind; [apply s_ask_preserves|]. intros f. apply preserves_if; [apply preserves_ret|].
  apply s_each_preserves. intros a _. apply s_each_preserves. intros run _. apply remove_run_held.
Qed.
Lemma load_held n : (forall s, in_volume g s -> P s n) -> preserves I (s_load_file_entry n).
Proof.
  intros HP. apply preserves_bind; [apply s_ask_preserves|]. intros sectors. apply preserves_bind; [by apply silent_preserves|].
  intros _. apply preserves_bind; [apply s_ask_preserves|]. intros f. apply preserves_if; [apply preserves_ret|].
  apply s_each_preserves. intros a _. apply s_each_preserves. intros run _. apply preserves_if; [by apply add_run_held|apply preserves_ret].
Qed.
Lemma reload_held n : (forall s, in_volume g s -> P s n) -> preserves I (s_reload_file_entry n).
Proof. intros HP. apply preserves_bind; [apply clean_held|]. intros _. by apply load_held. Qed.
Lemma update_held fs_info sector count data : preserves I (s_update_file_system fs_info sector count data).
Proof.
  apply preserves_bind; [by apply silent_preserves|]. intros _. apply preserves_bind; [apply s_ask_preserves|].
  intros fs. by apply silent_preserves.
Qed.
Lemma get_path_held parse_record fuel raw n : preserves I (s_get_path parse_record fuel raw n).
Proof.
  assert (Hp : forall n p, preserves I (s_set_path n p)).
  { intros m p. apply preserves_bind; [by apply silent_preserves|]. intros _. apply preserves_ret. }
  revert n. induction fuel as [|fuel IH]; intros n; cbn [s_get_path]; [apply preserves_raise|].
  apply preserves_bind; [apply preserves_lift|]. intros r. destruct (choose_name r) as [[par name]|]; [|apply Hp].
  repeat (apply preserves_if; [apply Hp|]). apply preserves_bind; [apply IH|]. intros p. apply Hp.
Qed.
Lemma touch_all_held sectors t : preserves I (touch_all sectors t).
Proof.
  revert t. induction sectors as [|s sectors IH]; intros t; cbn [touch_all]; [apply preserves_ret|].
  assert (Ht : forall o t, preserves I (touch o t)).
  { intros [n|] t0; [|apply preserves_ret]. cbn [touch]. destruct (t0.2 !! n); [apply preserves_ret|].
    apply preserves_bind; [apply s_ask_preserves|]. intros f. apply preserves_ret. }
  repeat (apply preserves_bind; [first [apply preserves_get|apply Ht]|intros ?]). apply IH.
Qed.
Lemma reload_all_held old records : (forall s n, in_volume g s -> P s n) -> preserves I (s_reload_all old records).
Proof.
  intros HP. assert (He : forall n t, preserves I (s_file_event n t)).
  { intros n t. apply preserves_bind; [apply s_ask_preserves|]. intros l. apply preserves_bind; [apply preserves_get|]. intros p.
    apply preserves_bind; [apply preserves_lift|]. intros x. apply preserves_ret. }
  induction records as [|n records IH]; cbn [s_reload_all]; [apply preserves_ret|].
  apply preserves_bind; [apply reload_held; auto|]. intros _. apply preserves_bind; [apply preserves_lift|]. intros o.
  apply preserves_bind; [apply s_ask_preserves|]. intros f. apply preserves_bind.
  - repeat apply preserves_if; try (apply preserves_bind; [apply He|intros ?]); apply preserves_ret.
  - intros ops. apply preserves_bind; [apply IH|]. intros rest. apply preserves_ret.
Qed.
End owners.

(** * The records a write touches *)

Lemma bind_inv {S A B} (m : PM S A) (k : A -> PM S B) s b s' : pm_bind m k s = (Ret b, s') ->
  exists a s1, m s = (Ret a, s1) /\ k a s1 = (Ret b, s').
Proof. unfold pm_bind. destruct (m s) as [[a|] s1]; [by eauto|done]. Qed.

Lemma touch_spec o t v t' v' : touch o t v = (Ret t', v') -> t.1 = dom t.2 ->
  v' = v /\ t'.1 = dom t'.2 /\ t.1 ⊆ t'.1 /\ (forall n, o = Some n -> n ∈ t'.1).
Proof.
  destruct t as [need old]. cbn [fst snd]. destruct o as [n|]; cbn [touch snd].
  - destruct (old !! n) as [f|] eqn:Ho.
    + intros [= <- <-] ->. cbn. apply elem_of_dom_2 in Ho. split_and!; [done| |set_solver|].
      * set_solver.
      * intros m [= ->]. set_solver.
    + unfold pm_bind, s_open, s_ask. destruct (open_meta (s_fs v) n); [|done]. intros [= <- <-] ->. cbn.
      rewrite dom_insert_L. split_and!; [done|set_solver|set_solver|]. intros m [= ->]. set_solver.
  - intros [= <- <-] ->. by split_and!.
Qed.
Lemma touch_all_spec l : forall t v t' v', touch_all l t v = (Ret t', v') -> t.1 = dom t.2 ->
  v' = v /\ t'.1 = dom t'.2 /\ t.1 ⊆ t'.1 /\
  (forall s n, s ∈ l -> s_sector_to_inode v !! s = Some n \/ sector_to_mft_record_no v !! s = Some n -> n ∈ t'.1).
Proof.
  induction l as [|s l IH]; intros t v t' v'; cbn [touch_all].
  - intros [= <- <-] ?. split_and!; try done. by intros s n ?%elem_of_nil.
  - unfold pm_bind, pm_get. destruct (touch (s_sector_to_inode v !! s) t v) as [[t1|] v1] eqn:E1; [|done].
    destruct (touch (sector_to_mft_record_no v1 !! s) t1 v1) as [[t2|] v2] eqn:E2; [|done]. intros E3 Ht.
    apply touch_spec in E1 as (-> & Hd1 & Hs1 & Hn1); [|done]. apply touch_spec in E2 as (-> & Hd2 & Hs2 & Hn2); [|done].
    apply IH in E3 as (-> & Hd & Hs & Hn); [|done]. split_and!; [done|done|set_solver|].
    intros s' n [-> | Hin]%elem_of_cons; [|by apply Hn]. intros [H|H]; [apply Hn1 in H|apply Hn2 in H]; set_solver.
Qed.
(** A new record only takes sectors for itself. *)
Definition taken_by (sectors : list Z) (new : gset Z) (s n : Z) : Prop := s ∈ sectors -> n ∈ new.
Lemma load_new_taken g sectors k : forall new,
  triple (held g (taken_by sectors new)) (s_load_new k new) (fun new' => held g (taken_by sectors new')) (fun _ _ => True).
Proof.
  induction k as [|k IH]; intros new; cbn [s_load_new]; [by intros v Hv|].
  apply triple_bind with (fun _ => held g (taken_by sectors new)).
  { intros v Hv. by apply (silent_preserves g _ (fun v => s_set_last (s_last_inum v + 1) v)). }
  intros _. apply triple_bind with (fun _ => held g (taken_by sectors new)); [by intros v Hv|]. intros n.
  apply triple_bind with (fun _ => held g (taken_by sectors (new ∪ {[n]}))); [|intros _; apply IH].
  eapply triple_conseq with (E' := fun _ => held g (taken_by sectors (new ∪ {[n]}))); [apply load_held| | |done].
  - intros s _ _. set_solver.
  - intros v [Hg Hv]. split; [done|]. eapply map_Forall_impl; [exact Hv|]. intros s m Hs Hin. specialize (Hs Hin). set_solver.
  - done.
Qed.
Lemma apply_write_bound fs_info parse_record set_order sector count data v events old new record_no v' :
  (forall s, set_order s ≡ₚ elements s) ->
  s_apply_write fs_info parse_record set_order sector count data v = (Ret (events, old, new, record_no), v') ->
  match record_no with
  | Some n => is_Some (old !! n)
  | None => map_Forall (taken_by (range sector (sector + count)) new) (s_sector_to_inode v')
  end.
Proof.
  intros Horder. unfold s_apply_write. unfold pm_bind at 1.
  destruct (touch_all (range sector (sector + count)) (∅, ∅) v) as [[t|] v1] eqn:Et; [|done].
  apply touch_all_spec in Et as (-> & Hdom & _ & Hn); [|cbn; by rewrite dom_empty_L].
  set (l := range sector (sector + count)) in *. destruct (set_order t.1) as [|r rs] eqn:Hset.
  - assert (He : t.1 = ∅) by (apply leibniz_equiv, elements_empty_iff, Permutation_nil_r; by rewrite <- Horder, Hset).
    rewrite bool_decide_true by done.
    assert (Hstart : held (geometry_of v) (taken_by l ∅) v).
    { split; [done|]. intros s n Hs Hin. rewrite <- He. by apply (Hn s n); [|left]. }
    unfold pm_bind at 1. pose proof (update_held _ _ fs_info sector count data v Hstart) as Hu.
    destruct (s_update_file_system fs_info sector count data v) as [[[]|] v2]; [|done]. unfold pm_bind at 1, pm_get.
    set (m := if s_last_inum v2 <? last_inum (s_fs v2) then s_parse_root else pm_ret tt).
    assert (Hp : preserves (held (geometry_of v) (taken_by l ∅)) m)
      by (apply preserves_if; [by apply silent_preserves|apply preserves_ret]).
    specialize (Hp v2 Hu). unfold pm_bind at 1. destruct (m v2) as [[[]|] v3]; [|done].
    unfold pm_bind at 1. pose proof (load_new_taken (geometry_of v) l (Z.to_nat (last_inum (s_fs v2) - s_last_inum v2)) ∅ v3 Hp) as Hl.
    destruct (s_load_new _ ∅ v3) as [[new'|] v4]; [|done]. cbn. intros [= <- <- <- <- <-]. apply Hl.
  - intros H. repeat apply bind_inv in H as (? & ? & _ & H). injection H as <- <- <- <- <-.
    assert (exists n, last (r :: rs) = Some n) as [n Hlast] by (apply last_is_Some; done).
    rewrite Hlast. apply elem_of_dom. rewrite <- Hdom. apply elem_of_elements. rewrite <- Horder, Hset.
    by apply last_Some_elem_of.
Qed.

(** ** Records that can be opened *)

Definition opens (fs : tsk_fs) (n : Z) : Prop := exists f, open_meta fs n = Ret f.
(** The owners of the sectors are records that the write touches, or can be opened. *)
Definition accounted (sectors : list Z) (t : gset Z) (fs : tsk_fs) (s n : Z) : Prop := s ∈ sectors -> n ∈ t \/ opens fs n.

Ltac keep_fs := repeat first
  [ progress intros | apply preserves_ret | apply preserves_raise | apply preserves_get | apply preserves_lift
  | apply preserves_modify; intros; done | apply preserves_if | apply preserves_bind
  | progress eauto 2 with keep_fs nocore | case_match ].
Create HintDb keep_fs.
Section fixed_fs.
Context (fs : tsk_fs).
Abbreviation J := (fun v => s_fs v = fs).
Lemma ask_fs {A} (f : svol -> res A) : preserves J (s_ask f).
Proof. intros v Hv. unfold s_ask. by destruct (f v). Qed.
Lemma each_fs {A} (l : list A) body : (forall x, preserves J (body x)) -> preserves J (s_each l body).
Proof. intros Hb. induction l; cbn [s_each]; keep_fs. Qed.
Hint Resolve ask_fs each_fs : keep_fs.
Lemma load_fs n : preserves J (s_load_file_entry n).
Proof.
  unfold s_load_file_entry, s_open, s_add_run, s_on_blocks. keep_fs. apply each_fs. keep_fs. apply each_fs. keep_fs. apply each_fs. keep_fs.
  apply each_fs. intros y. unfold s_add_sector. keep_fs.
Qed.
Lemma clean_fs n : preserves J (s_clean_file_entry n).
Proof.
  unfold s_clean_file_entry, s_open, s_remove_run, s_on_blocks. keep_fs. apply each_fs. keep_fs. apply each_fs. keep_fs. apply each_fs. keep_fs.
  apply each_fs. keep_fs.
Qed.
Lemma get_path_fs parse_record fuel raw n : preserves J (s_get_path parse_record fuel raw n).
Proof. revert n. induction fuel; intros n; cbn [s_get_path]; unfold s_set_path; keep_fs. Qed.
Lemma file_event_fs n t : preserves J (s_file_event n t).
Proof. unfold s_file_event. keep_fs. Qed.
End fixed_fs.

(** Both invariants at once *)
Lemma triple_both {S A} (P Q : S -> Prop) (m : PM S A) : preserves P m -> preserves Q m -> preserves (fun s => P s /\ Q s) m.
Proof. intros HP HQ s [H1 H2]. specialize (HP s H1). specialize (HQ s H2). destruct (m s) as [[]]; by split. Qed.

Section accounts.
Context (g : Z * Z * Z * Z) (l : list Z) (t : gset Z) (fs : tsk_fs).
Abbreviation K := (fun v => held g (accounted l t fs) v /\ s_fs v = fs).

(** A record that is loaded could be opened. *)
Lemma load_opens n v a v' : s_fs v = fs -> s_load_file_entry n v = (Ret a, v') -> opens fs n.
Proof.
  intros Hv H. unfold s_load_file_entry in H. apply bind_inv in H as (x & v1 & H1 & H). apply bind_inv in H as (y & v2 & H2 & H).
  apply bind_inv in H as (f & v3 & H3 & _). unfold s_ask in H1. injection H1 as _ <-. unfold pm_modify in H2. injection H2 as <- <-.
  unfold s_open, s_ask in H3. cbn [s_fs s_set_records] in H3. injection H3 as Hf _. exists f. by rewrite <- Hv.
Qed.
Lemma load_accounted n v a v' : K v -> s_load_file_entry n v = (Ret a, v') -> K v'.
Proof.
  intros HK H. pose proof (load_opens n v a v' (proj2 HK) H) as Ho.
  pose proof (triple_both _ _ _ (load_held g (accounted l t fs) n ltac:(intros s _ _; by right)) (load_fs fs n) v HK) as Hp.
  by rewrite H in Hp.
Qed.
Lemma load_new_accounted k : forall new v new' v', K v -> s_load_new k new v = (Ret new', v') -> K v'.
Proof.
  induction k as [|k IH]; intros new v new' v' HK H; cbn [s_load_new] in H; [by injection H as <- <-|].
  apply bind_inv in H as (? & v1 & H1 & H). apply bind_inv in H as (n & v2 & H2 & H). apply bind_inv in H as (? & v3 & H3 & H).
  injection H1 as <- <-. injection H2 as <- <-. eapply IH; [|exact H]. eapply load_accounted; [|exact H3]. by destruct HK.
Qed.
Lemma reload_accounted n v a v' : n ∈ t -> K v -> s_reload_file_entry n v = (Ret a, v') -> K v'.
Proof.
  intros Hn HK H. unfold s_reload_file_entry in H. apply bind_inv in H as ([] & v1 & H1 & H). eapply load_accounted; [|exact H].
  pose proof (triple_both _ _ _ (clean_held g (accounted l t fs) n) (clean_fs fs n) v HK) as Hp. by rewrite H1 in Hp.
Qed.
Lemma reload_all_accounted old records : Forall (.∈ t) records -> forall v ops v', K v ->
  s_reload_all old records v = (Ret ops, v') -> K v' /\ Forall (opens fs) records.
Proof.
  induction 1 as [|n records Hn _ IH]; intros v ops v' HK H; cbn [s_reload_all] in H; [by injection H as <- <-|].
  apply bind_inv in H as (? & v1 & H1 & H). apply (reload_accounted n) in H1; [|done..].
  apply bind_inv in H as (o & v2 & H2 & H). unfold pm_lift in H2. destruct (of_option _ _); [|done]. injection H2 as <- <-.
  apply bind_inv in H as (f & v3 & H3 & H). unfold s_open, s_ask in H3. injection H3 as Hf <-.
  apply bind_inv in H as (ops1 & v4 & H4 & H).
  assert (preserves K (if (Z.land (f_flags a) FLAG_ALLOC =? 0) && negb (Z.land (f_flags f) FLAG_ALLOC =? 0)
     then let! op := s_file_event n "[FILE CREATED]" in pm_ret [op]
     else if (Z.land (f_flags a) FLAG_UNALLOC =? 0) && negb (Z.land (f_flags f) FLAG_UNALLOC =? 0)
          then let! op := s_file_event n "[FILE DELETED]" in pm_ret [op] else pm_ret [])) as Hk.
  { assert (forall ty, preserves K (s_file_event n ty)) as He.
    { intros ty. apply triple_both; [|apply file_event_fs]. apply preserves_bind; [apply s_ask_preserves|]. intros ?.
      apply preserves_bind; [apply preserves_get|]. intros ?. apply preserves_bind; [apply preserves_lift|]. intros ?. apply preserves_ret. }
    repeat apply preserves_if; try (apply preserves_bind; [apply He|intros ?]); apply preserves_ret. }
  specialize (Hk v1 H1). rewrite H4 in Hk. apply bind_inv in H as (rest & v5 & H5 & H). injection H as _ <-.
  destruct (IH _ _ _ Hk H5) as [HK' Hall]. split; [done|]. constructor; [|done]. exists f. by rewrite <- (proj2 H1).
Qed.
End accounts.

Lemma apply_write_opens fs_info parse_record set_order sector count data v events old new record_no v' :
  (forall s, set_order s ≡ₚ elements s) ->
  s_apply_write fs_info parse_record set_order sector count data v = (Ret (events, old, new, record_no), v') ->
  (forall s n, s ∈ range sector (sector + count) -> s_sector_to_inode v' !! s = Some n -> opens (s_fs v') n) /\
  (forall n, record_no = Some n -> opens (s_fs v') n).
Proof.
  intros Horder H. unfold s_apply_write in H. apply bind_inv in H as (t & v1 & Ht & H).
  apply touch_all_spec in Ht as (-> & Hdom & _ & Hn); [|cbn; by rewrite dom_empty_L].
  set (l := range sector (sector + count)) in *. apply bind_inv in H as (? & v2 & Hu & H).
  set (g := geometry_of v). set (fs := s_fs v2).
  assert (held g (accounted l t.1 fs) v2 /\ s_fs v2 = fs) as HK.
  { split; [|done]. assert (held g (accounted l t.1 fs) v) as Hv by (split; [done|]; intros s n Hs Hin; left; by apply (Hn s n); [|left]).
    pose proof (update_held g (accounted l t.1 fs) fs_info sector count data v Hv) as Hp. by rewrite Hu in Hp. }
  apply bind_inv in H as (vv & v3 & Hg & H). injection Hg as -> <-.
  apply bind_inv in H as (? & v4 & Hp & H).
  assert (held g (accounted l t.1 fs) v4 /\ s_fs v4 = fs) as HK4.
  { destruct (_ <? _); injection Hp as <- <-; by destruct HK. }
  apply bind_inv in H as (new1 & v5 & Hl & H). apply (load_new_accounted g l t.1 fs) in Hl; [|done].
  apply bind_inv in H as (? & v6 & Hm & H).
  assert (held g (accounted l t.1 fs) v6 /\ s_fs v6 = fs) as HK6.
  { destruct (bool_decide (t.1 = ∅)); [by injection Hm as <- <-|].
    match type of Hm with ?m v5 = _ => assert (preserves (fun v => held g (accounted l t.1 fs) v /\ s_fs v = fs) m) as Hk end.
    { apply triple_both.
      - apply preserves_bind; [by apply silent_preserves|]. intros _. apply preserves_bind; [apply s_ask_preserves|]. intros _.
        apply preserves_bind; [apply preserves_get|]. intros raw. apply s_each_preserves. intros n _.
        apply preserves_bind; [apply get_path_held|]. intros _. apply preserves_ret.
      - apply preserves_bind; [by apply preserves_modify|]. intros _. apply preserves_bind; [apply ask_fs|]. intros _.
        apply preserves_bind; [apply preserves_get|]. intros raw. apply each_fs. intros n. apply preserves_bind; [apply get_path_fs|]. intros _. apply preserves_ret. }
    specialize (Hk v5 Hl). by rewrite Hm in Hk. }
  apply bind_inv in H as (ops & v7 & Hr & H). injection H as _ _ _ <- <-.
  assert (forall n, n ∈ set_order t.1 <-> n ∈ t.1) as Hset by (intros n; rewrite Horder; apply elem_of_elements).
  apply (reload_all_accounted g l t.1 fs) in Hr as [[[_ Ha] Hfs] Hall]; [|by apply Forall_forall; intros n Hin%Hset|done].
  rewrite Hfs. rewrite Forall_forall in Hall. split.
  - intros s n Hs Ho. destruct (Ha s n Ho Hs) as [Hin|Hin]; [|done]. by apply Hall, Hset.
  - intros n Hlast%last_Some_elem_of. by apply Hall.
Qed.

(** * Writes *)

(** The kind of a write to a sector *)
Definition write_type (v : svol) (new : gset Z) (s : Z) : string :=
  match s_sector_to_inode v !! s with
  | None => "[UNKNOWN WRITE]"
  | Some inode => if s =? 1 then "[MBR WRITE]" else if bool_decide (inode ∈ new) then "[FILE CREATED]"
                  else if inode =? 0 then "[MFT WRITE]" else "[CONTENT WRITE]"
  end.
Section writes.
Context (v : svol) (old : gmap Z tfile) (new : gset Z) (record_no : option Z) (sector : Z) (data : bytes) (l : list Z).
Context (owners_open : forall i n, i ∈ l -> s_sector_to_inode v !! (sector + i) = Some n -> opens (s_fs v) n).
Context (record_opens : forall n, record_no = Some n -> opens (s_fs v) n).
Context (bound : match record_no with
                 | Some n => is_Some (old !! n)
                 | None => map_Forall (taken_by (Z.add sector <$> l) new) (s_sector_to_inode v)
                 end).

Lemma write_operation_ok i : i ∈ l -> exists o, s_write_operation old new record_no sector data i v = (Ret o, v) /\
  so_sector o = sector + i /\ so_raw o = s_sector_data v data i /\ so_type o = write_type v new (sector + i).
Proof.
  intros Hi. unfold s_write_operation, write_type. unfold pm_bind at 1, pm_get.
  destruct (s_sector_to_inode v !! (sector + i)) as [inode|] eqn:Hs; [|by eexists].
  assert (Hname : exists p, (match s_inode_to_path v !! inode with
      | Some p => pm_ret p
      | None => let! f := s_open inode in pm_ret (default "unknown" (f_name f))
      end) v = (Ret p, v)).
  { destruct (s_inode_to_path v !! inode); [by eexists|]. destruct (owners_open i inode Hi Hs) as [f Hf].
    unfold pm_bind, s_open, s_ask. rewrite Hf. by eexists. }
  destruct Hname as [p Hp]. unfold pm_bind at 1. rewrite Hp. clear Hp.
  destruct (sector + i =? 1); [by eexists|]. case_bool_decide as Hnew; [by eexists|]. destruct (inode =? 0); [by eexists|].
  destruct record_no as [n|].
  - destruct bound as [f Hf]. destruct (record_opens n eq_refl) as [f' Hf']. unfold pm_bind, pm_lift, of_option, s_open, s_ask.
    rewrite Hf, Hf'. by eexists.
  - destruct Hnew. apply (bound (sector + i) inode Hs). apply list_elem_of_fmap. by exists i.
Qed.
End writes.
Lemma operations_ok v old new record_no sector data l :
  (forall i n, i ∈ l -> s_sector_to_inode v !! (sector + i) = Some n -> opens (s_fs v) n) ->
  (forall n, record_no = Some n -> opens (s_fs v) n) ->
  match record_no with
  | Some n => is_Some (old !! n)
  | None => map_Forall (taken_by (Z.add sector <$> l) new) (s_sector_to_inode v)
  end ->
  exists ops, s_operations (s_write_operation old new record_no sector data) l v = (Ret ops, v) /\
    so_sector <$> ops = Z.add sector <$> l /\ so_raw <$> ops = s_sector_data v data <$> l /\
    so_type <$> ops = write_type v new <$> (Z.add sector <$> l).
Proof.
  intros Hopen Hrec Hb. assert (Hop := write_operation_ok v old new record_no sector data l Hopen Hrec Hb). clear Hopen Hb.
  induction l as [|i l IH]; cbn [s_operations]; [by exists []|].
  destruct (Hop i (list_elem_of_here _ _)) as (o & Ho & H1 & H2 & H3). destruct IH as (ops & Hops & E1 & E2 & E3).
  { intros j Hj. by apply Hop, list_elem_of_further. }
  exists (o :: ops). unfold pm_bind. rewrite Ho, Hops. rewrite !fmap_cons. by rewrite H1, H2, H3, E1, E2, E3.
Qed.
(** [C33] Once a write is applied to the shadow image, it is reported in full: behind the files created
    or deleted comes one operation per sector, of the type the owner after the write determines, and
    the raw data of these operations is the data written.  The record that a content write compares
    is always there, although it is taken from the variable of an earlier loop, and the records
    that are opened for names and for the comparison can be opened. *)
Theorem shadow_write_reported fs_info parse_record set_order sector count data v events old new record_no v' :
  (forall s, set_order s ≡ₚ elements s) ->
  s_apply_write fs_info parse_record set_order sector count data v = (Ret (events, old, new, record_no), v') ->
  0 <= count -> 0 < s_sector_size v' -> zlen data = count * s_sector_size v' ->
  exists ops, s_get_access fs_info parse_record set_order sector count DIRECTION_WRITE data v = (Ret (events ++ ops), v') /\
    so_sector <$> ops = range sector (sector + count) /\ concat (so_raw <$> ops) = data /\
    so_type <$> ops = write_type v' new <$> range sector (sector + count).
Proof.
  intros Horder Happly Hc Hss Hlen. pose proof (apply_write_bound _ _ _ _ _ _ _ _ _ _ _ _ Horder Happly) as Hb.
  destruct (apply_write_opens _ _ _ _ _ _ _ _ _ _ _ _ Horder Happly) as [Hopen Hrec].
  rewrite <- range_shift in *. destruct (operations_ok v' old new record_no sector data (range 0 count)) as (ops & Hops & E1 & E2 & E3); [|done..|].
  { intros i n Hi. apply Hopen. apply list_elem_of_fmap. by exists i. }
  exists ops. split.
  - unfold s_get_access. cbn [Z.eqb Pos.eqb DIRECTION_WRITE]. unfold pm_bind. by rewrite Happly, Hops.
  - rewrite E1, E2, E3. split; [done|]. split; [|done]. unfold range. rewrite Z.sub_0_r. rewrite <- (Z2Nat.id count) in * by done.
    by apply sector_data_concat.
Qed.

(** * Sectors of the volume *)

Lemma in_volume_spec ss off k count s : 0 < ss -> 0 < k -> in_volume (ss, off, k * ss, count) s -> off <= s < off + count * k.
Proof.
  intros Hss Hk (b & Hb & Hs). replace (off * ss + b * (k * ss)) with ((off + b * k) * ss) in Hs by ring.
  rewrite !Z.div_mul in Hs by lia. nia.
Qed.
Lemma load_new_held g n : forall new, preserves (held g (fun s _ => in_volume g s)) (s_load_new n new).
Proof.
  induction n as [|n IH]; intros new; cbn [s_load_new]; [apply preserves_ret|]. apply preserves_bind; [by apply silent_preserves|].
  intros _. apply preserves_bind; [apply preserves_get|]. intros m. apply preserves_bind; [by apply load_held|]. intros _. apply IH.
Qed.
Lemma apply_write_held g fs_info parse_record set_order sector count data :
  preserves (held g (fun s _ => in_volume g s)) (s_apply_write fs_info parse_record set_order sector count data).
Proof.
  apply preserves_bind; [apply touch_all_held|]. intros t. apply preserves_bind; [apply update_held|]. intros _.
  apply preserves_bind; [apply preserves_get|]. intros v. apply preserves_bind.
  { apply preserves_if; [by apply silent_preserves|apply preserves_ret]. }
  intros _. apply preserves_bind; [apply load_new_held|]. intros new. apply preserves_bind.
  { case_bool_decide; [apply preserves_ret|]. apply preserves_bind; [by apply silent_preserves|]. intros _.
    apply preserves_bind; [apply s_ask_preserves|]. intros _. apply preserves_bind; [apply preserves_get|]. intros raw.
    apply s_each_preserves. intros n _. apply preserves_bind; [apply get_path_held|]. intros _. apply preserves_ret. }
  intros _. apply preserves_bind; [by apply reload_all_held|]. intros ops. apply preserves_ret.
Qed.
Lemma access_held g fs_info parse_record set_order sector count direction data :
  preserves (held g (fun s _ => in_volume g s)) (s_get_access fs_info parse_record set_order sector count direction data).
Proof.
  apply preserves_if; [|apply preserves_bind; [apply preserves_get|intros v; apply preserves_ret]].
  apply preserves_bind; [apply apply_write_held|]. intros [[[events old] new] r]. apply preserves_bind; [|intros ops; apply preserves_ret].
  generalize (range 0 count). intros l. induction l as [|i l IH]; cbn [s_operations]; [apply preserves_ret|].
  apply preserves_bind; [|intros o; apply preserves_bind; [apply IH|intros ?; apply preserves_ret]].
  apply preserves_bind; [apply preserves_get|]. intros v. destruct (_ !! _); [|apply preserves_ret].
  apply preserves_bind; [case_match; [apply preserves_ret|apply preserves_bind; [apply s_ask_preserves|intros ?; apply preserves_ret]]|].
  intros p. apply preserves_bind; [|intros ?; apply preserves_ret].
  repeat (apply preserves_if; [apply preserves_ret|]). apply preserves_bind; [apply preserves_lift|]. intros n.
  apply preserves_bind; [apply preserves_lift|]. intros f. apply preserves_bind; [apply s_ask_preserves|]. intros ?. apply preserves_ret.
Qed.
(** The volume after it is loaded and accesses were made, whether or not they raised *)
Definition s_accesses fs_info parse_record set_order (l : list (Z * Z * Z * bytes)) (v : svol) : svol :=
  foldl (fun v '(sector, count, direction, data) => (s_get_access fs_info parse_record set_order sector count direction data v).2)
    (s_load_file_system v).2 l.
Lemma preserves_state {S A} (J : S -> Prop) (m : PM S A) s : preserves J m -> J s -> J (m s).2.
Proof. intros Hm Hs. specialize (Hm s Hs). by destruct (m s) as [[] ?]. Qed.
Lemma accesses_held fs_info parse_record set_order l v (g := geometry_of v) :
  s_sector_to_inode v = ∅ -> held g (fun s _ => in_volume g s) (s_accesses fs_info parse_record set_order l v).
Proof.
  intros Hv. unfold s_accesses.
  assert (H0 : held g (fun s _ => in_volume g s) (s_load_file_system v).2).
  { apply preserves_state; [|split; [done|rewrite Hv; apply map_Forall_empty]].
    apply preserves_bind; [by apply silent_preserves|]. intros _. apply preserves_bind; [apply preserves_get|]. intros last.
    apply s_each_preserves. intros n _. by apply load_held. }
  revert H0. generalize (s_load_file_system v).2. induction l as [|[[[sector count] direction] data] l IH]; intros v0 H0; [done|].
  apply IH. by apply preserves_state; [apply access_held|].
Qed.
(** Whatever the accesses and however they end, only sectors inside the volume ever have an owner. *)
Theorem shadow_owners_in_volume fs_info parse_record set_order l v k s n :
  s_sector_to_inode v = ∅ -> 0 < s_sector_size v -> 0 < k -> s_block_size v = k * s_sector_size v ->
  s_sector_to_inode (s_accesses fs_info parse_record set_order l v) !! s = Some n ->
  s_offset v <= s < s_offset v + s_block_count v * k.
Proof.
  intros Hv Hss Hk Hbs Hs. destruct (accesses_held fs_info parse_record set_order l v Hv) as [_ Hin].
  specialize (Hin s n Hs). unfold geometry_of in Hin. rewrite Hbs in Hin. by apply in_volume_spec in Hin.
Qed.

(** * Stale owners *)

(** A record that was freed is neither cleaned nor loaded, so that its sectors keep their owner. *)
Lemma reload_deleted v n f : open_meta (s_fs v) n = Ret f -> _is_file_allocated f = false ->
  s_sector_to_inode (s_reload_file_entry n v).2 = s_sector_to_inode v.
Proof.
  intros Hf Ha. unfold s_reload_file_entry, s_clean_file_entry, s_load_file_entry, pm_bind, s_open, s_ask.
  rewrite Hf, Ha. cbn [negb pm_ret]. destruct (s_mft_record_to_sectors n v); [|done]. cbn [pm_modify s_fs s_set_records].
  by rewrite Hf, Ha.
Qed.

(** A volume of 16 blocks of two sectors at sector 63: record 0 is the MFT at blocks 4 and 5, record 1
    a file at blocks 8 and 9; in the shadowed file system, record 2 is new at block 12. *)
Definition mft_record_file : tfile := TFile [(true, [(2, 4)])] 5 (Some "$MFT") [].
Definition content_file (runs : list (Z * Z)) (flags : Z) : tfile := TFile [(true, runs)] flags (Some "f") [].
Definition two_files : tsk_fs := TskFs 1 (fun n => if n =? 0 then Ret mft_record_file else if n =? 1 then Ret (content_file [(2, 8)] 5) else Raise IOError)
  [Dirent "$MFT" (Some 0) false []; Dirent "a.txt" (Some 1) false []] [].
Definition three_files : tsk_fs := TskFs 2
  (fun n => if n =? 0 then Ret mft_record_file else if n =? 1 then Ret (content_file [(2, 8)] 5) else if n =? 2 then Ret (content_file [(1, 12)] 5) else Raise IOError)
  [Dirent "$MFT" (Some 0) false []; Dirent "a.txt" (Some 1) false []; Dirent "b.txt" (Some 2) false []] [].
Definition before_write : svol := (s_load_file_system (SVol 512 63 1024 16 5 ∅ two_files 1 ∅ ∅ ∅ [])).2.
Definition three_fs (c : gmap Z bytes) : res tsk_fs := Ret three_files.
Definition plain_record (r : bytes) : res mft_record := Ret [(5, "a.txt", 1)].
Definition after_write := s_apply_write three_fs plain_record elements 78 2 (py_repeat 7 1024) before_write.
Lemma shadow_write_reported_witness : exists events ops v',
  s_get_access three_fs plain_record elements 78 2 DIRECTION_WRITE (py_repeat 7 1024) before_write = (Ret (events ++ ops), v') /\
  so_sector <$> ops = [78; 79] /\ so_type <$> ops = ["[UNKNOWN WRITE]"; "[CONTENT WRITE]"].
Proof.
  destruct after_write as [[[[[events old] new] record_no]|e] v'] eqn:He; [|exfalso; by vm_compute in He].
  assert (Hv : v' = after_write.2) by (by rewrite He).
  assert (Hn : Ret new = (let? r := after_write.1 in Ret r.1.2)) by (by rewrite He).
  destruct (shadow_write_reported three_fs plain_record elements 78 2 (py_repeat 7 1024) before_write events old new record_no v')
    as (ops & H1 & H2 & _ & H4).
  - done.
  - exact He.
  - lia.
  - rewrite Hv. vm_compute. reflexivity.
  - rewrite Hv. vm_compute. reflexivity.
  - exists events, ops, v'. split; [exact H1|]. split; [exact H2|]. rewrite H4, Hv. clear H1 H2 H4 He Hv.
    assert (Hnew : Ret new = Ret ({[2]} : gset Z)) by (rewrite Hn; vm_compute; reflexivity). injection Hnew as ->.
    vm_compute. reflexivity.
Defined.
Lemma shadow_owners_in_volume_witness : s_sector_to_inode (s_accesses three_fs plain_record elements [(78, 2, 1, py_repeat 7 1024)]
    (SVol 512 63 1024 16 5 ∅ two_files 1 ∅ ∅ ∅ [])) !! 87 = Some 2 /\ 63 <= 87 < 63 + 16 * 2.
Proof.
  split; [by vm_compute|].
  apply (shadow_owners_in_volume three_fs plain_record elements [(78, 2, 1, py_repeat 7 1024)]
    (SVol 512 63 1024 16 5 ∅ two_files 1 ∅ ∅ ∅ []) 2 87 2); [done|done|done|done|by vm_compute].
Defined.
