(* ===== verification/ShadowDisk.v ===== *)
(** Model of [SemanticEngineDisk] of [lophi_semanticgap/disk/filesystems/__init__.py]: the volumes
    of a disk in order, each with an engine when the Sleuth Kit knows its file system, and the
    accesses, caches and logs of the whole disk.  Theorems: an access goes to the volume it starts
    in and to no other, and a disk with a volume that has no file system cannot be dumped. *)
From stdpp Require Import gmap sorting.
From S2P Require Import Prelude Filesystem FilesystemTheorems ShadowImage BlockVolume ShadowNtfs.

Inductive sengine := Generic (v : gvol) | Ntfs (v : svol).
Record svolume := SVolume { vol_start : Z; vol_desc : string; vol_engine : option sengine }.
(** The volumes of a disk, in the order in which they are added *)
Definition sdisk : Type := list svolume.
(** What an access to a volume gives *)
Inductive saccess :=
  | FilesTouched (files : option (gmap string gout))
  | FileOps (ops : list sop)
  | NonFilesystem (op : string) (sector : Z) (raw_data : bytes).

Definition res_map {A B} (f : A -> B) (r : res A) : res B := let? a := r in Ret (f a).

Section disk.
Context (open_generic : Z -> option gvol) (open_ntfs : Z -> option svol).
(** The engines that [FS_Info] opens or not *)
Definition add_volume (start : Z) (desc : string) (d : sdisk) : sdisk :=
  d ++ [SVolume start desc (if bool_decide (desc = "NTFS (0x07)") then Ntfs <$> open_ntfs start else Generic <$> open_generic start)].
Definition new_disk (vols : list (Z * string)) : sdisk := foldl (fun d v => add_volume v.1 v.2 d) [] vols.

Context (fs_open : string -> res unit) (fs_info : gmap Z bytes -> res tsk_fs) (parse_record : bytes -> res mft_record) (set_order : gset Z -> list Z).
Definition engine_access (e : option sengine) (sector sector_count direction : Z) (data : bytes) : res saccess * option sengine :=
  match e with
  | Some (Generic v) => (res_map FilesTouched (g_get_access fs_open v sector sector_count direction data), e)
  | Some (Ntfs v) =>
      let '(r, v) := s_get_access fs_info parse_record set_order sector sector_count direction data v in
      (res_map FileOps r, Some (Ntfs v))
  | None => (Ret (NonFilesystem (if direction =? DIRECTION_WRITE then "WRITE" else "READ") sector data), e)
  end.
Definition sdisk_access (sector sector_count direction : Z) (data : bytes) : PM sdisk (option saccess) := fun d =>
  match _get_volume (vol_start <$> d) (seq 0 (length d)) sector with
  | Ret (Some i) =>
      match d !! i with
      | Some vol =>
          let '(r, e) := engine_access (vol_engine vol) sector sector_count direction data in
          (res_map Some r, <[i := SVolume (vol_start vol) (vol_desc vol) e]> d)
      | None => (Raise KeyError, d)
      end
  | Ret None => (Ret None, d)
  | Raise e => (Raise e, d)
  end.
End disk.

(** [dump_cache] and [get_error_logs] call a method of every engine, and [None] has none. *)
Definition engine_cache (e : option sengine) : res (gmap Z bytes) :=
  match e with Some (Generic _) => Ret ∅ | Some (Ntfs v) => Ret (s_cache v) | None => Raise AttributeError end.
Fixpoint dump_cache (d : sdisk) (ret : gmap Z (gmap Z bytes)) : res (gmap Z (gmap Z bytes)) :=
  match d with
  | [] => Ret ret
  | vol :: d => let? c := engine_cache (vol_engine vol) in dump_cache d (<[vol_start vol := c]> ret)
  end.
Inductive slog := GLog (l : list gerror) | NLog (l : list error).
Definition engine_log (e : option sengine) : res (option slog) :=
  match e with
  | Some (Generic v) => Ret (match g_errors v with [] => None | l => Some (GLog l) end)
  | Some (Ntfs v) => Ret (match s_errors v with [] => None | l => Some (NLog l) end)
  | None => Raise AttributeError
  end.
Fixpoint get_error_logs (d : sdisk) (error_logs : gmap string (option slog)) : res (gmap string (option slog)) :=
  match d with
  | [] => Ret error_logs
  | vol :: d => let? l := engine_log (vol_engine vol) in get_error_logs d (<[vol_desc vol := l]> error_logs)
  end.

(** * Theorems *)

(** On a disk whose volumes are in order, an access that starts in or behind the first volume is
    handed to the volume it starts in: the result is that engine's, and every other volume of the
    disk, and the start and the type of this one, stay as they were. *)
Theorem access_one_volume fs_open fs_info parse_record set_order (d : sdisk) sector count direction data :
  StronglySorted Z.le (vol_start <$> d) -> Exists (fun vol => vol_start vol <= sector) d ->
  exists i vol r e, d !! i = Some vol /\ vol_start vol <= sector /\
    (forall next, d !! S i = Some next -> sector < vol_start next) /\
    engine_access fs_open fs_info parse_record set_order (vol_engine vol) sector count direction data = (r, e) /\
    sdisk_access fs_open fs_info parse_record set_order sector count direction data d =
      (res_map Some r, <[i := SVolume (vol_start vol) (vol_desc vol) e]> d).
Proof.
  intros Hs He. unfold sdisk_access, sdisk in *.
  destruct (get_volume_spec (vol_start <$> d) (seq 0 (length d)) sector) as (i & -> & Hi); [done|by rewrite length_seq, length_fmap| |].
  { by destruct d; [apply Exists_nil in He|]. }
  destruct Hi as [(j & start & Hj & Hb & Hle & Hnext)|[_ Hall]].
  - apply lookup_seq in Hj as [-> Hlt]. rewrite list_lookup_fmap in Hb. apply fmap_Some in Hb as (vol & Hv & ->).
    change (0 + j)%nat with j. rewrite Hv.
    destruct (engine_access fs_open fs_info parse_record set_order (vol_engine vol) sector count direction data) as [r e] eqn:Ee.
    exists j, vol, r, e. split_and!; try done. intros next Hn. apply Hnext. by rewrite list_lookup_fmap, Hn.
  - apply Exists_exists in He as (vol & Hin & Hle). rewrite Forall_fmap, Forall_forall in Hall. specialize (Hall vol Hin). cbn in Hall. lia.
Qed.
Definition three_volumes : sdisk := new_disk (fun _ => None) (fun _ => None) [(0, "Unallocated"); (63, "NTFS (0x07)"); (5000, "Linux (0x83)")].
Lemma access_one_volume_witness : exists r,
  sdisk_access (fun _ => Ret tt) (fun _ => Raise IOError) (fun _ => Ret []) elements 64 2 0 [1; 2] three_volumes = (Ret (Some r), three_volumes).
Proof.
  destruct (access_one_volume (fun _ => Ret tt) (fun _ => Raise IOError) (fun _ => Ret []) elements three_volumes 64 2 0 [1; 2])
    as (i & vol & r & e & Hi & Hle & Hnext & He & ->).
  - repeat constructor; done.
  - apply Exists_cons. by left.
  - assert (Hvol : vol_engine vol = None /\ SVolume (vol_start vol) (vol_desc vol) None = vol).
    { destruct i as [|[|[|i]]]; cbn in Hi; simplify_eq; done. }
    destruct Hvol as [Hv Hsame]. rewrite Hv in He. cbn in He. injection He as <- <-. rewrite Hsame. unfold sdisk. rewrite list_insert_id by done. by eexists.
Defined.

(** A volume without a file system makes the caches and the logs of the whole disk unavailable. *)
Lemma dump_needs_all d ret : Exists (fun vol => vol_engine vol = None) d -> dump_cache d ret = Raise AttributeError.
Proof.
  intros H. revert ret. induction H as [vol d Hv|vol d _ IH]; intros ret; cbn [dump_cache]; [by rewrite Hv|].
  destruct (vol_engine vol) as [[]|]; [apply IH..|done].
Qed.
Lemma logs_need_all d logs : Exists (fun vol => vol_engine vol = None) d -> get_error_logs d logs = Raise AttributeError.
Proof.
  intros H. revert logs. induction H as [vol d Hv|vol d _ IH]; intros logs; cbn [get_error_logs]; [by rewrite Hv|].
  destruct (vol_engine vol) as [[]|]; [apply IH..|done].
Qed.
