(* ===== verification/MftSession.v ===== *)
(** Model of [MftSession] of [lophi_semanticgap/disk/filesystems/ntfs/__init__.py]: the records of
    a whole MFT with their attributes and the path of each file, built from the names of its
    parents.  [parse_record] stands for analyzeMFT, [dict_order] for the order in which Python
    goes through a dictionary.
    Theorem: the paths that reading an MFT gives, for every order of records; the path of a file
    whose directory has a later record is not found. *)
From S2P Require Import Prelude Filesystem.

(** * Records *)

(** An attribute: its type and name.  An entry of an attribute list: the record it is in, its type and name. *)
Abbreviation mattr := (Z * string)%type.
Abbreviation mchild := (Z * Z * string)%type.
(** What analyzeMFT finds in a record *)
Record prec := PRec { p_names : mft_record; p_attributes : list mattr; p_attribute_list : option (list mchild) }.
(** A record of the session: its path, which is empty at first, and its parent and name once they are chosen *)
Record mrec := MRec { m_filename : string; m_link : option (Z * string); m_parsed : prec }.
Record mft_session := Session { MFT_RAW : bytes; s_mft : gmap Z mrec }.
Definition set_mft_records x (s : mft_session) := Session (MFT_RAW s) x.
Abbreviation SS := (PM mft_session).
Definition set_filename (seqnum : Z) (p : string) : SS string :=
  pm_modify (fun s => set_mft_records (alter (fun r => MRec p (m_link r) (m_parsed r)) seqnum (s_mft s)) s) ;! pm_ret p.

(** [fuel] is the recursion limit. *)
Fixpoint get_folder_path (fuel : nat) (seqnum : Z) : SS string :=
  match fuel with
  | O => pm_raise BareExn
  | S fuel =>
      let! record := pm_get (fun s => s_mft s !! seqnum) in
      match record with
      | None => pm_ret "Orphan"
      | Some r =>
          if negb (bool_decide (m_filename r = "")) then pm_ret (m_filename r) else
          match m_link r with
          | None => set_filename seqnum "NoFNRecord"
          | Some (par_ref, name) =>
              if par_ref =? 5 then set_filename seqnum ("/" ++ name)
              else if par_ref =? seqnum then set_filename seqnum ("ORPHAN/" ++ name)
              else
                let! parentpath := get_folder_path fuel par_ref in
                set_filename seqnum (parentpath ++ "/" ++ name)
          end
      end
  end.
Fixpoint ss_each {A} (l : list A) (body : A -> SS unit) : SS unit :=
  match l with [] => pm_ret tt | x :: l => body x ;! ss_each l body end.

Section session.
Context (parse_record : bytes -> res prec) (dict_order : gset Z -> list Z).

Definition gen_filepath (i : Z) : SS unit :=
  let! record := pm_get (fun s => s_mft s !! i) in
  match record with
  | Some r => if bool_decide (m_filename r = "") && negb (bool_decide (p_names (m_parsed r) = []))
              then let! _ := get_folder_path recursion_limit i in pm_ret tt else pm_ret tt
  | None => pm_raise KeyError
  end.
Definition gen_filepaths : SS unit :=
  let! keys := pm_get (fun s => dict_order (dom (s_mft s))) in ss_each keys gen_filepath.
(** One entry of the attribute list: the other record replaces what the session had of it, and its
    attributes of the right type and name are added. *)
Definition process_child (record_no : Z) (c : mchild) : SS unit :=
  let '(n, type, name) := c in
  if n =? record_no then pm_ret tt else
  let! raw := pm_get MFT_RAW in
  let! other := pm_lift (parse_record (slice raw (n * 1024) ((n + 1) * 1024))) in
  pm_modify (fun s => set_mft_records (<[n := MRec "" None other]> (s_mft s)) s) ;!
  let found := filter (fun a => a = (type, name)) (p_attributes other) in
  pm_modify (fun s => set_mft_records (alter (fun r => MRec (m_filename r) (m_link r)
    (PRec (p_names (m_parsed r)) (p_attributes (m_parsed r) ++ found) (p_attribute_list (m_parsed r)))) record_no (s_mft s)) s).
Definition _process_children (record_no : Z) : SS unit :=
  let! record := pm_get (fun s => s_mft s !! record_no) in
  match record with
  | Some r => match p_attribute_list (m_parsed r) with
              | Some records => ss_each records (process_child record_no)
              | None => pm_ret tt
              end
  | None => pm_raise KeyError
  end.
Definition update_record (record_no : Z) (raw_record : option bytes) : SS unit :=
  (match raw_record with
   | Some raw =>
       if bool_decide (raw = []) then pm_ret tt
       else if negb (zlen raw =? 1024) then pm_raise AssertionError
       else pm_modify (fun s => Session (slice_to (MFT_RAW s) (record_no * 1024) ++ raw ++ slice_from (MFT_RAW s) ((record_no + 1) * 1024)) (s_mft s))
   | None => pm_ret tt
   end) ;!
  let! raw := pm_get MFT_RAW in
  let! record := pm_lift (parse_record (slice raw (record_no * 1024) ((record_no + 1) * 1024))) in
  pm_modify (fun s => set_mft_records (<[record_no := MRec "" (choose_name (p_names record)) record]> (s_mft s)) s) ;!
  _process_children record_no ;!
  gen_filepaths.
Definition process_mft_file : SS unit :=
  let! raw := pm_get MFT_RAW in
  ss_each (seqZ 0 (zlen raw / 1024)) (fun i => update_record i None) ;!
  gen_filepaths.
End session.

(** * Paths *)

(** The path found for record [n] from the parents and names: a parent with a later record, or none, is an orphan's. *)
Fixpoint path_within (fuel : nat) (links : Z -> option (Z * string)) (n : Z) : string :=
  match fuel, links n with
  | O, _ => ""
  | _, None => "NoFNRecord"
  | S fuel, Some (par_ref, name) =>
      if par_ref =? 5 then ("/" ++ name)%string
      else if par_ref =? n then ("ORPHAN/" ++ name)%string
      else if (0 <=? par_ref) && (par_ref <? n) then path_within fuel links par_ref ++ ("/" ++ name)%string
      else ("Orphan/" ++ name)%string
  end.
Definition path_found (links : Z -> option (Z * string)) (n : Z) : string := path_within (S (Z.to_nat n)) links n.
Lemma path_within_enough links n : forall f1 f2, (Z.to_nat n < f1)%nat -> (Z.to_nat n < f2)%nat -> path_within f1 links n = path_within f2 links n.
Proof.
  intros f1. revert n. induction f1 as [|f1 IH]; intros n [|f2] H1 H2; try lia. cbn [path_within].
  destruct (links n) as [[p name]|]; [|done]. destruct (p =? 5); [done|]. destruct (p =? n); [done|].
  destruct ((0 <=? p) && (p <? n)) eqn:Hp; [|done]. apply andb_true_iff in Hp as [?%Z.leb_le ?%Z.ltb_lt]. f_equal. apply IH; lia.
Qed.
Lemma path_found_eq links n : path_found links n =
  match links n with
  | None => "NoFNRecord"
  | Some (par_ref, name) =>
      if par_ref =? 5 then ("/" ++ name)%string else if par_ref =? n then ("ORPHAN/" ++ name)%string
      else String.append (if (0 <=? par_ref) && (par_ref <? n) then path_found links par_ref else "Orphan") ("/" ++ name)
  end.
Proof.
  unfold path_found at 1. cbn [path_within]. destruct (links n) as [[p name]|]; [|done]. destruct (p =? 5); [done|].
  destruct (p =? n); [done|]. destruct ((0 <=? p) && (p <? n)) eqn:Hp; [|done]. f_equal.
  apply andb_true_iff in Hp as [?%Z.leb_le ?%Z.ltb_lt]. apply path_within_enough; lia.
Qed.
Lemma app_slash_nonempty a b : (a ++ "/" ++ b)%string <> "".
Proof. by destruct a. Qed.
Lemma path_found_nonempty links n : path_found links n <> "".
Proof.
  rewrite path_found_eq. destruct (links n) as [[p name]|]; [|done]. destruct (p =? 5); [done|]. destruct (p =? n); [done|].
  apply app_slash_nonempty.
Qed.

Section paths.
Context (parse_record : bytes -> res prec) (dict_order : gset Z -> list Z) (raw : bytes) (precs : Z -> prec).
Context (parses : forall n, 0 <= n < zlen raw / 1024 -> parse_record (slice raw (n * 1024) ((n + 1) * 1024)) = Ret (precs n)).
Context (resident : forall n, p_attribute_list (precs n) = None).
Context (order_all : forall s, dict_order s ≡ₚ elements s).
Definition links (n : Z) : option (Z * string) := choose_name (p_names (precs n)).

Lemma no_link n : links n = None <-> p_names (precs n) = [].
Proof.
  unfold links, choose_name. destruct (p_names (precs n)) as [|[[par name] ns] l]; [done|]. split; [|done].
  destruct l; [done|]. by destruct (List.last _ _) as [[? ?] ?].
Qed.
(** A record is as it should be *)
Definition settled (n : Z) (r : mrec) : Prop :=
  match links n with Some _ => m_filename r = path_found links n | None => m_filename r = "" \/ m_filename r = "NoFNRecord" end.
(** The first [top] records are read, and settled except for [pending] *)
Definition reading (pending : option Z) (top : Z) (s : mft_session) : Prop :=
  MFT_RAW s = raw /\ forall n, match s_mft s !! n with
    | Some r => 0 <= n < top /\ m_link r = links n /\ m_parsed r = precs n /\ (settled n r \/ pending = Some n /\ m_filename r = "")
    | None => ~ 0 <= n < top
    end.
Lemma set_filename_reading pending top s n p : reading pending top s -> settled n (MRec p (links n) (precs n)) ->
  exists s', set_filename n p s = (Ret p, s') /\ reading (if decide (pending = Some n) then None else pending) top s'.
Proof.
  intros [Hraw Hs] Hp. unfold set_filename, pm_bind, pm_modify. eexists. split; [done|]. split; [done|]. intros m. cbn [s_mft set_mft_records].
  specialize (Hs m). destruct (decide (m = n)) as [->|Hne].
  - rewrite lookup_alter_eq. destruct (s_mft s !! n) as [r|]; [|done]. destruct Hs as (Ht & Hl & Hpr & _). cbn [fmap option_fmap option_map m_link m_parsed].
    do 3 (split; [done|]). by left.
  - rewrite lookup_alter_ne by done. destruct (s_mft s !! m) as [r|]; [|done]. destruct Hs as (Ht & Hl & Hpr & Hok). do 3 (split; [done|]).
    destruct Hok as [?|[-> ?]]; [by left|]. rewrite decide_False by congruence. by right.
Qed.
(** The parent of the pending record *)
Lemma parent_path top s fuel q : (0 < fuel)%nat -> reading (Some (top - 1)) top s -> q <> top - 1 ->
  exists s', get_folder_path fuel q s = (Ret (if (0 <=? q) && (q <? top - 1) then path_found links q else "Orphan"), s') /\ reading (Some (top - 1)) top s'.
Proof.
  intros Hf Hr Hq. destruct fuel as [|fuel]; [lia|]. cbn [get_folder_path]. unfold pm_bind at 1, pm_get.
  pose proof Hr as [_ Hs]. specialize (Hs q). destruct (s_mft s !! q) as [r|].
  - destruct Hs as (Ht & Hl & Hpr & [Hok|[[= ?] _]]); [|lia]. rewrite (proj2 (Z.leb_le 0 q)), (proj2 (Z.ltb_lt q (top - 1))) by lia. cbn [andb].
    unfold settled in Hok. destruct (links q) as [l|] eqn:Elink.
    + rewrite Hok, bool_decide_false by apply path_found_nonempty. by exists s.
    + rewrite Hl. rewrite path_found_eq, Elink. destruct Hok as [Hok|Hok]; rewrite Hok; [|by exists s].
      destruct (set_filename_reading _ _ _ q "NoFNRecord" Hr) as (s' & He & Hr'); [unfold settled; rewrite Elink; by right|].
      rewrite decide_False in Hr' by (intros [= ?]; lia). exists s'. split; [exact He|exact Hr'].
  - exists s. split; [|done]. assert ((0 <=? q) && (q <? top - 1) = false) as ->; [|done].
    apply andb_false_iff. rewrite Z.leb_gt, Z.ltb_ge. lia.
Qed.
Lemma gen_filepath_reading pending top s j : reading pending top s -> pending = None \/ pending = Some (top - 1) -> 0 <= j < top ->
  exists s', gen_filepath j s = (Ret tt, s') /\ reading (if decide (pending = Some j) then None else pending) top s'.
Proof.
  intros Hr Hpend Hj. unfold gen_filepath, pm_bind at 1, pm_get. pose proof Hr as [Hraw Hs]. specialize (Hs j).
  destruct (s_mft s !! j) as [r|] eqn:Hrec; [|lia]. destruct Hs as (_ & Hl & Hpr & Hok). rewrite Hpr.
  destruct (links j) as [[par name]|] eqn:Elink.
  - assert (Hn : p_names (precs j) <> []) by (intros H; apply no_link in H; congruence). rewrite (bool_decide_false (p_names _ = [])) by done.
    destruct Hok as [Hok|[-> Hempty]].
    + unfold settled in Hok. rewrite Elink in Hok. rewrite Hok, bool_decide_false by apply path_found_nonempty. cbn [andb].
      exists s. split; [done|]. destruct (decide _) as [->|]; [|done]. split; [done|]. intros m. destruct Hr as [_ Hs]. specialize (Hs m).
      destruct (s_mft s !! m) as [r'|] eqn:Hm; [|done]. destruct Hs as (? & ? & ? & [?|[[= <-] He]]); [do 3 (split; [done|]); by left|].
      rewrite Hrec in Hm. injection Hm as <-. rewrite Hok in He. by destruct (path_found_nonempty links j).
    + destruct Hpend as [|[= ->]]; [done|]. rewrite Hempty. cbn [bool_decide_true andb negb]. rewrite bool_decide_true by done. cbn [andb negb].
      unfold pm_bind at 1. unfold recursion_limit. change 1000%nat with (S 999).
      assert (Hk : (0 < 999)%nat) by lia. revert Hk. generalize 999%nat as k. intros k Hk. cbn [get_folder_path]. unfold pm_bind at 1, pm_get.
      rewrite Hrec, Hempty, bool_decide_true by done. cbn [negb]. rewrite Hl.
      assert (Hset : forall s0 p, reading (Some (top - 1)) top s0 -> path_found links (top - 1) = p ->
        exists s', set_filename (top - 1) p s0 = (Ret p, s') /\ reading None top s').
      { intros s0 p H0 Hp. destruct (set_filename_reading _ _ _ (top - 1) p H0) as (s' & He & Hr'); [unfold settled; by rewrite Elink|].
        rewrite decide_True in Hr' by done. eauto. }
      rewrite path_found_eq, Elink in Hset. rewrite decide_True by done.
      destruct (par =? 5); [destruct (Hset s _ Hr eq_refl) as (s' & -> & ?); by exists s'|].
      destruct (Z.eqb_spec par (top - 1)) as [->|Hne]; [destruct (Hset s _ Hr eq_refl) as (s' & -> & ?); by exists s'|].
      destruct (parent_path top s k par) as (s1 & He & Hr1); [done|done|done|]. unfold pm_bind at 1. rewrite He.
      destruct (Hset s1 _ Hr1 eq_refl) as (s' & -> & ?). by exists s'.
  - rewrite (bool_decide_true (p_names _ = [])) by (by apply no_link). rewrite andb_false_r. exists s. split; [done|].
    destruct (decide _) as [->|]; [|done]. split; [done|]. intros m. destruct Hr as [_ Hs]. specialize (Hs m).
    destruct (s_mft s !! m) as [r'|]; [|done]. destruct Hs as (? & ? & ? & [?|[[= <-] He]]); [do 3 (split; [done|]); by left|].
    do 3 (split; [done|]). left. unfold settled. rewrite Elink. by left.
Qed.
Lemma gen_each_reading top l : Forall (fun j => 0 <= j < top) l -> forall pending s, reading pending top s -> pending = None \/ pending = Some (top - 1) ->
  exists s', ss_each l gen_filepath s = (Ret tt, s') /\ reading (if decide (top - 1 ∈ l) then None else pending) top s'.
Proof.
  induction 1 as [|j l Hj Hl IH]; intros pending s Hr Hp; cbn [ss_each].
  - exists s. by rewrite decide_False by (by intros ?%elem_of_nil).
  - destruct (gen_filepath_reading _ _ _ j Hr Hp Hj) as (s1 & He & Hr1). destruct (IH _ _ Hr1) as (s2 & He2 & Hr2).
    { case_decide; [by left|exact Hp]. }
    exists s2. unfold pm_bind. rewrite He. split; [exact He2|].
    destruct (decide (top - 1 ∈ l)); [by rewrite decide_True by (by right)|]. destruct (decide (pending = Some j)) as [->|Hne].
    + destruct Hp as [|[= ->]]; [done|]. by rewrite decide_True by (by left).
    + destruct Hp as [->| ->]; [by destruct (decide _)|]. rewrite decide_False; [done|]. rewrite elem_of_cons. intros [?|?]; [congruence|done].
Qed.
Lemma keys_reading pending top s j : reading pending top s -> j ∈ dict_order (dom (s_mft s)) <-> 0 <= j < top.
Proof.
  intros [_ Hs]. rewrite order_all, elem_of_elements, elem_of_dom. specialize (Hs j). destruct (s_mft s !! j); [|by split; [intros [? ?]|]].
  split; [tauto|by eexists].
Qed.
Lemma gen_filepaths_reading pending top s : reading pending top s -> pending = None \/ pending = Some (top - 1) -> 0 <= top ->
  exists s', gen_filepaths dict_order s = (Ret tt, s') /\ reading None top s'.
Proof.
  intros Hr Hp Ht. unfold gen_filepaths, pm_bind, pm_get.
  destruct (gen_each_reading top (dict_order (dom (s_mft s)))) with pending s as (s' & -> & Hr'); [|done|done|].
  { apply Forall_forall. intros j Hj. by apply (keys_reading pending top s). }
  exists s'. split; [done|]. destruct (decide (top = 0)) as [->|].
  - destruct Hr' as [? Hs]. split; [done|]. intros n. specialize (Hs n). destruct (s_mft s' !! n); [lia|done].
  - rewrite decide_True in Hr'; [done|]. apply (keys_reading pending top s); [done|lia].
Qed.
Lemma update_reading top s : reading None top s -> 0 <= top < zlen raw / 1024 ->
  exists s', update_record parse_record dict_order top None s = (Ret tt, s') /\ reading None (top + 1) s'.
Proof.
  intros [Hraw Hs] Ht. unfold update_record. unfold pm_bind at 1 2 3 4, pm_ret, pm_get, pm_lift, pm_modify. rewrite Hraw, parses by lia.
  unfold _process_children. unfold pm_bind at 1 2, pm_get. cbn [s_mft set_mft_records]. rewrite lookup_insert_eq. cbn [m_parsed]. rewrite resident.
  cbn [pm_ret]. apply (gen_filepaths_reading (Some (top + 1 - 1))); [|by right|lia]. split; [done|]. intros n. cbn [s_mft set_mft_records].
  destruct (decide (n = top)) as [->|Hne].
  - rewrite lookup_insert_eq. split; [lia|]. do 2 (split; [done|]). right. split; [f_equal; lia|done].
  - rewrite lookup_insert_ne by done. specialize (Hs n). destruct (s_mft s !! n); [|lia]. destruct Hs as (? & ? & ? & [?|[? _]]); [|done].
    split; [lia|]. do 2 (split; [done|]). by left.
Qed.
Lemma update_all_reading (k : nat) top s : reading None top s -> 0 <= top -> top + Z.of_nat k <= zlen raw / 1024 ->
  exists s', ss_each (seqZ top (Z.of_nat k)) (fun i => update_record parse_record dict_order i None) s = (Ret tt, s') /\ reading None (top + Z.of_nat k) s'.
Proof.
  revert top s. induction k as [|k IH]; intros top s Hr H0 Hk.
  - rewrite Z.add_0_r. by exists s.
  - rewrite seqZ_cons by lia. cbn [ss_each]. destruct (update_reading top s Hr) as (s1 & He & Hr1); [lia|].
    unfold pm_bind. rewrite He. rewrite <- (Z.add_1_r top). replace (Z.pred (Z.of_nat (S k))) with (Z.of_nat k) by lia.
    destruct (IH (top + 1) s1 Hr1) as (s2 & -> & Hr2); [lia|lia|]. exists s2. split; [done|].
    by replace (top + Z.of_nat (S k)) with (top + 1 + Z.of_nat k) by lia.
Qed.
End paths.
(** [C21] Reading an MFT without attribute lists always ends, and gives every record that has a name
    exactly the path that follows from the parents: the root's entry, an orphan of its own, or the path of
    a directory whose record comes before.  A directory whose record comes later counts as missing: the
    paths are computed after every record and kept, so that the file stays an orphan. *)
Theorem session_paths parse_record dict_order raw precs :
  (forall n, 0 <= n < zlen raw / 1024 -> parse_record (slice raw (n * 1024) ((n + 1) * 1024)) = Ret (precs n)) ->
  (forall n, p_attribute_list (precs n) = None) ->
  (forall s, dict_order s ≡ₚ elements s) ->
  exists s, process_mft_file parse_record dict_order (Session raw ∅) = (Ret tt, s) /\
    forall n, 0 <= n < zlen raw / 1024 -> links precs n <> None ->
      m_filename <$> s_mft s !! n = Some (path_found (links precs) n).
Proof.
  intros Hparse Hres Hord. unfold process_mft_file. unfold pm_bind at 1 2, pm_get. cbn [MFT_RAW].
  assert (0 <= zlen raw / 1024) by (apply Z.div_pos; [apply zlen_nonneg|lia]). rewrite <- (Z2Nat.id (zlen raw / 1024)) by done.
  destruct (update_all_reading parse_record dict_order raw precs Hparse Hres Hord (Z.to_nat (zlen raw / 1024)) 0 (Session raw ∅)) as (s1 & -> & Hr1); [|lia|lia|].
  { split; [done|]. intros n. cbn. rewrite lookup_empty. lia. }
  destruct (gen_filepaths_reading dict_order raw precs Hord None _ s1 Hr1) as (s2 & He & [_ Hs]); [by left|lia|]. exists s2.
  split; [exact He|]. intros n Hn Hl. specialize (Hs n). destruct (s_mft s2 !! n) as [r|]; [|lia]. cbn [fmap option_fmap option_map].
  destruct Hs as (_ & _ & _ & [Hok|[? _]]); [|done]. unfold settled in Hok. destruct (links precs n) eqn:El; [by rewrite Hok|by destruct Hl].
Qed.
(** Seven records: record 2 is a file in directory 1, record 4 a file in directory 6, the others are in the root. *)
Definition four_records (r : bytes) : prec :=
  PRec (match r with
        | 0 :: _ => [(5, "$MFT", 3)] | 1 :: _ => [(5, "a", 3)] | 2 :: _ => [(1, "b", 3)] | 3 :: _ => [(5, "dir", 3)] | 4 :: _ => [(6, "lost", 3)]
        | _ => [(5, "late", 3)] end) [] None.
Definition seven_records : bytes := concat ((fun n => py_repeat n 1024) <$> [0; 1; 2; 3; 4; 5; 6]).
Lemma session_paths_witness : exists s, process_mft_file (fun r => Ret (four_records r)) elements (Session seven_records ∅) = (Ret tt, s) /\
  m_filename <$> s_mft s !! 2 = Some "/a/b" /\ m_filename <$> s_mft s !! 4 = Some "Orphan/lost".
Proof.
  destruct (session_paths (fun r => Ret (four_records r)) elements seven_records
    (fun n => four_records (slice seven_records (n * 1024) ((n + 1) * 1024)))) as (s & He & Hs).
  - done.
  - done.
  - done.
  - assert (Hz : zlen seven_records / 1024 = 7) by (vm_compute; reflexivity). exists s. split; [exact He|].
    split; (rewrite Hs; [vm_compute; reflexivity|rewrite Hz; lia|vm_compute; done]).
Defined.
