(* ===== verification/MemoryAnalysis.v ===== *)
(** Model of [lophi_semanticgap/memory/volatility_extensions.py] and [memory/__init__.py]: what is made
    of the output of Volatility's plugins, the clicking of buttons found in memory, and the process
    that runs plugins at intervals.  Volatility itself, its tables and what it finds are parameters.
    Theorems: the search for the module of an address, which buttons are clicked, and what the
    process reports; once paused it never reports again. *)
From Stdlib Require Import Sorting.Sorted.
From S2P Require Import Prelude PyString Filesystem FilesystemTheorems.

(** * Rendering *)

(** A window as Volatility gives it, and as it is reported: with the names of its classes.  The fields that are
    only copied are kept together. *)
Record wnd := Wnd { w_name : bytes; w_class_atom : Z; w_superclass_atom : Z; w_process : bytes; w_visible : bytes; w_left : Z; w_top : Z; w_rest : list (string * Z) }.
Record wdict := WDict { d_wnd : wnd; d_class : option bytes; d_superclass : option bytes }.
Abbreviation atom_table := (gmap Z bytes).
Record desktop := Desktop { dk_name : bytes; dk_windows : list wnd }.
Record winsta := Winsta { ws_session : Z; ws_name : bytes; ws_atom_table : atom_table; ws_desktops : list desktop }.
Section windows.
Context (DEFAULT_ATOMS : gmap Z bytes).
Fixpoint find_atom (table_list : list atom_table) (atom_id : Z) : option bytes :=
  match table_list with
  | [] => None
  | table :: table_list => match table !! atom_id with Some name => Some name | None => find_atom table_list atom_id end
  end.
(** The session's tables, those without a window station, come before the station's own. *)
Definition translate_atom (ws : winsta) (atom_tables : list (atom_table * bool)) (atom_id : Z) : option bytes :=
  match DEFAULT_ATOMS !! atom_id with
  | Some name => Some name
  | None => find_atom ((fst <$> filter (fun t => t.2 = false) atom_tables) ++ [ws_atom_table ws]) atom_id
  end.
Abbreviation hierarchy := (gmap Z (gmap bytes (gmap bytes (list wdict)))).
(** [output_dict[session][station][desktop]], created when it is missing *)
Definition add_windows (session : Z) (station desktop : bytes) (ws : list wdict) (out : hierarchy) : hierarchy :=
  let s := default ∅ (out !! session) in let w := default ∅ (s !! station) in let d := default [] (w !! desktop) in
  <[session := <[station := <[desktop := d ++ ws]> w]> s]> out.
Definition window_dict (ws : winsta) (atom_tables : list (atom_table * bool)) (w : wnd) : wdict :=
  WDict w (translate_atom ws atom_tables (w_class_atom w)) (translate_atom ws atom_tables (w_superclass_atom w)).
Definition _render_windows (data : list (winsta * list (atom_table * bool))) : hierarchy :=
  foldl (fun out wt => foldl (fun out d => add_windows (ws_session wt.1) (ws_name wt.1) (dk_name d) (window_dict wt.1 wt.2 <$> dk_windows d) out)
    out (ws_desktops wt.1)) ∅ data.
End windows.

(** A process: the fields of a row, or the failure to read one of them *)
Abbreviation task := (res (list bytes)).
Definition pslist_header : list string := ["Offset(V)"; "Name"; "Pid"; "PPid"; "Thds"; "Hnds"; "Time"].
(** A process whose fields cannot be read is left out. *)
Definition _render_pslist (data : list task) : list (list bytes) := omap (fun t => match t with Ret row => Some row | Raise _ => None end) data.

(** A module: base, size, name *)
Record kmodule := KModule { DllBase : Z; SizeOfImage : Z; BaseDllName : bytes }.
Definition find_module (modlist : gmap Z kmodule) (mod_addrs : list Z) (addr : Z) : res (option kmodule) :=
  match bisect mod_addrs addr with
  | O => Ret None
  | S pos =>
      let? base := of_option IndexError (mod_addrs !! pos) in
      let? m := of_option KeyError (modlist !! base) in
      Ret (if (DllBase m <=? addr) && (addr <? DllBase m + SizeOfImage m) then Some m else None)
  end.
(** A row of the system call table before it is made text *)
Record ssdt_row := SsdtRow { r_idx : Z; r_table : Z; r_count : Z; r_entry : Z; r_address : Z; r_name : bytes; r_owner : bytes }.
Record ssdt_table := SsdtTable { t_idx : Z; t_addr : Z; t_n : Z; t_valid : bool; t_read : Z -> Z; t_mods : gmap Z kmodule; t_addrs : list Z }.
Section ssdt.
Context (syscalls : list (list bytes)).
Definition syscall_name (idx i : Z) : bytes :=
  match (let? l := py_index syscalls idx in py_index l i) with Ret n => n | Raise _ => lit "Unknown" end.
Fixpoint table_rows (t : ssdt_table) (l : list Z) : res (list ssdt_row) :=
  match l with
  | [] => Ret []
  | i :: l =>
      let addr := t_read t (t_addr t + i * 4) in
      let? m := find_module (t_mods t) (t_addrs t) addr in
      let? rest := table_rows t l in
      Ret (SsdtRow (t_idx t) (t_addr t) (t_n t) (t_idx t * 4096 + i) addr (syscall_name (t_idx t) i) (match m with Some m => BaseDllName m | None => lit "UNKNOWN" end) :: rest)
  end.
(** For a table that is not in memory the code indexes the type [str]. *)
Fixpoint _render_ssdt (data : list ssdt_table) : res (list ssdt_row) :=
  match data with
  | [] => Ret []
  | t :: data =>
      let? rows := (if t_valid t then table_rows t (seqZ 0 (t_n t)) else Raise TypeError) in
      let? rest := _render_ssdt data in
      Ret (rows ++ rest)
  end.
End ssdt.

(** * Buttons *)

Record button := Button { b_name : bytes; b_process : bytes; b_visible : bytes; b_top : Z; b_left : Z }.
#[global] Instance button_eq_dec : EqDecision button.
Proof. solve_decision. Defined.
(** [buttons_prev] is an empty dictionary, [None], until buttons are listed. *)
Record clicker := Clicker { buttons_prev : option (list button); clicks : list (Z * Z) }.
(** [button in self.buttons_prev]: a dictionary has no hash. *)
Definition in_prev (b : button) (prev : option (list button)) : res bool :=
  match prev with Some l => Ret (bool_decide (b ∈ l)) | None => Raise TypeError end.
Definition bad_button_names : list bytes := lit <$> ["save"; "reject"; "print"; "decline"; "back"; "cancel"; "exit"; "close"].
(** [b in s] *)
Fixpoint is_infix (b s : bytes) : bool :=
  bool_decide (take (length b) s = b) || match s with [] => false | _ :: s => is_infix b s end.
Definition _is_bad_button (name : bytes) : bool := existsb (fun b => is_infix (lower b) (lower name)) bad_button_names.
Definition is_button (w : wdict) : bool :=
  (w_superclass_atom (d_wnd w) =? 0xc017) || (w_class_atom (d_wnd w) =? 0xc061) ||
  bool_decide (d_class w = Some (lit "Button")) || bool_decide (d_superclass w = Some (lit "Button")).
Definition button_of (w : wdict) : button := let w := d_wnd w in Button (w_name w) (w_process w) (w_visible w) (w_top w) (w_left w).
Section clicking.
(** The order of dictionaries *)
Context (items_z : forall A, gmap Z A -> list A) (items_b : forall A, gmap bytes A -> list A).
Definition _get_buttons (windows : gmap Z (gmap bytes (gmap bytes (list wdict)))) : list button :=
  button_of <$> filter (fun w => is_button w = true) (concat (concat ((fun s => concat ((fun w => items_b _ w) <$> items_b _ s)) <$> items_z _ windows))).
Definition update_buttons (windows : gmap Z (gmap bytes (gmap bytes (list wdict)))) (c : clicker) : clicker := Clicker (Some (_get_buttons windows)) (clicks c).
Fixpoint click_loop (process : option bytes) (new_only : bool) (buttons clicked : list button) : PM clicker (list button) :=
  match buttons with
  | [] => pm_ret clicked
  | b :: buttons =>
      if bool_decide (is_Some process) && negb (bool_decide (process = Some (b_process b))) then click_loop process new_only buttons clicked
      else
        let! old := (if new_only then let! prev := pm_get buttons_prev in pm_lift (in_prev b prev) else pm_ret false) in
        if (old : bool) then click_loop process new_only buttons clicked
        else if _is_bad_button (b_name b) then click_loop process new_only buttons clicked
        else
          pm_modify (fun c => Clicker (buttons_prev c) (clicks c ++ [(b_left b, b_top b)])) ;!
          click_loop process new_only buttons (clicked ++ [b])
  end.
Definition click_buttons (windows : gmap Z (gmap bytes (gmap bytes (list wdict)))) (process : option bytes) (new_only : bool) : PM clicker (list button) :=
  let buttons := _get_buttons windows in
  let! clicked := click_loop process new_only buttons [] in
  pm_modify (fun c => Clicker (Some buttons) (clicks c)) ;! pm_ret clicked.
End clicking.

(** * Running plugins *)

(** The outcome of [execute_plugin]: a dictionary, the text of a plugin without a renderer, or [False] for a name
    that is not a plugin (the rendering of screenshots, which may give nothing without the imaging library, is taken to succeed) *)
Inductive output := OutDict (data : bytes) | OutText (text : bytes) | OutFalse.
Definition MODULE_MAP : list bytes := lit <$> ["pslist"; "ssdt"; "windows"; "screenshot"].
Record wrapper := Wrapper { command_objs : gset bytes; addr_space_loaded : bool; lophi_cache : bool }.
Section wrapper.
Context (PLUGIN_COMMANDS : gset bytes) (load_as : res unit) (calculate : bytes -> res bytes).
Definition execute_plugin (plugin_name : bytes) : PM wrapper output :=
  if negb (bool_decide (plugin_name ∈ PLUGIN_COMMANDS)) then pm_ret OutFalse else
  pm_modify (fun w => Wrapper ({[plugin_name]} ∪ command_objs w) (addr_space_loaded w) (lophi_cache w)) ;!
  let! loaded := pm_get addr_space_loaded in
  (if loaded then pm_ret tt
   else pm_lift load_as ;! pm_modify (fun w => Wrapper (command_objs w) true (lophi_cache w))) ;!
  pm_modify (fun w => Wrapper (command_objs w) (addr_space_loaded w) true) ;!
  let! data := pm_lift (calculate plugin_name) in
  pm_modify (fun w => Wrapper (command_objs w) (addr_space_loaded w) false) ;!
  pm_ret (if bool_decide (plugin_name ∈ MODULE_MAP) then OutDict data else OutText data).
End wrapper.

(** The process: the plugins to run, whether it is paused, and what it has reported *)
Record vengine := VEngine { plugins : list bytes; PAUSED : bool; reported_outputs : list (bytes * bytes) }.
Definition set_plugins x e := VEngine x (PAUSED e) (reported_outputs e).
Definition remove_first (x : bytes) (l : list bytes) : option (list bytes) :=
  '(i, _) ← list_find (fun y => y = x) l; Some (take i l ++ drop (S i) l).
(** A command, [None] when there is none; [true] ends the loop.  Every exception is caught: also that of
    the misspelt [logger.deubg], before [PAUSED] is reset. *)
Definition on_command (cmd : option (list bytes)) (e : vengine) : vengine * bool :=
  match cmd with
  | None => (e, false)
  | Some [] => (e, false)
  | Some (verb :: rest) =>
      if bool_decide (verb = lit "addmodule") then
        (match rest with m :: _ => set_plugins (plugins e ++ [m]) e | [] => e end, false)
      else if bool_decide (verb = lit "delmodule") then
        (match rest with m :: _ => match remove_first m (plugins e) with Some l => set_plugins l e | None => e end | [] => e end, false)
      else if bool_decide (verb = lit "pause") then (VEngine (plugins e) true (reported_outputs e), false)
      else if bool_decide (verb = lit "resume") then (e, false)
      else (e, bool_decide (verb = lit "kill") || bool_decide (verb = lit "stop"))
  end.
Section engine.
(** What a plugin gives in a round *)
Context (execute : bytes -> res output).
(** Only a dictionary can be told its module; the exception ends the process. *)
Fixpoint run_plugins (l : list bytes) (e : vengine) : res unit * vengine :=
  match l with
  | [] => (Ret tt, e)
  | p :: l =>
      match execute p with
      | Ret (OutDict d) => run_plugins l (VEngine (plugins e) (PAUSED e) (reported_outputs e ++ [(p, d)]))
      | Ret _ => (Raise TypeError, e)
      | Raise x => (Raise x, e)
      end
  end.
End engine.
(** A round: the command that is waiting and what plugins give *)
Fixpoint engine_rounds (rounds : list (option (list bytes) * (bytes -> res output))) (e : vengine) : res unit * vengine :=
  match rounds with
  | [] => (Ret tt, e)
  | (cmd, execute) :: rounds =>
      let '(e, stop) := on_command cmd e in
      if stop then (Ret tt, e)
      else if PAUSED e then engine_rounds rounds e
      else match run_plugins execute (plugins e) e with
           | (Ret _, e) => engine_rounds rounds e
           | r => r
           end
  end.
Definition engine_run (rounds : list (option (list bytes) * (bytes -> res output))) (e : vengine) : res unit * vengine :=
  if bool_decide (plugins e = []) then (Ret tt, e) else engine_rounds rounds e.

(** * Modules of addresses *)

(** The list of base addresses that belongs to a table of modules which do not overlap *)
Definition modules_ok (modlist : gmap Z kmodule) (mod_addrs : list Z) : Prop :=
  StronglySorted Z.le mod_addrs /\ (forall b, b ∈ mod_addrs <-> is_Some (modlist !! b)) /\ map_Forall (fun b m => DllBase m = b) modlist /\
  (forall b1 b2 m1 m2, modlist !! b1 = Some m1 -> modlist !! b2 = Some m2 -> b1 < b2 -> b1 + SizeOfImage m1 <= b2).
Lemma find_module_spec modlist mod_addrs addr : modules_ok modlist mod_addrs ->
  exists r, find_module modlist mod_addrs addr = Ret r /\
    forall m, r = Some m <-> (exists b, modlist !! b = Some m) /\ DllBase m <= addr < DllBase m + SizeOfImage m.
Proof.
  intros (Hs & Hkeys & Hbase & Hdis). destruct (bisect_spec mod_addrs addr Hs) as [Hle Hspec]. unfold find_module.
  assert (Hpos : forall b, is_Some (modlist !! b) -> b <= addr -> exists i, mod_addrs !! i = Some b /\ (i < bisect mod_addrs addr)%nat).
  { intros b Hb Hba. apply Hkeys, list_elem_of_lookup in Hb as [i Hi]. exists i. split; [done|]. by apply (Hspec i b Hi). }
  destruct (bisect mod_addrs addr) as [|pos] eqn:Hbis.
  - exists None. split; [done|]. intros m. split; [done|]. intros [[b Hb] Hr]. pose proof (Hbase b m Hb) as Heq. cbn in Heq.
    destruct (Hpos b) as (i & _ & ?); [by eexists|lia|lia].
  - destruct (lookup_lt_is_Some_2 mod_addrs pos) as [base Hb]; [lia|]. rewrite Hb. cbn [of_option res_bind].
    destruct (proj1 (Hkeys base)) as [m0 Hm0]; [by eapply list_elem_of_lookup_2|]. rewrite Hm0. cbn [of_option res_bind].
    assert (base <= addr) by (apply (Hspec pos base Hb); lia). pose proof (Hbase base m0 Hm0) as Heq. cbn in Heq.
    eexists. split; [done|]. intros m. rewrite Heq, (proj2 (Z.leb_le _ _)) by done. cbn [andb]. destruct (Z.ltb_spec addr (base + SizeOfImage m0)) as [Hlt|Hge].
    + split; [intros [= <-]; split; [by exists base|lia]|]. intros [[b Hbm] Hr]. pose proof (Hbase b m Hbm) as Heqm. cbn in Heqm.
      assert (b = base) as ->; [|congruence].
      destruct (Z.lt_trichotomy b base) as [?|[?|?]]; [|done|].
      * pose proof (Hdis b base m m0 Hbm Hm0). lia.
      * pose proof (Hdis base b m0 m Hm0 Hbm). lia.
    + split; [done|]. intros [[b Hbm] Hr]. pose proof (Hbase b m Hbm) as Heqm. cbn in Heqm.
      destruct (Hpos b) as (i & Hi & Hlt); [by eexists|lia|].
      destruct (Z.lt_trichotomy b base) as [?|[->|?]].
      * pose proof (Hdis b base m m0 Hbm Hm0). lia.
      * rewrite Hm0 in Hbm. injection Hbm as <-. lia.
      * assert (i <= pos)%nat as Hip by lia. destruct (decide (i = pos)) as [->|]; [assert (b = base) by congruence; lia|].
        assert (b <= base); [|lia].
        apply (sorting.StronglySorted_app_1_elem_of Z.le (take (S i) mod_addrs) (drop (S i) mod_addrs)); [by rewrite take_drop|..].
        -- eapply list_elem_of_lookup_2. rewrite lookup_take_lt; [exact Hi|lia].
        -- eapply (list_elem_of_lookup_2 _ (pos - S i)). rewrite lookup_drop. by replace (S i + (pos - S i))%nat with pos by lia.
Qed.
(** A table that is not in memory makes the whole rendering raise. *)
Lemma absent_table_raises syscalls data t rest : t_valid t = false -> Forall (fun t => t_valid t = true /\ modules_ok (t_mods t) (t_addrs t)) data ->
  _render_ssdt syscalls (data ++ t :: rest) = Raise TypeError.
Proof.
  intros Ht. induction 1 as [|u data [Hu Hok] _ IH]; cbn [_render_ssdt app]; [by rewrite Ht|].
  rewrite Hu, IH. assert (Hrows : forall l, exists rows, table_rows syscalls u l = Ret rows).
  { induction l as [|i l [rows Hl]]; [by eexists|]. cbn [table_rows].
    destruct (find_module_spec (t_mods u) (t_addrs u) (t_read u (t_addr u + i * 4)) Hok) as (r & -> & _). cbn [res_bind]. rewrite Hl. by eexists. }
  destruct (Hrows (seqZ 0 (t_n u))) as [rows ->]. done.
Qed.

(** * Clicking *)

Lemma is_infix_spec b s : is_infix b s = true <-> exists x y, s = x ++ b ++ y.
Proof.
  assert (Htake : forall s : bytes, take (length b) s = b <-> exists y, s = b ++ y).
  { intros t. split; [intros H; exists (drop (length b) t); rewrite <- H at 1; by rewrite take_drop|]. intros [y ->]. by rewrite take_app_length. }
  induction s as [|c s IH]; cbn [is_infix].
  - rewrite orb_false_r, bool_decide_eq_true, Htake. split; [intros [y ->]; by exists [], y|]. intros (x & y & Hxy). destruct x; [by exists y|done].
  - rewrite orb_true_iff, bool_decide_eq_true, Htake, IH. split.
    + intros [[y ->]|(x & y & ->)]; [by exists [], y|by exists (c :: x), y].
    + intros (x & y & Hxy). destruct x as [|c' x]; [left; by exists y|right]. injection Hxy as -> ->. by exists x, y.
Qed.
Lemma bad_button_spec name : _is_bad_button name = false <-> Forall (fun bad => ~ exists x y, lower name = x ++ lower bad ++ y) bad_button_names.
Proof.
  unfold _is_bad_button. rewrite <- not_true_iff_false, existsb_exists, Forall_forall. setoid_rewrite is_infix_spec. setoid_rewrite <- list_elem_of_In. naive_solver.
Qed.
(** The process asked for, if any *)
Definition of_process (process : option bytes) (b : button) : Prop := match process with Some p => b_process b = p | None => True end.
#[global] Instance of_process_dec process b : Decision (of_process process b).
Proof. destruct process; cbn; apply _. Defined.
(** No bad word is part of the name. *)
Definition harmless (name : bytes) : Prop := Forall (fun bad => ~ exists x y, lower name = x ++ lower bad ++ y) bad_button_names.
#[global] Instance harmless_dec name : Decision (harmless name).
Proof. destruct (_is_bad_button name) eqn:E; [right|left]; unfold harmless; rewrite <- bad_button_spec; congruence. Defined.
(** What is to be clicked, given the buttons that are not new *)
Definition wanted_button (process : option bytes) (old : list button) (b : button) : Prop :=
  of_process process b /\ b ∉ old /\ harmless (b_name b).
Definition corner (b : button) : Z * Z := (b_left b, b_top b).

Lemma process_guard process b : bool_decide (is_Some process) && negb (bool_decide (process = Some (b_process b))) = bool_decide (~ of_process process b).
Proof.
  destruct process as [p|]; [|done]. rewrite bool_decide_eq_true_2 by (by eexists). cbn [andb of_process]. rewrite <- bool_decide_not.
  apply bool_decide_ext. naive_solver.
Qed.
Lemma click_loop_spec process new_only old l : forall c clicked, (new_only = true -> buttons_prev c = Some old) -> (new_only = false -> old = []) ->
  click_loop process new_only l clicked c =
  (Ret (clicked ++ filter (wanted_button process old) l), Clicker (buttons_prev c) (clicks c ++ (corner <$> filter (wanted_button process old) l))).
Proof.
  induction l as [|b l IH]; intros c clicked H1 H0; cbn [click_loop].
  - rewrite filter_nil, fmap_nil, !app_nil_r. by destruct c.
  - rewrite filter_cons, process_guard. case_bool_decide as Hp; [by rewrite decide_False; [apply IH|by intros [? _]]|].
    assert ((if new_only then let! prev := pm_get buttons_prev in pm_lift (in_prev b prev) else pm_ret false) c = (Ret (bool_decide (b ∈ old)), c)) as Hold.
    { destruct new_only; [unfold pm_bind, pm_get, pm_lift; by rewrite H1|]. rewrite H0 by done. rewrite bool_decide_eq_false_2; [done|apply not_elem_of_nil]. }
    unfold pm_bind at 1. rewrite Hold. case_bool_decide as Hin; [by rewrite decide_False; [apply IH|by intros (_ & ? & _)]|].
    destruct (_is_bad_button (b_name b)) eqn:Hb.
    { rewrite decide_False; [by apply IH|]. intros (_ & _ & Hh%bad_button_spec). congruence. }
    rewrite decide_True; [|unfold wanted_button; split_and!; [done|done|by apply bad_button_spec]].
    unfold pm_bind, pm_modify. rewrite IH by done. cbn [clicks buttons_prev]. by rewrite fmap_cons, <- !app_assoc.
Qed.
Lemma click_loop_unlisted process l c clicked : buttons_prev c = None ->
  click_loop process true l clicked c = (if decide (filter (of_process process) l = []) then Ret clicked else Raise TypeError, c).
Proof.
  intros Hc. induction l as [|b l IH]; cbn [click_loop]; [by rewrite filter_nil, decide_True|].
  rewrite filter_cons, process_guard. case_bool_decide as Hp; [by rewrite (decide_False (P := of_process process b))|].
  rewrite (decide_True (P := of_process process b)), decide_False by done. unfold pm_bind, pm_get, pm_lift. by rewrite Hc.
Qed.

(** All windows: of all sessions, stations and desktops *)
Definition windows_of (windows : gmap Z (gmap bytes (gmap bytes (list wdict)))) : list wdict :=
  (map_to_list windows).*2 ≫= fun session => (map_to_list session).*2 ≫= fun station => (map_to_list station).*2 ≫= id.
Lemma bind_perm {A B} (f g : A -> list B) l l' : l ≡ₚ l' -> (forall x, f x ≡ₚ g x) -> l ≫= f ≡ₚ l' ≫= g.
Proof. intros Hl Hf. rewrite Hl. clear Hl l. induction l' as [|x l IH]; [done|]. cbn. by rewrite Hf, IH. Qed.
Lemma concat_concat {A B} (f : A -> list (list B)) l : concat (concat (f <$> l)) = l ≫= fun x => concat (f x).
Proof. induction l as [|x l IH]; [done|]. cbn. by rewrite concat_app, IH. Qed.
Lemma concat_id {A} (l : list (list A)) : concat l = l ≫= id.
Proof. induction l as [|x l IH]; [done|]. cbn. by rewrite IH. Qed.
Section buttons.
Context (items_z : forall A, gmap Z A -> list A) (items_b : forall A, gmap bytes A -> list A).
Hypothesis (items_z_ok : forall A m, items_z A m ≡ₚ snd <$> map_to_list m) (items_b_ok : forall A m, items_b A m ≡ₚ snd <$> map_to_list m).
Lemma get_buttons_perm windows :
  _get_buttons items_z items_b windows ≡ₚ button_of <$> filter (fun w => is_button w = true) (windows_of windows).
Proof.
  unfold _get_buttons, windows_of. apply fmap_Permutation, filter_Permutation. rewrite concat_concat.
  apply bind_perm; [apply items_z_ok|]. intros ses. rewrite concat_concat. apply bind_perm; [apply items_b_ok|]. intros st.
  rewrite concat_id. by apply bind_perm; [apply items_b_ok|].
Qed.
(** [C22] The buttons clicked are exactly the windows of the button classes, in any session and on any desktop, that belong
    to the process asked for, are new if only new ones are wanted, and have no word of the list of bad ones in their
    name; each such window is clicked exactly once at its corner, and all buttons seen are kept for the next time.  But when
    only new ones are wanted and no buttons have been listed before, the first button of the process ends the call with
    TypeError, and nothing is clicked. *)
Theorem buttons_clicked windows process (new_only : bool) c :
  let buttons := button_of <$> filter (fun w => is_button w = true) (windows_of windows) in
  match (if new_only then buttons_prev c else Some []) with
  | None =>
      if decide (filter (of_process process) buttons = [])
      then exists seen, click_buttons items_z items_b windows process new_only c = (Ret [], Clicker (Some seen) (clicks c)) /\ seen ≡ₚ buttons
      else click_buttons items_z items_b windows process new_only c = (Raise TypeError, c)
  | Some old =>
      exists clicked seen, click_buttons items_z items_b windows process new_only c =
        (Ret clicked, Clicker (Some seen) (clicks c ++ (corner <$> clicked))) /\
        clicked ≡ₚ filter (wanted_button process old) buttons /\ seen ≡ₚ buttons
  end.
Proof.
  intros buttons. pose proof (get_buttons_perm windows) as Hb. fold buttons in Hb. unfold click_buttons, pm_bind.
  destruct (if new_only then buttons_prev c else Some []) as [old|] eqn:Ho.
  - rewrite (click_loop_spec _ _ old) by (destruct new_only; congruence). eexists _, _. split; [done|]. cbn [app]. by rewrite Hb.
  - destruct new_only; [|done]. rewrite click_loop_unlisted by done.
    assert (filter (of_process process) (_get_buttons items_z items_b windows) ≡ₚ filter (of_process process) buttons) as Hf by (by rewrite Hb).
    destruct (decide (filter (of_process process) buttons = [])) as [He|He].
    + rewrite decide_True; [by eexists|]. rewrite He in Hf. by apply Permutation_nil_r in Hf.
    + rewrite decide_False; [done|]. intros E. rewrite E in Hf. by apply Permutation_nil_l in Hf.
Qed.
End buttons.

(** * Reports *)

Lemma paused_reports rounds : forall e, PAUSED e = true ->
  exists e', engine_rounds rounds e = (Ret tt, e') /\ reported_outputs e' = reported_outputs e.
Proof.
  induction rounds as [|[cmd ex] rounds IH]; intros e He; cbn [engine_rounds]; [by exists e|].
  destruct (on_command cmd e) as [e1 stop] eqn:Hc.
  assert (H1 : PAUSED e1 = true /\ reported_outputs e1 = reported_outputs e).
  { unfold on_command in Hc. destruct cmd as [[|verb rest]|]; [by injection Hc as <- <-| |by injection Hc as <- <-].
    repeat (case_bool_decide; [injection Hc as <- <-|]); repeat case_match; simplify_eq/=; by split. }
  destruct H1 as [H1 Hr]. destruct stop; [by exists e1|]. rewrite H1. destruct (IH e1 H1) as (e' & -> & He'). exists e'. split; [done|congruence].
Qed.
(** A memory analysis that was paused never reports again: whatever commands follow, resuming included, no
    plugin is run any more, until the process is stopped. *)
Theorem paused_for_good ex rest rounds e :
  exists e', engine_rounds ((Some (lit "pause" :: rest), ex) :: rounds) e = (Ret tt, e') /\ reported_outputs e' = reported_outputs e.
Proof.
  cbn [engine_rounds]. unfold on_command. rewrite !bool_decide_false by (by vm_compute). rewrite bool_decide_true by done.
  destruct (paused_reports rounds (VEngine (plugins e) true (reported_outputs e)) eq_refl) as (e' & He & Hr). exists e'.
  split; [exact He|exact Hr].
Qed.
Lemma run_plugins_all ex l (out : bytes -> bytes) : forall e, Forall (fun p => ex p = Ret (OutDict (out p))) l ->
  run_plugins ex l e = (Ret tt, VEngine (plugins e) (PAUSED e) (reported_outputs e ++ ((fun p => (p, out p)) <$> l))).
Proof.
  induction l as [|p l IH]; intros e Hl; cbn [run_plugins]; [rewrite app_nil_r; by destruct e|].
  apply Forall_cons in Hl as [-> Hl]. rewrite IH by done. cbn. by rewrite <- app_assoc.
Qed.
(** Without commands, every round reports what each plugin gives, in the order of the plugins. *)
Lemma rounds_report outs : forall e, PAUSED e = false ->
  engine_rounds ((fun out => (None, fun p => Ret (OutDict (out p)))) <$> outs) e =
    (Ret tt, VEngine (plugins e) false (reported_outputs e ++ concat ((fun out => (fun p => (p, out p)) <$> plugins e) <$> outs))).
Proof.
  induction outs as [|out outs IH]; intros e He; cbn [engine_rounds fmap list_fmap concat]; [rewrite app_nil_r; destruct e; cbn in He; by rewrite He|].
  cbn [on_command]. rewrite He. rewrite (run_plugins_all _ _ out) by (by apply Forall_forall).
  specialize (IH (VEngine (plugins e) (PAUSED e) (reported_outputs e ++ ((fun p => (p, out p)) <$> plugins e))) He). cbn in IH. rewrite IH.
  by rewrite <- app_assoc.
Qed.
(** A plugin without a renderer, or a name that is not one, ends the process when its turn comes. *)
Lemma plain_plugin_ends ex before p after out e : Forall (fun p => ex p = Ret (OutDict (out p))) before ->
  (exists t, ex p = Ret (OutText t)) \/ ex p = Ret OutFalse -> (run_plugins ex (before ++ p :: after) e).1 = Raise TypeError.
Proof.
  intros Hb Hp. revert e. induction Hb as [|q before Hq _ IH]; intros e; cbn [run_plugins app].
  - by destruct Hp as [[t ->]| ->].
  - rewrite Hq. apply IH.
Qed.
Lemma unrendered_text cmds load calc p w w' o : p ∉ MODULE_MAP -> execute_plugin cmds load calc p w = (Ret o, w') -> o = OutFalse \/ exists t, o = OutText t.
Proof.
  intros Hp. unfold execute_plugin. case_bool_decide; cbn [negb]; [|intros [= <- <-]; by left].
  unfold pm_bind, pm_modify, pm_get, pm_lift, pm_ret. cbn. rewrite bool_decide_false by done. destruct (addr_space_loaded w), load, (calc p); cbn; intros H1; try done;
    injection H1 as <- <-; right; by eexists.
Qed.

Definition demo_windows : gmap Z (gmap bytes (gmap bytes (list wdict))) :=
  _render_windows ∅ [(Winsta 0 (lit "WinSta0") {[0xc017 := lit "Button"]} [Desktop (lit "Default")
    [Wnd (lit "Install") 1 0xc017 (lit "setup.exe") (lit "Yes") 10 20 []; Wnd (lit "&Cancel") 1 0xc017 (lit "setup.exe") (lit "Yes") 30 20 []]], [])].
Definition all_z (A : Type) (m : gmap Z A) : list A := snd <$> map_to_list m.
Definition all_b (A : Type) (m : gmap bytes A) : list A := snd <$> map_to_list m.
Lemma buttons_clicked_witness :
  (exists seen, click_buttons all_z all_b demo_windows None true (update_buttons all_z all_b ∅ (Clicker None [])) =
    (Ret [Button (lit "Install") (lit "setup.exe") (lit "Yes") 20 10], Clicker (Some seen) [(10, 20)])) /\
  click_buttons all_z all_b demo_windows None true (Clicker None []) = (Raise TypeError, Clicker None []).
Proof.
  split.
  - destruct (buttons_clicked all_z all_b (fun _ _ => reflexivity _) (fun _ _ => reflexivity _) demo_windows None true (Clicker (Some []) []))
      as (clicked & seen & He & Hc & _). exists seen. change (update_buttons _ _ _ _) with (Clicker (Some []) []). rewrite He.
    assert (clicked = [Button (lit "Install") (lit "setup.exe") (lit "Yes") 20 10]) as ->; [|done].
    apply Permutation_singleton_r. rewrite Hc. vm_compute. reflexivity.
  - exact (buttons_clicked all_z all_b (fun _ _ => reflexivity _) (fun _ _ => reflexivity _) demo_windows None true (Clicker None [])).
Defined.
