(* ===== verification/DiskEngine.v ===== *)
(** Model of [lophi_semanticgap/disk/__init__.py]: the process that joins the SATA decoder,
    the reconstructor and the semantic engine and reports file operations.  Theorems: how
    operations on neighbouring sectors are merged, what is reported for a virtual machine
    under any commands, and that the process of a physical one ends at its first frame. *)
From stdpp Require Import pretty.
From Stdlib Require Import Strings.Ascii.
From S2P Require Import Prelude Struct DataStruct Sata SataReconstructor NcqRefinement Filesystem.

(** * Reports *)

Ltac solve_dsp :=
  unfold get_int, getattr; cbn [dict dsp]; unfold dsp_dict;
  rewrite !lookup_insert_ne by discriminate; by rewrite lookup_insert_eq.

(** A row of the output: time, operation, file, sector and note *)
Record row := Row { r_time : Z; r_op : string; r_file : option string; r_sector : Z; r_note : string }.

(** The same inode and the next sector *)
Definition continues (current op : fsop) (last_sector : Z) : Prop :=
  o_inode op = o_inode current /\ o_sector op = last_sector + 1.
#[global] Instance inode_ref_eq_dec : EqDecision inode_ref.
Proof. solve_decision. Defined.
#[global] Instance continues_dec current op last : Decision (continues current op last) :=
  ltac:(unfold continues; apply _).
(** [current_action['raw_data'] = current_action['raw_data'] + fs_op['raw_data']] *)
Definition append_raw (current op : fsop) : fsop :=
  _fs_operation (o_sector current) (o_op current) (o_op_type current) (o_inode current) (o_filename current)
    (o_raw_data current ++ o_raw_data op) (o_semantic_data current).
Fixpoint aggregate_loop (ops : list fsop) (current : fsop) (last_sector : Z) : list fsop :=
  match ops with
  | [] => [current]
  | op :: ops =>
      if decide (continues current op last_sector)
      then aggregate_loop ops (append_raw current op) (last_sector + 1)
      else current :: aggregate_loop ops op (o_sector op)
  end.
Definition aggregate (ops : list fsop) : list fsop :=
  match ops with [] => [] | op :: ops => aggregate_loop ops op (o_sector op) end.

(** [s.upper()], [str(x)] *)
Definition upper_ascii (c : ascii) : ascii :=
  let n := nat_of_ascii c in if (97 <=? n)%nat && (n <=? 122)%nat then ascii_of_nat (n - 32) else c.
Fixpoint upper_string (s : string) : string :=
  match s with EmptyString => EmptyString | String c s => String (upper_ascii c) (upper_string s) end.
Definition str_mval (x : mval) : string :=
  match x with MInt z => pretty z | MStr (Some s) => s | MStr None => "None" end.

Section engine.
(** [time.strftime('%Y-%m-%d %H:%M:%S', time.localtime(x))] *)
Context (strftime : mval -> res string).

Definition change_row (timestamp sector : Z) (filename : option string) (c : string * (mval * mval)) : res row :=
  let '(change, (new, old)) := c in
  let? no := (if bool_decide (change ∈ ["atime"; "mtime"; "ctime"])
              then let? o := strftime old in let? n := strftime new in Ret (n, o)
              else Ret (str_mval new, str_mval old)) in
  Ret (Row timestamp ("[" +:+ upper_string change +:+ " MODIFIED]") filename sector (no.2 +:+ " -> " +:+ no.1)).
Fixpoint map_res {A B} (f : A -> res B) (l : list A) : res (list B) :=
  match l with [] => Ret [] | x :: l => let? y := f x in let? ys := map_res f l in Ret (y :: ys) end.
Definition diff_rows (timestamp sector : Z) (sd : diff) : res (list row) :=
  map_res (change_row timestamp sector (d_filename sd)) (default [] (d_changes sd)).
Definition action_rows (timestamp : Z) (a : fsop) : res (list row) :=
  let? rs := map_res (diff_rows timestamp (o_sector a)) (o_semantic_data a) in
  Ret (Row timestamp (o_op_type a) (Some (o_filename a)) (o_sector a) "" :: concat rs).
(** What is put into the output queue, if anything *)
Definition parse_actions (timestamp : Z) (fs_operations : option (list fsop)) : res (option (list row)) :=
  match fs_operations with
  | None | Some [] => Ret None
  | Some ops => let? rs := map_res (action_rows timestamp) (aggregate ops) in Ret (Some (concat rs))
  end.

(** * The process *)

(** The semantic engine, with its own state *)
Context {E : Type} (get_access : Z -> Z -> Z -> bytes -> PM E (option (list fsop))).
Context (physical : bool).

(** What [disk_get_packet] gives: nothing, an object, or an exception *)
Inductive fetched := FNone | FData (d : dstruct) | FClosed.
(** A round of the loop: the command waiting in the queue, what the disk's [_connect] or
    [_disconnect] does, the time at each packet of the round and what is fetched *)
Record round := Round { command : option string; disk_call : res unit; now : nat -> Z; fetch : fetched }.

Record dengine := DEngine {
  PAUSED : bool; RUNNING : bool; e_recon : recon; e_sem : E; output_queue : list (list row)
}.
Definition set_paused x (s : dengine) := DEngine x (RUNNING s) (e_recon s) (e_sem s) (output_queue s).
Definition set_running x (s : dengine) := DEngine (PAUSED s) x (e_recon s) (e_sem s) (output_queue s).
Definition set_recon x (s : dengine) := DEngine (PAUSED s) (RUNNING s) x (e_sem s) (output_queue s).
Definition set_sem x (s : dengine) := DEngine (PAUSED s) (RUNNING s) (e_recon s) x (output_queue s).
Definition report_output x (s : dengine) := DEngine (PAUSED s) (RUNNING s) (e_recon s) (e_sem s) (output_queue s ++ [x]).
Abbreviation M := (PM dengine).

(** The first word of a command *)
Fixpoint first_word (s : string) : string :=
  match s with
  | EmptyString => EmptyString
  | String c s => if bool_decide (c = " "%char) then EmptyString else String c (first_word s)
  end.
(** The commands; [true] when the loop is left. An exception of the disk is swallowed and
    with it the [break]. *)
Definition accept_command (r : round) : M bool :=
  match command r with
  | None => pm_ret false
  | Some c =>
      let ok := match disk_call r with Ret _ => true | Raise _ => false end in
      if bool_decide (first_word c = "pause") then pm_modify (set_paused true) ;! pm_ret false
      else if bool_decide (first_word c = "resume") then pm_modify (set_paused false) ;! pm_ret false
      else if bool_decide (first_word c ∈ ["kill"; "stop"]) then pm_modify (set_running false) ;! pm_ret ok
      else pm_ret false
  end.

(** The packets a fetch gives *)
Definition packets_of (r : round) : M (list dstruct) :=
  match fetch r with
  | FNone | FClosed => pm_ret []
  | FData d =>
      if negb physical then pm_ret [d] else
      let! raw := pm_lift (__repr__ d) in
      let! hd := pm_lift (extract_sata_data module_globals raw) in
      let! hd := pm_lift (of_option TypeError hd) in
      fun s => let (r, recon') := process_packet (PhysicalPacket hd.1 hd.2) (e_recon s) in
               (match r with Ret pkts => Ret (default [] pkts) | Raise e => Raise e end, set_recon recon' s)
  end.
(** One access: its attributes, the engine and the report, with all exceptions logged *)
Definition access_packet (t : Z) (d : dstruct) : M unit :=
  let! sector := pm_lift (get_int d "sector") in
  let! num_sectors := pm_lift (get_int d "num_sectors") in
  let! disk_operation := pm_lift (get_int d "disk_operation") in
  let! data := pm_lift (data_str d) in
  fun s => let (r, sem) := get_access sector num_sectors disk_operation data (e_sem s) in
           let s := set_sem sem s in
           match r with
           | Raise e => (Raise e, s)
           | Ret ops => match parse_actions t ops with
                        | Raise e => (Raise e, s)
                        | Ret None => (Ret tt, s)
                        | Ret (Some rows) => (Ret tt, report_output rows s)
                        end
           end.
Fixpoint process_packets (t : nat -> Z) (ds : list dstruct) : M unit :=
  match ds with
  | [] => pm_ret tt
  | d :: ds =>
      (if (__len__ d =? 0)%nat then pm_ret tt else pm_catch (access_packet (t 0%nat) d) (fun _ => pm_ret tt)) ;!
      process_packets (fun n => t (S n)) ds
  end.

(** Whether the process still waits for input, has left its loop, or died of an exception *)
Inductive ending := Waiting | Ended | Died (e : pyexc).
Fixpoint run (rounds : list round) (s : dengine) : ending * dengine :=
  match rounds with
  | [] => (if RUNNING s then Waiting else Ended, s)
  | r :: rounds =>
      if negb (RUNNING s) then (Ended, s) else
      match accept_command r s with
      | (Ret true, s) => (Ended, s)
      | (Ret false, s) =>
          if PAUSED s then run rounds s else
          match fetch r with
          | FClosed => (Ended, s)
          | _ =>
              match (let! ds := packets_of r in process_packets (now r) ds) s with
              | (Ret _, s) => run rounds s
              | (Raise e, s) => (Died e, s)
              end
          end
      | (Raise e, s) => (Died e, s)
      end
  end.
End engine.

(** ** The image that is scanned *)

Record image_source := ImageSource {
  disk_scan : option string;        (* of the configuration *)
  exists_file : string -> bool;
  disk_filename : option string;    (* of the virtual disk *)
  disk_base : string
}.
Definition _check_disk_scan (c : image_source) : bool :=
  match disk_scan c with None => false | Some f => exists_file c f end.
(** [s.endswith(suffix)] *)
Definition endswith (s suffix : string) : bool :=
  let n := String.length s in let m := String.length suffix in
  (m <=? n)%nat && bool_decide (String.substring (n - m) m s = suffix).
(** [None] when the process returns without an image *)
Definition disk_img (physical : bool) (c : image_source) : option string :=
  if physical then (if _check_disk_scan c then disk_scan c else None)
  else match disk_filename c with
       | None => None
       | Some name => Some (if endswith name "qcow2" then disk_base c else name)
       end.

(** ** [DcapEngine] *)

Record dcap := Dcap { c_RUNNING : bool; c_PAUSED : bool; c_queue : list dstruct; closed : bool }.
Definition dcap_command (c : option string) (s : dcap) : dcap :=
  let w := first_word <$> c in
  if bool_decide (w = Some "pause") then Dcap (c_RUNNING s) true (c_queue s) (closed s)
  else if bool_decide (w = Some "resume") then Dcap (c_RUNNING s) false (c_queue s) (closed s)
  else if bool_decide (w = Some "kill") || bool_decide (w = Some "stop") then Dcap false (c_PAUSED s) (c_queue s) (closed s)
  else s.
(** A round: the command and the packet fetched; an exception of the sensor is not caught. *)
Fixpoint dcap_run (rounds : list (option string * fetched)) (s : dcap) : ending * dcap :=
  match rounds with
  | [] => (Waiting, s)
  | (c, f) :: rounds =>
      let s := dcap_command c s in
      if negb (c_RUNNING s) then (Ended, Dcap false (c_PAUSED s) (c_queue s) true)   (* [stop] *)
      else if c_PAUSED s then dcap_run rounds s
      else match f with
           | FClosed => (Died SocketError, s)
           | FNone => dcap_run rounds s
           | FData d => dcap_run rounds (Dcap true false (c_queue s ++ [d]) (closed s))
           end
  end.

(** * Merging *)

(** Operations on consecutive sectors of one inode, the last on sector [n] *)
Inductive stretch (i : inode_ref) : list fsop -> Z -> Prop :=
  | stretch_one op : o_inode op = i -> stretch i [op] (o_sector op)
  | stretch_snoc ops op n : stretch i ops n -> o_inode op = i -> o_sector op = n + 1 -> stretch i (ops ++ [op]) (n + 1).
(** What is reported for a stretch: its first operation, with the data of all *)
Definition merged (ops : list fsop) (a : fsop) : Prop :=
  exists op rest, ops = op :: rest /\
    a = _fs_operation (o_sector op) (o_op op) (o_op_type op) (o_inode op) (o_filename op)
          (concat (o_raw_data <$> ops)) (o_semantic_data op).
(** Neighbouring stretches cannot be joined. *)
Fixpoint separate (groups : list (list fsop)) : Prop :=
  match groups with
  | g :: (((op :: _) :: _) as gs) => (forall i n, stretch i g n -> ~ (o_inode op = i /\ o_sector op = n + 1)) /\ separate gs
  | _ => True
  end.

Lemma stretch_inode i ops n : stretch i ops n -> exists op rest, ops = op :: rest /\ o_inode op = i.
Proof.
  induction 1 as [op Hi|ops op n _ (o & rest & -> & Hi) _ _]; [by exists op, []|]. by exists o, (rest ++ [op]).
Qed.
Lemma stretch_fun i ops n : stretch i ops n -> forall i' n', stretch i' ops n' -> i' = i /\ n' = n.
Proof.
  induction 1 as [op Hi|ops op n Hs IH Hi Hn]; intros i' n' H'.
  - inversion H' as [op' Hi'|ops' op' m Hs' Hi' Hn' Heq]; subst; [done|].
    apply app_singleton in Heq as [[-> _]|[-> [=]]]. by apply stretch_inode in Hs' as (? & ? & ? & _).
  - inversion H' as [op' Hi' Heq|ops' op' m Hs' Hi' Hn' Heq]; subst.
    + destruct (stretch_inode _ _ _ Hs) as (o & rest & -> & _). by destruct rest.
    + apply app_inj_tail in Heq as [-> ->]. destruct (IH _ _ Hs') as [E1 E2]. split; [congruence|lia].
Qed.
Lemma aggregate_loop_spec ops : forall i g current last,
  stretch i g last -> merged g current ->
  exists h groups, concat ((g ++ h) :: groups) = g ++ ops /\ separate ((g ++ h) :: groups) /\
    Forall2 (fun gr a => (exists i n, stretch i gr n) /\ merged gr a) ((g ++ h) :: groups) (aggregate_loop ops current last).
Proof.
  induction ops as [|op ops IH]; intros i g current last Hg Hm; cbn [aggregate_loop].
  { exists [], []. rewrite !app_nil_r. cbn. rewrite app_nil_r. split_and!; [done..|]. repeat constructor; [by eexists _, _|done]. }
  assert (o_inode current = i) as Hi.
  { destruct Hm as (o & rest & -> & ->). destruct (stretch_inode _ _ _ Hg) as (? & ? & [= <- <-] & ?). done. }
  destruct (decide (continues current op last)) as [[Hc1 Hc2]|Hc].
  - destruct (IH i (g ++ [op]) (append_raw current op) (last + 1)) as (h & groups & H1 & H2 & H3).
    + apply stretch_snoc; [done|congruence|done].
    + destruct Hm as (o & rest & -> & ->). exists o, (rest ++ [op]). split; [done|].
      unfold append_raw. cbn. f_equal. rewrite fmap_app, concat_app. cbn. by rewrite app_nil_r, app_assoc.
    + exists (op :: h), groups. rewrite <- app_assoc in H1, H2, H3. cbn [app] in *. split_and!; [|done..].
      rewrite H1. by rewrite <- app_assoc.
  - destruct (IH (o_inode op) [op] op (o_sector op)) as (h & groups & H1 & H2 & H3).
    + by constructor.
    + exists op, []. split; [done|]. destruct op; cbn. by rewrite app_nil_r.
    + exists [], (([op] ++ h) :: groups). rewrite app_nil_r. split_and!.
      * cbn [concat] in *. by rewrite H1.
      * cbn [separate app]. split; [|done]. intros i' n' Hs [E1 E2]. destruct (stretch_fun _ _ _ Hg _ _ Hs) as [-> ->].
        apply Hc. split; [congruence|done].
      * constructor; [|done]. split; [by eexists _, _|done].
Qed.

(** How operations are merged: the operations of an access are cut, in order and
    without loss, into the longest stretches of consecutive sectors of one inode, and one
    action is reported for each, with the data of the whole stretch. *)
Theorem actions_partition ops :
  exists groups, concat groups = ops /\ separate groups /\
    Forall2 (fun g a => (exists i n, stretch i g n) /\ merged g a) groups (aggregate ops).
Proof.
  destruct ops as [|op ops]; [by exists []|].
  destruct (aggregate_loop_spec ops (o_inode op) [op] op (o_sector op)) as (h & groups & H1 & H2 & H3).
  - by constructor.
  - exists op, []. split; [done|]. destruct op; cbn. by rewrite app_nil_r.
  - by exists (([op] ++ h) :: groups).
Qed.

(** * Reports from packets *)

Section dsp_fields.
Context (lba n op size : Z) (data : bytes).
Lemma sector_dsp : get_int (dsp lba n op size data) "sector" = Ret lba.
Proof. solve_dsp. Qed.
Lemma num_sectors_dsp : get_int (dsp lba n op size data) "num_sectors" = Ret n.
Proof. solve_dsp. Qed.
Lemma disk_operation_dsp : get_int (dsp lba n op size data) "disk_operation" = Ret op.
Proof. solve_dsp. Qed.
End dsp_fields.

Section reports.
Context (strftime : mval -> res string).
Context {E : Type} (get_access : Z -> Z -> Z -> bytes -> PM E (option (list fsop))).

(** What one access at time [t] adds to the reports; a failing one adds nothing. *)
Definition bridge (t : Z) (x : txn) (os : list (list row) * E) : list (list row) * E :=
  let (r, sem) := get_access (t_lba x) (t_count x) (t_op x) (t_data x) os.2 in
  (os.1 ++ match r with
           | Ret ops => match parse_actions strftime t ops with Ret (Some rows) => [rows] | _ => [] end
           | Raise _ => []
           end, sem).
Definition bridge_all (accesses : list (Z * txn)) (os : list (list row) * E) : list (list row) * E :=
  foldl (fun os tx => bridge tx.1 tx.2 os) os accesses.
Definition view (s : dengine (E:=E)) : list (list row) * E := (output_queue s, e_sem s).

Definition new_dengine (ss : Z) (e : E) : dengine (E:=E) := DEngine false true (new_recon ss) e [].

Lemma view_pair a b c v : view (DEngine a b c v.2 v.1) = v.
Proof. by destruct v. Qed.
Lemma bridge_all_app xs ys v : bridge_all (xs ++ ys) v = bridge_all ys (bridge_all xs v).
Proof. apply foldl_app. Qed.
Lemma access_txn t x s :
  pm_catch (access_packet strftime get_access t (txn_packet x)) (fun _ => pm_ret tt) s =
  (Ret tt, DEngine (PAUSED s) (RUNNING s) (e_recon s) (bridge t x (view s)).2 (bridge t x (view s)).1).
Proof.
  unfold pm_catch, access_packet, txn_packet, pm_bind, pm_lift.
  rewrite (sector_dsp _ _ _ _ _), (num_sectors_dsp _ _ _ _ _), (disk_operation_dsp _ _ _ _ _), data_str_dsp.
  unfold bridge, view. cbn [fst snd]. destruct (get_access _ _ _ _ _) as [[ops|e] sem]; cbn;
    [|by rewrite app_nil_r].
  destruct (parse_actions strftime t ops) as [[rows|]|e]; cbn; by rewrite ?app_nil_r.
Qed.
Lemma process_txns t xs s : (length xs <= 1)%nat ->
  process_packets strftime get_access t (txn_packet <$> xs) s =
  (Ret tt, let os := bridge_all ((t 0%nat,.) <$> xs) (view s) in DEngine (PAUSED s) (RUNNING s) (e_recon s) os.2 os.1).
Proof.
  destruct xs as [|x [|]]; cbn [length]; intros Hl; [by destruct s| |lia].
  cbn [fmap list_fmap process_packets]. change (__len__ (txn_packet x) =? 0)%nat with false.
  unfold pm_bind. by rewrite access_txn.
Qed.
End reports.

(** The process of a physical machine dies on the first frame fetched: the decoder uses names that
    nothing binds. *)
Theorem physical_dies strftime {E} (get_access : Z -> Z -> Z -> bytes -> PM E (option (list fsop))) r rounds ss e d raw :
  command r = None -> fetch r = FData d -> __repr__ d = Ret raw ->
  exists x, run strftime get_access true (r :: rounds) (new_dengine ss e) = (Died x, new_dengine ss e).
Proof.
  intros Hc Hf Hraw. cbn [run]. unfold accept_command. rewrite Hc. cbn [negb pm_ret new_dengine RUNNING PAUSED].
  rewrite Hf. unfold pm_bind, packets_of, pm_lift. rewrite Hf. cbn [negb]. unfold pm_bind. rewrite Hraw.
  pose proof (extract_never_decodes raw) as Hx. destruct (zlen raw <? 4).
  - rewrite Hx. cbn. eauto.
  - destruct Hx as [x ->]. eauto.
Qed.

(** * A virtual machine *)

Section virtual.
Context (strftime : mval -> res string).
Context {E : Type} (get_access : Z -> Z -> Z -> bytes -> PM E (option (list fsop))).

(** A round that brings an access, or nothing *)
Definition access_round (r : round) (x : option txn) : Prop :=
  fetch r = match x with Some x => FData (txn_packet x) | None => FNone end.
Definition bridge_round (r : round) (x : option txn) (v : list (list row) * E) : list (list row) * E :=
  match x with Some x => bridge strftime get_access (now r 0%nat) x v | None => v end.
Lemma run_access r x s : access_round r x ->
  (let! ds := packets_of false r in process_packets strftime get_access (now r) ds) s =
  (Ret tt, let v := bridge_round r x (view s) in DEngine (PAUSED s) (RUNNING s) (e_recon s) v.2 v.1).
Proof.
  intros Hx. unfold access_round in Hx. unfold packets_of. rewrite Hx. destruct x as [x|]; [|by destruct s].
  apply (process_txns strftime get_access (now r) [x] s). cbn. lia.
Qed.
Lemma run_stopped rounds s : RUNNING s = false -> run strftime get_access false rounds s = (Ended, s).
Proof. intros Hr. destruct rounds; cbn [run]; by rewrite Hr. Qed.

(** What a command does *)
Definition word_of (r : round) : option string := first_word <$> command r.
Definition off_after (r : round) (paused : bool) : bool :=
  if bool_decide (word_of r = Some "pause") then true
  else if bool_decide (word_of r = Some "resume") then false else paused.
Definition quits (r : round) : bool := bool_decide (word_of r = Some "kill") || bool_decide (word_of r = Some "stop").
Definition disk_ok (r : round) : bool := match disk_call r with Ret _ => true | Raise _ => false end.
Lemma accept_effect r (s : dengine (E:=E)) : RUNNING s = true ->
  accept_command r s = (Ret (quits r && disk_ok r),
    DEngine (off_after r (PAUSED s)) (negb (quits r)) (e_recon s) (e_sem s) (output_queue s)).
Proof.
  intros Hr. unfold accept_command, quits, off_after, word_of, disk_ok. destruct s. cbn in *. subst.
  destruct (command r) as [c|]; cbn; [|done].
  destruct (decide (first_word c = "pause")) as [->|H1]; [done|].
  destruct (decide (first_word c = "resume")) as [->|H2]; [done|].
  rewrite !(bool_decide_false (Some _ = Some "pause")), !(bool_decide_false (Some _ = Some "resume")),
    (bool_decide_false (_ = "pause")), (bool_decide_false (_ = "resume")) by congruence.
  destruct (decide (first_word c = "kill")) as [->|H3]; [done|].
  destruct (decide (first_word c = "stop")) as [->|H4]; [done|].
  rewrite !(bool_decide_false (Some _ = Some _)) by congruence. rewrite bool_decide_false by set_solver. done.
Qed.

(** What the accesses of the rounds add, when pausing and resuming switch the report off
    and on and a stop ends it; a stop that cannot disconnect still takes its own packet. *)
Fixpoint vm_session (rounds : list (round * option txn)) (paused : bool) (v : list (list row) * E) : ending * (list (list row) * E) :=
  match rounds with
  | [] => (Waiting, v)
  | (r, x) :: rounds =>
      let v' := if off_after r paused then v else bridge_round r x v in
      if quits r then (Ended, if disk_ok r then v else v')
      else vm_session rounds (off_after r paused) v'
  end.
Lemma run_round r x rounds s : RUNNING s = true -> access_round r x ->
  run strftime get_access false (r :: rounds) s =
  (let off := off_after r (PAUSED s) in
   if quits r && disk_ok r then (Ended, DEngine off false (e_recon s) (e_sem s) (output_queue s))
   else let v := if off then view s else bridge_round r x (view s) in
        run strftime get_access false rounds (DEngine off (negb (quits r)) (e_recon s) v.2 v.1)).
Proof.
  intros Hr Hx. cbn [run]. rewrite Hr, accept_effect by done. cbn [negb].
  destruct (quits r && disk_ok r) eqn:Hq; [by apply andb_true_iff in Hq as [-> _]|].
  cbn [PAUSED]. destruct (off_after r (PAUSED s)) eqn:Ho; [done|].
  pose proof Hx as Hf. unfold access_round in Hf. rewrite Hf. destruct x as [x|]; by rewrite (run_access r _ _ Hx).
Qed.

End virtual.

(** * Sessions *)

(** A semantic engine that counts the accesses and reports one read operation for each *)
Definition demo_engine (sector num_sectors op : Z) (data : bytes) : PM Z (option (list fsop)) := fun n =>
  (Ret (Some [_fs_operation sector "READ" "[CONTENT READ]" (Inode n) "/a" data []]), n + 1).
Lemma physical_dies_witness :
  exists x, run (fun _ => Ret "") demo_engine true [Round None (Ret tt) (fun _ => 0) (FData (DStruct DiskSensorPacket ∅ (Some [0;0;0;70])))]
    (new_dengine 512 0) = (Died x, new_dengine 512 0).
Proof. by eapply (physical_dies (fun _ => Ret "") demo_engine). Defined.

(** Three accesses, a pause before the second, a resumption before the third and a round without data *)
Definition demo_session : list (round * option txn) :=
  (fun tcx => (Round tcx.2.1 (Ret tt) (fun _ => tcx.1) (match tcx.2.2 with Some x => FData (txn_packet x) | None => FNone end), tcx.2.2)) <$>
  [(1, (None, Some (Txn 10 1 0 2 [1; 2]))); (2, (Some "pause", Some (Txn 20 1 0 2 [3; 4]))); (3, (Some "resume now", Some (Txn 30 1 0 2 [5; 6])));
   (4, (None, None)); (5, (Some "stop", Some (Txn 40 1 0 2 [7; 8])))].
