(* ===== verification/Tftp.v ===== *)
(** Model of [lophinet/pybootd/tftpd.py]: the TFTP server that boots the machines.  Each
    request is served by a [TftpConnection] in its own thread: a lock-step transfer over
    datagrams.  The file system, the URL library and the path filters are the operations
    of a record [world]; the datagrams the client sends, and the time-outs between them,
    are a list of events, so that the length of a time-out does not matter. *)
From stdpp Require Import pretty.
From S2P Require Import Prelude PyString Struct.

(** * Strings *)

(** [d.split('\000', 1)] when there is a separator *)
Fixpoint split_nul (d : bytes) : option (bytes * bytes) :=
  match d with
  | [] => None
  | c :: d => if c =? 0 then Some ([], d) else p ← split_nul d; Some (c :: p.1, p.2)
  end.
(** [a, b, c = d.split('\000', 2)] *)
Definition split3 (d : bytes) : res (bytes * bytes * bytes) :=
  match split_nul d with
  | Some (a, d) => match split_nul d with Some (b, c) => Ret (a, b, c) | None => Raise ValueError end
  | None => Raise ValueError
  end.

(** [struct] code ["!h"]: 16 bits with a sign. *)
Definition pack_h (z : Z) : res bytes :=
  if (-32768 <=? z) && (z <=? 32767) then Ret (be_split 2 (z mod 65536)) else Raise StructError.
Definition unpack_h (d : bytes) : res Z :=
  if bool_decide (length d = 2%nat)
  then let n := be_combine d in Ret (if n <? 32768 then n else n - 65536)
  else Raise StructError.

(** * The connection *)

Definition RRQ := 1.
Definition WRQ := 2.
Definition DATA := 3.
Definition ACK := 4.
Definition ERR := 5.
Definition OACK := 6.
Definition HDRSIZE := 4.

(** [self.file]: none, opened for reading (is it on disk?) with what is left of it, or
    opened for writing with what was written. *)
Inductive file := NoFile | Reading (disk : bool) (rest : bytes) | Writing (resource content : bytes).
(** What [select] reports next. *)
Inductive event := Timeout | Packet (from_client : bool) (data : bytes).

Record conn := Conn {
  client_ip : bytes;
  active : bool;
  blockNumber : Z;
  lastpkt : bytes;
  file_ : file;
  blocksize : Z;
  inbox : list event;
  sent : list bytes
}.
Definition set_active (x : bool) (s : conn) : conn :=
  Conn (client_ip s) x (blockNumber s) (lastpkt s) (file_ s) (blocksize s) (inbox s) (sent s).
Definition set_blockNumber (x : Z) (s : conn) : conn :=
  Conn (client_ip s) (active s) x (lastpkt s) (file_ s) (blocksize s) (inbox s) (sent s).
Definition set_lastpkt (x : bytes) (s : conn) : conn :=
  Conn (client_ip s) (active s) (blockNumber s) x (file_ s) (blocksize s) (inbox s) (sent s).
Definition set_file (x : file) (s : conn) : conn :=
  Conn (client_ip s) (active s) (blockNumber s) (lastpkt s) x (blocksize s) (inbox s) (sent s).
Definition set_blocksize (x : Z) (s : conn) : conn :=
  Conn (client_ip s) (active s) (blockNumber s) (lastpkt s) (file_ s) x (inbox s) (sent s).
Definition set_inbox (x : list event) (s : conn) : conn :=
  Conn (client_ip s) (active s) (blockNumber s) (lastpkt s) (file_ s) (blocksize s) x (sent s).
Definition sendto (x : bytes) (s : conn) : conn :=
  Conn (client_ip s) (active s) (blockNumber s) (lastpkt s) (file_ s) (blocksize s) (inbox s) (sent s ++ [x]).

(** A parsed packet.  A request is a dictionary that holds the name of the file and the mode and
    then the options, of which one of the same name replaces them; [opcode] is the number that
    was read, which an option called ["opcode"] replaces by a string. *)
Inductive tpacket :=
  | PReq (opcode : Z) (pkt : gmap bytes bytes)
  | PAck (block : Z)
  | PData (block : Z) (data : bytes)
  | PErr (errnum : Z) (errtxt : bytes).

(** The server's configuration and its tables; the addresses are lists of four numbers. *)
Record server := Server {
  retry : nat;
  server_blocksize : Z;
  mac_to_ip : option (list (bytes * list Z));
  mac_to_pxe_conf : option (gmap bytes bytes)
}.
(** What the server sees of the machine it runs on. *)
Record world := World {
  resolve : bytes -> res bytes;               (* filters and search paths for a requested name *)
  is_default : bytes -> bool;                 (* [relpath(resource, root) == "pxelinux.cfg/default"] *)
  sibling : bytes -> bytes -> bytes;          (* [join(dirname(resource), name)] *)
  path_exists : bytes -> bool;
  images : res (option (list bytes));         (* the images directory, when configured *)
  is_url : bytes -> bool;
  urlopen : bytes -> option bytes;
  fs : bytes -> option bytes;                 (* readable files *)
  can_write : bytes -> bool
}.

Section connection.
Context (srv : server) (W : world).
Abbreviation M := (PM conn).

Definition send (pkt : bytes) : M unit := pm_modify (fun s => set_lastpkt pkt (sendto pkt s)).
Definition retransmit : M unit :=
  let! l := pm_get lastpkt in
  if bool_decide (l = []) then pm_ret tt else pm_modify (sendto l).

(** ** Parsing *)

Fixpoint parse_options (fuel : nat) (options : bytes) (pkt : gmap bytes bytes) : M (gmap bytes bytes) :=
  match fuel, options with
  | _, [] => pm_ret pkt
  | O, _ => pm_raise Diverges
  | S fuel, options =>
      let! kvo := pm_lift (split3 options) in
      let '(key, value, options) := kvo in
      (if bool_decide (key = lit "blksize") then
         let! n := pm_lift (py_int value) in pm_modify (set_blocksize n)
       else if bool_decide (key = lit "timeout") then
         pm_lift (if float_ok value then Ret tt else Raise ValueError)
       else pm_ret tt) ;!
      parse_options fuel options (<[key := value]> pkt)
  end.

Definition parse (data : bytes) : M tpacket :=
  let! opcode := pm_lift (unpack_h (slice_to data 2)) in
  if (opcode =? RRQ) || (opcode =? WRQ) then
    let! rmo := pm_lift (split3 (slice_from data 2)) in
    let '(resource, mode, options) := rmo in
    let! resource := pm_lift (resolve W resource) in
    let! pkt := parse_options (length options) options (<[lit "mode" := mode]> {[ lit "filename" := resource ]}) in
    pm_ret (PReq opcode pkt)
  else if opcode =? ACK then
    let! block := pm_lift (unpack_h (slice data 2 4)) in pm_ret (PAck block)
  else if opcode =? DATA then
    let! block := pm_lift (unpack_h (slice data 2 4)) in pm_ret (PData block (slice_from data 4))
  else if opcode =? ERR then
    let! errnum := pm_lift (unpack_h (slice data 2 4)) in pm_ret (PErr errnum (slice data 4 (-1)))
  else pm_raise (TftpError 4 "Unknown packet type").

(** Nothing more arrives. *)
Fixpoint silence (n : nat) : M bytes :=
  match n with
  | O => pm_raise (TftpError 4 "Transfer timed out")
  | S n => retransmit ;! silence n
  end.
(** The loop of [recv]; after the last event there are only time-outs. *)
Fixpoint wait (n : nat) (events : list event) : M bytes :=
  match events with
  | [] =>
      pm_modify (set_inbox []) ;! silence n
  | e :: rest =>
      match n with
      | O => pm_modify (set_inbox events) ;! pm_raise (TftpError 4 "Transfer timed out")
      | S n' =>
          match e with
          | Timeout => retransmit ;! wait n' rest
          | Packet from_client data =>
              let! size := pm_get blocksize in
              if size + HDRSIZE <? 0 then pm_modify (set_inbox events) ;! pm_raise ValueError
              else if from_client then
                pm_modify (set_inbox rest) ;! pm_ret (take (Z.to_nat (size + HDRSIZE)) data)
              else wait n rest
          end
      end
  end.
Definition recv : M tpacket :=
  let! events := pm_get inbox in
  let! data := wait (retry srv) events in
  parse data.

(** ** Sending *)

(** The block number is advanced before it is packed. *)
Definition send_data (data : bytes) : M unit :=
  let! n := pm_get blockNumber in
  let block := n + 1 in
  pm_modify (set_blockNumber block) ;!
  let! op := pm_lift (pack_h DATA) in
  let! b := pm_lift (pack_h block) in
  send (op ++ b ++ data) ;!
  pm_modify (fun s => set_active (zlen data =? blocksize s) s).
Definition send_ack : M unit :=
  let! block := pm_get blockNumber in
  pm_modify (set_blockNumber (block + 1)) ;!
  let! op := pm_lift (pack_h ACK) in
  let! b := pm_lift (pack_h block) in
  send (op ++ b).
(** Not kept for retransmission. *)
Definition send_error (errnum : Z) (errtext : string) : M unit :=
  let! op := pm_lift (pack_h ERR) in
  let! e := pm_lift (pack_h errnum) in
  pm_modify (sendto (op ++ e ++ lit errtext ++ [0])).
Definition send_oack (options : list (bytes * bytes)) : M unit :=
  let! op := pm_lift (pack_h OACK) in
  send (op ++ concat ((fun kv => kv.1 ++ [0] ++ kv.2 ++ [0]) <$> options)) ;!
  pm_modify (set_lastpkt []).

(** ** Files *)

(** [self.file.read(n)]: all that is left when [n] is negative. *)
Definition file_read (n : Z) : M bytes :=
  let! f := pm_get file_ in
  match f with
  | NoFile => pm_raise AttributeError
  | Writing _ _ => pm_raise IOError
  | Reading disk rest =>
      let k := if n <? 0 then length rest else Z.to_nat n in
      pm_modify (set_file (Reading disk (drop k rest))) ;! pm_ret (take k rest)
  end.
Definition file_write (data : bytes) : M unit :=
  let! f := pm_get file_ in
  match f with
  | NoFile | Reading false _ => pm_raise AttributeError
  | Reading true _ => pm_raise IOError
  | Writing r content => pm_modify (set_file (Writing r (content ++ data)))
  end.

(** ** The configuration of a machine *)

(** The first entry with the address. *)
Fixpoint find_mac (ip : list Z) (table : list (bytes * list Z)) : option bytes :=
  match table with
  | [] => None
  | (mac, ip') :: table => if bool_decide (ip' = ip) then Some mac else find_mac ip table
  end.
Definition _get_mac (ip_address : bytes) : res (option bytes) :=
  match mac_to_ip srv with
  | None => Ret None
  | Some table =>
      let? ip := map_int (split_on 46 ip_address []) in
      Ret (find_mac ip table)
  end.
Definition get_pxe_conf (ip_address : bytes) : res (option bytes) :=
  let? mac := _get_mac ip_address in
  Ret (m ← mac; t ← mac_to_pxe_conf srv; t !! m).

Definition quote : bytes := [34].
Definition newline : bytes := [10].
(** [NETWORK_CONFIG.replace("%%image_name%%", image_name)]; the name occurs once. *)
Definition get_pxe_config_str (image_name : bytes) : bytes :=
  lit "DEFAULT clonezilla-auto-restore-physical" ++ newline ++ lit "PROMPT 0" ++ newline ++ newline ++
  lit "LABEL clonezilla-auto-restore-physical" ++ newline ++
  lit "        kernel clonezilla-live/vmlinuz" ++ newline ++
  lit "        append initrd=clonezilla-live/initrd.img boot=live config noswap nolocales edd=on nomodeset keyboard-layouts=none locales=en_US.UTF-8 vga=788 nosplash noprompt fetch=tftp://lophi-pxe/clonezilla-live/filesystem.squashfs ocs_prerun1=" ++
  quote ++ lit "mount -t cifs //lophi-pxe/images/ /home/partimag -o user=guest,guest,noexec" ++ quote ++
  lit " ocs_live_run=" ++ quote ++ lit "ocs-sr --batch -e1 auto -e2 -r -j2 -p poweroff restoredisk " ++
  image_name ++ lit " sda" ++ quote ++ lit " ocs_live_extra_param=" ++ quote ++ quote ++ newline.

(** [genfilecre.match(resource)]: a bracketed name at the start. *)
Definition is_word (c : Z) : bool :=
  is_digit c || ((65 <=? c) && (c <=? 90)) || ((97 <=? c) && (c <=? 122)) || (c =? 95) || (c =? 46) || (c =? 45).
Fixpoint take_word (d : bytes) : bytes * bytes :=
  match d with
  | c :: d' => if is_word c then let (w, r) := take_word d' in (c :: w, r) else ([], d)
  | [] => ([], [])
  end.
Definition genfile_name (resource : bytes) : option bytes :=
  match resource with
  | 91 :: d => match take_word d with
               | (c :: w, 93 :: _) => Some (c :: w)
               | _ => None
               end
  | _ => None
  end.

(** The resource to send, or the text made up for the machine. *)
Definition choose_resource (resource : bytes) : M (bytes * option bytes) :=
  if negb (is_default W resource) then pm_ret (resource, None) else
  let! ip := pm_get client_ip in
  let! custom := pm_lift (get_pxe_conf ip) in
  match custom with
  | None => pm_ret (resource, None)
  | Some custom_file =>
      let! imgs := pm_lift (images W) in
      let full := sibling W resource custom_file in
      if path_exists W full then pm_ret (full, None)
      else if bool_decide (custom_file ∈ default [] imgs)
      then pm_ret (resource, Some (get_pxe_config_str custom_file))
      else pm_ret (resource, None)
  end.

Definition open_resource (resource : bytes) (lophi_string : option bytes) : option file :=
  match lophi_string with
  | Some s => Some (Reading false s)
  | None =>
      match genfile_name resource with
      | Some _ => Some (Reading false (slice resource 1 (-1)))
      | None => if is_url W resource then Reading false <$> urlopen W resource
                else Reading true <$> fs W resource
      end
  end.
Definition resource_size (resource : bytes) (lophi_string : option bytes) : option Z :=
  match lophi_string with
  | Some s => Some (zlen s)
  | None =>
      match genfile_name resource with
      | Some name => Some (zlen name)
      | None => zlen <$> (if is_url W resource then urlopen W resource else fs W resource)
      end
  end.

Definition handle_rrq (pkt : gmap bytes bytes) : M unit :=
  let! filename := pm_lift (of_option KeyError (pkt !! lit "filename")) in
  let! _ := pm_lift (of_option KeyError (pkt !! lit "mode")) in
  let! choice := choose_resource filename in
  let (resource, lophi_string) := (choice : bytes * option bytes) in
  let tsize := pkt !! lit "tsize" in
  let! asked := (match tsize with
                 | None => pm_ret false
                 | Some v => let! n := pm_lift (py_int v) in pm_ret (n =? 0)
                 end) in
  let! go := (if negb asked then pm_ret true else
    match resource_size resource lophi_string with
    | None => pm_modify (set_active false) ;! send_error 1 "Cannot access resource" ;! pm_ret false
    | Some filesize =>
        send_oack ([(lit "tsize", lit (pretty filesize))] ++
          match pkt !! lit "blksize" with Some v => [(lit "blksize", v)] | None => [] end) ;!
        pm_ret true
    end) in
  if negb go then pm_ret tt else
  match open_resource resource lophi_string with
  | None => send_error 1 "Cannot open resource"
  | Some f =>
      pm_modify (set_file f) ;!
      match tsize with
      | Some _ => pm_ret tt
      | None =>
          let! bs := pm_get blocksize in
          let! data := file_read bs in
          send_data data
      end
  end.

Definition handle_wrq (pkt : gmap bytes bytes) : M unit :=
  let! resource := pm_lift (of_option KeyError (pkt !! lit "filename")) in
  let! _ := pm_lift (of_option KeyError (pkt !! lit "mode")) in
  if is_url W resource then pm_ret tt
  else if can_write W resource then pm_modify (set_file (Writing resource [])) ;! send_ack
  else send_error 1 "Cannot open file".

(** ** Receiving *)

Definition handle_ack : M unit :=
  let! a := pm_get active in
  if a then let! bs := pm_get blocksize in let! data := file_read bs in send_data data else pm_ret tt.
Definition recv_ack (block : Z) : M unit :=
  let! n := pm_get blockNumber in
  if block =? n then handle_ack else pm_ret tt.
(** The block is acknowledged before it is written. *)
Definition handle_data (data : bytes) : M unit := send_ack ;! file_write data.
Definition recv_data (block : Z) (data : bytes) : M unit :=
  let! n := pm_get blockNumber in
  if block =? n then
    pm_modify (fun s => set_active (blocksize s =? zlen data) s) ;! handle_data data
  else pm_ret tt.
(** An error packet is only logged. *)
Definition recv_err : M unit := retransmit.

Definition dispatch (pkt : tpacket) : M unit :=
  match pkt with
  | PData block data => recv_data block data
  | PAck block => recv_ack block
  | PErr _ _ => recv_err
  | PReq _ _ => pm_raise (TftpError 5 "Invalid opcode")
  end.
(** [while self.active]: every round takes an event off the inbox or raises. *)
Fixpoint serve (fuel : nat) : M unit :=
  match fuel with
  | O => pm_raise Diverges
  | S fuel =>
      let! a := pm_get active in
      if negb a then pm_ret tt else
      let! pkt := recv in
      dispatch pkt ;! serve fuel
  end.

Definition session (data : bytes) : M unit :=
  let! pkt := parse data in
  match pkt with
  | PReq opcode pkt =>
      if bool_decide (is_Some (pkt !! lit "opcode")) then pm_raise (TftpError 4 "Bad request") else
      pm_modify (set_active true) ;!
      (if opcode =? RRQ then handle_rrq pkt else handle_wrq pkt) ;!
      let! events := pm_get inbox in
      serve (S (S (length events)))
  | _ => pm_raise (TftpError 4 "Bad request")
  end.
(** A TFTP error is reported to the client, any other exception is only logged. *)
Definition connect (data : bytes) : M unit := fun s =>
  match session data s with
  | (Raise (TftpError errnum errtext), s') => send_error errnum errtext s'
  | (Raise Diverges, s') => (Raise Diverges, s')
  | (_, s') => (Ret tt, s')
  end.
Definition new_conn (ip : bytes) (events : list event) : conn :=
  Conn ip false 0 [] NoFile (server_blocksize srv) events [].
End connection.
