(* ===== verification/TftpTheorems.v ===== *)
(** Theorems on TFTP transfers: what a read sends, whatever arrives in between, and that
    it completes; what a write stores; and that every connection ends. *)
From stdpp Require Import pretty.
From S2P Require Import Prelude PyString Struct Tftp.

(** * Blocks of a file *)

Definition nblocks (bs : Z) (c : bytes) : Z := zlen c / bs + 1.
(** Block [i], counted from 1; the last one is shorter than a block, perhaps empty. *)
Definition block (bs : Z) (c : bytes) (i : Z) : bytes := slice c ((i - 1) * bs) (i * bs).
Definition data_packet (bs : Z) (c : bytes) (i : Z) : bytes := [0; 3] ++ be_split 2 i ++ block bs c i.
Definition data_packets (bs : Z) (c : bytes) (k : Z) : list bytes := data_packet bs c <$> seqZ 1 k.
Definition ack (i : Z) : bytes := [0; 4] ++ be_split 2 i.
Definition error_packet (n : Z) (text : string) : bytes := [0; 5] ++ be_split 2 (n mod 65536) ++ lit text ++ [0].

(** [l'] is [l] with elements repeated in place. *)
Inductive stutter : list bytes -> list bytes -> Prop :=
  | stutter_nil : stutter [] []
  | stutter_new l l' x : stutter l l' -> stutter (l ++ [x]) (l' ++ [x])
  | stutter_again l l' x : stutter (l ++ [x]) l' -> stutter (l ++ [x]) (l' ++ [x]).

Lemma data_packets_snoc bs c k : 0 <= k ->
  data_packets bs c (k + 1) = data_packets bs c k ++ [data_packet bs c (k + 1)].
Proof.
  intros Hk. unfold data_packets. rewrite seqZ_app by lia. rewrite fmap_app.
  change (seqZ (1 + k) 1) with [0 + (1 + k)]. cbn [fmap list_fmap]. by replace (0 + (1 + k)) with (k + 1) by lia.
Qed.

Section blocks.
Context (bs : Z) (c : bytes) (Hbs : 0 < bs).

Lemma block_take i : 1 <= i -> block bs c i = take (Z.to_nat bs) (drop (Z.to_nat ((i - 1) * bs)) c).
Proof.
  intros Hi. unfold block, slice. rewrite !clamp_nonneg by nia.
  destruct (Z.le_gt_cases (zlen c) ((i - 1) * bs)) as [Hle|Hgt].
  - rewrite !drop_ge by (unfold zlen in *; lia). by rewrite !take_nil.
  - rewrite (Z.min_l ((i - 1) * bs)) by lia. destruct (Z.le_gt_cases (zlen c) (i * bs)).
    + rewrite !take_ge; [done|rewrite length_drop; unfold zlen in *; lia..].
    + f_equal. assert (bs <= i * bs) by nia. lia.
Qed.
Lemma block_full i : 1 <= i -> (zlen (block bs c i) =? bs) = (i <? nblocks bs c).
Proof.
  intros Hi. rewrite block_take, zlen_take, zlen_drop by done. unfold nblocks.
  pose proof (Z.div_mod (zlen c) bs ltac:(lia)). pose proof (Z.mod_pos_bound (zlen c) bs Hbs).
  destruct (Z.ltb_spec i (zlen c / bs + 1)); [apply Z.eqb_eq|apply Z.eqb_neq]; nia.
Qed.
(** All blocks together are the file. *)
Lemma blocks_concat k : concat (block bs c <$> seqZ 1 (Z.of_nat k)) = slice c 0 (Z.of_nat k * bs).
Proof.
  induction k as [|k IH]; [cbn; unfold slice; by rewrite Nat.sub_diag|].
  replace (Z.of_nat (S k)) with (Z.of_nat k + 1) by lia. rewrite seqZ_app by lia.
  rewrite fmap_app, concat_app, IH. change (seqZ (1 + Z.of_nat k) 1) with [0 + (1 + Z.of_nat k)].
  cbn [fmap list_fmap concat]. rewrite app_nil_r. unfold block.
  replace (0 + (1 + Z.of_nat k) - 1) with (Z.of_nat k) by lia.
  replace (0 + (1 + Z.of_nat k)) with (Z.of_nat k + 1) by lia. apply slice_split; nia.
Qed.
Lemma blocks_whole : concat (block bs c <$> seqZ 1 (nblocks bs c)) = c.
Proof.
  pose proof (zlen_nonneg c). pose proof (Z.div_pos (zlen c) bs ltac:(lia) Hbs) as Hq. unfold nblocks.
  rewrite <- (Z2Nat.id (zlen c / bs + 1)) by lia. rewrite blocks_concat, Z2Nat.id by lia.
  unfold slice. rewrite !clamp_nonneg by nia. rewrite (Z.min_l 0), drop_0 by lia. apply take_ge.
  pose proof (Z.div_mod (zlen c) bs ltac:(lia)). pose proof (Z.mod_pos_bound (zlen c) bs Hbs).
  unfold zlen in *. nia.
Qed.
End blocks.

(** * Packets *)

Lemma pack_h_ok z : 0 <= z <= 32767 -> pack_h z = Ret (be_split 2 z).
Proof.
  intros Hz. unfold pack_h. rewrite (proj2 (Z.leb_le _ _)), (proj2 (Z.leb_le _ _)) by lia.
  cbn [andb]. by rewrite Z.mod_small by lia.
Qed.
Lemma unpack_h_ok z : 0 <= z <= 32767 -> unpack_h (be_split 2 z) = Ret z.
Proof.
  intros Hz. unfold unpack_h. rewrite bool_decide_eq_true_2 by apply length_be_split.
  rewrite be_combine_split by (cbn; lia). cbn zeta. by rewrite (proj2 (Z.ltb_lt _ _)) by lia.
Qed.
Lemma pack_h_bound z b : 0 <= z -> pack_h z = Ret b -> z <= 32767.
Proof. intros Hz. unfold pack_h. destruct (Z.leb_spec z 32767); [done|]. by rewrite andb_false_r. Qed.

Section transfer.
Context (srv : server) (W : world).

Lemma parse_ack s i : 0 <= i <= 32767 -> parse W (ack i) s = (Ret (PAck i), s).
Proof.
  intros Hi. unfold parse. unfold pm_bind at 1, pm_lift at 1.
  assert (exists a b, be_split 2 i = [a; b]) as (a & b & E).
  { pose proof (length_be_split 2 i). destruct (be_split 2 i) as [|a [|b [|]]]; try done. by exists a, b. }
  unfold ack. rewrite E. cbn. unfold pm_bind, pm_lift.
  change (slice [0; 4; a; b] 2 4) with [a; b]. rewrite <- E, unpack_h_ok by done. done.
Qed.

(** Parsing changes nothing but the block size, and that only for a request. *)
Definition resized (s s' : conn) : Prop := exists b, s' = set_blocksize b s.
Lemma parse_options_resizes s0 fuel : forall options pkt,
  preserves (resized s0) (parse_options fuel options pkt).
Proof.
  induction fuel as [|fuel IH]; intros options pkt; cbn [parse_options];
    (destruct options; [apply preserves_ret|]); [apply preserves_raise|].
  apply preserves_bind; [apply preserves_lift|]. intros [[key value] options'].
  apply preserves_bind; [|intros _; apply IH]. apply preserves_if; [|apply preserves_if].
  - apply preserves_bind; [apply preserves_lift|]. intros n. apply preserves_modify. intros s [b ->]. by exists n.
  - apply preserves_lift.
  - apply preserves_ret.
Qed.
Definition is_request (pkt : tpacket) : bool := match pkt with PReq _ _ => true | _ => false end.
Lemma parse_spec data s : exists r s', parse W data s = (r, s') /\ resized s s' /\
  (forall pkt, r = Ret pkt -> is_request pkt = false -> s' = s).
Proof.
  assert (resized s s) as Hs by (exists (blocksize s); by destruct s).
  unfold parse. unfold pm_bind at 1, pm_lift at 1. destruct (unpack_h _) as [opcode|]; [|by eexists _, _].
  destruct (_ || _).
  - unfold pm_bind at 1, pm_lift at 1. destruct (split3 _) as [[[resource mode] options]|]; [|by eexists _, _].
    unfold pm_bind at 1, pm_lift at 1. destruct (resolve W resource) as [res|]; [|by eexists _, _].
    unfold pm_bind. pose proof (parse_options_resizes s (length options) options (<[lit "mode" := mode]> {[ lit "filename" := res ]}) s Hs) as Ho.
    destruct (parse_options _ _ _ s) as [[opts|e] s']; eexists _, _; (split; [reflexivity|]); (split; [done|]).
    + by intros ? [= <-].
    + done.
  - unfold pm_bind, pm_lift, pm_ret, pm_raise.
    repeat match goal with |- context [if ?b then _ else _] => destruct b end;
    try destruct (unpack_h _); by eexists _, _.
Qed.

(** * Reading *)

Section reading.
Context (bs : Z) (c : bytes) (disk : bool) (pre : list bytes) (Hbs : 0 < bs).

(** [k] blocks have been sent after [pre], the last one perhaps repeatedly. *)
Record sending (k : Z) (s : conn) : Prop := {
  se_bound : 0 <= k <= Z.min (nblocks bs c) 32767;
  se_blocksize : blocksize s = bs;
  se_number : blockNumber s = k;
  se_file : file_ s = Reading disk (drop (Z.to_nat (k * bs)) c);
  se_last : lastpkt s = if k =? 0 then [] else data_packet bs c k;
  se_active : active s = (k <? nblocks bs c);
  se_sent : exists L, sent s = pre ++ L /\ stutter (data_packets bs c k) L
}.
(** After [pre], nothing but blocks of the file in order, with at most one other packet at the end. *)
Definition delivered (s : conn) : Prop := exists k L E,
  0 <= k <= Z.min (nblocks bs c) 32767 /\ stutter (data_packets bs c k) L /\ sent s = pre ++ L ++ E /\
  (E = [] \/ E = [ack k] \/ exists n text, E = [error_packet n text]).

Lemma sending_delivered k s : sending k s -> delivered s.
Proof. intros [H1 _ _ _ _ _ (L & H2 & H3)]. exists k, L, []. rewrite app_nil_r. auto. Qed.

Lemma sending_inbox k x s : sending k s -> sending k (set_inbox x s).
Proof. by intros []. Qed.
Lemma sending_retransmit k s :
  sending k s -> exists s', retransmit s = (Ret tt, s') /\ sending k s' /\ inbox s' = inbox s.
Proof.
  intros [Hk H1 H2 H3 H4 H5 H6]. unfold retransmit, pm_bind, pm_get. rewrite H4.
  destruct (Z.eqb_spec k 0) as [->|Hne].
  - rewrite bool_decide_eq_true_2 by done. by exists s.
  - rewrite bool_decide_eq_false_2 by done. eexists. split; [reflexivity|]. split; [|done].
    split; try done; [by rewrite (proj2 (Z.eqb_neq k 0))|]. cbn [sendto sent].
    destruct H6 as (L & -> & H6). exists (L ++ [data_packet bs c k]). split; [by rewrite app_assoc|].
    replace k with (k - 1 + 1) in H6 |- * at 1 by lia. rewrite data_packets_snoc in * by lia.
    replace (k - 1 + 1) with k in * by lia. by apply stutter_again.
Qed.

(** Sending the next block; block 32768 cannot be packed. *)
Lemma send_next k s :
  sending k s -> k < nblocks bs c ->
  exists r s', (let! n := pm_get blocksize in let! data := file_read n in send_data data) s = (r, s') /\
    inbox s' = inbox s /\
    (k < 32767 -> r = Ret tt /\ sending (k + 1) s') /\
    (k = 32767 -> r = Raise StructError /\ sent s' = sent s).
Proof.
  intros [Hk H1 H2 H3 H4 H5 H6] Hlt. unfold pm_bind at 1, pm_get at 1. unfold pm_bind at 1.
  unfold file_read, pm_bind at 1, pm_get at 1. rewrite H1, H3, (proj2 (Z.ltb_ge bs 0)) by lia.
  unfold pm_bind at 1, pm_modify at 1, pm_ret at 1.
  assert (take (Z.to_nat bs) (drop (Z.to_nat (k * bs)) c) = block bs c (k + 1)) as ->.
  { rewrite block_take by lia. by replace (k + 1 - 1) with k by lia. }
  unfold send_data, pm_bind at 1, pm_get at 1. cbn [blockNumber set_file]. rewrite H2.
  unfold pm_bind at 1, pm_modify at 1. unfold pm_bind at 1, pm_lift at 1. rewrite pack_h_ok by (unfold DATA; lia).
  destruct (Z.lt_ge_cases k 32767) as [Hs|Hs].
  - unfold pm_bind at 1, pm_lift at 1. rewrite pack_h_ok by lia. eexists _, _.
    split; [unfold pm_bind, send, pm_modify; reflexivity|]. split; [done|]. split; [|lia]. intros _. split; [done|].
    assert (be_split 2 DATA ++ be_split 2 (k + 1) ++ block bs c (k + 1) = data_packet bs c (k + 1)) as Hp by done.
    split; cbn; try done.
    + lia.
    + rewrite drop_drop. do 2 f_equal. nia.
    + by rewrite (proj2 (Z.eqb_neq (k + 1) 0)) by lia.
    + rewrite H1. apply block_full; lia.
    + destruct H6 as (L & -> & H6). exists (L ++ [data_packet bs c (k + 1)]). split; [by rewrite app_assoc|].
      rewrite data_packets_snoc by lia. by apply stutter_new.
  - unfold pm_bind at 1, pm_lift at 1. assert (k = 32767) as -> by lia.
    change (pack_h (32767 + 1)) with (@Raise bytes StructError). eexists _, _. split; [reflexivity|]. split; [done|].
    split; [lia|done].
Qed.

(** Waiting for a packet only repeats the last one. *)
Lemma wait_sending k : forall events n s, sending k s ->
  exists r s', wait n events s = (r, s') /\ sending k s' /\
    match r with
    | Ret data => exists ns, exists d, events = ns ++ Packet true d :: inbox s' /\ data = take (Z.to_nat (bs + HDRSIZE)) d
    | Raise e => e = TftpError 4 "Transfer timed out"
    end.
Proof.
  induction events as [|e events IH]; intros n s Hs; cbn [wait].
  - unfold pm_bind at 1, pm_modify at 1. apply (sending_inbox k []) in Hs. revert Hs. generalize (set_inbox [] s).
    clear s. induction n as [|n IH]; intros s Hs; cbn [silence].
    + by eexists _, _.
    + destruct (sending_retransmit k s Hs) as (s' & Hr & Hs' & _). unfold pm_bind at 1. rewrite Hr. by apply IH.
  - destruct n as [|n].
    + eexists _, _. split; [reflexivity|]. split; [by apply sending_inbox|done].
    + destruct e as [|[|] d].
      * destruct (sending_retransmit k s Hs) as (s' & Hr & Hs' & _). unfold pm_bind at 1. rewrite Hr.
        destruct (IH n s' Hs') as (r & s2 & Hw & Hs2 & Hm). exists r, s2. split; [done|]. split; [done|].
        destruct r; [|done]. destruct Hm as (ns & d & -> & ?). by exists (Timeout :: ns), d.
      * unfold pm_bind at 1, pm_get at 1. rewrite (se_blocksize _ _ Hs), (proj2 (Z.ltb_ge _ 0)) by (unfold HDRSIZE; lia).
        eexists _, _. split; [reflexivity|]. split; [by apply sending_inbox|]. by exists [], d.
      * unfold pm_bind at 1, pm_get at 1. rewrite (se_blocksize _ _ Hs), (proj2 (Z.ltb_ge _ 0)) by (unfold HDRSIZE; lia).
        destruct (IH (S n) s Hs) as (r & s2 & Hw & Hs2 & Hm). exists r, s2. split; [done|]. split; [done|].
        destruct r; [|done]. destruct Hm as (ns & d' & -> & ?). by exists (Packet false d :: ns), d'.
Qed.

Lemma dispatch_sending k pkt s :
  sending k s -> active s = true -> is_request pkt = false ->
  exists r s', dispatch pkt s = (r, s') /\ inbox s' = inbox s /\
    match r with
    | Ret _ => exists k', sending k' s'
    | Raise e => delivered s' /\ forall n text, e <> TftpError n text
    end.
Proof.
  intros Hs Ha Hr. pose proof Hs as [Hk H1 H2 H3 H4 H5 H6]. rewrite Ha in H5. symmetry in H5. apply Z.ltb_lt in H5.
  destruct pkt as [|b|b data|n text]; [done|..]; cbn [dispatch].
  - unfold recv_ack, pm_bind at 1, pm_get at 1. rewrite H2. destruct (Z.eqb_spec b k) as [->|].
    + unfold handle_ack, pm_bind at 1, pm_get at 1. rewrite Ha.
      destruct (send_next k s Hs H5) as (r & s' & Hn & Hi & Hlt & Heq). rewrite Hn. exists r, s'.
      split; [done|]. split; [done|]. destruct (Z.lt_ge_cases k 32767) as [Hl|Hl].
      * destruct (Hlt Hl) as [-> ?]. by exists (k + 1).
      * destruct (Heq ltac:(lia)) as [-> Hsent]. split; [|done].
        destruct (sending_delivered k s Hs) as (k' & L & E & ? & ? & ? & ?). exists k', L, E. by rewrite Hsent.
    + eexists _, _. split; [reflexivity|]. split; [done|]. by exists k.
  - unfold recv_data, pm_bind at 1, pm_get at 1. rewrite H2. destruct (Z.eqb_spec b k) as [->|].
    + unfold pm_bind at 1, pm_modify at 1. unfold handle_data, pm_bind at 1, send_ack, pm_bind at 1, pm_get at 1.
      cbn [blockNumber set_active]. rewrite H2. unfold pm_bind at 1, pm_modify at 1. unfold pm_bind at 1, pm_lift at 1.
      rewrite pack_h_ok by (unfold ACK; lia). unfold pm_bind at 1, pm_lift at 1. rewrite pack_h_ok by lia.
      unfold send, pm_modify. unfold file_write, pm_bind, pm_get. cbn [file_ set_active set_blockNumber set_lastpkt sendto].
      rewrite H3. destruct disk; eexists _, _; (split; [reflexivity|]); (split; [done|]); (split; [|done]);
        destruct H6 as (L & H6 & H7); exists k, L, [ack k]; (split; [done|]); (split; [done|]);
        (split; [cbn; by rewrite H6, app_assoc|]); by right; left.
    + eexists _, _. split; [reflexivity|]. split; [done|]. by exists k.
  - unfold recv_err. destruct (sending_retransmit k s Hs) as (s' & Hr' & Hs' & Hi). rewrite Hr'.
    eexists _, _. split; [reflexivity|]. split; [done|]. by exists k.
Qed.

Lemma serve_sending : forall fuel k s, sending k s ->
  exists r s', serve srv W fuel s = (r, s') /\ delivered s' /\
    (forall n text, r = Raise (TftpError n text) -> exists k', sending k' (set_blocksize bs s')).
Proof.
  induction fuel as [|fuel IH]; intros k s Hs; cbn [serve].
  { eexists _, _. split; [reflexivity|]. split; [by eapply sending_delivered|done]. }
  unfold pm_bind at 1, pm_get at 1. destruct (active s) eqn:Ha; cbn [negb].
  2: { eexists _, _. split; [reflexivity|]. split; [by eapply sending_delivered|done]. }
  unfold pm_bind at 1, recv, pm_bind at 1, pm_get at 1. unfold pm_bind at 1.
  destruct (wait_sending k (inbox s) (retry srv) s Hs) as (r & s1 & Hw & Hs1 & Hr). rewrite Hw.
  assert (forall s', resized s1 s' -> delivered s' /\ sending k (set_blocksize bs s')) as Hres.
  { intros s' [b ->]. destruct (sending_delivered k s1 Hs1) as (k' & L & E & ?). split; [by exists k', L, E|].
    by destruct Hs1. }
  destruct r as [data|e].
  2: { eexists _, _. split; [reflexivity|]. destruct (Hres s1) as [? ?]; [exists (blocksize s1); by destruct s1|].
       split; [done|]. intros. by exists k. }
  destruct (parse_spec data s1) as (r & s2 & Hp & Hres2 & Hsame). rewrite Hp.
  destruct (Hres s2 Hres2) as [Hd2 Hk2].
  destruct r as [pkt|e]; [|eexists _, _; split; [reflexivity|]; split; [done|]; intros; by exists k].
  destruct (is_request pkt) eqn:Hreq.
  - destruct pkt; try done. eexists _, _. split; [reflexivity|]. split; [done|]. intros. by exists k.
  - pose proof (Hsame pkt eq_refl Hreq) as ->. unfold pm_bind at 1.
    assert (active s1 = true) as Ha1 by (rewrite (se_active _ _ Hs1), <- (se_active _ _ Hs); done).
    destruct (dispatch_sending k pkt s1 Hs1 Ha1 Hreq) as (r & s3 & Hd & Hi & Hm). rewrite Hd.
    destruct r as [[]|e].
    + destruct Hm as [k' Hk']. by apply (IH k').
    + destruct Hm as [? Hne]. eexists _, _. split; [reflexivity|]. split; [done|].
      intros n text [= ->]. by destruct (Hne n text).
Qed.
End reading.

(** [data] asks to read a file with content [c] in blocks of [bs] bytes: the request is
    well formed, no option replaces its number, and the server finds the file.  With a [tsize] option the server waits for
    the acknowledgement of block 0; if the option is 0 it has sent the size before. *)
Definition oack_packet (size : Z) (blksize : option bytes) : bytes :=
  [0; 6] ++ concat ((fun kv => kv.1 ++ [0] ++ kv.2 ++ [0]) <$>
    [(lit "tsize", lit (pretty size))] ++ match blksize with Some v => [(lit "blksize", v)] | None => [] end).
Definition announced (pkt : gmap bytes bytes) (size : option Z) (pre : list bytes) (first : Z) : Prop :=
  match pkt !! lit "tsize" with
  | None => pre = [] /\ first = 1
  | Some v => exists n, py_int v = Ret n /\ first = 0 /\
      if n =? 0 then exists z, size = Some z /\ pre = [oack_packet z (pkt !! lit "blksize")] else pre = []
  end.
Definition requested (data : bytes) (bs : Z) (c : bytes) (disk : bool) (pre : list bytes) (first : Z) (s : conn) : Prop :=
  exists filename pkt resource text,
    parse W data s = (Ret (PReq RRQ pkt), set_blocksize bs s) /\
    pkt !! lit "opcode" = None /\ pkt !! lit "filename" = Some filename /\ is_Some (pkt !! lit "mode") /\
    choose_resource srv W filename (set_active true (set_blocksize bs s))
      = (Ret (resource, text), set_active true (set_blocksize bs s)) /\
    open_resource W resource text = Some (Reading disk c) /\
    announced pkt (resource_size W resource text) pre first.

Lemma nblocks_pos bs c : 0 < bs -> 1 <= nblocks bs c.
Proof. intros Hbs. unfold nblocks. pose proof (Z.div_pos (zlen c) bs (zlen_nonneg c) Hbs). lia. Qed.

Lemma send_oack_spec z blksize s :
  send_oack ([(lit "tsize", lit (pretty z))] ++ match blksize with Some v => [(lit "blksize", v)] | None => [] end) s =
  (Ret tt, set_lastpkt [] (sendto (oack_packet z blksize) s)).
Proof. unfold send_oack, pm_bind at 1, pm_lift at 1. rewrite pack_h_ok by (unfold OACK; lia). done. Qed.

(** The session of a read is that of a connection that has sent the first block, or none when the
    request has a [tsize] option. *)
Lemma session_read data bs c disk pre first ip events :
  0 < bs -> requested data bs c disk pre first (new_conn srv ip events) ->
  exists s, 0 <= first <= 1 /\ sending bs c disk pre first s /\ inbox s = events /\
    session srv W data (new_conn srv ip events) = serve srv W (S (S (length events))) s.
Proof.
  intros Hbs (filename & pkt & resource & text & Hp & Hop & Hfn & [mode Hmd] & Hc & Ho & Han).
  set (s0 := set_active true (set_blocksize bs (new_conn srv ip events))) in *.
  pose proof (nblocks_pos bs c Hbs) as Hnb.
  assert (forall s1, lastpkt s1 = [] -> file_ s1 = Reading disk c -> blocksize s1 = bs -> blockNumber s1 = 0 -> active s1 = true ->
    sent s1 = pre -> sending bs c disk pre 0 s1) as H0.
  { intros s1 E1 E2 E3 E4 E5 E6. split; try done; [lia|..].
    - rewrite E5. symmetry. apply Z.ltb_lt. lia.
    - exists []. rewrite E6, app_nil_r. split; [done|constructor]. }
  unfold session, pm_bind at 1. rewrite Hp, Hop. rewrite bool_decide_eq_false_2 by (by intros []). unfold pm_bind at 1, pm_modify at 1. fold s0.
  rewrite Z.eqb_refl. unfold pm_bind at 1, handle_rrq. unfold pm_bind at 1, pm_lift at 1. rewrite Hfn. unfold pm_bind at 1, pm_lift at 1. rewrite Hmd.
  cbn [of_option]. unfold pm_bind at 1. rewrite Hc. unfold announced in Han. destruct (pkt !! lit "tsize") as [v|] eqn:Et.
  - destruct Han as (n & Hn & -> & Hpre). unfold pm_bind at 1. unfold pm_bind at 1, pm_lift at 1. rewrite Hn. unfold pm_ret at 1.
    destruct (n =? 0); cbn [negb].
    + destruct Hpre as (z & -> & ->). unfold pm_bind at 1. unfold pm_bind at 1. rewrite send_oack_spec. unfold pm_ret at 1. cbn [negb].
      rewrite Ho. unfold pm_bind at 1, pm_modify at 1. unfold pm_ret at 1. unfold pm_bind, pm_get.
      eexists. split; [lia|]. split; [|split; [|reflexivity]]; [by apply H0|done].
    + subst pre. unfold pm_bind at 1, pm_ret at 1. cbn [negb]. rewrite Ho. unfold pm_bind at 1, pm_modify at 1. unfold pm_ret at 1. unfold pm_bind, pm_get.
      eexists. split; [lia|]. split; [|split; [|reflexivity]]; [by apply H0|done].
  - destruct Han as [-> ->]. unfold pm_bind at 1, pm_ret at 1. cbn [negb]. unfold pm_bind at 1, pm_ret at 1. cbn [negb]. rewrite Ho.
    unfold pm_bind at 1, pm_modify at 1.
    destruct (send_next bs c disk [] Hbs 0 (set_file (Reading disk c) s0) ltac:(by apply H0) ltac:(lia)) as (r & s & Hn & Hi & Hlt & _).
    destruct (Hlt ltac:(lia)) as [-> Hs]. rewrite Hn. unfold pm_bind, pm_get. rewrite Hi.
    exists s. split; [lia|]. split; [done|]. by split.
Qed.

Lemma send_error_spec n text s : exists r s', send_error n text s = (r, s') /\
  (s' = s \/ s' = sendto (error_packet n text) s).
Proof.
  unfold send_error, pm_bind at 1, pm_lift at 1. rewrite pack_h_ok by (unfold ERR; lia).
  unfold pm_bind, pm_lift. unfold pack_h. destruct (_ && _); eexists _, _; (split; [reflexivity|]); auto.
Qed.

(** [C17] Whatever the client and the network do (time-outs, lost, repeated, late or
    foreign packets, errors, requests), a read connection sends the blocks of the file
    in order and numbered from 1, each perhaps repeatedly, and after them at most one
    acknowledgement or error; a block past 32767 is never sent.  Before the blocks it sends
    the size of the file, exactly when the request asks for it with a [tsize] of 0. *)
Theorem read_transfer_safe data bs c disk pre first ip events :
  0 < bs -> requested data bs c disk pre first (new_conn srv ip events) ->
  delivered bs c pre (connect srv W data (new_conn srv ip events)).2.
Proof.
  intros Hbs Hreq. destruct (session_read data bs c disk pre first ip events Hbs Hreq) as (s & _ & Hs & Hi & Hser).
  unfold connect. rewrite Hser.
  destruct (serve_sending bs c disk pre Hbs (S (S (length events))) first s Hs) as (r & s' & -> & Hd & Hte).
  destruct r as [[]|e]; [done|]. destruct e; try done.
  destruct (Hte _ _ eq_refl) as [k [Hk _ _ _ _ _ (L & HL & Hst)]].
  destruct (send_error_spec errnum errtext s') as (r & s2 & -> & [->| ->]); [done|].
  exists k, L, [error_packet errnum errtext]. split; [done|]. split; [done|]. split; [cbn in *; by rewrite HL, app_assoc|].
  right. right. by exists errnum, errtext.
Qed.

(** * Progress *)

Definition is_timeout (e : event) : bool := match e with Timeout => true | _ => false end.
(** What may arrive while a packet is awaited: time-outs, but not as many as the server
    retries, packets from elsewhere, and packets of the client that are [stale]. *)
Definition noise (stale : bytes -> Prop) (events : list event) : Prop :=
  (length (filter is_timeout events) < retry srv)%nat /\
  Forall (fun e => match e with
                   | Timeout | Packet false _ => True
                   | Packet true d => stale d
                   end) events.

(** Waiting amid noise, for an invariant [P] of the waiting connection: the first packet
    of the client is delivered, a stale one or the one that is wanted. *)
Section waiting.
Context (P : conn -> Prop) (bs : Z) (stale : bytes -> Prop) (w : bytes) (rest : list event).
Context (HPinbox : forall x s, P s -> P (set_inbox x s)).
Context (HPretransmit : forall s, P s -> exists s', retransmit s = (Ret tt, s') /\ P s').
Context (HPblocksize : forall s, P s -> blocksize s = bs) (Hbs : 0 < bs).
Context (Hw : zlen w <= bs + HDRSIZE) (Hstale : forall d, stale d -> zlen d <= bs + HDRSIZE).

Lemma wait_noise : forall ns n s, P s -> noise stale ns -> (length (filter is_timeout ns) < n)%nat ->
  exists d s', wait n (ns ++ Packet true w :: rest) s = (Ret d, s') /\ P s' /\
    ((d = w /\ inbox s' = rest) \/
     (stale d /\ exists ns', inbox s' = ns' ++ Packet true w :: rest /\ noise stale ns' /\ (length ns' < length ns)%nat)).
Proof.
  assert (forall d : bytes, zlen d <= bs + HDRSIZE -> take (Z.to_nat (bs + HDRSIZE)) d = d) as Htake.
  { intros d Hd. apply take_ge. unfold zlen in Hd. lia. }
  assert (forall s, P s -> (blocksize s + HDRSIZE <? 0) = false) as Hsize.
  { intros s Hs. rewrite (HPblocksize s Hs). apply Z.ltb_ge. unfold HDRSIZE. lia. }
  induction ns as [|e ns IH]; intros n s Hs [Hn Hall] Hlt; (destruct n as [|n]; [cbn in Hlt; lia|]); cbn [app wait].
  - unfold pm_bind at 1, pm_get at 1. rewrite Hsize, (HPblocksize s), Htake by done.
    eexists w, _. split; [reflexivity|]. split; [by apply HPinbox|]. by left.
  - apply Forall_cons in Hall as [He Hall].
    assert (noise stale ns) as Hns.
    { split; [|done]. rewrite filter_cons in Hn. destruct (decide _); cbn in Hn; lia. }
    destruct e as [|[|] d].
    + destruct (HPretransmit s Hs) as (s' & Hr & Hs'). unfold pm_bind at 1. rewrite Hr.
      destruct (IH n s' Hs' Hns) as (d & s2 & Hwt & Hs2 & Hcase);
        [rewrite filter_cons_True in Hlt by done; cbn [length] in Hlt; lia|].
      exists d, s2. split; [done|]. split; [done|].
      destruct Hcase as [?|(? & ns' & ? & ? & ?)]; [by left|]. right. split; [done|]. exists ns'. cbn. auto with lia.
    + unfold pm_bind at 1, pm_get at 1. rewrite Hsize, (HPblocksize s), Htake by auto.
      eexists d, _. split; [reflexivity|]. split; [by apply HPinbox|]. right.
      split; [done|]. exists ns. cbn. auto with lia.
    + unfold pm_bind at 1, pm_get at 1. rewrite Hsize by done.
      destruct (IH (S n) s Hs Hns) as (d' & s2 & Hwt & Hs2 & Hcase);
        [rewrite filter_cons_False in Hlt by (by intros []); lia|].
      exists d', s2. split; [done|]. split; [done|].
      destruct Hcase as [?|(? & ns' & ? & ? & ?)]; [by left|]. right. split; [done|]. exists ns'. cbn. auto with lia.
Qed.
End waiting.

(** An acknowledgement of another block *)
Definition stale_ack (i : Z) (d : bytes) : Prop := exists j, d = ack j /\ 0 <= j <= 32767 /\ j <> i.
Lemma zlen_ack j : zlen (ack j) = 4.
Proof. unfold ack, zlen. by rewrite length_app, length_be_split. Qed.
(** The client acknowledges [n] blocks from [i] on, amid noise. *)
Fixpoint acked (i : Z) (n : nat) (events : list event) : Prop :=
  match n with
  | O => True
  | S n => exists ns rest, events = ns ++ Packet true (ack i) :: rest /\ noise (stale_ack i) ns /\ acked (i + 1) n rest
  end.

Section progress.
Context (bs : Z) (c : bytes) (disk : bool) (pre : list bytes) (Hbs : 0 < bs).

Lemma wait_ack i rest ns s : 0 <= i <= 32767 ->
  sending bs c disk pre i s -> noise (stale_ack i) ns ->
  exists j s', wait (retry srv) (ns ++ Packet true (ack i) :: rest) s = (Ret (ack j), s') /\ sending bs c disk pre i s' /\
    0 <= j <= 32767 /\
    ((j = i /\ inbox s' = rest) \/
     (j <> i /\ exists ns', inbox s' = ns' ++ Packet true (ack i) :: rest /\ noise (stale_ack i) ns' /\
        (length ns' < length ns)%nat)).
Proof.
  intros Hi Hs Hns.
  destruct (wait_noise (sending bs c disk pre i) bs (stale_ack i) (ack i) rest) with (ns := ns) (n := retry srv) (s := s)
    as (d & s1 & Hw & Hs1 & Hcase); try done.
  - apply sending_inbox.
  - intros s0 H0. destruct (sending_retransmit bs c disk pre i s0 H0) as (s' & ? & ? & _). by exists s'.
  - by intros s0 [].
  - rewrite zlen_ack. unfold HDRSIZE. lia.
  - intros d (j & -> & _). rewrite zlen_ack. unfold HDRSIZE. lia.
  - apply Hns.
  - destruct Hcase as [[-> ?]|[(j & -> & Hj & Hne) ?]]; [exists i, s1|exists j, s1]; split_and!; auto; lia.
Qed.

(** The server answers the acknowledgement of the block it sent last. *)
Lemma serve_ack i rest : 0 <= i < nblocks bs c -> i <= 32767 -> forall m ns s fuel,
  (length ns < m)%nat -> sending bs c disk pre i s -> noise (stale_ack i) ns -> inbox s = ns ++ Packet true (ack i) :: rest ->
  (length (inbox s) < fuel)%nat ->
  exists fuel' s', inbox s' = rest /\ (length rest < fuel')%nat /\
    serve srv W fuel s = (if i <? 32767 then serve srv W fuel' s' else (Raise StructError, s')) /\
    if i <? 32767 then sending bs c disk pre (i + 1) s' else exists L, sent s' = pre ++ L /\ stutter (data_packets bs c i) L.
Proof.
  intros Hi Hle. induction m as [|m IH]; intros ns s fuel Hm Hs Hns Hin Hf; [lia|].
  destruct fuel as [|fuel]; [lia|]. cbn [serve]. unfold pm_bind at 1, pm_get at 1.
  rewrite (se_active _ _ _ _ _ _ Hs), (proj2 (Z.ltb_lt _ _)) by lia. cbn [negb].
  unfold pm_bind at 1, recv, pm_bind at 1, pm_get at 1. unfold pm_bind at 1. rewrite Hin.
  destruct (wait_ack i rest ns s ltac:(lia) Hs Hns) as (j & s1 & Hw & Hs1 & Hj & Hcase).
  rewrite Hw, parse_ack by lia. unfold pm_bind at 1. cbn [dispatch].
  unfold recv_ack, pm_bind at 1, pm_get at 1. rewrite (se_number _ _ _ _ _ _ Hs1).
  rewrite Hin, length_app in Hf. cbn [length] in Hf.
  destruct Hcase as [[-> Hrest]|(Hne & ns' & Hin' & Hns' & Hlen)].
  - rewrite Z.eqb_refl. unfold handle_ack, pm_bind at 1, pm_get at 1.
    rewrite (se_active _ _ _ _ _ _ Hs1), (proj2 (Z.ltb_lt _ _)) by lia.
    destruct (send_next bs c disk pre Hbs i s1 Hs1 ltac:(lia)) as (r & s2 & Hn & Hi2 & Hlt & Heq). rewrite Hn.
    exists fuel, s2. split; [by rewrite Hi2|]. split; [lia|]. destruct (Z.ltb_spec i 32767) as [H|H].
    + by destruct (Hlt H) as [-> ?].
    + destruct (Heq ltac:(lia)) as [-> ->]. split; [done|]. exact (se_sent _ _ _ _ _ _ Hs1).
  - rewrite (proj2 (Z.eqb_neq j i)) by done. unfold pm_ret at 1.
    apply (IH ns' s1 fuel); [lia|done|done|done|]. rewrite Hin', length_app. cbn [length]. lia.
Qed.

Lemma serve_acked m n : forall i s fuel,
  0 <= i -> i + Z.of_nat n <= Z.min (nblocks bs c) 32767 -> sending bs c disk pre i s -> acked i (n + m) (inbox s) ->
  (length (inbox s) < fuel)%nat ->
  exists fuel' s', serve srv W fuel s = serve srv W fuel' s' /\ sending bs c disk pre (i + Z.of_nat n) s' /\
    acked (i + Z.of_nat n) m (inbox s') /\ (length (inbox s') < fuel')%nat.
Proof.
  induction n as [|n IH]; intros i s fuel Hi Hle Hs Ha Hf.
  { exists fuel, s. by rewrite Z.add_0_r. }
  destruct Ha as (ns & rest & Hin & Hns & Ha).
  destruct (serve_ack i rest ltac:(lia) ltac:(lia) (S (length ns)) ns s fuel) as (fuel1 & s1 & Hr & Hf1 & Hstep);
    [lia|done..|]. rewrite (proj2 (Z.ltb_lt i 32767)) in Hstep by lia. destruct Hstep as [Hser Hs1]. subst rest.
  destruct (IH (i + 1) s1 fuel1) as (fuel2 & s2 & Hser2 & Hs2 & Ha2 & Hf2); [lia|lia|done..|].
  exists fuel2, s2. rewrite Hser. replace (i + Z.of_nat (S n)) with (i + 1 + Z.of_nat n) by lia. done.
Qed.

(** [C6] A read completes: for a file of at most 32767 blocks, when the client acknowledges
    each block, and block 0 if it asked for the size, amid fewer time-outs per block than the
    server retries and any number of stale acknowledgements and packets from elsewhere, all
    blocks of the file are sent in order, after its size if that was asked for, their contents
    together are the file, and the connection ends without an error. *)
Theorem read_transfer_complete data first ip events :
  requested data bs c disk pre first (new_conn srv ip events) -> nblocks bs c <= 32767 ->
  acked first (Z.to_nat (nblocks bs c - first)) events ->
  exists s' L, connect srv W data (new_conn srv ip events) = (Ret tt, s') /\ active s' = false /\
    sent s' = pre ++ L /\ stutter (data_packets bs c (nblocks bs c)) L /\
    concat (block bs c <$> seqZ 1 (nblocks bs c)) = c.
Proof.
  intros Hreq Hle Ha. destruct (session_read data bs c disk pre first ip events Hbs Hreq) as (s & Hfirst & Hs & Hi & Hser).
  pose proof (nblocks_pos bs c Hbs).
  destruct (serve_acked 0 (Z.to_nat (nblocks bs c - first)) first s (S (S (length events))))
    as (fuel & s' & Hser' & Hs' & _ & Hf); [lia|lia|done|by rewrite Nat.add_0_r, Hi|rewrite Hi; lia|].
  replace (first + Z.of_nat _) with (nblocks bs c) in Hs' by lia.
  assert (active s' = false) as Hact by (rewrite (se_active _ _ _ _ _ _ Hs'); apply Z.ltb_irrefl).
  destruct (se_sent _ _ _ _ _ _ Hs') as (L & HL & Hst).
  exists s', L. split_and!; [|done..|by apply blocks_whole].
  unfold connect. rewrite Hser, Hser'. destruct fuel as [|fuel]; [lia|]. cbn [serve].
  unfold pm_bind at 1, pm_get at 1. by rewrite Hact.
Qed.

(** A file of more than 32767 blocks is never sent: the number of block 32768 does
    not fit the signed field, and after 32767 acknowledged blocks the connection ends
    without a word to the client. *)
Theorem large_file_truncated data first ip events :
  requested data bs c disk pre first (new_conn srv ip events) -> 32767 < nblocks bs c ->
  acked first (Z.to_nat (32768 - first)) events ->
  exists s' L, connect srv W data (new_conn srv ip events) = (Ret tt, s') /\
    sent s' = pre ++ L /\ stutter (data_packets bs c 32767) L.
Proof.
  intros Hreq Hgt Ha. destruct (session_read data bs c disk pre first ip events Hbs Hreq) as (s & Hfirst & Hs & Hi & Hser).
  replace (Z.to_nat (32768 - first)) with (Z.to_nat (32767 - first) + 1)%nat in Ha by lia.
  destruct (serve_acked 1 (Z.to_nat (32767 - first)) first s (S (S (length events)))) as (fuel & s' & Hser' & Hs' & Ha' & Hf);
    [lia|lia|done|by rewrite Hi|rewrite Hi; lia|].
  replace (first + Z.of_nat _) with 32767 in Hs', Ha' by lia. destruct Ha' as (ns & rest & Hin & Hns & _).
  destruct (serve_ack 32767 rest ltac:(lia) ltac:(lia) (S (length ns)) ns s' fuel) as (fuel1 & s1 & Hr & _ & Hend & L & Hst);
    [lia|done..|].
  exists s1, L. split; [|done]. unfold connect. by rewrite Hser, Hser', Hend.
Qed.
End progress.

(** * Writing *)

Definition data_msg (i : Z) (d : bytes) : bytes := [0; 3] ++ be_split 2 i ++ d.
Lemma parse_data s i d : 0 <= i <= 32767 -> parse W (data_msg i d) s = (Ret (PData i d), s).
Proof.
  intros Hi. unfold parse. unfold pm_bind at 1, pm_lift at 1.
  assert (exists a b, be_split 2 i = [a; b]) as (a & b & E).
  { pose proof (length_be_split 2 i). destruct (be_split 2 i) as [|a [|b [|]]]; try done. by exists a, b. }
  unfold data_msg. rewrite E. cbn [app].
  assert (forall l : bytes, slice_to ([0; 3; a; b] ++ l) 2 = [0; 3] /\ slice ([0; 3; a; b] ++ l) 2 4 = [a; b] /\
            slice_from ([0; 3; a; b] ++ l) 4 = l) as Hsl.
  { intros l. unfold slice_to, slice_from, slice. rewrite !clamp_nonneg, zlen_app by lia.
    change (zlen [0; 3; a; b]) with 4. pose proof (zlen_nonneg l).
    rewrite (Z.min_l 2), (Z.min_l 4) by lia. done. }
  change (0 :: 3 :: a :: b :: d) with ([0; 3; a; b] ++ d). destruct (Hsl d) as (-> & -> & ->).
  cbn. unfold pm_bind, pm_lift. by rewrite <- E, unpack_h_ok.
Qed.

Section writing.
Context (bs : Z) (resource : bytes) (Hbs : 0 < bs).

(** The blocks [ds] have been stored and acknowledged. *)
Record storing (ds : list bytes) (s : conn) : Prop := {
  sto_blocksize : blocksize s = bs;
  sto_number : blockNumber s = zlen ds + 1;
  sto_file : file_ s = Writing resource (concat ds);
  sto_last : lastpkt s = ack (zlen ds);
  sto_sent : stutter (ack <$> seqZ 0 (zlen ds + 1)) (sent s)
}.
Lemma acks_snoc n : 0 <= n -> ack <$> seqZ 0 (n + 1) = (ack <$> seqZ 0 n) ++ [ack n].
Proof.
  intros Hn. rewrite seqZ_app, fmap_app by lia. change (seqZ (0 + n) 1) with [0 + (0 + n)].
  cbn [fmap list_fmap]. by replace (0 + (0 + n)) with n by lia.
Qed.
Lemma storing_retransmit ds s :
  storing ds s -> exists s', retransmit s = (Ret tt, s') /\ storing ds s' /\ active s' = active s.
Proof.
  intros [H1 H2 H3 H4 H5]. unfold retransmit, pm_bind, pm_get. rewrite H4, bool_decide_eq_false_2 by done.
  eexists. split; [reflexivity|]. split; [|done]. split; try done. cbn [sendto sent].
  rewrite acks_snoc in * by apply zlen_nonneg. by apply stutter_again.
Qed.

(** A block is acknowledged and appended to the file. *)
Lemma store_block ds d s : storing ds s -> zlen ds + 1 <= 32767 ->
  exists s', recv_data (zlen ds + 1) d s = (Ret tt, s') /\ storing (ds ++ [d]) s' /\
    active s' = (bs =? zlen d) /\ inbox s' = inbox s.
Proof.
  intros [H1 H2 H3 H4 H5] Hle. pose proof (zlen_nonneg ds). unfold recv_data, pm_bind at 1, pm_get at 1.
  rewrite H2, Z.eqb_refl. unfold pm_bind at 1, pm_modify at 1.
  unfold handle_data, pm_bind at 1, send_ack, pm_bind at 1, pm_get at 1. cbn [blockNumber set_active]. rewrite H2.
  unfold pm_bind at 1, pm_modify at 1. unfold pm_bind at 1, pm_lift at 1.
  rewrite pack_h_ok by (unfold ACK; lia). unfold pm_bind at 1, pm_lift at 1. rewrite pack_h_ok by lia.
  unfold send, pm_modify. unfold file_write, pm_bind, pm_get. cbn [file_ set_active set_blockNumber set_lastpkt sendto].
  rewrite H3. eexists. split; [reflexivity|]. split; [|by rewrite H1].
  assert (zlen (ds ++ [d]) = zlen ds + 1) as Hz by (rewrite zlen_app, zlen_cons, zlen_nil; lia).
  split; rewrite ?Hz; try done; cbn [set_file set_active set_blockNumber set_lastpkt sendto file_ sent].
  - by rewrite concat_app, concat_cons, concat_nil, app_nil_r.
  - rewrite acks_snoc by lia. by apply stutter_new.
Qed.

(** A block other than [i] *)
Definition stale_data (i : Z) (m : bytes) : Prop :=
  exists j d, m = data_msg j d /\ 0 <= j <= 32767 /\ j <> i /\ zlen d <= bs.
(** The client sends the blocks [ds], numbered from [i], amid noise. *)
Fixpoint fed (i : Z) (ds : list bytes) (events : list event) : Prop :=
  match ds with
  | [] => True
  | d :: ds => exists ns rest, events = ns ++ Packet true (data_msg i d) :: rest /\
      noise (stale_data i) ns /\ fed (i + 1) ds rest
  end.
(** Full blocks and a shorter last one *)
Fixpoint well_cut (ds : list bytes) : Prop :=
  match ds with
  | [] => False
  | [d] => zlen d < bs
  | d :: ds => zlen d = bs /\ well_cut ds
  end.
Lemma zlen_data_msg i d : zlen (data_msg i d) = zlen d + 4.
Proof. unfold data_msg, zlen. rewrite !length_app, length_be_split. cbn. lia. Qed.

(** The server stores the block it waits for. *)
Lemma serve_block before d rest : zlen d <= bs -> zlen before + 1 <= 32767 -> forall m ns s fuel,
  (length ns < m)%nat -> storing before s -> active s = true -> noise (stale_data (zlen before + 1)) ns ->
  inbox s = ns ++ Packet true (data_msg (zlen before + 1) d) :: rest -> (length (inbox s) < fuel)%nat ->
  exists fuel' s', serve srv W fuel s = serve srv W fuel' s' /\ storing (before ++ [d]) s' /\
    active s' = (bs =? zlen d) /\ inbox s' = rest /\ (length rest < fuel')%nat.
Proof.
  intros Hd Hle. pose proof (zlen_nonneg before). set (i := zlen before + 1) in *.
  induction m as [|m IH]; intros ns s fuel Hm Hs Ha Hns Hin Hf; [lia|].
  destruct fuel as [|fuel]; [lia|]. cbn [serve]. unfold pm_bind at 1, pm_get at 1. rewrite Ha. cbn [negb].
  unfold pm_bind at 1, recv, pm_bind at 1, pm_get at 1. unfold pm_bind at 1. rewrite Hin.
  destruct (wait_noise (fun s => storing before s /\ active s = true) bs (stale_data i) (data_msg i d) rest)
    with (ns := ns) (n := retry srv) (s := s) as (p & s1 & Hw & [Hs1 Ha1] & Hcase); try done.
  - intros x s0 [[] ?]. by split.
  - intros s0 [H0 Ha0]. destruct (storing_retransmit before s0 H0) as (s' & ? & ? & Ha'). exists s'. by rewrite Ha'.
  - by intros s0 [[] _].
  - rewrite zlen_data_msg. unfold HDRSIZE. lia.
  - intros p (j & e & -> & _ & _ & He). rewrite zlen_data_msg. unfold HDRSIZE. lia.
  - apply Hns.
  - rewrite Hw. rewrite Hin, length_app in Hf. cbn [length] in Hf.
    destruct Hcase as [[-> Hrest]|((j & e & -> & Hj & Hne & He) & ns' & Hin' & Hns' & Hlen)];
      rewrite parse_data by lia; unfold pm_bind at 1; cbn [dispatch].
    + destruct (store_block before d s1 Hs1 Hle) as (s2 & Hst & Hs2 & Ha2 & Hi2). fold i in Hst. rewrite Hst.
      exists fuel, s2. split; [done|]. split; [done|]. split; [done|]. split; [by rewrite Hi2|lia].
    + unfold recv_data, pm_bind at 1, pm_get at 1. rewrite (sto_number _ _ Hs1). fold i.
      rewrite (proj2 (Z.eqb_neq j i)) by done. unfold pm_ret at 1.
      apply (IH ns' s1 fuel); [lia|done|done|done|done|]. rewrite Hin', length_app. cbn [length]. lia.
Qed.

Lemma serve_fed : forall ds before s fuel,
  well_cut ds -> zlen before + zlen ds <= 32767 -> storing before s -> active s = true ->
  fed (zlen before + 1) ds (inbox s) -> (length (inbox s) < fuel)%nat ->
  exists s', serve srv W fuel s = (Ret tt, s') /\ storing (before ++ ds) s' /\ active s' = false.
Proof.
  induction ds as [|d ds IH]; intros before s fuel Hcut Hle Hs Ha Hfed Hf; [done|].
  destruct Hfed as (ns & rest & Hin & Hns & Hfed). rewrite zlen_cons in Hle. pose proof (zlen_nonneg ds).
  assert (zlen d <= bs) as Hd by (destruct ds; cbn in Hcut; lia).
  destruct (serve_block before d rest Hd ltac:(lia) (S (length ns)) ns s fuel)
    as (fuel1 & s1 & -> & Hs1 & Ha1 & Hi1 & Hf1); [lia|done..|]. subst rest.
  assert (zlen (before ++ [d]) = zlen before + 1) as Hz by (rewrite zlen_app, zlen_cons, zlen_nil; lia).
  destruct ds as [|d' ds].
  - exists s1. cbn in Hcut. rewrite (proj2 (Z.eqb_neq _ _)) in Ha1 by lia.
    destruct fuel1 as [|fuel1]; [lia|]. cbn [serve]. unfold pm_bind at 1, pm_get at 1. by rewrite Ha1.
  - destruct Hcut as [Hfull Hcut]. rewrite (proj2 (Z.eqb_eq _ _)) in Ha1 by done.
    destruct (IH (before ++ [d]) s1 fuel1) as (s2 & Hser & Hs2 & Ha2); [done|lia|done|done|by rewrite Hz|done|].
    exists s2. by rewrite <- app_assoc in Hs2.
Qed.

(** [data] asks to write [resource] in blocks of [bs] bytes. *)
Definition write_requested (data : bytes) (s : conn) : Prop :=
  exists pkt,
    parse W data s = (Ret (PReq WRQ pkt), set_blocksize bs s) /\
    pkt !! lit "opcode" = None /\ pkt !! lit "filename" = Some resource /\ is_Some (pkt !! lit "mode") /\
    is_url W resource = false /\ can_write W resource = true.

(** A write stores what the client sends: full blocks numbered from 1 with a
    shorter last one, amid fewer time-outs per block than the server retries and any
    number of repeated blocks and packets from elsewhere, give a file of exactly their
    contents, and every block, and block 0, is acknowledged in order. *)
Theorem write_transfer data ip events ds :
  write_requested data (new_conn srv ip events) -> well_cut ds -> zlen ds <= 32767 -> fed 1 ds events ->
  exists s', connect srv W data (new_conn srv ip events) = (Ret tt, s') /\ active s' = false /\
    file_ s' = Writing resource (concat ds) /\ stutter (ack <$> seqZ 0 (zlen ds + 1)) (sent s').
Proof.
  intros (pkt & Hp & Hop & Hfn & [mode Hmd] & Hu & Hw) Hcut Hle Hfed.
  set (s0 := set_file (Writing resource []) (set_active true (set_blocksize bs (new_conn srv ip events)))).
  assert (exists s, send_ack s0 = (Ret tt, s) /\ storing [] s /\ active s = true /\ inbox s = events)
    as (s & Hack & Hs & Ha & Hi).
  { eexists. split; [reflexivity|]. split; [|done]. split; try done. apply (stutter_new [] []). constructor. }
  destruct (serve_fed ds [] s (S (S (length events)))) as (s' & Hser & Hs' & Ha'); [done|rewrite zlen_nil; lia|done|done|by rewrite Hi|rewrite Hi; lia|].
  exists s'. split; [|split; [done|by destruct Hs']].
  unfold connect, session, pm_bind at 1. rewrite Hp, Hop. rewrite bool_decide_eq_false_2 by (by intros []). unfold pm_bind at 1, pm_modify at 1.
  change (WRQ =? RRQ) with false. cbv iota. unfold pm_bind at 1. unfold handle_wrq.
  unfold pm_bind at 1, pm_lift at 1. rewrite Hfn. unfold pm_bind at 1, pm_lift at 1. rewrite Hmd. cbn [of_option]. rewrite Hu, Hw.
  unfold pm_bind at 1, pm_modify at 1. fold s0. rewrite Hack. unfold pm_bind, pm_get. by rewrite Hi, Hser.
Qed.
End writing.
End transfer.

(** * Examples *)

Definition example_server (bs : Z) : server := Server 5 bs None None.
Definition example_world (c : bytes) : world :=
  World Ret (fun _ => false) (fun _ f => f) (fun _ => false) (Ret None) (fun _ => false) (fun _ => None)
    (fun f => if bool_decide (f = lit "f") then Some c else None) (fun f => bool_decide (f = lit "f")).
Definition example_rrq : bytes := [0; 1] ++ lit "f" ++ [0] ++ lit "octet" ++ [0].
Definition client : bytes := lit "10.0.0.2".

Lemma example_requested bs c events :
  requested (example_server bs) (example_world c) example_rrq bs c true [] 1 (new_conn (example_server bs) client events).
Proof. eexists (lit "f"), _, (lit "f"), None. split_and!; (reflexivity || by eexists). Qed.
(** A request that asks for the size, of a file of seven bytes *)
Definition example_tsize : bytes := example_rrq ++ lit "tsize" ++ [0; 48; 0].
Definition example_file : bytes := [1; 2; 3; 4; 5; 6; 7].
Lemma tsize_requested events :
  requested (example_server 3) (example_world example_file) example_tsize 3 example_file true [[0; 6] ++ lit "tsize" ++ [0; 55; 0]] 0
    (new_conn (example_server 3) client events).
Proof.
  eexists (lit "f"), _, (lit "f"), None. split_and!; try (reflexivity || by eexists).
  exists 0. split; [reflexivity|]. split; [done|]. exists 7. by split.
Qed.

(** The first acknowledgement comes late and is repeated, and a stranger interferes. *)
Definition example_events : list event :=
  [Timeout; Packet false [0; 4; 0; 1]; Packet true (ack 1); Packet true (ack 1); Timeout; Packet true (ack 2)].
Lemma example_acked : acked (example_server 3) 1 2 example_events.
Proof.
  exists [Timeout; Packet false [0; 4; 0; 1]], [Packet true (ack 1); Timeout; Packet true (ack 2)].
  split; [done|]. split; [split; [by apply (bool_decide_unpack _); vm_compute|by repeat constructor]|].
  exists [Packet true (ack 1); Timeout], []. split; [done|]. split; [|done]. split; [by apply (bool_decide_unpack _); vm_compute|].
  apply Forall_cons. split; [exists 1; split; [done|lia]|by repeat constructor].
Qed.

Lemma read_transfer_safe_witness :
  delivered 3 example_file [[0; 6] ++ lit "tsize" ++ [0; 55; 0]]
    (connect (example_server 3) (example_world example_file) example_tsize
       (new_conn (example_server 3) client [Timeout; Packet true (ack 0); Packet true (ack 7); Packet true [9; 9]])).2.
Proof.
  apply (read_transfer_safe (example_server 3) (example_world example_file) example_tsize 3 _ true _ 0);
    [lia|apply tsize_requested].
Defined.
Lemma read_transfer_complete_witness :
  exists s' L, connect (example_server 3) (example_world example_file) example_tsize
      (new_conn (example_server 3) client (Packet true (ack 0) :: example_events)) = (Ret tt, s') /\ active s' = false /\
    sent s' = [[0; 6] ++ lit "tsize" ++ [0; 55; 0]] ++ L /\ stutter (data_packets 3 example_file 3) L /\
    concat (block 3 example_file <$> seqZ 1 3) = example_file.
Proof.
  apply (read_transfer_complete (example_server 3) (example_world example_file)
           3 example_file true _ ltac:(lia) example_tsize 0 client (Packet true (ack 0) :: example_events));
    [apply tsize_requested|vm_compute; done|].
  exists [], example_events. split; [done|]. split; [|apply example_acked]. split; [by apply (bool_decide_unpack _); vm_compute|constructor].
Defined.

Lemma acked_plain srv rest n : (0 < retry srv)%nat -> forall i,
  acked srv i n (((fun j => Packet true (ack j)) <$> seqZ i (Z.of_nat n)) ++ rest).
Proof.
  intros Hr. induction n as [|n IH]; intros i; [done|]. rewrite seqZ_cons by lia.
  exists [], (((fun j => Packet true (ack j)) <$> seqZ (i + 1) (Z.of_nat n)) ++ rest).
  split; [cbn; do 4 f_equal; lia|]. split; [by split; [|constructor]|]. apply IH.
Qed.
Definition large_file : bytes := py_repeat 7 40000.
Lemma large_file_truncated_witness :
  let events := (fun j => Packet true (ack j)) <$> seqZ 1 32767 in
  exists s' L, connect (example_server 1) (example_world large_file) example_rrq
      (new_conn (example_server 1) client events) = (Ret tt, s') /\
    sent s' = [] ++ L /\ stutter (data_packets 1 large_file 32767) L.
Proof.
  intros events.
  apply (large_file_truncated (example_server 1) (example_world large_file) 1 large_file true [] ltac:(lia) example_rrq 1 client).
  - apply example_requested.
  - unfold nblocks, large_file. rewrite zlen_repeat, Z.div_1_r by lia. lia.
  - rewrite <- (app_nil_r events). unfold events. replace 32767 with (Z.of_nat (Z.to_nat 32767)) at 2 by lia.
    apply acked_plain. cbn. lia.
Defined.

Definition example_wrq : bytes := [0; 2] ++ lit "f" ++ [0] ++ lit "octet" ++ [0].
Lemma write_transfer_witness :
  exists s', connect (example_server 3) (example_world []) example_wrq
      (new_conn (example_server 3) client
         [Packet true (data_msg 1 [1; 2; 3]); Timeout; Packet true (data_msg 1 [1; 2; 3]); Packet true (data_msg 2 [4])])
      = (Ret tt, s') /\ active s' = false /\
    file_ s' = Writing (lit "f") [1; 2; 3; 4] /\ stutter (ack <$> seqZ 0 3) (sent s').
Proof.
  apply (write_transfer (example_server 3) (example_world []) 3 (lit "f") ltac:(lia) example_wrq client _ [[1; 2; 3]; [4]]).
  - eexists. split_and!; try (reflexivity || by eexists).
  - done.
  - by vm_compute.
  - eexists [], _. split; [reflexivity|]. split; [by split; [apply (bool_decide_unpack _); vm_compute|constructor]|].
    eexists [Timeout; Packet true (data_msg 1 [1; 2; 3])], []. split; [reflexivity|]. split; [|done].
    split; [by apply (bool_decide_unpack _); vm_compute|].
    apply Forall_cons. split; [done|]. apply Forall_cons. split; [|constructor].
    exists 1, [1; 2; 3]. split; [done|]. vm_compute. split; [by split|done].
Defined.

(** An option called [filename] replaces the name that was resolved below the root of the server:
    any file that the server can read is sent. *)
Definition rooted_world : world :=
  World (fun d => Ret (lit "/srv/" ++ d)) (fun _ => false) (fun _ f => f) (fun _ => false) (Ret None) (fun _ => false) (fun _ => None)
    (fun f => if bool_decide (f = lit "/etc/passwd") then Some (lit "root") else None) (fun _ => false).
Definition escaping_rrq : bytes := example_rrq ++ lit "filename" ++ [0] ++ lit "/etc/passwd" ++ [0].
Example filename_option_escapes_root :
  sent (connect (example_server 512) rooted_world escaping_rrq (new_conn (example_server 512) client [])).2 = [[0; 3; 0; 1] ++ lit "root"].
Proof. by vm_compute. Qed.
