(* ===== verification/TftpTermination.v ===== *)
(** Every TFTP connection to which no more arrives ends, whatever the request and the events before. *)
From S2P Require Import Prelude PyString Struct Tftp TftpTheorems.

(** A computation that ends and keeps the inbox. *)
Definition steady {A} (m : PM conn A) : Prop := forall s, (m s).1 <> Raise Diverges /\ inbox (m s).2 = inbox s.

Lemma steady_ret {A} (a : A) : steady (pm_ret a).
Proof. done. Qed.
Lemma steady_get {A} (f : conn -> A) : steady (pm_get f).
Proof. done. Qed.
Lemma steady_raise {A} e : e <> Diverges -> steady (pm_raise (A := A) e).
Proof. intros He s. split; [|done]. by intros [=]. Qed.
Lemma steady_lift {A} (r : res A) : r <> Raise Diverges -> steady (pm_lift r).
Proof. done. Qed.
Lemma steady_modify f : (forall s, inbox (f s) = inbox s) -> steady (pm_modify f).
Proof. intros Hf s. split; [done|apply Hf]. Qed.
Lemma steady_bind {A B} (m : PM conn A) (k : A -> PM conn B) : steady m -> (forall a, steady (k a)) -> steady (pm_bind m k).
Proof.
  intros Hm Hk s. unfold pm_bind. destruct (Hm s) as [Hm1 Hm2]. destruct (m s) as [[a|e] s']; cbn in *.
  - destruct (Hk a s') as [? E]. by rewrite E.
  - split; [|done]. intros [= ->]. done.
Qed.
Lemma steady_if {A} (b : bool) (m n : PM conn A) : steady m -> steady n -> steady (if b then m else n).
Proof. by destruct b. Qed.

Lemma pack_h_ends z : pack_h z <> Raise Diverges.
Proof. unfold pack_h. by destruct (_ && _). Qed.
Lemma unpack_h_ends d : unpack_h d <> Raise Diverges.
Proof. unfold unpack_h. by destruct (bool_decide _). Qed.
Lemma py_int_ends d : py_int d <> Raise Diverges.
Proof. unfold py_int. generalize (match strip d with 43 :: d => digits d | 45 :: d => Z.opp <$> digits d | d => digits d end). by intros []. Qed.
Lemma split3_ends d : split3 d <> Raise Diverges.
Proof. unfold split3. destruct (split_nul d) as [[? d']|]; [|done]. by destruct (split_nul d') as [[]|]. Qed.

Create HintDb steady.
#[export] Hint Resolve steady_ret steady_get steady_lift steady_modify steady_bind steady_if
  pack_h_ends unpack_h_ends py_int_ends split3_ends : steady.
#[export] Hint Extern 1 (steady (pm_raise _)) => apply steady_raise; discriminate : steady.
Ltac steady := repeat first
  [ progress intros | solve [eauto 2 with steady nocore] | apply steady_bind | apply steady_if
  | apply steady_modify; done
  | apply steady_lift; done
  | match goal with |- steady (match ?x with _ => _ end) => destruct x end ].

Section steady_methods.
Context (srv : server) (W : world).
Hypothesis resolve_ends : forall d, resolve W d <> Raise Diverges.
Hypothesis images_ends : images W <> Raise Diverges.

Lemma retransmit_steady : steady retransmit.
Proof. unfold retransmit. steady. Qed.
Lemma send_data_steady d : steady (send_data d).
Proof. unfold send_data, send. steady. Qed.
Lemma send_ack_steady : steady send_ack.
Proof. unfold send_ack, send. steady. Qed.
Lemma send_error_steady n t : steady (send_error n t).
Proof. unfold send_error. steady. Qed.
Lemma send_oack_steady l : steady (send_oack l).
Proof. unfold send_oack, send. steady. Qed.
Lemma file_read_steady n : steady (file_read n).
Proof. unfold file_read. steady. Qed.
Lemma file_write_steady d : steady (file_write d).
Proof. unfold file_write. steady. Qed.
Hint Resolve retransmit_steady send_data_steady send_ack_steady send_error_steady send_oack_steady
  file_read_steady file_write_steady : steady.

Lemma split_nul_shorter d p : split_nul d = Some p -> (length p.2 < length d)%nat.
Proof.
  revert p. induction d as [|c d IH]; intros p; [done|]. cbn. destruct (c =? 0); [intros [= <-]; cbn; lia|].
  destruct (split_nul d) as [q|] eqn:E; [|done]. cbn. intros [= <-]. cbn. specialize (IH q eq_refl). lia.
Qed.
Lemma parse_options_steady fuel : forall options pkt,
  (length options <= fuel)%nat -> steady (parse_options fuel options pkt).
Proof.
  induction fuel as [|fuel IH]; intros [|c options] pkt Hl; cbn [parse_options];
    [apply steady_ret|cbn in Hl; lia|apply steady_ret|].
  intros s. unfold pm_bind at 1, pm_lift at 1 3. unfold split3.
  destruct (split_nul (c :: options)) as [[key d]|] eqn:E1; [|done].
  destruct (split_nul d) as [[value rest]|] eqn:E2; [|done].
  apply split_nul_shorter in E1, E2. cbn [fst snd] in *.
  assert (steady (parse_options fuel rest (<[key := value]> pkt))) as Hrest by (apply IH; cbn in *; lia).
  refine (steady_bind _ _ _ (fun _ => Hrest) s). steady. intros s0. by destruct (float_ok value).
Qed.
Lemma parse_steady d : steady (parse W d).
Proof.
  unfold parse. apply steady_bind; [steady|]. intros opcode. apply steady_if; [|steady].
  apply steady_bind; [steady|]. intros [[resource mode] options]. apply steady_bind; [steady|].
  intros r. apply steady_bind; [by apply parse_options_steady|]. steady.
Qed.
Lemma map_int_ends l : map_int l <> Raise Diverges.
Proof.
  induction l as [|x l IH]; [done|]. cbn. pose proof (py_int_ends x). destruct (py_int x) as [|e]; [|by intros [= ->]].
  cbn. destruct (map_int l) as [|e]; [done|]. by intros [= ->].
Qed.
Lemma get_pxe_conf_ends ip : get_pxe_conf srv ip <> Raise Diverges.
Proof.
  unfold get_pxe_conf, _get_mac. destruct (mac_to_ip srv); [|done]. pose proof (map_int_ends (split_on 46 ip [])).
  destruct (map_int _) as [|e]; [done|]. by intros [= ->].
Qed.
Lemma choose_resource_steady r : steady (choose_resource srv W r).
Proof. unfold choose_resource. pose proof get_pxe_conf_ends. steady. Qed.
Hint Resolve parse_steady choose_resource_steady : steady.
Lemma of_option_ends {A} e (o : option A) : e <> Diverges -> of_option e o <> Raise Diverges.
Proof. intros He. destruct o; [done|]. by intros [= ->]. Qed.
Hint Extern 1 (of_option _ _ <> _) => apply of_option_ends; discriminate : steady.
Lemma handle_rrq_steady pkt : steady (handle_rrq srv W pkt).
Proof. unfold handle_rrq. steady. Qed.
Lemma handle_wrq_steady pkt : steady (handle_wrq W pkt).
Proof. unfold handle_wrq. steady. Qed.
Lemma dispatch_steady pkt : steady (dispatch pkt).
Proof. unfold dispatch, recv_data, recv_ack, recv_err, handle_ack, handle_data. steady. Qed.

(** [recv] raises or takes a packet off the inbox. *)
Lemma wait_ends : forall events n s, (wait n events s).1 <> Raise Diverges /\
  forall d s', wait n events s = (Ret d, s') -> (length (inbox s') < length events)%nat.
Proof.
  induction events as [|e events IH]; intros n s; cbn [wait].
  - assert (forall s, (silence n s).1 <> Raise Diverges /\ forall d s', silence n s <> (Ret d, s')) as Hs.
    { induction n as [|n IHn]; intros s0; [done|]. cbn [silence]. unfold pm_bind.
      destruct (retransmit_steady s0) as [H1 _]. destruct (retransmit s0) as [[?|e] s1]; [apply IHn|].
      split; [intros [= ->]; done|done]. }
    destruct (Hs (set_inbox [] s)) as [H1 H2]. split; [done|]. intros d s' H. by destruct (H2 d s').
  - destruct n as [|n]; [done|]. destruct e as [|fc d].
    + unfold pm_bind at 1 2. destruct (retransmit_steady s) as [H1 _]. destruct (retransmit s) as [[?|e] s1].
      * destruct (IH n s1) as [H2 H3]. split; [done|]. intros d s' H. specialize (H3 d s' H). cbn. lia.
      * split; [intros [= ->]; done|done].
    + unfold pm_bind, pm_get, pm_modify, pm_ret, pm_raise. destruct (_ <? _); [done|]. destruct fc.
      * split; [done|]. intros d' s' [= <- <-]. cbn. lia.
      * destruct (IH (S n) s) as [H2 H3]. split; [done|]. intros d' s' H. specialize (H3 d' s' H). cbn. lia.
Qed.
Lemma serve_ends fuel : forall s, (length (inbox s) < fuel)%nat -> (serve srv W fuel s).1 <> Raise Diverges.
Proof.
  induction fuel as [|fuel IH]; intros s Hf; [lia|]. cbn [serve]. unfold pm_bind at 1, pm_get at 1.
  destruct (active s); [|done]. cbn [negb]. unfold pm_bind at 1, recv, pm_bind at 1, pm_get at 1. unfold pm_bind at 1.
  destruct (wait_ends (inbox s) (retry srv) s) as [H1 H2].
  destruct (wait (retry srv) (inbox s) s) as [[d|e] s1]; [|intros [= ->]; by apply H1]. specialize (H2 d s1 eq_refl).
  destruct (parse_steady d s1) as [H3 H4]. destruct (parse W d s1) as [[pkt|e] s2]; [|intros [= ->]; by apply H3]. cbn in H4.
  unfold pm_bind. destruct (dispatch_steady pkt s2) as [H5 H6].
  destruct (dispatch pkt s2) as [[?|e] s3]; [|done]. cbn in H6. apply IH. rewrite H6, H4. lia.
Qed.

(** [C29] Every connection to which no more arrives ends: for any request and any finite sequence
    of packets, of the client and of others, and of time-outs, after which there is silence,
    [connect] returns, provided that name resolution and the directory listing do. *)
Theorem connection_ends data ip events : (connect srv W data (new_conn srv ip events)).1 <> Raise Diverges.
Proof.
  assert ((session srv W data (new_conn srv ip events)).1 <> Raise Diverges) as Hses.
  { unfold session, pm_bind at 1. destruct (parse_steady data (new_conn srv ip events)) as [H1 H2].
    destruct (parse _ _ _) as [[pkt|e] s1]; [|intros [= ->]; by apply H1]. cbn in H2. destruct pkt as [op o| | |]; try done.
    destruct (bool_decide _); [done|]. unfold pm_bind at 1, pm_modify at 1. unfold pm_bind at 1.
    assert (steady (if op =? RRQ then handle_rrq srv W o else handle_wrq W o)) as Hh
      by (apply steady_if; [apply handle_rrq_steady|apply handle_wrq_steady]).
    revert Hh. generalize (if op =? RRQ then handle_rrq srv W o else handle_wrq W o). intros h Hh.
    destruct (Hh (set_active true s1)) as [H3 H4].
    destruct (h (set_active true s1)) as [[?|e] s2]; [|intros [= ->]; by apply H3]. cbn in H4.
    unfold pm_bind, pm_get. apply serve_ends. lia. }
  unfold connect. destruct (session _ _ _ _) as [[?|e] s']; [done|].
  destruct e; try done. apply send_error_steady.
Qed.

(** Silence is needed: packets from elsewhere are dropped without counting as retries, however
    many there are. *)
Theorem foreign_packets_ignored n k d events s : blocksize s + HDRSIZE >= 0 ->
  wait (S n) (replicate k (Packet false d) ++ events) s = wait (S n) events s.
Proof.
  intros Hs. induction k as [|k IH]; [done|]. cbn [replicate app wait]. unfold pm_bind at 1, pm_get.
  rewrite (proj2 (Z.ltb_ge _ 0)) by lia. exact IH.
Qed.
End steady_methods.
Lemma connection_ends_witness :
  (connect (example_server 3) (example_world [1]) example_rrq
     (new_conn (example_server 3) client [Packet true [0; 5]; Timeout])).1 <> Raise Diverges.
Proof. apply (connection_ends (example_server 3) (example_world [1])); done. Defined.
