(* ===== verification/Pxe.v ===== *)
(** Model of [lophinet/pybootd/pxed.py] and of the address helpers of [util.py]: the
    server that answers DHCP and PXE requests, leases addresses from a pool and follows
    each machine through its boot.  The configuration file is a map of sections, the
    authentication host, the name server file and the interfaces are operations of a
    record.  Datagrams sent are kept in the state. *)
From S2P Require Import Prelude PyString Struct.

(** * Helpers *)

Definition TRUE_BOOLEANS : list bytes :=
  lit <$> ["on"; "true"; "enable"; "enabled"; "yes"; "high"; "ok"; "1"]%string.
(** [to_bool(value)] with [permissive] left at its default *)
Definition to_bool (value : option bytes) : bool :=
  match value with
  | None => false
  | Some v => bool_decide (lower v ∈ TRUE_BOOLEANS)
  end.
Definition iptoint (ipstr : bytes) : res Z := let? packed := inet_aton ipstr in Ret (be_combine packed).
Definition inttoip (ipval : Z) : res bytes :=
  if (0 <=? ipval) && (ipval <? 256 ^ 4) then inet_ntoa (be_split 4 ipval) else Raise StructError.

(** ** The configuration *)

Definition config := gmap bytes (gmap bytes bytes).
Definition has_option (c : config) (section name : bytes) : bool :=
  match c !! section with Some s => bool_decide (is_Some (s !! name)) | None => false end.
(** [EasyConfigParser.get] *)
Definition cget (c : config) (section name : bytes) (default : option bytes) : option bytes :=
  match c !! section with
  | None => default
  | Some s => match s !! name with None => default | Some v => Some v end
  end.

Record netconf := NetConf { nc_ifname : bytes; nc_server : bytes; nc_net : bytes; nc_mask : bytes }.
(** The interfaces, each with its addresses and masks *)
Fixpoint iface_search (pool : Z) (ifaces : list (bytes * (bytes * bytes))) : res (option netconf) :=
  match ifaces with
  | [] => Ret None
  | (iface, (a, m)) :: ifaces =>
      let? addr := iptoint a in
      let? mask := iptoint m in
      let ip := Z.land addr mask in
      let ip_client := Z.land pool mask in
      if Z.lxor ip ip_client =? 0 then
        let? server := inttoip addr in
        let? net := inttoip ip in
        let? mask := inttoip mask in
        Ret (Some (NetConf iface server net mask))
      else iface_search pool ifaces
  end.
Definition get_iface_config (interfaces : list (bytes * (bytes * bytes))) (address : bytes) : res (option netconf) :=
  if bool_decide (address = []) then Ret None else
  let? pool := iptoint address in
  iface_search pool interfaces.

(** * Constants *)

Definition BOOTREQUEST := 1.
Definition BOOTREPLY := 2.
Definition DHCPFormatSize := 240.
Definition BOOTP_FLAGS_NONE := 0.
(** The codes that [DHCP_OPTIONS] names *)
Definition DHCP_OPTIONS : list Z := seqZ 0 62 ++ seqZ 64 11 ++ [93; 94; 97; 255].
Definition DHCP_DISCOVER := 1.
Definition DHCP_OFFER := 2.
Definition DHCP_REQUEST := 3.
Definition DHCP_ACK := 5.
Definition DHCP_RELEASE := 7.
Definition DHCP_INFORM := 8.
Definition DHCP_IP_MASK := 1.
Definition DHCP_IP_GATEWAY := 3.
Definition DHCP_IP_DNS := 6.
Definition DHCP_LEASE_TIME := 51.
Definition DHCP_MSG := 53.
Definition DHCP_SERVER := 54.
Definition DHCP_END := 255.
Definition PXE_DISCOVERY_CONTROL := 6.
Definition PXE_BOOT_SERVERS := 8.
Definition PXE_BOOT_MENU := 9.
Definition PXE_MENU_PROMPT := 10.

(** * The header, format ["!4bIHH4s4s4s4s16s64s128s4s"] *)

Record bootp := Bootp {
  op : Z; htype : Z; hlen : Z; hops : Z; xid : Z; secs : Z; flags : Z;
  ciaddr : bytes; yiaddr : bytes; siaddr : bytes; giaddr : bytes;
  chaddr : bytes; sname : bytes; bfile : bytes; vend : bytes
}.
Definition signed8 (b : Z) : Z := if b <? 128 then b else b - 256.
(** The codes behind the four signed bytes *)
Definition header_codes : list code :=
  [CInt 4; CInt 2; CInt 2; CStr 4; CStr 4; CStr 4; CStr 4; CStr 16; CStr 64; CStr 128; CStr 4].
Definition header_values (h : bootp) : list sval :=
  [SInt (xid h); SInt (secs h); SInt (flags h); SStr (ciaddr h); SStr (yiaddr h); SStr (siaddr h);
   SStr (giaddr h); SStr (chaddr h); SStr (sname h); SStr (bfile h); SStr (vend h)].
Definition unpack_header (d : bytes) : res bootp :=
  if negb (zlen d =? DHCPFormatSize) then Raise StructError else
  match d with
  | o :: t :: l :: k :: rest =>
      match unpack_codes Network header_codes rest with
      | [SInt x; SInt s; SInt f; SStr ci; SStr yi; SStr si; SStr gi; SStr ch; SStr sn; SStr fi; SStr ve] =>
          Ret (Bootp (signed8 o) (signed8 t) (signed8 l) (signed8 k) x s f ci yi si gi ch sn fi ve)
      | _ => Raise StructError
      end
  | _ => Raise StructError
  end.
Definition pack_b (z : Z) : res bytes :=
  if (-128 <=? z) && (z <=? 127) then Ret [z mod 256] else Raise StructError.
Definition pack_header (h : bootp) : res bytes :=
  let? o := pack_b (op h) in
  let? t := pack_b (htype h) in
  let? l := pack_b (hlen h) in
  let? k := pack_b (hops h) in
  let? rest := pack_codes Network header_codes (header_values h) in
  Ret (o ++ t ++ l ++ k ++ rest).

(** * The server *)

Inductive cstate := ST_IDLE | ST_PXE | ST_DHCP.
#[global] Instance cstate_eq_dec : EqDecision cstate.
Proof. solve_decision. Defined.

(** What a request to the authentication host contains, and what comes of it *)
Record query := Query {
  q_netloc : option bytes; q_path : option bytes; q_timeout : Z;
  q_mac : bytes; q_uuid : option bytes; q_ip : option bytes
}.
Inductive answer := Lines (l : list bytes) | HTTPError | URLError | HTTPException | Raises (e : pyexc).
Record pxe_world := PxeWorld {
  auth_host : query -> answer;
  resolv_conf : option (list bytes)      (* the lines of [/etc/resolv.conf] *)
}.

Record bootpd := Bootpd {
  uuidpool : gmap bytes bytes;           (* hardware address -> UUID *)
  ippool : gmap bytes bytes;             (* its text -> address *)
  filepool : gmap bytes bytes;           (* address -> path *)
  states : gmap bytes cstate;
  outbox : list (bytes * (bytes * Z));   (* datagrams and notices, with where they went *)
}.
Definition set_uuidpool x (s : bootpd) := Bootpd x (ippool s) (filepool s) (states s) (outbox s).
Definition set_ippool x (s : bootpd) := Bootpd (uuidpool s) x (filepool s) (states s) (outbox s).
Definition set_filepool x (s : bootpd) := Bootpd (uuidpool s) (ippool s) x (states s) (outbox s).
Definition set_states x (s : bootpd) := Bootpd (uuidpool s) (ippool s) (filepool s) x (outbox s).
Definition sendto (d : bytes) (a : bytes * Z) (s : bootpd) :=
  Bootpd (uuidpool s) (ippool s) (filepool s) (states s) (outbox s ++ [(d, a)]).

(** What [__init__] fixes *)
Inductive access_mode := AUuid | AMac | AHttp.
Record settings := Settings {
  conf : config;
  pool_start : bytes;
  pool_count : Z;
  netconfig : netconf;
  notify : list (bytes * Z);
  access : option access_mode;
  acl : gmap bytes bool
}.
(** [PRODUCT_NAME] has no dash. *)
Definition bootp_section : bytes := lit "bootp".

(** ** Construction *)

Fixpoint parse_notify (l : list bytes) : res (list (bytes * Z)) :=
  match l with
  | [] => Ret []
  | n :: l =>
      let n := split_on 58 (strip n) [] in
      let? host := py_index n 0 in
      let? p := py_index n 1 in
      let? port := py_int p in
      let? rest := parse_notify l in
      Ret ((host, port) :: rest)
  end.
Definition access_of (a : bytes) : option access_mode :=
  if bool_decide (a = lit "uuid") then Some AUuid
  else if bool_decide (a = lit "mac") then Some AMac
  else if bool_decide (a = lit "http") then Some AHttp else None.
(** [__init__], given the interfaces of the machine *)
Definition init_server (interfaces : list (bytes * (bytes * bytes))) (c : config) : res settings :=
  let? start := of_option BootpError (cget c bootp_section (lit "pool_start") None) in
  if bool_decide (start = []) then Raise BootpError else
  let? count := py_int (default (lit "10") (cget c bootp_section (lit "pool_count") None)) in
  let? net := get_iface_config interfaces start in
  let? net := of_option BootpError net in
  let? nlist :=
    match cget c bootp_section (lit "notify") None with
    | None | Some [] => Ret []
    | Some nlist => match parse_notify (split_on 59 nlist []) with Ret l => Ret l | Raise _ => Raise BootpError end
    end in
  match cget c bootp_section (lit "access") None with
  | None | Some [] => Ret (Settings c start count net nlist None ∅)
  | Some a =>
      let a := lower a in
      let? mode := of_option BootpError (access_of a) in
      let? section := of_option BootpError (c !! a) in
      let entries := match mode with
                     | AHttp => ∅
                     | _ => list_to_map ((fun kv => (upper kv.1, to_bool (Some kv.2))) <$> map_to_list section)
                     end in
      Ret (Settings c start count net nlist (Some mode) entries)
  end.
Definition new_server : bootpd := Bootpd ∅ ∅ ∅ ∅ [].

Section server.
Context (cfg : settings) (W : pxe_world).
Abbreviation M := (PM bootpd).
Abbreviation get_option := (cget (conf cfg) bootp_section).

(** ** Options *)

(** A padding byte is not consumed. *)
Fixpoint parse_loop (fuel : nat) (tail : bytes) (dhcp_tags : gmap Z bytes) : res (option (gmap Z bytes)) :=
  match tail with
  | [] => Ret None
  | tag :: _ =>
      match fuel with
      | O => Raise Diverges
      | S fuel =>
          if tag =? 0 then parse_loop fuel tail dhcp_tags
          else if tag =? 255 then Ret (Some dhcp_tags)
          else
            let? length := py_index tail 1 in
            let value := slice tail 2 (2 + length) in
            if negb (zlen value =? length) then Raise StructError else
            if negb (bool_decide (tag ∈ DHCP_OPTIONS)) then Ret None else
            parse_loop fuel (slice_from tail (2 + length)) (<[tag := value]> dhcp_tags)
      end
  end.
Definition parse_options (tail : bytes) : res (option (gmap Z bytes)) := parse_loop (S (length tail)) tail ∅.

(** [struct.pack('!BB%ds' % len(value), tag, len(value), value)] *)
Definition tlv (tag : Z) (value : bytes) : res bytes :=
  if zlen value <? 256 then Ret (tag :: zlen value :: value) else Raise StructError.

(** [None] when an option is missing. Without a colon the class loses its last letter. *)
Definition build_pxe_options (options : gmap Z bytes) (server : bytes) : res (option bytes) :=
  match options !! 97 with
  | None => Ret None
  | Some uuid =>
      let? u := tlv 97 uuid in
      match options !! 60 with
      | None => Ret None
      | Some clientclass =>
          let? c := tlv 60 (slice_to clientclass (py_find 58 clientclass)) in
          let srvstr := lit "Python" in
          let prompt := lit "Stupid PXE" in
          let vendor := [PXE_DISCOVERY_CONTROL; 1; 10]
            ++ [PXE_BOOT_SERVERS; 2 + 1 + 4; 0; 0; 1] ++ server
            ++ [PXE_BOOT_MENU; 2 + 1 + zlen srvstr; 0; 0; zlen srvstr] ++ srvstr
            ++ [PXE_MENU_PROMPT; 1 + zlen prompt; zlen prompt] ++ prompt in
          let? v := tlv 43 vendor in
          Ret (Some (u ++ c ++ v ++ [255; 0; 0]))
      end
  end.
Definition build_dhcp_options (clientname : bytes) : res bytes :=
  if bool_decide (clientname = []) then Ret [] else tlv 12 clientname.

(** ** The name server *)

(** [\d{1,3}], the longest first *)
Definition digits13 (s : bytes) : list (bytes * bytes) :=
  match s with
  | a :: s1 =>
      if negb (is_digit a) then [] else
      match s1 with
      | b :: s2 =>
          if negb (is_digit b) then [([a], s1)] else
          match s2 with
          | c :: s3 => if is_digit c then [([a; b; c], s3); ([a; b], s2); ([a], s1)] else [([a; b], s2); ([a], s1)]
          | [] => [([a; b], s2); ([a], s1)]
          end
      | [] => [([a], s1)]
      end
  | [] => []
  end.
(** [.], any byte but a line end *)
Definition any_char (s : bytes) : list (bytes * bytes) :=
  match s with c :: s => if c =? 10 then [] else [([c], s)] | [] => [] end.
(** One matcher after the other *)
Definition andthen (m n : bytes -> list (bytes * bytes)) (s : bytes) : list (bytes * bytes) :=
  m s ≫= fun '(w, r) => (fun '(w', r') => (w ++ w', r')) <$> n r.
Definition spaces (s : bytes) : list (bytes * bytes) :=
  match s with c :: _ => if is_space c then [([], lstrip is_space s)] else [] | [] => [] end.
(** [nscre.match(line)]; no white space is left to the first number. *)
Definition nameserver (line : bytes) : option bytes :=
  if negb (bool_decide (take 10 line = lit "nameserver")) then None else
  '(_, r) ← head (spaces (drop 10 line));
  let quad := andthen digits13 (andthen any_char (andthen digits13 (andthen any_char
                (andthen digits13 (andthen any_char digits13))))) in
  fst <$> head (filter (fun wr => Is_true match wr.2 with c :: _ => is_space c | [] => false end) (quad r)).
Fixpoint first_nameserver (lines : list bytes) : option bytes :=
  match lines with
  | [] => None
  | l :: lines => match nameserver l with Some d => Some d | None => first_nameserver lines end
  end.
Definition get_dns_server : option bytes := lines ← resolv_conf W; first_nameserver lines.

(** ** A request *)

Definition mac_text (mac_addr : bytes) : bytes := join (lit "-") (HEX2 <$> mac_addr).
Definition uuid_text (uuid : bytes) : bytes :=
  upper (join (lit "-") (hexlify <$> [slice uuid 0 4; slice uuid 4 6; slice uuid 6 8; slice uuid 8 10; slice uuid 10 16])).

(** The state machine that follows a client *)
Definition next_state (current : cstate) (pxe : bool) (msg : option Z) : cstate :=
  match current with
  | ST_IDLE => if pxe && bool_decide (msg = Some DHCP_DISCOVER) then ST_PXE else current
  | ST_PXE => if negb pxe && bool_decide (msg = Some DHCP_REQUEST) then ST_DHCP else current
  | ST_DHCP => if pxe then ST_PXE else current
  end.
Definition setdefault (mac_str : bytes) : M cstate := fun s =>
  match states s !! mac_str with
  | Some st => (Ret st, s)
  | None => (Ret ST_IDLE, set_states (<[mac_str := ST_IDLE]> (states s)) s)
  end.
Definition simple_dhcp : bool :=
  has_option (conf cfg) bootp_section (lit "allow_simple_dhcp") && to_bool (get_option (lit "allow_simple_dhcp") None).

(** A line of the answer sets the name of the client or of its file. *)
Definition answer_line (hf : bytes * bytes) (l : bytes) : bytes * bytes :=
  match split_on 58 l [] with
  | [k; v] =>
      let k := lower (strip k) in
      let v := strip v in
      if bool_decide (k = lit "client") then (v, hf.2)
      else if bool_decide (k = lit "file") then (hf.1, v) else hf
  | _ => hf
  end.
(** Access through the authentication host, asked when the state changes *)
Definition remote_access (pxe : bool) (mac_str : bytes) (uuid_str : option bytes) (current new : cstate) :
    M (option (bytes * bytes)) :=
  let get := cget (conf cfg) (lit "http") in
  let! timeout := pm_lift (py_int (default (lit "5") (get (lit "timeout") None))) in
  let! lease := pm_get (fun s => ippool s !! mac_str) in
  if bool_decide (current = new) then pm_ret (Some ([], [])) else
  match auth_host W (Query (get (lit "location") None) (get (lit (if pxe then "pxe" else "dhcp")) None) timeout
                       mac_str uuid_str (if pxe then None else lease)) with
  | Lines l => pm_ret (Some (foldl answer_line ([], []) l))
  | Raises e => pm_raise e
  | HTTPError | URLError | HTTPException =>
      pm_modify (fun s => set_states (<[mac_str := ST_IDLE]> (states s)) s) ;! pm_ret None
  end.
(** Access by the list in the configuration, for clients without an address *)
Definition local_access (item : option bytes) (mac_str : bytes) : M (option (bytes * bytes)) :=
  let! known := pm_get (fun s => bool_decide (is_Some (ippool s !! mac_str))) in
  if known then pm_ret (Some ([], [])) else
  match item with
  | None | Some [] => pm_ret None
  | Some item => pm_ret (if default false (acl cfg !! item) then Some ([], []) else None)
  end.
(** The names from the authentication host, or [None] when the request is ignored *)
Definition authorize (pxe : bool) (mac_str : bytes) (uuid_str : option bytes) (current new : cstate) :
    M (option (bytes * bytes)) :=
  match access cfg with
  | None => pm_ret (Some ([], []))
  | Some AHttp => remote_access pxe mac_str uuid_str current new
  | Some AUuid => local_access uuid_str mac_str
  | Some AMac => local_access (Some mac_str) mac_str
  end.

(** ** Leases *)

Fixpoint find_free (n : nat) (ipval : Z) (used : list bytes) : res (option bytes) :=
  match n with
  | O => Ret None
  | S n =>
      let? ipkey := inttoip ipval in
      if negb (bool_decide (ipkey ∈ used)) then Ret (Some ipkey) else find_free n (ipval + 1) used
  end.
Definition lease (mac_str : bytes) : M bytes :=
  let! ipaddr := pm_lift (iptoint (pool_start cfg)) in
  let! pool := pm_get ippool in
  match pool !! mac_str with
  | Some ip => if bool_decide (ip = []) then pm_raise BootpError else pm_ret ip
  | None =>
      let! free := pm_lift (find_free (Z.to_nat (pool_count cfg)) ipaddr (map_to_list pool).*2) in
      match free with
      | None => pm_raise BootpError
      | Some ip => pm_modify (fun s => set_ippool (<[mac_str := ip]> (ippool s)) s) ;! pm_ret ip
      end
  end.
(** The address of the network's broadcasts *)
Definition broadcast (ip : bytes) : res bytes :=
  let? mask := iptoint (nc_mask (netconfig cfg)) in
  let? n := iptoint ip in
  inttoip (Z.lor (Z.land n mask) (Z.land (Z.lnot mask) (Z.shiftl 1 32 - 1))).
(** The address of the client, the header with it, and where the reply goes *)
Definition address (mac_str : bytes) (buf : bootp) (addr : bytes * Z) : M (bytes * bootp * (bytes * Z)) :=
  if bool_decide (ciaddr buf = [0; 0; 0; 0]) then
    let! ip := lease mac_str in
    let! reply_broadcast := pm_lift (broadcast ip) in
    let! y := pm_lift (inet_aton ip) in
    pm_ret (ip, Bootp BOOTREPLY (htype buf) (hlen buf) (hops buf) (xid buf) 0 BOOTP_FLAGS_NONE (ciaddr buf) y
                  (siaddr buf) (giaddr buf) (chaddr buf) (sname buf) (bfile buf) (vend buf), (reply_broadcast, addr.2))
  else
    let! ip := pm_lift (inet_ntoa (ciaddr buf)) in
    pm_ret (ip, Bootp BOOTREPLY (htype buf) (hlen buf) (hops buf) (xid buf) (secs buf) (flags buf) (ciaddr buf) (ciaddr buf)
                  (siaddr buf) (giaddr buf) (chaddr buf) (sname buf) (bfile buf) (vend buf), addr).

(** ** The reply *)

Definition _notify (notice : string) (uuid_str : option bytes) (mac_str ip : bytes) : M unit :=
  let msg := match uuid_str with
             | Some u => join (lit ",") [lit notice; u; mac_str; ip]
             | None => join (lit ",") [lit notice; mac_str; ip]
             end in
  pm_modify (fun s => foldl (fun s n => sendto msg n s) s (notify cfg)).

(** [struct.pack('!BB4s', tag, 4, address)] *)
Definition tlv4 (tag : Z) (address : bytes) : bytes := tag :: 4 :: address.
Definition dns_option (server : bytes) : res bytes :=
  match get_option (lit "dns") None with
  | None | Some [] => Ret []
  | Some dns =>
      let? dns := (if bool_decide (lower dns = lit "auto")
                   then match get_dns_server with Some d => Ret d | None => inet_ntoa server end
                   else Ret dns) in
      let? d := inet_aton dns in
      Ret (tlv4 DHCP_IP_DNS d)
  end.
Definition lease_option : res bytes :=
  let? t := py_int (default (lit "86400") (get_option (lit "lease_time") None)) in
  if (0 <=? t) && (t <? 256 ^ 4) then Ret (DHCP_LEASE_TIME :: 4 :: be_split 4 t) else Raise StructError.
Definition reply_packet (buf : bootp) (dhcp_reply : Z) : res bytes :=
  let? pkt := pack_header buf in
  let? server := inet_aton (nc_server (netconfig cfg)) in
  let? mask := inet_aton (nc_mask (netconfig cfg)) in
  let? dns := dns_option server in
  let? time := lease_option in
  Ret (pkt ++ [DHCP_MSG; 1; dhcp_reply] ++ tlv4 DHCP_SERVER server ++ tlv4 DHCP_IP_MASK mask
         ++ tlv4 DHCP_IP_GATEWAY server ++ dns ++ time ++ [DHCP_END; 0]).

(** What is sent after the header and the common options; a PXE client whose options
    are incomplete gets no reply. *)
Definition send_reply (pxe : bool) (options : gmap Z bytes) (hostname mac_addr : bytes) (uuid : option bytes)
    (pkt : bytes) (addr : bytes * Z) : M bool :=
  let! server := pm_lift (inet_aton (nc_server (netconfig cfg))) in
  let! extra_buf := (if pxe then pm_lift (build_pxe_options options server)
                     else let! b := pm_lift (build_dhcp_options hostname) in pm_ret (Some b)) in
  match extra_buf with
  | None => pm_ret false
  | Some extra =>
      match pxe, uuid with
      | true, Some u => pm_modify (fun s => set_uuidpool (<[mac_addr := u]> (uuidpool s)) s)
      | _, _ => pm_ret tt
      end ;!
      pm_modify (sendto (pkt ++ extra) addr) ;! pm_ret true
  end.

(** The end of [handle], once the kind of reply is known *)
Definition finish (ip : bytes) (buf : bootp) (options : gmap Z bytes) (mac_addr : bytes) (uuid : option bytes) (pxe : bool)
    (hostname filename : bytes) (current new : cstate) (addr : bytes * Z) (dhcp_reply : Z) : M unit :=
  (if bool_decide (filename = []) then pm_ret tt
   else pm_modify (fun s => set_filepool (<[ip := filename]> (filepool s)) s)) ;!
  let! pkt := pm_lift (reply_packet buf dhcp_reply) in
  let! sent := send_reply pxe options hostname mac_addr uuid pkt addr in
  if sent && negb (bool_decide (current = new))
  then pm_modify (fun s => set_states (<[mac_text mac_addr := new]> (states s)) s) else pm_ret tt.

(** The part of [handle] after the access check *)
Definition reply (addr : bytes * Z) (buf : bootp) (options : gmap Z bytes) (msg : option Z) (mac_addr : bytes)
    (uuid uuid_str : option bytes) (pxe : bool) (names : bytes * bytes) (current new : cstate) : M unit :=
  let mac_str := mac_text mac_addr in
  let '(hostname, filename) := names in
  let! iba := address mac_str buf addr in
  let '(ip, buf, addr) := iba in
  let! server := pm_lift (inet_aton (nc_server (netconfig cfg))) in
  let sname := join (lit ".") [default (lit "unknown") (get_option (lit "servername") None);
                               default (lit "localdomain") (get_option (lit "domain") None)] in
  let bfile := default [0] (get_option (lit "boot_file") None) in
  let buf := Bootp (op buf) (htype buf) (hlen buf) (hops buf) (xid buf) (secs buf) (flags buf) (ciaddr buf) (yiaddr buf)
               server server (chaddr buf) sname bfile (vend buf) in
  let finish := finish ip buf options mac_addr uuid pxe hostname filename current new addr in
  match msg with
  | None => pm_ret tt
  | Some m =>
      if m =? 0 then pm_ret tt
      else if m =? DHCP_DISCOVER then finish DHCP_OFFER
      else if m =? DHCP_REQUEST then
        _notify (if bool_decide (is_Some (options !! 97)) then "BOOT" else "LEASE") uuid_str mac_str ip ;! finish DHCP_ACK
      else if m =? DHCP_RELEASE then _notify "RELEASE" uuid_str mac_str ip
      else pm_ret tt
  end.

Definition handle (addr : bytes * Z) (data : bytes) : M unit :=
  let tail := slice_from data DHCPFormatSize in
  let! buf := pm_lift (unpack_header (slice_to data DHCPFormatSize)) in
  if negb (op buf =? BOOTREQUEST) then pm_ret tt else
  let! options := pm_lift (parse_options tail) in
  match options with
  | None => pm_ret tt
  | Some options =>
      let! msg := (match options !! 53 with
                   | None => pm_ret None
                   | Some v => let! b := pm_lift (py_index v 0) in pm_ret (Some b)
                   end) in
      let mac_addr := slice_to (chaddr buf) 6 in
      let mac_str := mac_text mac_addr in
      let sent_uuid := v ← options !! 97; if bool_decide (length v = 17%nat) then Some (slice_from v 1) else None in
      let pxe := bool_decide (is_Some sent_uuid) in
      let! cached := pm_get (fun s => uuidpool s !! mac_addr) in
      let uuid := match sent_uuid with Some u => Some u | None => cached end in
      let uuid_str := uuid_text <$> uuid in
      let! current := setdefault mac_str in
      let new := next_state current pxe msg in
      if bool_decide (new = ST_IDLE) && negb simple_dhcp then pm_ret tt else
      let! names := authorize pxe mac_str uuid_str current new in
      match names with
      | None => pm_ret tt
      | Some names => reply addr buf options msg mac_addr uuid uuid_str pxe names current new
      end
  end.

(** [forever]: an exception is logged; a handler that does not return stops the server. *)
Fixpoint forever (requests : list ((bytes * Z) * bytes)) : M unit :=
  match requests with
  | [] => pm_ret tt
  | (addr, data) :: requests => fun s =>
      match handle addr (take 556 data) s with
      | (Raise Diverges, s') => (Raise Diverges, s')
      | (_, s') => forever requests s'
      end
  end.
Definition get_filename (ip : bytes) (s : bootpd) : bytes := default [] (filepool s !! ip).
End server.
