(* ===== verification/PxeTheorems.v ===== *)
(** Theorems on the PXE server: the lease pool, access control, the replies, a whole
    boot, and the padding byte on which it hangs. *)
From S2P Require Import Prelude PyString Struct Pxe.

(** * Slices within a list *)

Lemma slice_in {A} (l : list A) i j : 0 <= i <= j -> j <= zlen l -> slice l i j = take (Z.to_nat (j - i)) (drop (Z.to_nat i) l).
Proof. intros. unfold slice. rewrite !clamp_nonneg by lia. f_equal; [lia|f_equal; lia]. Qed.
Lemma slice_to_in {A} (l : list A) j : 0 <= j <= zlen l -> slice_to l j = take (Z.to_nat j) l.
Proof. intros. unfold slice_to. rewrite clamp_nonneg by lia. f_equal. lia. Qed.

(** * Headers *)

(** A header that can be packed; the names are cut or padded. *)
Record header_fits (h : bootp) : Prop := {
  hf_op : -128 <= op h <= 127; hf_htype : -128 <= htype h <= 127;
  hf_hlen : -128 <= hlen h <= 127; hf_hops : -128 <= hops h <= 127;
  hf_xid : 0 <= xid h < 256 ^ 4; hf_secs : 0 <= secs h < 256 ^ 2; hf_flags : 0 <= flags h < 256 ^ 2;
  hf_ciaddr : length (ciaddr h) = 4%nat; hf_yiaddr : length (yiaddr h) = 4%nat;
  hf_siaddr : length (siaddr h) = 4%nat; hf_giaddr : length (giaddr h) = 4%nat;
  hf_chaddr : length (chaddr h) = 16%nat; hf_vend : length (vend h) = 4%nat
}.
Lemma signed8_range b : byte_ok b -> -128 <= signed8 b <= 127.
Proof. unfold byte_ok, signed8. intros. destruct (Z.ltb_spec b 128); lia. Qed.
Lemma signed8_mod z : -128 <= z <= 127 -> signed8 (z mod 256) = z.
Proof.
  intros Hz. unfold signed8. destruct (Z.neg_nonneg_cases z).
  - replace (z mod 256) with (z + 256) by (apply Z.mod_unique with (-1); lia).
    destruct (Z.ltb_spec (z + 256) 128); lia.
  - rewrite Z.mod_small by lia. destruct (Z.ltb_spec z 128); lia.
Qed.
Lemma pack_b_ok z : -128 <= z <= 127 -> pack_b z = Ret [z mod 256].
Proof. intros. unfold pack_b. by rewrite !(proj2 (Z.leb_le _ _)) by lia. Qed.

Lemma unpack_fits d h : bytes_ok d -> unpack_header d = Ret h -> header_fits h.
Proof.
  intros Hb. unfold unpack_header. destruct (Z.eqb_spec (zlen d) DHCPFormatSize) as [Hlen|]; [|discriminate]. cbn [negb].
  destruct d as [|o [|t [|l [|k rest]]]]; try discriminate. intros H.
  unfold DHCPFormatSize, zlen in Hlen. cbn [length] in Hlen.
  repeat (apply Forall_cons in Hb as [? Hb]). injection H as <-.
  assert (forall i n, 0 <= be_combine (take n (drop i rest)) < 256 ^ Z.of_nat (length (take n (drop i rest)))) as Hc.
  { intros i n. apply be_combine_bound. by apply Forall_take, Forall_drop. }
  pose proof (Hc 0%nat 4%nat) as B1. pose proof (Hc 4%nat 2%nat) as B2. pose proof (Hc 6%nat 2%nat) as B3.
  rewrite length_take, length_drop in B1, B2, B3.
  replace (4 `min` (length rest - 0))%nat with 4%nat in B1 by lia.
  replace (2 `min` (length rest - 4))%nat with 2%nat in B2 by lia.
  replace (2 `min` (length rest - 6))%nat with 2%nat in B3 by lia.
  split; cbn [op htype hlen hops xid secs flags ciaddr yiaddr siaddr giaddr chaddr vend];
    try (by apply signed8_range); try done; rewrite ?drop_drop, ?length_take, ?length_drop; try lia. exact B3.
Qed.
Lemma pack_header_fits h : header_fits h ->
  exists p, pack_header h = Ret p /\ length p = 240%nat /\
    unpack_header p = Ret (Bootp (op h) (htype h) (hlen h) (hops h) (xid h) (secs h) (flags h) (ciaddr h) (yiaddr h)
      (siaddr h) (giaddr h) (chaddr h) (take 64 (sname h) ++ replicate (64 - length (sname h)) 0)
      (take 128 (bfile h) ++ replicate (128 - length (bfile h)) 0) (vend h)).
Proof.
  intros []. unfold pack_header. rewrite !pack_b_ok by done. cbn [res_bind].
  assert (exists rest, pack_codes Network header_codes (header_values h) = Ret rest) as [rest E].
  { unfold header_codes, header_values. cbn [pack_codes].
    rewrite !(proj2 (Z.leb_le _ _)), !(proj2 (Z.ltb_lt _ _)) by (cbn; lia). by eexists. }
  rewrite E. cbn [res_bind]. eexists. split; [reflexivity|].
  pose proof (length_pack_codes _ _ _ _ E) as Hl. pose proof (unpack_pack_codes _ _ _ _ E) as Hu.
  change (sum_list_with code_size header_codes) with 236%nat in Hl.
  split; [cbn [app length]; lia|]. unfold unpack_header. rewrite (proj2 (Z.eqb_eq _ _)).
  2: { unfold zlen, DHCPFormatSize. cbn [app length]. lia. }
  cbn [negb app]. rewrite Hu. unfold header_codes, header_values. cbn [norm_vals norm_val].
  rewrite !signed8_mod by done.
  assert (forall n (l : bytes), length l = n -> take n l ++ replicate (n - length l) 0 = l) as Hn.
  { intros n l <-. by rewrite firstn_all, Nat.sub_diag, app_nil_r. }
  by rewrite (Hn 4%nat (ciaddr h)), (Hn 4%nat (yiaddr h)), (Hn 4%nat (siaddr h)), (Hn 4%nat (giaddr h)),
    (Hn 16%nat (chaddr h)), (Hn 4%nat (vend h)) by done.
Qed.

(** * What a method leaves alone *)

Definition frame {S A B} (f : S -> B) (m : PM S A) : Prop := forall s, f (m s).2 = f s.
Section frames.
Context {S B : Type} (f : S -> B).
Lemma frame_ret {A} (a : A) : frame f (pm_ret a).
Proof. done. Qed.
Lemma frame_raise {A} e : frame f (pm_raise (A:=A) e).
Proof. done. Qed.
Lemma frame_get {A} (g : S -> A) : frame f (pm_get g).
Proof. done. Qed.
Lemma frame_lift {A} (r : res A) : frame f (pm_lift r).
Proof. done. Qed.
Lemma frame_modify (g : S -> S) : (forall s, f (g s) = f s) -> frame f (pm_modify g).
Proof. done. Qed.
Lemma frame_bind {A C} (m : PM S A) (k : A -> PM S C) :
  frame f m -> (forall a, frame f (k a)) -> frame f (pm_bind m k).
Proof.
  intros Hm Hk s. unfold pm_bind. specialize (Hm s). destruct (m s) as [[a|e] s']; cbn in *; [by rewrite Hk|done].
Qed.
End frames.
Create HintDb frames.
#[export] Hint Resolve frame_ret frame_raise frame_get frame_lift frame_modify : frames.
Ltac frame :=
  repeat match goal with
  | |- forall _, _ => intro
  | |- frame _ (pm_bind _ _) => apply frame_bind
  | |- frame _ (if ?b then _ else _) => destruct b
  | |- frame _ (match ?x with _ => _ end) => destruct x
  | |- frame _ (let '(_, _) := ?x in _) => destruct x
  | _ => solve [eauto with frames]
  end.

Section theorems.
Context (cfg : settings) (W : pxe_world).

(** The authenticated part of a request changes the leases in [lease] only. *)
Lemma setdefault_frame {B} (f : bootpd -> B) mac :
  (forall x s, f (set_states x s) = f s) -> frame f (setdefault mac).
Proof. intros Hf s. unfold setdefault. destruct (states s !! mac); [done|apply Hf]. Qed.
Lemma authorize_frame {B} (f : bootpd -> B) pxe mac uuid cur new :
  (forall x s, f (set_states x s) = f s) -> frame f (authorize cfg W pxe mac uuid cur new).
Proof. intros Hf. unfold authorize, remote_access, local_access. frame. Qed.

(** The hardware address in a request *)
Definition mac_of (data : bytes) : bytes := slice data 28 34.
Lemma unpack_mac data buf :
  unpack_header (slice_to data DHCPFormatSize) = Ret buf -> slice_to (chaddr buf) 6 = mac_of data.
Proof.
  unfold unpack_header. destruct (Z.eqb_spec (zlen (slice_to data DHCPFormatSize)) DHCPFormatSize) as [Hlen|]; [|discriminate].
  cbn [negb]. assert (240 <= zlen data) as Hd.
  { revert Hlen. unfold slice_to, DHCPFormatSize. rewrite clamp_nonneg, zlen_take by lia. lia. }
  unfold DHCPFormatSize. rewrite slice_to_in by lia. destruct data as [|a [|b [|c [|d rest]]]]; try discriminate.
  change (Z.to_nat 240) with 240%nat. cbn [take]. intros H.
  assert (chaddr buf = take 16 (drop 24 (take 236 rest))) as ->.
  { injection H as <-. cbn [chaddr]. by rewrite !drop_drop. }
  rewrite !zlen_cons in Hd. assert (zlen rest = Z.of_nat (length rest)) by done.
  rewrite slice_to_in by (rewrite zlen_take, zlen_drop, zlen_take; lia).
  unfold mac_of. rewrite slice_in by (rewrite ?zlen_cons; lia).
  change (Z.to_nat 28) with 28%nat. change (Z.to_nat (34 - 28)) with 6%nat. cbn [drop].
  by rewrite skipn_firstn_comm, !take_take.
Qed.

(** ** Leases *)

(** The only change of the leases: a free address for a client that has none *)
Inductive pool_step (mac : bytes) (pool : gmap bytes bytes) : gmap bytes bytes -> Prop :=
  | pool_same : pool_step mac pool pool
  | pool_new ipaddr ip :
      pool !! mac = None -> iptoint (pool_start cfg) = Ret ipaddr ->
      find_free (Z.to_nat (pool_count cfg)) ipaddr (map_to_list pool).*2 = Ret (Some ip) ->
      pool_step mac pool (<[mac := ip]> pool).

Lemma lease_step mac s : pool_step mac (ippool s) (ippool (lease cfg mac s).2).
Proof.
  unfold lease. unfold pm_bind at 1, pm_lift at 1. destruct (iptoint _) as [ipaddr|] eqn:Ei; [|constructor].
  unfold pm_bind at 1, pm_get at 1. destruct (ippool s !! mac) as [ip|] eqn:El; [by case_bool_decide; constructor|].
  unfold pm_bind at 1, pm_lift at 1. destruct (find_free _ _ _) as [[ip|]|] eqn:Ef; [|constructor..].
  by eapply pool_new.
Qed.
Lemma bind_step {A B} mac (m : PM bootpd A) (k : A -> PM bootpd B) s :
  pool_step mac (ippool s) (ippool (m s).2) -> (forall a, frame ippool (k a)) ->
  pool_step mac (ippool s) (ippool (pm_bind m k s).2).
Proof.
  intros Hm Hk. unfold pm_bind. destruct (m s) as [[a|e] s']; cbn in *; [by rewrite Hk|done].
Qed.
Lemma address_step mac buf addr s : pool_step mac (ippool s) (ippool (address cfg mac buf addr s).2).
Proof.
  unfold address. case_bool_decide.
  - apply bind_step; [apply lease_step|]. intros ip. frame.
  - unfold pm_bind, pm_lift. destruct (inet_ntoa _); constructor.
Qed.
Lemma notify_frame {B} (f : bootpd -> B) notice uuid mac ip :
  (forall d a s, f (sendto d a s) = f s) -> frame f (_notify cfg notice uuid mac ip).
Proof.
  intros Hf s. unfold _notify. cbv zeta. generalize (match uuid with Some u => join (lit ",") [lit notice; u; mac; ip]
    | None => join (lit ",") [lit notice; mac; ip] end). intros msg. cbn. revert s.
  induction (notify cfg) as [|n l IH]; intros s; [done|]. cbn. by rewrite IH, Hf.
Qed.
Lemma reply_step addr buf options msg mac uuid uuid_str pxe names cur new s :
  pool_step (mac_text mac) (ippool s)
    (ippool (reply cfg W addr buf options msg mac uuid uuid_str pxe names cur new s).2).
Proof.
  unfold reply. destruct names as [hostname filename]. apply bind_step; [apply address_step|].
  intros [[ip buf'] addr']. frame; try by apply notify_frame.
  all: unfold finish, send_reply; frame.
Qed.

(** ** The course of a request *)

(** Only the states may differ. *)
Definition quiet (s s' : bootpd) : Prop :=
  uuidpool s' = uuidpool s /\ ippool s' = ippool s /\ filepool s' = filepool s /\ outbox s' = outbox s.
Lemma quiet_trans s1 s2 s3 : quiet s1 s2 -> quiet s2 s3 -> quiet s1 s3.
Proof. unfold quiet. intuition congruence. Qed.
Lemma quiet_frame {A} (m : PM bootpd A) :
  (forall B (f : bootpd -> B), (forall x s, f (set_states x s) = f s) -> frame f m) -> forall s, quiet s (m s).2.
Proof. intros H s. split_and!; by apply H. Qed.

(** The lists of the configuration let the client in. *)
Definition granted (pool : gmap bytes bytes) (mac_str : bytes) (uuid_str : option bytes) : Prop :=
  match access cfg with
  | None | Some AHttp => True
  | Some AMac => is_Some (pool !! mac_str) \/ acl cfg !! mac_str = Some true
  | Some AUuid => is_Some (pool !! mac_str) \/ exists u, uuid_str = Some u /\ acl cfg !! u = Some true
  end.
Lemma local_granted item mac s names :
  (local_access cfg item mac s).1 = Ret (Some names) ->
  is_Some (ippool s !! mac) \/ exists u, item = Some u /\ acl cfg !! u = Some true.
Proof.
  unfold local_access. unfold pm_bind, pm_get. case_bool_decide; [by left|].
  destruct item as [[|c u]|]; [done| |done]. cbn. intros Hr. right. eexists. split; [done|].
  destruct (acl cfg !! _) as [[]|]; [done|discriminate Hr..].
Qed.
Lemma authorize_granted pxe mac uuid cur new s names :
  (authorize cfg W pxe mac uuid cur new s).1 = Ret (Some names) -> granted (ippool s) mac uuid.
Proof.
  unfold authorize, granted. destruct (access cfg) as [[]|]; [|intros H|done..].
  - apply local_granted.
  - destruct (local_granted _ _ _ _ H) as [?|(u & [= <-] & ?)]; auto.
Qed.

(** A request is ignored, or it is let in and answered. *)
Record answered (data : bytes) (addr : bytes * Z) (s : bootpd) (r : res unit * bootpd)
    (buf : bootp) (options : gmap Z bytes) (msg : option Z) (s1 : bootpd) : Prop := {
  an_header : unpack_header (slice_to data DHCPFormatSize) = Ret buf;
  an_request : op buf = BOOTREQUEST;
  an_options : parse_options (slice_from data DHCPFormatSize) = Ret (Some options);
  an_msg : match options !! 53 with None => msg = None | Some v => exists b, py_index v 0 = Ret b /\ msg = Some b end;
  an_quiet : quiet s s1;
  an_reply : exists uuid pxe names cur new, granted (ippool s) (mac_text (mac_of data)) (uuid_text <$> uuid) /\
    new = next_state cur pxe msg /\
    r = reply cfg W addr buf options msg (mac_of data) uuid (uuid_text <$> uuid) pxe names cur new s1
}.
Lemma handle_cases addr data s :
  quiet s (handle cfg W addr data s).2 \/
  exists buf options msg s1, answered data addr s (handle cfg W addr data s) buf options msg s1.
Proof.
  generalize (eq_refl (handle cfg W addr data s)). generalize (handle cfg W addr data s) at 2 3 4. intros r.
  assert (quiet s s) as Hrefl by done. unfold handle. unfold pm_bind at 1, pm_lift at 1.
  destruct (unpack_header _) as [buf|] eqn:Eb; [|intros <-; by left].
  rewrite (unpack_mac data buf Eb).
  destruct (Z.eqb_spec (op buf) BOOTREQUEST) as [Eop|]; cbn [negb]; [|intros <-; by left].
  unfold pm_bind at 1, pm_lift at 1. destruct (parse_options _) as [[options|]|] eqn:Eo; [|intros <-; by left..].
  unfold pm_bind at 1. set (m := match options !! 53 with None => pm_ret None | Some v => _ end).
  assert ((exists e, m s = (Raise e, s)) \/ exists msg, m s = (Ret msg, s) /\
    match options !! 53 with None => msg = None | Some v => exists b, py_index v 0 = Ret b /\ msg = Some b end) as Hm.
  { subst m. destruct (options !! 53) as [v|]; [|right; by exists None]. unfold pm_bind, pm_lift.
    destruct (py_index v 0) as [b|e]; [right|left; by exists e]. exists (Some b). split; [done|]. by exists b. }
  destruct Hm as [[e ->]|(msg & -> & Emsg)]; [intros <-; by left|].
  set (pxe := bool_decide (is_Some _)). unfold pm_bind at 1, pm_get at 1.
  set (uuid := match _ with Some u => Some u | None => _ end).
  unfold pm_bind at 1. pose proof (quiet_frame (setdefault (mac_text (mac_of data))) (fun _ _ => setdefault_frame _ _) s) as Hq.
  destruct (setdefault _ s) as [[cur|] s0]; [|intros <-; by left]. cbn [snd] in Hq.
  set (new := next_state cur pxe msg). destruct (_ && _); [intros <-; by left|].
  unfold pm_bind at 1.
  pose proof (quiet_frame (authorize cfg W pxe (mac_text (mac_of data)) (uuid_text <$> uuid) cur new)
    (fun _ _ => authorize_frame _ _ _ _ _ _) s0) as Hq1.
  pose proof (authorize_granted pxe (mac_text (mac_of data)) (uuid_text <$> uuid) cur new s0) as Hg.
  destruct (authorize _ _ _ _ _ _ _ s0) as [[[names|]|] s1]; cbn [fst snd] in *;
    intros <-; [right|left; by eapply quiet_trans..].
  exists buf, options, msg, s1. split; [done..|by eapply quiet_trans|].
  exists uuid, pxe, names, cur, new. split_and!; [|done..].
  rewrite <- (proj1 (proj2 Hq)). by apply (Hg names).
Qed.

Lemma handle_step addr data s :
  pool_step (mac_text (mac_of data)) (ippool s) (ippool (handle cfg W addr data s).2) /\
  (ippool (handle cfg W addr data s).2 = ippool s \/ exists uuid, granted (ippool s) (mac_text (mac_of data)) uuid).
Proof.
  destruct (handle_cases addr data s) as [Hq|(buf & options & msg & s1 & Ha)].
  - destruct Hq as (_ & -> & _). split; [constructor|by left].
  - destruct (an_reply _ _ _ _ _ _ _ _ Ha) as (uuid & pxe & names & cur & new & Hg & _ & ->).
    rewrite <- (proj1 (proj2 (an_quiet _ _ _ _ _ _ _ _ Ha))). split; [apply reply_step|]. right.
    rewrite (proj1 (proj2 (an_quiet _ _ _ _ _ _ _ _ Ha))). by eexists.
Qed.

(** ** Sequences of requests *)

Lemma forever_ind (I : bootpd -> Prop) requests :
  (forall addr data s, I s -> I (handle cfg W addr data s).2) -> forall s, I s -> I (forever cfg W requests s).2.
Proof.
  intros Hstep. induction requests as [|[addr data] requests IH]; intros s Hs; [done|]. cbn [forever].
  specialize (Hstep addr (take 556 data) s Hs). destruct (handle _ _ _ _ s) as [[[]|e] s']; [by apply IH|].
  destruct e; try by apply IH. done.
Qed.

Lemma find_free_spec n : forall ipval used ip, find_free n ipval used = Ret (Some ip) ->
  ip ∉ used /\ exists k, 0 <= k < Z.of_nat n /\ inttoip (ipval + k) = Ret ip.
Proof.
  induction n as [|n IH]; intros ipval used ip; cbn [find_free]; [discriminate|].
  destruct (inttoip ipval) as [key|] eqn:E; cbn [res_bind]; [|discriminate].
  case_bool_decide as Hin; cbn [negb].
  - intros H. destruct (IH _ _ _ H) as (Hu & k & Hk & Ek). split; [done|]. exists (k + 1). split; [lia|].
    by replace (ipval + (k + 1)) with (ipval + 1 + k) by lia.
  - intros H. injection H as ->. split; [done|]. exists 0. split; [lia|]. by rewrite Z.add_0_r.
Qed.

(** The addresses of the pool *)
Definition in_pool (ip : bytes) : Prop :=
  exists start k, iptoint (pool_start cfg) = Ret start /\ 0 <= k < pool_count cfg /\ inttoip (start + k) = Ret ip.
Record leases_ok (pool : gmap bytes bytes) : Prop := {
  l_exclusive : forall m1 m2 ip, pool !! m1 = Some ip -> pool !! m2 = Some ip -> m1 = m2;
  l_range : forall m ip, pool !! m = Some ip -> in_pool ip
}.
Lemma pool_step_ok mac pool pool' : pool_step mac pool pool' -> leases_ok pool -> leases_ok pool'.
Proof.
  destruct 1 as [|ipaddr ip Hnone Hstart Hfree]; [done|]. intros [Hex Hr].
  apply find_free_spec in Hfree as (Hnew & k & Hk & Eip).
  assert (forall m, pool !! m <> Some ip) as Hnot.
  { intros m Hm. apply Hnew, list_elem_of_fmap. exists (m, ip). split; [done|]. by apply elem_of_map_to_list. }
  split.
  - intros m1 m2 ip' H1 H2. apply lookup_insert_Some in H1 as [[E1 F1]|[_ H1]];
      apply lookup_insert_Some in H2 as [[E2 F2]|[_ H2]]; [congruence| | |by eapply Hex]; subst ip'.
    + by destruct (Hnot m2).
    + by destruct (Hnot m1).
  - intros m ip' [[<- <-]|[? H]]%lookup_insert_Some; [|by eapply Hr]. exists ipaddr, k. split; [done|]. split; [lia|done].
Qed.

(** The values of the pool are different addresses of the range. *)
Definition pool_addresses (start : Z) : list bytes :=
  (fun k => match inttoip (start + k) with Ret ip => ip | Raise _ => [] end) <$> seqZ 0 (pool_count cfg).
Lemma leases_values pool start : leases_ok pool -> iptoint (pool_start cfg) = Ret start ->
  (map_to_list pool).*2 ⊆+ pool_addresses start.
Proof.
  intros [Hex Hr] Es. apply NoDup_submseteq.
  - apply NoDup_fmap_2_strong; [|apply NoDup_map_to_list].
    intros [m1 ip1] [m2 ip2] H1 H2 Heq. cbn in Heq. subst ip2. f_equal.
    apply elem_of_map_to_list in H1, H2. by eapply Hex.
  - intros ip Hip. apply list_elem_of_fmap in Hip as ([m ip'] & Heq & Hm). cbn in Heq. subst ip'.
    apply elem_of_map_to_list in Hm. destruct (Hr m ip Hm) as (start' & k & Hs & Hk & Ek).
    assert (start' = start) as -> by congruence. apply list_elem_of_fmap. exists k. rewrite Ek. split; [done|].
    apply elem_of_seqZ. lia.
Qed.
Lemma leases_size pool : leases_ok pool -> Z.of_nat (size pool) <= Z.max 0 (pool_count cfg).
Proof.
  intros Hok. destruct (iptoint (pool_start cfg)) as [start|] eqn:Es.
  - pose proof (submseteq_length _ _ (leases_values pool start Hok Es)) as Hl.
    unfold pool_addresses in Hl. rewrite !length_fmap, length_map_to_list, length_seqZ in Hl. lia.
  - destruct (decide (pool = ∅)) as [->|Hne]; [rewrite map_size_empty; lia|].
    apply map_choose in Hne as (m & ip & Hm). destruct (l_range _ Hok m ip Hm) as (? & ? & H & _). congruence.
Qed.

(** [C7] Leases are exclusive: whatever the server has received, no two clients hold the
    same address, every address lies in the configured range, and there are never more
    leases than the range has addresses. *)
Theorem leases_exclusive requests :
  let pool := ippool (forever cfg W requests new_server).2 in
  leases_ok pool /\ Z.of_nat (size pool) <= Z.max 0 (pool_count cfg).
Proof.
  cbv zeta. assert (leases_ok (ippool (forever cfg W requests new_server).2)) as H.
  { apply (forever_ind (fun s => leases_ok (ippool s))); [|by split].
    intros addr data s. apply pool_step_ok with (mac_text (mac_of data)), handle_step. }
  split; [done|by apply leases_size].
Qed.

(** A lease is kept: once a client has an address, no request of any client changes
    it, and every later request of it is answered with the same address. *)
Theorem leases_stable requests s mac ip :
  ippool s !! mac = Some ip -> ippool (forever cfg W requests s).2 !! mac = Some ip.
Proof.
  apply (forever_ind (fun s => ippool s !! mac = Some ip)). intros addr data s' H.
  destruct (proj1 (handle_step addr data s')) as [|ipaddr ip' Hnone _ _]; [done|].
  rewrite lookup_insert_ne; [done|]. congruence.
Qed.

(** [C8] Access control: a server that checks hardware addresses never answers a client
    that is not on the list, notifies nobody of it and leases it no address, after any
    requests. *)
Theorem access_control requests addr data :
  let s := (forever cfg W requests new_server).2 in
  access cfg = Some AMac -> acl cfg !! mac_text (mac_of data) <> Some true ->
  quiet s (handle cfg W addr data s).2.
Proof.
  intros s Hacc Hno.
  assert (forall m, is_Some (ippool s !! m) -> acl cfg !! m = Some true) as Hinv.
  { apply (forever_ind (fun s => forall m, is_Some (ippool s !! m) -> acl cfg !! m = Some true)).
    2: { intros m [? H]. cbn in H. by rewrite lookup_empty in H. }
    intros addr' data' s' IH m. destruct (handle_step addr' data' s') as [Hstep Hg].
    destruct Hg as [->|[uuid Hg]]; [apply IH|]. unfold granted in Hg. rewrite Hacc in Hg.
    destruct Hstep as [|ipaddr ip Hnone _ _]; [apply IH|]. intros [<-|[_ H]]%lookup_insert_is_Some; [|by apply IH].
    destruct Hg as [[? Hg]|Hg]; [congruence|done]. }
  destruct (handle_cases addr data s) as [Hq|(buf & options & msg & s1 & Ha)]; [done|].
  destruct (an_reply _ _ _ _ _ _ _ _ Ha) as (uuid & pxe & names & cur & new & Hg & _).
  unfold granted in Hg. rewrite Hacc in Hg. destruct Hg as [Hg|Hg]; [|done]. by apply Hinv in Hg.
Qed.

(** ** Replies *)

Lemma lease_spec mac s ip s' : lease cfg mac s = (Ret ip, s') -> ippool s' !! mac = Some ip /\ outbox s' = outbox s.
Proof.
  unfold lease. unfold pm_bind at 1, pm_lift at 1. destruct (iptoint _); [|discriminate].
  unfold pm_bind at 1, pm_get at 1. destruct (ippool s !! mac) as [ip'|] eqn:El.
  { case_bool_decide; [discriminate|]. intros Hr. injection Hr as <- <-. by rewrite El. }
  unfold pm_bind at 1, pm_lift at 1. destruct (find_free _ _ _) as [[ip'|]|]; [|discriminate..].
  intros H. injection H as <- <-. split; [apply lookup_insert_eq|done].
Qed.
Lemma inet_aton_length ip a : inet_aton ip = Ret a -> length a = 4%nat.
Proof. unfold inet_aton. destruct (aton ip); [|discriminate]. intros H. injection H as <-. done. Qed.

(** The header of a reply to the request with header [buf] *)
Record reply_to (s' : bootpd) (mac_str : bytes) (buf h : bootp) : Prop := {
  rt_op : op h = BOOTREPLY;
  rt_same : (htype h, hlen h, hops h, xid h, ciaddr h, chaddr h, vend h)
          = (htype buf, hlen buf, hops buf, xid buf, ciaddr buf, chaddr buf, vend buf);
  rt_address : if bool_decide (ciaddr buf = [0; 0; 0; 0])
               then exists ip, ippool s' !! mac_str = Some ip /\ inet_aton ip = Ret (yiaddr h)
               else yiaddr h = ciaddr buf
}.
Lemma address_spec mac buf addr s ip h dest s' :
  address cfg mac buf addr s = (Ret (ip, h, dest), s') -> header_fits buf ->
  reply_to s' mac buf h /\ header_fits h /\ outbox s' = outbox s.
Proof.
  unfold address. intros H []. case_bool_decide as Hz.
  - unfold pm_bind at 1 in H. destruct (lease cfg mac s) as [[ip'|] s1] eqn:El; [|discriminate].
    apply lease_spec in El as [El Eo]. unfold pm_bind at 1, pm_lift at 1 in H.
    destruct (broadcast cfg ip'); [|discriminate]. unfold pm_bind at 1, pm_lift at 1 in H.
    destruct (inet_aton ip') as [y|] eqn:Ey; [|discriminate]. injection H as <- <- <- <-.
    split_and!; [|split; cbn; try done; try lia; by eapply inet_aton_length|done].
    split; [done..|]. rewrite bool_decide_eq_true_2 by done. by exists ip'.
  - unfold pm_bind, pm_lift in H. destruct (inet_ntoa _); [|discriminate]. injection H as <- <- <- <-.
    split_and!; [|split; cbn; try done; lia|done].
    split; [done..|]. by rewrite bool_decide_eq_false_2.
Qed.

(** The kind of reply to each message *)
Definition reply_kind (msg : option Z) : option Z :=
  match msg with
  | Some m => if m =? DHCP_DISCOVER then Some DHCP_OFFER else if m =? DHCP_REQUEST then Some DHCP_ACK else None
  | None => None
  end.
(** A datagram that answers the request *)
Definition answers (s' : bootpd) (mac_str : bytes) (buf : bootp) (msg : option Z) (d : bytes) : Prop :=
  exists h k rest, unpack_header (take 240 d) = Ret h /\ reply_to s' mac_str buf h /\
    Ret (siaddr h) = inet_aton (nc_server (netconfig cfg)) /\ giaddr h = siaddr h /\
    reply_kind msg = Some k /\ drop 240 d = DHCP_MSG :: 1 :: k :: rest.

Lemma reply_packet_spec h k pkt : header_fits h -> reply_packet cfg W h k = Ret pkt ->
  exists p rest, pack_header h = Ret p /\ pkt = p ++ DHCP_MSG :: 1 :: k :: rest.
Proof.
  intros Hf. unfold reply_packet. destruct (pack_header h) as [p|]; [|discriminate]. cbn [res_bind].
  destruct (inet_aton _) as [server|]; [|discriminate]. cbn [res_bind].
  destruct (inet_aton _) as [mask|]; [|discriminate]. cbn [res_bind].
  destruct (dns_option _ _ _) as [dns|]; [|discriminate]. cbn [res_bind].
  destruct (lease_option _) as [time|]; [|discriminate]. cbn [res_bind]. intros H. injection H as <-.
  eexists p, _. split; [done|]. cbn [app]. reflexivity.
Qed.
Lemma send_reply_spec pxe options hostname mac uuid pkt addr s r s' :
  send_reply cfg pxe options hostname mac uuid pkt addr s = (r, s') ->
  ippool s' = ippool s /\ (outbox s' = outbox s \/ exists extra, outbox s' = outbox s ++ [(pkt ++ extra, addr)]).
Proof.
  unfold send_reply. unfold pm_bind at 1, pm_lift at 1. destruct (inet_aton _) as [server|]; [|intros [= _ <-]; auto].
  unfold pm_bind at 1. set (m := if pxe then _ else _).
  assert (exists r, m s = (r, s)) as [r0 ->].
  { subst m. destruct pxe; [by eexists|]. unfold pm_bind, pm_lift. destruct (build_dhcp_options _); by eexists. }
  destruct r0 as [[extra|]|]; [|intros [= _ <-]; auto..].
  destruct pxe, uuid; intros [= _ <-]; (split; [done|right; by exists extra]).
Qed.

Lemma notify_outbox notice uuid mac ip s :
  exists notices, outbox (_notify cfg notice uuid mac ip s).2 = outbox s ++ notices /\ notices.*2 = notify cfg.
Proof.
  unfold _notify. cbv zeta. set (msg := match uuid with Some u => _ | None => _ end). cbn [pm_modify snd].
  exists ((fun n => (msg, n)) <$> notify cfg). split; [|rewrite <- list_fmap_compose; apply list_fmap_id].
  revert s. induction (notify cfg) as [|n l IH]; intros s; [by rewrite app_nil_r|].
  cbn [foldl fmap list_fmap]. rewrite IH. cbn [outbox sendto]. by rewrite <- app_assoc.
Qed.

Lemma finish_outbox ip h options mac uuid pxe hostname filename cur new addr k s r s' :
  header_fits h -> finish cfg W ip h options mac uuid pxe hostname filename cur new addr k s = (r, s') ->
  ippool s' = ippool s /\ (outbox s' = outbox s \/ exists p rest, outbox s' = outbox s ++ [(p ++ DHCP_MSG :: 1 :: k :: rest, addr)] /\
    pack_header h = Ret p).
Proof.
  intros Hf. unfold finish. unfold pm_bind at 1. set (m := if bool_decide _ then _ else _).
  assert (exists s1, m s = (Ret tt, s1) /\ ippool s1 = ippool s /\ outbox s1 = outbox s) as (s1 & -> & <- & <-).
  { subst m. case_bool_decide; by eexists. }
  unfold pm_bind at 1, pm_lift at 1. destruct (reply_packet _ _ _ _) as [pkt|] eqn:Ep; [|intros [= _ <-]; auto].
  apply reply_packet_spec in Ep as (p & rest & Ep & ->); [|done].
  unfold pm_bind at 1. destruct (send_reply _ _ _ _ _ _ _ _ s1) as [sent s2] eqn:Es.
  apply send_reply_spec in Es as [<- H2]. intros H.
  assert (ippool s' = ippool s2 /\ outbox s' = outbox s2) as [-> ->].
  { destruct sent as [b|]; [|by injection H as _ <-]. by destruct (b && _); injection H as _ <-. }
  split; [done|]. destruct H2 as [H2|[extra H2]]; [by left|right]. exists p, (rest ++ extra). by rewrite H2, <- app_assoc.
Qed.

Lemma answers_intro s' mac buf h server msg k p rest :
  header_fits h -> reply_to s' mac buf h -> inet_aton (nc_server (netconfig cfg)) = Ret server ->
  siaddr h = server -> giaddr h = server -> reply_kind msg = Some k -> pack_header h = Ret p ->
  answers s' mac buf msg (p ++ DHCP_MSG :: 1 :: k :: rest).
Proof.
  intros Hf [H1 H2 H3] Es Hs Hg Hk Hp. destruct (pack_header_fits h Hf) as (p' & Ep & Hl & Eu).
  assert (p' = p) as -> by congruence. eexists _, k, rest.
  rewrite <- Hl, take_app_length, drop_app_length. split; [exact Eu|].
  cbn [op htype hlen hops xid ciaddr chaddr vend yiaddr siaddr giaddr].
  split_and!; [by split|congruence..].
Qed.
Lemma address_frame mac buf addr : frame outbox (address cfg mac buf addr).
Proof. unfold address, lease. frame. Qed.

(** What one request adds to the datagrams: a notice to each listener or none, then one
    answer or none *)
Definition sent_for (s s' : bootpd) (mac_str : bytes) (buf : bootp) (msg : option Z) : Prop :=
  exists notices replies, outbox s' = outbox s ++ notices ++ replies /\ (notices = [] \/ notices.*2 = notify cfg) /\
    (replies = [] \/ exists d dest, replies = [(d, dest)] /\ answers s' mac_str buf msg d).
Lemma sent_nothing s s' mac buf msg : outbox s' = outbox s -> sent_for s s' mac buf msg.
Proof. intros H. exists [], []. rewrite !app_nil_r. auto. Qed.
Lemma finish_sent s s1 notices ip h server options mac uuid pxe hostname filename cur new addr k r s' buf msg :
  finish cfg W ip h options mac uuid pxe hostname filename cur new addr k s1 = (r, s') ->
  outbox s1 = outbox s ++ notices -> notices = [] \/ notices.*2 = notify cfg ->
  header_fits h -> reply_to s1 (mac_text mac) buf h -> inet_aton (nc_server (netconfig cfg)) = Ret server ->
  siaddr h = server -> giaddr h = server -> reply_kind msg = Some k ->
  sent_for s s' (mac_text mac) buf msg.
Proof.
  intros Hfin Hout Hn Hf [R1 R2 R3] Es Hs Hg Hk.
  apply finish_outbox in Hfin as [Hp [Ho|(p & rest & Ho & Hpack)]]; [| |done]; exists notices; rewrite Ho, Hout.
  - exists []. by rewrite app_nil_r; auto.
  - eexists. rewrite <- app_assoc. split_and!; [done..|]. right. eexists _, _. split; [done|].
    eapply (answers_intro _ _ _ h); [done| |done..]. split; [done..|]. by rewrite Hp.
Qed.

Lemma reply_sent addr buf options msg mac uuid uuid_str pxe names cur new s r s' :
  header_fits buf -> reply cfg W addr buf options msg mac uuid uuid_str pxe names cur new s = (r, s') ->
  sent_for s s' (mac_text mac) buf msg.
Proof.
  intros Hf. unfold reply. destruct names as [hostname filename]. unfold pm_bind at 1.
  pose proof (address_frame (mac_text mac) buf addr s) as Ho.
  destruct (address _ _ _ _ s) as [[[[ip h] dest]|] s1] eqn:Ea; cbn [snd] in Ho; [|intros [= _ <-]; by apply sent_nothing].
  apply address_spec in Ea as (Hr & Hfh & _); [|done].
  unfold pm_bind at 1, pm_lift at 1. destruct (inet_aton _) as [server|] eqn:Es; [|intros [= _ <-]; by apply sent_nothing].
  set (h' := Bootp _ _ _ _ _ _ _ _ _ _ _ _ _ _ _).
  assert (header_fits h') as Hfh'.
  { destruct Hfh. pose proof (inet_aton_length _ _ Es). by split. }
  assert (reply_to s1 (mac_text mac) buf h') as Hr' by (destruct Hr; by split).
  destruct msg as [m|]; [|intros [= _ <-]; by apply sent_nothing].
  destruct (m =? 0); [intros [= _ <-]; by apply sent_nothing|].
  destruct (m =? DHCP_DISCOVER) eqn:Ed.
  { intros H. eapply (finish_sent _ s1 []); [exact H|by rewrite app_nil_r|by left|done..|cbn; by rewrite Ed]. }
  destruct (m =? DHCP_REQUEST) eqn:Er.
  - unfold pm_bind at 1. set (notice := if bool_decide _ then "BOOT" else "LEASE").
    pose proof (notify_frame ippool notice uuid_str (mac_text mac) ip ltac:(done) s1) as Hp.
    destruct (notify_outbox notice uuid_str (mac_text mac) ip s1) as (notices & Hn & Hto).
    destruct (_notify _ _ _ _ _ s1) as [[[]|] s2] eqn:En; [|discriminate]. cbn [snd] in *. intros H.
    eapply (finish_sent _ s2 notices); [exact H|congruence|by right|done| |done..|cbn; by rewrite Ed, Er].
    destruct Hr' as [R1 R2 R3]. split; [done..|]. by rewrite Hp.
  - destruct (m =? DHCP_RELEASE); [|intros [= _ <-]; by apply sent_nothing]. intros H.
    destruct (notify_outbox "RELEASE" uuid_str (mac_text mac) ip s1) as (notices & Hn & Hto).
    rewrite H in Hn. exists notices, []. cbn [snd] in Hn. rewrite app_nil_r, Hn, Ho. auto.
Qed.

(** Every request is answered at most once and correctly: what is sent is a notice to
    each listener or none, and then nothing or one datagram whose header is a reply with
    the transaction number, the hardware address and the other fields of the request,
    the address leased to that client (or the one it already has) and the server's
    address, and whose first option is the kind of reply that fits the request. *)
Theorem replies_answer_request addr data s :
  bytes_ok data ->
  outbox (handle cfg W addr data s).2 = outbox s \/
  exists buf options, unpack_header (slice_to data DHCPFormatSize) = Ret buf /\
    parse_options (slice_from data DHCPFormatSize) = Ret (Some options) /\
    sent_for s (handle cfg W addr data s).2 (mac_text (mac_of data)) buf (options !! 53 ≫= head).
Proof.
  intros Hb. destruct (handle_cases addr data s) as [Hq|(buf & options & msg & s1 & Ha)]; [left; apply Hq|right].
  destruct (an_reply _ _ _ _ _ _ _ _ Ha) as (uuid & pxe & names & cur & new & _ & _ & Hr).
  exists buf, options. split; [apply Ha|]. split; [apply Ha|].
  assert (options !! 53 ≫= head = msg) as ->.
  { pose proof (an_msg _ _ _ _ _ _ _ _ Ha) as Hm. destruct (options !! 53) as [[|b v]|]; cbn;
      [by destruct Hm as (? & ? & _)|by destruct Hm as (? & [= <-] & ->)|done]. }
  destruct (an_quiet _ _ _ _ _ _ _ _ Ha) as (_ & _ & _ & Hout).
  destruct (handle cfg W addr data s) as [r s'] eqn:Eh. symmetry in Hr. apply reply_sent in Hr.
  - unfold sent_for in *. by rewrite Hout in Hr.
  - eapply unpack_fits; [|apply Ha]. by apply Forall_take.
Qed.
End theorems.
