(* ===== verification/PxeBoot.v ===== *)
(** More on the PXE server: addresses as text and as numbers, option lists, the padding
    byte on which it hangs, the exhausted pool, and a complete boot. *)
From S2P Require Import Prelude PyString Struct Pxe PxeTheorems.

(** * Addresses *)

Lemma inttoip_ok z : 0 <= z < 256 ^ 4 -> exists ip, inttoip z = Ret ip /\ ip <> [].
Proof.
  intros Hz. unfold inttoip. rewrite (proj2 (Z.leb_le _ _)), (proj2 (Z.ltb_lt _ _)) by lia. cbn [andb].
  unfold inet_ntoa. rewrite bool_decide_eq_true_2 by apply length_be_split. eexists. split; [done|].
  pose proof (length_be_split 4 z) as Hl. destruct (be_split 4 z) as [|a [|b l]]; [done|done|].
  cbn [fmap list_fmap join]. unfold dec. destruct (a <? 10); [done|]. by destruct (a <? 100).
Qed.

Lemma iptoint_of_inttoip z ip : inttoip z = Ret ip -> iptoint ip = Ret z /\ 0 <= z < 256 ^ 4.
Proof.
  unfold inttoip. destruct (_ && _) eqn:Hz; [|discriminate].
  apply andb_true_iff in Hz as [H0%Z.leb_le H1%Z.ltb_lt]. intros H. split; [|lia].
  apply aton_ntoa in H; [|apply be_split_ok]. unfold iptoint, inet_aton. rewrite H. cbn [res_bind].
  rewrite !be_combine_split by (rewrite ?be_combine_split; cbn; lia). done.
Qed.
Lemma inttoip_inj z1 z2 ip : inttoip z1 = Ret ip -> inttoip z2 = Ret ip -> z1 = z2.
Proof. intros [H1 _]%iptoint_of_inttoip [H2 _]%iptoint_of_inttoip. congruence. Qed.

(** The text of an address: exactly the numbers of 32 bits have one, reading it gives
    the number back, and all others raise [struct.error]. *)
Theorem address_text z :
  (0 <= z < 256 ^ 4 -> exists ip, inttoip z = Ret ip /\ iptoint ip = Ret z) /\
  (~ 0 <= z < 256 ^ 4 -> inttoip z = Raise StructError).
Proof.
  split; intros Hz.
  - destruct (inttoip_ok z Hz) as (ip & E & _). exists ip. split; [done|]. by apply iptoint_of_inttoip.
  - unfold inttoip. destruct (Z.leb_spec 0 z), (Z.ltb_spec z (256 ^ 4)); try done. lia.
Qed.

Section boot.
Context (cfg : settings) (W : pxe_world).

(** * Option lists *)

Definition encode_option (o : Z * bytes) : bytes := o.1 :: zlen o.2 :: o.2.
Definition known_option (o : Z * bytes) : Prop := o.1 ∈ DHCP_OPTIONS /\ o.1 <> 0 /\ o.1 <> 255 /\ zlen o.2 < 256.
Lemma parse_known n o rest tags :
  known_option o -> parse_loop (S n) (encode_option o ++ rest) tags = parse_loop n rest (<[o.1 := o.2]> tags).
Proof.
  destruct o as [tag v]. intros (Hin & H0 & H255 & Hl). cbn [fst snd] in *.
  unfold encode_option. cbn [app fst snd parse_loop].
  rewrite (proj2 (Z.eqb_neq tag 0)), (proj2 (Z.eqb_neq tag 255)) by done.
  rewrite (py_index_lookup _ 1 (zlen v)) by done. cbn [res_bind].
  pose proof (zlen_nonneg v).
  assert (slice (tag :: zlen v :: v ++ rest) 2 (2 + zlen v) = v) as ->.
  { rewrite slice_in by (rewrite ?zlen_cons, ?zlen_app; pose proof (zlen_nonneg rest); lia).
    replace (2 + zlen v - 2) with (zlen v) by lia. unfold zlen. rewrite Nat2Z.id. cbn. apply take_app_length. }
  rewrite Z.eqb_refl. cbn [negb]. rewrite bool_decide_eq_true_2 by done. cbn [negb]. f_equal.
  unfold slice_from. rewrite clamp_nonneg by lia. rewrite !zlen_cons, zlen_app, Z.min_l by (pose proof (zlen_nonneg rest); lia).
  replace (Z.to_nat (2 + zlen v)) with (S (S (length v))) by (unfold zlen; lia). cbn. apply drop_app_length.
Qed.
Lemma parse_known_all opts : forall n rest tags, Forall known_option opts ->
  parse_loop (length opts + n) (concat (encode_option <$> opts) ++ rest) tags =
  parse_loop n rest (foldl (fun m o => <[o.1 := o.2]> m) tags opts).
Proof.
  induction opts as [|o opts IH]; intros n rest tags Hk; [done|]. apply Forall_cons in Hk as [Ho Hk].
  cbn [length fmap list_fmap concat foldl]. rewrite <- app_assoc, Nat.add_succ_l, parse_known by done. by apply IH.
Qed.
Lemma encode_length opts : (length opts <= length (concat (encode_option <$> opts)))%nat.
Proof. induction opts as [|o opts IH]; [done|]. cbn. rewrite length_app. lia. Qed.

(** The options of a request: a list of known options with the end mark behind it is
    read back as the map from codes to values, whatever follows. *)
Theorem options_roundtrip opts rest :
  Forall known_option opts ->
  parse_options (concat (encode_option <$> opts) ++ 255 :: rest)
  = Ret (Some (foldl (fun m o => <[o.1 := o.2]> m) ∅ opts)).
Proof.
  intros Hk. unfold parse_options. pose proof (encode_length opts) as Hl. rewrite length_app.
  set (n := length (concat (encode_option <$> opts))) in *. cbn [length].
  replace (S (n + S (length rest))) with (length opts + S (S (n - length opts + length rest)))%nat by lia.
  by rewrite parse_known_all.
Qed.

(** A padding byte stops the server: when the options of a request have a zero byte
    where the next option should start, the parser never gets past it, whatever number of
    rounds it is given, and no later request is served. *)
Theorem padding_hangs opts rest addr data requests s buf :
  Forall known_option opts -> (length data <= 556)%nat ->
  unpack_header (slice_to data DHCPFormatSize) = Ret buf -> op buf = BOOTREQUEST ->
  slice_from data DHCPFormatSize = concat (encode_option <$> opts) ++ 0 :: rest ->
  (forall fuel tags, parse_loop fuel (slice_from data DHCPFormatSize) tags = Raise Diverges) /\
  forever cfg W ((addr, data) :: requests) s = (Raise Diverges, s).
Proof.
  intros Hk Hlen Hh Hop Htail. rewrite Htail.
  assert (forall fuel tags, parse_loop fuel (0 :: rest) tags = Raise Diverges) as Hz.
  { intros fuel. induction fuel as [|fuel IH]; intros tags; [done|apply IH]. }
  assert (forall fuel tags, parse_loop fuel (concat (encode_option <$> opts) ++ 0 :: rest) tags = Raise Diverges) as Hd.
  { intros fuel. clear Htail. revert fuel. induction Hk as [|o opts Ho Hk IH]; intros fuel tags; [apply Hz|].
    cbn [fmap list_fmap concat]. rewrite <- app_assoc. destruct fuel as [|fuel]; [done|].
    rewrite parse_known by done. apply IH. }
  split; [done|]. cbn [forever]. rewrite firstn_all2 by done. unfold handle. unfold pm_bind at 1, pm_lift at 1.
  rewrite Hh, Hop. cbn [Z.eqb BOOTREQUEST Pos.eqb negb]. unfold pm_bind at 1, pm_lift at 1.
  rewrite Htail. unfold parse_options. by rewrite Hd.
Qed.

(** * Capacity of the pool *)

Lemma find_free_none n : forall start used, find_free n start used = Ret None ->
  forall k, 0 <= k < Z.of_nat n -> exists ip, inttoip (start + k) = Ret ip /\ ip ∈ used.
Proof.
  induction n as [|n IH]; intros start used H k Hk; [lia|]. cbn [find_free] in H.
  destruct (inttoip start) as [key|] eqn:E; cbn [res_bind] in H; [|discriminate].
  case_bool_decide as Hin; cbn [negb] in H; [|discriminate].
  destruct (decide (k = 0)) as [->|]; [exists key; by rewrite Z.add_0_r|].
  destruct (IH _ _ H (k - 1)) as (ip & E' & Hip); [lia|]. exists ip. split; [|done].
  by replace (start + k) with (start + 1 + (k - 1)) by lia.
Qed.
Lemma find_free_ret n : forall start used, 0 <= start -> start + Z.of_nat n <= 256 ^ 4 ->
  exists o, find_free n start used = Ret o.
Proof.
  induction n as [|n IH]; intros start used H0 H1; [by eexists|]. cbn [find_free].
  destruct (inttoip_ok start) as (ip & -> & _); [lia|]. cbn [res_bind]. destruct (negb _); [by eexists|apply IH; lia].
Qed.
Lemma pool_addresses_nodup start : 0 <= start -> start + pool_count cfg <= 256 ^ 4 -> NoDup (pool_addresses cfg start).
Proof.
  intros H0 H1. apply NoDup_fmap_2_strong; [|apply NoDup_seqZ].
  intros k1 k2 Hk1%elem_of_seqZ Hk2%elem_of_seqZ Heq.
  destruct (inttoip_ok (start + k1)) as (ip1 & E1 & _); [lia|]. destruct (inttoip_ok (start + k2)) as (ip2 & E2 & _); [lia|].
  rewrite E1, E2 in Heq. subst ip2. pose proof (inttoip_inj _ _ _ E1 E2). lia.
Qed.

Lemma find_free_capacity pool start :
  leases_ok cfg pool -> iptoint (pool_start cfg) = Ret start -> 0 <= start -> start + pool_count cfg <= 256 ^ 4 ->
  0 <= pool_count cfg ->
  exists o, find_free (Z.to_nat (pool_count cfg)) start (map_to_list pool).*2 = Ret o /\
    (o = None <-> Z.of_nat (size pool) = pool_count cfg).
Proof.
  intros Hok Es H0 H1 Hc. set (n := Z.to_nat (pool_count cfg)).
  destruct (find_free_ret n start (map_to_list pool).*2) as [o Ho]; [lia..|]. exists o. split; [done|].
  pose proof (leases_values cfg pool start Hok Es) as Hsub.
  assert (length (pool_addresses cfg start) = n) as Hlen.
  { unfold pool_addresses. by rewrite length_fmap, length_seqZ. }
  assert (length (map_to_list pool).*2 = size pool) as Hsize by (by rewrite length_fmap, length_map_to_list).
  split.
  - intros ->. assert (pool_addresses cfg start ⊆+ (map_to_list pool).*2) as Hsup.
    { apply NoDup_submseteq; [by apply pool_addresses_nodup|]. intros ip Hip.
      apply list_elem_of_fmap in Hip as (k & -> & Hk%elem_of_seqZ).
      destruct (find_free_none _ _ _ Ho k) as (ip & -> & Hin); [lia|done]. }
    apply submseteq_length in Hsub, Hsup. lia.
  - intros Hfull. destruct o as [ip|]; [|done]. exfalso. apply find_free_spec in Ho as (Hnew & k & Hk & Ek).
    apply Hnew. rewrite (submseteq_length_Permutation _ _ Hsub) by lia.
    apply list_elem_of_fmap. exists k. rewrite Ek. split; [done|]. apply elem_of_seqZ. lia.
Qed.

(** A range of addresses inside the address space, and a state that a server can be in *)
Record pool_range (start : Z) : Prop := {
  pr_start : iptoint (pool_start cfg) = Ret start;
  pr_low : 0 <= start; pr_high : start + pool_count cfg <= 256 ^ 4;
  pr_count : 0 <= pool_count cfg
}.
Definition room (mac : bytes) (s : bootpd) : Prop :=
  is_Some (ippool s !! mac) \/ Z.of_nat (size (ippool s)) < pool_count cfg.
#[local] Instance room_dec mac s : Decision (room mac s) := ltac:(unfold room; apply _).

Lemma lease_live mac s start : leases_ok cfg (ippool s) -> pool_range start -> room mac s ->
  exists ip s' z, lease cfg mac s = (Ret ip, s') /\ leases_ok cfg (ippool s') /\ ippool s' !! mac = Some ip /\
    iptoint ip = Ret z /\ states s' = states s /\ uuidpool s' = uuidpool s.
Proof.
  intros Hok [Es H0 H1 Hc] Hroom. destruct (lease cfg mac s) as [r s'] eqn:E.
  pose proof (pool_step_ok _ _ _ _ (lease_step cfg mac s) Hok) as Hok'. rewrite E in Hok'. cbn [snd] in Hok'.
  unfold lease, pm_bind, pm_lift, pm_get in E. rewrite Es in E. destruct (ippool s !! mac) as [ip|] eqn:El.
  - destruct (l_range _ _ Hok mac ip El) as (st & k & _ & _ & Ek). apply iptoint_of_inttoip in Ek as [Ez _].
    rewrite bool_decide_eq_false_2 in E by (by intros ->). injection E as <- <-. by exists ip, s, (st + k).
  - destruct (find_free_capacity (ippool s) start Hok Es H0 H1 Hc) as (o & Ho & Hnone). rewrite Ho in E.
    destruct o as [ip|]; injection E as <- <-.
    + apply find_free_spec in Ho as (_ & k & _ & Ek). apply iptoint_of_inttoip in Ek as [Ez _].
      eexists _, _, _. split_and!; try done. apply lookup_insert_eq.
    + destruct Hroom as [[? ?]|?]; [congruence|]. pose proof (proj1 Hnone eq_refl). lia.
Qed.

(** [C36] Capacity: with a range inside the address space, a client gets an address exactly
    when it has one already or when there are fewer leases than addresses; otherwise
    [BootpError] is raised and nothing changes. *)
Theorem lease_capacity mac s start :
  leases_ok cfg (ippool s) -> pool_range start ->
  if decide (room mac s)
  then exists ip s', lease cfg mac s = (Ret ip, s') /\ ippool s' !! mac = Some ip
  else lease cfg mac s = (Raise BootpError, s).
Proof.
  intros Hok Hr. destruct (decide (room mac s)) as [Hroom|Hno].
  { destruct (lease_live mac s start Hok Hr Hroom) as (ip & s' & z & H & _ & Hip & _). by exists ip, s'. }
  destruct Hr as [Es H0 H1 Hc]. unfold lease, pm_bind, pm_lift, pm_get. rewrite Es.
  assert (ippool s !! mac = None) as -> by (apply eq_None_not_Some; intros ?; apply Hno; by left).
  destruct (find_free_capacity (ippool s) start Hok Es H0 H1 Hc) as (o & -> & Hnone).
  pose proof (leases_size cfg (ippool s) Hok).
  assert (~ Z.of_nat (size (ippool s)) < pool_count cfg) by (intros ?; apply Hno; by right).
  assert (o = None) as -> by (apply Hnone; lia). done.
Qed.

(** * A complete boot *)

(** The configuration gives a server that can answer. *)
Record configured : Prop := {
  co_server : is_Some (match inet_aton (nc_server (netconfig cfg)) with Ret a => Some a | Raise _ => None end);
  co_mask : is_Some (match inet_aton (nc_mask (netconfig cfg)) with Ret a => Some a | Raise _ => None end);
  co_dns : forall server, is_Some (match dns_option cfg W server with Ret a => Some a | Raise _ => None end);
  co_time : is_Some (match lease_option cfg with Ret a => Some a | Raise _ => None end)
}.
Lemma ret_of {A} (r : res A) : is_Some (match r with Ret a => Some a | Raise _ => None end) -> exists a, r = Ret a.
Proof. destruct r; [by eexists|by intros [? ?]]. Qed.

Lemma iptoint_range ip z : iptoint ip = Ret z -> 0 <= z < 256 ^ 4.
Proof.
  unfold iptoint, inet_aton. destruct (aton ip) as [n|]; [|discriminate]. cbn [res_bind]. intros H. injection H as <-.
  apply (be_combine_bound (be_split 4 n)), be_split_ok.
Qed.
Lemma lor_range a b : 0 <= a < 256 ^ 4 -> 0 <= b < 256 ^ 4 -> 0 <= Z.lor a b < 256 ^ 4.
Proof.
  change (256 ^ 4) with (2 ^ 32). intros Ha Hb. split; [apply Z.lor_nonneg; lia|].
  rewrite <- (Z.mod_small a (2 ^ 32)), <- (Z.mod_small b (2 ^ 32)) by lia.
  rewrite <- !Z.land_ones, <- Z.land_lor_distr_l, Z.land_ones by lia. apply Z.mod_pos_bound. lia.
Qed.
Lemma broadcast_ok ip z : configured -> iptoint ip = Ret z -> exists b, broadcast cfg ip = Ret b.
Proof.
  intros Hc Hz. unfold broadcast. destruct (ret_of _ (co_mask Hc)) as [m Em].
  unfold iptoint at 1. rewrite Em. cbn [res_bind]. rewrite Hz. cbn [res_bind].
  destruct (inttoip_ok (Z.lor (Z.land z (be_combine m)) (Z.land (Z.lnot (be_combine m)) (Z.shiftl 1 32 - 1)))) as (b & -> & _);
    [|by exists b].
  pose proof (iptoint_range _ _ Hz).
  assert (forall a b, 0 <= b < 256 ^ 4 -> 0 <= Z.land a b < 256 ^ 4) as Hland.
  { intros a b Hb. split; [apply Z.land_nonneg; lia|]. change (256 ^ 4) with (2 ^ 32) in *.
    rewrite <- (Z.mod_small b (2 ^ 32)) by lia. rewrite <- Z.land_ones, Z.land_assoc, Z.land_ones by lia.
    apply Z.mod_pos_bound. lia. }
  apply lor_range; [rewrite Z.land_comm|]; apply Hland; [done|]. change (Z.shiftl 1 32 - 1) with (256 ^ 4 - 1). lia.
Qed.
Lemma inet_aton_of_iptoint ip z : iptoint ip = Ret z -> exists y, inet_aton ip = Ret y.
Proof. unfold iptoint. destruct (inet_aton ip); [by eexists|done]. Qed.

Lemma reply_packet_ok h k : configured -> header_fits h -> exists pkt, reply_packet cfg W h k = Ret pkt.
Proof.
  intros Hc Hf. unfold reply_packet. destruct (pack_header_fits h Hf) as (p & -> & _). cbn [res_bind].
  destruct (ret_of _ (co_server Hc)) as [server ->]. destruct (ret_of _ (co_mask Hc)) as [mask ->]. cbn [res_bind].
  destruct (ret_of _ (co_dns Hc server)) as [dns ->]. destruct (ret_of _ (co_time Hc)) as [time ->]. by eexists.
Qed.

(** The options a client must send *)
Definition complete (pxe : bool) (options : gmap Z bytes) : Prop :=
  pxe = true -> exists u c, options !! 97 = Some u /\ options !! 60 = Some c /\ zlen u < 256 /\ zlen c < 256.
Lemma tlv_ok tag v : zlen v < 256 -> tlv tag v = Ret (tag :: zlen v :: v).
Proof. intros. unfold tlv. by rewrite (proj2 (Z.ltb_lt _ _)). Qed.
Lemma zlen_slice_to {A} (l : list A) j : zlen (slice_to l j) <= zlen l.
Proof. unfold slice_to. rewrite zlen_take. lia. Qed.
Lemma send_reply_live pxe options mac uuid pkt addr s :
  configured -> complete pxe options -> (pxe = true -> is_Some uuid) ->
  exists s' d, send_reply cfg pxe options [] mac uuid pkt addr s = (Ret true, s') /\
    outbox s' = outbox s ++ [(d, addr)] /\ states s' = states s /\ ippool s' = ippool s /\
    uuidpool s' = (if pxe then match uuid with Some u => <[mac := u]> (uuidpool s) | None => uuidpool s end else uuidpool s).
Proof.
  intros Hc Ho Hu. unfold send_reply. unfold pm_bind at 1, pm_lift at 1.
  destruct (ret_of _ (co_server Hc)) as [server Es]. rewrite Es. apply inet_aton_length in Es. unfold pm_bind at 1.
  destruct pxe; [|by eexists _, _]. destruct (Ho eq_refl) as (u & c & E97 & E60 & Hlu & Hlc).
  unfold pm_lift, build_pxe_options. rewrite E97, E60, tlv_ok by done. cbn [res_bind].
  pose proof (zlen_slice_to c (py_find 58 c)). rewrite tlv_ok by lia. cbn [res_bind].
  destruct server as [|a0 [|a1 [|a2 [|a3 [|]]]]]; try discriminate Es.
  destruct (Hu eq_refl) as [w ->]. by eexists _, _.
Qed.
(** The datagram grants the address [ip] to the client that sent the header [buf]: a reply of kind [k] to
    its transaction with that address. *)
Definition grants (ip : bytes) (buf : bootp) (k : Z) (d : bytes) : Prop :=
  exists h rest, unpack_header (take 240 d) = Ret h /\ op h = BOOTREPLY /\ xid h = xid buf /\ chaddr h = chaddr buf /\
    inet_aton ip = Ret (yiaddr h) /\ drop 240 d = DHCP_MSG :: 1 :: k :: rest.
(** A request with message [m] is answered: the notices of its kind and then one datagram that grants the
    leased address go out, the latter to the broadcast address. *)
Definition answered (s s' : bootpd) (mac_str : bytes) (buf : bootp) (m k : Z) (ip : bytes) : Prop :=
  ippool s' !! mac_str = Some ip /\
  exists notices d dest, outbox s' = outbox s ++ notices ++ [(d, dest)] /\
    notices.*2 = (if m =? DHCP_REQUEST then notify cfg else []) /\ broadcast cfg ip = Ret dest.1 /\ grants ip buf k d.
Lemma grants_intro ip buf k h p rest :
  header_fits h -> pack_header h = Ret p -> op h = BOOTREPLY -> xid h = xid buf -> chaddr h = chaddr buf ->
  inet_aton ip = Ret (yiaddr h) -> grants ip buf k (p ++ DHCP_MSG :: 1 :: k :: rest).
Proof.
  intros Hf Hp Hop Hx Hch Hy. destruct (pack_header_fits h Hf) as (p' & Ep & Hl & Eu). assert (p' = p) as -> by congruence.
  eexists _, rest. rewrite <- Hl, take_app_length, drop_app_length. by split; [exact Eu|].
Qed.

Lemma finish_live ip h options mac uuid pxe cur new addr k s :
  configured -> header_fits h -> complete pxe options -> (pxe = true -> is_Some uuid) ->
  states s !! mac_text mac = Some cur ->
  exists s' p rest, finish cfg W ip h options mac uuid pxe [] [] cur new addr k s = (Ret tt, s') /\
    outbox s' = outbox s ++ [(p ++ DHCP_MSG :: 1 :: k :: rest, addr)] /\ pack_header h = Ret p /\ states s' !! mac_text mac = Some new /\ ippool s' = ippool s /\
    uuidpool s' = (if pxe then match uuid with Some u => <[mac := u]> (uuidpool s) | None => uuidpool s end else uuidpool s).
Proof.
  intros Hc Hf Ho Hu Hst.
  assert (exists s' d, finish cfg W ip h options mac uuid pxe [] [] cur new addr k s = (Ret tt, s') /\
    outbox s' = outbox s ++ [(d, addr)] /\ states s' !! mac_text mac = Some new /\ ippool s' = ippool s /\
    uuidpool s' = (if pxe then match uuid with Some u => <[mac := u]> (uuidpool s) | None => uuidpool s end else uuidpool s))
    as (s' & d & E & E1 & E2); cycle 1.
  { pose proof E as Ef. apply finish_outbox in Ef as [_ [Hn|(p & rest & Hp & Hpk)]]; [|by exists s', p, rest|done].
    rewrite Hn in E1. apply (f_equal length) in E1. rewrite length_app in E1. cbn in E1. lia. }
  unfold finish. rewrite bool_decide_eq_true_2 by done. unfold pm_bind at 1, pm_ret at 1.
  destruct (reply_packet_ok h k Hc Hf) as [pkt Ep]. unfold pm_bind at 1, pm_lift at 1. rewrite Ep.
  destruct (send_reply_live pxe options mac uuid pkt addr s Hc Ho Hu) as (s' & d & E & E1 & E2 & E3 & E4).
  unfold pm_bind. rewrite E. cbn [andb]. case_bool_decide as Hcn; cbn [negb].
  - exists s', d. subst. by rewrite E2.
  - eexists _, d. split; [done|]. cbn. rewrite lookup_insert_eq. done.
Qed.

Lemma lease_frame mac : frame outbox (lease cfg mac).
Proof. unfold lease. frame. Qed.
Lemma reply_live addr buf options m k mac uuid uuid_str pxe cur new s start :
  configured -> header_fits buf -> ciaddr buf = [0; 0; 0; 0] -> complete pxe options -> (pxe = true -> is_Some uuid) ->
  states s !! mac_text mac = Some cur -> reply_kind (Some m) = Some k ->
  leases_ok cfg (ippool s) -> pool_range start -> room (mac_text mac) s ->
  exists s' ip, reply cfg W addr buf options (Some m) mac uuid uuid_str pxe ([], []) cur new s = (Ret tt, s') /\
    answered s s' (mac_text mac) buf m k ip /\ states s' !! mac_text mac = Some new /\ leases_ok cfg (ippool s') /\
    uuidpool s' = (if pxe then match uuid with Some u => <[mac := u]> (uuidpool s) | None => uuidpool s end else uuidpool s).
Proof.
  intros Hc Hf Hci Ho Hu Hst Hk Hok Hr Hroom. unfold reply. unfold pm_bind at 1, address.
  rewrite bool_decide_eq_true_2 by done. pose proof (lease_frame (mac_text mac) s) as E0.
  destruct (lease_live _ s start Hok Hr Hroom) as (ip & s1 & z & El & Hok1 & Hip & Ez & E1 & E2). rewrite El in E0. cbn [snd] in E0.
  unfold pm_bind at 1. rewrite El. destruct (broadcast_ok ip z Hc Ez) as [b Eb]. destruct (inet_aton_of_iptoint ip z Ez) as [y Ey].
  unfold pm_bind at 1, pm_lift at 1. rewrite Eb. unfold pm_bind at 1, pm_lift at 1. rewrite Ey. unfold pm_ret at 1.
  destruct (ret_of _ (co_server Hc)) as [server Es]. unfold pm_bind at 1, pm_lift at 1. rewrite Es.
  set (h := Bootp _ _ _ _ _ _ _ _ _ _ _ _ _ _ _).
  assert (header_fits h) as Hfh.
  { pose proof (inet_aton_length _ _ Es). pose proof (inet_aton_length _ _ Ey). destruct Hf. by split. }
  rewrite <- E1 in Hst. rewrite <- E2. exists (finish cfg W ip h options mac uuid pxe [] [] cur new (b, addr.2) k
    (if m =? DHCP_REQUEST then (_notify cfg (if bool_decide (is_Some (options !! 97)) then "BOOT" else "LEASE") uuid_str (mac_text mac) ip s1).2 else s1)).2, ip.
  assert (forall s2 notices, outbox s2 = outbox s ++ notices -> notices.*2 = (if m =? DHCP_REQUEST then notify cfg else []) ->
    states s2 = states s1 -> uuidpool s2 = uuidpool s1 -> ippool s2 = ippool s1 ->
    let r := finish cfg W ip h options mac uuid pxe [] [] cur new (b, addr.2) k s2 in
      r = (Ret tt, r.2) /\ answered s r.2 (mac_text mac) buf m k ip /\ states r.2 !! mac_text mac = Some new /\ leases_ok cfg (ippool r.2) /\
      uuidpool r.2 = (if pxe then match uuid with Some u => <[mac := u]> (uuidpool s1) | None => uuidpool s1 end else uuidpool s1)) as Hfin.
  { intros s2 notices F0 Fn F1 F2 F3. rewrite <- F1 in Hst.
    destruct (finish_live ip h options mac uuid pxe cur new (b, addr.2) k s2 Hc Hfh Ho Hu Hst) as (s' & p & rest & G1 & G2 & Gp & G3 & G4 & G5).
    rewrite G1. cbn [snd]. rewrite G4, G5, F2, F3. split_and!; try done. split; [by rewrite G4, F3|].
    eexists notices, _, (b, addr.2). rewrite G2, F0, <- app_assoc. split_and!; try done. by eapply (grants_intro _ _ _ h). }
  unfold reply_kind in Hk. destruct (Z.eqb_spec m 0) as [->|]; [discriminate|].
  destruct (Z.eqb_spec m DHCP_DISCOVER) as [->|]; [injection Hk as <-; apply (Hfin s1 []); by rewrite ?app_nil_r|].
  destruct (m =? DHCP_REQUEST); [injection Hk as <-|discriminate].
  unfold pm_bind. set (notice := if bool_decide _ then "BOOT" else "LEASE").
  destruct (notify_outbox cfg notice uuid_str (mac_text mac) ip s1) as (notices & Hn & Hto).
  rewrite E0 in Hn. apply (Hfin (_notify cfg notice uuid_str (mac_text mac) ip s1).2 notices Hn Hto);
    [by apply (notify_frame cfg states)|by apply (notify_frame cfg uuidpool)|by apply (notify_frame cfg ippool)].
Qed.

(** The server lets the client in without asking a host. *)
Definition lets_in (mac : bytes) : Prop :=
  match access cfg with
  | None => True
  | Some AMac => acl cfg !! mac_text mac = Some true /\ mac_text mac <> []
  | _ => False
  end.
Lemma authorize_live pxe mac uuid cur new s :
  lets_in mac -> authorize cfg W pxe (mac_text mac) uuid cur new s = (Ret (Some ([], [])), s).
Proof.
  unfold lets_in, authorize. destruct (access cfg) as [[]|]; [done| |done..]. intros [Hacl Hne].
  unfold local_access, pm_bind, pm_get. case_bool_decide; [done|].
  destruct (mac_text mac); [done|]. by rewrite Hacl.
Qed.

(** A request of a client that needs an address: its hardware address, its message and,
    from the BIOS, its UUID *)
Record request (data mac : bytes) (buf : bootp) (m : Z) (uuid : option bytes) : Prop := {
  rq_bytes : bytes_ok data;
  rq_header : unpack_header (slice_to data DHCPFormatSize) = Ret buf;
  rq_op : op buf = BOOTREQUEST;
  rq_address : ciaddr buf = [0; 0; 0; 0];
  rq_mac : mac_of data = mac;
  rq_options : exists options, parse_options (slice_from data DHCPFormatSize) = Ret (Some options) /\
    options !! 53 = Some [m] /\
    match uuid with
    | Some u => exists t c, options !! 97 = Some (t :: u) /\ length u = 16%nat /\ options !! 60 = Some c /\ zlen c < 256
    | None => options !! 97 = None
    end
}.
Lemma handle_live addr data mac buf m k uuid s start :
  let pxe := bool_decide (is_Some uuid) in
  let cur := default ST_IDLE (states s !! mac_text mac) in
  configured -> request data mac buf m uuid -> lets_in mac -> reply_kind (Some m) = Some k ->
  next_state cur pxe (Some m) <> ST_IDLE ->
  leases_ok cfg (ippool s) -> pool_range start -> room (mac_text mac) s ->
  exists s' ip, handle cfg W addr data s = (Ret tt, s') /\ answered s s' (mac_text mac) buf m k ip /\
    states s' !! mac_text mac = Some (next_state cur pxe (Some m)) /\ leases_ok cfg (ippool s') /\
    uuidpool s' = match uuid with Some u => <[mac := u]> (uuidpool s) | None => uuidpool s end.
Proof.
  intros pxe cur Hc [Hb Eh Eop Eci Emac (options & Eo & E53 & Hu)] Hin Hk Hnew Hok Hr Hroom.
  assert (header_fits buf) as Hf by (eapply unpack_fits; [|exact Eh]; by apply Forall_take).
  unfold handle. unfold pm_bind at 1, pm_lift at 1. rewrite Eh. rewrite (unpack_mac data buf Eh), Emac, Eop.
  cbn [Z.eqb BOOTREQUEST Pos.eqb negb]. unfold pm_bind at 1, pm_lift at 1. rewrite Eo. unfold pm_bind at 1.
  rewrite E53. unfold pm_bind at 1, pm_lift at 1. change (py_index [m] 0) with (Ret m). unfold pm_ret at 1.
  assert (options !! 97 ≫= (fun v => if bool_decide (length v = 17%nat) then Some (slice_from v 1) else None) = uuid) as Hsent.
  { destruct uuid as [u|]; [|by rewrite Hu]. destruct Hu as (t & c & -> & Hlu & _). cbn [mbind option_bind length].
    rewrite bool_decide_eq_true_2 by lia. f_equal. unfold slice_from. rewrite clamp_nonneg, zlen_cons by lia.
    pose proof (zlen_nonneg u). by rewrite Z.min_l by lia. }
  rewrite Hsent. fold pxe. unfold pm_bind at 1, pm_get at 1. unfold pm_bind at 1.
  set (s0 := match states s !! mac_text mac with Some _ => s | None => set_states (<[mac_text mac := ST_IDLE]> (states s)) s end).
  assert (setdefault (mac_text mac) s = (Ret cur, s0)) as ->.
  { unfold setdefault, cur, s0. by destruct (states s !! mac_text mac). }
  assert (states s0 !! mac_text mac = Some cur) as Hst.
  { unfold s0, cur. destruct (states s !! mac_text mac) eqn:E; [done|]. apply lookup_insert_eq. }
  assert (ippool s0 = ippool s /\ uuidpool s0 = uuidpool s /\ outbox s0 = outbox s) as (Hp0 & Hu0 & Ho0).
  { unfold s0. by destruct (states s !! mac_text mac). }
  rewrite bool_decide_eq_false_2 by done. cbn [andb]. unfold pm_bind at 1. rewrite authorize_live by done.
  unfold room in Hroom. rewrite <- Hp0 in Hok, Hroom. rewrite <- Hu0.
  assert (complete pxe options) as Hcomp.
  { intros Hp. apply bool_decide_eq_true in Hp as [u ->]. destruct Hu as (t & c & E97 & Hlu & E60 & Hlc).
    exists (t :: u), c. split_and!; [done..| |done]. unfold zlen. cbn [length]. lia. }
  destruct (reply_live addr buf options m k mac (match uuid with Some u => Some u | None => uuidpool s0 !! mac end)
    (uuid_text <$> (match uuid with Some u => Some u | None => uuidpool s0 !! mac end)) pxe cur
    (next_state cur pxe (Some m)) s0 start) as (s' & ip & G1 & G2 & G3 & G4 & G6); try done.
  { intros Hp. apply bool_decide_eq_true in Hp as [u ->]. by eexists. }
  exists s', ip. unfold answered in *. rewrite Ho0 in G2. split_and!; try done; [by apply G2..|]. rewrite G6. unfold pxe. by destruct uuid.
Qed.

(** [C14] A machine boots: when its BIOS asks for an address with its UUID and the system
    it loads then requests one, the first is answered by exactly one datagram, an offer of the address that is
    leased, and the second by a notice to each listener and exactly one datagram, an acknowledgement
    of the same address, both for the transaction and the hardware address of the request; the server follows
    the machine to the end of its boot and remembers its UUID. *)
Theorem pxe_boot addr data1 data2 mac buf1 buf2 uuid s start :
  configured -> lets_in mac -> request data1 mac buf1 DHCP_DISCOVER (Some uuid) -> request data2 mac buf2 DHCP_REQUEST None ->
  leases_ok cfg (ippool s) -> pool_range start -> room (mac_text mac) s ->
  exists s1 s2 ip, handle cfg W addr data1 s = (Ret tt, s1) /\ answered s s1 (mac_text mac) buf1 DHCP_DISCOVER DHCP_OFFER ip /\
    states s1 !! mac_text mac = Some ST_PXE /\
    handle cfg W addr data2 s1 = (Ret tt, s2) /\ answered s1 s2 (mac_text mac) buf2 DHCP_REQUEST DHCP_ACK ip /\
    states s2 !! mac_text mac = Some ST_DHCP /\ uuidpool s2 !! mac = Some uuid.
Proof.
  intros Hc Hin H1 H2 Hok Hr Hroom.
  destruct (handle_live addr data1 mac buf1 DHCP_DISCOVER DHCP_OFFER (Some uuid) s start) as (s1 & ip & E1 & A1 & S1 & K1 & U1);
    try done.
  { by destruct (default ST_IDLE (states s !! mac_text mac)). }
  assert (states s1 !! mac_text mac = Some ST_PXE) as Spxe.
  { rewrite S1. by destruct (default ST_IDLE (states s !! mac_text mac)). }
  destruct (handle_live addr data2 mac buf2 DHCP_REQUEST DHCP_ACK None s1 start) as (s2 & ip2 & E2 & A2 & S2 & K2 & U2);
    try done.
  { by rewrite Spxe. }
  { left. eexists. apply A1. }
  rewrite Spxe in S2.
  assert (ip2 = ip) as ->.
  { pose proof (proj1 (handle_step cfg W addr data2 s1)) as Hstep. rewrite E2 in Hstep. cbn [snd] in Hstep.
    destruct A1 as [P1 _], A2 as [P2 _], (rq_mac _ _ _ _ _ H2). destruct Hstep; congruence. }
  exists s1, s2, ip. by rewrite U2, U1, lookup_insert_eq.
Qed.
End boot.

(** * Example *)

Definition example_conf : config :=
  {[lit "bootp" := {[lit "pool_start" := lit "10.0.0.5"; lit "pool_count" := lit "2"; lit "access" := lit "mac"]};
    lit "mac" := {[lit "01-02-03-04-05-ab" := lit "yes"]}]}.
Definition example_cfg : settings :=
  Settings example_conf (lit "10.0.0.5") 2
    (NetConf (lit "eth0") (lit "10.0.0.1") (lit "10.0.0.0") (lit "255.255.255.0")) []
    (Some AMac) {[lit "01-02-03-04-05-AB" := true]}.
Example example_init :
  init_server [(lit "lo", (lit "127.0.0.1", lit "255.0.0.0")); (lit "eth0", (lit "10.0.0.1", lit "255.255.255.0"))]
    example_conf = Ret example_cfg.
Proof. vm_compute. reflexivity. Qed.
Definition example_world : pxe_world := PxeWorld (fun _ => HTTPError) None.
Definition example_mac : bytes := [1; 2; 3; 4; 5; 171].
Definition example_request (mac options : bytes) : bytes :=
  [1; 1; 6; 0; 1; 2; 3; 4] ++ py_repeat 0 20 ++ mac ++ py_repeat 0 10 ++ py_repeat 0 192 ++ [99; 130; 83; 99] ++ options.
Definition example_discover : bytes :=
  example_request example_mac ([53; 1; 1] ++ [97; 17; 0] ++ py_repeat 7 16 ++ [60; 3; 65; 58; 66] ++ [255]).
Definition example_dhcp_request : bytes := example_request example_mac [53; 1; 3; 255].
Definition example_addr : bytes * Z := (lit "0.0.0.0", 68).

Lemma bytes_checked (l : bytes) : forallb (fun b => (0 <=? b) && (b <? 256)) l = true -> bytes_ok l.
Proof.
  intros H. apply Forall_forall. intros b Hb%list_elem_of_In. apply (proj1 (forallb_forall _ _) H) in Hb.
  unfold byte_ok. lia.
Qed.
Lemma example_configured : configured example_cfg example_world.
Proof. by split. Qed.
Lemma example_range : pool_range example_cfg 167772165.
Proof. by split. Qed.
Lemma example_leases : leases_ok example_cfg (ippool new_server).
Proof. split; cbn [ippool new_server]; intros *; by rewrite lookup_empty. Qed.
Definition example_header : bootp :=
  Bootp 1 1 6 0 0x01020304 0 0 (py_repeat 0 4) (py_repeat 0 4) (py_repeat 0 4) (py_repeat 0 4) (example_mac ++ py_repeat 0 10)
    (py_repeat 0 64) (py_repeat 0 128) [99; 130; 83; 99].
Lemma example_request1 : request example_discover example_mac example_header DHCP_DISCOVER (Some (py_repeat 7 16)).
Proof.
  split; [by apply bytes_checked|done..|]. eexists. split; [vm_compute; reflexivity|].
  split; [done|]. by eexists _, _.
Qed.
Lemma example_request2 : request example_dhcp_request example_mac example_header DHCP_REQUEST None.
Proof. split; [by apply bytes_checked|done..|]. eexists. split; [vm_compute; reflexivity|done]. Qed.

Lemma pxe_boot_witness :
  exists s1 s2 ip, handle example_cfg example_world example_addr example_discover new_server = (Ret tt, s1) /\
    answered example_cfg new_server s1 (mac_text example_mac) example_header DHCP_DISCOVER DHCP_OFFER ip /\
    states s1 !! mac_text example_mac = Some ST_PXE /\
    handle example_cfg example_world example_addr example_dhcp_request s1 = (Ret tt, s2) /\
    answered example_cfg s1 s2 (mac_text example_mac) example_header DHCP_REQUEST DHCP_ACK ip /\
    states s2 !! mac_text example_mac = Some ST_DHCP /\ uuidpool s2 !! example_mac = Some (py_repeat 7 16).
Proof.
  apply (pxe_boot example_cfg example_world example_addr example_discover example_dhcp_request example_mac
    example_header example_header (py_repeat 7 16) new_server 167772165);
    [apply example_configured|by split|apply example_request1|apply example_request2|apply example_leases|apply example_range|].
  by right.
Defined.
Lemma lease_capacity_witness :
  exists ip s', lease example_cfg (lit "A") new_server = (Ret ip, s') /\ ippool s' !! lit "A" = Some ip.
Proof. exact (lease_capacity example_cfg (lit "A") new_server 167772165 example_leases example_range). Defined.
Lemma options_roundtrip_witness :
  parse_options ([53; 1; 1] ++ [255; 0]) = Ret (Some {[53 := [1]]}).
Proof.
  refine (options_roundtrip [(53, [1])] [0] _). constructor; [|constructor].
  split_and!; [by apply (bool_decide_unpack _)|done..].
Defined.
Lemma padding_hangs_witness :
  (forall fuel tags, parse_loop fuel [53; 1; 1; 0; 255] tags = Raise Diverges) /\
  forever example_cfg example_world [(example_addr, example_request example_mac [53; 1; 1; 0; 255]);
    (example_addr, example_discover)] new_server = (Raise Diverges, new_server).
Proof.
  eapply (padding_hangs example_cfg example_world [(53, [1])] [255] example_addr
    (example_request example_mac [53; 1; 1; 0; 255]) [(example_addr, example_discover)] new_server);
    [|vm_compute; lia|vm_compute; reflexivity|reflexivity|reflexivity].
  constructor; [|constructor]. split_and!; [by apply (bool_decide_unpack _)|done..].
Defined.
Lemma leases_stable_witness :
  ippool (forever example_cfg example_world [(example_addr, example_dhcp_request)]
    (handle example_cfg example_world example_addr example_discover new_server).2).2 !! mac_text example_mac
  = Some (lit "10.0.0.5").
Proof. apply leases_stable. vm_compute. reflexivity. Defined.
Lemma access_control_witness :
  quiet (forever example_cfg example_world [(example_addr, example_discover)] new_server).2
    (handle example_cfg example_world example_addr (example_request [9; 9; 9; 9; 9; 9] [53; 1; 1; 255])
      (forever example_cfg example_world [(example_addr, example_discover)] new_server).2).2.
Proof.
  apply (access_control example_cfg example_world [(example_addr, example_discover)] example_addr
    (example_request [9; 9; 9; 9; 9; 9] [53; 1; 1; 255])); [reflexivity|vm_compute; congruence].
Defined.
Lemma replies_answer_request_witness :
  outbox (handle example_cfg example_world example_addr example_discover new_server).2 = outbox new_server \/
  exists buf options, unpack_header (slice_to example_discover DHCPFormatSize) = Ret buf /\
    parse_options (slice_from example_discover DHCPFormatSize) = Ret (Some options) /\
    sent_for example_cfg new_server (handle example_cfg example_world example_addr example_discover new_server).2
      (mac_text (mac_of example_discover)) buf (options !! 53 ≫= head).
Proof.
  apply (replies_answer_request example_cfg example_world example_addr example_discover new_server).
  by apply bytes_checked.
Defined.
