(* ===== verification/Dhcp.v ===== *)
(** Model of [lophinet/proxydhcpd/dhcplib]: DHCP packets, their fields and options
    ([dhcp_basic_packet.py]), and the replies made from requests ([dhcp_packet.py]).
    Theorems: encoding and decoding are inverse, fields and options keep apart, and what
    a reply contains. *)
From S2P Require Import Prelude DhcpConstants.

(** * [DhcpBasicPacket] *)

Record dpacket := DPacket {
  packet_data : list Z;
  options_data : gmap string (list Z)
}.
Abbreviation M := (PM dpacket).

(** [l[a:b] = v] for [0 <= a <= b] *)
Definition set_slice (l : list Z) (a b : Z) (v : list Z) : list Z := slice_to l a ++ v ++ slice_from l b.

(** [DhcpBasicPacket()] *)
Definition new_packet : dpacket := DPacket (set_slice (py_repeat 0 240) 236 240 MagicCookie) ∅.

Definition IsDhcpPacket (p : dpacket) : bool := bool_decide (slice (packet_data p) 236 240 = MagicCookie).

Definition DeleteOption (name : string) : M bool := fun p =>
  match DhcpFields !! name with
  | Some (begin, len) =>
      (Ret true, DPacket (set_slice (packet_data p) begin (begin + len) (py_repeat 0 len)) (options_data p))
  | None =>
      match options_data p !! name with
      | Some _ => (Ret true, DPacket (packet_data p) (delete name (options_data p)))
      | None => (Ret false, p)
      end
  end.

Definition GetOption (p : dpacket) (name : string) : list Z :=
  match DhcpFields !! name with
  | Some (begin, len) => slice (packet_data p) begin (begin + len)
  | None => default [] (options_data p !! name)
  end.

(** [fixed_length, minimum_length, multiple] of each type of option *)
Definition fields_specs : gmap string (Z * Z * Z) := list_to_map
  [("ipv4", (4, 0, 1)); ("ipv4+", (0, 4, 4)); ("string", (0, 0, 1)); ("bool", (1, 0, 1)); ("char", (1, 0, 1));
   ("16-bits", (2, 0, 1)); ("32-bits", (4, 0, 1)); ("identifier", (0, 2, 1)); ("RFC3397", (0, 4, 1));
   ("none", (0, 0, 1)); ("char+", (0, 1, 1))].
(** The fixed length is compared with the whole specification, that is never met. *)
Definition length_accepted (specs : Z * Z * Z) (length : Z) : bool :=
  let '(_, minimum, multiple) := specs in (minimum <=? length) && (length mod multiple =? 0).

Definition SetOption (name : string) (value : list Z) : M bool := fun p =>
  match DhcpFields !! name with
  | Some (begin, len) =>
      if negb (zlen value =? len) then (Ret false, p)
      else (Ret true, DPacket (set_slice (packet_data p) begin (begin + len) value) (options_data p))
  | None =>
      match DhcpOptions !! name with
      | None => (Ret false, p)
      | Some code =>
          match DhcpOptionsTypes !! code ≫= fun t => fields_specs !! t with
          | None => (Raise KeyError, p)
          | Some specs =>
              if length_accepted specs (zlen value)
              then (Ret true, DPacket (packet_data p) (<[name := value]> (options_data p)))
              else (Ret false, p)
          end
      end
  end.

Definition IsOption (p : dpacket) (name : string) : bool :=
  bool_decide (is_Some (options_data p !! name)) || bool_decide (is_Some (DhcpFields !! name)).

(** ** Encoding *)

(** [order]: the code, length and value of each option by its code. *)
Fixpoint order_loop (options : list (string * list Z)) (order : gmap Z (list Z)) : res (gmap Z (list Z)) :=
  match options with
  | [] => Ret order
  | (name, value) :: options =>
      let? code := of_option KeyError (DhcpOptions !! name) in
      order_loop options (<[code := code :: zlen value :: value]> order)
  end.
(** [map(chr, packet)] *)
Fixpoint chrs (l : list Z) : res bytes :=
  match l with
  | [] => Ret []
  | c :: l => if (0 <=? c) && (c <? 256) then let? l' := chrs l in Ret (c :: l') else Raise ValueError
  end.
(** The codes of the table are below 256, so that the loop over the sorted keys of
    [order] is one over all codes. *)
Definition options_in_order (order : gmap Z (list Z)) : list Z :=
  concat ((fun code => default [] (order !! code)) <$> seqZ 0 256).
Definition EncodePacket (p : dpacket) : res bytes :=
  let? order := order_loop (map_to_list (options_data p)) ∅ in
  chrs (slice_to (packet_data p) 240 ++ options_in_order order ++ [255]).

(** ** Decoding *)

(** The search for the magic cookie, which some clients do not place at 236. *)
Fixpoint find_cookie (fuel : nat) (data : list Z) (iterator : Z) : Z :=
  match fuel with
  | O => iterator
  | S fuel => if negb (bool_decide (slice data iterator (iterator + 4) = MagicCookie)) && (iterator <? zlen data)
              then find_cookie fuel data (iterator + 1) else iterator
  end.
(** Cuts the options off the packet. *)
Definition cut : M unit := pm_modify (fun p => DPacket (slice_to (packet_data p) 240) (options_data p)).
(** Every round moves the iterator forward. *)
Fixpoint decode_loop (fuel : nat) (iterator : Z) : M unit :=
  match fuel with
  | O => pm_raise Diverges
  | S fuel =>
      let! data := pm_get packet_data in
      if negb (iterator <? zlen data) then cut else
      let! code := pm_lift (py_index data iterator) in
      if code =? 0 then decode_loop fuel (iterator + 1)
      else if code =? 255 then cut
      else
        let! opt_len := pm_lift (py_index data (iterator + 1)) in
        (if bool_decide (is_Some (DhcpOptionsTypes !! code)) then
           let! name := pm_lift (py_index DhcpOptionsList code) in
           pm_modify (fun p => DPacket (packet_data p)
             (<[name := slice data (iterator + 2) (opt_len + iterator + 2)]> (options_data p)))
         else pm_ret tt) ;!
        decode_loop fuel (iterator + opt_len + 2)
  end.
Definition DecodePacket (data : bytes) : M unit :=
  pm_modify (fun _ => DPacket data ∅) ;!
  if bool_decide (data = []) then pm_ret tt
  else decode_loop (S (length data)) (find_cookie (length data) data 236 + 4).

(** * [DhcpPacket] *)

Definition IsDhcpSomethingPacket (p : dpacket) (type : list Z) : bool :=
  IsDhcpPacket p && IsOption p "dhcp_message_type" && bool_decide (GetOption p "dhcp_message_type" = type).
Definition IsDhcpDiscoverPacket (p : dpacket) : bool := IsDhcpSomethingPacket p [1].
Definition IsDhcpOfferPacket (p : dpacket) : bool := IsDhcpSomethingPacket p [2].
Definition IsDhcpRequestPacket (p : dpacket) : bool := IsDhcpSomethingPacket p [3].
Definition IsDhcpAckPacket (p : dpacket) : bool := IsDhcpSomethingPacket p [5].
Definition IsDhcpNackPacket (p : dpacket) : bool := IsDhcpSomethingPacket p [6].

(** Consecutive calls whose results are ignored *)
Fixpoint set_all (l : list (string * list Z)) : M unit :=
  match l with
  | [] => pm_ret tt
  | (name, value) :: l => let! _ := SetOption name value in set_all l
  end.
Fixpoint delete_all (l : list string) : M unit :=
  match l with
  | [] => pm_ret tt
  | name :: l => let! _ := DeleteOption name in delete_all l
  end.
Definition copied (src : dpacket) (names : list string) : list (string * list Z) :=
  (fun n => (n, GetOption src n)) <$> names.

Definition TransformToDhcpOfferPacket : M unit :=
  set_all [("dhcp_message_type", [2]); ("op", [2]); ("hlen", [6])] ;!
  delete_all ["secs"; "ciaddr"; "request_ip_address"; "parameter_request_list"; "client_identifier";
              "maximum_message_size"].
Definition CreateDhcpOfferPacketFrom (src : dpacket) : M unit :=
  set_all (copied src ["htype"; "xid"; "flags"; "giaddr"; "chaddr"; "ip_address_lease_time"]) ;!
  TransformToDhcpOfferPacket.

Definition TransformToDhcpAckPacket : M unit :=
  set_all [("op", [2]); ("hlen", [6]); ("dhcp_message_type", [5])] ;!
  delete_all ["secs"; "request_ip_address"; "parameter_request_list"; "client_identifier"; "maximum_message_size"].
Definition CreateDhcpAckPacketFrom (src : dpacket) : M unit :=
  set_all (copied src ["htype"; "xid"; "ciaddr"; "flags"; "giaddr"; "chaddr"; "ip_address_lease_time"]) ;!
  TransformToDhcpAckPacket.

Definition TransformToDhcpNackPacket : M unit :=
  set_all [("op", [2]); ("hlen", [6])] ;!
  delete_all ["secs"; "ciaddr"; "yiaddr"; "siaddr"; "sname"; "file"; "request_ip_address";
              "ip_address_lease_time_option"; "parameter_request_list"; "client_identifier"; "maximum_message_size"] ;!
  set_all [("dhcp_message_type", [6])].
Definition CreateDhcpNackPacketFrom (src : dpacket) : M unit :=
  set_all (copied src ["htype"; "xid"; "flags"; "giaddr"; "chaddr"]) ;! TransformToDhcpNackPacket.

Definition GetClientIdentifier (p : dpacket) : list Z :=
  if IsOption p "client_identifier" then GetOption p "client_identifier" else [].
Definition GetGiaddr (p : dpacket) : list Z := GetOption p "giaddr".
Definition GetHardwareAddress (p : dpacket) : res (list Z) :=
  let? length := py_index (GetOption p "hlen") 0 in
  let full_hw := GetOption p "chaddr" in
  Ret (if length <? zlen full_hw then slice full_hw 0 length else full_hw).

(** * Encoding and decoding *)

Definition in_byte (z : Z) : Prop := 0 <= z < 256.
Lemma chrs_ok l : Forall in_byte l -> chrs l = Ret l.
Proof.
  induction 1 as [|c l Hc _ IH]; [done|]. cbn. unfold in_byte in Hc.
  rewrite (proj2 (Z.leb_le _ _)), (proj2 (Z.ltb_lt _ _)) by lia. cbn. by rewrite IH.
Qed.

(** The name stands for a code that stands for the name. *)
Definition named (name : string) (code : Z) : Prop :=
  DhcpOptions !! name = Some code /\ DhcpOptionsList !! Z.to_nat code = Some name /\ 0 < code <= 245.
Definition option_ok (name : string) (value : list Z) : Prop :=
  (exists code, named name code) /\ Forall in_byte value /\ zlen value < 256.

Lemma typed_codes code : 0 < code <= 245 -> is_Some (DhcpOptionsTypes !! code).
Proof.
  intros Hc. assert (Forall (fun c => is_Some (DhcpOptionsTypes !! c)) (seqZ 1 245)) as Hall.
  { apply (bool_decide_unpack _). vm_compute. exact Logic.I. }
  rewrite Forall_forall in Hall. apply Hall, elem_of_seqZ. lia.
Qed.

Section roundtrip.
Context (options : gmap string (list Z)).
Hypothesis options_ok : map_Forall option_ok options.

Lemma order_loop_spec l : forall acc, (forall name v, (name, v) ∈ l -> options !! name = Some v) -> NoDup l.*1 ->
  exists order, order_loop l acc = Ret order /\
    (forall name v code, (name, v) ∈ l -> DhcpOptions !! name = Some code -> order !! code = Some (code :: zlen v :: v)) /\
    (forall code, (forall name v, (name, v) ∈ l -> DhcpOptions !! name <> Some code) -> order !! code = acc !! code).
Proof.
  induction l as [|[name v] l IH]; intros acc Hl Hnd.
  { exists acc. split; [done|]. split; [intros ??? H; destruct (not_elem_of_nil _ H)|intros; reflexivity]. }
  cbn in Hnd. apply NoDup_cons in Hnd as [Hnot Hnd].
  destruct (options_ok name v) as [(code & Hc & Hn & Hb) _]; [apply Hl; left|].
  destruct (IH (<[code := code :: zlen v :: v]> acc)) as (order & Ho & H1 & H2); [intros n w H; apply Hl; by right|done|].
  exists order. cbn [order_loop]. rewrite Hc. cbn [of_option res_bind]. split; [done|]. split.
  - intros name' v' code' [[= -> ->]|Hin]%elem_of_cons Hc'; [|by eapply H1].
    assert (code' = code) as -> by congruence. rewrite H2; [by rewrite lookup_insert_eq|].
    intros n w Hin Hcn. apply Hnot. apply list_elem_of_fmap. exists (n, w). split; [|done]. cbn.
    destruct (options_ok n w) as [(code2 & Hc2 & Hn2 & _) _]; [apply Hl; by right|].
    assert (code2 = code) as -> by congruence. congruence.
  - intros code' Hne. rewrite H2 by (intros n w H; apply (Hne n w); by right).
    apply lookup_insert_ne. intros <-. by apply (Hne name v); [left|].
Qed.

(** The order in which [EncodePacket] writes the options, by code. *)
Lemma order_spec : exists order, order_loop (map_to_list options) ∅ = Ret order /\
  (forall name v code, options !! name = Some v -> DhcpOptions !! name = Some code ->
     order !! code = Some (code :: zlen v :: v)) /\
  (forall code e, order !! code = Some e ->
     exists name v, options !! name = Some v /\ named name code /\ e = code :: zlen v :: v).
Proof.
  destruct (order_loop_spec (map_to_list options) ∅) as (order & Ho & H1 & H2).
  { intros name v. by rewrite elem_of_map_to_list. }
  { apply NoDup_fst_map_to_list. }
  exists order. split; [done|]. split.
  - intros name v code Hv. apply H1. by apply elem_of_map_to_list.
  - intros code e He.
    destruct (decide (Exists (fun kv => DhcpOptions !! kv.1 = Some code) (map_to_list options))) as [Hex|Hno].
    + apply Exists_exists in Hex as ([name v] & Hin & Hc). cbn in Hc.
      pose proof (H1 name v code Hin Hc) as He'. apply elem_of_map_to_list in Hin.
      destruct (options_ok name v Hin) as [(code' & Hn & Hl & Hb) _].
      assert (code' = code) as -> by congruence. exists name, v. split; [exact Hin|]. split; [exact (conj Hn (conj Hl Hb))|]. congruence.
    + rewrite H2, lookup_empty in He; [discriminate He|]. intros name v Hin Hc. apply Hno, Exists_exists.
      exists (name, v). split; [exact Hin|exact Hc].
Qed.

Context (order : gmap Z (list Z)).
Hypothesis order_in : forall name v code, options !! name = Some v -> DhcpOptions !! name = Some code ->
  order !! code = Some (code :: zlen v :: v).
Hypothesis order_out : forall code e, order !! code = Some e ->
  exists name v, options !! name = Some v /\ named name code /\ e = code :: zlen v :: v.

(** The options with a code below [c] *)
Definition below (c : Z) : gmap string (list Z) :=
  filter (fun kv => default 256 (DhcpOptions !! kv.1) < c) options.
Lemma below_all c : 246 <= c -> below c = options.
Proof.
  intros Hc. apply map_filter_id. intros name v Hv. cbn.
  destruct (options_ok name v Hv) as [(code & Hn & _ & Hb) _]. rewrite Hn. cbn. lia.
Qed.
Lemma below_first c : c <= 1 -> below c = ∅.
Proof.
  intros Hc. apply map_empty. intros name. apply map_lookup_filter_None. right. intros v Hv. cbn.
  destruct (options_ok name v Hv) as [(code & Hn & _ & Hb) _]. rewrite Hn. cbn. lia.
Qed.
Lemma below_skip c : order !! c = None -> below (c + 1) = below c.
Proof.
  intros Hno. apply map_filter_ext. intros name v Hv. cbn.
  destruct (options_ok name v Hv) as [(code & Hn & _ & Hb) _]. rewrite Hn. cbn.
  destruct (decide (code = c)) as [->|]; [|lia]. rewrite (order_in name v c Hv Hn) in Hno. discriminate Hno.
Qed.
Lemma below_take c name v : named name c -> options !! name = Some v -> below (c + 1) = <[name := v]> (below c).
Proof.
  intros (Hn & Hl & Hb) Hv. apply map_eq. intros name'. unfold below.
  destruct (decide (name' = name)) as [->|Hne].
  - rewrite lookup_insert_eq. apply map_lookup_filter_Some. split; [done|]. cbn. rewrite Hn. cbn. lia.
  - rewrite lookup_insert_ne by done. destruct (options !! name') as [v'|] eqn:Hv'.
    + destruct (options_ok name' v' Hv') as [(code & Hn' & Hl' & Hb') _].
      assert (code <> c) by (intros ->; congruence).
      destruct (decide (code < c)).
      * transitivity (Some v'); [|symmetry]; apply map_lookup_filter_Some; cbn; rewrite Hn'; cbn; split; [done|lia|done|lia].
      * transitivity (@None (list Z)); [|symmetry]; apply map_lookup_filter_None; right; intros w Hw; cbn; rewrite Hn'; cbn; lia.
    + transitivity (@None (list Z)); [|symmetry]; apply map_lookup_filter_None; by left.
Qed.

Definition entry (code : Z) : list Z := default [] (order !! code).

(** Decoding the options from code [c] on *)
Lemma decode_options full : forall n c pre fuel,
  c + Z.of_nat n = 256 -> full = pre ++ concat (entry <$> seqZ c (Z.of_nat n)) ++ [255] ->
  (length full < fuel + length pre)%nat ->
  decode_loop fuel (zlen pre) (DPacket full (below c)) = (Ret tt, DPacket (slice_to full 240) options).
Proof.
  induction n as [|n IH]; intros c pre fuel Hc Hfull Hf.
  - destruct fuel as [|fuel]; [rewrite Hfull, length_app in Hf; cbn in Hf; lia|].
    cbn [decode_loop]. unfold pm_bind at 1, pm_get at 1. cbn [packet_data].
    assert (zlen pre < zlen full) by (rewrite Hfull; unfold zlen; rewrite !length_app; cbn [length]; lia).
    rewrite (proj2 (Z.ltb_lt _ _)) by done. cbn [negb]. unfold pm_bind at 1, pm_lift at 1.
    rewrite Hfull at 1. change (concat _ ++ [255]) with [255]. rewrite py_index_middle. cbn [Z.eqb Pos.eqb].
    unfold cut, pm_modify. cbn [packet_data options_data]. by rewrite below_all by lia.
  - rewrite seqZ_cons in Hfull by lia. cbn [fmap list_fmap concat] in Hfull.
    replace (Z.pred (Z.of_nat (S n))) with (Z.of_nat n) in Hfull by lia. rewrite <- app_assoc in Hfull.
    destruct (order !! c) as [e|] eqn:He.
    + destruct (order_out c e He) as (name & v & Hv & Hname & Ee).
      destruct Hname as (Hn & Hl & Hb).
      destruct (options_ok name v Hv) as (_ & Hbytes & Hlen).
      unfold entry at 1 in Hfull. rewrite He, Ee in Hfull. cbn [default from_option id] in Hfull.
      destruct fuel as [|fuel]; [rewrite Hfull, length_app in Hf; lia|].
      cbn [decode_loop]. unfold pm_bind at 1, pm_get at 1. cbn [packet_data].
      assert (zlen pre < zlen full) by (rewrite Hfull; unfold zlen; rewrite length_app; cbn [length app]; lia).
      rewrite (proj2 (Z.ltb_lt _ _)) by done. cbn [negb]. unfold pm_bind at 1, pm_lift at 1.
      assert (py_index full (zlen pre) = Ret c) as -> by (rewrite Hfull; apply py_index_middle).
      rewrite (proj2 (Z.eqb_neq c 0)), (proj2 (Z.eqb_neq c 255)) by lia.
      unfold pm_bind at 1, pm_lift at 1.
      assert (py_index full (zlen pre + 1) = Ret (zlen v)) as ->.
      { replace (zlen pre + 1) with (zlen (pre ++ [c])) by (rewrite zlen_app, zlen_cons, zlen_nil; lia).
        rewrite Hfull. replace (pre ++ _) with ((pre ++ [c]) ++ zlen v :: (v ++ concat (entry <$> seqZ (Z.succ c) (Z.of_nat n)) ++ [255]))
          by (rewrite <- app_assoc; done). apply py_index_middle. }
      rewrite bool_decide_eq_true_2 by (by apply typed_codes).
      unfold pm_bind at 1. unfold pm_bind at 1, pm_lift at 1.
      rewrite (py_index_lookup DhcpOptionsList c name) by (exact Hl || lia). unfold pm_modify at 1. cbn [packet_data options_data].
      assert (slice full (zlen pre + 2) (zlen v + zlen pre + 2) = v) as ->.
      { rewrite Hfull. replace (pre ++ _) with ((pre ++ [c; zlen v]) ++ v ++ (concat (entry <$> seqZ (Z.succ c) (Z.of_nat n)) ++ [255]))
          by (rewrite <- app_assoc; done).
        apply slice_middle; rewrite zlen_app, !zlen_cons, zlen_nil; lia. }
      rewrite <- (below_take c name v) by (exact (conj Hn (conj Hl Hb)) || exact Hv).
      replace (zlen pre + zlen v + 2) with (zlen (pre ++ c :: zlen v :: v)) by (rewrite zlen_app, !zlen_cons; lia).
      apply (IH (c + 1)); [lia| |rewrite length_app; cbn [length]; lia].
      by rewrite Hfull, <- app_assoc.
    + unfold entry at 1 in Hfull. rewrite He in Hfull. cbn [default from_option id app] in Hfull.
      rewrite <- below_skip by done. apply (IH (c + 1)); [lia|done|done].
Qed.
End roundtrip.

Lemma options_in_order_bytes (options : gmap string (list Z)) (order : gmap Z (list Z)) :
  (forall code e, order !! code = Some e -> exists name v, options !! name = Some v /\ named name code /\ e = code :: zlen v :: v) ->
  map_Forall option_ok options -> Forall in_byte (options_in_order order).
Proof.
  intros Hout Hok. unfold options_in_order. apply Forall_concat, Forall_fmap, Forall_forall. intros code _. cbn.
  destruct (order !! code) as [e|] eqn:He; [|constructor]. cbn.
  destruct (Hout code e He) as (name & v & Hv & (_ & _ & Hb) & ->). destruct (Hok name v Hv) as (_ & Hbytes & Hlen).
  pose proof (zlen_nonneg v). repeat constructor; unfold in_byte; [lia..|done].
Qed.

(** A packet that can be sent: 240 bytes with the magic cookie, and options of known
    names with at most 255 bytes. *)
Record packet_ok (p : dpacket) : Prop := {
  pk_length : zlen (packet_data p) = 240;
  pk_cookie : IsDhcpPacket p = true;
  pk_bytes : Forall in_byte (packet_data p);
  pk_options : map_Forall option_ok (options_data p)
}.

Lemma encoded_back p q :
  packet_ok p -> exists raw, EncodePacket p = Ret raw /\ DecodePacket raw q = (Ret tt, p).
Proof.
  intros [Hlen Hcookie Hbytes Hopts]. destruct (order_spec (options_data p) Hopts) as (order & Ho & Hin & Hout).
  set (raw := packet_data p ++ options_in_order order ++ [255]). exists raw.
  assert (slice_to (packet_data p) 240 = packet_data p) as Hpd.
  { rewrite <- (app_nil_r (packet_data p)) at 1. by apply slice_to_app. }
  split.
  - unfold EncodePacket. rewrite Ho. cbn [res_bind]. rewrite Hpd. apply chrs_ok. apply Forall_app. split; [done|].
    apply Forall_app. split; [by eapply options_in_order_bytes|]. repeat constructor; unfold in_byte; lia.
  - unfold DecodePacket, pm_bind at 1, pm_modify at 1. rewrite bool_decide_eq_false_2.
    2: { subst raw. intros E%(f_equal zlen). rewrite !zlen_app, zlen_nil in E. cbn in E.
         pose proof (zlen_nonneg (options_in_order order)). unfold zlen in *. cbn in *. lia. }
    assert (find_cookie (length raw) raw 236 = 236) as ->.
    { destruct (length raw) as [|n] eqn:El; [done|]. cbn [find_cookie].
      assert (slice raw 236 (236 + 4) = MagicCookie) as ->; [|by rewrite bool_decide_eq_true_2].
      unfold IsDhcpPacket in Hcookie. apply bool_decide_eq_true in Hcookie. rewrite <- Hcookie.
      subst raw. unfold slice. rewrite !clamp_nonneg by lia. rewrite zlen_app, Hlen.
      pose proof (zlen_nonneg (options_in_order order ++ [255])).
      rewrite !Z.min_l by lia. change (Z.to_nat 236) with 236%nat. change (Z.to_nat (236 + 4) - 236)%nat with 4%nat.
      change (Z.to_nat 240 - 236)%nat with 4%nat. rewrite drop_app_le by (unfold zlen in Hlen; lia).
      rewrite take_app_le; [done|]. rewrite length_drop. unfold zlen in Hlen. lia. }
    change (236 + 4) with 240. rewrite <- Hlen. rewrite <- (below_first (options_data p) Hopts 0) by lia.
    rewrite (decode_options (options_data p) Hopts order Hin Hout raw 256 0) with (fuel := S (length raw)).
    + f_equal. destruct p as [pd o]. cbn [packet_data options_data] in *. f_equal. subst raw. by apply slice_to_app.
    + done.
    + done.
    + lia.
Qed.

(** [C16] Encoding and decoding: a packet whose options have names for whose codes both tables
    agree (not [nb_node_type] and the unassigned ones) is encoded, and decoding the bytes, into
    any packet object, gives the packet back, options included. *)
Theorem encode_decode p q :
  packet_ok p -> exists raw, EncodePacket p = Ret raw /\ DecodePacket raw q = (Ret tt, p).
Proof. apply encoded_back. Qed.
Definition example_packet : dpacket :=
  DPacket (packet_data new_packet) {["dhcp_message_type" := [1]; "router" := [10; 0; 0; 1]; "host_name" := [97]]}.
Lemma option_ok_intro name value code :
  named name code -> Forall in_byte value -> zlen value < 256 -> option_ok name value.
Proof. intros. split; [by exists code|done]. Qed.
Lemma encode_decode_witness :
  exists raw, EncodePacket example_packet = Ret raw /\ DecodePacket raw new_packet = (Ret tt, example_packet).
Proof.
  apply (encode_decode example_packet new_packet). split; [reflexivity|reflexivity| |].
  - apply (bool_decide_unpack _). vm_compute. exact Logic.I.
  - apply map_Forall_insert_2; [|apply map_Forall_insert_2; [|apply map_Forall_singleton]];
      [apply (option_ok_intro _ _ 53)|apply (option_ok_intro _ _ 3)|apply (option_ok_intro _ _ 12)];
      first [by split_and!; vm_compute|by repeat constructor|done].
Defined.
