(* ===== verification/DhcpReplies.v ===== *)
(** Theorems on DHCP packets: fields and options keep apart, decoding ends, what the
    replies made from a request contain, and where the option tables disagree. *)
From S2P Require Import Prelude DhcpConstants Dhcp.

(** * Fields *)

(** The fields lie in the header and do not overlap. *)
Definition disjoint (f g : Z * Z) : Prop := f.1 + f.2 <= g.1 \/ g.1 + g.2 <= f.1.
Lemma fields_table : Forall (fun nf => 0 <= nf.2.1 /\ 0 < nf.2.2 /\ nf.2.1 + nf.2.2 <= 236 /\
  Forall (fun ng => ng.1 = nf.1 \/ disjoint nf.2 ng.2) DhcpFields_list) DhcpFields_list.
Proof. unfold disjoint. apply (bool_decide_unpack _). vm_compute. exact Logic.I. Qed.
Lemma field_in name f : DhcpFields !! name = Some f -> (name, f) ∈ DhcpFields_list.
Proof. apply elem_of_list_to_map_2. Qed.
Lemma field_bounds name b l : DhcpFields !! name = Some (b, l) -> 0 <= b /\ 0 < l /\ b + l <= 236.
Proof.
  intros Hf%field_in. pose proof fields_table as Ht. rewrite Forall_forall in Ht.
  destruct (Ht _ Hf) as (? & ? & ? & _). done.
Qed.
Lemma fields_disjoint n1 n2 f1 f2 :
  n1 <> n2 -> DhcpFields !! n1 = Some f1 -> DhcpFields !! n2 = Some f2 -> disjoint f1 f2.
Proof.
  intros Hne H1%field_in H2%field_in. pose proof fields_table as Ht. rewrite Forall_forall in Ht.
  destruct (Ht _ H1) as (_ & _ & _ & Hall). rewrite Forall_forall in Hall.
  destruct (Hall _ H2) as [Heq|?]; [cbn in Heq; congruence|done].
Qed.

Lemma set_slice_split l b e v : 0 <= b <= e -> e <= zlen l -> exists pre mid post,
  l = pre ++ mid ++ post /\ zlen pre = b /\ zlen mid = e - b /\ set_slice l b e v = pre ++ v ++ post.
Proof.
  intros Hb He. exists (take (Z.to_nat b) l), (take (Z.to_nat (e - b)) (drop (Z.to_nat b) l)), (drop (Z.to_nat e) l).
  split; [|split; [|split]].
  - rewrite <- (take_drop (Z.to_nat b) l) at 1. f_equal.
    rewrite <- (take_drop (Z.to_nat (e - b)) (drop (Z.to_nat b) l)) at 1. f_equal. rewrite drop_drop. f_equal. lia.
  - rewrite zlen_take. lia.
  - rewrite zlen_take, zlen_drop. lia.
  - unfold set_slice, slice_to, slice_from. rewrite !clamp_nonneg, !Z.min_l by lia. done.
Qed.
Lemma zlen_set_slice l b e v : 0 <= b <= e -> e <= zlen l -> zlen v = e - b -> zlen (set_slice l b e v) = zlen l.
Proof.
  intros Hb He Hv. destruct (set_slice_split l b e v Hb He) as (pre & mid & post & -> & ? & ? & ->).
  rewrite !zlen_app. lia.
Qed.
Lemma slice_set_slice l b e v : 0 <= b <= e -> e <= zlen l -> zlen v = e - b -> slice (set_slice l b e v) b e = v.
Proof.
  intros Hb He Hv. destruct (set_slice_split l b e v Hb He) as (pre & mid & post & -> & ? & ? & ->).
  apply slice_middle; lia.
Qed.
Lemma set_slice_lookup l b e v i : 0 <= b <= e -> e <= zlen l -> zlen v = e - b ->
  (Z.of_nat i < b \/ e <= Z.of_nat i) -> set_slice l b e v !! i = l !! i.
Proof.
  intros Hb He Hv Hi. destruct (set_slice_split l b e v Hb He) as (pre & mid & post & -> & Hp & Hm & ->).
  unfold zlen in *. destruct Hi as [Hi|Hi].
  - rewrite !lookup_app_l by lia. done.
  - rewrite !app_assoc. rewrite (lookup_app_r (pre ++ v)), (lookup_app_r (pre ++ mid)) by (rewrite length_app; lia).
    rewrite !length_app. f_equal. lia.
Qed.
Lemma slice_set_slice_ne l b e v b' e' :
  0 <= b <= e -> e <= zlen l -> zlen v = e - b -> 0 <= b' <= e' -> e' <= zlen l -> (e <= b' \/ e' <= b) ->
  slice (set_slice l b e v) b' e' = slice l b' e'.
Proof.
  intros Hb He Hv Hb' He' Hdis. apply list_eq. intros i.
  rewrite !slice_lookup by (try rewrite zlen_set_slice; lia). destruct (decide _); [|done].
  apply set_slice_lookup; lia.
Qed.

(** * Setting and deleting *)

Definition header_ok (p : dpacket) : Prop := zlen (packet_data p) = 240 /\ IsDhcpPacket p = true.
(** Whether [SetOption] takes the value *)
Definition accepts (name : string) (value : list Z) : bool :=
  match DhcpFields !! name with
  | Some (_, len) => zlen value =? len
  | None =>
      match DhcpOptions !! name ≫= fun code => DhcpOptionsTypes !! code ≫= fun t => fields_specs !! t with
      | Some specs => length_accepted specs (zlen value)
      | None => false
      end
  end.
(** What is left of a field or an option that is deleted *)
Definition erased (name : string) : list Z :=
  match DhcpFields !! name with Some (_, len) => py_repeat 0 len | None => [] end.

Lemma write_field p name b len v :
  header_ok p -> DhcpFields !! name = Some (b, len) -> zlen v = len ->
  let p' := DPacket (set_slice (packet_data p) b (b + len) v) (options_data p) in
  header_ok p' /\ forall n, GetOption p' n = if decide (n = name) then v else GetOption p n.
Proof.
  intros [Hl Hc] Hf Hv. destruct (field_bounds name b len Hf) as (? & ? & ?). split; [split|].
  - cbn. rewrite zlen_set_slice; lia.
  - revert Hc. unfold IsDhcpPacket. cbn [packet_data]. by rewrite slice_set_slice_ne by lia.
  - intros n. unfold GetOption. destruct (decide (n = name)) as [->|Hne].
    + rewrite Hf. cbn. apply slice_set_slice; lia.
    + destruct (DhcpFields !! n) as [[b' l']|] eqn:Hn; [|done]. cbn.
      destruct (field_bounds n b' l' Hn) as (? & ? & ?).
      destruct (fields_disjoint n name _ _ Hne Hn Hf); cbn in *; apply slice_set_slice_ne; lia.
Qed.

Lemma set_option_spec name value p :
  header_ok p -> header_ok (SetOption name value p).2 /\
  forall n, GetOption (SetOption name value p).2 n
          = if decide (n = name /\ accepts name value = true) then value else GetOption p n.
Proof.
  intros Hp. unfold SetOption, accepts. destruct (DhcpFields !! name) as [[b len]|] eqn:Hf.
  - destruct (Z.eqb_spec (zlen value) len) as [Hv|Hv]; cbn [negb snd].
    + destruct (write_field p name b len value Hp Hf Hv) as [H1 H2]. split; [done|].
      intros n. rewrite H2. by repeat destruct (decide _); naive_solver.
    + split; [done|]. intros n. rewrite decide_False by naive_solver. done.
  - destruct (DhcpOptions !! name) as [code|]; cbn [mbind option_bind snd].
    2: { split; [done|]. intros n. rewrite decide_False by naive_solver. done. }
    destruct (_ ≫= _) as [specs|]; cbn [snd].
    2: { split; [done|]. intros n. rewrite decide_False by naive_solver. done. }
    destruct (length_accepted specs (zlen value)); cbn [snd].
    + split; [by destruct Hp|]. intros n. unfold GetOption. cbn [packet_data options_data].
      destruct (decide (n = name /\ true = true)) as [[-> _]|Hne].
      * rewrite Hf, lookup_insert_eq. done.
      * destruct (DhcpFields !! n) as [[]|]; [done|]. rewrite lookup_insert_ne by naive_solver. done.
    + split; [done|]. intros n. rewrite decide_False by naive_solver. done.
Qed.
Lemma delete_option_spec name p :
  header_ok p -> header_ok (DeleteOption name p).2 /\
  forall n, GetOption (DeleteOption name p).2 n = if decide (n = name) then erased name else GetOption p n.
Proof.
  intros Hp. unfold DeleteOption, erased. destruct (DhcpFields !! name) as [[b len]|] eqn:Hf; cbn [snd].
  - destruct (field_bounds name b len Hf) as (? & ? & ?).
    apply write_field; [done|done|apply zlen_repeat; lia].
  - destruct (options_data p !! name) as [v|] eqn:Hv; cbn [snd].
    + split; [by destruct Hp|]. intros n. unfold GetOption. cbn [packet_data options_data].
      destruct (decide (n = name)) as [->|Hne].
      * by rewrite Hf, lookup_delete_eq.
      * destruct (DhcpFields !! n) as [[]|]; [done|]. by rewrite lookup_delete_ne.
    + split; [done|]. intros n. destruct (decide (n = name)) as [->|Hne]; [|done].
      unfold GetOption. by rewrite Hf, Hv.
Qed.

(** Fields and options keep apart: [SetOption] leaves a well-formed packet well
    formed, and after it [GetOption] gives the value that was set, if the length was
    acceptable, and for every other name what it gave before. *)
Theorem set_get_option name value p :
  header_ok p -> header_ok (SetOption name value p).2 /\
  forall n, GetOption (SetOption name value p).2 n
          = if decide (n = name /\ accepts name value = true) then value else GetOption p n.
Proof. apply set_option_spec. Qed.
Lemma set_get_option_witness :
  header_ok (SetOption "yiaddr" [10; 0; 0; 7] new_packet).2 /\
  forall n, GetOption (SetOption "yiaddr" [10; 0; 0; 7] new_packet).2 n
          = if decide (n = "yiaddr" /\ accepts "yiaddr" [10; 0; 0; 7] = true) then [10; 0; 0; 7]
            else GetOption new_packet n.
Proof. apply (set_get_option "yiaddr" [10; 0; 0; 7] new_packet). by split. Defined.

(** * Replies *)

Lemma set_all_spec l : forall p, header_ok p -> Forall (fun nv => accepts nv.1 nv.2 = true) l -> NoDup l.*1 ->
  exists p', set_all l p = (Ret tt, p') /\ header_ok p' /\
    forall n, GetOption p' n = default (GetOption p n) ((list_to_map l : gmap string (list Z)) !! n).
Proof.
  induction l as [|[name value] l IH]; intros p Hp Hacc Hnd.
  { exists p. split; [done|]. split; [done|]. intros n. cbn. by rewrite lookup_empty. }
  apply Forall_cons in Hacc as [Ha Hacc]. cbn in Ha, Hnd. apply NoDup_cons in Hnd as [Hnot Hnd].
  destruct (set_option_spec name value p Hp) as [Hp1 Hv1].
  assert ((SetOption name value p).1 = Ret true) as Hret.
  { revert Ha. unfold SetOption, accepts. destruct (DhcpFields !! name) as [[b len]|]; [by intros ->|].
    destruct (DhcpOptions !! name) as [code|]; [|done]. cbn [mbind option_bind].
    destruct (_ ≫= _) as [specs|]; [by intros ->|done]. }
  cbn [set_all]. unfold pm_bind at 1. destruct (SetOption name value p) as [r p1] eqn:E. cbn in Hret. subst r. cbn [snd] in *.
  destruct (IH p1 Hp1 Hacc Hnd) as (p' & Hset & Hp' & Hv'). exists p'. split; [done|]. split; [done|].
  intros n. rewrite Hv'. cbn [list_to_map foldr fst snd]. destruct (decide (n = name)) as [->|Hne].
  - rewrite lookup_insert_eq. rewrite (not_elem_of_list_to_map_1 l name Hnot). cbn.
    rewrite Hv1. by rewrite decide_True.
  - rewrite lookup_insert_ne by done. f_equal. rewrite Hv1, decide_False by naive_solver. done.
Qed.
Lemma delete_all_spec l : forall p, header_ok p ->
  exists p', delete_all l p = (Ret tt, p') /\ header_ok p' /\
    forall n, GetOption p' n = if decide (n ∈ l) then erased n else GetOption p n.
Proof.
  induction l as [|name l IH]; intros p Hp.
  { exists p. split; [done|]. split; [done|]. intros n. by rewrite decide_False by apply not_elem_of_nil. }
  destruct (delete_option_spec name p Hp) as [Hp1 Hv1].
  assert (exists b, (DeleteOption name p).1 = Ret b) as [b Hret].
  { unfold DeleteOption. destruct (DhcpFields !! name) as [[]|]; [by eexists|]. destruct (_ !! _); by eexists. }
  cbn [delete_all]. unfold pm_bind at 1. destruct (DeleteOption name p) as [r p1]. cbn in Hret. subst r. cbn [snd] in *.
  destruct (IH p1 Hp1) as (p' & Hdel & Hp' & Hv'). exists p'. split; [done|]. split; [done|].
  intros n. rewrite Hv', Hv1. repeat destruct (decide _); set_solver.
Qed.

Lemma get_field_accepted p name b len :
  header_ok p -> DhcpFields !! name = Some (b, len) -> accepts name (GetOption p name) = true.
Proof.
  intros [Hl _] Hf. destruct (field_bounds name b len Hf) as (? & ? & ?). unfold accepts, GetOption. rewrite Hf.
  apply Z.eqb_eq. unfold slice. rewrite zlen_take, zlen_drop, !clamp_nonneg by lia. lia.
Qed.
Lemma lease_time_accepted v : accepts "ip_address_lease_time" v = true.
Proof.
  unfold accepts. change (DhcpFields !! "ip_address_lease_time") with (@None (Z * Z)).
  change (DhcpOptions !! "ip_address_lease_time" ≫= _) with (Some (4, 0, 1)).
  cbv iota. unfold length_accepted. rewrite Z.mod_1_r, (proj2 (Z.leb_le 0 _)) by apply zlen_nonneg. done.
Qed.

Inductive kind := Offer | Ack | Nack.
Definition create (k : kind) : dpacket -> PM dpacket unit :=
  match k with
  | Offer => CreateDhcpOfferPacketFrom
  | Ack => CreateDhcpAckPacketFrom
  | Nack => CreateDhcpNackPacketFrom
  end.
Definition message_type (k : kind) : Z := match k with Offer => 2 | Ack => 5 | Nack => 6 end.
Definition taken_over (k : kind) : list string :=
  match k with
  | Offer => ["htype"; "xid"; "flags"; "giaddr"; "chaddr"; "ip_address_lease_time"]
  | Ack => ["htype"; "xid"; "ciaddr"; "flags"; "giaddr"; "chaddr"; "ip_address_lease_time"]
  | Nack => ["htype"; "xid"; "flags"; "giaddr"; "chaddr"]
  end.
Definition cleared (k : kind) : list string :=
  match k with
  | Offer => ["secs"; "ciaddr"; "request_ip_address"; "parameter_request_list"; "client_identifier";
              "maximum_message_size"]
  | Ack => ["secs"; "request_ip_address"; "parameter_request_list"; "client_identifier"; "maximum_message_size"]
  | Nack => ["secs"; "ciaddr"; "yiaddr"; "siaddr"; "sname"; "file"; "request_ip_address";
             "ip_address_lease_time_option"; "parameter_request_list"; "client_identifier"; "maximum_message_size"]
  end.
(** What a reply to [src] made in the packet [p] says *)
Definition reply_view (k : kind) (src p : dpacket) (n : string) : list Z :=
  if decide (n ∈ cleared k) then erased n
  else if decide (n = "dhcp_message_type") then [message_type k]
  else if decide (n = "op") then [2]
  else if decide (n = "hlen") then [6]
  else if decide (n ∈ taken_over k) then GetOption src n
  else GetOption p n.

Lemma copied_accepted src names :
  header_ok src -> Forall (fun n => n = "ip_address_lease_time" \/ is_Some (DhcpFields !! n)) names ->
  Forall (fun nv => accepts nv.1 nv.2 = true) (copied src names).
Proof.
  intros Hs Hall. unfold copied. apply Forall_fmap. eapply Forall_impl; [exact Hall|]. cbn.
  intros n [->|[[b len] Hf]]; [apply lease_time_accepted|by eapply get_field_accepted].
Qed.
Lemma copied_lookup src names n :
  (list_to_map (copied src names) : gmap string (list Z)) !! n = if decide (n ∈ names) then Some (GetOption src n) else None.
Proof.
  induction names as [|m names IH]; [done|]. cbn [copied fmap list_fmap list_to_map foldr fst snd].
  destruct (decide (n = m)) as [->|Hne].
  - rewrite lookup_insert_eq, decide_True by left. done.
  - rewrite lookup_insert_ne by done. unfold copied in IH. rewrite IH. repeat destruct (decide _); set_solver.
Qed.
Lemma copied_names src names : (copied src names).*1 = names.
Proof. unfold copied. rewrite <- list_fmap_compose. apply list_fmap_id. Qed.

(** The fixed parts of a reply *)
Definition fixed (k : kind) : list (string * list Z) :=
  [("dhcp_message_type", [message_type k]); ("op", [2]); ("hlen", [6])].
Lemma literal_accepted : Forall (fun nv => accepts nv.1 nv.2 = true)
  [("dhcp_message_type", [2]); ("dhcp_message_type", [5]); ("dhcp_message_type", [6]); ("op", [2]); ("hlen", [6])].
Proof. apply (bool_decide_unpack _). vm_compute. exact Logic.I. Qed.

(** The three parts of a reply in sequence: values taken over, values fixed, names
    cleared. *)
Lemma reply_parts src p names sets dels :
  header_ok src -> header_ok p ->
  Forall (fun n => n = "ip_address_lease_time" \/ is_Some (DhcpFields !! n)) names -> NoDup names ->
  Forall (fun nv => accepts nv.1 nv.2 = true) sets -> NoDup sets.*1 ->
  exists p', (set_all (copied src names) ;! set_all sets ;! delete_all dels) p = (Ret tt, p') /\ header_ok p' /\
    forall n, GetOption p' n = if decide (n ∈ dels) then erased n else
      default (if decide (n ∈ names) then GetOption src n else GetOption p n) ((list_to_map sets : gmap _ _) !! n).
Proof.
  intros Hs Hp Hn Hnd Ha Hnd'.
  destruct (set_all_spec (copied src names) p Hp) as (p1 & H1 & Hp1 & Hv1);
    [by apply copied_accepted|by rewrite copied_names|].
  destruct (set_all_spec sets p1 Hp1 Ha Hnd') as (p2 & H2 & Hp2 & Hv2).
  destruct (delete_all_spec dels p2 Hp2) as (p3 & H3 & Hp3 & Hv3).
  exists p3. unfold pm_bind. rewrite H1, H2, H3. split; [done|]. split; [done|]. intros n.
  rewrite Hv3, Hv2, Hv1, copied_lookup. by destruct (decide (n ∈ names)).
Qed.

Lemma three_lookup n a va b vb c vc (d : list Z) :
  default d ((list_to_map [(a, va); (b, vb); (c, vc)] : gmap string (list Z)) !! n)
  = if decide (n = a) then va else if decide (n = b) then vb else if decide (n = c) then vc else d.
Proof.
  cbn [list_to_map foldr fst snd]. repeat destruct (decide _); subst;
    repeat first [rewrite lookup_insert_eq | rewrite lookup_insert_ne by done]; by rewrite ?lookup_empty.
Qed.
Lemma two_lookup n a va b vb (d : list Z) :
  default d ((list_to_map [(a, va); (b, vb)] : gmap string (list Z)) !! n)
  = if decide (n = a) then va else if decide (n = b) then vb else d.
Proof.
  cbn [list_to_map foldr fst snd]. repeat destruct (decide _); subst;
    repeat first [rewrite lookup_insert_eq | rewrite lookup_insert_ne by done]; by rewrite ?lookup_empty.
Qed.

Lemma bind_last {S} (a b c d : PM S unit) s : (a ;! b ;! c ;! d) s = ((a ;! b ;! c) ;! d) s.
Proof.
  unfold pm_bind. destruct (a s) as [[[]|] s1]; [|done]. destruct (b s1) as [[[]|] s2]; [|done].
  by destruct (c s2) as [[[]|] s3].
Qed.

Ltac literal := first [ apply (bool_decide_unpack _); vm_compute; exact Logic.I
                      | repeat (apply Forall_cons; split); try apply Forall_nil; try done;
                        first [by left | right; vm_compute; by eexists] ].
Lemma reply_created k src p : header_ok src -> header_ok p ->
  exists p', create k src p = (Ret tt, p') /\ header_ok p' /\ forall n, GetOption p' n = reply_view k src p n.
Proof.
  intros Hs Hp. destruct k.
  - destruct (reply_parts src p (taken_over Offer) [("dhcp_message_type", [2]); ("op", [2]); ("hlen", [6])] (cleared Offer))
      as (p' & H1 & H2 & H3); [done|done|literal|literal|literal|literal|].
    exists p'. split; [exact H1|]. split; [done|]. intros n. rewrite H3, three_lookup. unfold reply_view.
    done.
  - destruct (reply_parts src p (taken_over Ack) [("op", [2]); ("hlen", [6]); ("dhcp_message_type", [5])] (cleared Ack))
      as (p' & H1 & H2 & H3); [done|done|literal|literal|literal|literal|].
    exists p'. split; [exact H1|]. split; [done|]. intros n. rewrite H3, three_lookup. unfold reply_view.
    destruct (decide (n ∈ cleared Ack)); [done|]. by repeat destruct (decide (n = _)); subst.
  - destruct (reply_parts src p (taken_over Nack) [("op", [2]); ("hlen", [6])] (cleared Nack))
      as (p1 & H1 & H2 & H3); [done|done|literal|literal|literal|literal|].
    destruct (set_all_spec [("dhcp_message_type", [6])] p1 H2) as (p' & H4 & H5 & H6); [literal|literal|].
    exists p'. split; [|split; [done|]].
    + cbn [create]. unfold CreateDhcpNackPacketFrom, TransformToDhcpNackPacket. rewrite bind_last.
      change (set_all (copied src ["htype"; "xid"; "flags"; "giaddr"; "chaddr"])) with (set_all (copied src (taken_over Nack))).
      unfold pm_bind at 1. unfold cleared in H1. rewrite H1. exact H4.
    + intros n. rewrite H6, H3, two_lookup. cbn [list_to_map foldr fst snd]. unfold reply_view.
      destruct (decide (n = "dhcp_message_type")) as [->|Hne].
      { rewrite lookup_insert_eq, decide_False; [done|]. literal. }
      by rewrite lookup_insert_ne, lookup_empty by done.
Qed.

(** What a reply says: an offer, acknowledgement or refusal made from a well-formed
    request has the reply's type and operation, the identification of the client and
    the transaction taken from the request, the request's own fields cleared, and
    everything else as the packet had it; and it is recognised as what it is. *)
Theorem reply_spec k src p : header_ok src -> header_ok p ->
  exists p', create k src p = (Ret tt, p') /\ header_ok p' /\
    (forall n, GetOption p' n = reply_view k src p n) /\ IsDhcpSomethingPacket p' [message_type k] = true.
Proof.
  intros Hs Hp. destruct (reply_created k src p Hs Hp) as (p' & H1 & H2 & H3).
  exists p'. split; [done|]. split; [done|]. split; [done|].
  assert (GetOption p' "dhcp_message_type" = [message_type k]) as Ht by (rewrite H3; by destruct k).
  unfold IsDhcpSomethingPacket. rewrite (proj2 H2), Ht, bool_decide_eq_true_2 by done.
  unfold IsOption. unfold GetOption in Ht. change (DhcpFields !! "dhcp_message_type") with (@None (Z * Z)) in Ht.
  destruct (options_data p' !! "dhcp_message_type"); [|by destruct k]. by rewrite bool_decide_eq_true_2.
Qed.
Lemma reply_spec_witness :
  exists p', create Offer example_packet new_packet = (Ret tt, p') /\ header_ok p' /\
    (forall n, GetOption p' n = reply_view Offer example_packet new_packet n) /\
    IsDhcpSomethingPacket p' [2] = true.
Proof. apply (reply_spec Offer example_packet new_packet); by split. Defined.

(** Which options are present, whatever their values *)
Lemma set_option_keeps name value p n :
  n <> name -> options_data (SetOption name value p).2 !! n = options_data p !! n.
Proof.
  intros Hne. unfold SetOption. destruct (DhcpFields !! name) as [[b len]|]; [by destruct (negb _)|].
  destruct (DhcpOptions !! name); [|done]. destruct (_ ≫= _) as [specs|]; [|done].
  destruct (length_accepted _ _); [|done]. cbn. by rewrite lookup_insert_ne.
Qed.
Lemma delete_option_keeps name p n : n <> name -> options_data (DeleteOption name p).2 !! n = options_data p !! n.
Proof.
  intros Hne. unfold DeleteOption. destruct (DhcpFields !! name) as [[b len]|]; [done|].
  destruct (options_data p !! name); [|done]. cbn. by rewrite lookup_delete_ne.
Qed.
Lemma set_all_keeps l n : forall p, n ∉ l.*1 -> options_data (set_all l p).2 !! n = options_data p !! n.
Proof.
  induction l as [|[name v] l IH]; intros p Hn; [done|]. cbn in Hn. apply not_elem_of_cons in Hn as [Hne Hn].
  cbn [set_all]. unfold pm_bind. pose proof (set_option_keeps name v p n Hne) as H1.
  destruct (SetOption name v p) as [[b|] p1]; cbn in *; [|done]. by rewrite IH.
Qed.
Lemma delete_all_keeps l n : forall p, n ∉ l -> options_data (delete_all l p).2 !! n = options_data p !! n.
Proof.
  induction l as [|name l IH]; intros p Hn; [done|]. apply not_elem_of_cons in Hn as [Hne Hn].
  cbn [delete_all]. unfold pm_bind. pose proof (delete_option_keeps name p n Hne) as H1.
  destruct (DeleteOption name p) as [[b|] p1]; cbn in *; [|done]. by rewrite IH.
Qed.
Lemma set_all_app l1 l2 p : set_all (l1 ++ l2) p = (set_all l1 ;! set_all l2) p.
Proof.
  revert p. induction l1 as [|[n v] l1 IH]; intros p; [done|]. cbn [app set_all]. unfold pm_bind in *.
  destruct (SetOption n v p) as [[b|] p1]; [apply IH|done].
Qed.

(** A fixed length is never enforced, and so an offer to a client that did not ask
    for a lease time carries a lease time of no bytes. *)
Theorem offer_empty_lease_time src p :
  header_ok src -> header_ok p -> options_data src !! "ip_address_lease_time" = None ->
  exists p', create Offer src p = (Ret tt, p') /\ options_data p' !! "ip_address_lease_time" = Some [].
Proof.
  intros Hs Hp Hno. destruct (reply_created Offer src p Hs Hp) as (p' & H1 & _ & _). exists p'. split; [done|].
  set (n := "ip_address_lease_time") in *. assert (GetOption src n = []) as Hget.
  { unfold GetOption. change (DhcpFields !! n) with (@None (Z * Z)). by rewrite Hno. }
  destruct (set_all_spec (copied src ["htype"; "xid"; "flags"; "giaddr"; "chaddr"]) p Hp) as (p1 & E1 & _ & _);
    [apply copied_accepted; [done|literal]|rewrite copied_names; literal|].
  assert (exists p2, SetOption n [] p1 = (Ret true, p2) /\ options_data p2 !! n = Some []) as (p2 & E2 & Hp2).
  { unfold SetOption. change (DhcpFields !! n) with (@None (Z * Z)). change (DhcpOptions !! n) with (Some 51).
    cbv iota. change (DhcpOptionsTypes !! 51 ≫= _) with (Some (4, 0, 1)). eexists. split; [reflexivity|].
    apply lookup_insert_eq. }
  revert H1. cbn [create]. unfold CreateDhcpOfferPacketFrom, TransformToDhcpOfferPacket.
  change (copied src _) with (copied src ["htype"; "xid"; "flags"; "giaddr"; "chaddr"] ++ [(n, GetOption src n)]).
  rewrite Hget. unfold pm_bind at 1. rewrite set_all_app. unfold pm_bind at 1. rewrite E1.
  cbn [set_all]. unfold pm_bind at 1. rewrite E2. unfold pm_ret at 1.
  intros H1%(f_equal snd). cbn [snd] in H1. subst p'. unfold pm_bind at 1.
  pose proof (set_all_keeps [("dhcp_message_type", [2]); ("op", [2]); ("hlen", [6])] n p2 ltac:(literal)) as K1.
  cbn [set_all] in K1. destruct (pm_bind _ _ p2) as [[[]|] p3]; cbn [snd] in *; [|by rewrite K1].
  rewrite delete_all_keeps by literal. by rewrite K1.
Qed.
Lemma offer_empty_lease_time_witness :
  exists p', create Offer example_packet new_packet = (Ret tt, p') /\
    options_data p' !! "ip_address_lease_time" = Some [].
Proof. apply (offer_empty_lease_time example_packet new_packet); by split || done. Defined.

(** A packet whose only option is the node type, encoded, decoded and encoded again *)
Definition node_packet (value : Z) : dpacket := DPacket (packet_data new_packet) {["nb_node_type" := [value]]}.
Definition node_type_reencoded (value : Z) : option (gmap string (list Z) * res bytes) :=
  match EncodePacket (node_packet value) with
  | Ret raw => match DecodePacket raw (node_packet value) with
               | (Ret _, q) => Some (options_data q, EncodePacket q)
               | _ => None
               end
  | _ => None
  end.
Lemma node_types_checked :
  forallb (fun v => bool_decide (node_type_reencoded v = Some ({["nd_node_type" := [v]]}, Raise KeyError))) (seqZ 0 256) = true.
Proof. vm_compute. reflexivity. Qed.

(** The tables disagree on option 46: a packet with that option, set under the
    name the first table has, is encoded, but what is decoded from it has the name of
    the second and cannot be encoded any more. *)
Theorem node_type_not_reencoded value :
  in_byte value -> exists raw q, EncodePacket (node_packet value) = Ret raw /\
    DecodePacket raw (node_packet value) = (Ret tt, q) /\
    options_data q = {["nd_node_type" := [value]]} /\ EncodePacket q = Raise KeyError.
Proof.
  intros Hv. assert (value ∈ seqZ 0 256) as Hin by (apply elem_of_seqZ; unfold in_byte in Hv; lia).
  pose proof (proj1 (forallb_forall _ _) node_types_checked value (proj1 (list_elem_of_In _ _) Hin)) as H.
  apply bool_decide_eq_true in H. unfold node_type_reencoded in H.
  destruct (EncodePacket (node_packet value)) as [raw|] eqn:E; [|done].
  destruct (DecodePacket raw (node_packet value)) as [[[]|] q] eqn:D; [|done].
  exists raw, q. injection H as H1 H2. split_and!; [reflexivity|exact D|exact H1|exact H2].
Qed.
Lemma node_type_not_reencoded_witness :
  exists raw q, EncodePacket (node_packet 8) = Ret raw /\
    DecodePacket raw (node_packet 8) = (Ret tt, q) /\
    options_data q = {["nd_node_type" := [8]]} /\ EncodePacket q = Raise KeyError.
Proof. apply (node_type_not_reencoded 8). unfold in_byte. lia. Defined.

(** ** Decoding any datagram *)

Lemma find_cookie_ge fuel data it : it <= find_cookie fuel data it.
Proof.
  revert it. induction fuel as [|fuel IH]; intros it; cbn [find_cookie]; [lia|].
  destruct (_ && _); [|lia]. specialize (IH (it + 1)). lia.
Qed.
Section decoding.
Variable data : bytes.
Hypothesis Hbytes : Forall in_byte data.

(** What decoding has made of the datagram so far *)
Definition decoding (p : dpacket) : Prop :=
  packet_data p = data /\ map_Forall (fun n v => n ∈ DhcpOptionsList /\ Forall in_byte v) (options_data p).
Definition decoded (p : dpacket) : Prop :=
  packet_data p = slice_to data 240 /\
  map_Forall (fun n v => n ∈ DhcpOptionsList /\ Forall in_byte v) (options_data p).

Lemma py_index_byte i : match py_index data i with Ret c => in_byte c | Raise e => e = IndexError end.
Proof.
  unfold py_index. generalize (if i <? 0 then i + zlen data else i). intros j. destruct (j <? 0); [done|].
  destruct (data !! Z.to_nat j) as [c|] eqn:E; [|done]. by apply (Forall_lookup_1 _ _ _ _ Hbytes E).
Qed.
Lemma option_name code : in_byte code -> exists n, py_index DhcpOptionsList code = Ret n /\ n ∈ DhcpOptionsList.
Proof.
  intros Hc. destruct (lookup_lt_is_Some_2 DhcpOptionsList (Z.to_nat code)) as [n Hn].
  { change (length DhcpOptionsList) with 256%nat. unfold in_byte in Hc. lia. }
  exists n. split; [|by eapply list_elem_of_lookup_2]. apply py_index_lookup; [by destruct Hc|done].
Qed.
Lemma decode_loop_ends fuel : forall it p, 0 <= it -> (1 <= fuel)%nat -> zlen data < it + Z.of_nat fuel -> decoding p ->
  match decode_loop fuel it p with (Ret _, q) => decoded q | (Raise e, _) => e = IndexError end.
Proof.
  induction fuel as [|fuel IH]; intros it p Hi H1 Hf Hp; [lia|].
  assert (match cut p with (Ret _, q) => decoded q | (Raise e, _) => e = IndexError end) as Hcut.
  { split; [cbn; by rewrite (proj1 Hp)|apply Hp]. }
  cbn [decode_loop]. unfold pm_bind at 1, pm_get at 1. rewrite (proj1 Hp).
  destruct (Z.ltb_spec it (zlen data)); [cbn [negb]|done].
  unfold pm_bind at 1, pm_lift at 1. pose proof (py_index_byte it) as Hc.
  destruct (py_index data it) as [code|]; [|done].
  destruct (code =? 0); [apply IH; [lia..|done]|]. destruct (code =? 255); [done|].
  unfold pm_bind at 1, pm_lift at 1. pose proof (py_index_byte (it + 1)) as Hl.
  destruct (py_index data (it + 1)) as [len|]; [|done].
  unfold pm_bind at 1. unfold in_byte in Hl. case_bool_decide; [|apply IH; [lia..|done]].
  destruct (option_name code Hc) as (n & En & Hn). unfold pm_bind at 1, pm_lift at 1. rewrite En. cbn [pm_modify].
  apply IH; [lia..|]. split; [apply Hp|]. cbn [options_data]. apply map_Forall_insert_2; [|apply Hp].
  split; [done|]. by apply Forall_take, Forall_drop.
Qed.
End decoding.

(** [C35] [DecodePacket] ends on every datagram. It returns, with the fixed part and with
    options that have names of the table and values of bytes, or it raises [IndexError],
    when the code of an option is the last byte. *)
Theorem decode_ends data p :
  Forall in_byte data ->
  match DecodePacket data p with
  | (Ret _, q) => zlen (packet_data q) <= 240 /\
      map_Forall (fun n v => n ∈ DhcpOptionsList /\ Forall in_byte v) (options_data q)
  | (Raise e, _) => e = IndexError
  end.
Proof.
  intros Hb. unfold DecodePacket, pm_bind at 1, pm_modify. case_bool_decide as Hd.
  { subst. split; [vm_compute; done|apply map_Forall_empty]. }
  pose proof (find_cookie_ge (length data) data 236) as Hge.
  pose proof (decode_loop_ends data Hb (S (length data)) (find_cookie (length data) data 236 + 4)
    (DPacket data ∅) ltac:(lia) ltac:(lia) ltac:(unfold zlen; lia) (conj eq_refl (map_Forall_empty _))) as H.
  destruct (decode_loop _ _ _) as [[[]|e] q]; [|done]. destruct H as [H1 H2]. split; [|done].
  rewrite H1. unfold slice_to, zlen. rewrite length_take, clamp_nonneg by lia. lia.
Qed.
Lemma decode_ends_witness :
  Forall in_byte [1; 2; 255] /\
  match DecodePacket [1; 2; 255] new_packet with
  | (Ret _, q) => (zlen (packet_data q) <= 240) /\
      map_Forall (fun n v => n ∈ DhcpOptionsList /\ Forall in_byte v) (options_data q)
  | (Raise e, _) => e = IndexError
  end.
Proof.
  assert (Forall in_byte [1; 2; 255]) as H by (repeat constructor; done).
  split; [exact H|]. exact (decode_ends [1; 2; 255] new_packet H).
Defined.
