(* ===== verification/DhcpText.v ===== *)
(** Model of the textual forms of DHCP packets: [dhcplib/type_ipv4.py], [type_hwmac.py] and [type_strlist.py],
    the printing and reading of packets in [dhcp_packet.py], and the files of [dhcp_file_io.py].
    Theorems: addresses are read back from their texts, and so is the header of a printed packet;
    which options are not. *)
From S2P Require Import Prelude PyString DhcpConstants Dhcp DhcpReplies.

(** * Tables *)

Definition DhcpFieldsName_op : list (bytes * string) := [(lit "0", "ERROR_UNDEF"); (lit "1", "BOOTREQUEST"); (lit "2", "BOOTREPLY")].
Definition DhcpFieldsName_type : list (bytes * string) :=
  [(lit "0", "ERROR_UNDEF"); (lit "1", "DHCP_DISCOVER"); (lit "2", "DHCP_OFFER"); (lit "3", "DHCP_REQUEST"); (lit "4", "DHCP_DECLINE"); (lit "5", "DHCP_ACK");
   (lit "6", "DHCP_NACK"); (lit "7", "DHCP_RELEASE"); (lit "8", "DHCP_INFORM")].
Definition DhcpNames : gmap string Z := list_to_map
  [("ERROR_UNDEF", 0); ("BOOTREQUEST", 1); ("BOOTREPLY", 2); ("DHCP_DISCOVER", 1); ("DHCP_OFFER", 2); ("DHCP_REQUEST", 3); ("DHCP_DECLINE", 4); ("DHCP_ACK", 5);
   ("DHCP_NACK", 6); ("DHCP_RELEASE", 7); ("DHCP_INFORM", 8)].
Definition DhcpFieldsTypes : list (string * string) :=
  [("op", "int"); ("htype", "int"); ("hlen", "int"); ("hops", "int"); ("xid", "int4"); ("secs", "int2"); ("flags", "int2"); ("ciaddr", "ipv4"); ("yiaddr", "ipv4");
   ("siaddr", "ipv4"); ("giaddr", "ipv4"); ("chaddr", "hwmac"); ("sname", "str"); ("file", "str")].
Definition assoc {A B} `{EqDecision A} (l : list (A * B)) (k : A) : option B := snd <$> find (fun kv => bool_decide (kv.1 = k)) l.

(** * Addresses *)

Definition isdigit (d : bytes) : bool := negb (bool_decide (d = [])) && forallb is_digit d.
Record ipv4 := IPv4 { _ip_long : Z; _ip_numlist : list Z; _ip_string : bytes }.
Definition CheckNumList (value : list Z) : bool := bool_decide (length value = 4%nat) && forallb (fun part => (0 <=? part) && (part <=? 255)) value.
Definition CheckString (value : bytes) : bool :=
  let tmp := split_on 46 (strip value) [] in bool_decide (length tmp = 4%nat) && forallb isdigit tmp.
Definition _NumlistToString (l : list Z) : bytes := join [46] (py_str <$> l).
Definition _StringToLong (s : bytes) : res Z :=
  let? l := map_int (split_on 46 s []) in
  let? a := py_index l 3 in let? b := py_index l 2 in let? c := py_index l 1 in let? d := py_index l 0 in
  Ret (a + b * 256 + c * 256 * 256 + d * 256 * 256 * 256).
Definition _LongToNumlist (x : Z) : list Z :=
  [Z.land (Z.shiftr x 24) 255; Z.land (Z.shiftr x 16) 255; Z.land (Z.shiftr x 8) 255; Z.land x 255].
(** [ipv4(value)] of a string, of a list, and of a number, whose upper bits are kept *)
Definition ipv4_of_str (value : bytes) : res ipv4 :=
  if negb (CheckString value) then Raise ValueError else
  let? numlist := map_int (split_on 46 value []) in
  if negb (CheckNumList numlist) then Raise ValueError else
  let? long := _StringToLong value in
  Ret (IPv4 long numlist (_NumlistToString numlist)).
Definition ipv4_of_list (value : list Z) : res ipv4 :=
  if negb (CheckNumList value) then Raise ValueError else
  let string := _NumlistToString value in
  let? long := _StringToLong string in
  Ret (IPv4 long value string).
Definition ipv4_of_int (value : Z) : ipv4 :=
  let numlist := _LongToNumlist value in IPv4 value numlist (_NumlistToString numlist).

Record hwmac := HwMac { _hw_numlist : list Z; _hw_string : bytes }.
Fixpoint unhexlify (d : bytes) : res bytes :=
  match d with
  | [] => Ret []
  | [_] => Raise TypeError
  | a :: b :: d =>
      let? x := of_option TypeError (digit_of 16 a) in let? y := of_option TypeError (digit_of 16 b) in
      let? r := unhexlify d in Ret (16 * x + y :: r)
  end.
(** [ord(unhexlify(twochar))] *)
Definition hex_part (twochar : bytes) : res Z := let? d := unhexlify twochar in match d with [c] => Ret c | _ => Raise TypeError end.
Fixpoint hex_parts (l : list bytes) : res (list Z) :=
  match l with [] => Ret [] | w :: l => let? x := hex_part w in let? r := hex_parts l in Ret (x :: r) end.
Definition colons (d : bytes) : bytes := (fun c => if (c =? 45) || (c =? 46) then 58 else c) <$> d.
Definition mac_check (l : list Z) : bool := bool_decide (length l = 6%nat) && forallb (fun part => (0 <=? part) && (part <=? 255)) l.
Definition hwmac_of_str (value : bytes) : res hwmac :=
  let string := lower (colons (strip value)) in
  let? l := hex_parts (split_on 58 string []) in
  if mac_check l then Ret (HwMac l string) else Raise ValueError.
Definition hwmac_of_list (value : list Z) : res hwmac :=
  if mac_check value then Ret (HwMac value (join [58] (hex2 97 <$> value))) else Raise ValueError.

(** * Reading *)

(** A value that is [None] or [False] is [None] here: both are dropped. *)
Definition zeros_on_value_error {A} (r : res A) (f : A -> list Z) (zeros : list Z) : res (option (list Z)) :=
  match r with Ret a => Ret (Some (f a)) | Raise ValueError => Ret (Some zeros) | Raise e => Raise e end.
Definition false_on_value_error {A} (r : res A) (f : A -> list Z) : res (option (list Z)) :=
  match r with Ret a => Ret (Some (f a)) | Raise ValueError => Ret None | Raise e => Raise e end.
Fixpoint ip_list (l : list bytes) : res (list Z) :=
  match l with [] => Ret [] | w :: l => let? ip := ipv4_of_str w in let? r := ip_list l in Ret (_ip_numlist ip ++ r) end.
(** Options by their type; a single address is not checked. *)
Definition typed_value (option_type : string) (value : bytes) : res (option (list Z)) :=
  if bool_decide (option_type = "ipv4") then false_on_value_error (map_int (split_on 46 value [])) (fun l => l)
  else if bool_decide (option_type = "ipv4+") then let? l := ip_list (split_on 44 value []) in Ret (Some l)
  else if bool_decide (option_type = "32-bits") then false_on_value_error (py_int value) _LongToNumlist
  else if bool_decide (option_type = "16-bits") then false_on_value_error (py_int value) (fun d => [Z.land (Z.shiftr d 8) 255; Z.land d 255])
  else if bool_decide (option_type = "char") then false_on_value_error (py_int value) (fun d => [Z.land d 255])
  else if bool_decide (option_type = "bool") then Ret (Some (if bool_decide (value = lit "False") || bool_decide (value = lit "false") then [0] else [1]))
  else Ret (Some value).
(** The clause for hardware addresses names one exception and binds the other: only [ValueError] is caught. *)
Definition _OptionsToBinary (parameter value : bytes) : res (option (list Z)) :=
  let p := name_of (strip parameter) in
  if bool_decide (p ∈ ["op"; "htype"]) then
    let value := strip value in
    if isdigit value then let? x := py_int value in Ret (Some [x])
    else Ret (Some [default 0 (DhcpNames !! name_of value)])
  else if bool_decide (p ∈ ["hlen"; "hops"]) then zeros_on_value_error (py_int value) (fun x => [x]) [0]
  else if bool_decide (p ∈ ["secs"; "flags"]) then zeros_on_value_error (py_int value) (fun x => drop 2 (_LongToNumlist x)) [0; 0]
  else if bool_decide (p = "xid") then zeros_on_value_error (py_int value) _LongToNumlist [0; 0; 0; 0]
  else if bool_decide (p ∈ ["ciaddr"; "yiaddr"; "siaddr"; "giaddr"]) then zeros_on_value_error (ipv4_of_str value) _ip_numlist [0; 0; 0; 0]
  else if bool_decide (p = "chaddr") then zeros_on_value_error (hwmac_of_str value) (fun h => _hw_numlist h ++ py_repeat 0 10) (py_repeat 0 16)
  else if bool_decide (p ∈ ["sname"; "file"]) then Ret None
  else if bool_decide (p = "parameter_request_list") then Ret (Some (omap (fun each => DhcpOptions !! name_of each) (split_on 44 (strip value) [])))
  else if bool_decide (p = "dhcp_message_type") then Ret ((fun x => [x]) <$> DhcpNames !! name_of value)
  else match DhcpOptions !! name_of parameter ≫= fun code => DhcpOptionsTypes !! code with
       | None => Ret None
       | Some option_type => typed_value option_type value
       end.
(** [partition(':')]; a value that is empty is dropped too. *)
Definition AddLine (line : bytes) : PM dpacket unit :=
  let '(parameter, value) := match find_char 58 line with Some n => (take n line, drop (S n) line) | None => (line, []) end in
  let parameter := strip parameter in
  let value := match value with 32 :: value => value | _ => value end in
  let! value := pm_lift (_OptionsToBinary parameter value) in
  match value with
  | Some ((_ :: _) as value) => let! _ := SetOption (name_of parameter) value in pm_ret tt
  | _ => pm_ret tt
  end.

(** * Printing *)

Fixpoint until_zero (data : list Z) : bytes := match data with c :: data => if c =? 0 then [] else c :: until_zero data | [] => [] end.
Definition field_text (opt : string) (data : list Z) : res bytes :=
  let t := default "" (assoc DhcpFieldsTypes opt) in
  if bool_decide (t = "int") then let? a := py_index data 0 in Ret (py_str a)
  else if bool_decide (t = "int2") then let? a := py_index data 0 in let? b := py_index data 1 in Ret (py_str (a * 256 + b))
  else if bool_decide (t = "int4") then let? ip := ipv4_of_list data in Ret (py_str (_ip_long ip))
  else if bool_decide (t = "str") then Ret (until_zero data)
  else if bool_decide (t = "ipv4") then let? ip := ipv4_of_list data in Ret (_ip_string ip)
  else if bool_decide (length data < 6)%nat then Raise IndexError else Ret (join [58] (hex2 97 <$> take 6 data)).
Definition line_of (opt : string) (text : bytes) : bytes := lit opt ++ lit " : " ++ text ++ [10].
Definition printed_fields : list string := ["htype"; "hlen"; "hops"; "xid"; "secs"; "flags"; "ciaddr"; "yiaddr"; "siaddr"; "giaddr"; "chaddr"; "sname"; "file"].
Fixpoint field_lines (p : dpacket) (l : list string) : res (list bytes) :=
  match l with
  | [] => Ret []
  | opt :: l => let? t := field_text opt (GetOption p opt) in let? r := field_lines p l in Ret (line_of opt t :: r)
  end.
(** The lines of the header *)
Definition header_lines (p : dpacket) : res (list bytes) :=
  let? op := py_index (GetOption p "op") 0 in
  let? name := of_option KeyError (assoc DhcpFieldsName_op (py_str op)) in
  let? l := field_lines p printed_fields in
  Ret ((lit "# Header fields" ++ [10]) :: line_of "op" (lit name) :: l).
Fixpoint ip_texts (fuel : nat) (data : list Z) : res bytes :=
  match fuel with
  | O => Ret []
  | S fuel =>
      if (length data <? 4)%nat then Ret [] else
      let? ip := ipv4_of_list (take 4 data) in let? r := ip_texts fuel (drop 4 data) in Ret (_ip_string ip ++ lit " - " ++ r)
  end.
Fixpoint option_names (data : list Z) : res (list bytes) :=
  match data with [] => Ret [] | c :: data => let? n := py_index DhcpOptionsList c in let? r := option_names data in Ret (lit n :: r) end.
(** A number of 16 bits is computed from its first byte twice; of the types left over nothing is printed. *)
Definition option_text (opt : string) (data : list Z) : res bytes :=
  let? optnum := of_option KeyError (DhcpOptions !! opt) in
  if bool_decide (opt = "dhcp_message_type") then
    let? a := py_index data 0 in let? n := of_option KeyError (assoc DhcpFieldsName_type (py_str a)) in Ret (lit n)
  else
    let? t := of_option KeyError (DhcpOptionsTypes !! optnum) in
    if bool_decide (t = "char") then let? a := py_index data 0 in Ret (py_str a)
    else if bool_decide (t = "16-bits") then let? a := py_index data 0 in Ret (py_str (a * 256 + a))
    else if bool_decide (t = "32-bits") then let? ip := ipv4_of_list data in Ret (py_str (_ip_long ip))
    else if bool_decide (t = "string") then Ret (until_zero data)
    else if bool_decide (t = "ipv4") then let? ip := ipv4_of_list data in Ret (_ip_string ip)
    else if bool_decide (t = "ipv4+") then ip_texts (length data) data
    else if bool_decide (t = "char+") then let? names := option_names data in Ret (join [44] names)
    else Ret [].
Fixpoint option_lines (l : list (string * list Z)) : res (list bytes) :=
  match l with
  | [] => Ret []
  | (opt, data) :: l => let? t := option_text opt data in let? r := option_lines l in Ret (line_of opt t :: r)
  end.
(** [str()], for an order of the options *)
Definition packet_text (items : gmap string (list Z) -> list (string * list Z)) (p : dpacket) : res bytes :=
  let? h := header_lines p in
  let? o := option_lines (items (options_data p)) in
  Ret (concat (h ++ (lit "# Options fields" ++ [10]) :: o)).

(** * Files *)

(** What is read from a file: 4096 bytes in binary form, else its lines *)
Fixpoint add_lines (lines : list bytes) : PM dpacket unit :=
  match lines with [] => pm_ret tt | l :: lines => AddLine l ;! add_lines lines end.
Fixpoint lines_of (s cur : bytes) : list bytes :=
  match s with
  | [] => if bool_decide (cur = []) then [] else [reverse cur]
  | c :: s => if c =? 10 then reverse (c :: cur) :: lines_of s [] else lines_of s (c :: cur)
  end.
Definition GetNextDhcpPacket (binary : bool) (file : bytes) : res dpacket :=
  match (if binary then DecodePacket (take 4096 file) else add_lines (lines_of file [])) new_packet with
  | (Ret _, p) => Ret p
  | (Raise e, _) => Raise e
  end.
Definition SendDhcpPacketTo (items : gmap string (list Z) -> list (string * list Z)) (binary : bool) (p : dpacket) : res bytes :=
  if binary then EncodePacket p else packet_text items p.

(** * Addresses are read back *)

Definition ip_value (a b c d : Z) : Z := d + c * 256 + b * 256 * 256 + a * 256 * 256 * 256.
Lemma long_numlist a b c d : byte_ok a -> byte_ok b -> byte_ok c -> byte_ok d -> _LongToNumlist (ip_value a b c d) = [a; b; c; d].
Proof.
  unfold byte_ok. intros. unfold _LongToNumlist. change 255 with (Z.ones 8). rewrite !Z.land_ones, !Z.shiftr_div_pow2 by lia.
  change (2 ^ 24) with 16777216. change (2 ^ 16) with 65536. change (2 ^ 8) with 256. unfold ip_value.
  f_equal; [|f_equal; [|f_equal; [|f_equal]]]; symmetry.
  - apply (Z.mod_unique _ _ 0); [lia|]. rewrite Z.mul_0_r, Z.add_0_l. symmetry. apply (Z.div_unique _ _ _ (d + c * 256 + b * 256 * 256)); lia.
  - apply (Z.mod_unique _ _ a); [lia|]. symmetry. apply (Z.div_unique _ _ _ (d + c * 256)); lia.
  - apply (Z.mod_unique _ _ (a * 256 + b)); [lia|]. symmetry. apply (Z.div_unique _ _ _ d); lia.
  - apply (Z.mod_unique _ _ (a * 256 * 256 + b * 256 + c)); lia.
Qed.
Lemma value_split x : 0 <= x < 2 ^ 32 -> exists a b c d, byte_ok a /\ byte_ok b /\ byte_ok c /\ byte_ok d /\ x = ip_value a b c d.
Proof.
  intros Hx. exists (x / 16777216), (x / 65536 mod 256), (x / 256 mod 256), (x mod 256). unfold byte_ok, ip_value.
  pose proof (Z.mod_pos_bound x 256). pose proof (Z.mod_pos_bound (x / 256) 256). pose proof (Z.mod_pos_bound (x / 65536) 256).
  assert (x / 65536 = x / 256 / 256) as E1 by (by rewrite Z.div_div). assert (x / 16777216 = x / 65536 / 256) as E2 by (by rewrite Z.div_div).
  pose proof (Z.div_mod x 256). pose proof (Z.div_mod (x / 256) 256). pose proof (Z.div_mod (x / 65536) 256).
  assert (0 <= x / 16777216 < 256) by (split; [apply Z.div_pos; lia|apply Z.div_lt_upper_bound; lia]). lia.
Qed.
(** The text of a byte: digits only *)
Lemma byte_text a : byte_ok a -> forallb is_digit (py_str a) = true /\ isdigit (py_str a) = true /\ 46 ∉ py_str a /\ forallb (fun c => negb (is_space c)) (py_str a) = true.
Proof.
  unfold byte_ok. intros Ha. destruct (py_str_digits a) as (Hd & Hne & _); [lia|]. split_and!; [done| |by apply digits_no_dot|by apply digits_no_space].
  unfold isdigit. by rewrite bool_decide_false, Hd by done.
Qed.
(** What may follow a text in a line: nothing, or the end of the line *)
Definition line_end (e : bytes) : Prop := e = [] \/ e = [10].
Lemma strip_end d e : line_end e -> forallb (fun c => negb (is_space c)) d = true -> strip (d ++ e) = d.
Proof. intros [->| ->] H; [rewrite app_nil_r; by apply strip_none|by apply strip_newline]. Qed.
Lemma py_int_end x e : line_end e -> 0 <= x -> py_int (py_str x ++ e) = Ret x.
Proof. intros [->| ->] H; [rewrite app_nil_r; by apply py_int_str|by apply py_int_newline]. Qed.
Lemma dotted_nosep l e : line_end e -> Forall byte_ok l -> Forall (fun w => 46 ∉ w) ((fun a => py_str a ++ e) <$> l).
Proof.
  intros He Hl. apply Forall_fmap. eapply Forall_impl; [exact Hl|]. intros a Ha. cbn. destruct (byte_text a Ha) as (_ & _ & Hd & _).
  rewrite elem_of_app. intros [?|Hin]; [done|]. destruct He as [->| ->]; set_solver by lia.
Qed.
Section dotted.
Context (a b c d : Z) (Ha : byte_ok a) (Hb : byte_ok b) (Hc : byte_ok c) (Hd : byte_ok d) (e : bytes) (He : line_end e).
Abbreviation text := (_NumlistToString [a; b; c; d]).
Lemma dotted_split : split_on 46 (text ++ e) [] = [py_str a; py_str b; py_str c; py_str d ++ e].
Proof.
  assert (Hn : text ++ e = join [46] [py_str a; py_str b; py_str c; py_str d ++ e]) by (symmetry; apply (join_snoc [46] [py_str a; py_str b; py_str c])).
  rewrite Hn. apply split_join; [done|]. pose proof (byte_text a Ha). pose proof (byte_text b Hb). pose proof (byte_text c Hc).
  pose proof (dotted_nosep [d] e He ltac:(by constructor)) as Hx. apply Forall_cons in Hx as [Hx _]. repeat constructor; naive_solver.
Qed.
Lemma dotted_check : CheckString (text ++ e) = true.
Proof.
  unfold CheckString. pose proof (byte_text a Ha) as (A1 & A2 & A3 & A4). pose proof (byte_text b Hb) as (B1 & B2 & B3 & B4).
  pose proof (byte_text c Hc) as (C1 & C2 & C3 & C4). pose proof (byte_text d Hd) as (D1 & D2 & D3 & D4).
  rewrite strip_end; [|done|].
  - unfold _NumlistToString. rewrite split_join; [|done|repeat constructor; done]. cbn. by rewrite A2, B2, C2, D2.
  - unfold _NumlistToString. cbn. rewrite !forallb_app. cbn. rewrite !forallb_app. cbn. rewrite !forallb_app. cbn. by rewrite A4, B4, C4, D4.
Qed.
Lemma dotted_ints : map_int (split_on 46 (text ++ e) []) = Ret [a; b; c; d].
Proof.
  rewrite dotted_split. unfold byte_ok in *. cbn [map_int]. rewrite !py_int_str, py_int_end by (done || lia). done.
Qed.
Lemma dotted_long : _StringToLong (text ++ e) = Ret (ip_value a b c d).
Proof. unfold _StringToLong. by rewrite dotted_ints. Qed.
Lemma numlist_checked : CheckNumList [a; b; c; d] = true.
Proof. unfold byte_ok in *. unfold CheckNumList. rewrite bool_decide_true by done. cbn. lia. Qed.
Lemma dotted_read : ipv4_of_str (text ++ e) = Ret (IPv4 (ip_value a b c d) [a; b; c; d] text).
Proof. unfold ipv4_of_str. by rewrite dotted_check, dotted_ints; cbn [negb res_bind]; rewrite numlist_checked, dotted_long. Qed.
End dotted.
Lemma list_address a b c d : byte_ok a -> byte_ok b -> byte_ok c -> byte_ok d ->
  ipv4_of_list [a; b; c; d] = Ret (IPv4 (ip_value a b c d) [a; b; c; d] (_NumlistToString [a; b; c; d])).
Proof.
  intros Ha Hb Hc Hd. unfold ipv4_of_list. rewrite numlist_checked by done. cbn [negb].
  pose proof (dotted_long a b c d Ha Hb Hc Hd [] (or_introl eq_refl)) as Hl. rewrite app_nil_r in Hl. by rewrite Hl.
Qed.
(** An address made from a number is the same as the one read from its text, with white space after it or not, and as
    the one made from its list of bytes. *)
Theorem address_forms x : 0 <= x < 2 ^ 32 ->
  ipv4_of_str (_ip_string (ipv4_of_int x)) = Ret (ipv4_of_int x) /\ ipv4_of_str (_ip_string (ipv4_of_int x) ++ [10]) = Ret (ipv4_of_int x) /\
  ipv4_of_list (_ip_numlist (ipv4_of_int x)) = Ret (ipv4_of_int x).
Proof.
  intros Hx. destruct (value_split x Hx) as (a & b & c & d & Ha & Hb & Hc & Hd & ->). unfold ipv4_of_int. rewrite long_numlist by done. cbn [_ip_string _ip_numlist].
  split_and!; [rewrite <- (app_nil_r (_NumlistToString _)) at 1|..]; [apply dotted_read; try done; by left|apply dotted_read; try done; by right|by apply list_address].
Qed.

Definition mac_char (c : Z) : bool := is_digit c || ((97 <=? c) && (c <=? 102)).
Lemma hex_text x : byte_ok x -> hex_part (hex2 97 x) = Ret x /\ forallb mac_char (hex2 97 x) = true.
Proof.
  intros Hx. assert (H : bool_decide (hex_part (hex2 97 x) = Ret x) && forallb mac_char (hex2 97 x) = true).
  { revert x Hx. apply (all_bytes (fun x => bool_decide (hex_part (hex2 97 x) = Ret x) && forallb mac_char (hex2 97 x))). by vm_compute. }
  apply andb_true_iff in H as [H1%bool_decide_eq_true H2]. done.
Qed.
Lemma mac_char_plain c : mac_char c = true \/ c = 58 -> is_space c = false /\ (if (c =? 45) || (c =? 46) then 58 else c) = c /\ (if (65 <=? c) && (c <=? 90) then c + 32 else c) = c.
Proof.
  unfold mac_char, is_digit, is_space. intros H. split; [lia|]. destruct (Z.eqb_spec c 45), (Z.eqb_spec c 46), (Z.leb_spec 65 c), (Z.leb_spec c 90); cbn; lia.
Qed.
Lemma join_chars (P : Z -> Prop) sep l : Forall P sep -> Forall (Forall P) l -> Forall P (join sep l).
Proof.
  intros Hs. induction 1 as [|w l Hw Hl IH]; [constructor|]. destruct l as [|w' l]; [done|].
  change (join sep (w :: w' :: l)) with (w ++ sep ++ join sep (w' :: l)). by rewrite !Forall_app.
Qed.
Lemma map_same (f : Z -> Z) l : Forall (fun c => f c = c) l -> f <$> l = l.
Proof. induction 1 as [|c l Hc _ IH]; [done|]. cbn. by rewrite Hc, IH. Qed.
Lemma hex_parts_text l : Forall byte_ok l -> hex_parts (hex2 97 <$> l) = Ret l.
Proof. induction 1 as [|x l Hx _ IH]; [done|]. cbn [fmap list_fmap hex_parts]. rewrite (proj1 (hex_text x Hx)). cbn [res_bind]. by rewrite IH. Qed.
Section mac.
Context (l : list Z) (Hl : length l = 6%nat) (Hok : Forall byte_ok l).
Abbreviation text := (join [58] (hex2 97 <$> l)).
Lemma mac_text_chars : Forall (fun c => mac_char c = true \/ c = 58) text.
Proof.
  apply join_chars; [by constructor; [right|constructor]|]. apply Forall_fmap. eapply Forall_impl; [exact Hok|]. intros x Hx. cbn.
  apply Forall_forall. intros c Hc%list_elem_of_In. left. by apply (proj1 (forallb_forall _ _) (proj2 (hex_text x Hx))).
Qed.
Lemma mac_list_ok : mac_check l = true.
Proof.
  unfold mac_check. rewrite bool_decide_true by done. apply forallb_forall. intros x Hx%list_elem_of_In. rewrite Forall_forall in Hok. specialize (Hok x Hx). unfold byte_ok in Hok. lia.
Qed.
Lemma mac_read e : line_end e -> hwmac_of_str (text ++ e) = Ret (HwMac l text).
Proof.
  intros He. pose proof mac_text_chars as Hc. unfold hwmac_of_str. rewrite strip_end; [|done|].
  2: { apply forallb_forall. intros c Hin%list_elem_of_In. rewrite Forall_forall in Hc. by rewrite (proj1 (mac_char_plain c (Hc c Hin))). }
  assert (Hsame : lower (colons text) = text).
  { unfold lower, colons. rewrite (map_same _ text); [rewrite (map_same _ text); [done|]|]; (eapply Forall_impl; [exact Hc|]); intros c H; by apply mac_char_plain. }
  rewrite Hsame, split_join.
  - rewrite hex_parts_text by done. cbn [res_bind]. by rewrite mac_list_ok.
  - by destruct l.
  - apply Forall_fmap. eapply Forall_impl; [exact Hok|]. intros x Hx Hin%list_elem_of_In. by apply (proj1 (forallb_forall _ _) (proj2 (hex_text x Hx))) in Hin.
Qed.
End mac.

(** * Lines are read back *)

Lemma find_colon w r : 58 ∉ w -> find_char 58 (w ++ 58 :: r) = Some (length w).
Proof. induction w as [|c w IH]; intros H; [done|]. apply not_elem_of_cons in H as [? ?]. cbn. rewrite (proj2 (Z.eqb_neq _ _)) by done. by rewrite IH. Qed.
(** Names that a line can start with *)
Definition plain_name (name : string) : bool := forallb (fun c => negb (is_space c) && negb (c =? 58)) (lit name).
Lemma add_line name text p : plain_name name = true -> AddLine (line_of name text) p =
  (let! value := pm_lift (_OptionsToBinary (lit name) (text ++ [10])) in
   match value with Some ((_ :: _) as value) => let! _ := SetOption name value in pm_ret tt | _ => pm_ret tt end) p.
Proof.
  intros Hn. assert (Hc : 58 ∉ lit name ++ [32]).
  { rewrite elem_of_app, list_elem_of_singleton. intros [Hin%list_elem_of_In|?]; [|done]. by apply (proj1 (forallb_forall _ _) Hn) in Hin. }
  assert (Hs : forallb (fun c => negb (is_space c)) (lit name) = true).
  { apply forallb_forall. intros c Hin. by apply (proj1 (forallb_forall _ _) Hn), andb_true_iff in Hin as [? _]. }
  unfold AddLine. replace (line_of name text) with ((lit name ++ [32]) ++ 58 :: 32 :: text ++ [10]) by (unfold line_of; by rewrite <- app_assoc).
  rewrite find_colon by done. rewrite take_app_length. replace (S (length (lit name ++ [32]))) with (length ((lit name ++ [32]) ++ [58])) by (rewrite !length_app; cbn; lia).
  rewrite (app_assoc (lit name ++ [32]) [58] (32 :: text ++ [10]) : (lit name ++ [32]) ++ 58 :: 32 :: text ++ [10] = _), drop_app_length.
  assert (strip (lit name ++ [32]) = lit name) as -> by (by apply strip_space). by rewrite name_lit.
Qed.
Lemma own_name name : plain_name name = true -> name_of (strip (lit name)) = name.
Proof.
  intros Hn. rewrite strip_none; [apply name_lit|]. apply forallb_forall. intros c Hin. by apply (proj1 (forallb_forall _ _) Hn), andb_true_iff in Hin as [? _].
Qed.
(** Decides the tests of a name or a type that are closed *)
Ltac decide_names := repeat match goal with
  | |- context [bool_decide ?P] => first [change (bool_decide P) with true | change (bool_decide P) with false] end; cbv iota.
Lemma field_int name a : name ∈ ["htype"; "hlen"; "hops"] -> byte_ok a ->
  field_text name [a] = Ret (py_str a) /\ _OptionsToBinary (lit name) (py_str a ++ [10]) = Ret (Some [a]).
Proof.
  intros Hn Ha. destruct (byte_text a Ha) as (_ & Hd & _ & Hs). unfold byte_ok in Ha. unfold _OptionsToBinary.
  repeat (apply elem_of_cons in Hn as [->|Hn]; [split; [done|]; rewrite own_name by done; decide_names|]); [..|by apply elem_of_nil in Hn].
  - cbn zeta. rewrite strip_newline by done. rewrite Hd. by rewrite py_int_str by lia.
  - by rewrite py_int_newline by lia.
  - by rewrite py_int_newline by lia.
Qed.
Lemma field_int2 name a b : name ∈ ["secs"; "flags"] -> byte_ok a -> byte_ok b ->
  field_text name [a; b] = Ret (py_str (a * 256 + b)) /\ _OptionsToBinary (lit name) (py_str (a * 256 + b) ++ [10]) = Ret (Some [a; b]).
Proof.
  intros Hn Ha Hb. unfold _OptionsToBinary. pose proof (long_numlist 0 0 a b ltac:(done) ltac:(done) Ha Hb) as Hl. unfold byte_ok in Ha, Hb.
  replace (ip_value 0 0 a b) with (a * 256 + b) in Hl by (unfold ip_value; lia).
  repeat (apply elem_of_cons in Hn as [->|Hn]; [split; [done|]; rewrite own_name by done; decide_names|]); [..|by apply elem_of_nil in Hn].
  all: rewrite py_int_newline by lia; cbn [zeros_on_value_error]; by rewrite Hl.
Qed.
Lemma field_xid a b c d : byte_ok a -> byte_ok b -> byte_ok c -> byte_ok d ->
  field_text "xid" [a; b; c; d] = Ret (py_str (ip_value a b c d)) /\ _OptionsToBinary (lit "xid") (py_str (ip_value a b c d) ++ [10]) = Ret (Some [a; b; c; d]).
Proof.
  intros Ha Hb Hc Hd. unfold field_text, _OptionsToBinary. decide_names. rewrite list_address by done. split; [done|].
  rewrite py_int_newline by (unfold byte_ok, ip_value in *; lia). cbn [zeros_on_value_error]. by rewrite long_numlist.
Qed.
Lemma field_ipv4 name a b c d : name ∈ ["ciaddr"; "yiaddr"; "siaddr"; "giaddr"] -> byte_ok a -> byte_ok b -> byte_ok c -> byte_ok d ->
  field_text name [a; b; c; d] = Ret (_NumlistToString [a; b; c; d]) /\ _OptionsToBinary (lit name) (_NumlistToString [a; b; c; d] ++ [10]) = Ret (Some [a; b; c; d]).
Proof.
  intros Hn Ha Hb Hc Hd. unfold field_text, _OptionsToBinary.
  repeat (apply elem_of_cons in Hn as [->|Hn]; [rewrite own_name by done; decide_names; rewrite list_address by done; split; [done|]|]); [..|by apply elem_of_nil in Hn].
  all: rewrite dotted_read by (done || by right); done.
Qed.
Lemma field_chaddr l : length l = 6%nat -> Forall byte_ok l ->
  field_text "chaddr" (l ++ py_repeat 0 10) = Ret (join [58] (hex2 97 <$> l)) /\
  _OptionsToBinary (lit "chaddr") (join [58] (hex2 97 <$> l) ++ [10]) = Ret (Some (l ++ py_repeat 0 10)).
Proof.
  intros Hl Hok. unfold field_text, _OptionsToBinary. split.
  - change (default "" (assoc DhcpFieldsTypes "chaddr")) with "hwmac". cbn zeta. decide_names. rewrite bool_decide_false by (rewrite length_app; lia).
    by rewrite take_app_length' by done.
  - rewrite own_name by done. decide_names. by rewrite mac_read by (done || by right).
Qed.

(** A packet whose header text says all of it *)
Record printable (p : dpacket) : Prop := {
  pr_header : header_ok p;
  pr_bytes : bytes_ok (packet_data p);
  pr_op : GetOption p "op" ∈ [[0]; [1]; [2]];
  pr_chaddr : drop 6 (GetOption p "chaddr") = py_repeat 0 10;
  pr_sname : GetOption p "sname" = py_repeat 0 64;
  pr_file : GetOption p "file" = py_repeat 0 128
}.
Lemma field_data p name b len : header_ok p -> bytes_ok (packet_data p) -> DhcpFields !! name = Some (b, len) ->
  length (GetOption p name) = Z.to_nat len /\ Forall byte_ok (GetOption p name).
Proof.
  intros Hh Hb Hf. pose proof (get_field_accepted p name b len Hh Hf) as Ha. unfold accepts in Ha. rewrite Hf in Ha. apply Z.eqb_eq in Ha. split; [unfold zlen in Ha; lia|].
  unfold GetOption. rewrite Hf. unfold slice. apply Forall_take, Forall_drop. exact Hb.
Qed.
Lemma field_printed p name : printable p -> name ∈ printed_fields -> exists t, field_text name (GetOption p name) = Ret t /\
  _OptionsToBinary (lit name) (t ++ [10]) = Ret (if decide (name ∈ ["sname"; "file"]) then None else Some (GetOption p name)).
Proof.
  intros [Hh Hb _ Hc _ _] Hn. assert (Hlen : forall b len, DhcpFields !! name = Some (b, len) -> length (GetOption p name) = Z.to_nat len /\ Forall byte_ok (GetOption p name)) by (intros; by eapply field_data).
  repeat (apply elem_of_cons in Hn as [->|Hn]; [edestruct Hlen as [Hl Hok]; [reflexivity|]; revert Hl Hok|]); [..|by apply elem_of_nil in Hn].
  all: clear Hlen.
  1-10: clear Hc; destruct (GetOption p _) as [|a [|b [|c [|d [|]]]]]; intros Hl Hok; try discriminate Hl; rewrite !Forall_cons in Hok; destruct_and!.
  11-13: intros Hl Hok.
  1-3: eexists; apply field_int; [set_solver|done].
  1: eexists; by apply field_xid.
  1-2: eexists; apply field_int2; [set_solver|done|done].
  1-4: eexists; apply field_ipv4; [set_solver|done..].
  - rewrite <- (take_drop 6 (GetOption p "chaddr")), Hc. eexists. apply field_chaddr; [rewrite length_take; lia|by apply Forall_take].
  - eexists. split; reflexivity.
  - eexists. split; reflexivity.
Qed.
Definition unread : list string := ["sname"; "file"].
Lemma printed_names name : name ∈ printed_fields -> plain_name name = true /\ exists b len, DhcpFields !! name = Some (b, len) /\ 0 < len.
Proof.
  intros Hin%list_elem_of_In.
  assert (H : plain_name name && match DhcpFields !! name with Some (_, len) => 0 <? len | None => false end = true).
  { revert name Hin. apply forallb_forall. by vm_compute. }
  apply andb_true_iff in H as [H1 H2]. split; [done|]. destruct (DhcpFields !! name) as [[b len]|]; [|done]. exists b, len. split; [done|lia].
Qed.
(** A line that reads as a value for its field sets it. *)
Lemma add_field name t v b len q : header_ok q -> plain_name name = true -> DhcpFields !! name = Some (b, len) -> 0 < len -> zlen v = len ->
  _OptionsToBinary (lit name) (t ++ [10]) = Ret (Some v) ->
  exists q', AddLine (line_of name t) q = (Ret tt, q') /\ header_ok q' /\ forall n, GetOption q' n = if decide (n = name) then v else GetOption q n.
Proof.
  intros Hq Hpl Hf Hpos Hv Hbin. rewrite add_line by done. unfold pm_bind at 1, pm_lift. rewrite Hbin.
  destruct v as [|x v]; [unfold zlen in Hv; cbn in Hv; lia|]. destruct (set_option_spec name (x :: v) q Hq) as [Hq1 Hg1].
  assert (Hacc : accepts name (x :: v) = true) by (unfold accepts; rewrite Hf; by apply Z.eqb_eq).
  assert (Hret : (SetOption name (x :: v) q).1 = Ret true).
  { unfold SetOption. rewrite Hf. by rewrite (proj2 (Z.eqb_eq _ _) Hv). }
  unfold pm_bind. destruct (SetOption name (x :: v) q) as [r q1]. cbn [fst snd] in *. subst r. exists q1. split; [done|]. split; [done|].
  intros n. rewrite Hg1. repeat destruct (decide _); naive_solver.
Qed.
Lemma field_lines_read p l : printable p -> Forall (fun name => name ∈ printed_fields) l -> exists lines, field_lines p l = Ret lines /\
  forall q, header_ok q -> exists q', add_lines lines q = (Ret tt, q') /\ header_ok q' /\
    forall n, GetOption q' n = if decide (n ∈ l /\ n ∉ unread) then GetOption p n else GetOption q n.
Proof.
  intros Hp. induction 1 as [|name l Hname _ (lines & IHl & IH)].
  { exists []. split; [done|]. intros q Hq. exists q. split; [done|]. split; [done|]. intros n. rewrite decide_False; [done|]. intros [H _]. by apply elem_of_nil in H. }
  destruct (field_printed p name Hp Hname) as (t & Ht & Hbin). exists (line_of name t :: lines). cbn [field_lines]. rewrite Ht. cbn [res_bind]. rewrite IHl. split; [done|].
  intros q Hq. cbn [add_lines]. unfold pm_bind at 1. destruct (printed_names name Hname) as (Hpl & b & len & Hf & Hpos).
  destruct (decide (name ∈ ["sname"; "file"])) as [Hu|Hu].
  - rewrite add_line by done. unfold pm_bind at 1, pm_lift. rewrite Hbin. destruct (IH q Hq) as (q' & Hadd & Hq' & Hget). exists q'. split; [exact Hadd|]. split; [done|].
    intros n. rewrite Hget. apply decide_ext. rewrite elem_of_cons. naive_solver.
  - destruct (field_data p name b len (pr_header p Hp) (pr_bytes p Hp) Hf) as [Hlen _].
    destruct (add_field name t (GetOption p name) b len q) as (q1 & -> & Hq1 & Hg1); try done; [unfold zlen; lia|].
    destruct (IH q1 Hq1) as (q' & Hadd & Hq' & Hget). exists q'. split; [exact Hadd|]. split; [done|].
    intros n. rewrite Hget, Hg1. destruct (decide (n = name)) as [->|Hne].
    + rewrite (decide_True (P := name ∈ name :: l /\ _)) by (split; [by left|done]). by case_decide.
    + apply decide_ext. rewrite elem_of_cons. naive_solver.
Qed.
(** [C18] The header of a packet that is printed is read back line by line: every field has the value it had, for a request or a reply
    with a hardware address of six bytes and without server name and file, which are not read. *)
Theorem header_read_back p : printable p -> exists lines q, header_lines p = Ret lines /\ add_lines lines new_packet = (Ret tt, q) /\
  forall name, is_Some (DhcpFields !! name) -> GetOption q name = GetOption p name.
Proof.
  intros Hp. destruct (field_lines_read p printed_fields Hp) as (lines & Hl & Hadd); [by apply Forall_forall|].
  assert (Hop : exists a name, GetOption p "op" = [a] /\ assoc DhcpFieldsName_op (py_str a) = Some name /\ _OptionsToBinary (lit "op") (lit name ++ [10]) = Ret (Some [a])).
  { pose proof (pr_op p Hp) as Ho. repeat (apply elem_of_cons in Ho as [->|Ho]; [by do 2 eexists|]). by apply elem_of_nil in Ho. }
  destruct Hop as (a & name & Ha & Hn & Hbin). unfold header_lines. rewrite Ha. change (py_index [a] 0) with (Ret a). cbn [res_bind]. rewrite Hn. cbn [of_option res_bind]. rewrite Hl.
  assert (Hnew : header_ok new_packet) by (by split).
  destruct (add_field "op" (lit name) [a] 0 1 new_packet) as (q1 & Hq1 & Hok1 & Hg1); try done.
  destruct (Hadd q1 Hok1) as (q & Hq & _ & Hg). do 2 eexists. split; [reflexivity|]. split.
  - cbn [add_lines]. unfold pm_bind at 1. change (AddLine (lit "# Header fields" ++ [10]) new_packet) with (Ret tt : res unit, new_packet). cbn iota. unfold pm_bind at 1. by rewrite Hq1.
  - intros n Hsome. rewrite Hg, Hg1. destruct (decide (n ∈ unread)) as [Hu|Hu].
    + rewrite decide_False by naive_solver. unfold unread in Hu. apply elem_of_cons in Hu as [->|Hu]; [by rewrite (pr_sname p Hp)|].
      apply list_elem_of_singleton in Hu as ->. by rewrite (pr_file p Hp).
    + case_decide as Hd; [done|]. destruct (decide (n = "op")) as [->|Hne]; [done|]. exfalso. apply Hd. split; [|done].
      destruct Hsome as [f Hf]. apply field_in, (list_elem_of_fmap_2 fst) in Hf.
      change (DhcpFields_list.*1) with ("op" :: printed_fields) in Hf. by apply elem_of_cons in Hf as [?|?].
Qed.
Definition demo_reply : dpacket :=
  DPacket ([2; 1; 6; 0; 222; 173; 190; 239; 0; 4; 128; 0] ++ [10; 0; 0; 1; 10; 0; 0; 2; 10; 0; 0; 3; 0; 0; 0; 0] ++ [0; 22; 62; 171; 205; 239] ++ py_repeat 0 10 ++ py_repeat 0 192 ++ MagicCookie) ∅.
Lemma header_read_back_witness : exists lines q, header_lines demo_reply = Ret lines /\ add_lines lines new_packet = (Ret tt, q) /\ GetOption q "chaddr" = [0; 22; 62; 171; 205; 239] ++ py_repeat 0 10.
Proof.
  destruct (header_read_back demo_reply) as (lines & q & Hl & Hq & Hg).
  - split; [by split|by apply (bool_decide_unpack _); vm_compute|apply (bool_decide_unpack _); by vm_compute|by vm_compute..].
  - exists lines, q. split; [done|]. split; [done|]. rewrite Hg by (by eexists). by vm_compute.
Defined.

(** * What is not read back *)

(** A number of 16 bits is printed from its first byte alone. *)
Lemma sixteen_bits_printed a b : option_text "interface_mtu" [a; b] = Ret (py_str (a * 257)).
Proof.
  unfold option_text. change (DhcpOptions !! "interface_mtu") with (Some 26). cbn [of_option res_bind]. decide_names. change (DhcpOptionsTypes !! 26) with (Some "16-bits"). cbn [of_option res_bind]. decide_names.
  change (py_index [a; b] 0) with (Ret a). cbn [res_bind]. by replace (a * 256 + a) with (a * 257) by lia.
Qed.
(** The message type is looked up with the end of its line: it is dropped. *)
Lemma message_type_dropped : (AddLine (line_of "dhcp_message_type" (lit "DHCP_DISCOVER")) new_packet) = (Ret tt, new_packet).
Proof. by vm_compute. Qed.
(** A list of addresses is printed with dashes and read with commas: reading raises. *)
Lemma address_list_unreadable : exists t, option_text "router" [10; 0; 0; 1] = Ret t /\ (AddLine (line_of "router" t) new_packet).1 = Raise ValueError.
Proof. eexists. split; by vm_compute. Qed.
(** A hardware address with a character that is not hexadecimal is not replaced by zeros. *)
Lemma bad_mac_raises : (AddLine (line_of "chaddr" (lit "00:16:3e:zz:00:01")) new_packet).1 = Raise TypeError.
Proof. by vm_compute. Qed.
(** An option of node type that was received cannot be printed: its name is not in the other table. *)
Lemma node_type_unprintable : option_text "nd_node_type" [8] = Raise KeyError.
Proof. by vm_compute. Qed.
(** Numbers of 32 bits and single addresses are. *)
Lemma word_options_read a b c d e : byte_ok a -> byte_ok b -> byte_ok c -> byte_ok d -> line_end e ->
  typed_value "32-bits" (py_str (ip_value a b c d) ++ e) = Ret (Some [a; b; c; d]) /\ typed_value "ipv4" (_NumlistToString [a; b; c; d] ++ e) = Ret (Some [a; b; c; d]).
Proof.
  intros Ha Hb Hc Hd He. unfold typed_value. decide_names. split.
  - rewrite py_int_end by (done || unfold byte_ok, ip_value in *; lia). cbn [false_on_value_error]. by rewrite long_numlist.
  - by rewrite dotted_ints.
Qed.
