(* ===== verification/Filters.v ===== *)
(** Model of [lophi_analysis/analysis_filter.py]: filters that learn from analyses of
    clean machines which events are noise, and remove it from the results of others.
    Python's dictionaries are finite maps; where the order of an iteration shows, it is a
    parameter. *)
From S2P Require Import Prelude PyString.

(** * [DiskFilter] *)

(** [(operation, filename, inode)] *)
Definition devent : Type := bytes * bytes * Z.
Record dfilter := DFilter { d_occurrences : gmap devent Z; d_analyses : Z }.

Definition new_disk_filter (filter_dict : option (gmap devent Z)) : dfilter :=
  DFilter (default ∅ filter_dict) 0.
(** [results_dict] is iterated by its keys. *)
Definition disk_add (results : list devent) (f : dfilter) : dfilter :=
  DFilter (foldl (fun d e => <[e := default 0 (d !! e) + 1]> d) (d_occurrences f) results) (d_analyses f + 1).
(** The numbers printed: events kept and events in all *)
Definition disk_adjust (threshold : Z) : PM dfilter (option (Z * Z)) := fun f =>
  if (threshold <? 0) || (d_analyses f <? threshold) then (Ret None, f) else
  let removed := filter (fun ec => ec.2 < threshold) (d_occurrences f) in
  let f' := DFilter (filter (fun ec => ~ ec.2 < threshold) (d_occurrences f)) (d_analyses f) in
  let total := Z.of_nat (size (d_occurrences f')) in
  if total =? 0 then (Ret None, f')
  else if d_analyses f =? 0 then (Raise ZeroDivisionError, f')
  else (Ret (Some (total - Z.of_nat (size removed), total)), f').
Definition disk_apply {V} (f : dfilter) (results : gmap devent V) (use_inodes : bool) : gmap devent V :=
  if use_inodes then filter (fun ev => d_occurrences f !! ev.1 = None) results
  else
    let no_inodes : gset (bytes * bytes) := list_to_set ((fun ec => ec.1.1) <$> map_to_list (d_occurrences f)) in
    filter (fun ev => ev.1.1 ∉ no_inodes) results.

(** * [MemoryFilter] *)

(** An entry of a plugin's output: a line, a number, or a tuple or list of columns *)
Inductive cell := CStr (s : bytes) | CInt (z : Z).
Inductive entry := EStr (s : bytes) | EInt (z : Z) | ETuple (l : list cell) | EList (l : list cell).
(** What remains of a line when the fields that change are left out *)
Inductive key := KStr (s : bytes) | KTuple (l : list bytes) | KNone.
(** What the filter counts: entries, or keys with the number of their lines *)
Inductive fkey := FEntry (e : entry) | FKey (k : key) (n : Z).
#[global] Instance cell_eq_dec : EqDecision cell.
Proof. solve_decision. Defined.
#[global] Instance cell_countable : Countable cell.
Proof.
  refine (inj_countable' (fun c => match c with CStr s => inl s | CInt z => inr z end)
    (fun x => match x with inl s => CStr s | inr z => CInt z end) _).
  by intros [].
Defined.
#[global] Instance entry_eq_dec : EqDecision entry.
Proof. solve_decision. Defined.
#[global] Instance entry_countable : Countable entry.
Proof.
  refine (inj_countable' (fun e => match e with EStr s => inl (inl s) | EInt z => inl (inr z) | ETuple l => inr (inl l) | EList l => inr (inr l) end)
    (fun x => match x with inl (inl s) => EStr s | inl (inr z) => EInt z | inr (inl l) => ETuple l | inr (inr l) => EList l end) _).
  by intros [].
Defined.
#[global] Instance key_eq_dec : EqDecision key.
Proof. solve_decision. Defined.
#[global] Instance key_countable : Countable key.
Proof.
  refine (inj_countable' (fun k => match k with KStr s => inl (inl s) | KTuple l => inl (inr l) | KNone => inr tt end)
    (fun x => match x with inl (inl s) => KStr s | inl (inr l) => KTuple l | inr _ => KNone end) _).
  by intros [].
Defined.
#[global] Instance fkey_eq_dec : EqDecision fkey.
Proof. solve_decision. Defined.
#[global] Instance fkey_countable : Countable fkey.
Proof.
  refine (inj_countable' (fun k => match k with FEntry e => inl e | FKey k n => inr (k, n) end)
    (fun x => match x with inl e => FEntry e | inr (k, n) => FKey k n end) _).
  by intros [].
Defined.

Abbreviation counts := (gmap fkey Z).
Record mfilter := MFilter { occurrences_dict : gmap bytes (gmap bytes counts); num_analyses : Z }.
Definition set_occurrences x (f : mfilter) : mfilter := MFilter x (num_analyses f).

(** The output of a plugin: lines by category, or the message of an error *)
Inductive presult := PDict (d : list (bytes * list entry)) | PError (msg : bytes).
Abbreviation results := (list (bytes * presult)).

Section memory.
(** [tcpip_vtypes.TCP_STATE_ENUM.values()] *)
Context (tcp_states : list bytes).

(** ** Keys *)

(** The text of an entry that is sliced first, and of one that is split: a number has no slices, and what is no
    string has no [split] and no [strip]. *)
Definition sliced (e : entry) : res bytes :=
  match e with EStr s => Ret s | EInt _ => Raise TypeError | _ => Raise AttributeError end.
Definition splits (e : entry) : res bytes := match e with EStr s => Ret s | _ => Raise AttributeError end.
Definition get_filescan_key (e : entry) : res key := let? e := sliced e in Ret (KStr (strip (slice_from e 40))).
Definition get_ldrmodules_key (e : entry) : res key :=
  let? e := sliced e in
  if bool_decide (length (words (slice_to e 69) []) = 6%nat)
  then Ret (KStr (strip (slice_from e 69))) else Raise ValueError.
Definition get_psscan_key (e : entry) : res key := let? e := sliced e in Ret (KStr (strip (slice e 19 33))).
Definition get_timers_key (e : entry) : res key :=
  let? e := splits e in
  match words e [] with
  | [offset; duetime; period; signaled; routine; module_] => Ret (KStr module_)
  | _ => Raise ValueError
  end.
Definition get_envars_key (e : entry) : res key :=
  let? e := splits e in
  let split_var := words e [] in
  let? v := py_index split_var 3 in
  Ret (KTuple [v; concat (slice_from split_var 4)]).
Definition before_colon (s : bytes) : bytes := default [] (head (split_on 58 s [])).
Definition get_netscan_key (e : entry) : res key :=
  let? e := splits e in
  let split_var := words e [] in
  let? s := py_index split_var 4 in
  let state := if bool_decide (s ∈ tcp_states) then s else lit "N/A" in
  let? proto := py_index split_var 1 in
  let? local := py_index split_var 2 in
  let? foreign := py_index split_var 3 in
  Ret (KTuple [proto; before_colon local; before_colon foreign; state]).
(** Seven columns pass the test, and the eighth is read. *)
Definition get_psxview_key (e : entry) : res key :=
  let? e := sliced e in
  let str1 := strip (slice e 19 42) in
  let split_var1 := words str1 [] in
  let split_var2 := words (slice_from e 42) [] in
  if bool_decide (split_var1 = []) || bool_decide (split_var2 = []) then Ret KNone
  else if zlen split_var2 <? 7 then Ret (KTuple [str1; lit "ERROR"])
  else
    let? c1 := py_index split_var2 1 in
    let? c2 := py_index split_var2 2 in
    let? c3 := py_index split_var2 3 in
    let? c4 := py_index split_var2 4 in
    let? c5 := py_index split_var2 5 in
    let? c6 := py_index split_var2 6 in
    let? c7 := py_index split_var2 7 in
    Ret (KTuple [str1; c1; c2; c3; c4; c5; c6; c7]).

(** [SPECIAL_PLUGINS_KEY] *)
Definition special (plugin : bytes) : option (entry -> res key) :=
  if bool_decide (plugin = lit "filescan") then Some get_filescan_key
  else if bool_decide (plugin = lit "ldrmodules") then Some get_ldrmodules_key
  else if bool_decide (plugin = lit "psscan") then Some get_psscan_key
  else if bool_decide (plugin = lit "timers") then Some get_timers_key
  else if bool_decide (plugin = lit "envars") then Some get_envars_key
  else if bool_decide (plugin = lit "netscan") then Some get_netscan_key
  else if bool_decide (plugin = lit "psxview") then Some get_psxview_key
  else None.
(** ** Learning *)

Fixpoint count_keys (getkey : entry -> res key) (es : list entry) (tmp : gmap key Z) : res (gmap key Z) :=
  match es with
  | [] => Ret tmp
  | e :: es => let? k := getkey e in count_keys getkey es (<[k := default 0 (tmp !! k) + 1]> tmp)
  end.
(** The entries of [ret_dict] *)
Fixpoint add_special_plugin (getkey : entry -> res key) (d : list (bytes * list entry)) : res (list (bytes * list fkey)) :=
  match d with
  | [] => Ret []
  | (category, es) :: d =>
      let? tmp := count_keys getkey es ∅ in
      let? rest := add_special_plugin getkey d in
      Ret ((category, (fun kn => FKey kn.1 kn.2) <$> map_to_list tmp) :: rest)
  end.
(** [' '.join(entry)] of a list takes strings only. *)
Fixpoint cell_texts (l : list cell) : res (list bytes) :=
  match l with
  | [] => Ret []
  | CStr s :: l => let? t := cell_texts l in Ret (s :: t)
  | CInt _ :: _ => Raise TypeError
  end.
(** What is counted for an entry: a list becomes a string. *)
Definition counted (e : fkey) : res fkey :=
  match e with
  | FEntry (EList l) => let? t := cell_texts l in Ret (FEntry (EStr (join [32] t)))
  | _ => Ret e
  end.
(** An entry that cannot be counted leaves what was counted before it. *)
Fixpoint count_entries (es : list fkey) (c : counts) : res unit * counts :=
  match es with
  | [] => (Ret tt, c)
  | e :: es =>
      match counted e with
      | Ret e => count_entries es (<[e := default 0 (c !! e) + 1]> c)
      | Raise x => (Raise x, c)
      end
  end.
Fixpoint add_categories (d : list (bytes * list fkey)) (pf : gmap bytes counts) : res unit * gmap bytes counts :=
  match d with
  | [] => (Ret tt, pf)
  | (category, es) :: d =>
      let (r, c) := count_entries es (default ∅ (pf !! category)) in
      match r with
      | Ret _ => add_categories d (<[category := c]> pf)
      | Raise x => (Raise x, <[category := c]> pf)
      end
  end.
Definition add_plugin (plugin : bytes) (r : presult) : PM mfilter unit :=
  pm_modify (fun f => match occurrences_dict f !! plugin with
                      | Some _ => f
                      | None => set_occurrences (<[plugin := ∅]> (occurrences_dict f)) f
                      end) ;!
  match r with
  | PError _ => pm_ret tt
  | PDict d =>
      let! ret_dict := pm_lift match special plugin with
                               | Some getkey => add_special_plugin getkey d
                               | None => Ret ((fun ce : bytes * list entry => (ce.1, FEntry <$> ce.2)) <$> d)
                               end in
      fun f =>
        let (r, pf) := add_categories ret_dict (default ∅ (occurrences_dict f !! plugin)) in
        (r, set_occurrences (<[plugin := pf]> (occurrences_dict f)) f)
  end.
Fixpoint add_plugins (rs : results) : PM mfilter unit :=
  match rs with
  | [] => pm_ret tt
  | (plugin, r) :: rs => add_plugin plugin r ;! add_plugins rs
  end.
Definition add_analysis (rs : results) : PM mfilter unit :=
  add_plugins rs ;! pm_modify (fun f => MFilter (occurrences_dict f) (num_analyses f + 1)).
Definition new_memory_filter (filter_dict : option (gmap bytes (gmap bytes counts))) : mfilter :=
  MFilter (default ∅ filter_dict) 0.

(** ** Adjusting *)

(** The order in which Python iterates over the counts of a category *)
Context (items : counts -> list (fkey * Z)).

(** [(k, count) = entry] for what is no key.  (A string or tuple of two can be unpacked; filters have none here, see
    [learned_filter_typed].) *)
Definition no_pair (e : entry) : pyexc := match e with EInt _ => TypeError | _ => ValueError end.
(** For each key the numbers of its lines and in how many analyses: an entry adds to the
    smaller numbers that have been met before it. *)
Fixpoint tally (es : list (fkey * Z)) (entry_dict : gmap key (gmap Z Z)) : res (gmap key (gmap Z Z)) :=
  match es with
  | [] => Ret entry_dict
  | (FEntry e, _) :: _ => Raise (no_pair e)
  | (FKey k count, analyses_count) :: es =>
      let inner := default ∅ (entry_dict !! k) in
      let inner := map_imap (fun c a => Some (if c <? count then a + analyses_count else a)) inner in
      tally es (<[k := <[count := analyses_count]> inner]> entry_dict)
  end.
(** The highest number that passes the threshold *)
Definition pick (threshold : Z) (inner : gmap Z Z) : Z * Z :=
  foldl (fun best ca => if (threshold <=? ca.2) && (best.1 <? ca.1) then ca else best) (-1, -1) (map_to_list inner).
Definition adjusted (threshold : Z) (entry_dict : gmap key (gmap Z Z)) : counts :=
  foldl (fun d kc => let '(h, a) := pick threshold kc.2 in if 0 <? h then <[FKey kc.1 h := a]> d else d)
    ∅ (map_to_list entry_dict).
Definition adjust_category (n threshold : Z) (c : counts) : res counts :=
  let? entry_dict := tally (items c) ∅ in
  if bool_decide (c = ∅) then Ret c
  else if n =? 0 then Raise ZeroDivisionError
  else Ret (adjusted threshold entry_dict).
Fixpoint adjust_categories (n threshold : Z) (cs : list (bytes * counts)) (pf : gmap bytes counts) : res unit * gmap bytes counts :=
  match cs with
  | [] => (Ret tt, pf)
  | (category, c) :: cs =>
      match adjust_category n threshold c with
      | Ret c' => adjust_categories n threshold cs (<[category := c']> pf)
      | Raise e => (Raise e, pf)
      end
  end.
Fixpoint adjust_plugins (threshold : Z) (ps : list (bytes * gmap bytes counts)) : PM mfilter unit :=
  match ps with
  | [] => pm_ret tt
  | (plugin, pf) :: ps => fun f =>
      match special plugin with
      | None => adjust_plugins threshold ps f
      | Some _ =>
          let (r, pf') := adjust_categories (num_analyses f) threshold (map_to_list pf) pf in
          let f' := set_occurrences (<[plugin := pf']> (occurrences_dict f)) f in
          match r with
          | Ret _ => adjust_plugins threshold ps f'
          | Raise e => (Raise e, f')
          end
      end
  end.
Definition adjust_filter (threshold : Z) : PM mfilter unit := fun f =>
  if (threshold <? 0) || (num_analyses f <? threshold) then (Ret tt, f)
  else adjust_plugins threshold (map_to_list (occurrences_dict f)) f.

(** ** Applying *)

(** [set(entries)]: a list cannot be an element. *)
Fixpoint entry_set (es : list entry) : res (gset entry) :=
  match es with
  | [] => Ret ∅
  | EList _ :: _ => Raise TypeError
  | e :: es => let? t := entry_set es in Ret ({[e]} ∪ t)
  end.
(** The entries with the key, in the order of the set *)
Fixpoint matching (getkey : entry -> res key) (k : key) (es : list entry) : res (list entry) :=
  match es with
  | [] => Ret []
  | e :: es =>
      let? k' := getkey e in
      let? rest := matching getkey k es in
      Ret (if bool_decide (k = k') then e :: rest else rest)
  end.
Fixpoint apply_special (getkey : entry -> res key) (fs : list fkey) (filtered : gset entry) : res (gset entry) :=
  match fs with
  | [] => Ret filtered
  | FEntry e :: _ => Raise (no_pair e)
  | FKey k count :: fs =>
      let? to_remove := matching getkey k (elements filtered) in
      apply_special getkey fs
        (if zlen to_remove <=? count then filtered ∖ list_to_set to_remove else filtered)
  end.
Definition apply_plain (fs : list fkey) (filtered : gset entry) : gset entry :=
  foldl (fun t e => match e with FEntry e => t ∖ {[e]} | FKey _ _ => t end) filtered fs.
Definition apply_category (plugin : bytes) (c : counts) (es : list entry) : res (list entry) :=
  let? filtered := entry_set es in
  let fs := (items c).*1 in
  let? t := match special plugin with
            | Some getkey => apply_special getkey fs filtered
            | None => Ret (apply_plain fs filtered)
            end in
  Ret (elements t).
Fixpoint apply_categories (plugin : bytes) (pf : gmap bytes counts) (d : list (bytes * list entry)) :
    res (list (bytes * list entry)) :=
  match d with
  | [] => Ret []
  | (category, es) :: d =>
      let? es' := match pf !! category with None => Ret es | Some c => apply_category plugin c es end in
      let? d' := apply_categories plugin pf d in
      Ret ((category, es') :: d')
  end.
(** The message of a failed plugin is iterated by its letters. *)
Definition apply_plugin (f : mfilter) (plugin : bytes) (r : presult) : res presult :=
  match occurrences_dict f !! plugin with
  | None => Ret r
  | Some pf =>
      match r with
      | PDict d => let? d' := apply_categories plugin pf d in Ret (PDict d')
      | PError msg => if existsb (fun c => bool_decide (is_Some (pf !! [c]))) msg then Raise TypeError else Ret r
      end
  end.
Fixpoint apply_filter (f : mfilter) (rs : results) : res results :=
  match rs with
  | [] => Ret []
  | (plugin, r) :: rs =>
      let? r' := apply_plugin f plugin r in
      let? rs' := apply_filter f rs in
      Ret ((plugin, r') :: rs')
  end.
End memory.
