(* ===== verification/FiltersTheorems.v ===== *)
(** Theorems on the noise filters: what a trained disk filter removes, what the memory
    filter removes, how a threshold is applied, and where the order of a dictionary
    shows. *)
From S2P Require Import Prelude PyString Filters.

(** * Disk events *)

(** In how many analyses an event occurred *)
Definition occurrences (e : devent) (analyses : list (list devent)) : Z :=
  Z.of_nat (length (filter (fun a => e ∈ a) analyses)).
Definition trained (analyses : list (list devent)) : dfilter :=
  foldl (fun f a => disk_add a f) (new_disk_filter None) analyses.

Lemma count_events es : forall (d : gmap devent Z) e, NoDup es ->
  foldl (fun d e => <[e := default 0 (d !! e) + 1]> d) d es !! e
  = if decide (e ∈ es) then Some (default 0 (d !! e) + 1) else d !! e.
Proof.
  induction es as [|x es IH]; intros d e Hnd; [done|]. apply NoDup_cons in Hnd as [Hx Hnd]. cbn [foldl].
  rewrite IH by done. destruct (decide (x = e)) as [->|Hne].
  - rewrite (decide_False (P := e ∈ es)) by done. rewrite decide_True by set_solver. apply lookup_insert_eq.
  - rewrite lookup_insert_ne by done. destruct (decide (e ∈ es)), (decide (e ∈ x :: es)); set_solver.
Qed.
Lemma trained_spec analyses : Forall NoDup analyses ->
  d_analyses (trained analyses) = Z.of_nat (length analyses) /\
  forall e, d_occurrences (trained analyses) !! e
    = if decide (occurrences e analyses = 0) then None else Some (occurrences e analyses).
Proof.
  induction analyses as [|a analyses IH] using rev_ind; intros Hnd; [done|].
  apply Forall_app in Hnd as [Hnd Ha]. apply Forall_cons in Ha as [Ha _]. destruct (IH Hnd) as [IH1 IH2].
  unfold trained in *. rewrite foldl_snoc. cbn [disk_add d_analyses d_occurrences].
  split; [rewrite IH1, length_app; cbn; lia|]. intros e. rewrite count_events, IH2 by done.
  unfold occurrences. rewrite filter_app, length_app, filter_cons, filter_nil.
  destruct (decide (e ∈ a)); cbn [length]; repeat case_decide; cbn [default from_option id] in *; try lia; f_equal; lia.
Qed.

(** What a trained disk filter removes: after any analyses and an adjustment to a
    threshold within their number, exactly the events that occurred in at least that many
    of them (and in one at least) are removed from the results. *)
Theorem disk_filter_removes {V} (analyses : list (list devent)) (threshold : Z) (results : gmap devent V) :
  Forall NoDup analyses -> 0 <= threshold <= Z.of_nat (length analyses) ->
  exists r f, disk_adjust threshold (trained analyses) = (Ret r, f) /\
    forall e, disk_apply f results true !! e
      = if decide (Z.max 1 threshold <= occurrences e analyses) then None else results !! e.
Proof.
  intros Hnd Ht. destruct (trained_spec analyses Hnd) as [Hn Ho]. unfold disk_adjust.
  rewrite Hn, (proj2 (Z.ltb_ge _ _)), (proj2 (Z.ltb_ge _ _)) by lia. cbn [orb d_occurrences].
  set (f := DFilter _ _).
  assert (forall e, disk_apply f results true !! e
    = if decide (Z.max 1 threshold <= occurrences e analyses) then None else results !! e) as Hf.
  { intros e. assert (d_occurrences f !! e = None <-> ~ Z.max 1 threshold <= occurrences e analyses) as Hnone.
    { cbn [f d_occurrences]. rewrite map_lookup_filter_None, Ho.
      assert (0 <= occurrences e analyses) by (unfold occurrences; lia).
      case_decide; split; [lia|by left| |right; intros ? [= <-]; cbn; lia].
      intros [?|H3]; [done|]. specialize (H3 _ eq_refl). cbn in H3. lia. }
    cbn [disk_apply]. destruct (results !! e) as [v|] eqn:Er; case_decide as Hd.
    - apply map_lookup_filter_None. right. intros x _ Hx. cbn in Hx. tauto.
    - apply map_lookup_filter_Some. cbn. tauto.
    - apply map_lookup_filter_None. by left.
    - apply map_lookup_filter_None. by left. }
  destruct (_ =? 0) eqn:E0; [by eexists _, f|]. destruct (Z.of_nat (length analyses) =? 0) eqn:E1; [|by eexists _, f].
  exfalso. apply Z.eqb_eq in E1. destruct analyses; [|cbn in E1; lia]. by vm_compute in E0.
Qed.

(** * Lines of memory plugins *)

Section keys.
Context (getkey : entry -> res key) (kappa : entry -> key).

(** The different lines with a key *)
Definition lines (k : key) (t : gset entry) : Z := Z.of_nat (size (filter (fun s => kappa s = k) t)).
Definition keyed (t : gset entry) : Prop := forall s, s ∈ t -> getkey s = Ret (kappa s).

Lemma matching_spec k es : (forall s, s ∈ es -> getkey s = Ret (kappa s)) ->
  matching getkey k es = Ret (filter (fun s => kappa s = k) es).
Proof.
  induction es as [|s es IH]; intros Hk; [done|]. cbn [matching]. rewrite Hk by left. cbn [res_bind].
  rewrite IH by (intros; apply Hk; by right). cbn [res_bind]. rewrite filter_cons.
  destruct (decide (kappa s = k)) as [E|E]; [rewrite bool_decide_eq_true_2|rewrite bool_decide_eq_false_2]; congruence.
Qed.
Lemma lines_elements k t : zlen (filter (fun s => kappa s = k) (elements t)) = lines k t.
Proof.
  unfold lines, zlen. f_equal. rewrite <- (size_list_to_set (C := gset entry)).
  - done.
  - apply NoDup_filter, NoDup_elements.
Qed.

(** One filter entry takes away all lines of a key, or none. *)
Lemma apply_special_spec fs : forall t, keyed t -> Forall (fun e => exists k n, e = FKey k n) fs ->
  exists t', apply_special getkey fs t = Ret t' /\
    forall s, s ∈ t' <-> s ∈ t /\ ~ exists n, FKey (kappa s) n ∈ fs /\ lines (kappa s) t <= n.
Proof.
  induction fs as [|e fs IH]; intros t Hk Hfs.
  { exists t. split; [done|]. intros s. set_solver. }
  apply Forall_cons in Hfs as [(k & c & ->) Hfs]. cbn [apply_special].
  rewrite matching_spec by (intros s Hs%elem_of_elements; by apply Hk). cbn [res_bind]. rewrite lines_elements.
  destruct (Z.leb_spec (lines k t) c) as [Hle|Hgt].
  - set (t1 := t ∖ _). assert (forall s, s ∈ t1 <-> s ∈ t /\ kappa s <> k) as Ht1.
    { intros s. subst t1. rewrite elem_of_difference, elem_of_list_to_set, list_elem_of_filter, elem_of_elements. tauto. }
    destruct (IH t1) as (t' & E & Ht'); [intros s [Hs _]%Ht1; by apply Hk|done|]. exists t'. split; [done|].
    assert (forall k', k' <> k -> lines k' t1 = lines k' t) as Hlines.
    { intros k' Hne. unfold lines. do 2 f_equal. apply leibniz_equiv. intros s. rewrite !elem_of_filter, Ht1. naive_solver. }
    intros s. rewrite Ht', Ht1. split.
    + intros [[Hs Hne] Hno]. split; [done|]. intros (n & [[= E1 E2]|Hin]%elem_of_cons & Hn); [congruence|].
      apply Hno. exists n. by rewrite Hlines.
    + intros [Hs Hno]. assert (kappa s <> k) as Hne.
      { intros <-. apply Hno. exists c. split; [by left|done]. }
      split; [done|]. intros (n & Hin & Hn). apply Hno. exists n. rewrite Hlines in Hn by done. split; [by right|done].
  - destruct (IH t Hk Hfs) as (t' & E & Ht'). exists t'. split; [done|]. intros s. rewrite Ht'. split.
    + intros [Hs Hno]. split; [done|]. intros (n & [[= E1 E2]|Hin]%elem_of_cons & Hn); [subst; lia|]. apply Hno. by exists n.
    + intros [Hs Hno]. split; [done|]. intros (n & Hin & Hn). apply Hno. exists n. split; [by right|done].
Qed.
End keys.

Definition hashable (e : entry) : Prop := forall l, e <> EList l.
Lemma entry_set_spec es : Forall hashable es -> exists t, entry_set es = Ret t /\ forall e, e ∈ t <-> e ∈ es.
Proof.
  induction 1 as [|e es He _ (t & E & Ht)]; [exists ∅; set_solver|]. assert (entry_set (e :: es) = Ret ({[e]} ∪ t)) as ->.
  { cbn [entry_set]. rewrite E. destruct e; try done. by destruct (He l). }
  eexists. split; [done|]. intros x. rewrite elem_of_union, elem_of_singleton, Ht, elem_of_cons. done.
Qed.

(** The different entries of a category with a key *)
Definition category_lines (kappa : entry -> key) (k : key) (es : list entry) : Z := lines kappa k (list_to_set es).

(** What the memory filter removes from a plugin with changing fields: a line
    disappears exactly when the filter has seen its key at least as often as the key
    occurs among the different lines of the category; lines of keys that occur more often
    are all kept, and the order in which the filter is iterated does not show. *)
Theorem special_lines_removed tcp_states items plugin getkey kappa (c : counts) es :
  special tcp_states plugin = Some getkey -> (forall m, items m ≡ₚ map_to_list m) ->
  (forall e a, c !! e = Some a -> exists k n, e = FKey k n) ->
  Forall (fun e => hashable e /\ getkey e = Ret (kappa e)) es ->
  exists es', apply_category tcp_states items plugin c es = Ret es' /\ NoDup es' /\
    forall e, e ∈ es' <-> e ∈ es /\
      ~ exists n a, c !! FKey (kappa e) n = Some a /\ category_lines kappa (kappa e) es <= n.
Proof.
  intros Hsp Hit Hc Hes. unfold apply_category. rewrite Hsp.
  destruct (entry_set_spec es) as (t & E & Ht); [by eapply Forall_impl; [exact Hes|]; intros ? [? _]|].
  rewrite E. cbn [res_bind].
  assert (keyed getkey kappa t) as Hk.
  { intros s Hs%Ht. rewrite Forall_forall in Hes. by destruct (Hes _ Hs). }
  assert (forall e, e ∈ (items c).*1 <-> is_Some (c !! e)) as Hin.
  { intros e. rewrite list_elem_of_fmap, is_Some_alt. split.
    - intros ([e' a] & -> & H). rewrite Hit in H. apply elem_of_map_to_list in H. cbn. by rewrite H.
    - intros H. destruct (c !! e) as [a|] eqn:Ea; [|done]. exists (e, a). rewrite Hit. by rewrite elem_of_map_to_list. }
  destruct (apply_special_spec getkey kappa (items c).*1 t Hk) as (t' & -> & Ht').
  { apply Forall_forall. intros e [a Ha]%Hin. by eapply Hc. }
  cbn [res_bind]. eexists. split; [done|]. split; [apply NoDup_elements|].
  intros s. rewrite elem_of_elements, Ht', Ht.
  assert (lines kappa (kappa s) t = category_lines kappa (kappa s) es) as ->.
  { unfold category_lines. f_equal. apply leibniz_equiv. intros x. by rewrite Ht, elem_of_list_to_set. }
  split; intros [Hs Hno]; (split; [done|]).
  - intros (n & a & Ha & Hn). apply Hno. exists n. split; [|done]. apply Hin. by eexists.
  - intros (n & [a Ha]%Hin & Hn). apply Hno. by exists n, a.
Qed.

(** * Thresholds *)

(** Analyses with more than [n] lines of the key, among some entries *)
Fixpoint above (k : key) (n : Z) (es : list (fkey * Z)) : Z :=
  match es with
  | (FKey k' n', a) :: es => (if bool_decide (k' = k) && (n <? n') then a else 0) + above k n es
  | (FEntry _, _) :: es => above k n es
  | [] => 0
  end.
Definition val (ed : gmap key (gmap Z Z)) (k : key) (n : Z) : option Z := ed !! k ≫= fun inner => inner !! n.
Definition pairs (es : list (fkey * Z)) : Prop := Forall (fun ea => exists k n, ea.1 = FKey k n) es.

Lemma tally_step ed k n a k' n' :
  let inner := map_imap (fun c v => Some (if c <? n then v + a else v)) (default ∅ (ed !! k)) in
  val (<[k := <[n := a]> inner]> ed) k' n'
  = if decide (k' = k) then
      if decide (n' = n) then Some a else (fun v => if n' <? n then v + a else v) <$> val ed k n'
    else val ed k' n'.
Proof.
  cbv zeta. unfold val. case_decide as Hk; [subst k'; rewrite lookup_insert_eq|by rewrite lookup_insert_ne].
  cbn [mbind option_bind]. case_decide as Hn; [subst n'; apply lookup_insert_eq|]. rewrite lookup_insert_ne by done.
  rewrite map_lookup_imap. destruct (ed !! k) as [inner|]; cbn [default from_option id mbind option_bind fmap option_map];
    [by destruct (inner !! n')|by rewrite lookup_empty].
Qed.
(** What was counted before grows by the entries with more lines; a new entry starts with
    its own analyses. *)
Lemma tally_spec es : forall ed, NoDup es.*1 -> pairs es ->
  exists ed', tally es ed = Ret ed' /\
    (forall k n, FKey k n ∉ es.*1 -> val ed' k n = (fun v => v + above k n es) <$> val ed k n) /\
    (forall pre k n a post, es = pre ++ (FKey k n, a) :: post -> val ed' k n = Some (a + above k n post)).
Proof.
  induction es as [|[e a] es IH]; intros ed Hnd Hp.
  { exists ed. split; [done|]. split; [|by intros []]. intros k n _. cbn. destruct (val ed k n) as [v|]; cbn; [f_equal; lia|done]. }
  apply Forall_cons in Hp as [(k & n & He) Hp]. cbn in He. subst e.
  cbn [fmap list_fmap fst] in Hnd. apply NoDup_cons in Hnd as [Hnot Hnd]. cbn [tally].
  set (ed1 := <[k := _]> ed). pose proof (tally_step ed k n a) as Hstep. cbv zeta in Hstep. fold ed1 in Hstep.
  destruct (IH ed1 Hnd Hp) as (ed' & E & Hold & Hnew). exists ed'. split; [done|]. split.
  - intros k' n' Hk. cbn [fmap list_fmap fst] in Hk. apply not_elem_of_cons in Hk as [Hne Hk].
    rewrite Hold, Hstep by done. cbn [above fst]. case_decide as Hd.
    + subst k'. rewrite decide_False by congruence. rewrite bool_decide_eq_true_2 by done. cbn [andb].
      destruct (val ed k n') as [v|]; cbn; [|done]. f_equal. destruct (n' <? n); lia.
    + rewrite bool_decide_eq_false_2 by congruence. done.
  - intros [|x pre] k' n' a' post Heq; cbn [app] in Heq; simplify_eq.
    + rewrite Hold, Hstep, !decide_True by done. done.
    + by eapply Hnew.
Qed.

(** ** The highest number *)

Definition pick_list (threshold : Z) (best : Z * Z) (l : list (Z * Z)) : Z * Z :=
  foldl (fun best ca => if (threshold <=? ca.2) && (best.1 <? ca.1) then ca else best) best l.
Lemma pick_list_spec threshold l : forall best,
  let r := pick_list threshold best l in
  best.1 <= r.1 /\ (r = best \/ r ∈ l /\ threshold <= r.2 /\ best.1 < r.1) /\
  forall c v, (c, v) ∈ l -> threshold <= v -> c <= r.1.
Proof.
  induction l as [|[c v] l IH]; intros best; [cbn; split_and!; [lia|by left|intros ?? []%not_elem_of_nil]|].
  cbv zeta. change (pick_list threshold best ((c, v) :: l)) with
    (pick_list threshold (if (threshold <=? v) && (best.1 <? c) then (c, v) else best) l).
  destruct (_ && _) eqn:Hb.
  - apply andb_true_iff in Hb as [?%Z.leb_le ?%Z.ltb_lt]. destruct (IH (c, v)) as (H1 & H2 & H3). cbn [fst snd] in *.
    split_and!; [lia| |].
    + right. destruct H2 as [->|(H2 & H4 & H5)]; [split_and!; [left|done|done]|split_and!; [by right|done|lia]].
    + intros c' v' [[= -> ->]|Hin]%elem_of_cons Hv; [done|by eapply H3].
  - apply andb_false_iff in Hb. destruct (IH best) as (H1 & H2 & H3). split_and!; [done| |].
    + destruct H2 as [H2|(H2 & H4)]; [by left|right; split; [by right|done]].
    + intros c' v' [[= -> ->]|Hin]%elem_of_cons Hv; [|by eapply H3].
      destruct Hb as [?%Z.leb_gt|?%Z.ltb_ge]; lia.
Qed.
(** [(-1, -1)], or the greatest number of those that pass *)
Lemma pick_spec threshold inner h a :
  pick threshold inner = (h, a) -> 0 < h ->
  inner !! h = Some a /\ threshold <= a /\ forall n v, inner !! n = Some v -> threshold <= v -> n <= h.
Proof.
  intros Hp Hh. destruct (pick_list_spec threshold (map_to_list inner) (-1, -1)) as (_ & H2 & H3).
  change (pick_list threshold (-1, -1) (map_to_list inner)) with (pick threshold inner) in *. rewrite Hp in *. cbn [fst snd] in *.
  destruct H2 as [[= -> ->]|(H2 & H4 & _)]; [lia|]. apply elem_of_map_to_list in H2. split_and!; [done..|].
  intros n v Hn. apply (H3 n v). by apply elem_of_map_to_list.
Qed.
Lemma pick_complete threshold inner n v :
  inner !! n = Some v -> threshold <= v -> 0 < n -> exists h a, pick threshold inner = (h, a) /\ n <= h.
Proof.
  intros Hn Hv H0. destruct (pick_list_spec threshold (map_to_list inner) (-1, -1)) as (_ & _ & H3).
  change (pick_list threshold (-1, -1) (map_to_list inner)) with (pick threshold inner) in *.
  destruct (pick threshold inner) as [h a]. exists h, a. split; [done|]. apply (H3 n v); [|done]. by apply elem_of_map_to_list.
Qed.

(** ** What an adjusted filter contains *)

Lemma adjusted_list threshold (l : list (key * gmap Z Z)) : forall d : counts, NoDup l.*1 ->
  (forall k h, k ∈ l.*1 -> d !! FKey k h = None) ->
  forall k h a,
  foldl (fun (d : counts) kc => let '(h, a) := pick threshold kc.2 in if 0 <? h then <[FKey kc.1 h := a]> d else d) d l !! FKey k h = Some a <->
  d !! FKey k h = Some a \/ exists inner, (k, inner) ∈ l /\ pick threshold inner = (h, a) /\ 0 < h.
Proof.
  induction l as [|[k0 inner0] l IH]; intros d Hnd Hd k h a; [cbn; set_solver|].
  cbn [fmap list_fmap fst] in *. apply NoDup_cons in Hnd as [Hnot Hnd]. cbn [foldl fst snd].
  destruct (pick threshold inner0) as [h0 a0] eqn:Ep.
  set (d1 := if 0 <? h0 then _ else d).
  assert (forall k h a, d1 !! FKey k h = Some a <-> d !! FKey k h = Some a \/ (k = k0 /\ h = h0 /\ a = a0 /\ 0 < h0)) as Hd1.
  { intros k' h' a'. subst d1. destruct (Z.ltb_spec 0 h0); [|intuition lia].
    rewrite lookup_insert_Some. assert (d !! FKey k0 h0 = None) by (apply Hd; left). split.
    - intros [[[= <- <-] <-]|[_ ?]]; auto.
    - intros [H'|(-> & -> & -> & _)]; [right|by left]. split; [congruence|done]. }
  rewrite IH; [|done|].
  - rewrite Hd1. split.
    + intros [[?|(-> & -> & -> & ?)]|(inner & Hin & ?)]; [by left| |]; right; [exists inner0|exists inner]; (split; [|done]);
        [by left|by right].
    + intros [?|(inner & [[= -> ->]|Hin]%elem_of_cons & E & ?)]; [by left; left|left; right|right; by exists inner].
      rewrite Ep in E. by injection E as <- <-.
  - intros k' h' Hk. apply eq_None_not_Some. intros [a' [?|(-> & _)]%Hd1]; [|done].
    assert (d !! FKey k' h' = None) by (apply Hd; by right). congruence.
Qed.
Lemma adjusted_spec threshold ed k h a :
  adjusted threshold ed !! FKey k h = Some a <-> exists inner, ed !! k = Some inner /\ pick threshold inner = (h, a) /\ 0 < h.
Proof.
  unfold adjusted. rewrite adjusted_list; [|apply NoDup_fst_map_to_list|intros; apply lookup_empty].
  rewrite lookup_empty. split.
  - intros [?|(inner & H & ?)]; [done|]. exists inner. by apply elem_of_map_to_list in H.
  - intros (inner & H & ?). right. exists inner. by rewrite elem_of_map_to_list.
Qed.

(** In how many analyses a key had at least [n] lines *)
Fixpoint at_least (k : key) (n : Z) (es : list (fkey * Z)) : Z :=
  match es with
  | (FKey k' n', a) :: es => (if bool_decide (k' = k) && (n <=? n') then a else 0) + at_least k n es
  | (FEntry _, _) :: es => at_least k n es
  | [] => 0
  end.
Definition analyses_with (k : key) (n : Z) (c : counts) : Z := at_least k n (map_to_list c).

Lemma at_least_perm k n es es' : es ≡ₚ es' -> at_least k n es = at_least k n es'.
Proof. induction 1 as [|[[s|k' n'] a] ? ? _ IH|[[s|k1 n1] a] [[s'|k2 n2] b] ?|]; cbn [at_least]; lia. Qed.
Lemma at_least_app k n es es' : at_least k n (es ++ es') = at_least k n es + at_least k n es'.
Proof. induction es as [|[[s|k' n'] a] es IH]; cbn [app at_least]; lia. Qed.
Lemma at_least_above k n es : FKey k n ∉ es.*1 -> at_least k n es = above k n es.
Proof.
  induction es as [|[[s|k' n'] a] es IH]; intros Hn; cbn [at_least above]; [done| |];
    cbn [fmap list_fmap fst] in Hn; apply not_elem_of_cons in Hn as [Hne Hn]; rewrite IH by done; [done|].
  f_equal. case_bool_decide; [|done]. cbn [andb]. subst k'. destruct (Z.leb_spec n n'), (Z.ltb_spec n n'); try lia.
  assert (n' = n) by lia. congruence.
Qed.
Lemma above_nonneg k n es : Forall (fun ea => 0 <= ea.2) es -> 0 <= above k n es.
Proof.
  induction 1 as [|[[s|k' n'] a] es Ha _ IH]; cbn [above]; [lia|lia|]. cbn [snd] in Ha. destruct (_ && _); lia.
Qed.
Lemma above_zero k n es : (forall n' a, (FKey k n', a) ∈ es -> n' < n) -> above k n es = 0.
Proof.
  induction es as [|[[s|k' n'] a] es IH]; intros H; cbn [above]; [done|apply IH; intros; eapply H; by right|].
  rewrite IH by (intros; eapply H; by right). case_bool_decide as Hk; [|done]. cbn [andb]. subst k'.
  specialize (H n' a ltac:(left)). destruct (Z.ltb_spec n n'); [lia|done].
Qed.

Section adjusting.
Context (items : counts -> list (fkey * Z)) (n : Z) (c : counts).
Hypothesis items_perm : items c ≡ₚ map_to_list c.
Hypothesis typed : forall e a, c !! e = Some a -> 0 <= a /\ exists k n, e = FKey k n.
Hypothesis analysed : n <> 0.

Lemma items_lookup e a : (e, a) ∈ items c <-> c !! e = Some a.
Proof. by rewrite items_perm, elem_of_map_to_list. Qed.
Lemma items_nodup : NoDup (items c).*1.
Proof. rewrite items_perm. apply NoDup_fst_map_to_list. Qed.
Lemma items_split k h a pre post : items c = pre ++ (FKey k h, a) :: post ->
  analyses_with k h c = a + above k h pre + above k h post.
Proof.
  intros E. pose proof items_nodup as Hnd. unfold analyses_with. rewrite <- (at_least_perm k h _ _ items_perm).
  rewrite E in *. rewrite fmap_app in Hnd. cbn [fmap list_fmap fst] in Hnd.
  apply NoDup_app in Hnd as (_ & Hdis & Hpost). apply NoDup_cons in Hpost as [Hpost _].
  rewrite at_least_app. cbn [at_least]. rewrite bool_decide_eq_true_2, Z.leb_refl by done. cbn [andb].
  rewrite !at_least_above; [lia|done|]. intros H. apply (Hdis _ H). left.
Qed.

(** The adjusted category, by the position of each entry in the iteration *)
Lemma adjust_category_spec threshold :
  exists c', adjust_category items n threshold c = Ret c' /\
    (c <> ∅ -> forall k h a, c' !! FKey k h = Some a <->
      0 < h /\ threshold <= a /\
      (exists pre b post, items c = pre ++ (FKey k h, b) :: post /\ a = b + above k h post) /\
      forall pre h' b post, items c = pre ++ (FKey k h', b) :: post -> threshold <= b + above k h' post -> h' <= h).
Proof.
  destruct (tally_spec (items c) ∅ items_nodup) as (ed & E & Hold & Hnew).
  { apply Forall_forall. intros [e a] H%items_lookup. by apply typed in H as [_ H]. }
  unfold adjust_category. rewrite E. cbn [res_bind]. case_bool_decide as Hc; [by exists c|].
  rewrite (proj2 (Z.eqb_neq _ _)) by done. eexists. split; [done|]. intros _ k h a. rewrite adjusted_spec.
  assert (forall h v, val ed k h = Some v <-> exists pre b post, items c = pre ++ (FKey k h, b) :: post /\ v = b + above k h post) as Hval.
  { intros h' v. split.
    - intros Hv. destruct (decide (FKey k h' ∈ (items c).*1)) as [Hin|Hin].
      + apply list_elem_of_fmap in Hin as ([e b] & Heq & Hin). cbn in Heq. subst e. apply list_elem_of_split in Hin as (pre & post & Hs).
        exists pre, b, post. split; [done|]. apply Hnew in Hs. congruence.
      + rewrite Hold in Hv by done. unfold val in Hv. by rewrite lookup_empty in Hv.
    - intros (pre & b & post & Hs & ->). by apply Hnew in Hs. }
  unfold val in Hval. split.
  - intros (inner & Ei & Hp & Hh). destruct (pick_spec _ _ _ _ Hp Hh) as (H1 & H2 & H3). rewrite Ei in Hval. split_and!; [done..| |].
    + by apply Hval.
    + intros pre h' b post Hs Hv. eapply H3; [|exact Hv]. apply Hval. by eexists _, _, _.
  - intros (Hh & Ha & Hex & Hmax). apply Hval in Hex. destruct (ed !! k) as [inner|]; [|done]. cbn [mbind option_bind] in *.
    exists inner. split; [done|]. split; [|done]. destruct (pick_complete threshold inner h a Hex Ha Hh) as (h' & a' & Hp & Hle).
    destruct (pick_spec _ _ _ _ Hp ltac:(lia)) as (H1 & H2 & _). pose proof H1 as H1'. apply Hval in H1 as (pre & b & post & Hs & ->).
    pose proof (Hmax _ _ _ _ Hs H2). assert (h' = h) as -> by lia. rewrite Hp. congruence.
Qed.

(** A threshold is never passed wrongly: whatever the order of the dictionary, each
    key that an adjusted filter keeps with a number of lines had at least that many lines
    in as many analyses as the threshold asks for, and the analyses noted do not exceed
    their true number. *)
Theorem threshold_sound threshold :
  c <> ∅ ->
  exists c', adjust_category items n threshold c = Ret c' /\
    forall k h a, c' !! FKey k h = Some a ->
      0 < h /\ is_Some (c !! FKey k h) /\ threshold <= a <= analyses_with k h c.
Proof.
  intros Hc. destruct (adjust_category_spec threshold) as (c' & E & Hspec). exists c'. split; [done|].
  intros k h a (Hh & Ha & (pre & b & post & Hs & ->) & _)%Hspec; [|done]. split_and!; [done| |done|].
  - exists b. apply items_lookup. rewrite Hs. set_solver.
  - rewrite (items_split _ _ _ _ _ Hs). enough (0 <= above k h pre) by lia. apply above_nonneg.
    apply Forall_forall. intros [e a] Hin. cbn. apply (typed e a), items_lookup. rewrite Hs. set_solver.
Qed.

(** [C31] When the dictionary happens to be iterated by rising numbers, the adjusted filter
    keeps for each key exactly the highest number of lines that enough analyses had,
    together with the number of those analyses. *)
Theorem threshold_exact threshold :
  c <> ∅ ->
  (forall pre k h a post, items c = pre ++ (FKey k h, a) :: post -> forall h' b, (FKey k h', b) ∈ pre -> h' < h) ->
  exists c', adjust_category items n threshold c = Ret c' /\
    forall k h a, c' !! FKey k h = Some a <->
      0 < h /\ is_Some (c !! FKey k h) /\ a = analyses_with k h c /\ threshold <= a /\
      forall h', is_Some (c !! FKey k h') -> threshold <= analyses_with k h' c -> h' <= h.
Proof.
  intros Hc Hasc. destruct (adjust_category_spec threshold) as (c' & E & Hspec). exists c'. split; [done|].
  assert (forall pre k h a post, items c = pre ++ (FKey k h, a) :: post -> analyses_with k h c = a + above k h post) as Hruns.
  { intros pre k h a post Hs. rewrite (items_split _ _ _ _ _ Hs), above_zero; [lia|]. by eapply Hasc. }
  intros k h a. rewrite Hspec by done. split.
  - intros (Hh & Ha & (pre & b & post & Hs & ->) & Hmax). split_and!; [done| |symmetry; by eapply Hruns|done|].
    + exists b. apply items_lookup. rewrite Hs. set_solver.
    + intros h' [b' Hb]%(fun H => H) Ht. apply items_lookup, list_elem_of_split in Hb as (pre' & post' & Hs').
      eapply Hmax; [exact Hs'|]. by rewrite <- (Hruns _ _ _ _ _ Hs').
  - intros (Hh & [b Hb] & -> & Ht & Hmax). apply items_lookup, list_elem_of_split in Hb as (pre & post & Hs).
    split_and!; [done..| |].
    + exists pre, b, post. split; [done|]. by eapply Hruns.
    + intros pre' h' b' post' Hs' Hv. apply Hmax; [exists b'; apply items_lookup; rewrite Hs'; set_solver|].
      by rewrite (Hruns _ _ _ _ _ Hs').
Qed.
End adjusting.

(** * Orders *)

Definition by_reverse (c : counts) : list (fkey * Z) := reverse (map_to_list c).
Definition two_counts (k : key) : counts := {[FKey k 1 := 1; FKey k 2 := 1]}.

Lemma adjusted_to items n th c (c' : counts) :
  match adjust_category items n th c with Ret x => bool_decide (x = c') | Raise _ => false end = true -> adjust_category items n th c = Ret c'.
Proof. destruct (adjust_category items n th c); [|done]. by intros ->%bool_decide_eq_true. Qed.
(** The order of a dictionary shows: a key that had one line in one analysis and two
    in another had a line in both, but the filter finds that out only in one of two orders
    of iteration; in the other it forgets the key. *)
Theorem dictionary_order_shows :
  let c := two_counts (KStr (lit "svchost.exe")) in
  adjust_category map_to_list 2 2 c = Ret {[FKey (KStr (lit "svchost.exe")) 1 := 2]} /\
  adjust_category by_reverse 2 2 c = Ret ∅ /\ (forall m, by_reverse m ≡ₚ map_to_list m).
Proof. split_and!; [apply adjusted_to; vm_compute; reflexivity..|]. intros m. apply reverse_Permutation. Qed.

(** A line of [psxview] with seven columns behind the name *)
Definition seven_columns : bytes := lit "0x000000003fd0e738 explorer.exe           1528 True True True True True True".
(** A line of [psxview] whose columns are cut short by one passes the length check
    and raises [IndexError]. *)
Theorem psxview_seven_columns : length (words (slice_from seven_columns 42) []) = 7%nat /\
  get_psxview_key (EStr seven_columns) = Raise IndexError.
Proof. by vm_compute. Qed.

(** * What filters hold *)

Section typing.
Context (tcp_states : list bytes).

(** What a filter counts for a plugin, and how often *)
Definition entry_ok (sp : bool) (e : fkey) : Prop :=
  if sp then exists k n, e = FKey k n /\ 1 <= n else exists e', e = FEntry e' /\ hashable e'.
Definition counts_ok (sp : bool) (c : counts) : Prop := map_Forall (fun e a => 1 <= a /\ entry_ok sp e) c.
Definition is_special (plugin : bytes) : bool := match special tcp_states plugin with Some _ => true | None => false end.
Definition filter_ok (f : mfilter) : Prop :=
  map_Forall (fun plugin pf => map_Forall (fun _ c => counts_ok (is_special plugin) c) pf) (occurrences_dict f).
(** What a plugin gives to count: keys, or entries of any kind *)
Definition given_ok (sp : bool) (e : fkey) : Prop :=
  if sp then exists k n, e = FKey k n /\ 1 <= n else exists e', e = FEntry e'.

Lemma counted_ok sp e e' : given_ok sp e -> counted e = Ret e' -> entry_ok sp e'.
Proof.
  unfold given_ok, entry_ok. destruct sp; [by intros (k & n & -> & Hn) [= <-]; exists k, n|]. intros [[s|z|l|l] ->]; cbn [counted].
  1-3: intros [= <-]; eexists; (split; [done|]); by intros ?.
  destruct (cell_texts l) as [t|]; [|discriminate]. intros [= <-]. eexists. split; [done|]. by intros ?.
Qed.
Lemma count_entries_ok sp es : forall c, counts_ok sp c -> Forall (given_ok sp) es -> counts_ok sp (count_entries es c).2.
Proof.
  induction es as [|e es IH]; intros c Hc Hes; [done|]. apply Forall_cons in Hes as [He Hes]. cbn [count_entries].
  destruct (counted e) as [e'|] eqn:E'; [|done]. apply IH; [|done].
  apply map_Forall_insert_2; [|done]. split; [|by eapply counted_ok].
  destruct (c !! e') as [a|] eqn:E; cbn; [|lia]. destruct (Hc e' a E). lia.
Qed.
Lemma add_categories_ok sp (d : list (bytes * list fkey)) : forall pf, map_Forall (fun _ c => counts_ok sp c) pf ->
  Forall (fun ce => Forall (given_ok sp) ce.2) d -> map_Forall (fun _ c => counts_ok sp c) (add_categories d pf).2.
Proof.
  induction d as [|[cat es] d IH]; intros pf Hpf Hd; [done|]. apply Forall_cons in Hd as [He Hd]. cbn [add_categories].
  pose proof (count_entries_ok sp es (default ∅ (pf !! cat))) as Hc. destruct (count_entries es (default ∅ (pf !! cat))) as [r c]. cbn [snd] in Hc.
  assert (map_Forall (fun _ c => counts_ok sp c) (<[cat := c]> pf)) as Hpf'.
  { apply map_Forall_insert_2; [|done]. apply Hc; [|done]. destruct (pf !! cat) as [c0|] eqn:E; [by eapply Hpf|apply map_Forall_empty]. }
  destruct r; [by apply IH|done].
Qed.
Lemma count_keys_ok getkey es : forall tmp tmp', map_Forall (fun _ n => 1 <= n) tmp ->
  count_keys getkey es tmp = Ret tmp' -> map_Forall (fun (_ : key) n => 1 <= n) tmp'.
Proof.
  induction es as [|e es IH]; intros tmp tmp' Ht; cbn [count_keys]; [by intros [= <-]|].
  destruct (getkey e) as [k|]; [|discriminate]. cbn [res_bind]. apply IH, map_Forall_insert_2; [|done].
  destruct (tmp !! k) as [v|] eqn:E; cbn; [|lia]. specialize (Ht k v E). cbn in Ht. lia.
Qed.
Lemma add_special_ok getkey d : forall d', add_special_plugin getkey d = Ret d' ->
  Forall (fun ce => Forall (given_ok true) ce.2) d'.
Proof.
  induction d as [|[cat es] d IH]; intros d'; cbn [add_special_plugin]; [intros [= <-]; constructor|].
  destruct (count_keys getkey es ∅) as [tmp|] eqn:E; [|discriminate]. cbn [res_bind].
  destruct (add_special_plugin getkey d) as [rest|]; [|discriminate]. cbn [res_bind]. intros [= <-].
  constructor; [|by apply IH]. apply count_keys_ok in E; [|apply map_Forall_empty]. apply Forall_fmap, Forall_forall.
  intros [k n] Hin%elem_of_map_to_list. exists k, n. split; [done|]. by apply (E k n).
Qed.
Lemma add_plugin_preserves plugin r : preserves filter_ok (add_plugin tcp_states plugin r).
Proof.
  apply preserves_bind.
  { apply preserves_modify. intros f Hf. destruct (occurrences_dict f !! plugin); [done|].
    apply map_Forall_insert_2; [apply map_Forall_empty|done]. }
  intros _. destruct r as [d|]; [|apply preserves_ret].
  intros f Hf. unfold pm_bind, pm_lift.
  set (r := match special tcp_states plugin with Some getkey => _ | None => _ end).
  assert (match r with Ret d' => Forall (fun ce => Forall (given_ok (is_special plugin)) ce.2) d' | Raise _ => True end) as Hr.
  { subst r. unfold is_special. destruct (special tcp_states plugin) as [getkey|].
    - destruct (add_special_plugin getkey d) eqn:E; [|done]. by eapply add_special_ok.
    - apply Forall_fmap, Forall_forall. intros [cat es] _. cbn. apply Forall_fmap, Forall_forall. intros e _; cbn; by eexists. }
  destruct r as [d'|]; [|done]. pose proof (add_categories_ok (is_special plugin) d' (default ∅ (occurrences_dict f !! plugin))) as Ha.
  destruct (add_categories d' _) as [r pf]. cbn [snd] in Ha.
  assert (filter_ok (set_occurrences (<[plugin := pf]> (occurrences_dict f)) f)) as Hok; [|by destruct r].
  apply map_Forall_insert_2; [|done]. apply Ha; [|done]. destruct (occurrences_dict f !! plugin) as [pf0|] eqn:E; [by eapply Hf|apply map_Forall_empty].
Qed.

(** [C37] What filters hold: after any analyses with entries of any kind, also ones that raise in the
    middle, every count is positive, a plugin with changing fields has keys with positive numbers only, so that unpacking
    one never fails, and any other plugin has lines, numbers and tuples, but no list. *)
Theorem learned_filter_typed analyses :
  filter_ok (foldl (fun f rs => (add_analysis tcp_states rs f).2) (new_memory_filter None) analyses).
Proof.
  assert (forall rs, preserves filter_ok (add_plugins tcp_states rs)) as Hps.
  { induction rs as [|[plugin r] rs IH]; [apply preserves_ret|]. apply preserves_bind; [apply add_plugin_preserves|done]. }
  induction analyses as [|rs analyses IH] using rev_ind; [apply map_Forall_empty|]. rewrite foldl_snoc.
  set (f := foldl _ _ analyses) in *. assert (preserves filter_ok (add_analysis tcp_states rs)) as H.
  { apply preserves_bind; [apply Hps|]. intros _. by apply preserves_modify. }
  specialize (H f IH). by destruct (add_analysis tcp_states rs f) as [[]].
Qed.
End typing.

(** * Examples *)

Definition ev (s : string) : devent := (lit "MODIFIED", lit s, 7).
Lemma disk_filter_removes_witness :
  exists r f, disk_adjust 2 (trained [[ev "a"; ev "b"]; [ev "a"]]) = (Ret r, f) /\
    forall e, disk_apply f {[ev "a" := tt; ev "b" := tt]} true !! e
      = if decide (Z.max 1 2 <= occurrences e [[ev "a"; ev "b"]; [ev "a"]]) then None
        else ({[ev "a" := tt; ev "b" := tt]} : gmap devent unit) !! e.
Proof.
  apply (disk_filter_removes [[ev "a"; ev "b"]; [ev "a"]] 2).
  - repeat constructor; apply (bool_decide_unpack _); vm_compute; exact Logic.I.
  - vm_compute; split; discriminate.
Defined.

Definition example_counts : counts := {[FKey (KStr (lit "svchost.exe")) 1 := 2]}.
Lemma example_typed e a : example_counts !! e = Some a -> 0 <= a /\ exists k n, e = FKey k n.
Proof. unfold example_counts. intros [<- <-]%lookup_singleton_Some. split; [lia|by eexists _, _]. Qed.
Lemma example_nonempty : example_counts <> ∅.
Proof. apply map_non_empty_singleton. Qed.
Definition example_line : bytes := lit "0x1234567890123456 svchost.exe       700".

Lemma special_lines_removed_witness :
  exists es', apply_category [] map_to_list (lit "psscan") example_counts [EStr example_line] = Ret es' /\ NoDup es' /\
    forall e, e ∈ es' <-> e ∈ [EStr example_line] /\
      ~ exists n a, example_counts !! FKey (KStr (lit "svchost.exe")) n = Some a /\
          category_lines (fun _ => KStr (lit "svchost.exe")) (KStr (lit "svchost.exe")) [EStr example_line] <= n.
Proof.
  apply (special_lines_removed [] map_to_list (lit "psscan") get_psscan_key (fun _ => KStr (lit "svchost.exe"))
    example_counts [EStr example_line]); [reflexivity|done|intros e a H; by apply example_typed in H as [_ H]|].
  constructor; [|constructor]. split; [by intros ?|]. vm_compute. reflexivity.
Defined.
Lemma threshold_sound_witness :
  exists c', adjust_category map_to_list 3 2 example_counts = Ret c' /\
    forall k h a, c' !! FKey k h = Some a ->
      0 < h /\ is_Some (example_counts !! FKey k h) /\ 2 <= a <= analyses_with k h example_counts.
Proof. apply (threshold_sound map_to_list 3 example_counts); [done|apply example_typed|done|apply example_nonempty]. Defined.
Lemma threshold_exact_witness :
  exists c', adjust_category map_to_list 3 2 example_counts = Ret c' /\
    forall k h a, c' !! FKey k h = Some a <->
      0 < h /\ is_Some (example_counts !! FKey k h) /\ a = analyses_with k h example_counts /\ 2 <= a /\
      forall h', is_Some (example_counts !! FKey k h') -> 2 <= analyses_with k h' example_counts -> h' <= h.
Proof.
  apply (threshold_exact map_to_list 3 example_counts); [done|apply example_typed|done|apply example_nonempty|].
  intros pre k h a post E h' b Hin. exfalso.
  assert (length (map_to_list example_counts) = 1%nat) as Hl by (vm_compute; reflexivity).
  rewrite E, length_app in Hl. cbn [length] in Hl. destruct pre; [by apply elem_of_nil in Hin|cbn in Hl; lia].
Defined.
