(* ===== verification/Keypress.v ===== *)
(** Model of [lophi/actuation/keypressgenerator.py] and [lophi/actuation/keycodes.py]: scripts
    of key presses and their translation for the keyboard emulator of a physical machine and
    for the hypervisor of a virtual one.  Theorems: the emulator's cells carry the codes of
    the keys, typing the codes of a text on a keyboard gives the text back, and a script
    template is filled field by field. *)
From S2P Require Import Prelude Struct PyString.

(** * Key codes *)

(** A dictionary display: a key that is repeated has its last value. *)
Fixpoint dict_get {V} (l : list (bytes * V)) (k : bytes) : option V :=
  match l with
  | [] => None
  | (k', v) :: l => match dict_get l k with Some w => Some w | None => if bool_decide (k' = k) then Some v else None end
  end.

Definition SHIFT_KEYCODES : list (bytes * bytes) :=
  [(lit "_", lit "-"); ([34], lit "'"); (lit "!", lit "1"); (lit ":", lit ";")].
Definition KEYCODES : list (bytes * Z) :=
  [(lit "ESC", 1); (lit "1", 2); (lit "2", 3); (lit "3", 4); (lit "4", 5); (lit "5", 6); (lit "6", 7); (lit "7", 8);
   (lit "8", 9); (lit "9", 10); (lit "0", 11); (lit "-", 12); (lit "=", 13); (lit "BS", 14); (lit "TAB", 15);
   (lit "Q", 16); (lit "W", 17); (lit "E", 18); (lit "R", 19); (lit "T", 20); (lit "Y", 21); (lit "U", 22);
   (lit "I", 23); (lit "O", 24); (lit "P", 25); (lit "[", 26); (lit "]", 27); (lit "RETURN", 28); (lit "L_CTRL", 29);
   (lit "A", 30); (lit "S", 31); (lit "D", 32); (lit "F", 33); (lit "G", 34); (lit "H", 35); (lit "J", 36);
   (lit "K", 37); (lit "L", 38); (lit ";", 39); (lit "'", 40); (lit "`", 41); (lit "L_SHIFT", 42); (lit "\", 43);
   (lit "Z", 44); (lit "X", 45); (lit "C", 46); (lit "V", 47); (lit "B", 48); (lit "N", 49); (lit "M", 50);
   (lit ",", 51); (lit ".", 52); (lit "/", 53); (lit "R_SHIFT", 54); (lit "*", 55); (lit "LEFT_ALT", 56);
   (lit "SPACE", 57); (lit " ", 57); (lit "CAPS_LOCK", 58); (lit "F1", 59); (lit "F2", 60); (lit "F3", 61);
   (lit "F4", 62); (lit "F5", 63); (lit "F6", 64); (lit "F7", 65); (lit "F8", 66); (lit "F9", 67); (lit "F10", 68);
   (lit "NUM_LOCK", 69); (lit "SCROLL_LOCK", 70); (lit "HOME", 71); (lit "UP", 72); (lit "PGUP", 73); (lit "LEFT", 75);
   (lit "RT_ARROW", 77); (lit "+", 78); (lit "END_1", 79); (lit "DOWN_2", 80); (lit "PGDN_3", 81); (lit "INS", 82);
   (lit "DEL", 84); (lit "F11", 87); (lit "F12", 88); (lit "R_ENTER", 96); (lit "R_CTRL", 97); (lit "/", 98);
   (lit "PRT_SCR", 99); (lit "R_ALT", 100); (lit "Home", 102); (lit "Up", 103); (lit "PgUp", 104); (lit "Left", 105);
   (lit "Right", 106); (lit "End", 107); (lit "Down", 108); (lit "PgDn", 109); (lit "Insert", 110); (lit "Del", 111);
   (lit "Pause", 119); (lit "LEFT_GUI", 133 - 8)].
Definition ARDUINO_KEYMAP : list (bytes * (bytes * bytes)) :=
  [(lit "LEFT_CTRL", (lit "0x80", lit "128")); (lit "LEFT_SHIFT", (lit "0x81", lit "129"));
   (lit "LEFT_ALT", (lit "0x82", lit "130")); (lit "LEFT_GUI", (lit "0x83", lit "131"));
   (lit "RIGHT_CTRL", (lit "0x84", lit "132")); (lit "RIGHT_SHIFT", (lit "0x85", lit "133"));
   (lit "RIGHT_ALT", (lit "0x86", lit "134")); (lit "RIGHT_GUI", (lit "0x87", lit "135"));
   (lit "UP_ARROW", (lit "0xDA", lit "218")); (lit "DOWN_ARROW", (lit "0xD9", lit "217"));
   (lit "LEFT_ARROW", (lit "0xD8", lit "216")); (lit "RIGHT_ARROW", (lit "0xD7", lit "215"));
   (lit "BACKSPACE", (lit "0xB2", lit "178")); (lit "TAB", (lit "0xB3", lit "179"));
   (lit "RETURN", (lit "0xB0", lit "176")); (lit "ESC", (lit "0xB1", lit "177"));
   (lit "INSERT", (lit "0xD1", lit "209")); (lit "DELETE", (lit "0xD4", lit "212"));
   (lit "PAGE_UP", (lit "0xD3", lit "211")); (lit "PAGE_DOWN", (lit "0xD6", lit "214"));
   (lit "HOME", (lit "0xD2", lit "210")); (lit "END", (lit "0xD5", lit "213"));
   (lit "CAPS_LOCK", (lit "0xC1", lit "193")); (lit "F1", (lit "0xC2", lit "194")); (lit "F2", (lit "0xC3", lit "195"));
   (lit "F3", (lit "0xC4", lit "196")); (lit "F4", (lit "0xC5", lit "197")); (lit "F5", (lit "0xC6", lit "198"));
   (lit "F6", (lit "0xC7", lit "199")); (lit "F7", (lit "0xC8", lit "200")); (lit "F8", (lit "0xC9", lit "201"));
   (lit "F9", (lit "0xCA", lit "202")); (lit "F10", (lit "0xCB", lit "203")); (lit "F11", (lit "0xCC", lit "204"));
   (lit "F12", (lit "0xCD", lit "205"))].

(** A press of one key, or of several at once *)
Inductive press := Key (code : Z) | Chord (codes : list Z).
Definition is_upper (c : Z) : bool := (65 <=? c) && (c <=? 90).
(** The presses for one character; nothing for one that is not in the tables. *)
Definition char_codes (c : Z) : res (list press) :=
  let shift := is_upper c in
  let u := upper [c] in
  match dict_get KEYCODES u with
  | Some k =>
      if shift then let? s := of_option KeyError (dict_get KEYCODES (lit "L_SHIFT")) in Ret [Chord [s; k]]
      else Ret [Key k]
  | None =>
      match dict_get SHIFT_KEYCODES u with
      | Some shifted_key =>
          let? s := of_option KeyError (dict_get KEYCODES (lit "L_SHIFT")) in
          let? k := of_option KeyError (dict_get KEYCODES shifted_key) in
          Ret [Chord [s; k]]
      | None => Ret []
      end
  end.
Fixpoint get_codes (cmd : bytes) : res (list press) :=
  match cmd with
  | [] => Ret []
  | c :: cmd => let? ks := char_codes c in let? rest := get_codes cmd in Ret (ks ++ rest)
  end.

(** * The generators *)

Definition KEYB_CMD := lit "KEY".
Definition KEY_SP_CMD := lit "KSP".
Definition KEY_SLEEP := lit "SLP".

(** The methods a generator implements *)
Class KeypressGenerator (msg : Type) := {
  parse_special : bytes -> res msg;
  parse_text : bytes -> res msg;
  parse_sleep : bytes -> res msg;
  parse_mouse : bytes -> res (option msg)
}.

(** [s.rstrip()] *)
Definition rstrip (s : bytes) : bytes := reverse (lstrip is_space (reverse s)).

Definition _create_msg (cmd_type payload : bytes) : bytes := cmd_type ++ [58] ++ payload.
(** [hex(n)[2:]] of a byte *)
Definition hex_tail (n : Z) : bytes := if n <? 16 then [hex_digit 97 n] else hex2 97 n.
(** [ord(key)] *)
Definition ord (key : bytes) : res Z := match key with [c] => Ret c | _ => Raise TypeError end.
Definition hex_key (key : bytes) : res bytes :=
  let? h := match dict_get ARDUINO_KEYMAP key with
            | Some hd => Ret (drop 2 hd.1)
            | None => let? n := ord key in Ret (hex_tail n)
            end in
  Ret (h ++ replicate (5 - length h) 32).
Fixpoint hex_keys (keys : list bytes) : res (list bytes) :=
  match keys with
  | [] => Ret []
  | k :: keys => let? h := hex_key k in let? hs := hex_keys keys in Ret (h :: hs)
  end.
Definition physical_parse_special (payload : bytes) : res bytes :=
  let? p := hex_keys (words (rstrip payload) []) in Ret (_create_msg KEY_SP_CMD (concat p)).
Definition physical_parse_text (payload : bytes) : res bytes := Ret (_create_msg KEYB_CMD payload).
Definition physical_parse_sleep (payload : bytes) : res bytes := Ret (_create_msg KEY_SLEEP payload).
Definition physical_parse_mouse (payload : bytes) : res (option bytes) := Ret None.
#[global] Instance KeypressGeneratorPhysical : KeypressGenerator bytes :=
  {| parse_special := physical_parse_special; parse_text := physical_parse_text;
     parse_sleep := physical_parse_sleep; parse_mouse := physical_parse_mouse |}.

(** The messages for a virtual machine *)
Inductive vmsg := Special (keys : list Z) | Text (presses : list press) | Sleep (payload : bytes).
(** Unknown keys are logged and left out. *)
Definition special_keys (payload : bytes) : list Z :=
  omap (fun key => dict_get KEYCODES (upper key)) (words (rstrip payload) []).
Definition virtual_parse_special (payload : bytes) : res vmsg := Ret (Special (special_keys payload)).
Definition virtual_parse_text (payload : bytes) : res vmsg := let? ks := get_codes payload in Ret (Text ks).
Definition virtual_parse_sleep (payload : bytes) : res vmsg := Ret (Sleep payload).
Definition virtual_parse_mouse (payload : bytes) : res (option vmsg) := Ret None.
#[global] Instance KeypressGeneratorVirtual : KeypressGenerator vmsg :=
  {| parse_special := virtual_parse_special; parse_text := virtual_parse_text;
     parse_sleep := virtual_parse_sleep; parse_mouse := virtual_parse_mouse |}.

(** * Scripts *)

(** What the pattern [..*$] matches at the end of a line: at least one character other than
    a newline, up to the end or to a newline that ends the line *)
Definition dots (s : bytes) : option bytes :=
  let body := match reverse s with 10 :: r => reverse r | _ => s end in
  if bool_decide (body = []) || bool_decide (10 ∈ body) then None else Some body.
(** [\w] *)
Definition is_word (c : Z) : bool :=
  is_digit c || is_upper c || ((97 <=? c) && (c <=? 122)) || (c =? 95).
Fixpoint span_word (s : bytes) : bytes * bytes :=
  match s with
  | c :: s' => if is_word c then let (w, r) := span_word s' in (c :: w, r) else ([], s)
  | [] => ([], [])
  end.
(** [comment_pattern] and [cmd_pattern] *)
Definition is_comment (line : bytes) : bool :=
  match line with 35 :: s => bool_decide (is_Some (dots s)) | _ => false end.
Definition cmd_match (line : bytes) : option (bytes * bytes) :=
  match span_word line with
  | (w, 58 :: s) => if bool_decide (w = []) then None else (w,.) <$> dots s
  | _ => None
  end.

Section generator.
Context {msg : Type} `{!KeypressGenerator msg}.

Definition parse_line (line : bytes) : res (option msg) :=
  if bool_decide (line = [10]) || is_comment line || bool_decide (line = []) then Ret None else
  match cmd_match line with
  | Some (cmd, p) =>
      let payload := lstrip is_space p in
      let some (r : res msg) := let? m := r in Ret (Some m) in
      if bool_decide (cmd = lit "SPECIAL") then some (parse_special payload)
      else if bool_decide (cmd = lit "TEXT") then some (parse_text payload)
      else if bool_decide (cmd = lit "MOUSE") then parse_mouse payload
      else if bool_decide (cmd = lit "SLEEP") then some (parse_sleep payload)
      else Raise BareExn
  | None => Raise BareExn
  end.
Fixpoint script_loop (lines : list bytes) : res (list msg) :=
  match lines with
  | [] => Ret []
  | l :: lines => let? m := parse_line l in let? ms := script_loop lines in Ret (option_list m ++ ms)
  end.
Definition text_to_script (script : bytes) : res (list msg) := script_loop (split_on 10 script []).

(** [s.replace(old, new)]; [skip] characters belong to a match already replaced. *)
Fixpoint replace_loop (old new : bytes) (skip : nat) (s : bytes) : bytes :=
  match s with
  | [] => []
  | c :: s' =>
      match skip with
      | S n => replace_loop old new n s'
      | O => if bool_decide (old `prefix_of` s) then new ++ replace_loop old new (length old - 1) s'
             else c :: replace_loop old new 0 s'
      end
  end.
Definition replace (old new s : bytes) : bytes := replace_loop old new 0 s.

Record ftp_info := FtpInfo { ftp_ip : bytes; ftp_port : bytes; ftp_user : bytes; ftp_pass : bytes; ftp_dir : bytes }.
Definition PROFILE_TO_SCRIPT : list (bytes * bytes) :=
  [(lit "WinXPSP3x86", lit "windows.act"); (lit "Win7SP0x86", lit "win7.act"); (lit "Win7SP0x64", lit "win7.act")].
(** The placeholders and their values, in the order of replacement; the port is a number
    that [str] turns into its digits. *)
Definition replacements (f : ftp_info) : list (bytes * bytes) :=
  [(lit "%%IP%%", ftp_ip f); (lit "%%PORT%%", ftp_port f); (lit "%%USERNAME%%", ftp_user f);
   (lit "%%PASSWORD%%", ftp_pass f); (lit "%%DIR%%", ftp_dir f)].
Definition fill (f : ftp_info) (script : bytes) : bytes :=
  foldl (fun s kv => replace kv.1 kv.2 s) script (replacements f).
(** [file path] is the content of an existing file. *)
Definition get_ftp_script (file : bytes -> option bytes) (profile : bytes) (f : ftp_info) (hit_enter : bool) :
    res (option (list msg)) :=
  match dict_get PROFILE_TO_SCRIPT profile with
  | None => Ret None
  | Some name =>
      match file (lit "/opt/lophi/actuation_scripts/" ++ name) with
      | None => Ret None
      | Some SCRIPT =>
          let? script := text_to_script (fill f SCRIPT) in
          if hit_enter then let? m := parse_special (lit "RETURN") in Ret (Some (script ++ [m]))
          else Ret (Some script)
      end
  end.
End generator.

(** * The keyboard emulator *)

(** The code of a key: that of the table's decimal column, or the character itself *)
Definition key_value (key : bytes) : option Z :=
  match dict_get ARDUINO_KEYMAP key with
  | Some hd => number_loop 10 0 hd.2
  | None => match key with [c] => Some c | _ => None end
  end.
(** How the emulator reads its message: cells of five bytes, each a hexadecimal number
    filled up with spaces *)
Fixpoint read_cells (p : bytes) : option (list Z) :=
  match p with
  | [] => Some []
  | a :: b :: c :: d :: e :: p =>
      x ← number_loop 16 0 (until_space [a; b; c; d; e]); xs ← read_cells p; Some (x :: xs)
  | _ => None
  end.

Definition cell_ok (cell : bytes) (z : Z) : bool :=
  bool_decide (length cell = 5%nat) && bool_decide (read_cells cell = Some [z]).
Lemma cell_app cell z rest : cell_ok cell z = true ->
  read_cells (cell ++ rest) = xs ← read_cells rest; Some (z :: xs).
Proof.
  unfold cell_ok. intros [Hl Hc]%andb_true_iff. apply bool_decide_eq_true in Hl, Hc.
  destruct cell as [|a [|b [|c [|d [|e [|]]]]]]; try done. cbn [read_cells app] in *.
  destruct (number_loop _ _ _); cbn in Hc; [|done]. by injection Hc as ->.
Qed.
Lemma dict_get_elem {V} (l : list (bytes * V)) k v : dict_get l k = Some v -> (k, v) ∈ l.
Proof.
  induction l as [|[k' v'] l IH]; cbn; [done|]. destruct (dict_get l k) as [w|].
  - intros [= ->]. right. by apply IH.
  - case_bool_decide; [|done]. intros [= ->]. subst. left.
Qed.
(** Each key of the table is sent as its decimal code. *)
Lemma keymap_cells : forallb (fun e => let h := drop 2 e.2.1 in
  match number_loop 10 0 e.2.2 with Some z => cell_ok (h ++ replicate (5 - length h) 32) z | None => false end) ARDUINO_KEYMAP = true.
Proof. by vm_compute. Qed.
Lemma char_cells : forallb (fun c => let h := hex_tail c in cell_ok (h ++ replicate (5 - length h) 32) c) (seqZ 0 256) = true.
Proof. by vm_compute. Qed.
Lemma hex_key_spec key : bytes_ok key ->
  match key_value key with
  | Some z => exists cell, hex_key key = Ret cell /\ cell_ok cell z = true
  | None => hex_key key = Raise TypeError
  end.
Proof.
  intros Hk. unfold key_value, hex_key. destruct (dict_get ARDUINO_KEYMAP key) as [hd|] eqn:E.
  - apply dict_get_elem in E. pose proof keymap_cells as H. rewrite forallb_forall in H.
    apply list_elem_of_In in E. apply H in E. cbn [snd] in E.
    destruct (number_loop 10 0 hd.2) as [z|]; [|done]. by eexists.
  - destruct key as [|c [|]]; [done| |done]. cbn. eexists. split; [done|].
    apply (all_bytes _ char_cells). by inversion Hk.
Qed.
Lemma lstrip_ok f s : bytes_ok s -> bytes_ok (lstrip f s).
Proof. induction 1; cbn; [constructor|]. destruct (f _); [done|by constructor]. Qed.
Lemma rstrip_ok s : bytes_ok s -> bytes_ok (rstrip s).
Proof. intros H. unfold rstrip. apply Forall_reverse, lstrip_ok. by apply Forall_reverse. Qed.
Lemma words_ok s cur : bytes_ok s -> bytes_ok cur -> Forall bytes_ok (words s cur).
Proof.
  intros H. revert cur. induction H as [|c s Hc Hs IH]; intros cur Hcur; cbn.
  - case_bool_decide; repeat constructor. by apply Forall_reverse.
  - destruct (is_space c); [|apply IH; by constructor]. apply Forall_app. split; [|apply IH; constructor].
    case_bool_decide; repeat constructor. by apply Forall_reverse.
Qed.
Lemma hex_keys_spec keys : Forall bytes_ok keys ->
  match mapM key_value keys with
  | Some codes => exists p, hex_keys keys = Ret p /\ read_cells (concat p) = Some codes
  | None => hex_keys keys = Raise TypeError
  end.
Proof.
  induction 1 as [|k keys Hk Hks IH]; [by exists []|]. cbn -[hex_key key_value].
  pose proof (hex_key_spec k Hk) as Hs. destruct (key_value k) as [z|]; cbn -[hex_key key_value]; [|by rewrite Hs].
  destruct Hs as (cell & -> & Hc). cbn -[hex_key key_value].
  destruct (mapM key_value keys) as [codes|]; cbn -[hex_key key_value]; [|by rewrite IH].
  destruct IH as (p & -> & Hp). exists (cell :: p). split; [done|]. cbn. by rewrite (cell_app _ z), Hp.
Qed.

(** Special keys of a physical machine: the message for any payload holds, in cells of
    five bytes that the emulator reads, the codes of its words in order; a word that is
    neither in the table nor a single character raises TypeError. *)
Theorem special_keys_reach_emulator payload : bytes_ok payload ->
  match mapM key_value (words (rstrip payload) []) with
  | Some codes => exists cells, physical_parse_special payload = Ret (lit "KSP:" ++ cells) /\ read_cells cells = Some codes
  | None => physical_parse_special payload = Raise TypeError
  end.
Proof.
  intros H. pose proof (hex_keys_spec _ (words_ok _ [] (rstrip_ok _ H) (Forall_nil_2 _))) as Hs.
  unfold physical_parse_special. destruct (mapM _ _); [|by rewrite Hs].
  destruct Hs as (p & -> & Hp). by exists (concat p).
Qed.
Lemma special_keys_reach_emulator_witness :
  exists cells, physical_parse_special (lit "LEFT_GUI r ") = Ret (lit "KSP:" ++ cells) /\ read_cells cells = Some [131; 114].
Proof.
  apply (special_keys_reach_emulator (lit "LEFT_GUI r ")). apply (bool_decide_unpack _). reflexivity.
Defined.

(** * A keyboard *)

(** The characters of a keyboard with the US layout under the Linux key codes *)
Definition key_row (first : Z) (plain shifted : bytes) : list (Z * (Z * Z)) :=
  imap (fun i c => (first + Z.of_nat i, c)) (zip plain shifted).
Definition us_layout : list (Z * (Z * Z)) :=
  key_row 2 (lit "1234567890-=") (lit "!@#$%^&*()_+") ++ key_row 16 (lit "qwertyuiop[]") (lit "QWERTYUIOP{}") ++
  key_row 30 (lit "asdfghjkl;'`") (lit "ASDFGHJKL:" ++ [34] ++ lit "~") ++ key_row 43 (lit "\zxcvbnm,./") (lit "|ZXCVBNM<>?") ++
  key_row 55 (lit "*") (lit "*") ++ key_row 57 (lit " ") (lit " ") ++ key_row 78 (lit "+") (lit "+") ++ key_row 98 (lit "/") (lit "/").
Definition typed_char (p : press) : option Z :=
  match p with
  | Key k => fst <$> (list_to_map us_layout : gmap Z (Z * Z)) !! k
  | Chord [42; k] => snd <$> (list_to_map us_layout : gmap Z (Z * Z)) !! k
  | Chord _ => None
  end.
(** What the presses type *)
Definition typed (ps : list press) : bytes := omap typed_char ps.
(** The characters with a code *)
Definition typable (c : Z) : bool :=
  bool_decide (c ∈ lit "abcdefghijklmnopqrstuvwxyzABCDEFGHIJKLMNOPQRSTUVWXYZ0123456789 -=[];'`\,./*+_!:" ++ [34]).

(** A chord is of several keys. *)
Definition proper (p : press) : bool := match p with Chord [_] => false | _ => true end.
Lemma char_types : forallb (fun c => match char_codes c with
  | Ret ps => bool_decide (typed ps = if typable c then [c] else []) && forallb proper ps
  | Raise _ => false end) (seqZ 0 256) = true.
Proof. by vm_compute. Qed.
(** The key codes of a text exist, and typed on a keyboard they give the text back without
    the characters that have no code. *)
Lemma codes_type_back text : bytes_ok text ->
  exists ps, get_codes text = Ret ps /\ typed ps = filter (fun c => typable c) text /\ Forall proper ps.
Proof.
  induction 1 as [|c text Hc _ (rest & Hr & Ht & Hp)]; [by exists []|].
  pose proof (all_bytes _ char_types c Hc) as Hx. cbn beta in Hx.
  destruct (char_codes c) as [ps|] eqn:Hps; [|done]. apply andb_true_iff in Hx as [Hty Hpr].
  apply bool_decide_eq_true in Hty. exists (ps ++ rest). split_and!.
  - cbn [get_codes]. by rewrite Hps, Hr.
  - unfold typed. rewrite omap_app. fold (typed ps) (typed rest). rewrite Hty, Ht, filter_cons. by destruct (typable c).
  - apply Forall_app. split; [|done]. apply Forall_forall. intros p Hin. rewrite forallb_forall in Hpr.
    apply Is_true_true. by apply Hpr, list_elem_of_In.
Qed.

(** * Templates *)

(** A template: plain text and named fields *)
Inductive segment := Plain (s : bytes) | Field (name : bytes).
Definition placeholder (name : bytes) : bytes := [37; 37] ++ name ++ [37; 37].
Definition render_seg (s : segment) : bytes := match s with Plain s => s | Field n => placeholder n end.
Definition render (t : list segment) : bytes := concat (render_seg <$> t).
(** The characters of a field's name *)
Definition is_field (c : Z) : bool := is_upper c || (c =? 95).
(** Plain text has no percent sign, and a field is followed by the end or by a character
    that no name has. *)
Fixpoint template_ok (t : list segment) : Prop :=
  match t with
  | [] => True
  | Plain s :: t => 37 ∉ s /\ template_ok t
  | Field n :: t =>
      n <> [] /\ forallb is_field n = true /\
      match t with
      | [] => True
      | Plain (c :: _) :: _ => is_field c = false
      | _ => False
      end /\ template_ok t
  end.
Definition put (name v : bytes) (s : segment) : segment :=
  match s with Field n => if bool_decide (n = name) then Plain v else s | _ => s end.

Lemma replace_skip old new n s : replace_loop old new n s = replace_loop old new 0 (drop n s).
Proof. revert s. induction n as [|n IH]; intros [|c s]; cbn [replace_loop drop]; [done..|apply IH]. Qed.
Lemma replace_hit old new c s : old `prefix_of` c :: s ->
  replace_loop old new 0 (c :: s) = new ++ replace_loop old new 0 (drop (length old - 1) s).
Proof. intros H. cbn [replace_loop]. rewrite bool_decide_true by done. by rewrite replace_skip. Qed.
Lemma upper_no_percent n : forallb is_field n = true -> 37 ∉ n.
Proof.
  intros H Hin. rewrite forallb_forall in H. apply list_elem_of_In in Hin. by apply H in Hin.
Qed.
Lemma prefix_names n m x y : 37 ∉ n -> 37 ∉ m -> n ++ 37 :: x `prefix_of` m ++ 37 :: y -> n = m.
Proof.
  revert m. induction n as [|c n IH]; intros [|d m] Hn Hm Hp; cbn in Hp; [done| | |].
  - apply prefix_cons_inv_1 in Hp as <-. set_solver.
  - apply prefix_cons_inv_1 in Hp as ->. set_solver.
  - pose proof (prefix_cons_inv_1 _ _ _ _ Hp) as ->. apply prefix_cons_inv_2 in Hp.
    f_equal. apply IH; set_solver.
Qed.

Section put.
Context (name v : bytes) (Hne : name <> []) (Hup : forallb is_field name = true) (Hv : 37 ∉ v).

Lemma replace_char c s : c <> 37 -> replace (placeholder name) v (c :: s) = c :: replace (placeholder name) v s.
Proof.
  intros Hc. unfold replace. cbn [replace_loop]. rewrite bool_decide_false; [done|].
  intros Hp. apply prefix_cons_inv_1 in Hp. done.
Qed.
Lemma replace_plain s r : 37 ∉ s -> replace (placeholder name) v (s ++ r) = s ++ replace (placeholder name) v r.
Proof.
  induction s as [|c s IH]; [done|]. intros Hs. cbn [app]. rewrite replace_char by set_solver.
  f_equal. apply IH. set_solver.
Qed.
(** A percent sign that does not open the placeholder stays. *)
Lemma replace_percent s : ~ placeholder name `prefix_of` 37 :: s ->
  replace (placeholder name) v (37 :: s) = 37 :: replace (placeholder name) v s.
Proof. intros H. unfold replace. cbn [replace_loop]. by rewrite bool_decide_false. Qed.
Lemma replace_same r : replace (placeholder name) v (placeholder name ++ r) = v ++ replace (placeholder name) v r.
Proof.
  unfold replace, placeholder. cbn [app]. rewrite replace_hit by (by exists r). f_equal. f_equal.
  change (37 :: (name ++ [37; 37]) ++ r) with ((37 :: name ++ [37; 37]) ++ r).
  assert (Nat.sub (length (37 :: 37 :: name ++ [37; 37])) 1 = length (37 :: name ++ [37; 37])) as -> by (cbn; lia).
  by rewrite drop_app_length.
Qed.
Lemma opening_only_once r : head r <> Some 37 -> ~ placeholder name `prefix_of` 37 :: r.
Proof.
  intros Hr Hp. apply prefix_cons_inv_2 in Hp. destruct r as [|c r]; [by apply prefix_nil_not in Hp|].
  by apply prefix_cons_inv_1 in Hp as <-.
Qed.
Lemma closing_is_no_opening r :
  match r with [] => True | c :: _ => is_field c = false end -> ~ placeholder name `prefix_of` 37 :: 37 :: r.
Proof.
  intros Hr Hp. do 2 apply prefix_cons_inv_2 in Hp. destruct name as [|d name']; [done|]. cbn in Hp, Hup.
  destruct r as [|c r]; [by apply prefix_nil_not in Hp|]. apply prefix_cons_inv_1 in Hp as ->. by rewrite Hr in Hup.
Qed.
Lemma replace_other n r : n <> name -> n <> [] -> forallb is_field n = true ->
  match r with [] => True | c :: _ => is_field c = false /\ c <> 37 end ->
  replace (placeholder name) v (placeholder n ++ r) = placeholder n ++ replace (placeholder name) v r.
Proof.
  intros Hneq Hn Hu Hr. unfold placeholder at 2. rewrite <- !app_assoc. cbn [app].
  pose proof (upper_no_percent n Hu) as Hnp.
  rewrite replace_percent.
  2:{ intros Hp. do 2 apply prefix_cons_inv_2 in Hp.
      apply Hneq. symmetry. eapply (prefix_names name n [37]); [by apply upper_no_percent|done|exact Hp]. }
  rewrite replace_percent.
  2:{ apply opening_only_once. destruct n as [|c n]; [done|]. cbn.
      destruct (decide (c = 37)) as [->|Hc]; [set_solver|]. cbn; naive_solver. }
  rewrite replace_plain by done.
  rewrite replace_percent by (apply closing_is_no_opening; by destruct r as [|c r]; [|destruct Hr]).
  rewrite replace_percent; [unfold placeholder; by rewrite <- !app_assoc|].
  apply opening_only_once. destruct r as [|c r]; [done|]. cbn; naive_solver.
Qed.

Lemma put_ok t : template_ok t -> template_ok (put name v <$> t).
Proof.
  induction t as [|[s|n] t IH]; cbn; [done|by intros [? ?]; split; auto|].
  intros (Hn & Hu & Ht & Hok). case_bool_decide; cbn; [by auto|]. split_and!; [done..| |by auto].
  by destruct t as [|[[|c s]|] t].
Qed.
Lemma replace_render t : template_ok t -> replace (placeholder name) v (render t) = render (put name v <$> t).
Proof.
  induction t as [|[s|n] t IH]; [done| |]; cbn [template_ok].
  - intros [Hs Ht]. unfold render. cbn [fmap list_fmap concat render_seg put]. rewrite replace_plain by done. f_equal. by apply IH.
  - intros (Hn & Hu & Hnext & Ht). unfold render in *. cbn [fmap list_fmap concat put]. case_bool_decide as E.
    + subst. cbn [render_seg]. rewrite replace_same. f_equal. by apply IH.
    + cbn [render_seg]. rewrite replace_other; [f_equal; by apply IH|done..|].
      destruct t as [|[[|c s]|] t]; [done..| |done]. cbn. cbn in Ht. split; [done|set_solver].
Qed.
End put.

(** Filling one field after the other is filling all at once. *)
Fixpoint first_value (kvs : list (bytes * bytes)) (n : bytes) : option bytes :=
  match kvs with [] => None | (k, v) :: kvs => if bool_decide (n = k) then Some v else first_value kvs n end.
Definition filled (kvs : list (bytes * bytes)) (s : segment) : bytes :=
  match s with Plain s => s | Field n => default (placeholder n) (first_value kvs n) end.
Definition values_ok (kvs : list (bytes * bytes)) : Prop :=
  Forall (fun kv => kv.1 <> [] /\ forallb is_field kv.1 = true /\ 37 ∉ kv.2) kvs.
Lemma filled_put kv kvs s : filled kvs (put kv.1 kv.2 s) = filled (kv :: kvs) s.
Proof. destruct kv as [n v], s as [s|m]; [done|]. cbn. by case_bool_decide. Qed.
Lemma fill_fields kvs t : template_ok t -> values_ok kvs ->
  foldl (fun s kv => replace (placeholder kv.1) kv.2 s) (render t) kvs = concat (filled kvs <$> t).
Proof.
  intros Ht Hk. revert t Ht. induction Hk as [|[n v] kvs (Hn & Hf & Hv) _ IH]; intros t Ht; cbn [foldl fst snd] in *.
  - done.
  - rewrite replace_render, IH by (by try apply put_ok). rewrite <- list_fmap_compose. f_equal. apply list_fmap_ext.
    intros ? s _. apply (filled_put (n, v)).
Qed.

(** The names of the fields and their values *)
Definition field_names : list bytes := [lit "IP"; lit "PORT"; lit "USERNAME"; lit "PASSWORD"; lit "DIR"].
Definition field_value (f : ftp_info) (s : segment) : bytes :=
  match s with
  | Plain s => s
  | Field n => default [] (dict_get [(lit "IP", ftp_ip f); (lit "PORT", ftp_port f); (lit "USERNAME", ftp_user f);
                                     (lit "PASSWORD", ftp_pass f); (lit "DIR", ftp_dir f)] n)
  end.
Definition info_ok (f : ftp_info) : Prop := Forall (fun kv => 37 ∉ kv.2) (replacements f).

(** Filling a script: every field of a template is replaced by its value and the rest of
    the text is kept, as long as neither plain text nor values have percent signs and no
    field is directly followed by a character of a name or another field. *)
Theorem fill_template f t :
  template_ok t -> Forall (fun s => match s with Field n => n ∈ field_names | _ => True end) t -> info_ok f ->
  fill f (render t) = concat (field_value f <$> t).
Proof.
  intros Ht Hn Hi. unfold info_ok, replacements in Hi. rewrite !Forall_cons in Hi. destruct Hi as (H1 & H2 & H3 & H4 & H5 & _).
  set (kvs := [(lit "IP", ftp_ip f); (lit "PORT", ftp_port f); (lit "USERNAME", ftp_user f);
               (lit "PASSWORD", ftp_pass f); (lit "DIR", ftp_dir f)]).
  change (fill f (render t)) with (foldl (fun s kv => replace (placeholder kv.1) kv.2 s) (render t) kvs).
  rewrite fill_fields; [|done|by repeat constructor].
  f_equal. apply list_fmap_ext. intros i s Hs. rewrite Forall_lookup in Hn. specialize (Hn i s Hs).
  destruct s as [s|n]; [done|]. unfold field_names in Hn.
  by repeat (apply elem_of_cons in Hn as [->|Hn]; [done|]); apply elem_of_nil in Hn.
Qed.

(** The lines of the script for Windows that open the connection *)
Definition demo_template : list segment :=
  [Plain (lit "TEXT:open "); Field (lit "IP"); Plain (lit " "); Field (lit "PORT"); Plain ([10] ++ lit "TEXT:cd /"); Field (lit "DIR")].
Definition demo_info : ftp_info := FtpInfo (lit "10.0.0.1") (lit "2121") (lit "user") (lit "pass") (lit "tmp").
Lemma fill_template_witness :
  fill demo_info (lit "TEXT:open %%IP%% %%PORT%%" ++ [10] ++ lit "TEXT:cd /%%DIR%%") =
  lit "TEXT:open 10.0.0.1 2121" ++ [10] ++ lit "TEXT:cd /tmp".
Proof.
  apply (fill_template demo_info demo_template).
  - cbn; split_and!; try done; apply (bool_decide_unpack _); reflexivity.
  - repeat constructor; apply (bool_decide_unpack _); reflexivity.
  - apply (bool_decide_unpack _). reflexivity.
Defined.
(** A field directly behind another's closing signs is misread: the name of the second is
    taken from the text between them. *)
Lemma misread_field : replace (lit "%%IP%%") (lit "1.2.3.4") (lit "%%DIR%%IP%%PORT%%") = lit "%%DIR1.2.3.4PORT%%".
Proof. by vm_compute. Qed.
(** Lines that are refused: a lone comment sign, a command without payload *)
Lemma short_lines_refused :
  parse_line (msg:=bytes) (lit "#") = Raise BareExn /\ parse_line (msg:=bytes) (lit "TEXT:") = Raise BareExn /\
  parse_line (msg:=bytes) (lit "# a") = Ret None.
Proof. by vm_compute. Qed.
(** The keys named in mixed case cannot be reached: names are looked up in capitals. *)
Lemma mixed_case_keys_unreachable :
  special_keys (lit "Right End Insert") = [] /\ special_keys (lit "Home Up") = [71; 72].
Proof. by vm_compute. Qed.
