(* ===== verification/ControlPhysical.v ===== *)
(** Model of [lophi/sensors/control/physical.py]: the sensor that presses the power button
    and the keys of a physical machine through a board on the network.  The board is a
    parameter; the class [Board] states what the sensor relies on.  Theorems: a reset is a
    full power cycle, a reboot ends with the machine on even if its system ignores the
    shutdown, commands are repeated on failures, and an unreachable board is waited for
    without end. *)
From S2P Require Import Prelude Struct PyString Keypress.

(** * The sensor *)

Definition ON_CMD := lit "ON ".
Definition OFF_CMD := lit "OFF".
Definition SHUTDOWN_CMD := lit "SHU".
Definition RESTART_CMD := lit "DIE".
Definition MOUSE_CMD := lit "MOU".
Definition MOUSE_WIGGLE := lit "WGL".
Definition STATUS_CMD := lit "STA".
Definition RESPONSE_DONE := lit "DONE".
Definition END_MSG : Z := 3.
Definition END_TRANSMISSION : Z := 4.
Definition RETRIES : nat := 3.
(** What a command returns: a truth value or the board's text *)
Inductive answered := Flag (b : bool) | Said (s : bytes).
#[global] Instance answered_eq_dec : EqDecision answered.
Proof. solve_decision. Defined.
Definition ON := Said (lit "ON").
Definition OFF := Said (lit "OFF").

(** The board and the clock, in half seconds *)
Record board (D : Type) := Board_ {
  accept : D -> bool * D;                       (* whether a connection is accepted *)
  deliver : bytes -> D -> option (option bytes) * D;
    (* a message is sent and answered: [None] when sending fails, [Some None] when no answer arrives *)
  hang_up : D -> D;                              (* the end of a transmission *)
  sleep : Z -> D -> D;
  time : D -> Z
}.
Arguments Board_ {D}.
Arguments accept {D}.
Arguments deliver {D}.
Arguments hang_up {D}.
Arguments sleep {D}.
Arguments time {D}.

Section sensor.
Context {D : Type} (B : board D).

(** [_sock]: none, or a socket object, which after a failed attempt is not connected;
    [sent] are the commands delivered. *)
Record ctl := Ctl { sock : option bool; dev : D; sent : list bytes }.
Definition set_sock x (s : ctl) := Ctl x (dev s) (sent s).
Definition set_dev x (s : ctl) := Ctl (sock s) x (sent s).
Abbreviation M := (PM ctl).

(** The socket object is kept when connecting fails, so that the next call takes it for a
    connection. *)
Definition _connect : M bool := fun s =>
  match sock s with
  | Some _ => (Ret true, s)
  | None => let (ok, d) := accept B (dev s) in (Ret ok, Ctl (Some ok) d (sent s))
  end.
Definition _disconnect : M unit := fun s =>
  (Ret tt, Ctl None (match sock s with Some true => hang_up B (dev s) | _ => dev s end) (sent s)).
(** One attempt: [None] when it failed *)
Definition attempt (msg : bytes) : M (option bytes) := fun s =>
  match sock s with
  | Some true =>
      let (r, d) := deliver B (msg ++ [END_MSG]) (dev s) in
      match r with
      | None => (Ret None, set_dev d s)
      | Some None | Some (Some []) => (Ret None, Ctl (sock s) d (sent s ++ [msg]))
      | Some (Some response) => (Ret (Some response), Ctl (sock s) d (sent s ++ [msg]))
      end
  | _ => (Ret None, s)
  end.
Fixpoint send_loop (attempts : nat) (msg : bytes) : M answered :=
  match attempts with
  | O => pm_ret (Flag false)
  | S n =>
      let! ok := _connect in
      if negb ok then pm_ret (Flag false) else
      let! response := attempt msg in
      match response with
      | None => _disconnect ;! send_loop n msg
      | Some r => pm_ret (if bool_decide (r = RESPONSE_DONE) then Flag true else Said r)
      end
  end.
Definition _send_comand (msg : bytes) : M answered := send_loop RETRIES msg.

Definition sensor_reset : M answered := _send_comand RESTART_CMD.
(** ["%5s" % x] *)
Definition pad5 (x : bytes) : bytes := replicate (5 - length x) 32 ++ x.
Definition connected_or_false (m : M answered) : M answered :=
  let! ok := _connect in if negb ok then pm_ret (Flag false) else m.
Definition mouse_click (x y : bytes) : M answered :=
  connected_or_false (_send_comand (MOUSE_CMD ++ [58] ++ pad5 x ++ pad5 y)).
Definition mouse_wiggle (enabled : bool) : M answered :=
  _send_comand (MOUSE_WIGGLE ++ [58] ++ (if enabled then [49] else [48])).

Definition pm_sleep (n : Z) : M unit := pm_modify (fun s => set_dev (sleep B n (dev s)) s).
Fixpoint send_keys (keypresses : list bytes) : M unit :=
  match keypresses with
  | [] => pm_ret tt
  | msg :: rest => _send_comand msg ;! pm_sleep 1 ;! send_keys rest
  end.
(** [false] when there is no connection, and [None] otherwise *)
Definition keypress_send (keypresses : list bytes) : M (option bool) :=
  let! ok := _connect in
  if negb ok then pm_ret (Some false) else send_keys keypresses ;! pm_ret None.

Definition power_status : M answered := connected_or_false (_send_comand STATUS_CMD).
Definition power_on : M answered :=
  connected_or_false
    (let! st := power_status in
     if bool_decide (st = ON) then pm_ret (Flag true) else _send_comand ON_CMD).
Definition power_off : M answered :=
  connected_or_false
    (let! st := power_status in
     if bool_decide (st = OFF) then pm_ret (Flag true) else _send_comand OFF_CMD).
Definition power_shutdown : M answered := connected_or_false (_send_comand SHUTDOWN_CMD).

(** The loops wait with [fuel] rounds. *)
Fixpoint wait_off (fuel : nat) (start : Z) : M unit :=
  match fuel with
  | O => pm_raise Diverges
  | S n =>
      let! st := power_status in
      if bool_decide (st = OFF) then pm_ret tt else
      let! t := pm_get (fun s => time B (dev s)) in
      (if 120 <? t - start then power_off ;! pm_ret tt else pm_ret tt) ;!
      pm_sleep 1 ;! wait_off n start
  end.
Definition power_reboot (fuel : nat) : M unit :=
  let! start := pm_get (fun s => time B (dev s)) in
  let! st := power_status in
  (if bool_decide (st = OFF) then pm_ret tt else power_shutdown ;! pm_ret tt) ;!
  wait_off fuel start ;!
  pm_sleep 1 ;!
  power_on ;! pm_ret tt.
Fixpoint wait_status (fuel : nat) (status : answered) : M unit :=
  match fuel with
  | O => pm_raise Diverges
  | S n =>
      let! st := power_status in
      if bool_decide (st = status) then pm_ret tt else pm_sleep 1 ;! wait_status n status
  end.
Definition power_reset (fuel : nat) : M bool :=
  let! st := power_status in
  (if bool_decide (st = OFF) then pm_ret tt else power_off ;! pm_ret tt) ;!
  wait_status fuel OFF ;!
  pm_sleep 20 ;!
  power_on ;!
  wait_status fuel ON ;!
  pm_ret true.
End sensor.

(** * What is promised of the board *)

(** Nothing was asked of the machine: one that is off stays off, and a steady one, whose
    system is not shutting down, keeps its state. *)
Record quiet {D} (B : board D) (is_on : D -> bool) (steady : D -> Prop) (d d' : D) : Prop := {
  q_time : time B d <= time B d';
  q_off : is_on d = false -> is_on d' = false;
  q_steady : steady d -> steady d' /\ is_on d' = is_on d
}.
Definition says {D} (B : board D) (cmd : bytes) (d : D) (r : bytes) (d' : D) : Prop :=
  deliver B (cmd ++ [END_MSG]) d = (Some (Some r), d').
Class Board {D} (B : board D) (is_on : D -> bool) (steady : D -> Prop) := {
  off_steady d : is_on d = false -> steady d;
  connect_ok d : exists d', accept B d = (true, d') /\ quiet B is_on steady d d';
  status_ok d : exists d', says B STATUS_CMD d (if is_on d then lit "ON" else lit "OFF") d' /\ quiet B is_on steady d d';
  off_ok d : exists d', says B OFF_CMD d RESPONSE_DONE d' /\ is_on d' = false /\ time B d <= time B d';
  on_ok d : steady d -> exists d', says B ON_CMD d RESPONSE_DONE d' /\ is_on d' = true /\ steady d' /\ time B d <= time B d';
  shutdown_ok d : exists d', says B SHUTDOWN_CMD d RESPONSE_DONE d' /\ (is_on d = false -> is_on d' = false) /\ time B d <= time B d';
  sleep_ok n d : 0 <= n -> quiet B is_on steady d (sleep B n d) /\ time B d + n <= time B (sleep B n d)
}.

Lemma bind_ret {S A C} (m : PM S A) (k : A -> PM S C) s a s' : m s = (Ret a, s') -> pm_bind m k s = k a s'.
Proof. unfold pm_bind. by intros ->. Qed.
(** Names the state that a command is applied to. *)
Ltac name_state x :=
  match goal with |- context [_ (Ctl (Some true) ?d ?l)] => set (x := Ctl (Some true) d l) end.

Section power.
Context {D : Type} (B : board D) {is_on : D -> bool} {steady : D -> Prop} `{!Board B is_on steady}.
Local Abbreviation quiet := (quiet B is_on steady).

(** Not a socket left over from a failed attempt *)
Definition ready (s : ctl (D:=D)) : Prop := sock s <> Some false.

Lemma board_quiet_trans d1 d2 d3 : quiet d1 d2 -> quiet d2 d3 -> quiet d1 d3.
Proof.
  intros [T1 O1 S1] [T2 O2 S2]. split; [lia|auto|].
  intros H. destruct (S1 H) as [H1 E1]. destruct (S2 H1) as [H2 E2]. split; [done|congruence].
Qed.
Lemma connect_ready s : ready s ->
  exists d, _connect B s = (Ret true, Ctl (Some true) d (sent s)) /\ quiet (dev s) d.
Proof.
  destruct s as [[[|]|] d l]; intros Hr; unfold _connect; cbn in *; [..|].
  - exists d. split; [done|]. split; [lia|auto|auto].
  - by destruct Hr.
  - destruct (connect_ok (B:=B) d) as (d' & -> & Hq). by exists d'.
Qed.
Lemma send_says msg s r d' : sock s = Some true -> r <> [] -> says B msg (dev s) r d' ->
  _send_comand B msg s =
  (Ret (if bool_decide (r = RESPONSE_DONE) then Flag true else Said r), Ctl (Some true) d' (sent s ++ [msg])).
Proof.
  intros Hs Hr Hd. unfold _send_comand, RETRIES. cbn [send_loop]. unfold pm_bind, _connect. rewrite Hs. cbn [negb].
  unfold attempt. rewrite Hs, Hd. destruct r as [|c r]; [done|]. done.
Qed.
(** A command after a connection *)
Lemma command_spec msg s r (Q : D -> Prop) : ready s -> r <> [] ->
  (forall d, quiet (dev s) d -> exists d', says B msg d r d' /\ Q d') ->
  exists d', connected_or_false B (_send_comand B msg) s =
    (Ret (if bool_decide (r = RESPONSE_DONE) then Flag true else Said r), Ctl (Some true) d' (sent s ++ [msg])) /\ Q d'.
Proof.
  intros Hr Hne Hd. destruct (connect_ready s Hr) as (d & Hc & Hq). destruct (Hd d Hq) as (d' & Hs & HQ).
  exists d'. split; [|done]. unfold connected_or_false, pm_bind. rewrite Hc. cbn [negb].
  by rewrite (send_says msg (Ctl (Some true) d (sent s)) r d').
Qed.

Definition status_of (d : D) : answered := if is_on d then ON else OFF.
Lemma status_spec s : ready s ->
  exists d d', power_status B s = (Ret (status_of d), Ctl (Some true) d' (sent s ++ [STATUS_CMD])) /\
    quiet (dev s) d /\ quiet d d'.
Proof.
  intros Hr. destruct (connect_ready s Hr) as (d & Hc & Hq). destruct (status_ok (B:=B) d) as (d' & Hs & Hq').
  exists d, d'. split; [|done]. unfold power_status, connected_or_false, pm_bind. rewrite Hc. cbn [negb].
  rewrite (send_says STATUS_CMD (Ctl (Some true) d (sent s)) (if is_on d then lit "ON" else lit "OFF") d');
    [|done|by destruct (is_on d)|done].
  unfold status_of. by destruct (is_on d).
Qed.
(** The status of a machine that does not change *)
Lemma status_steady s : ready s -> steady (dev s) ->
  exists d', power_status B s = (Ret (status_of (dev s)), Ctl (Some true) d' (sent s ++ [STATUS_CMD])) /\
    is_on d' = is_on (dev s) /\ steady d' /\ time B (dev s) <= time B d'.
Proof.
  intros Hr Hst. destruct (status_spec s Hr) as (d & d' & -> & Q1 & Q2). exists d'.
  destruct (q_steady _ _ _ _ _ Q1 Hst) as [H1 E1]. destruct (q_steady _ _ _ _ _ Q2 H1) as [H2 E2].
  unfold status_of. rewrite E1. split; [done|]. split; [congruence|]. split; [done|].
  pose proof (q_time _ _ _ _ _ Q1). pose proof (q_time _ _ _ _ _ Q2). lia.
Qed.
(** The button is pressed unless the machine is off already. *)
Lemma power_off_spec s : ready s ->
  exists d' l, power_off B s = (Ret (Flag true), Ctl (Some true) d' (sent s ++ l)) /\ is_on d' = false /\
    time B (dev s) <= time B d' /\ (steady (dev s) -> is_on (dev s) = true -> l = [STATUS_CMD; OFF_CMD]).
Proof.
  intros Hr. destruct (connect_ready s Hr) as (d & Hc & Hq). unfold power_off, connected_or_false, pm_bind.
  rewrite Hc. cbn [negb]. destruct (status_spec (Ctl (Some true) d (sent s)) ltac:(done)) as (d1 & d2 & -> & Q1 & Q2).
  cbn [dev sent] in *. pose proof (q_time _ _ _ _ _ Hq). pose proof (q_time _ _ _ _ _ Q1). pose proof (q_time _ _ _ _ _ Q2).
  unfold status_of. destruct (is_on d1) eqn:E1.
  - destruct (off_ok (B:=B) d2) as (d3 & Hs & Hoff & Ht).
    rewrite (send_says OFF_CMD (Ctl (Some true) d2 _) RESPONSE_DONE d3) by done.
    exists d3, [STATUS_CMD; OFF_CMD]. cbn [sent]. rewrite <- app_assoc. split_and!; [done|done|lia|done].
  - exists d2, [STATUS_CMD]. split_and!; [done|by apply (q_off _ _ _ _ _ Q2)|lia|].
    intros Hst Hon. destruct (q_steady _ _ _ _ _ Hq Hst) as [Hs1 E]. destruct (q_steady _ _ _ _ _ Q1 Hs1). congruence.
Qed.
(** A machine that is off is switched on. *)
Lemma power_on_spec s : ready s -> is_on (dev s) = false ->
  exists d', power_on B s = (Ret (Flag true), Ctl (Some true) d' (sent s ++ [STATUS_CMD; ON_CMD])) /\
    is_on d' = true /\ steady d'.
Proof.
  intros Hr Hoff. destruct (connect_ready s Hr) as (d & Hc & Hq). unfold power_on, connected_or_false, pm_bind.
  rewrite Hc. cbn [negb]. destruct (status_spec (Ctl (Some true) d (sent s)) ltac:(done)) as (d1 & d2 & -> & Q1 & Q2).
  cbn [dev sent] in *. apply (q_off _ _ _ _ _ Hq) in Hoff. apply (q_off _ _ _ _ _ Q1) in Hoff.
  unfold status_of. rewrite Hoff. cbn. apply (q_off _ _ _ _ _ Q2) in Hoff.
  destruct (on_ok (B:=B) d2 (off_steady _ Hoff)) as (d3 & Hs & Hon & Hst & _).
  rewrite (send_says ON_CMD (Ctl (Some true) d2 _) RESPONSE_DONE d3) by done.
  exists d3. cbn [sent]. rewrite <- app_assoc. by split_and!.
Qed.

Lemma wait_off_off fuel start s : ready s -> is_on (dev s) = false -> (0 < fuel)%nat ->
  exists d' , wait_off B fuel start s = (Ret tt, Ctl (Some true) d' (sent s ++ [STATUS_CMD])) /\ is_on d' = false.
Proof.
  intros Hr Hoff Hf. destruct fuel as [|n]; [lia|]. cbn [wait_off]. unfold pm_bind.
  destruct (status_steady s Hr (off_steady _ Hoff)) as (d' & -> & Hon & _). rewrite Hoff in Hon.
  exists d'. unfold status_of. rewrite Hoff. by split.
Qed.
(** The wait ends: within the time limit by itself, after it by the button. *)
Lemma wait_off_ends fuel start s : ready s ->
  (exists n, fuel = S n /\ (0 < n)%nat /\ 121 < time B (dev s) - start + Z.of_nat n) ->
  exists d' l, wait_off B fuel start s = (Ret tt, Ctl (Some true) d' (sent s ++ l)) /\ is_on d' = false.
Proof.
  revert s. induction fuel as [|fuel IH]; intros s Hr (n & En & Hn & Ht); [done|]. injection En as ->.
  cbn [wait_off]. unfold pm_bind at 1. destruct (status_spec s Hr) as (d & d' & -> & Q1 & Q2). unfold status_of.
  destruct (is_on d) eqn:Hon; cbn [bool_decide].
  2:{ exists d', [STATUS_CMD]. split; [done|]. by apply (q_off _ _ _ _ _ Q2). }
  rewrite bool_decide_false by done. unfold pm_bind, pm_get. cbn [dev].
  pose proof (q_time _ _ _ _ _ Q1). pose proof (q_time _ _ _ _ _ Q2).
  destruct (Z.ltb_spec 120 (time B d' - start)) as [Hlate|Hearly].
  - destruct (power_off_spec (Ctl (Some true) d' (sent s ++ [STATUS_CMD])) ltac:(done)) as (d2 & l & -> & Hoff & _).
    unfold pm_ret, pm_sleep, pm_modify, set_dev; cbn [dev sock sent]. name_state s2.
    assert (is_on (dev s2) = false) as Hoff2 by (apply (q_off _ _ _ _ _ (proj1 (sleep_ok (B:=B) 1 d2 ltac:(lia)))); done).
    destruct (wait_off_off n start s2 ltac:(done) Hoff2 Hn) as (d3 & -> & Hoff3).
    exists d3, ([STATUS_CMD] ++ l ++ [STATUS_CMD]). subst s2. cbn [sent]. by rewrite <- !app_assoc.
  - unfold pm_ret, pm_sleep, pm_modify, set_dev; cbn [dev sock sent]. name_state s2.
    pose proof (proj2 (sleep_ok (B:=B) 1 d' ltac:(lia))) as Ht2.
    destruct (IH s2) as (d3 & l & -> & Hoff); [done| |].
    + destruct n as [|n]; [lia|]. exists n. cbn [dev s2]. split; [done|]. subst s2. cbn [dev]. lia.
    + exists d3, ([STATUS_CMD] ++ l). subst s2. cbn [sent]. by rewrite <- !app_assoc.
Qed.

(** A reboot ends with the machine on: whether and whenever its system obeys the
    shutdown, the wait takes at most 122 rounds, after which the power has been cut, and
    the last commands ask for the status and switch the machine on. *)
Theorem reboot_completes s fuel : ready s -> (122 < fuel)%nat ->
  exists d' l, power_reboot B fuel s = (Ret tt, Ctl (Some true) d' (sent s ++ l ++ [STATUS_CMD; ON_CMD])) /\ is_on d' = true.
Proof.
  intros Hr Hf. unfold power_reboot. unfold pm_bind, pm_get. cbn [dev].
  destruct (status_spec s Hr) as (d & d' & -> & Q1 & Q2).
  pose proof (q_time _ _ _ _ _ Q1). pose proof (q_time _ _ _ _ _ Q2).
  assert (exists d2 l, (if bool_decide (status_of d = OFF) then pm_ret tt
            else fun s0 => match power_shutdown B s0 with (Ret _, s1) => pm_ret tt s1 | (Raise e, s1) => (Raise e, s1) end)
            (Ctl (Some true) d' (sent s ++ [STATUS_CMD])) = (Ret tt, Ctl (Some true) d2 (sent s ++ l)) /\
          time B (dev s) <= time B d2) as (d2 & l & -> & Ht).
  { case_bool_decide; [exists d', [STATUS_CMD]; split; [done|lia]|].
    destruct (command_spec SHUTDOWN_CMD (Ctl (Some true) d' (sent s ++ [STATUS_CMD])) RESPONSE_DONE
      (fun d2 => time B d' <= time B d2)) as (d2 & Hs & Ht); [done..| |].
    - intros d0 Hq. destruct (shutdown_ok (B:=B) d0) as (d2 & Hs & _ & Ht). exists d2. split; [done|].
      pose proof (q_time _ _ _ _ _ Hq). cbn [dev] in *. lia.
    - exists d2, [STATUS_CMD; SHUTDOWN_CMD]. unfold power_shutdown. rewrite Hs. cbn [sent]. rewrite <- app_assoc. split; [done|lia]. }
  destruct (wait_off_ends fuel (time B (dev s)) (Ctl (Some true) d2 (sent s ++ l))) as (d3 & l3 & -> & Hoff); [done| |].
  { destruct fuel as [|n]; [lia|]. exists n. cbn [dev]. split; [done|]. lia. }
  unfold pm_ret, pm_sleep, pm_modify, set_dev; cbn [dev sock sent]. name_state s3.
  destruct (power_on_spec s3) as (d4 & -> & Hon & _); [done|by apply (q_off _ _ _ _ _ (proj1 (sleep_ok (B:=B) 1 d3 ltac:(lia))))|].
  exists d4, (l ++ l3). subst s3. cbn [sent]. by rewrite <- !app_assoc.
Qed.

Lemma wait_status_now fuel s : ready s -> steady (dev s) -> (0 < fuel)%nat ->
  exists d', wait_status B fuel (status_of (dev s)) s = (Ret tt, Ctl (Some true) d' (sent s ++ [STATUS_CMD])) /\
    is_on d' = is_on (dev s) /\ steady d'.
Proof.
  intros Hr Hst Hf. destruct fuel as [|n]; [lia|]. cbn [wait_status]. unfold pm_bind.
  destruct (status_steady s Hr Hst) as (d' & -> & Hon & Hst' & _). exists d'. by rewrite bool_decide_true.
Qed.

(** A reset is a full power cycle: on a machine that is not shutting down it returns
    [True] with the machine on, and the commands sent are the status, the power off with its
    own check if the machine was on, the status, the power on with its check, the status. *)
Theorem reset_cycles s fuel : ready s -> steady (dev s) -> (0 < fuel)%nat ->
  exists d', power_reset B fuel s =
    (Ret true, Ctl (Some true) d' (sent s ++ [STATUS_CMD] ++
       (if is_on (dev s) then [STATUS_CMD; OFF_CMD] else []) ++ [STATUS_CMD; STATUS_CMD; ON_CMD; STATUS_CMD])) /\
    is_on d' = true /\ steady d'.
Proof.
  intros Hr Hst Hf. unfold power_reset. destruct (status_steady s Hr Hst) as (d & Hs & Hon & Hst1 & _).
  rewrite (bind_ret _ _ _ _ _ Hs).
  assert (exists d2, (if bool_decide (status_of (dev s) = OFF) then pm_ret tt else power_off B ;! pm_ret tt)
            (Ctl (Some true) d (sent s ++ [STATUS_CMD])) =
          (Ret tt, Ctl (Some true) d2 (sent s ++ [STATUS_CMD] ++ (if is_on (dev s) then [STATUS_CMD; OFF_CMD] else []))) /\
          is_on d2 = false) as (d2 & Hd2 & Hoff).
  { unfold status_of. rewrite <- Hon. destruct (is_on d) eqn:E; cbn [app].
    - destruct (power_off_spec (Ctl (Some true) d (sent s ++ [STATUS_CMD])) ltac:(done)) as (d2 & l & Hp & Hoff & _ & Hl).
      rewrite bool_decide_false by done. rewrite (bind_ret _ _ _ _ _ Hp), (Hl Hst1 E). exists d2. cbn [sent pm_ret].
      by rewrite <- app_assoc.
    - exists d. by rewrite bool_decide_true. }
  rewrite (bind_ret _ _ _ _ _ Hd2).
  match goal with |- context [Ctl (Some true) d2 ?l] => set (s2 := Ctl (Some true) d2 l) end.
  assert (OFF = status_of (dev s2)) as -> by (unfold status_of; cbn; by rewrite Hoff).
  destruct (wait_status_now fuel s2) as (d3 & Hw & Hoff3 & _); [done|by apply off_steady|done|].
  rewrite (bind_ret _ _ _ _ _ Hw), (bind_ret (pm_sleep B 20) _ _ tt _ eq_refl).
  destruct (power_on_spec (set_dev (sleep B 20 d3) (Ctl (Some true) d3 (sent s2 ++ [STATUS_CMD])))) as (d4 & Hp & Hon4 & Hst4);
    [done|apply (q_off _ _ _ _ _ (proj1 (sleep_ok (B:=B) 20 d3 ltac:(lia)))); cbn in Hoff3; congruence|].
  rewrite (bind_ret _ _ _ _ _ Hp).
  match goal with |- context [Ctl (Some true) d4 ?l] => set (s4 := Ctl (Some true) d4 l) end.
  assert (ON = status_of (dev s4)) as -> by (unfold status_of; cbn; by rewrite Hon4).
  destruct (wait_status_now fuel s4) as (d5 & Hw5 & Hon5 & Hst5); [done..|].
  rewrite (bind_ret _ _ _ _ _ Hw5). exists d5. split; [|split; [by rewrite Hon5|done]].
  subst s4 s2. cbn [sent set_dev pm_ret]. by rewrite <- !app_assoc.
Qed.
End power.

(** * An unreachable board *)

Section unreachable.
Context {D : Type} (B : board D) (refused : forall d, exists d', accept B d = (false, d')).
Definition cut_off (s : ctl (D:=D)) : Prop := sock s <> Some true.

Lemma connect_cut s : cut_off s ->
  exists ok s', _connect B s = (Ret ok, s') /\ sock s' = Some false /\ (sock s = None -> ok = false).
Proof.
  destruct s as [[[|]|] d l]; intros Hc; unfold _connect; cbn; [by destruct Hc| |].
  - by eexists true, _.
  - destruct (refused d) as (d' & ->). by eexists false, _.
Qed.
Lemma send_cut n msg s : cut_off s -> exists s', send_loop B n msg s = (Ret (Flag false), s') /\ cut_off s'.
Proof.
  revert s. induction n as [|n IH]; intros s Hc; [by exists s|]. cbn [send_loop]. unfold pm_bind.
  destruct (connect_cut s Hc) as ([|] & s' & -> & Hs & _); cbn [negb].
  - unfold attempt. rewrite Hs. cbn. rewrite Hs. apply IH. done.
  - exists s'. split; [done|]. unfold cut_off. by rewrite Hs.
Qed.
Lemma ask_cut m s : cut_off s -> (forall s, cut_off s -> exists s', m s = (Ret (Flag false), s') /\ cut_off s') ->
  exists s', connected_or_false B m s = (Ret (Flag false), s') /\ cut_off s'.
Proof.
  intros Hc Hm. unfold connected_or_false, pm_bind. destruct (connect_cut s Hc) as ([|] & s' & -> & Hs & _); cbn [negb].
  - apply Hm. unfold cut_off. by rewrite Hs.
  - exists s'. split; [done|]. unfold cut_off. by rewrite Hs.
Qed.
Lemma status_cut s : cut_off s -> exists s', power_status B s = (Ret (Flag false), s') /\ cut_off s'.
Proof. intros Hc. apply ask_cut; [done|]. intros. by apply send_cut. Qed.
Lemma off_cut s : cut_off s -> exists s', power_off B s = (Ret (Flag false), s') /\ cut_off s'.
Proof.
  intros Hc. apply ask_cut; [done|]. intros s1 H1. destruct (status_cut s1 H1) as (s2 & Hs & H2).
  rewrite (bind_ret _ _ _ _ _ Hs). by apply send_cut.
Qed.
Lemma wait_status_cut n st s : cut_off s -> st <> Flag false -> (wait_status B n st s).1 = Raise Diverges.
Proof.
  intros Hc Hst. revert s Hc. induction n as [|n IH]; intros s Hc; [done|]. cbn [wait_status].
  destruct (status_cut s Hc) as (s2 & Hs & H2). rewrite (bind_ret _ _ _ _ _ Hs), bool_decide_false by done.
  rewrite (bind_ret (pm_sleep B 1) _ _ tt _ eq_refl). by apply IH.
Qed.
Lemma wait_off_cut n start s : cut_off s -> (wait_off B n start s).1 = Raise Diverges.
Proof.
  revert s. induction n as [|n IH]; intros s Hc; [done|]. cbn [wait_off].
  destruct (status_cut s Hc) as (s2 & Hs & H2). rewrite (bind_ret _ _ _ _ _ Hs), bool_decide_false by done.
  rewrite (bind_ret (pm_get _) _ _ _ _ eq_refl). destruct (120 <? _).
  - destruct (off_cut s2 H2) as (s3 & Ho & H3).
    rewrite (bind_ret (power_off B ;! pm_ret tt) _ _ tt s3) by (by rewrite (bind_ret _ _ _ _ _ Ho)).
    rewrite (bind_ret (pm_sleep B 1) _ _ tt _ eq_refl). by apply IH.
  - rewrite (bind_ret (pm_ret tt) _ _ tt _ eq_refl), (bind_ret (pm_sleep B 1) _ _ tt _ eq_refl). by apply IH.
Qed.
Lemma bind_raise {S A C} (m : PM S A) (k : A -> PM S C) s e : (m s).1 = Raise e -> (pm_bind m k s).1 = Raise e.
Proof. unfold pm_bind. destruct (m s) as [[]]; cbn; congruence. Qed.

(** A board that refuses connections: resetting and rebooting the machine never return,
    however long they are let wait. *)
Theorem unreachable_board_hangs s fuel : cut_off s ->
  (power_reset B fuel s).1 = Raise Diverges /\ (power_reboot B fuel s).1 = Raise Diverges.
Proof.
  intros Hc. destruct (status_cut s Hc) as (s2 & Hs & H2). split.
  - unfold power_reset. rewrite (bind_ret _ _ _ _ _ Hs), bool_decide_false by done.
    destruct (off_cut s2 H2) as (s3 & Ho & H3).
    rewrite (bind_ret (power_off B ;! pm_ret tt) _ _ tt s3) by (by rewrite (bind_ret _ _ _ _ _ Ho)).
    apply bind_raise. by apply wait_status_cut.
  - unfold power_reboot. rewrite (bind_ret (pm_get _) _ _ _ _ eq_refl), (bind_ret _ _ _ _ _ Hs), bool_decide_false by done.
    destruct (ask_cut (_send_comand B SHUTDOWN_CMD) s2 H2) as (s3 & Ho & H3); [intros; by apply send_cut|].
    rewrite (bind_ret (power_shutdown B ;! pm_ret tt) _ _ tt s3) by (by rewrite (bind_ret _ _ _ _ _ Ho)).
    apply bind_raise. by apply wait_off_cut.
Qed.
End unreachable.

(** * A board with a machine *)

(** The machine, the half seconds until its system has shut down, if it is about to, and
    the clock; [obeys] is how long a shutdown takes, if the system obeys at all. *)
Record bench := Bench { b_on : bool; b_left : option Z; b_time : Z }.
Definition elapse (n : Z) (d : bench) : bench :=
  match b_left d with
  | Some k => if k <=? n then Bench false None (b_time d + n) else Bench (b_on d) (Some (k - n)) (b_time d + n)
  | None => Bench (b_on d) None (b_time d + n)
  end.
Definition bench_deliver (obeys : option Z) (msg : bytes) (d : bench) : option (option bytes) * bench :=
  if bool_decide (msg = ON_CMD ++ [END_MSG]) then (Some (Some RESPONSE_DONE), Bench true None (b_time d))
  else if bool_decide (msg = OFF_CMD ++ [END_MSG]) then (Some (Some RESPONSE_DONE), Bench false None (b_time d))
  else if bool_decide (msg = SHUTDOWN_CMD ++ [END_MSG]) then
    (Some (Some RESPONSE_DONE), Bench (b_on d) (if b_on d then obeys else b_left d) (b_time d))
  else if bool_decide (msg = STATUS_CMD ++ [END_MSG]) then (Some (Some (if b_on d then lit "ON" else lit "OFF")), d)
  else (Some None, d).
Definition bench_board (obeys : option Z) : board bench :=
  Board_ (fun d => (true, d)) (bench_deliver obeys) id elapse b_time.
Definition bench_steady (d : bench) : Prop := b_left d = None \/ b_on d = false.

#[global] Instance bench_promises obeys : Board (bench_board obeys) b_on bench_steady.
Proof.
  assert (forall d, quiet (bench_board obeys) b_on bench_steady d d) as Hq
    by (intros; split; [lia|auto|auto]).
  split.
  - by right.
  - intros d. by exists d.
  - intros d. exists d. by split.
  - intros d. exists (Bench false None (b_time d)). cbn. split_and!; [done..|lia].
  - intros d Hd. exists (Bench true None (b_time d)). cbn. split_and!; [done|done|by left|lia].
  - intros d. eexists. split; [done|]. cbn. split; [done|lia].
  - intros n d Hn. cbn. unfold elapse. destruct d as [on [k|] t]; cbn.
    + destruct (k <=? n); cbn; split; try lia; split; cbn; try done; try lia; intros [H|H]; cbn in *; try done; (split; [by right|done]).
    + split; [|lia]. split; cbn; [lia|done|done].
Qed.

(** A machine whose system never shuts down is rebooted by force. *)
Lemma reboot_completes_witness :
  exists d' l, power_reboot (bench_board None) 123 (Ctl None (Bench true None 0) []) =
    (Ret tt, Ctl (Some true) d' (l ++ [STATUS_CMD; ON_CMD])) /\ b_on d' = true.
Proof. apply (reboot_completes (bench_board None) (Ctl None (Bench true None 0) [])); [done|lia]. Defined.
Lemma reset_cycles_witness :
  exists d', power_reset (bench_board (Some 30)) 1 (Ctl None (Bench true None 0) []) =
    (Ret true, Ctl (Some true) d' [STATUS_CMD; STATUS_CMD; OFF_CMD; STATUS_CMD; STATUS_CMD; ON_CMD; STATUS_CMD]) /\
    b_on d' = true /\ bench_steady d'.
Proof. apply (reset_cycles (bench_board (Some 30)) (is_on:=b_on) (steady:=bench_steady) (Ctl None (Bench true None 0) [])); [done|by left|lia]. Defined.
Lemma unreachable_board_hangs_witness :
  let B := Board_ (fun t => (false, t)) (fun _ t => (None, t)) id (fun n t => t + n) id in
  (power_reset B 1000 (Ctl None 0 [])).1 = Raise Diverges /\ (power_reboot B 1000 (Ctl None 0 [])).1 = Raise Diverges.
Proof. apply unreachable_board_hangs; [intros d; by exists d|done]. Defined.
