(* ===== verification/ControlVirtual.v ===== *)
(** Model of [lophi/sensors/control/virtual.py]: the sensor that controls a virtual machine
    through libvirt, under a lock that all sensors share.  The hypervisor is a parameter.
    Theorems: the lock is free after every operation that libvirt carries out and no such
    operation blocks, a failing one keeps it and the next blocks, and the text of a script
    arrives at the guest. *)
From S2P Require Import Prelude Struct PyString Keypress.

(** * The hypervisor *)

(** The calls that change a domain *)
Inductive lcall :=
  | Create | Destroy | Shutdown | ResetDom | RebootDom | Suspend | Resume | Save (file : bytes)
  | Restore (file : bytes) | RestorePaused (file : bytes) | CreateXML (config : bytes) (start_paused : bool)
  | SendKey (keys : list Z) | Screenshot (file : bytes) | CreateNetwork | DefineFilter.
(** What the description of a domain holds: graphics (type and port), memory sizes (unit and
    number), disks (device and source files) and interfaces (target devices) *)
Record vmxml := VmXml {
  domain_type : bytes; graphics : list (bytes * bytes); memories : list (bytes * bytes);
  disks : list (bytes * list bytes); interfaces : list (list bytes)
}.
Record hypervisor (L : Type) := Hypervisor {
  lookup_dom : L -> bool;
  call : lcall -> PM L unit;
  dom_state : L -> res (list Z);
  xml_desc : L -> res vmxml;
  has_network : L -> bool;
  has_filter : L -> bool
}.
Arguments Hypervisor {L}.
Arguments lookup_dom {L}.
Arguments call {L}.
Arguments dom_state {L}.
Arguments xml_desc {L}.
Arguments has_network {L}.
Arguments has_filter {L}.

Inductive machine_type := PHYSICAL | XEN | KVM.
#[global] Instance machine_type_eq_dec : EqDecision machine_type.
Proof. solve_decision. Defined.
(** [virDomainState] *)
Definition VIR_DOMAIN_NOSTATE := 0.
Definition VIR_DOMAIN_RUNNING := 1.
Definition VIR_DOMAIN_BLOCKED := 2.
Definition VIR_DOMAIN_PAUSED := 3.
Definition VIR_DOMAIN_SHUTDOWN := 4.
Definition VIR_DOMAIN_SHUTOFF := 5.
Inductive power := PowerON | PowerOFF | PowerUNKNOWN.

(** * The sensor *)

Section sensor.
Context {L : Type} (H : hypervisor L) (REQUIRE_MUTEX : bool).

(** The lock, the hypervisor, the type of the machine and the flag of the class *)
Record vctl := VCtl { locked : bool; lv : L; MACHINE_TYPE : option machine_type; ISOLATED_NETWORK_CREATED : bool; slept : list Z }.
Definition set_locked x s := VCtl x (lv s) (MACHINE_TYPE s) (ISOLATED_NETWORK_CREATED s) (slept s).
Definition set_lv x s := VCtl (locked s) x (MACHINE_TYPE s) (ISOLATED_NETWORK_CREATED s) (slept s).
Definition set_type x s := VCtl (locked s) (lv s) x (ISOLATED_NETWORK_CREATED s) (slept s).
Definition set_isolated x s := VCtl (locked s) (lv s) (MACHINE_TYPE s) x (slept s).
Definition set_slept x s := VCtl (locked s) (lv s) (MACHINE_TYPE s) (ISOLATED_NETWORK_CREATED s) x.
Abbreviation M := (PM vctl).

(** Whether the domain exists; acquiring a held lock blocks. *)
Definition _connect : M bool := fun s =>
  if REQUIRE_MUTEX && locked s then (Raise Diverges, s)
  else let s := if REQUIRE_MUTEX then set_locked true s else s in (Ret (lookup_dom H (lv s)), s).
Definition _disconnect : M unit := pm_modify (fun s => if REQUIRE_MUTEX then set_locked false s else s).
Definition libvirt (c : lcall) : M unit := fun s => let (r, l) := call H c (lv s) in (r, set_lv l s).
(** An attribute that no class defines *)
Definition missing {A} : M A := pm_raise AttributeError.
(** [_connect], the body if the domain exists, [_disconnect] *)
Definition with_dom (m : M unit) : M unit :=
  let! found := _connect in (if found then m else pm_ret tt) ;! _disconnect.
Definition ask_dom {A} (default : A) (m : M A) : M A :=
  let! found := _connect in let! r := (if found then m else pm_ret default) in _disconnect ;! pm_ret r.

Definition detect_type : M unit :=
  let! x := (fun s => (xml_desc H (lv s), s)) in
  if bool_decide (domain_type x = lit "kvm") then pm_modify (set_type (Some KVM))
  else if bool_decide (domain_type x = lit "xen") then pm_modify (set_type (Some XEN)) else pm_ret tt.
Definition create_network : M unit :=
  let! net := pm_get (fun s => has_network H (lv s)) in
  let! nwf := pm_get (fun s => has_filter H (lv s)) in
  (if net then pm_ret tt else libvirt CreateNetwork) ;!
  (if nwf then pm_ret tt else libvirt DefineFilter) ;!
  pm_modify (set_isolated true).
Definition __init__ (vm_type : option machine_type) (isolated_network : bool) : M unit :=
  pm_modify (set_type vm_type) ;!
  let! found := _connect in
  ((if found && bool_decide (vm_type = None) then detect_type else pm_ret tt) ;!
   let! created := pm_get ISOLATED_NETWORK_CREATED in
   if isolated_network && negb created then pm_catch create_network (fun _ => pm_ret tt) else pm_ret tt) ;!
  _disconnect ;!
  let! t := pm_get MACHINE_TYPE in
  if bool_decide (t = None) then pm_modify (set_type (Some KVM)) else pm_ret tt.

Definition xml_of : M vmxml := fun s => (xml_desc H (lv s), s).
(** The last port of type vnc *)
Fixpoint vnc_port (gs : list (bytes * bytes)) (port : option Z) : res (option Z) :=
  match gs with
  | [] => Ret port
  | (t, p) :: gs => if bool_decide (t = lit "vnc") then let? n := py_int p in vnc_port gs (Some n) else vnc_port gs port
  end.
Definition _get_vnc_port : M (option Z) :=
  ask_dom None (let! x := xml_of in pm_lift (vnc_port (graphics x) None)).

Definition pm_slept (n : Z) : M unit := pm_modify (fun s => set_slept (slept s ++ [n]) s).
Fixpoint send_presses (ps : list press) : M unit :=
  match ps with
  | [] => pm_ret tt
  | Chord c :: ps => libvirt (SendKey c) ;! send_presses ps
  | Key k :: ps => libvirt (SendKey [k]) ;! send_presses ps
  end.
Fixpoint send_messages (keypresses : list vmsg) : M unit :=
  match keypresses with
  | [] => pm_ret tt
  | line :: rest =>
      match line with
      | Special keys => libvirt (SendKey keys)
      | Sleep payload => let! n := pm_lift (py_int payload) in if n <? 0 then pm_raise IOError else pm_slept n
      | Text presses => send_presses presses
      end ;! send_messages rest
  end.
Definition keypress_send (keypresses : list vmsg) : M unit := with_dom (send_messages keypresses).

(** Power *)
Definition power_on : M bool := ask_dom false (pm_catch (libvirt Create) (fun _ => pm_ret tt) ;! pm_ret true).
(** The handler does not disconnect. *)
Definition power_off : M unit := pm_catch (with_dom (libvirt Destroy)) (fun e => match e with Diverges => pm_raise Diverges | _ => pm_ret tt end).
Definition power_shutdown : M unit := with_dom (libvirt Shutdown).
Definition power_reset : M unit := with_dom (libvirt ResetDom).
Definition power_reboot : M unit := with_dom (libvirt RebootDom).
Definition get_state : M (option (list Z)) :=
  ask_dom None (let! l := (fun s => (dom_state H (lv s), s)) in pm_ret (Some l)).
Definition power_status : M power :=
  let! state := get_state in
  match state with
  | None => pm_ret PowerUNKNOWN
  | Some l =>
      let! st := pm_lift (py_index l 0) in
      if bool_decide (st ∈ [VIR_DOMAIN_RUNNING; VIR_DOMAIN_BLOCKED; VIR_DOMAIN_PAUSED]) then pm_ret PowerON
      else if bool_decide (st ∈ [VIR_DOMAIN_SHUTDOWN; VIR_DOMAIN_SHUTOFF]) then pm_ret PowerOFF
      else pm_ret PowerUNKNOWN
  end.

(** Machines *)
Definition machine_create (xml_config : bytes) (paused : bool) : M unit :=
  let! found := _connect in
  (if found then pm_ret tt
   else if paused then
     let! t := pm_get MACHINE_TYPE in
     if bool_decide (t = Some KVM) then libvirt (CreateXML xml_config true)
     else libvirt (CreateXML xml_config false) ;! libvirt Suspend
   else libvirt (CreateXML xml_config false)) ;!
  _disconnect.
Definition machine_pause : M unit := with_dom (libvirt Suspend).
Definition machine_resume : M unit := with_dom (libvirt Resume).
(** [SNAPSHOT_NAME] and [SNAPSHOT_XML] are no attributes of the sensor. *)
Definition machine_snapshot : M (option bool) :=
  let! t := pm_get MACHINE_TYPE in
  if bool_decide (t = Some XEN) then pm_ret (Some false) else
  with_dom (if bool_decide (t = Some KVM) then pm_catch missing (fun _ => missing) else pm_ret tt) ;!
  pm_ret None.
(** Neither [machine_reset] nor [detach_usb] is a method of the sensor. *)
Definition machine_snapshot_restore : M bool :=
  let! t := pm_get MACHINE_TYPE in
  if bool_decide (t = Some XEN) then missing else missing.
Definition has_lophi_snapshot : M bool := ask_dom false (pm_catch (missing (A:=unit) ;! pm_ret true) (fun _ => pm_ret false)).
Definition machine_save (filename : bytes) : M unit :=
  let! t := pm_get MACHINE_TYPE in
  (if bool_decide (t = Some XEN) then machine_resume else pm_ret tt) ;!
  with_dom (libvirt (Save filename)).
Definition machine_restore (filename : bytes) (paused : bool) : M unit :=
  let! _ := _connect in
  (let! t := pm_get MACHINE_TYPE in
   if bool_decide (t = Some KVM) then libvirt (if paused then RestorePaused filename else Restore filename)
   else if paused then pm_ret tt else libvirt (Restore filename)) ;!
  _disconnect.
(** The file written, or [None] for [False]; a machine that does not exist gives the name too. *)
Definition screenshot (filename : bytes) : M (option bytes) :=
  let rtn := filename ++ lit ".ppm" in
  ask_dom (Some rtn) (pm_catch (libvirt (Screenshot rtn) ;! pm_ret (Some rtn)) (fun _ => pm_ret None)).

(** Descriptions *)
Fixpoint memory_size (ms : list (bytes * bytes)) (rtn : option Z) : res (option Z) :=
  match ms with
  | [] => Ret rtn
  | (unit_, n) :: ms =>
      if bool_decide (unit_ = lit "KiB") then let? z := py_int n in memory_size ms (Some (z * 1024)) else memory_size ms rtn
  end.
Definition memory_get_size : M (option Z) := ask_dom None (let! x := xml_of in pm_lift (memory_size (memories x) None)).
Fixpoint disk_file (ds : list (bytes * list bytes)) (rtn : option bytes) : res (option bytes) :=
  match ds with
  | [] => Ret rtn
  | (device, source) :: ds =>
      if bool_decide (device = lit "disk") then let? f := of_option IndexError (head source) in disk_file ds (Some f)
      else disk_file ds rtn
  end.
Definition disk_get_filename : M (option bytes) := ask_dom None (let! x := xml_of in pm_lift (disk_file (disks x) None)).
Definition network_get_interface : M (option bytes) :=
  ask_dom None (pm_catch
    (let! x := xml_of in
     let! target := pm_lift (of_option IndexError (head (interfaces x))) in
     let! dev := pm_lift (of_option IndexError (head target)) in pm_ret (Some dev))
    (fun _ => pm_ret None)).
End sensor.

(** * The operations *)

Inductive vop :=
  | Init (vm_type : option machine_type) (isolated : bool) | VncPort | KeypressSend (ms : list vmsg)
  | PowerOn | PowerOff | PowerShutdown | PowerReset | PowerReboot | PowerStatus
  | MachineCreate (config : bytes) (paused : bool) | MachinePause | MachineResume | MachineSnapshot | MachineSnapshotRestore
  | MachineSave (file : bytes) | MachineRestore (file : bytes) (paused : bool) | TakeScreenshot (file : bytes)
  | MemoryGetSize | DiskGetFilename | NetworkGetInterface | HasSnapshot.
Definition ignore {S A} (m : PM S A) : PM S unit := m ;! pm_ret tt.
Definition run_op {L} (H : hypervisor L) (mutex : bool) (op : vop) : PM vctl unit :=
  match op with
  | Init t i => __init__ H mutex t i
  | VncPort => ignore (_get_vnc_port H mutex)
  | KeypressSend ms => keypress_send H mutex ms
  | PowerOn => ignore (power_on H mutex)
  | PowerOff => power_off H mutex
  | PowerShutdown => power_shutdown H mutex
  | PowerReset => power_reset H mutex
  | PowerReboot => power_reboot H mutex
  | PowerStatus => ignore (power_status H mutex)
  | MachineCreate c p => machine_create H mutex c p
  | MachinePause => machine_pause H mutex
  | MachineResume => machine_resume H mutex
  | MachineSnapshot => ignore (machine_snapshot H mutex)
  | MachineSnapshotRestore => ignore machine_snapshot_restore
  | MachineSave f => machine_save H mutex f
  | MachineRestore f p => machine_restore H mutex f p
  | TakeScreenshot f => ignore (screenshot H mutex f)
  | MemoryGetSize => ignore (memory_get_size H mutex)
  | DiskGetFilename => ignore (disk_get_filename H mutex)
  | NetworkGetInterface => ignore (network_get_interface H mutex)
  | HasSnapshot => ignore (has_lophi_snapshot H mutex)
  end.

(** The hypervisor answers every call, with a result or an exception. *)
Record live {L} (H : hypervisor L) : Prop := {
  live_call c l : (call H c l).1 <> Raise Diverges;
  live_state l : dom_state H l <> Raise Diverges;
  live_xml l : xml_desc H l <> Raise Diverges
}.

Section lock.
Context {L : Type} (H : hypervisor L) (Hlive : live H).

(** The lock is not touched and nothing blocks. *)
Definition neutral {A} (m : PM (vctl (L:=L)) A) : Prop :=
  forall s, locked (m s).2 = locked s /\ (m s).1 <> Raise Diverges.
(** Starting with a free lock, nothing blocks and the lock is free after a return. *)
Definition orderly {A} (m : PM (vctl (L:=L)) A) : Prop :=
  forall s, locked s = false -> (m s).1 <> Raise Diverges /\ (forall a, (m s).1 = Ret a -> locked (m s).2 = false).

Lemma neutral_bind {A C} (m : PM vctl A) (k : A -> PM vctl C) : neutral m -> (forall a, neutral (k a)) -> neutral (pm_bind m k).
Proof.
  intros Hm Hk s. unfold pm_bind. destruct (Hm s) as [H1 H2]. destruct (m s) as [[a|e] s']; cbn in *; [|split; congruence].
  destruct (Hk a s') as [H3 H4]. split; [congruence|done].
Qed.
Lemma neutral_catch {A} (m : PM vctl A) h : neutral m -> (forall e, neutral (h e)) -> neutral (pm_catch m h).
Proof.
  intros Hm Hk s. unfold pm_catch. destruct (Hm s) as [H1 H2]. destruct (m s) as [[a|e] s']; cbn in *; [done|].
  destruct (Hk e s') as [H3 H4]. split; [congruence|done].
Qed.
Lemma neutral_ret {A} (a : A) : neutral (pm_ret a).
Proof. by intros s. Qed.
Lemma neutral_raise {A} e : e <> Diverges -> neutral (pm_raise (A:=A) e).
Proof. intros He s. cbn. split; congruence. Qed.
Lemma neutral_missing {A} : neutral (missing (A:=A)).
Proof. by apply neutral_raise. Qed.
Lemma neutral_lift {A} (r : res A) : r <> Raise Diverges -> neutral (pm_lift r).
Proof. by intros Hr s. Qed.
Lemma neutral_get {A} (f : vctl -> A) : neutral (pm_get f).
Proof. by intros s. Qed.
Lemma neutral_modify f : (forall s, locked (f s) = locked s) -> neutral (pm_modify f).
Proof. intros Hf s. split; [apply Hf|done]. Qed.
Lemma neutral_libvirt c : neutral (libvirt H c).
Proof. intros s. unfold libvirt. pose proof (live_call _ Hlive c (lv s)). by destruct (call H c (lv s)). Qed.
Lemma neutral_xml : neutral (xml_of H).
Proof. intros s. split; [done|]. apply (live_xml _ Hlive). Qed.
Lemma neutral_if {A} (b : bool) (m1 m2 : PM vctl A) : neutral m1 -> neutral m2 -> neutral (if b then m1 else m2).
Proof. by destruct b. Qed.

(** A connection around a body that leaves the lock alone *)
Lemma orderly_session {A C} mutex (body : bool -> PM vctl A) (k : A -> PM vctl C) :
  (forall b, neutral (body b)) ->
  (forall a s, locked s = false -> (k a s).1 <> Raise Diverges /\ (forall c, (k a s).1 = Ret c -> locked (k a s).2 = false)) ->
  orderly (let! found := _connect H mutex in let! r := body found in let! _ := _disconnect mutex in k r).
Proof.
  intros Hm Hk s Hs. unfold pm_bind, _connect, _disconnect, pm_modify. rewrite Hs, andb_false_r.
  set (s1 := if mutex then _ else s). destruct (Hm (lookup_dom H (lv s1)) s1) as [H1 H2].
  destruct (body _ s1) as [[a|e] s2]; cbn in *; [|split; congruence]. apply Hk.
  subst s1. destruct mutex; cbn in *; congruence.
Qed.
Lemma orderly_session' {A} mutex (body : bool -> PM vctl A) :
  (forall b, neutral (body b)) ->
  orderly (let! found := _connect H mutex in let! _ := body found in _disconnect mutex).
Proof.
  intros Hm s Hs. pose proof (orderly_session mutex body (fun _ => pm_ret tt) Hm ltac:(done) s Hs) as Ho.
  unfold pm_bind in *. destruct (_connect H mutex s) as [[b|] s1]; [|done]. by destruct (body b s1) as [[]].
Qed.
Lemma orderly_ask {A} mutex d (m : PM vctl A) : neutral m -> orderly (ask_dom H mutex d m).
Proof.
  intros Hm. apply (orderly_session mutex (fun found => if found then m else pm_ret d)); [|done].
  intros []; [done|apply neutral_ret].
Qed.
Lemma orderly_with mutex m : neutral m -> orderly (with_dom H mutex m).
Proof. intros Hm. apply (orderly_session' mutex (fun found => if found then m else pm_ret tt)). intros []; [done|apply neutral_ret]. Qed.
Lemma orderly_ignore {A} (m : PM vctl A) : orderly m -> orderly (ignore m).
Proof.
  intros Hm s Hs. destruct (Hm s Hs) as [H1 H2]. unfold ignore, pm_bind. destruct (m s) as [[a|e] s']; cbn in *; [|split; congruence].
  split; [done|]. intros _ _. by apply (H2 a).
Qed.
Lemma orderly_neutral {A} (m : PM vctl A) : neutral m -> orderly m.
Proof. intros Hm s Hs. destruct (Hm s) as [H1 H2]. split; [done|]. intros. congruence. Qed.
Lemma orderly_seq {A C} (m : PM vctl A) (k : A -> PM vctl C) : orderly m -> (forall a, orderly (k a)) -> orderly (pm_bind m k).
Proof.
  intros Hm Hk s Hs. destruct (Hm s Hs) as [H1 H2]. unfold pm_bind. destruct (m s) as [[a|e] s']; cbn in *; [|split; congruence].
  apply Hk. by apply (H2 a).
Qed.
Lemma orderly_if {A} (b : bool) (m1 m2 : PM vctl A) : orderly m1 -> orderly m2 -> orderly (if b then m1 else m2).
Proof. by destruct b. Qed.
End lock.
Create HintDb py_lock.
#[export] Hint Resolve neutral_bind neutral_catch neutral_ret neutral_missing neutral_get neutral_modify neutral_libvirt neutral_xml
  neutral_if neutral_lift neutral_raise orderly_ask orderly_with orderly_ignore : py_lock.

Section discipline.
Context {L : Type} (H : hypervisor L) (Hlive : live H) (mutex : bool).

Lemma neutral_detect : neutral (detect_type H).
Proof. unfold detect_type. eauto 10 with py_lock. Qed.
Lemma neutral_network : neutral (create_network H).
Proof. unfold create_network. eauto 12 with py_lock. Qed.
Lemma int_live s : py_int s <> Raise Diverges.
Proof. unfold py_int. by destruct (match strip s with [] => _ | _ => _ end). Qed.
Lemma vnc_live gs p : vnc_port gs p <> Raise Diverges.
Proof.
  revert p. induction gs as [|[t x] gs IH]; intros p; cbn; [done|]. case_bool_decide; [|done].
  pose proof (int_live x). destruct (py_int x); cbn; [done|congruence].
Qed.
Lemma memory_live gs p : memory_size gs p <> Raise Diverges.
Proof.
  revert p. induction gs as [|[t x] gs IH]; intros p; cbn; [done|]. case_bool_decide; [|done].
  pose proof (int_live x). destruct (py_int x); cbn; [done|congruence].
Qed.
Lemma disk_live gs p : disk_file gs p <> Raise Diverges.
Proof. revert p. induction gs as [|[t [|x l]] gs IH]; intros p; cbn; [done|..]; by case_bool_decide. Qed.
Lemma option_live {A} e (o : option A) : e <> Diverges -> of_option e o <> Raise Diverges.
Proof. destruct o; cbn; congruence. Qed.
Hint Resolve neutral_detect neutral_network int_live vnc_live memory_live disk_live option_live : py_lock.
Lemma neutral_presses ps : neutral (send_presses H ps).
Proof. induction ps as [|[k|c] ps IH]; cbn; eauto with py_lock. Qed.
Hint Resolve neutral_presses : py_lock.
Lemma neutral_messages ms : neutral (send_messages H ms).
Proof.
  induction ms as [|[ks|ps|p] ms IH]; cbn -[Z.ltb py_int]; [eauto with py_lock..|].
  apply neutral_bind; [|done]. apply neutral_bind; [eauto with py_lock|]. intros n.
  apply neutral_if; [by apply neutral_raise|]. by apply neutral_modify.
Qed.
Hint Resolve neutral_messages : py_lock.
Lemma neutral_state : neutral (A:=list Z) (fun s : vctl => (dom_state H (lv s), s)).
Proof. intros s. split; [done|]. apply (live_state _ Hlive). Qed.
Hint Resolve neutral_state : py_lock.
Lemma neutral_index (l : list Z) : neutral (L:=L) (pm_lift (py_index l 0)).
Proof. apply neutral_lift. unfold py_index. cbn. by apply option_live. Qed.

Lemma orderly_create xml p : orderly (machine_create H mutex xml p).
Proof.
  apply (orderly_session' H mutex (fun found => if found then pm_ret tt else _)). intros []; [apply neutral_ret|].
  eauto 10 with py_lock.
Qed.
Lemma orderly_restore f p : orderly (machine_restore H mutex f p).
Proof.
  apply (orderly_session' H mutex (fun _ => let! t := pm_get MACHINE_TYPE in _)). eauto 10 with py_lock.
Qed.
Lemma orderly_init t i : orderly (__init__ H mutex t i).
Proof.
  unfold __init__. apply orderly_seq; [by apply orderly_neutral, neutral_modify|intros _].
  apply (orderly_session H mutex (fun found => pm_bind _ _) (fun _ => pm_bind _ _)); [eauto 10 with py_lock|].
  intros _ s0 H0. apply orderly_neutral; [|done]. eauto 10 with py_lock.
Qed.

Lemma orderly_op op : op <> PowerOff -> orderly (run_op H mutex op).
Proof.
  intros Hop. destruct op; cbn [run_op]; try apply orderly_ignore.
  - apply orderly_init.
  - apply orderly_ask. eauto with py_lock.
  - apply orderly_with. eauto with py_lock.
  - apply orderly_ask. eauto with py_lock.
  - done.
  - apply orderly_with. eauto with py_lock.
  - apply orderly_with. eauto with py_lock.
  - apply orderly_with. eauto with py_lock.
  - unfold power_status. apply orderly_seq; [apply orderly_ask; eauto with py_lock|].
    intros [l|]; apply orderly_neutral; [|apply neutral_ret]. apply neutral_bind; [apply neutral_index|]. eauto with py_lock.
  - apply orderly_create.
  - apply orderly_with. eauto with py_lock.
  - apply orderly_with. eauto with py_lock.
  - unfold machine_snapshot. apply orderly_seq; [apply orderly_neutral; eauto with py_lock|]. intros t.
    apply orderly_if; [apply orderly_neutral; eauto with py_lock|].
    apply orderly_seq; [apply orderly_with; eauto with py_lock|intros; apply orderly_neutral; eauto with py_lock].
  - apply orderly_neutral. unfold machine_snapshot_restore. eauto with py_lock.
  - unfold machine_save. apply orderly_seq; [apply orderly_neutral; eauto with py_lock|]. intros t.
    apply orderly_seq; [apply orderly_if; [apply orderly_with|apply orderly_neutral]; eauto with py_lock|].
    intros _. apply orderly_with. eauto with py_lock.
  - apply orderly_restore.
  - apply orderly_ask. eauto with py_lock.
  - apply orderly_ask. eauto with py_lock.
  - apply orderly_ask. eauto with py_lock.
  - apply orderly_ask. eauto 10 with py_lock.
  - apply orderly_ask. eauto 10 with py_lock.
Qed.

(** The lock: starting with the lock free, no operation of the sensor blocks, and the lock
    is free again after every operation that returns; for switching the power off this
    takes that libvirt carries the call out. *)
Theorem lock_discipline op s :
  locked s = false -> (op = PowerOff -> exists l, call H Destroy (lv s) = (Ret tt, l)) ->
  let (r, s') := run_op H mutex op s in
  r <> Raise Diverges /\ (r = Ret tt -> locked s' = false).
Proof.
  intros Hs Hoff. assert (forall r s', run_op H mutex op s = (r, s') -> r <> Raise Diverges /\ (r = Ret tt -> locked s' = false)) as Hx;
    [|by destruct (run_op H mutex op s); apply Hx].
  intros r s' E. assert (op = PowerOff \/ op <> PowerOff) as [->|Hop] by (destruct op; auto; by right).
  - destruct (Hoff eq_refl) as [l Hl]. cbn [run_op] in E. unfold power_off, pm_catch, with_dom, pm_bind, _connect, _disconnect, pm_modify, libvirt in E.
    rewrite Hs, andb_false_r in E. destruct mutex; cbn in E; destruct (lookup_dom H (lv s)); cbn in E; rewrite ?Hl in E; by simplify_eq/=.
  - destruct (orderly_op op Hop s Hs) as [H1 H2]. rewrite E in H1, H2. split; [done|]. intros ->. by apply (H2 tt).
Qed.
End discipline.

Section lost.
Context {L : Type} (H : hypervisor L).

(** Operations that connect *)
Definition connects (op : vop) (t : option machine_type) : bool :=
  match op with
  | MachineSnapshotRestore => false
  | MachineSnapshot => negb (bool_decide (t = Some XEN))
  | _ => true
  end.
Lemma connect_blocks s : locked s = true -> _connect H true s = (Raise Diverges, s).
Proof. intros Hs. unfold _connect. by rewrite Hs. Qed.
Lemma bind_blocks {A C} (m : PM (vctl (L:=L)) A) (k : A -> PM vctl C) s :
  (m s).1 = Raise Diverges -> (pm_bind m k s).1 = Raise Diverges.
Proof. unfold pm_bind. destruct (m s) as [[]]; cbn; congruence. Qed.
Lemma held_lock_blocks op s : locked s = true -> connects op (MACHINE_TYPE s) = true -> (run_op H true op s).1 = Raise Diverges.
Proof.
  intros Hs Hc. assert (forall A (k : bool -> PM vctl A), (pm_bind (_connect H true) k s).1 = Raise Diverges) as Hb
    by (intros; apply bind_blocks; by rewrite connect_blocks).
  assert (forall m, (with_dom H true m s).1 = Raise Diverges) as Hw by (intros; apply Hb).
  assert (forall A d m, (ask_dom (A:=A) H true d m s).1 = Raise Diverges) as Ha by (intros; apply Hb).
  destruct op; cbn [run_op];
    try (first [apply Hb | apply Hw | apply bind_blocks; apply Ha | by cbn in Hc]).
  - unfold __init__, pm_bind at 1. cbn [pm_modify]. apply bind_blocks. by rewrite connect_blocks.
  - unfold power_off, pm_catch. specialize (Hw (libvirt H Destroy)). destruct (with_dom H true _ s) as [[]]; cbn in *; [done|].
    by injection Hw as ->.
  - apply bind_blocks. unfold power_status. apply bind_blocks, Ha.
  - apply bind_blocks. unfold machine_snapshot. cbn in Hc |- *. unfold pm_bind at 1, pm_get.
    destruct (bool_decide (MACHINE_TYPE s = Some XEN)); [done|]. apply bind_blocks, Hw.
  - unfold machine_save. unfold pm_bind at 1, pm_get. destruct (bool_decide _); [apply bind_blocks, Hw|].
    unfold pm_bind at 1. cbn. apply Hw.
Qed.

(** A lost lock: when libvirt refuses to destroy the domain, for example because it is
    off already, switching the power off returns normally and keeps the lock, and every
    operation that connects then blocks for ever. *)
Theorem failed_power_off_keeps_lock s e l :
  locked s = false -> lookup_dom H (lv s) = true -> call H Destroy (lv s) = (Raise e, l) -> e <> Diverges ->
  exists s', run_op H true PowerOff s = (Ret tt, s') /\
    forall op, connects op (MACHINE_TYPE s') = true -> (run_op H true op s').1 = Raise Diverges.
Proof.
  intros Hs Hd Hc He. exists (set_lv l (set_locked true s)). split; [|intros; by apply held_lock_blocks].
  cbn [run_op]. unfold power_off, pm_catch, with_dom, pm_bind, _connect, libvirt. rewrite Hs. cbn. rewrite Hd. cbn. rewrite Hc. by destruct e.
Qed.
(** The sensor has no snapshots: creating one raises with the lock held, restoring one raises,
    and none is ever found. *)
Lemma snapshots_missing s : locked s = false -> MACHINE_TYPE s = Some KVM -> lookup_dom H (lv s) = true ->
  (exists s', machine_snapshot H true s = (Raise AttributeError, s') /\ locked s' = true) /\
  machine_snapshot_restore s = (Raise AttributeError, s) /\ has_lophi_snapshot H true s = (Ret false, s).
Proof.
  intros Hs Ht Hd. destruct s as [lk l t i sl]. cbn in *. subst. unfold machine_snapshot, has_lophi_snapshot, with_dom, ask_dom, _connect, pm_bind, pm_get.
  cbn. rewrite Hd. cbn. split_and!; [|done|done].
  rewrite bool_decide_false, bool_decide_true by done. cbn. rewrite Hd. cbn. by eexists.
Qed.
End lost.

(** * Typing a script *)

(** What the guest is promised to receive: the keys of every call, in order *)
Class Keyboard {L} (H : hypervisor L) (received : L -> list (list Z)) := {
  send_key keys l : lookup_dom H l = true ->
    exists l', call H (SendKey keys) l = (Ret tt, l') /\ received l' = received l ++ [keys] /\ lookup_dom H l' = true
}.
Definition press_of (keys : list Z) : press := match keys with [k] => Key k | ks => Chord ks end.
Definition keys_of (p : press) : list Z := match p with Key k => [k] | Chord ks => ks end.

Lemma press_keys ps : Forall proper ps -> press_of <$> (keys_of <$> ps) = ps.
Proof.
  induction 1 as [|p ps Hp _ IH]; [done|]. cbn. rewrite IH. f_equal. by destruct p as [|[|? []]].
Qed.

Section script.
Context {L : Type} (H : hypervisor L) {received : L -> list (list Z)} `{!Keyboard H received}.

Lemma presses_received ps (s : vctl) : lookup_dom H (lv s) = true ->
  exists l', send_presses H ps s = (Ret tt, set_lv l' s) /\ received l' = received (lv s) ++ (keys_of <$> ps) /\ lookup_dom H l' = true.
Proof.
  revert s. induction ps as [|p ps IH]; intros s Hd; [exists (lv s); rewrite app_nil_r; by destruct s|].
  destruct (send_key (keys_of p) (lv s) Hd) as (l & Hc & Hr & Hd').
  destruct (IH (set_lv l s) Hd') as (l' & Hp & Hr' & Hd''). exists l'.
  split; [|split; [|done]; rewrite Hr'; cbn; by rewrite Hr, <- app_assoc].
  destruct p; cbn [send_presses]; unfold pm_bind, libvirt; cbn [keys_of] in Hc; rewrite Hc; exact Hp.
Qed.
Lemma texts_received pss (s : vctl) : lookup_dom H (lv s) = true ->
  exists l', send_messages H (Text <$> pss) s = (Ret tt, set_lv l' s) /\
    received l' = received (lv s) ++ (keys_of <$> concat pss) /\ lookup_dom H l' = true.
Proof.
  revert s. induction pss as [|ps pss IH]; intros s Hd; [exists (lv s); rewrite app_nil_r; by destruct s|].
  destruct (presses_received ps s Hd) as (l & Hc & Hr & Hd'). destruct (IH (set_lv l s) Hd') as (l' & Hp & Hr' & Hd'').
  exists l'. split; [|split; [|done]; rewrite Hr'; cbn; by rewrite Hr, fmap_app, app_assoc].
  cbn [fmap list_fmap send_messages]. unfold pm_bind. by rewrite Hc.
Qed.

(** A text that a line can carry *)
Definition text_ok (t : bytes) : Prop :=
  bytes_ok t /\ 10 ∉ t /\ match t with [] => False | c :: _ => is_space c = false end.
Lemma dots_all t : t <> [] -> 10 ∉ t -> dots t = Some t.
Proof.
  intros Hne Hn. unfold dots. assert (match reverse t with 10 :: r => reverse r | _ => t end = t) as ->.
  { destruct (reverse t) as [|c r] eqn:E; [done|]. destruct (decide (c = 10)) as [->|Hc]; [|by repeat case_match].
    exfalso. apply Hn. rewrite <- (reverse_involutive t), E, reverse_cons. set_solver. }
  rewrite bool_decide_false, bool_decide_false by done. done.
Qed.
Lemma parse_text_line t ps : text_ok t -> get_codes t = Ret ps -> parse_line (msg:=vmsg) (lit "TEXT:" ++ t) = Ret (Some (Text ps)).
Proof.
  intros (Hb & Hn & Hc) Hps. destruct t as [|c t]; [done|]. unfold parse_line.
  assert (cmd_match (lit "TEXT:" ++ c :: t) = Some (lit "TEXT", c :: t)) as ->.
  { unfold cmd_match. change (span_word (lit "TEXT:" ++ c :: t)) with (lit "TEXT", 58 :: c :: t). cbn -[dots]. by rewrite dots_all. }
  cbn [lstrip]. rewrite Hc. cbn -[get_codes]. unfold virtual_parse_text. by rewrite Hps.
Qed.
Lemma split_lines ls : Forall (fun l => 10 ∉ l) ls -> ls <> [] -> split_on 10 (join [10] ls) [] = ls.
Proof.
  induction 1 as [|l ls Hl Hls IH]; [done|]. intros _. destruct ls as [|l2 ls].
  - cbn [join]. by rewrite split_on_word.
  - change (join [10] (l :: l2 :: ls)) with (l ++ 10 :: join [10] (l2 :: ls)). rewrite split_on_app by done. cbn [reverse]. f_equal. by apply IH.
Qed.
Lemma script_texts ts : Forall text_ok ts ->
  exists pss, script_loop (msg:=vmsg) ((lit "TEXT:" ++.) <$> ts) = Ret (Text <$> pss) /\
    typed (press_of <$> (keys_of <$> concat pss)) = filter (fun c => typable c) (concat ts).
Proof.
  induction 1 as [|t ts Ht Hts (pss & Hs & Hty)]; [by exists []|].
  destruct (codes_type_back t (proj1 Ht)) as (ps & Hps & Hp & Hpr). exists (ps :: pss). split.
  - cbn [fmap list_fmap script_loop]. by rewrite (parse_text_line t ps), Hs.
  - cbn [concat]. rewrite !fmap_app, filter_app, <- Hty, <- Hp. unfold typed. by rewrite omap_app, (press_keys ps).
Qed.

(** [C23] A script types its text: the lines of text of a script, translated for a virtual
    machine and sent, make the guest receive keys that type, in order, the characters of the text
    that have a code; the others are left out.  The lock is free afterwards. *)
Theorem script_types_text mutex ts (s : vctl) :
  ts <> [] -> Forall text_ok ts -> locked s = false -> lookup_dom H (lv s) = true ->
  exists ms l' keys, text_to_script (msg:=vmsg) (join [10] ((lit "TEXT:" ++.) <$> ts)) = Ret ms /\
    run_op H mutex (KeypressSend ms) s = (Ret tt, set_lv l' s) /\
    received l' = received (lv s) ++ keys /\ typed (press_of <$> keys) = filter (fun c => typable c) (concat ts).
Proof.
  intros Hne Hts Hs Hd. destruct (script_texts ts Hts) as (pss & Hl & Hty).
  assert (exists l', run_op H mutex (KeypressSend (Text <$> pss)) s = (Ret tt, set_lv l' s) /\
    received l' = received (lv s) ++ (keys_of <$> concat pss)) as (l' & Hr & Hk).
  { destruct (texts_received pss (if mutex then set_locked true s else s)) as (l' & Hm & Hr & _); [by destruct mutex|].
    exists l'. split; [|by destruct mutex]. cbn [run_op]. unfold keypress_send, with_dom, pm_bind, _connect. rewrite Hs, andb_false_r.
    destruct mutex; cbn [set_locked lv]; rewrite Hd, Hm; [|done]. destruct s; cbn in *; by subst. }
  exists (Text <$> pss), l', (keys_of <$> concat pss). split_and!; [|done|done|].
  - unfold text_to_script. rewrite split_lines; [done| |by destruct ts].
    apply Forall_fmap. eapply Forall_impl; [exact Hts|]. intros t (_ & Hn & _). cbn. set_solver.
  - done.
Qed.
End script.

(** * A domain *)

(** A domain that is on or off and the keys it has received; destroying one that is off fails. *)
Definition demo_call (c : lcall) : PM (bool * list (list Z)) unit := fun l =>
  match c with
  | Create => (Ret tt, (true, l.2))
  | Destroy => if l.1 then (Ret tt, (false, l.2)) else (Raise BareExn, l)
  | SendKey keys => (Ret tt, (l.1, l.2 ++ [keys]))
  | _ => (Ret tt, l)
  end.
Definition demo_hypervisor : hypervisor (bool * list (list Z)) :=
  Hypervisor (fun _ => true) demo_call (fun l => Ret [if l.1 then 1 else 5])
    (fun _ => Ret (VmXml (lit "kvm") [] [] [] [])) (fun _ => true) (fun _ => true).
#[global] Instance demo_keyboard : Keyboard demo_hypervisor snd.
Proof. split. intros keys [on l] _. by eexists. Qed.
Lemma demo_live : live demo_hypervisor.
Proof. split; [|done|done]. intros [] [[|] l]; done. Qed.
Definition demo_vctl (on : bool) : vctl (L:=bool * list (list Z)) := VCtl false (on, []) (Some KVM) true [].

Lemma lock_discipline_witness :
  let (r, s') := run_op demo_hypervisor true PowerOff (demo_vctl true) in
  r <> Raise Diverges /\ (r = Ret tt -> locked s' = false).
Proof. apply (lock_discipline demo_hypervisor demo_live true PowerOff (demo_vctl true)); [done|]. intros _. by eexists. Defined.
Lemma failed_power_off_keeps_lock_witness :
  exists s', run_op demo_hypervisor true PowerOff (demo_vctl false) = (Ret tt, s') /\
    forall op, connects op (MACHINE_TYPE s') = true -> (run_op demo_hypervisor true op s').1 = Raise Diverges.
Proof. by apply (failed_power_off_keeps_lock demo_hypervisor (demo_vctl false) BareExn (false, [])). Defined.
Lemma script_types_text_witness :
  exists ms l' keys, text_to_script (msg:=vmsg) (lit "TEXT:Hi!" ++ [10] ++ lit "TEXT:a b") = Ret ms /\
    run_op demo_hypervisor true (KeypressSend ms) (demo_vctl true) = (Ret tt, set_lv l' (demo_vctl true)) /\
    l'.2 = keys /\ typed (press_of <$> keys) = lit "Hi!a b".
Proof.
  apply (script_types_text (received:=snd) demo_hypervisor true [lit "Hi!"; lit "a b"] (demo_vctl true)); [done| |done|done].
  repeat constructor; apply (bool_decide_unpack _); reflexivity.
Defined.
