(* ===== verification/Machine.v ===== *)
(** Model of [lophi/machine/__init__.py] and [physical.py]: machines with their sensors, power
    functions, memory dumps and disk images; and the hardware addresses of [virtual.py].  Theorems:
    slots hold sensors of their kind, a dump is the memory, a reverted disk is announced
    only after the machine was seen off, and generated addresses are distinct. *)
From S2P Require Import Prelude Struct PyString MemorySensor.

(** * Sensors *)

Inductive skind := SDisk | SControl | SMemory | SCpu | SNetwork.
#[global] Instance skind_eq_dec : EqDecision skind.
Proof. solve_decision. Defined.
(** A sensor object: its kind, if its class is one of the five, whether it is a [Sensor] at
    all, what the name of its class contains, and whether a machine has it *)
Record sens := Sens {
  s_kind : option skind; is_sensor : bool; names_physical : bool; names_virtual : bool; assigned : bool
}.
Definition set_assigned (s : sens) : sens := Sens (s_kind s) (is_sensor s) (names_physical s) (names_virtual s) true.
(** A machine and the sensor objects of the process *)
Record mach := Mach { is_virtual : bool; slot : skind -> option Z; objects : gmap Z sens }.
Definition put_slot (k : skind) (id : Z) (m : mach) : mach :=
  Mach (is_virtual m) (fun k' => if bool_decide (k' = k) then Some id else slot m k') (objects m).
Definition set_objects x (m : mach) : mach := Mach (is_virtual m) (slot m) x.

(** [None] stands for the sensor [None] of the source; an assigned sensor is only reported. *)
Definition add_sensor (sensor : option Z) : PM mach bool := fun m =>
  match sensor with
  | None => (Ret false, m)
  | Some id =>
      match objects m !! id with
      | None => (Raise AttributeError, m)
      | Some s =>
          if negb (is_sensor s) then (Ret false, m)
          else if is_virtual m && names_physical s then (Ret false, m)
          else if negb (is_virtual m) && names_virtual s then (Ret false, m)
          else match s_kind s with
               | None => (Ret false, m)
               | Some k => (Ret true, put_slot k id (set_objects (<[id := set_assigned s]> (objects m)) m))
               end
      end
  end.
(** The sensors the configuration names, in the order of the source; those added *)
Fixpoint add_each (l : list (option Z)) : PM mach (list Z) :=
  match l with
  | [] => pm_ret []
  | x :: l =>
      let! ok := add_sensor x in
      let! rest := add_each l in
      pm_ret ((if ok then option_list x else []) ++ rest)
  end.
Definition add_sensors (memory cpu disk control network : option Z) : PM mach (option (list Z)) := fun m =>
  if is_virtual m then (Ret None, m)
  else (let! l := add_each [memory; cpu; disk; control; network] in pm_ret (Some l)) m.
Definition _has_sensor (k : skind) (m : mach) : bool := match slot m k with Some _ => true | None => false end.

(** Each slot holds a sensor of its kind, assigned and not of the other sort of machine. *)
Definition slots_ok (m : mach) : Prop :=
  forall k id, slot m k = Some id -> exists s, objects m !! id = Some s /\ s_kind s = Some k /\ assigned s = true /\
    (if is_virtual m then names_physical s = false else names_virtual s = false).
Lemma add_sensor_ok x m : slots_ok m -> slots_ok (add_sensor x m).2 /\ is_virtual (add_sensor x m).2 = is_virtual m.
Proof.
  intros Hm. unfold add_sensor. destruct x as [id|]; [|done]. destruct (objects m !! id) as [s|] eqn:Hs; [|done].
  destruct (is_sensor s); cbn [negb]; [|done].
  destruct (is_virtual m && names_physical s) eqn:H1; [done|]. destruct (negb (is_virtual m) && names_virtual s) eqn:H2; [done|].
  destruct (s_kind s) as [k|] eqn:Hk; [|done]. cbn. split; [|done]. intros k' id' Hs'. cbn in *.
  destruct (decide (id' = id)) as [->|Hne].
  - exists (set_assigned s). rewrite lookup_insert_eq. split_and!; [done| |done|].
    + case_bool_decide as E; [by subst|]. destruct (Hm _ _ Hs') as (s' & Hs1 & Hk1 & _). cbn. congruence.
    + destruct (is_virtual m); cbn in *; done.
  - rewrite lookup_insert_ne by done. case_bool_decide; [congruence|]. by apply Hm.
Qed.

(** Sensors: whatever sensors are added to a machine, each of its slots holds a sensor of
    that kind, marked as assigned, and none of the other sort of machine. *)
Theorem sensors_typed l m : slots_ok m -> slots_ok (add_each l m).2.
Proof.
  revert m. induction l as [|x l IH]; intros m Hm; [done|]. cbn [add_each]. unfold pm_bind.
  destruct (add_sensor_ok x m Hm) as [H1 _]. destruct (add_sensor x m) as [[ok|e] m1]; [|done]. cbn in H1.
  specialize (IH m1 H1). by destruct (add_each l m1) as [[]].
Qed.
Definition demo_mach : mach :=
  Mach false (fun _ => None) {[1 := Sens (Some SMemory) true true false false; 2 := Sens (Some SDisk) true false true false]}.
Lemma sensors_typed_witness : slots_ok (add_each [Some 1; Some 2; None] demo_mach).2.
Proof. by apply (sensors_typed [Some 1; Some 2; None] demo_mach). Defined.
(** A sensor in use is given to a second machine all the same. *)
Lemma sensor_shared :
  let m := set_objects {[1 := Sens (Some SMemory) true true false true]} demo_mach in
  (add_sensor (Some 1) m).1 = Ret true /\ slot (add_sensor (Some 1) m).2 SMemory = Some 1.
Proof. by vm_compute. Qed.

(** * Memory dumps *)

Section dump.
Context {S : Type}.
(** [memory_read]: [None] when there is no sensor or the read raises *)
Context (memory_read : Z -> Z -> PM S (option bytes)).

Fixpoint dump_loop (fuel : nat) (total_size offset : Z) (file : bytes) : PM S (bool * bytes) :=
  if total_size <=? offset then pm_ret (true, file) else
  match fuel with
  | O => pm_raise Diverges
  | Datatypes.S fuel =>
      let! memory := memory_read offset (Z.min CACHE_CHUNK (total_size - offset)) in
      match memory with
      | None => pm_ret (false, file)
      | Some memory => dump_loop fuel total_size (offset + CACHE_CHUNK) (file ++ memory)
      end
  end.
(** A size of [None] is smaller than every number. *)
Definition memory_dump (fuel : nat) (total_size : option Z) : PM S (bool * bytes) :=
  match total_size with None => pm_ret (true, []) | Some n => dump_loop fuel n 0 [] end.

Lemma dump_loop_ok (mem : Z -> Z) fuel n offset file s :
  (forall a k s, 0 < k -> exists s', memory_read a k s = (Ret (Some (mem <$> seqZ a k)), s')) ->
  0 <= offset -> n <= offset + CACHE_CHUNK * Z.of_nat fuel ->
  exists s', dump_loop fuel n offset file s = (Ret (true, file ++ (mem <$> seqZ offset (n - offset))), s').
Proof.
  intros Hr. unfold CACHE_CHUNK. revert offset file s. induction fuel as [|fuel IH]; intros offset file s Ho Hf; cbn [dump_loop].
  - rewrite (proj2 (Z.leb_le _ _)) by lia. exists s. by rewrite seqZ_nil, app_nil_r by lia.
  - destruct (Z.leb_spec n offset); [exists s; by rewrite seqZ_nil, app_nil_r by lia|].
    unfold CACHE_CHUNK in *. set (k := Z.min 7680 (n - offset)). destruct (Hr offset k s ltac:(lia)) as (s1 & Hs1). unfold pm_bind. rewrite Hs1.
    destruct (IH (offset + 7680) (file ++ (mem <$> seqZ offset k)) s1 ltac:(lia) ltac:(lia)) as (s2 & ->).
    exists s2. do 3 f_equal. rewrite <- app_assoc. f_equal. rewrite <- fmap_app. f_equal.
    destruct (decide (n - offset <= 7680)).
    + rewrite (seqZ_nil (offset + 7680)) by lia. subst k. rewrite app_nil_r. f_equal. lia.
    + subst k. rewrite Z.min_l by lia. replace (n - (offset + 7680)) with (n - offset - 7680) by lia.
      rewrite <- seqZ_app by lia. f_equal. lia.
Qed.

(** A dump is the memory: when every read succeeds with the bytes asked for, the dump of
    a machine of [n] bytes ends after one read per chunk and the file is the memory. *)
Theorem dump_is_memory (mem : Z -> Z) fuel n s :
  (forall a k s, 0 < k -> exists s', memory_read a k s = (Ret (Some (mem <$> seqZ a k)), s')) ->
  n <= CACHE_CHUNK * Z.of_nat fuel ->
  exists s', memory_dump fuel (Some n) s = (Ret (true, mem <$> seqZ 0 n), s').
Proof.
  intros Hr Hf. destruct (dump_loop_ok mem fuel n 0 [] s Hr ltac:(lia) ltac:(lia)) as (s' & Hs).
  exists s'. cbn [memory_dump]. rewrite Hs. by rewrite Z.sub_0_r.
Qed.
(** A machine of unknown size: the dump succeeds with an empty file. *)
Lemma dump_of_unknown_size fuel s : memory_dump fuel None s = (Ret (true, []), s).
Proof. done. Qed.
End dump.
Lemma dump_is_memory_witness :
  exists s', memory_dump (fun a k n => (Ret (Some ((fun x => x mod 256) <$> seqZ a k)), n + 1)) 2 (Some 10000) 0 =
    (Ret (true, (fun x => x mod 256) <$> seqZ 0 10000), s').
Proof.
  apply (dump_is_memory (fun a k n => (Ret (Some ((fun x => x mod 256) <$> seqZ a k)), n + 1)) (fun x => x mod 256) 2 10000 0);
    [intros; by eexists|by vm_compute].
Defined.

(** * Power *)

(** The status a control sensor reports *)
Inductive status := StOn | StOff | StOther.
#[global] Instance status_eq_dec : EqDecision status.
Proof. solve_decision. Defined.
(** What a machine uses of its control sensor, its PXE server and the clock (seconds) *)
Record control (S : Type) := Control {
  get_status : PM S status; switch_on : PM S bool; switch_off : PM S bool; add_mac : bytes -> PM S bool;
  set_pxe_conf : bytes -> bytes -> PM S bool; pause_for : Z -> PM S unit; clock : S -> Z
}.
Arguments Control {S}.
Arguments get_status {S}.
Arguments switch_on {S}.
Arguments switch_off {S}.
Arguments add_mac {S}.
Arguments set_pxe_conf {S}.
Arguments pause_for {S}.
Arguments clock {S}.

Section power.
Context {S : Type} (C : control S).

Fixpoint await_on (fuel : nat) (rtn : bool) : PM S unit :=
  if negb rtn then pm_ret tt else
  match fuel with
  | O => pm_raise Diverges
  | Datatypes.S fuel =>
      let! st := get_status C in
      if bool_decide (st = StOn) then pm_ret tt else await_on fuel rtn
  end.
Definition machine_power_on (fuel : nat) : PM S bool :=
  let! st := get_status C in
  if bool_decide (st = StOn) then pm_ret true else
  let! rtn := switch_on C in
  await_on fuel rtn ;! pm_ret rtn.
Fixpoint await_off (fuel : nat) (start : Z) (rtn : bool) : PM S bool :=
  if negb rtn then pm_ret rtn else
  match fuel with
  | O => pm_raise Diverges
  | Datatypes.S fuel =>
      let! st := get_status C in
      if bool_decide (st = StOff) then pm_ret rtn else
      pause_for C 1 ;!
      let! t := pm_get (clock C) in
      if 10 <? t - start then let! rtn := switch_off C in await_off fuel start rtn
      else await_off fuel start rtn
  end.
Definition machine_power_off (fuel : nat) : PM S bool :=
  let! st := get_status C in
  if negb (bool_decide (st = StOn)) then pm_ret true else
  let! rtn := switch_off C in
  let! start := pm_get (clock C) in
  await_off fuel start rtn.

(** ** Reverting the disk of a physical machine *)

Definition DISK_REVERT_TIMEOUT := 10 * 60.
Fixpoint revert_loop (fuel : nat) (offs : nat) (start : Z) : PM S bool :=
  match fuel with
  | O => pm_raise Diverges
  | Datatypes.S fuel =>
      let! st := get_status C in
      let offs := if bool_decide (st = StOff) then Datatypes.S offs else O in
      if (3 <? offs)%nat then pm_ret true else
      let! t := pm_get (clock C) in
      if DISK_REVERT_TIMEOUT <? t - start then pm_ret false else revert_loop fuel offs start
  end.
Definition disk_revert (fuel : nat) (mac_address : option bytes) (pxe_server has_control : bool) : PM S bool :=
  match mac_address with
  | None => pm_ret false
  | Some mac =>
      if negb pxe_server then pm_ret false else
      if negb has_control then pm_ret false else
      machine_power_off fuel ;!
      pause_for C 10 ;!
      add_mac C mac ;!
      machine_power_on fuel ;!
      pause_for C 2 ;!
      let! start := pm_get (clock C) in
      let! ok := revert_loop fuel 0 start in
      if ok then pause_for C 5 ;! pm_ret true else pm_ret false
  end.
Definition machine_reset (fuel : nat) (mac_address : option bytes) (pxe_server has_control : bool) : PM S bool :=
  if negb pxe_server then pm_ret false else disk_revert fuel mac_address pxe_server has_control.

(** ** What is seen *)

(** The statuses reported so far: asking answers, adds one and takes a second. *)
Context (seen : S -> list status).
Context (asks : forall s, exists st s', get_status C s = (Ret st, s') /\ seen s' = seen s ++ [st] /\ clock C s + 1 <= clock C s').

Lemma revert_loop_decides fuel offs start s : (offs <= 3)%nat -> (exists l, seen s = l ++ replicate offs StOff) ->
  clock C s - start <= DISK_REVERT_TIMEOUT -> DISK_REVERT_TIMEOUT < clock C s - start + Z.of_nat fuel ->
  exists b s', revert_loop fuel offs start s = (Ret b, s') /\
    if b then exists l, seen s' = l ++ replicate 4 StOff else DISK_REVERT_TIMEOUT < clock C s' - start.
Proof.
  revert offs s. induction fuel as [|fuel IH]; intros offs s Ho (l & Hl) Hle Ht; [lia|].
  cbn [revert_loop]. destruct (asks s) as (st & s1 & Hs & Hseen & Hc). unfold pm_bind. rewrite Hs.
  set (offs' := if bool_decide (st = StOff) then Datatypes.S offs else O).
  assert (exists l', seen s1 = l' ++ replicate offs' StOff) as Hl'.
  { subst offs'. case_bool_decide as E; [|exists (seen s1); by rewrite app_nil_r]. exists l.
    rewrite Hseen, Hl, E, <- app_assoc. f_equal. by rewrite <- replicate_cons_app. }
  destruct (Nat.ltb_spec 3 offs') as [Hlt|Hge].
  - exists true, s1. split; [done|]. replace 4%nat with offs'; [done|]. subst offs'. case_bool_decide; lia.
  - unfold pm_get. destruct (Z.ltb_spec DISK_REVERT_TIMEOUT (clock C s1 - start)); [by exists false, s1|].
    apply IH; [lia|done|lia|lia].
Qed.

(** Waiting for a disk to be reverted ends with an answer within the time limit: success
    only when the machine was reported off four times in a row, failure only after ten
    minutes. *)
Theorem revert_decides s : exists b s', revert_loop 601 0 (clock C s) s = (Ret b, s') /\
  if b then exists l, seen s' = l ++ replicate 4 StOff else DISK_REVERT_TIMEOUT < clock C s' - clock C s.
Proof. apply revert_loop_decides; [lia|eexists; by rewrite app_nil_r|unfold DISK_REVERT_TIMEOUT; lia..]. Qed.
End power.

(** A machine that is on for a while and then off; each question takes a second. *)
Record wait := Wait { w_time : Z; w_seen : list status }.
Definition demo_control (off_at : Z) : control wait :=
  Control (fun w => let st := if off_at <=? w_time w then StOff else StOn in (Ret st, Wait (w_time w + 1) (w_seen w ++ [st])))
    (pm_ret true) (pm_ret true) (fun _ => pm_ret true) (fun _ _ => pm_ret true)
    (fun n => pm_modify (fun w => Wait (w_time w + n) (w_seen w))) w_time.
Lemma revert_decides_witness :
  exists b s', revert_loop (demo_control 30) 601 0 0 (Wait 0 []) = (Ret b, s') /\
    if b then exists l, w_seen s' = l ++ replicate 4 StOff else DISK_REVERT_TIMEOUT < w_time s' - 0.
Proof.
  apply (revert_decides (demo_control 30) w_seen) with (s := Wait 0 []).
  intros s. do 2 eexists. split_and!; [reflexivity|done|cbn; lia].
Defined.

(** * Images *)

(** What a physical machine knows of its image and its server *)
Record pconf := PConf {
  volatility_profile : option bytes; mac_address : option bytes; pxe_server : bool; images_map : option (gmap bytes bytes)
}.
Definition set_profile p c := PConf p (mac_address c) (pxe_server c) (images_map c).
Definition set_server c := PConf (volatility_profile c) (mac_address c) true (images_map c).
(** [set_volatility_profile] of a physical machine, whose server is told the image *)
Definition physical_profile {S} (C : control S) (profile_name : bytes) : PM (pconf * S) bool := fun '(c, s) =>
  let c := set_profile (Some profile_name) c in
  match mac_address c with
  | None => (Ret false, (c, s))
  | Some mac =>
      if negb (pxe_server c) then (Ret false, (c, s)) else
      match images_map c with
      | None => (Raise TypeError, (c, s))
      | Some m =>
          match m !! lower profile_name with
          | Some f => let '(r, s) := set_pxe_conf C mac f s in (r, (c, s))
          | None => (Ret false, (c, s))
          end
      end
  end.
(** A profile of [None] has no method [lower]. *)
Definition add_pxe_server {S} (C : control S) : PM (pconf * S) bool := fun '(c, s) =>
  let c := set_server c in
  match volatility_profile c with
  | Some p => (let! _ := physical_profile C p in pm_ret true) (c, s)
  | None => match mac_address c with None => (Ret true, (c, s)) | Some _ => (Raise AttributeError, (c, s)) end
  end.

(** The server is told the image of the profile whenever the machine has an address and a
    map with the profile, and a machine whose map was not added before its server raises. *)
Lemma server_told {S} (C : control S) c s p mac m f : volatility_profile c = Some p -> mac_address c = Some mac ->
  images_map c = Some m -> m !! lower p = Some f ->
  add_pxe_server C (c, s) =
    (let '(r, s) := set_pxe_conf C mac f s in match r with Ret _ => (Ret true, (set_profile (Some p) (set_server c), s))
                                               | Raise e => (Raise e, (set_profile (Some p) (set_server c), s)) end).
Proof.
  intros Hp Hm Hi Hf. unfold add_pxe_server. cbn. rewrite Hp. unfold pm_bind, physical_profile. cbn. rewrite Hm, Hi, Hf.
  by destruct (set_pxe_conf C mac f s) as [[] ?].
Qed.
Lemma server_before_images {S} (C : control S) c s p mac : volatility_profile c = Some p -> mac_address c = Some mac ->
  images_map c = None -> (add_pxe_server C (c, s)).1 = Raise TypeError.
Proof. intros Hp Hm Hi. unfold add_pxe_server. cbn. rewrite Hp. unfold pm_bind, physical_profile. cbn. by rewrite Hm, Hi. Qed.

(** * Hardware addresses *)

(** The last [n] hexadecimal digits *)
Fixpoint hex_digits (n : nat) (z : Z) : bytes :=
  match n with O => [] | Datatypes.S n => hex_digits n (z / 16) ++ [hex_digit 97 (z mod 16)] end.
(** [hex(z)[2:]] of a number below [2^64] *)
Definition hex_text (z : Z) : bytes :=
  match lstrip (fun c => c =? 48) (hex_digits 16 z) with [] => [48] | d => d end.
Definition first_mac := 18090670686208.
(** The address of a new machine and the next value of the counter *)
Definition __get_new_mac (MAC_ADDR : Z) : bytes * Z :=
  let mac := hex_text MAC_ADDR in
  (join [58] ((fun x => take 2 (drop (x * 2) mac)) <$> seq 0 6), MAC_ADDR + 1).
Definition new_mac (n : nat) : bytes := (__get_new_mac (first_mac + Z.of_nat n)).1.

Lemma hex_digits_zero k : hex_digits k 0 = replicate k 48.
Proof. induction k as [|k IH]; [done|]. cbn [hex_digits]. change (0 / 16) with 0. rewrite IH. by rewrite <- replicate_cons_app. Qed.
Lemma hex_digits_pad k n z : 0 <= z < 16 ^ Z.of_nat n -> hex_digits (k + n) z = replicate k 48 ++ hex_digits n z.
Proof.
  revert z. induction n as [|n IH]; intros z Hz.
  - change (16 ^ Z.of_nat 0) with 1 in Hz. assert (z = 0) as -> by lia. rewrite Nat.add_0_r, app_nil_r. apply hex_digits_zero.
  - rewrite Nat.add_succ_r. cbn [hex_digits]. rewrite IH, app_assoc; [done|].
    rewrite Nat2Z.inj_succ, Z.pow_succ_r in Hz by lia. split; [apply Z.div_pos; lia|apply Z.div_lt_upper_bound; lia].
Qed.
Lemma hex_digits_first n z : hex_digits (Datatypes.S n) z = hex_digit 97 (z / 16 ^ Z.of_nat n mod 16) :: hex_digits n z.
Proof.
  revert z. induction n as [|n IH]; intros z; [cbn; by rewrite Z.div_1_r|].
  change (hex_digits (Datatypes.S (Datatypes.S n)) z) with (hex_digits (Datatypes.S n) (z / 16) ++ [hex_digit 97 (z mod 16)]).
  rewrite IH. cbn [hex_digits app]. f_equal. f_equal. f_equal.
  rewrite Nat2Z.inj_succ, Z.pow_succ_r, Z.div_div by lia. done.
Qed.
Lemma length_hex_digits n z : length (hex_digits n z) = n.
Proof. revert z. induction n as [|n IH]; intros z; [done|]. cbn. rewrite length_app, IH. cbn. lia. Qed.
Lemma hex_digit_back x : 0 <= x < 16 -> digit_of 16 (hex_digit 97 x) = Some x /\ hex_digit 97 x <> 58.
Proof.
  intros Hx. assert (exists n : nat, (n < 16)%nat /\ x = Z.of_nat n) as (n & Hn & ->) by (exists (Z.to_nat x); lia).
  do 16 (destruct n as [|n]; [by split|]). lia.
Qed.
Lemma number_loop_snoc base acc d c :
  number_loop base acc (d ++ [c]) = x ← number_loop base acc d; y ← digit_of base c; Some (base * x + y).
Proof.
  revert acc. induction d as [|e d IH]; intros acc; cbn; [done|]. destruct (digit_of base e); cbn; [|done]. by rewrite IH.
Qed.
Lemma hex_digits_value n z : 0 <= z < 16 ^ Z.of_nat n -> number_loop 16 0 (hex_digits n z) = Some z.
Proof.
  revert z. induction n as [|n IH]; intros z Hz.
  - change (16 ^ Z.of_nat 0) with 1 in Hz. assert (z = 0) as -> by lia. done.
  - rewrite Nat2Z.inj_succ, Z.pow_succ_r in Hz by lia. cbn [hex_digits]. rewrite number_loop_snoc, IH.
    + cbn. rewrite (proj1 (hex_digit_back _ (Z.mod_pos_bound z 16 ltac:(lia)))). cbn. f_equal. pose proof (Z.div_mod z 16). lia.
    + split; [apply Z.div_pos; lia|apply Z.div_lt_upper_bound; lia].
Qed.
(** A number of exactly twelve digits *)
Lemma hex_text_12 z : 16 ^ 11 <= z < 16 ^ 12 -> hex_text z = hex_digits 12 z.
Proof.
  intros Hz. unfold hex_text. change 16%nat with (4 + 12)%nat. rewrite hex_digits_pad by (change (16 ^ Z.of_nat 12) with (16 ^ 12); lia).
  cbn [replicate app lstrip]. change (48 =? 48) with true. cbn iota. rewrite (hex_digits_first 11).
  assert (1 <= z / 16 ^ 11 < 16) as Hd by (split; [apply Z.div_le_lower_bound|apply Z.div_lt_upper_bound]; lia).
  change (Z.of_nat 11) with 11. rewrite Z.mod_small by lia.
  assert (hex_digit 97 (z / 16 ^ 11) =? 48 = false) as Hne.
  { apply Z.eqb_neq. unfold hex_digit. destruct (Z.ltb_spec (z / 16 ^ 11) 10); lia. }
  cbn [lstrip]. by rewrite Hne.
Qed.
Lemma mac_digits d : length d = 12%nat ->
  forall d', length d' = 12%nat -> join [58] ((fun x => take 2 (drop (x * 2) d)) <$> seq 0 6) =
    join [58] ((fun x => take 2 (drop (x * 2) d')) <$> seq 0 6) -> d = d'.
Proof.
  intros Hd d' Hd'. do 13 (destruct d as [|? d]; try done). do 13 (destruct d' as [|? d']; try done).
  cbn. by intros [= -> -> -> -> -> -> -> -> -> -> -> ->].
Qed.

(** Hardware addresses: the addresses of new virtual machines are six pairs of
    hexadecimal digits, and no two of the first 263 million million are equal. *)
Theorem macs_distinct n m : first_mac + Z.of_nat n < 2 ^ 48 -> first_mac + Z.of_nat m < 2 ^ 48 ->
  length (new_mac n) = 17%nat /\ (new_mac n = new_mac m -> n = m).
Proof.
  intros Hn Hm. change (2 ^ 48) with (16 ^ 12) in *. assert (16 ^ 11 <= first_mac) as Hf by (by vm_compute).
  unfold new_mac, __get_new_mac. cbn [fst]. rewrite !hex_text_12 by lia. split.
  - pose proof (length_hex_digits 12 (first_mac + Z.of_nat n)) as Hl. destruct (hex_digits 12 _) as [|? d]; [done|].
    do 12 (destruct d as [|? d]; try done).
  - intros E%mac_digits; [|apply length_hex_digits..].
    pose proof (hex_digits_value 12 (first_mac + Z.of_nat n)) as V1. pose proof (hex_digits_value 12 (first_mac + Z.of_nat m)) as V2.
    rewrite E, V2 in V1 by (change (16 ^ Z.of_nat 12) with (16 ^ 12); lia).
    assert (Some (first_mac + Z.of_nat m) = Some (first_mac + Z.of_nat n)) as [= Heq] by (apply V1; change (16 ^ Z.of_nat 12) with (16 ^ 12); lia). lia.
Qed.
Lemma macs_distinct_witness : length (new_mac 0) = 17%nat /\ (new_mac 0 = new_mac 255 -> 0%nat = 255%nat).
Proof. apply (macs_distinct 0 255); by vm_compute. Defined.
Example first_macs : new_mac 0 = lit "10:74:10:00:00:00" /\ new_mac 255 = lit "10:74:10:00:00:ff".
Proof. by vm_compute. Qed.
