(* ===== verification/MachineVirtual.v ===== *)
(** Model of [lophi/machine/virtual.py]: virtual machines over the control sensor of
    [ControlVirtual], their libvirt configuration, disk images, states and addresses.
    Theorems: the configuration written is the template with its fields filled in, a machine
    is reset to the image of its profile, saving a machine never completes, and the address
    of a machine is that of its lease. *)
From S2P Require Import Prelude Struct PyString Keypress ControlVirtual Machine.

(** * Configuration *)

Definition VIRSH_XEN : bytes := lit "<domain type='xen'>
  <name>%%VMNAME%%</name>
    <uuid></uuid>
  <memory>%%MEM_SIZE%%</memory>
  <currentMemory>%%MEM_SIZE%%</currentMemory>
  <vcpu>%%CPU_COUNT%%</vcpu>
  <os>
    <type>hvm</type>
    <loader>/usr/lib/xen-default/boot/hvmloader</loader>
    <boot dev='hd'/>
  </os>
  <features>
    <acpi/>
    <apic/>
    <pae/>
  </features>
  <clock offset='localtime'>
    <timer name='hpet' present='no'/>
  </clock>
  <on_poweroff>destroy</on_poweroff>
  <on_reboot>restart</on_reboot>
  <on_crash>restart</on_crash>
  <devices>
    <emulator>/usr/lib/xen-default/bin/qemu-dm</emulator>
    <disk type='file' device='disk'>
      <driver name='tap' type='qcow2'/>
      <source file='%%DISKIMG%%'/>
      <target dev='xvda' bus='xen'/>
    </disk>
    <interface type='network'>
      <mac address='%%MACADDR%%'/>
      <source network='network-lophi'/>
      <filterref filter='isolated-lophi'>
        <parameter name='GATEWAY_MAC' value='aa:bb:cc:dd:ee:ff'/>
      </filterref>
    </interface>
    <serial type='pty'>
      <target port='0'/>
    </serial>
    <console type='pty'>
      <target type='serial' port='0'/>
    </console>
    <input type='tablet' bus='usb'/>
    <input type='mouse' bus='ps2'/>
    <graphics type='vnc' port='-1' autoport='yes' keymap='en-us'/>
    <sound model='es1370'/>
  </devices>
</domain>
".
Definition VIRSH_KVM : bytes := lit "<domain type='kvm'>
  <name>%%VMNAME%%</name>
  <uuid></uuid>
  <memory>%%MEM_SIZE%%</memory>
  <currentMemory>%%MEM_SIZE%%</currentMemory>
  <vcpu>%%CPU_COUNT%%</vcpu>
  <os>
    <type arch='x86_64' machine='pc-i440fx-trusty'>hvm</type>
    <boot dev='hd'/>
  </os>
  <features>
    <acpi/>
    <apic/>
    <pae/>
  </features>
  <clock offset='localtime'/>
  <on_poweroff>destroy</on_poweroff>
  <on_reboot>restart</on_reboot>
  <on_crash>restart</on_crash>
  <devices>
    <emulator>/usr/bin/kvm-spice</emulator>
    <disk type='file' device='disk'>
      <driver name='qemu' type='qcow2'/>
      <source file='%%DISKIMG%%'/>
      <target dev='hda' bus='ide'/>
      <address type='drive' controller='0' bus='0' unit='0'/>
    </disk>
    <disk type='file' device='cdrom'>
      <driver name='qemu' type='raw'/>
      <target dev='hdc' bus='ide'/>
      <readonly/>
      <address type='drive' controller='0' bus='1' unit='0'/>
    </disk>
    <controller type='ide' index='0'>
      <address type='pci' domain='0x0000' bus='0x00' slot='0x01' function='0x1'/>
    </controller>
    <interface type='network'>
      <mac address='%%MACADDR%%'/>
      <source network='network-lophi'/>
      <address type='pci' domain='0x0000' bus='0x00' slot='0x03' function='0x0'/>
      <filterref filter='isolated-lophi'>
        <parameter name='GATEWAY_MAC' value='aa:bb:cc:dd:ee:ff'/>
      </filterref>
    </interface>
    <serial type='pty'>
      <target port='0'/>
    </serial>
    <console type='pty'>
      <target type='serial' port='0'/>
    </console>
    <input type='tablet' bus='usb'/>
    <input type='mouse' bus='ps2'/>
    <graphics type='vnc' port='-1' autoport='yes'/>
    <sound model='ich6'>
      <address type='pci' domain='0x0000' bus='0x00' slot='0x04' function='0x0'/>
    </sound>
    <video>
      <model type='vga' vram='9216' heads='1'/>
      <address type='pci' domain='0x0000' bus='0x00' slot='0x02' function='0x0'/>
    </video>
    <memballoon model='virtio'>
      <address type='pci' domain='0x0000' bus='0x00' slot='0x05' function='0x0'/>
    </memballoon>
  </devices>
</domain>
".
(** [VIRSH_TEMPLATE[t]] *)
Definition VIRSH_TEMPLATE (t : machine_type) : res bytes :=
  match t with XEN => Ret VIRSH_XEN | KVM => Ret VIRSH_KVM | PHYSICAL => Raise KeyError end.
(** The sizes are the decimal texts of the numbers. *)
Definition generate_new_xen_xml (template vm_name disk_img mac_addr memory_size cpu_count : bytes) : bytes :=
  let tmp := replace (lit "%%VMNAME%%") vm_name template in
  let tmp := replace (lit "%%DISKIMG%%") disk_img tmp in
  let tmp := replace (lit "%%MACADDR%%") mac_addr tmp in
  let tmp := replace (lit "%%MEM_SIZE%%") memory_size tmp in
  replace (lit "%%CPU_COUNT%%") cpu_count tmp.

(** * The machine *)

(** [G.MACHINE_STATES] and [G.DISK_STATES] *)
Inductive mstate := OFF | STARTED | SNAPSHOTTING | RESTORING | RESUMING | PAUSED | UNKNOWN.
Inductive dstate := REVERTED | DIRTY | DISK_UNKNOWN.
(** The class [MachineConfig]; it has no [disk_orig] and no [disk_snapshot]. *)
Record vconf := VConf {
  vm_name : bytes; disk : bytes; disk_base : option bytes; vm_config : bytes; mac_addr : bytes;
  memory_size : Z; cpu_count : Z; profile : option bytes
}.
Definition set_disk_base x c := VConf (vm_name c) (disk c) x (vm_config c) (mac_addr c) (memory_size c) (cpu_count c) (profile c).
Definition set_vprofile x c := VConf (vm_name c) (disk c) (disk_base c) (vm_config c) (mac_addr c) (memory_size c) (cpu_count c) x.

Section machine.
Context {L : Type} (H : hypervisor L).

(** What becomes of a disk image: an empty overlay of another image, or one that was written to *)
Inductive image := Fresh (base : bytes) | Written (content : bytes).
(** What comes of running [qemu-img create]: it cannot be started, makes the overlay, or fails and
    leaves something or nothing at the name of the disk.  The host decides it from the programs
    run so far. *)
Inductive outcome := Missing | Created | Failed (rest : option image).
Context (host : list (list bytes) -> outcome).

(** Attributes of the machine, the files and disk images of the host and the commands run there.  A
    sensor of the disk or the network is given by its file or interface. *)
Record vmach := VMach {
  conf : vconf; vtype : machine_type; vimages : option (gmap bytes bytes); MACHINE_STATE : mstate; DISK_STATE : dstate;
  control : option (vctl (L:=L)); memory : bool; vdisk : option bytes; network : option bytes;
  files : gmap bytes bytes; calls : list (list bytes); disk_images : gmap bytes image
}.
Definition set_conf x m := VMach x (vtype m) (vimages m) (MACHINE_STATE m) (DISK_STATE m) (control m) (memory m) (vdisk m) (network m) (files m) (calls m) (disk_images m).
Definition set_states x y m := VMach (conf m) (vtype m) (vimages m) x y (control m) (memory m) (vdisk m) (network m) (files m) (calls m) (disk_images m).
Definition set_control x m := VMach (conf m) (vtype m) (vimages m) (MACHINE_STATE m) (DISK_STATE m) x (memory m) (vdisk m) (network m) (files m) (calls m) (disk_images m).
Definition set_sensors x y m := VMach (conf m) (vtype m) (vimages m) (MACHINE_STATE m) (DISK_STATE m) (control m) true x y (files m) (calls m) (disk_images m).
Definition set_network x m := VMach (conf m) (vtype m) (vimages m) (MACHINE_STATE m) (DISK_STATE m) (control m) (memory m) (vdisk m) x (files m) (calls m) (disk_images m).
Definition set_files x m := VMach (conf m) (vtype m) (vimages m) (MACHINE_STATE m) (DISK_STATE m) (control m) (memory m) (vdisk m) (network m) x (calls m) (disk_images m).
Definition set_host x y m := VMach (conf m) (vtype m) (vimages m) (MACHINE_STATE m) (DISK_STATE m) (control m) (memory m) (vdisk m) (network m) (files m) x y.

Abbreviation VM := (PM vmach).
Definition move_to (x : mstate) : VM unit := pm_modify (fun m => set_states x (DISK_STATE m) m).
(** A method of the control sensor, which these machines create without a mutex *)
Definition on_control {A} (op : bool -> PM vctl A) : VM A := fun m =>
  match control m with
  | None => (Raise AttributeError, m)
  | Some c => let (r, c) := op false c in (r, set_control (Some c) m)
  end.
(** [if not self._has_sensor("control"): return d] *)
Definition need_control {A} (d : A) (body : VM A) : VM A :=
  let! c := pm_get control in match c with None => pm_ret d | Some _ => body end.

(** The sizes of the machine are not passed on: the defaults of [generate_new_xen_xml] *)
Definition config_create : VM unit := fun m =>
  match VIRSH_TEMPLATE (vtype m) with
  | Raise e => (Raise e, m)
  | Ret t =>
      let c := conf m in
      let config := generate_new_xen_xml t (vm_name c) (disk c) (mac_addr c) (lit "1048576") (lit "1") in
      (Ret tt, set_files (<[vm_config c := config]> (files m)) m)
  end.
Definition config_read : VM bytes :=
  let! there := pm_get (fun m => files m !! vm_config (conf m)) in
  (if bool_decide (there = None) then config_create else pm_ret tt) ;!
  let! content := pm_get (fun m => files m !! vm_config (conf m)) in
  pm_lift (of_option IOError content).

(** The message for a missing sensor is formatted without a place for the name. *)
Definition lophi_init : VM unit :=
  let! c := pm_get control in
  match c with None => pm_raise TypeError | Some _ => config_create end.
Definition virtual_set_profile (profile_name : bytes) : VM bool :=
  pm_modify (fun m => set_conf (set_vprofile (Some profile_name) (conf m)) m) ;!
  let! c := pm_get control in
  match c with
  | None => pm_raise TypeError
  | Some _ =>
      let! im := pm_get vimages in
      match im with
      | None => pm_ret false
      | Some im =>
          match im !! lower profile_name with
          | Some base_filename =>
              let base_path := os_path_join (lit "/opt/lophi/disk_images") base_filename in
              pm_modify (fun m => set_conf (set_disk_base (Some base_path) (conf m)) m) ;! pm_ret true
          | None => pm_ret false
          end
      end
  end.

Definition vm_memory_get_size : VM (option Z) :=
  let! has := pm_get memory in if has then on_control (memory_get_size H) else pm_ret None.
Definition vm_disk_get_filename : VM (option bytes) := need_control None (on_control (disk_get_filename H)).
Definition vm_network_get_interface : VM (option bytes) := on_control (network_get_interface H).
Definition add_network : VM unit :=
  let! net_iface := vm_network_get_interface in
  match net_iface with Some i => pm_modify (set_network (Some i)) | None => pm_ret tt end.
Definition vm_machine_create (paused : bool) : VM unit :=
  need_control tt (
    let! xml_config := config_read in
    on_control (fun mutex => machine_create H mutex xml_config paused) ;!
    add_network).
Definition vm_power_on : VM unit :=
  need_control tt (
    let! on := on_control (power_on H) in
    (if on then pm_ret tt else vm_machine_create false) ;!
    move_to STARTED).
Definition vm_machine_pause : VM unit := need_control tt (on_control (machine_pause H) ;! move_to PAUSED).
Definition vm_machine_resume : VM unit :=
  need_control tt (move_to RESUMING ;! on_control (machine_resume H) ;! pm_modify (set_states STARTED DIRTY)).
Definition vm_machine_snapshot : VM (option bool) :=
  need_control None (move_to SNAPSHOTTING ;! let! rtn := on_control (machine_snapshot H) in move_to OFF ;! pm_ret rtn).
Definition vm_machine_snapshot_restore : VM (option bool) :=
  need_control None (let! rtn := on_control (fun _ => machine_snapshot_restore) in pm_ret (Some rtn)).
(** [self.config.disk_snapshot] *)
Definition disk_snapshot : VM bytes := pm_raise AttributeError.
Definition vm_machine_save : VM unit :=
  need_control tt (
    move_to SNAPSHOTTING ;!
    let! file := disk_snapshot in
    on_control (fun mutex => machine_save H mutex file) ;!
    move_to OFF).
Definition vm_machine_restore (paused : bool) : VM unit :=
  need_control tt (
    let! file := disk_snapshot in
    on_control (fun mutex => machine_restore H mutex file paused) ;!
    pm_modify (set_states STARTED DIRTY)).

(** * Disks *)

Definition cow_command (base_filename disk : bytes) : list bytes :=
  [lit "qemu-img"; lit "create"; lit "-b" ++ base_filename; lit "-fqcow2"; disk].
(** [subprocess.call] raises when the program cannot be started; its result is not looked at. *)
Definition disk_create_cow (base_filename : bytes) : VM unit :=
  pm_modify (fun m => set_conf (set_disk_base (Some base_filename) (conf m)) m) ;!
  fun m =>
    let d := disk (conf m) in
    let calls := calls m ++ [cow_command base_filename d] in
    match host calls with
    | Missing => (Raise OSError, set_host calls (disk_images m) m)
    | Created => (Ret tt, set_host calls (<[d := Fresh base_filename]> (disk_images m)) m)
    | Failed rest => (Ret tt, set_host calls (partial_alter (fun _ => rest) d (disk_images m)) m)
    end.
(** [self.config.disk_orig] *)
Definition disk_backup : VM unit := pm_raise AttributeError.
Definition vm_disk_revert : VM bool :=
  let! base := pm_get (fun m => disk_base (conf m)) in
  match base with Some b => disk_create_cow b ;! pm_ret true | None => pm_ret false end.
(** [Machine.machine_reset] *)
Definition vm_machine_reset : VM (option bool) :=
  need_control None (
    let! st := on_control (power_status H) in
    match st with PowerOFF => pm_ret tt | _ => on_control (power_off H) end ;!
    let! ok := vm_disk_revert in pm_ret (Some ok)).

(** * A new machine *)

Definition vm_path (vm_name ext : bytes) : bytes := os_path_join (lit "/opt/lophi/vms") (vm_name ++ ext).
(** The attributes before the sensors are added, and the next hardware address *)
Definition new_vmach (MAC_ADDR : Z) (vm_name : bytes) (vm_type : machine_type) (static_mac : option bytes)
    (memory_size cpu_count : Z) (volatility_profile : option bytes) (files : gmap bytes bytes) : vmach * Z :=
  let '(mac, MAC_ADDR) := match static_mac with None => __get_new_mac MAC_ADDR | Some mac => (mac, MAC_ADDR) end in
  (VMach (VConf vm_name (vm_path vm_name (lit ".qcow2")) None (vm_path vm_name (lit ".xml")) mac memory_size cpu_count volatility_profile)
     vm_type None UNKNOWN DISK_UNKNOWN None false None None files [] ∅, MAC_ADDR).
(** The rest of [__init__]: [l] is the state of the hypervisor, [isolated] the flag of the
    class of control sensors. *)
Definition vm_init (force_new : bool) (l : L) (isolated : bool) : VM unit :=
  pm_modify (set_control (Some (VCtl false l None isolated []))) ;!
  let! t := pm_get vtype in
  on_control (fun mutex => __init__ H mutex (Some t) true) ;!
  let! state := on_control (get_state H) in
  (if force_new && bool_decide (state = None) then lophi_init else pm_ret tt) ;!
  let! vm_disk := vm_disk_get_filename in
  let! own := pm_get (fun m => disk (conf m)) in
  let vm_disk := match vm_disk with Some f => f | None => own end in
  pm_modify (fun m => set_sensors (Some vm_disk) (network m) m) ;!
  add_network.
End machine.

(** * Configurations are templates filled in *)

(** The parts of a template, cut at the percent signs *)
Fixpoint segments (l : list bytes) : list segment :=
  match l with
  | p :: _ :: n :: _ :: rest => Plain p :: Field n :: segments rest
  | [p] => [Plain p]
  | _ => []
  end.
Definition template_of (s : bytes) : list segment := segments (split_on 37 s []).
#[global] Instance template_ok_dec t : Decision (template_ok t).
Proof.
  induction t as [|[s|n] t IH]; cbn; [left; done|apply _|]. apply and_dec; [apply _|]. apply and_dec; [apply _|].
  apply and_dec; [|done]. destruct t as [|[[|c s]|] t]; apply _.
Defined.
Lemma virsh_templates t s : VIRSH_TEMPLATE t = Ret s -> render (template_of s) = s /\ template_ok (template_of s).
Proof.
  destruct t; intros [= <-]; (split; [by vm_compute|apply (bool_decide_unpack _); by vm_compute]).
Qed.
(** The fields of a machine's configuration *)
Definition vm_fields (vm_name disk_img mac_addr memory_size cpu_count : bytes) : list (bytes * bytes) :=
  [(lit "VMNAME", vm_name); (lit "DISKIMG", disk_img); (lit "MACADDR", mac_addr); (lit "MEM_SIZE", memory_size);
   (lit "CPU_COUNT", cpu_count)].

(** Configurations: for every type of virtual machine, the description made for libvirt
    is the template with each field replaced by its value and nothing else changed, for
    values without percent signs. *)
Theorem xml_filled t s n d a ms cc : VIRSH_TEMPLATE t = Ret s -> Forall (fun v => 37 ∉ v) [n; d; a; ms; cc] ->
  generate_new_xen_xml s n d a ms cc = concat (filled (vm_fields n d a ms cc) <$> template_of s).
Proof.
  intros Ht Hv. destruct (virsh_templates t s Ht) as [Hr Hok].
  repeat (apply Forall_cons in Hv as [? Hv]).
  rewrite <- (fill_fields (vm_fields n d a ms cc)); [|done|by repeat constructor]. by rewrite Hr.
Qed.
Lemma xml_filled_witness :
  generate_new_xen_xml VIRSH_KVM (lit "vm1") (lit "/d.qcow2") (lit "10:74:10:00:00:00") (lit "1048576") (lit "1") =
  concat (filled (vm_fields (lit "vm1") (lit "/d.qcow2") (lit "10:74:10:00:00:00") (lit "1048576") (lit "1")) <$> template_of VIRSH_KVM).
Proof. apply (xml_filled KVM); [done|]. apply (bool_decide_unpack _). by vm_compute. Defined.

(** * Resetting to the image of the profile *)

Section reset.
Context {L : Type} (H : hypervisor L) (host : list (list bytes) -> outcome).
Implicit Types (m : vmach (L:=L)).

(** What may happen to a machine between setting its profile and resetting it; the last is what
    others do to images, such as the guest that writes to its disk. *)
Inductive vmop :=
  | OConfig | OInterface | OPowerOn | OCreate (paused : bool) | OPause | OResume | OSnapshot | OSnapshotRestore
  | OSave | ORestore (paused : bool) | ORevert | OReset | OSize | OControl (op : vop) | OBackup | OCow (base : bytes)
  | OProfile (p : bytes) | OImage (file : bytes) (x : image).
Definition run_vmop (o : vmop) : PM vmach unit :=
  match o with
  | OConfig => config_create
  | OInterface => add_network H
  | OPowerOn => vm_power_on H
  | OCreate p => vm_machine_create H p
  | OPause => vm_machine_pause H
  | OResume => vm_machine_resume H
  | OSnapshot => ignore (vm_machine_snapshot H)
  | OSnapshotRestore => ignore vm_machine_snapshot_restore
  | OSave => vm_machine_save H
  | ORestore p => vm_machine_restore H p
  | ORevert => ignore (vm_disk_revert host)
  | OReset => ignore (vm_machine_reset H host)
  | OSize => ignore (vm_memory_get_size H)
  | OControl op => on_control (fun mutex => run_op H mutex op)
  | OBackup => disk_backup
  | OCow b => disk_create_cow host b
  | OProfile p => ignore (virtual_set_profile p)
  | OImage f x => pm_modify (fun m => set_host (calls m) (<[f := x]> (disk_images m)) m)
  end.
(** A caller goes on after an exception. *)
Definition run_vmops (l : list vmop) m : vmach := foldl (fun m o => (run_vmop o m).2) m l.

(** The path of an image in the map of images *)
Definition image_path (f : bytes) : bytes := os_path_join (lit "/opt/lophi/disk_images") f.
(** The base image after an operation: a copy of another image and a profile that the map has change it. *)
Definition base_after (im : gmap bytes bytes) (b : bytes) (o : vmop) : bytes :=
  match o with
  | OCow b' => b'
  | OProfile p => match im !! lower p with Some f => image_path f | None => b end
  | _ => b
  end.

(** The machine has a control sensor, and its map of images, its disk and base image are these. *)
Definition based (im : gmap bytes bytes) (d b : bytes) m : Prop :=
  is_Some (control m) /\ vimages m = Some im /\ disk (conf m) = d /\ disk_base (conf m) = Some b.
Context (im : gmap bytes bytes) (d : bytes).
Section same_base.
Context (b : bytes).
Lemma based_control {A} (op : bool -> PM vctl A) : preserves (based im d b) (on_control op).
Proof. intros m [[c Hc] Hb]. unfold on_control. rewrite Hc. by destruct (op false c) as [[] ?]. Qed.
Lemma based_need {A} (x : A) body : preserves (based im d b) body -> preserves (based im d b) (need_control x body).
Proof. intros Hb m Hm. unfold need_control, pm_bind, pm_get. destruct (control m); [by apply Hb|done]. Qed.
Lemma based_modify f : (forall m, control (f m) = control m) -> (forall m, conf (f m) = conf m) -> (forall m, vimages (f m) = vimages m) ->
  preserves (based im d b) (pm_modify (S:=vmach (L:=L)) f).
Proof. intros Hf Hg Hh m Hm. unfold pm_modify, based. by rewrite Hf, Hg, Hh. Qed.
Lemma based_config : preserves (based im d b) (config_create (L:=L)).
Proof. intros m Hm. unfold config_create. by destruct (VIRSH_TEMPLATE (vtype m)). Qed.
End same_base.
Lemma based_cow b b' : triple (based im d b) (disk_create_cow (L:=L) host b') (fun _ => based im d b') (fun _ => based im d b').
Proof. intros m (Hc & Hi & Hd & Hb). unfold disk_create_cow, pm_bind, pm_modify. by destruct (host _). Qed.
Lemma based_revert b : preserves (based im d b) (vm_disk_revert (L:=L) host).
Proof.
  intros m Hm. unfold vm_disk_revert, pm_bind, pm_get. rewrite (proj2 (proj2 (proj2 Hm))).
  pose proof (based_cow b b m Hm) as Hc. by destruct (disk_create_cow host b m) as [[]].
Qed.
Create HintDb vm_based.
Hint Resolve based_control based_need based_config based_revert : vm_based.
(** Takes a method body apart. *)
Ltac walk_body :=
  repeat first [ apply based_need | apply based_control | apply based_config | apply based_revert
               | apply preserves_ret | apply preserves_raise | apply preserves_get | apply preserves_lift | by apply based_modify
               | apply preserves_bind; intros | case_match ].
Lemma based_create b p : preserves (based im d b) (vm_machine_create H p).
Proof. unfold vm_machine_create, config_read, add_network, vm_network_get_interface. walk_body. Qed.
Lemma based_profile b p m : based im d b m -> based im d (base_after im b (OProfile p)) (virtual_set_profile p m).2.
Proof.
  intros ([c Hc] & Hi & Hd & Hb). unfold virtual_set_profile, pm_bind, pm_modify, pm_get. cbn. rewrite Hc. cbn. rewrite Hi. cbn.
  destruct (im !! lower p); cbn; (split_and!; [by eexists|done..]).
Qed.
Lemma based_op b o m : based im d b m -> based im d (base_after im b o) (run_vmop o m).2.
Proof.
  intros Hm. assert (base_after im b o = b -> preserves (based im d b) (run_vmop o) -> based im d (base_after im b o) (run_vmop o m).2) as Hp.
  { intros -> Hp. specialize (Hp m Hm). by destruct (run_vmop o m) as [[]]. }
  destruct o; try (apply Hp; [done|]; cbn [run_vmop]; unfold ignore, vm_power_on, vm_machine_pause, vm_machine_resume, vm_machine_snapshot,
    vm_machine_snapshot_restore, vm_machine_save, vm_machine_restore, vm_machine_reset, vm_memory_get_size, add_network,
    vm_network_get_interface, move_to, disk_snapshot, disk_backup; auto using based_create with vm_based; walk_body).
  - pose proof (based_cow b base m Hm) as Hc. cbn [run_vmop base_after]. by destruct (disk_create_cow host base m) as [[]].
  - pose proof (based_profile b p m Hm) as Hq. cbn [run_vmop]. unfold ignore, pm_bind. by destruct (virtual_set_profile p m) as [[]].
Qed.
Lemma based_ops l : forall b m, based im d b m -> based im d (foldl (base_after im) b l) (run_vmops l m).
Proof. induction l as [|o l IH]; intros b m Hm; [done|]. cbn [foldl run_vmops]. by apply IH, based_op. Qed.

(** The images and the programs run are not touched by the control sensor. *)
Lemma control_host {A} (op : bool -> PM vctl A) m :
  calls (on_control op m).2 = calls m /\ disk_images (on_control op m).2 = disk_images m.
Proof. unfold on_control. destruct (control m) as [c|]; [|done]. by destruct (op false c). Qed.
(** Reverting the disk to [b] *)
Definition reverted (b : bytes) m m' : Prop :=
  calls m' = calls m ++ [cow_command b d] /\
  match host (calls m') with
  | Created => disk_images m' !! d = Some (Fresh b)
  | Failed rest => disk_images m' !! d = rest
  | Missing => False
  end.
Lemma reset_based b m r m' : based im d b m -> vm_machine_reset H host m = (Ret r, m') ->
  r = Some true /\ based im d b m' /\ reverted b m m'.
Proof.
  intros Hm. unfold vm_machine_reset, need_control, pm_bind at 1, pm_get. destruct (proj1 Hm) as [c Hc]. rewrite Hc.
  unfold pm_bind at 1. pose proof (based_control b (power_status H) m Hm) as H1. pose proof (control_host (power_status H) m) as F1.
  destruct (on_control (power_status H) m) as [[st|e] m1]; [|done]. unfold pm_bind at 1.
  set (off := match st with PowerOFF => _ | _ => _ end).
  assert (preserves (based im d b) off) as H2 by (subst off; destruct st; auto with py_preserve vm_based).
  assert (calls (off m1).2 = calls m1 /\ disk_images (off m1).2 = disk_images m1) as F2 by (subst off; destruct st; by (apply control_host || split)).
  specialize (H2 m1 H1). destruct (off m1) as [[]]; [|done]. cbn [snd] in *. destruct F1 as [F1 _], F2 as [F2 _].
  unfold vm_disk_revert, pm_bind, pm_get, disk_create_cow, pm_bind, pm_modify. destruct H2 as (Hc2 & Hi & Hd & Hb). rewrite Hb.
  cbn [conf set_conf disk set_disk_base calls disk_images]. rewrite Hd, F2, F1. unfold reverted.
  destruct (host _) as [| |rest] eqn:Hh; [done|..]; intros [= <- <-]; (split; [done|]); (split; [by split|]); cbn [calls set_host disk_images];
    (split; [done|]); rewrite Hh; [apply lookup_insert_eq|apply lookup_partial_alter_eq].
Qed.
End reset.

(** [C20] Resetting: after the profile of a virtual machine was set, whatever is done with the
    machine and its images and whatever fails in between, a reset that returns has returned [True] and
    run [qemu-img] once to make the disk a copy of the base image set last, that of the profile unless another
    profile or a copy of another image followed; if the program succeeded, the disk is a fresh overlay of that
    image, and if it failed, the disk is what it left, without a sign of it. *)
Theorem reset_to_profile {L} (H : hypervisor L) host m c im p f l r m' :
  control m = Some c -> vimages m = Some im -> im !! lower p = Some f ->
  vm_machine_reset H host (run_vmops H host l (virtual_set_profile p m).2) = (Ret r, m') ->
  let b := foldl (base_after im) (image_path f) l in
  r = Some true /\ disk_base (conf m') = Some b /\
  reverted host (disk (conf m)) b (run_vmops H host l (virtual_set_profile p m).2) m'.
Proof.
  intros Hc Hi Hf Hr b.
  assert (based im (disk (conf m)) (image_path f) (virtual_set_profile p m).2) as Hb.
  { unfold virtual_set_profile, pm_bind, pm_modify, pm_get. cbn. rewrite Hc. cbn. rewrite Hi. cbn. rewrite Hf. cbn.
    split_and!; [by eexists|done..]. }
  by destruct (reset_based H host _ _ _ _ _ _ (based_ops H host _ _ l _ _ Hb) Hr) as (-> & (_ & _ & _ & ?) & ?).
Qed.
Definition demo_vmach : vmach (L:=bool * list (list Z)) :=
  set_control (Some (demo_vctl true)) (VMach (VConf (lit "vm1") (lit "/opt/lophi/vms/vm1.qcow2") None (lit "/opt/lophi/vms/vm1.xml")
    (lit "10:74:10:00:00:00") 1073741824 1 None) KVM (Some {[lit "winxpsp3x86" := lit "xp.img"]}) UNKNOWN DISK_UNKNOWN None true None None ∅ [] ∅).
(** The second program fails. *)
Definition demo_host (l : list (list bytes)) : outcome := if (length l =? 2)%nat then Failed None else Created.
Definition demo_vmops : list vmop :=
  [OPowerOn; OCow (lit "/other.img"); OImage (lit "/opt/lophi/vms/vm1.qcow2") (Written [1]); OPause; OSave; OProfile (lit "WINXPSP3X86"); ORevert; OBackup].
Lemma reset_to_profile_witness :
  exists r m', vm_machine_reset demo_hypervisor demo_host (run_vmops demo_hypervisor demo_host demo_vmops
    (virtual_set_profile (lit "WinXPSP3x86") demo_vmach).2) = (Ret r, m') /\ r = Some true /\
  disk_base (conf m') = Some (lit "/opt/lophi/disk_images/xp.img") /\
  reverted demo_host (lit "/opt/lophi/vms/vm1.qcow2") (lit "/opt/lophi/disk_images/xp.img") (run_vmops demo_hypervisor demo_host demo_vmops
    (virtual_set_profile (lit "WinXPSP3x86") demo_vmach).2) m'.
Proof.
  destruct (vm_machine_reset demo_hypervisor demo_host (run_vmops demo_hypervisor demo_host demo_vmops
    (virtual_set_profile (lit "WinXPSP3x86") demo_vmach).2)) as [[r|e] m'] eqn:He.
  - exists r, m'. split; [done|].
    destruct (reset_to_profile demo_hypervisor demo_host demo_vmach (demo_vctl true) {[lit "winxpsp3x86" := lit "xp.img"]}
      (lit "WinXPSP3x86") (lit "xp.img") demo_vmops r m') as (H1 & H2 & H3); [reflexivity|reflexivity|vm_compute; reflexivity|exact He|].
    assert (Hb : foldl (base_after {[lit "winxpsp3x86" := lit "xp.img"]}) (image_path (lit "xp.img")) demo_vmops = lit "/opt/lophi/disk_images/xp.img")
      by (vm_compute; reflexivity).
    rewrite Hb in H2, H3. exact (conj H1 (conj H2 H3)).
  - exfalso. apply (f_equal fst) in He. vm_compute in He. discriminate He.
Defined.
(** A copy that fails is reported as a success. *)
Example failed_copy_unnoticed :
  let m := set_conf (set_disk_base (Some (lit "/b.img")) (conf demo_vmach)) demo_vmach in
  let r := vm_machine_reset demo_hypervisor (fun _ => Failed (Some (Written [1]))) m in
  r.1 = Ret (Some true) /\ disk_images r.2 !! lit "/opt/lophi/vms/vm1.qcow2" = Some (Written [1]).
Proof. by vm_compute. Qed.

(** * What the machines cannot do *)

Section limits.
Context {L : Type} (H : hypervisor L).
Implicit Types (m : vmach (L:=L)).

(** A machine with a control sensor is never saved: the file has no name, and the machine is
    left in the state of one that takes a snapshot. *)
Lemma save_never_completes m c : control m = Some c ->
  vm_machine_save H m = (Raise AttributeError, set_states SNAPSHOTTING (DISK_STATE m) m) /\
  forall p, vm_machine_restore H p m = (Raise AttributeError, m).
Proof.
  intros Hc. split; [|intros p]; unfold vm_machine_save, vm_machine_restore, need_control, pm_bind, pm_get; by rewrite Hc.
Qed.
(** The sizes asked for do not show in the configuration. *)
Lemma sizes_ignored m ms cc :
  let m' := set_conf (VConf (vm_name (conf m)) (disk (conf m)) (disk_base (conf m)) (vm_config (conf m)) (mac_addr (conf m)) ms cc
    (profile (conf m))) m in
  files (config_create m').2 = files (config_create m).2.
Proof. unfold config_create. cbn. by destruct (VIRSH_TEMPLATE (vtype m)). Qed.
(** A configuration that exists is used as it is, whatever the machine's address is now. *)
Lemma old_configuration_used m t : files m !! vm_config (conf m) = Some t -> config_read m = (Ret t, m).
Proof. intros Ht. unfold config_read, pm_bind, pm_get. rewrite Ht. cbn. by rewrite Ht. Qed.
End limits.

(** * Addresses of machines *)

(** [for line in f] *)
Definition file_lines (content : bytes) : list bytes :=
  let l := split_on 10 content [] in if bool_decide (last l = Some []) then take (length l - 1) l else l.
Fixpoint lease_loop (mac : bytes) (lines : list bytes) : res (option bytes) :=
  match lines with
  | [] => Ret None
  | line :: lines =>
      let columns := words line [] in
      let? mac_addr := py_index columns 1 in
      let? ip_addr := py_index columns 2 in
      if bool_decide (mac_addr = mac) then Ret (Some ip_addr) else lease_loop mac lines
  end.
(** [sub in s] *)
Fixpoint occurs (sub s : bytes) : bool :=
  bool_decide (sub `prefix_of` s) || match s with [] => false | _ :: s => occurs sub s end.
Fixpoint arp_loop (mac : bytes) (lines : list bytes) : res (option bytes) :=
  match lines with
  | [] => Ret None
  | line :: lines =>
      let columns := words line [] in
      if (3 <? length columns)%nat && occurs mac (nth 3 columns []) then
        let? c := py_index columns 1 in Ret (Some (slice c 1 (-1)))
      else arp_loop mac lines
  end.
(** The leases of libvirt, if the file exists, then the output of [arp -an] *)
Definition vm_network_get_ip (mac : bytes) (leases : option bytes) (arp : bytes) : res (option bytes) :=
  match leases with
  | None => Ret None
  | Some content =>
      let? ip := lease_loop mac (file_lines content) in
      match ip with Some ip => Ret (Some ip) | None => arp_loop mac (split_on 10 arp []) end
  end.

(** The second and third column of a line *)
Definition lease_of (line : bytes) : option (bytes * bytes) :=
  match words line [] with _ :: mac :: ip :: _ => Some (mac, ip) | _ => None end.
Lemma lease_of_columns line mac ip : lease_of line = Some (mac, ip) ->
  py_index (words line []) 1 = Ret mac /\ py_index (words line []) 2 = Ret ip.
Proof.
  unfold lease_of. destruct (words line []) as [|a [|m [|i l]]]; try done. intros [= -> ->].
  split; apply py_index_lookup; unfold zlen; cbn; [lia|done|lia|done].
Qed.
(** The first lease with the machine's hardware address decides, and a short line before it
    raises. *)
Lemma lease_found mac ip before line rest :
  Forall (fun l => exists m i, lease_of l = Some (m, i) /\ m <> mac) before -> lease_of line = Some (mac, ip) ->
  lease_loop mac (before ++ line :: rest) = Ret (Some ip).
Proof.
  intros Hb Hl. induction Hb as [|l before (m & i & Hm & Hne) _ IH]; cbn [app lease_loop].
  - destruct (lease_of_columns _ _ _ Hl) as [-> ->]. cbn. by rewrite bool_decide_true.
  - destruct (lease_of_columns _ _ _ Hm) as [-> ->]. cbn. by rewrite bool_decide_false.
Qed.
Lemma short_line_raises mac before line rest :
  Forall (fun l => exists m i, lease_of l = Some (m, i) /\ m <> mac) before -> lease_of line = None ->
  lease_loop mac (before ++ line :: rest) = Raise IndexError.
Proof.
  intros Hb Hl. induction Hb as [|l before (m & i & Hm & Hne) _ IH]; cbn [app lease_loop].
  - unfold lease_of in Hl. by destruct (words line []) as [|? [|? [|? ?]]].
  - destruct (lease_of_columns _ _ _ Hm) as [-> ->]. cbn. by rewrite bool_decide_false.
Qed.
Example lease_example :
  vm_network_get_ip (lit "10:74:10:00:00:01")
    (Some (lit "0 10:74:10:00:00:00 192.168.1.2 a *" ++ [10] ++ lit "0 10:74:10:00:00:01 192.168.1.3 b *" ++ [10])) [] =
    Ret (Some (lit "192.168.1.3")) /\
  vm_network_get_ip (lit "10:74:10:00:00:02") (Some (lit "duid 00:01:00" ++ [10]))
    (lit "? (10.0.0.9) at 10:74:10:00:00:02 [ether] on br0") = Raise IndexError /\
  vm_network_get_ip (lit "10:74:10:00:00:02") (Some []) (lit "? (10.0.0.9) at 10:74:10:00:00:02 [ether] on br0") = Ret (Some (lit "10.0.0.9")).
Proof. by vm_compute. Qed.
