(* ===== verification/Dhcpd.v ===== *)
(** Model of [lophinet/proxydhcpd/dhcpd.py] and [dhcplib/dhcp_network.py], the DHCP server
    that leases addresses and names the boot file, of [lophinet/aclserver.py], which changes
    the tables the servers share, and of its client [lophinet/pxeserver.py].

    The shared tables are dictionaries of a manager process, which hold copies of the values
    put into them; the list [start_ip] is changed in place. *)
From S2P Require Import Prelude Struct PyString DhcpConstants Dhcp Machine.

(** * The server *)

(** The sections of the configuration file, with the address of the TFTP server parsed *)
Record dconfig := DConfig {
  listen_address : bytes; tftp_address : list Z; filename : bytes; subnet_mask : bytes; broadcast_ : bytes;
  vendor_specific_information : bytes; client_port : Z
}.
(** [acl], [mac_to_ip] and [mac_to_pxe_conf] are shared; [sent] are the datagrams with their
    destinations. *)
Record dhcpd := Dhcpd {
  start_ip : list Z; pool_size : Z; acl : gset bytes; mac_to_ip : gmap bytes (list Z); mac_to_pxe_conf : gmap bytes bytes;
  mac_to_bootfile : gmap bytes bytes; sent : list (bytes * bytes * Z)
}.
Definition set_start_ip x s := Dhcpd x (pool_size s) (acl s) (mac_to_ip s) (mac_to_pxe_conf s) (mac_to_bootfile s) (sent s).
Definition set_acl x s := Dhcpd (start_ip s) (pool_size s) x (mac_to_ip s) (mac_to_pxe_conf s) (mac_to_bootfile s) (sent s).
Definition set_mac_to_ip x s := Dhcpd (start_ip s) (pool_size s) (acl s) x (mac_to_pxe_conf s) (mac_to_bootfile s) (sent s).
Definition set_pxe_confs x s := Dhcpd (start_ip s) (pool_size s) (acl s) (mac_to_ip s) x (mac_to_bootfile s) (sent s).
Definition set_bootfile x s := Dhcpd (start_ip s) (pool_size s) (acl s) (mac_to_ip s) (mac_to_pxe_conf s) x (sent s).
Definition set_sent x s := Dhcpd (start_ip s) (pool_size s) (acl s) (mac_to_ip s) (mac_to_pxe_conf s) (mac_to_bootfile s) x.

Definition fmtHex (x : Z) : bytes := let h := hex_text x in if bool_decide (length h = 1%nat) then 48 :: h else h.
Definition mac_of (p : dpacket) : res bytes := let? hw := GetHardwareAddress p in Ret (join [58] (fmtHex <$> hw)).
(** [map(int, s.split("."))] *)
Definition dotted (s : bytes) : res (list Z) := map_int (split_on 46 s []).
(** [s.ljust(n, "\0")] *)
Definition ljust (n : nat) (s : bytes) : bytes := s ++ replicate (n - length s) 0.

Section server.
Context (C : dconfig).
Abbreviation D := (PM dhcpd).

(** The list [ip] is [start_ip] itself: every round moves the start of the next search. *)
Fixpoint free_loop (rounds : list Z) : D (option (list Z)) :=
  match rounds with
  | [] => pm_ret None
  | i :: rounds =>
      let! ip := pm_get start_ip in
      let! last := pm_lift (py_index ip 3) in
      let! ip := pm_lift (py_setitem ip 3 (last + i)) in
      pm_modify (set_start_ip ip) ;!
      let! used := pm_get (fun s => bool_decide (ip ∈ (map_to_list (mac_to_ip s)).*2)) in
      if negb used then pm_ret (Some ip) else free_loop rounds
  end.
Definition GetFreeIP : D (option (list Z)) := let! n := pm_get pool_size in free_loop (seqZ 0 n).
(** The address of a client, entered into the table *)
Definition prospective (mac_addr : bytes) : D (option (list Z)) :=
  let! known := pm_get (fun s => mac_to_ip s !! mac_addr) in
  let! ip := match known with Some ip => pm_ret (Some ip) | None => GetFreeIP end in
  match ip with
  | None => pm_ret None
  | Some ip => pm_modify (fun s => set_mac_to_ip (<[mac_addr := ip]> (mac_to_ip s)) s) ;! pm_ret (Some ip)
  end.

(** A packet made from an empty one *)
Definition made (m : PM dpacket unit) : D dpacket := fun s =>
  let (r, p) := m new_packet in (match r with Ret _ => Ret p | Raise e => Raise e end, s).
Definition SendDhcpPacketTo (packet : dpacket) (ip : bytes) (port : Z) : D unit :=
  let! raw_packet := pm_lift (EncodePacket packet) in
  let! udp_header := pm_lift (pack (Fmt Network [CInt 2; CInt 2; CInt 2; CInt 2])
    [SInt 67; SInt 68; SInt (zlen raw_packet + 8); SInt 0]) in
  pm_modify (fun s => set_sent (sent s ++ [(udp_header ++ raw_packet, ip, port)]) s).
Definition everyone := lit "255.255.255.255".

(** ** Discover *)

Definition is_pxe (packet : dpacket) : bool :=
  bool_decide (slice (GetOption packet "vendor_class_identifier") 0 9 = lit "PXEClient").
Definition no_access := lit "lophi_no_pxe_access".
Definition pxe_offer (packet : dpacket) (ip : list Z) (bootfile : bytes) : res (PM dpacket unit) :=
  let? la := dotted (listen_address C) in
  let? mask := dotted (subnet_mask C) in
  Ret (CreateDhcpOfferPacketFrom packet ;!
    set_all [("flags", [0; 0]); ("giaddr", [0; 0; 0; 0]); ("yiaddr", ip); ("ciaddr", [0; 0; 0; 0]); ("siaddr", tftp_address C);
             ("file", ljust 128 bootfile); ("sname", ljust 64 (lit "unknown.localdomain"))] ;!
    set_all [("server_identifier", la); ("ip_address_lease_time", [0; 1; 81; 128]); ("subnet_mask", mask); ("router", la)]).
Definition plain_offer (packet : dpacket) (ip : list Z) : res (PM dpacket unit) :=
  let? la := dotted (listen_address C) in
  let? mask := dotted (subnet_mask C) in
  let? bc := dotted (broadcast_ C) in
  Ret (CreateDhcpOfferPacketFrom packet ;!
    set_all [("giaddr", [0; 0; 0; 0]); ("yiaddr", ip); ("ciaddr", [0; 0; 0; 0]); ("siaddr", la)] ;!
    set_all [("server_identifier", la); ("ip_address_lease_time", [0; 0; 14; 16]); ("renewal_time_value", [0; 0; 7; 8]);
             ("rebinding_time_value", [0; 0; 12; 78]); ("subnet_mask", mask); ("broadcast_address", bc); ("router", la);
             ("domain_name_server", la)]).
Definition answer_with (m : res (PM dpacket unit)) : D unit :=
  let! m := pm_lift m in
  let! p := made m in
  SendDhcpPacketTo p everyone (client_port C).

Definition HandleDhcpDiscover (packet : dpacket) : D unit :=
  let! mac_addr := pm_lift (mac_of packet) in
  let! ip := prospective mac_addr in
  match ip with
  | None => pm_ret tt
  | Some ip =>
      if negb (IsOption packet "vendor_class_identifier") then pm_ret tt else
      if is_pxe packet then
        let! allowed := pm_get (fun s => bool_decide (mac_addr ∈ acl s)) in
        let bootfile := if allowed then filename C else no_access in
        pm_modify (fun s => set_bootfile (<[mac_addr := bootfile]> (mac_to_bootfile s)) s) ;!
        answer_with (pxe_offer packet ip bootfile)
      else answer_with (plain_offer packet ip)
  end.

(** ** Request *)

Definition pxe_ack (packet : dpacket) (ip : list Z) (bootfile : bytes) : res (PM dpacket unit) :=
  let? la := dotted (listen_address C) in
  let? mask := dotted (subnet_mask C) in
  Ret (CreateDhcpAckPacketFrom packet ;!
    set_all [("flags", [0; 0]); ("giaddr", GetOption packet "giaddr"); ("yiaddr", ip); ("siaddr", tftp_address C);
             ("vendor_class_identifier", lit "PXEClient"); ("file", ljust 128 bootfile);
             ("sname", ljust 64 (lit "unknown.localdomain"))] ;!
    set_all [("server_identifier", la); ("ip_address_lease_time", [0; 1; 81; 128]); ("subnet_mask", mask); ("router", la)]).
Definition plain_ack (packet : dpacket) (ip : list Z) : res (PM dpacket unit) :=
  let? la := dotted (listen_address C) in
  let? mask := dotted (subnet_mask C) in
  let? bc := dotted (broadcast_ C) in
  Ret (CreateDhcpAckPacketFrom packet ;!
    set_all [("giaddr", GetOption packet "giaddr"); ("yiaddr", ip); ("ciaddr", [0; 0; 0; 0]); ("siaddr", la)] ;!
    set_all [("server_identifier", la); ("ip_address_lease_time", [0; 255; 255; 255]); ("renewal_time_value", [0; 255; 255; 255]);
             ("rebinding_time_value", [0; 255; 255; 255]); ("subnet_mask", mask); ("broadcast_address", bc); ("router", la);
             ("domain_name_server", la)]).
(** A PXE request uses up the permission; the boot file is that of the last discover. *)
Definition HandleDhcpRequest (packet : dpacket) : D unit :=
  let! mac_addr := pm_lift (mac_of packet) in
  let! ip := prospective mac_addr in
  match ip with
  | None => pm_ret tt
  | Some ip =>
      if negb (IsOption packet "vendor_class_identifier") then pm_ret tt else
      if is_pxe packet then
        pm_modify (fun s => set_acl (acl s ∖ {[mac_addr]}) s) ;!
        let! file := pm_get (fun s => mac_to_bootfile s !! mac_addr) in
        let! file := pm_lift (of_option KeyError file) in
        answer_with (pxe_ack packet ip file)
      else answer_with (plain_ack packet ip)
  end.
Definition HandleDhcpDecline (packet : dpacket) : D unit :=
  let! mac_addr := pm_lift (mac_of packet) in pm_modify (fun s => set_mac_to_ip (delete mac_addr (mac_to_ip s)) s).
Definition HandleDhcpRelease (packet : dpacket) : D unit :=
  let! mac_addr := pm_lift (mac_of packet) in pm_modify (fun s => set_mac_to_ip (delete mac_addr (mac_to_ip s)) s).
(** The address is only computed for the log. *)
Definition HandleDhcpInform (packet : dpacket) : D unit := let! _ := pm_lift (mac_of packet) in pm_ret tt.

(** The request handler of [ProxyDHCPD], whose discover handler only logs *)
Definition proxy_ack (packet : dpacket) (bootfile : bytes) : res (PM dpacket unit) :=
  let? la := dotted (listen_address C) in
  Ret (CreateDhcpAckPacketFrom packet ;!
    set_all (copied packet ["hlen"; "htype"; "xid"; "flags"; "giaddr"] ++
      [("yiaddr", [0; 0; 0; 0]); ("siaddr", tftp_address C); ("file", ljust 128 bootfile); ("vendor_class_identifier", lit "PXEClient");
       ("server_identifier", la); ("bootfile_name", filename C ++ [0]); ("tftp_server_name", tftp_address C)]) ;!
    (if bool_decide (vendor_specific_information C = []) then pm_ret tt
     else set_all [("vendor_specific_information", vendor_specific_information C)]) ;!
    delete_all ["ip_address_lease_time"]).
(** [".".join(map(str, ip))], for numbers below 256 *)
Definition dotted_text (ip : list Z) : bytes := join [46] (dec <$> ip).
Definition proxy_request (packet : dpacket) : D unit :=
  let! mac_addr := pm_lift (mac_of packet) in
  if negb (IsOption packet "vendor_class_identifier") then pm_ret tt else
  if negb (is_pxe packet) then pm_ret tt else
  let! file := pm_get (fun s => mac_to_bootfile s !! mac_addr) in
  let! file := pm_lift (of_option KeyError file) in
  let! m := pm_lift (proxy_ack packet file) in
  let! p := made m in
  SendDhcpPacketTo p (dotted_text (GetOption packet "ciaddr")) (client_port C).

(** ** Packets that arrive *)

Definition IsDhcpDeclinePacket (p : dpacket) : bool := IsDhcpSomethingPacket p [4].
Definition IsDhcpReleasePacket (p : dpacket) : bool := IsDhcpSomethingPacket p [7].
Definition IsDhcpInformPacket (p : dpacket) : bool := IsDhcpSomethingPacket p [8].
(** One datagram that is not empty; the handlers of offers, acknowledgements, refusals and
    unknown packets do nothing. *)
Definition GetNextDhcpPacket (data : bytes) : D unit :=
  let! packet := made (DecodePacket data) in
  if IsDhcpDiscoverPacket packet then HandleDhcpDiscover packet
  else if IsDhcpRequestPacket packet then HandleDhcpRequest packet
  else if IsDhcpDeclinePacket packet then HandleDhcpDecline packet
  else if IsDhcpReleasePacket packet then HandleDhcpRelease packet
  else if IsDhcpInformPacket packet then HandleDhcpInform packet
  else pm_ret tt.

(** * Changing the tables *)

Definition PXE_ADD_ACL := lit "addacl".
Definition PXE_SET_CONF := lit "addpxe".
Definition PXE_DEL_ACL := lit "delacl".
Definition PXE_GET_IP := lit "getip".
Definition PXE_NO_IP_RESP := lit "NO_IP".
(** The answer, if the request has one *)
Definition process_acl_request (data : bytes) : D (option bytes) :=
  let cmd := split_on 32 data [] in
  let! verb := pm_lift (py_index cmd 0) in
  if bool_decide (verb = PXE_ADD_ACL) then
    let! mac := pm_lift (py_index cmd 1) in
    pm_modify (fun s => set_acl ({[lower mac]} ∪ acl s) s) ;! pm_ret None
  else if bool_decide (verb = PXE_DEL_ACL) then
    let! mac := pm_lift (py_index cmd 1) in
    pm_modify (fun s => set_acl (acl s ∖ {[lower mac]}) s) ;! pm_ret None
  else
    let! resp := (if bool_decide (verb = PXE_GET_IP) then
      let! mac := pm_lift (py_index cmd 1) in
      let! ip := pm_get (fun s => mac_to_ip s !! lower mac) in
      pm_ret (Some (match ip with Some ip => dotted_text ip | None => PXE_NO_IP_RESP end))
    else pm_ret None) in
    if bool_decide (verb = PXE_SET_CONF) then
      let! mac := pm_lift (py_index cmd 1) in
      let! conf_file := pm_lift (py_index cmd 2) in
      pm_modify (fun s => set_pxe_confs (<[lower mac := conf_file]> (mac_to_pxe_conf s)) s) ;! pm_ret resp
    else pm_ret resp.

(** What reaches the servers: a datagram, of which 2048 bytes are read, or a connection, of
    which 512 are.  Both loops print exceptions and go on. *)
Inductive net_event := Datagram (data : bytes) | Connection (msg : bytes).
Definition on_event (e : net_event) (s : dhcpd) : dhcpd :=
  match e with
  | Datagram data => (GetNextDhcpPacket (take 2048 data) s).2
  | Connection msg => (process_acl_request (take 512 msg) s).2
  end.
Definition on_events (l : list net_event) (s : dhcpd) : dhcpd := foldl (fun s e => on_event e s) s l.
End server.

(** * The client *)

(** The message of each call of [PXEServer] *)
Definition set_pxe_conf_msg (mac_address pxe_conf : bytes) : bytes := join [32] [PXE_SET_CONF; mac_address; pxe_conf].
Definition add_mac_msg (mac_address : bytes) : bytes := join [32] [PXE_ADD_ACL; mac_address].
Definition get_ip_msg (mac_address : bytes) : bytes := join [32] [PXE_GET_IP; mac_address].
(** The address in the answer, [None] standing for no answer *)
Definition get_ip_answer (resp : option bytes) : option bytes :=
  match resp with Some r => if bool_decide (r = PXE_NO_IP_RESP) then None else Some r | None => None end.

Section client.
Context {N : Type} (send : bytes -> PM N unit) (ask : bytes -> PM N bytes).
(** A connection, or one with an answer; both may raise.  A failure of the first call is not
    reported. *)
Definition client_set_pxe_conf (mac_address pxe_conf : bytes) : PM N bool :=
  pm_catch (send (set_pxe_conf_msg mac_address pxe_conf)) (fun _ => pm_ret tt) ;! pm_ret true.
Definition client_add_mac (mac_address : bytes) : PM N bool :=
  pm_catch (send (add_mac_msg mac_address) ;! pm_ret true) (fun _ => pm_ret false).
Definition client_get_ip (mac_address : bytes) : PM N (option bytes) :=
  let! resp := pm_catch (let! r := ask (get_ip_msg mac_address) in pm_ret (Some r)) (fun _ => pm_ret None) in
  pm_ret (get_ip_answer resp).
End client.
