(* ===== verification/DhcpdTheorems.v ===== *)
(** Theorems on the DHCP server and the access list: leases are exclusive, the boot file of
    an offer is decided by the list, a permission is used up by one boot, what the client of
    the list writes is what the server reads, and how the pool is left. *)
From S2P Require Import Prelude Struct PyString DhcpConstants Dhcp DhcpReplies Machine Dhcpd.

(** * Packets that can be sent *)

Definition storable (nv : string * list Z) : Prop :=
  Forall in_byte nv.2 /\ zlen nv.2 < 256 /\ (is_Some (DhcpFields !! nv.1) \/ exists code, named nv.1 code).
Lemma set_slice_bytes l a b v : Forall in_byte l -> Forall in_byte v -> Forall in_byte (set_slice l a b v).
Proof.
  intros Hl Hv. unfold set_slice, slice_to, slice_from. repeat apply Forall_app_2; [by apply Forall_take|done|by apply Forall_drop].
Qed.
Lemma header_of_ok p : packet_ok p -> header_ok p.
Proof. intros []. by split. Qed.
Lemma set_option_packet name v p : packet_ok p -> storable (name, v) -> packet_ok (SetOption name v p).2.
Proof.
  intros Hp (Hb & Hl & Hn). cbn in *. destruct (set_option_spec name v p (header_of_ok p Hp)) as [[H1 H2] _].
  destruct Hp as [Hp1 Hp2 Hp3 Hp4]. split; [done..| |]; unfold SetOption.
  - destruct (DhcpFields !! name) as [[b len]|]; [|by repeat case_match]. case_match; [done|]. by apply set_slice_bytes.
  - destruct (DhcpFields !! name) as [[b len]|] eqn:Ef; [by case_match|]. destruct Hn as [[? Hn]|Hn]; [congruence|].
    destruct (DhcpOptions !! name); [|done]. destruct (_ ≫= _) as [specs|]; [|done].
    destruct (length_accepted specs (zlen v)); [|done]. by apply map_Forall_insert_2.
Qed.
Lemma delete_option_packet name p : packet_ok p -> packet_ok (DeleteOption name p).2.
Proof.
  intros Hp. destruct (delete_option_spec name p (header_of_ok p Hp)) as [[H1 H2] _].
  destruct Hp as [Hp1 Hp2 Hp3 Hp4]. split; [done..| |]; unfold DeleteOption.
  - destruct (DhcpFields !! name) as [[b len]|]; [|by case_match]. cbn. apply set_slice_bytes; [done|].
    unfold py_repeat. apply Forall_replicate. unfold in_byte. lia.
  - destruct (DhcpFields !! name) as [[b len]|]; [done|]. case_match; [|done]. cbn. by apply map_Forall_delete.
Qed.
Lemma set_all_packet l p : packet_ok p -> Forall storable l -> packet_ok (set_all l p).2.
Proof.
  intros Hp Hl. revert p Hp. induction Hl as [|[n v] l Hn _ IH]; intros p Hp; [done|]. cbn [set_all]. unfold pm_bind.
  pose proof (set_option_packet n v p Hp Hn). destruct (SetOption n v p) as [[]]; [by apply IH|done].
Qed.
Lemma delete_all_packet l p : packet_ok p -> packet_ok (delete_all l p).2.
Proof.
  revert p. induction l as [|n l IH]; intros p Hp; [done|]. cbn [delete_all]. unfold pm_bind.
  pose proof (delete_option_packet n p Hp). destruct (DeleteOption n p) as [[]]; [by apply IH|done].
Qed.
Lemma new_packet_ok : packet_ok new_packet.
Proof. split; [done|done| |by apply map_Forall_empty]. apply (bool_decide_unpack _). by vm_compute. Qed.

(** ** Their size *)

(** Only options of these names are present. *)
Definition only (names : list string) (p : dpacket) : Prop := forall n, n ∉ names -> options_data p !! n = None.
Lemma set_all_only names l : l.*1 ⊆ names -> forall p, only names p -> only names (set_all l p).2.
Proof. intros Hl p Hp n Hn. rewrite set_all_keeps; [by apply Hp|]. set_solver. Qed.
Lemma delete_option_only names n p : only names p -> only names (DeleteOption n p).2.
Proof.
  intros Hp m Hm. unfold DeleteOption. destruct (DhcpFields !! n) as [[]|]; [by apply Hp|].
  destruct (options_data p !! n); [|by apply Hp]. cbn. apply lookup_delete_None. right. by apply Hp.
Qed.
Lemma delete_all_only names l p : only names p -> only names (delete_all l p).2.
Proof.
  revert p. induction l as [|n l IH]; intros p Hp; [done|]. cbn [delete_all]. unfold pm_bind.
  pose proof (delete_option_only names n p Hp). destruct (DeleteOption n p) as [[]]; [by apply IH|done].
Qed.
Lemma concat_bound {A} (f : Z -> list A) (cs l : list Z) (k : nat) : NoDup l ->
  (forall x, x ∉ cs -> f x = []) -> (forall x, (length (f x) <= k)%nat) -> (length (concat (f <$> l)) <= k * length cs)%nat.
Proof.
  intros Hnd Hout Hk. assert (length (concat (f <$> l)) <= k * length (filter (fun x => x ∈ cs) l))%nat as H1.
  { clear Hnd. induction l as [|x l IH]; [cbn; lia|]. rewrite filter_cons. cbn [fmap list_fmap concat].
    rewrite length_app. destruct (decide (x ∈ cs)) as [Hx|Hx].
    - cbn [length]. specialize (Hk x). lia.
    - rewrite (Hout x Hx). cbn. lia. }
  assert (length (filter (fun x => x ∈ cs) l) <= length cs)%nat; [|nia].
  apply submseteq_length. apply NoDup_submseteq; [by apply NoDup_filter|]. intros x Hx%list_elem_of_filter. by destruct Hx.
Qed.
Lemma encoded_size names p raw : packet_ok p -> only names p -> EncodePacket p = Ret raw ->
  zlen raw <= 241 + 257 * Z.of_nat (length names).
Proof.
  intros [Hlen _ Hb Hopts] Honly. unfold EncodePacket. destruct (order_spec (options_data p) Hopts) as (order & Ho & Hin & Hout).
  rewrite Ho. cbn [res_bind]. assert (slice_to (packet_data p) 240 = packet_data p) as ->.
  { rewrite <- (app_nil_r (packet_data p)) at 1. by apply slice_to_app. }
  rewrite chrs_ok.
  2: { apply Forall_app_2; [done|]. apply Forall_app_2; [by eapply options_in_order_bytes|]. repeat constructor; unfold in_byte; lia. }
  intros [= <-]. rewrite !zlen_app, Hlen. change (zlen [255]) with 1.
  set (cs := omap (fun n => DhcpOptions !! n) names).
  assert (length cs <= length names)%nat as Hcs by (subst cs; clear; induction names as [|n names IH]; cbn; [lia|]; case_match; cbn; lia).
  assert (length (options_in_order order) <= 257 * length cs)%nat as Hl; [|unfold zlen; lia].
  apply concat_bound; [apply NoDup_seqZ| |].
  - intros c Hc. destruct (order !! c) as [e|] eqn:He; [|done]. exfalso. apply Hc. destruct (Hout c e He) as (n & v & Hn & Hd & _).
    apply list_elem_of_omap. exists n. split; [|apply Hd]. destruct (decide (n ∈ names)); [done|]. by rewrite Honly in Hn.
  - intros c. destruct (order !! c) as [e|] eqn:He; [|cbn; lia]. destruct (Hout c e He) as (n & v & Hn & _ & ->).
    apply Hopts in Hn as (_ & _ & Hv). unfold zlen in Hv. cbn. lia.
Qed.
(** A packet that is sent is decoded behind the eight bytes of the UDP header. *)
Lemma dhcpd_send_spec names p ip port s : packet_ok p -> only names p -> (length names <= 200)%nat ->
  exists raw, SendDhcpPacketTo p ip port s = (Ret tt, set_sent (sent s ++ [(raw, ip, port)]) s) /\
    forall q, DecodePacket (drop 8 raw) q = (Ret tt, p).
Proof.
  intros Hp Ho Hl. destruct (encoded_back p p Hp) as (raw & Hr & _).
  pose proof (encoded_size names p raw Hp Ho Hr) as Hsize. pose proof (zlen_nonneg raw).
  eexists. split.
  - unfold SendDhcpPacketTo, pm_bind, pm_lift. rewrite Hr. unfold pack. cbn [f_order f_codes pack_codes].
    change (256 ^ Z.of_nat 2) with 65536. rewrite (proj2 (Z.leb_le 0 (zlen raw + 8))), (proj2 (Z.ltb_lt (zlen raw + 8) 65536)) by lia.
    cbn [andb res_bind Z.leb Z.ltb Z.compare Pos.compare Pos.compare_cont]. reflexivity.
  - intros q. destruct (encoded_back p q Hp) as (raw' & Hr' & Hd). assert (raw' = raw) as -> by congruence.
    rewrite <- Hd. f_equal.
Qed.

(** ** Replies with values set *)

Definition over (l : list (string * list Z)) (d : string -> list Z) (n : string) : list Z :=
  default (d n) ((list_to_map l : gmap string (list Z)) !! n).
Definition fit (l : list (string * list Z)) : Prop := Forall (fun nv => accepts nv.1 nv.2 = true /\ storable nv) l /\ NoDup l.*1.
(** A request whose fields and lease time are bytes *)
Definition request_ok (src : dpacket) : Prop :=
  header_ok src /\ Forall in_byte (packet_data src) /\ storable ("ip_address_lease_time", GetOption src "ip_address_lease_time").
Lemma slice_bytes l a b : Forall in_byte l -> Forall in_byte (slice l a b).
Proof. intros H. unfold slice. by apply Forall_take, Forall_drop. Qed.
Lemma field_storable src n : request_ok src -> is_Some (DhcpFields !! n) -> storable (n, GetOption src n).
Proof.
  intros (Hh & Hb & _) [[b len] Hf]. split_and!; [| |by left].
  - cbn. unfold GetOption. rewrite Hf. by apply slice_bytes.
  - pose proof (get_field_accepted src n b len Hh Hf) as Ha. unfold accepts in Ha. rewrite Hf in Ha. apply Z.eqb_eq in Ha. cbn. rewrite Ha.
    destruct (field_bounds n b len Hf) as (? & ? & ?). lia.
Qed.
Lemma copied_storable src names : request_ok src ->
  Forall (fun n => n = "ip_address_lease_time" \/ is_Some (DhcpFields !! n)) names -> Forall storable (copied src names).
Proof.
  intros Hs Hn. unfold copied. apply Forall_fmap. eapply Forall_impl; [exact Hn|]. cbn.
  intros n [->|H]; [apply Hs|by apply field_storable].
Qed.
(** Packets that can be sent, with options of these names only *)
Definition sendable (names : list string) (p : dpacket) : Prop := packet_ok p /\ only names p.
Lemma set_all_sendable names l : Forall storable l -> l.*1 ⊆ names -> preserves (sendable names) (set_all l).
Proof.
  intros Hl Hn p [H1 H2]. pose proof (set_all_packet l p H1 Hl). pose proof (set_all_only names l Hn p H2).
  by destruct (set_all l p) as [[]].
Qed.
Lemma delete_all_sendable names l : preserves (sendable names) (delete_all l).
Proof.
  intros p [H1 H2]. pose proof (delete_all_packet l p H1). pose proof (delete_all_only names l p H2).
  by destruct (delete_all l p) as [[]].
Qed.
Lemma fixed_storable v : in_byte v ->
  storable ("dhcp_message_type", [v]) /\ storable ("op", [2]) /\ storable ("hlen", [6]).
Proof.
  intros Hv. assert (forall x, in_byte x -> Forall in_byte [x]) as Hf by (intros; by constructor).
  split; [|split]; (split; [apply Hf; unfold in_byte in *; lia|split; [done|]]);
    [right; exists 53|left|left]; by apply (bool_decide_unpack _); vm_compute.
Qed.
Lemma create_sendable k src names : k <> Nack -> request_ok src ->
  taken_over k ++ ["dhcp_message_type"; "op"; "hlen"] ⊆ names -> preserves (sendable names) (create k src).
Proof.
  intros Hk Hs Hn.
  assert (Forall storable (copied src (taken_over k))) as Hcs by (apply copied_storable; [done|destruct k; [literal|literal|done]]).
  destruct (fixed_storable 2) as (Ho & Hop & Hhl); [unfold in_byte; lia|]. destruct (fixed_storable 5) as (Ha & _); [unfold in_byte; lia|].
  destruct k; [| |done]; (apply preserves_bind; [apply set_all_sendable; [exact Hcs|rewrite copied_names; set_solver]|intros _]);
    (apply preserves_bind; [apply set_all_sendable; [|set_solver]; by repeat (apply Forall_cons; split)|intros _; apply delete_all_sendable]).
Qed.

(** A reply made from a request, with further values set *)
Lemma reply_with k src l1 l2 : k <> Nack -> request_ok src -> fit l1 -> fit l2 ->
  exists p', (create k src ;! set_all l1 ;! set_all l2) new_packet = (Ret tt, p') /\
    (forall n, GetOption p' n = over l2 (over l1 (reply_view k src new_packet)) n) /\
    sendable (taken_over k ++ ["dhcp_message_type"; "op"; "hlen"] ++ l1.*1 ++ l2.*1) p'.
Proof.
  intros Hk Hs [H1 Hn1] [H2 Hn2]. rewrite Forall_and in H1, H2. destruct H1 as [A1 S1], H2 as [A2 S2].
  assert (header_ok new_packet) as Hnew by by split.
  destruct (reply_created k src new_packet (proj1 Hs) Hnew) as (p1 & E1 & Hh1 & V1).
  destruct (set_all_spec l1 p1 Hh1 A1 Hn1) as (p2 & E2 & Hh2 & V2). destruct (set_all_spec l2 p2 Hh2 A2 Hn2) as (p3 & E3 & _ & V3).
  assert ((create k src ;! set_all l1 ;! set_all l2) new_packet = (Ret tt, p3)) as E by (unfold pm_bind; by rewrite E1, E2, E3).
  exists p3. split_and!; [done|intros n; unfold over; by rewrite V3, V2, V1|].
  set (names := _ ++ _). assert (preserves (sendable names) (create k src ;! set_all l1 ;! set_all l2)) as Hp.
  { apply preserves_bind; [apply create_sendable; [done|done|subst names; set_solver]|intros _].
    apply preserves_bind; [apply set_all_sendable; [done|subst names; set_solver]|intros _].
    apply set_all_sendable; [done|subst names; set_solver]. }
  specialize (Hp new_packet (conj new_packet_ok (fun n _ => eq_refl))). by rewrite E in Hp.
Qed.

(** ** Values that fit *)

Definition known (n : string) : bool :=
  bool_decide (is_Some (DhcpFields !! n)) ||
  match DhcpOptions !! n with
  | Some c => bool_decide (DhcpOptionsList !! Z.to_nat c = Some n) && bool_decide (0 < c <= 245)
  | None => false
  end.
Lemma known_spec n : known n = true -> is_Some (DhcpFields !! n) \/ exists code, named n code.
Proof.
  unfold known. intros [H|H]%orb_true_iff; [left; by apply bool_decide_eq_true in H|]. right.
  destruct (DhcpOptions !! n) as [c|] eqn:E; [|done]. apply andb_true_iff in H as [H1 H2].
  apply bool_decide_eq_true in H1, H2. exists c. split; [exact E|split; assumption].
Qed.
Lemma accepts_length n v w : zlen v = zlen w -> accepts n v = accepts n w.
Proof. intros E. unfold accepts. by rewrite E. Qed.
(** Whether a value fits depends on its name, its length and on being of bytes. *)
Lemma fits n v (w : list Z) : zlen v = zlen w -> known n && accepts n w && (zlen w <? 256) = true -> Forall in_byte v ->
  accepts n v = true /\ storable (n, v).
Proof.
  intros Hl [[Hk Ha]%andb_true_iff Hw]%andb_true_iff Hb. rewrite (accepts_length n v w Hl). split; [done|].
  split_and!; [done|cbn; lia|by apply known_spec].
Qed.
Definition quad (v : list Z) : Prop := Forall in_byte v /\ zlen v = 4.
Lemma fits_quad n v : quad v -> known n && accepts n [0; 0; 0; 0] = true -> accepts n v = true /\ storable (n, v).
Proof. intros [Hb Hl] Hn. apply (fits n v [0; 0; 0; 0]); [done| |done]. by rewrite Hn. Qed.
Lemma ljust_length n s : (length s <= n)%nat -> zlen (ljust n s) = Z.of_nat n.
Proof. intros H. unfold ljust, zlen. rewrite length_app, length_replicate. lia. Qed.
Lemma ljust_bytes n s : Forall in_byte s -> Forall in_byte (ljust n s).
Proof. intros H. unfold ljust. apply Forall_app. split; [done|]. apply Forall_replicate. unfold in_byte. lia. Qed.

(** A configuration of four-byte addresses and a name that fits into the field *)
Record config_ok (C : dconfig) (la mask bc : list Z) : Prop := {
  co_la : dotted (listen_address C) = Ret la; co_mask : dotted (subnet_mask C) = Ret mask;
  co_bc : dotted (broadcast_ C) = Ret bc; co_quads : quad la /\ quad mask /\ quad bc /\ quad (tftp_address C);
  co_file : Forall in_byte (filename C) /\ (length (filename C) <= 128)%nat
}.
Ltac fit_list :=
  split; [repeat (apply Forall_cons; split); try by apply Forall_nil | apply (bool_decide_unpack _); by vm_compute].

Lemma recognised p t : IsDhcpPacket p = true -> GetOption p "dhcp_message_type" = [t] -> IsDhcpSomethingPacket p [t] = true.
Proof.
  intros Hc Ht. unfold IsDhcpSomethingPacket. rewrite Hc, (bool_decide_eq_true_2 _ Ht). unfold IsOption.
  unfold GetOption in Ht. change (DhcpFields !! "dhcp_message_type") with (@None (Z * Z)) in Ht.
  destruct (options_data p !! "dhcp_message_type"); [|done]. by rewrite bool_decide_eq_true_2.
Qed.

(** What is sent to a PXE client: an offer with the client's address and boot file *)
Lemma pxe_offer_made C la mask bc src ip file : config_ok C la mask bc -> request_ok src -> quad ip ->
  Forall in_byte file -> (length file <= 128)%nat ->
  exists m p', pxe_offer C src ip file = Ret m /\ m new_packet = (Ret tt, p') /\
    (exists names, (length names <= 200)%nat /\ sendable names p') /\ IsDhcpOfferPacket p' = true /\
    GetOption p' "yiaddr" = ip /\ GetOption p' "file" = ljust 128 file /\
    GetOption p' "xid" = GetOption src "xid" /\ GetOption p' "chaddr" = GetOption src "chaddr".
Proof.
  intros [Hla Hmask _ (Q1 & Q2 & _ & Q4) _] Hs Qip Hfb Hfl. unfold pxe_offer. rewrite Hla, Hmask. cbn [res_bind].
  assert (quad [0; 0; 0; 0]) as Q0 by (split; [apply (bool_decide_unpack _); by vm_compute|done]).
  eexists. set (l1 := [("flags", [0; 0]); _; _; _; _; _; _]). set (l2 := [("server_identifier", la); _; _; _]).
  destruct (reply_with Offer src l1 l2) as (p' & Hp & Hv & Hsend); [done|done| | |].
  - fit_list.
    + apply (fits _ _ [0; 0]); [done|by vm_compute|apply (bool_decide_unpack _); by vm_compute].
    + apply fits_quad; [done|by vm_compute].
    + apply fits_quad; [done|by vm_compute].
    + apply fits_quad; [done|by vm_compute].
    + apply fits_quad; [done|by vm_compute].
    + apply (fits "file" (ljust 128 file) (replicate 128 0)); [by rewrite ljust_length|by vm_compute|by apply ljust_bytes].
    + apply (fits _ _ (replicate 64 0)); [done|by vm_compute|apply ljust_bytes; apply (bool_decide_unpack _); by vm_compute].
  - assert (quad [0; 1; 81; 128]) as Q3 by (split; [apply (bool_decide_unpack _); by vm_compute|done]).
    fit_list; (apply fits_quad; [done|by vm_compute]).
  - exists p'. split; [reflexivity|]. split; [exact Hp|]. split; [by eexists; split; [|exact Hsend]; cbn; lia|].
    split; [|by rewrite !Hv].
    apply (recognised _ 2); [apply Hsend|by rewrite Hv].
Qed.

(** * Leases *)

Definition leased (s : dhcpd) : list (list Z) := (map_to_list (mac_to_ip s)).*2.
Lemma leased_spec s ip : ip ∈ leased s <-> exists mac, mac_to_ip s !! mac = Some ip.
Proof.
  unfold leased. rewrite list_elem_of_fmap. split.
  - intros ([mac ip'] & -> & H%elem_of_map_to_list). by exists mac.
  - intros [mac H]. exists (mac, ip). split; [done|]. by apply elem_of_map_to_list.
Qed.
(** A search changes the start only, and what it finds is the new start and not leased. *)
Lemma free_loop_spec rounds s : exists x,
  (free_loop rounds s).2 = set_start_ip x s /\ forall ip, (free_loop rounds s).1 = Ret (Some ip) -> ip = x /\ ip ∉ leased s.
Proof.
  revert s. induction rounds as [|i rounds IH]; intros s; cbn [free_loop].
  { exists (start_ip s). by destruct s. }
  unfold pm_bind, pm_get, pm_lift, pm_modify. destruct (py_index (start_ip s) 3) as [last|e].
  2: { exists (start_ip s). by destruct s. }
  destruct (py_setitem (start_ip s) 3 (last + i)) as [ip|e].
  2: { exists (start_ip s). by destruct s. }
  case_bool_decide as Hused; cbn [negb].
  - destruct (IH (set_start_ip ip s)) as (x & Hx & Hip). exists x. by destruct s.
  - exists ip. split; [by destruct s|]. intros ip' [= <-]. by destruct s.
Qed.
(** What getting an address for a client does *)
Lemma prospective_spec mac s : exists x r,
  (prospective mac s = (r, set_start_ip x s) /\ forall ip, r <> Ret (Some ip)) \/
  exists ip, prospective mac s = (Ret (Some ip), set_mac_to_ip (<[mac := ip]> (mac_to_ip s)) (set_start_ip x s)) /\
    (mac_to_ip s !! mac = Some ip \/ mac_to_ip s !! mac = None /\ ip ∉ leased s /\ ip = x).
Proof.
  unfold prospective, pm_bind, pm_get. destruct (mac_to_ip s !! mac) as [ip|] eqn:Hm.
  { exists (start_ip s), (Ret None). right. exists ip. split; [by destruct s|by left]. }
  unfold GetFreeIP, pm_bind, pm_get. destruct (free_loop_spec (seqZ 0 (pool_size s)) s) as (x & Hx & Hip).
  destruct (free_loop (seqZ 0 (pool_size s)) s) as [r s1]. cbn [fst snd] in *. subst s1.
  destruct r as [[ip|]|e].
  - exists x, (Ret None). right. exists ip. destruct (Hip ip eq_refl) as [-> Hn]. split; [by destruct s|by right].
  - exists x, (Ret None). by left.
  - exists x, (Raise e). by left.
Qed.

(** No two clients have the same address. *)
Definition exclusive (s : dhcpd) : Prop :=
  forall m1 m2 ip, mac_to_ip s !! m1 = Some ip -> mac_to_ip s !! m2 = Some ip -> m1 = m2.
Lemma exclusive_insert s x mac ip : exclusive s -> (mac_to_ip s !! mac = Some ip \/ mac_to_ip s !! mac = None /\ ip ∉ leased s /\ ip = x) ->
  exclusive (set_mac_to_ip (<[mac := ip]> (mac_to_ip s)) (set_start_ip x s)).
Proof.
  intros Hs Hip m1 m2 ip'. cbn. rewrite !lookup_insert. rewrite leased_spec in Hip.
  repeat case_decide; intros; simplify_eq/=; try done; destruct Hip as [Hip|(_ & Hip & _)]; naive_solver.
Qed.
Lemma exclusive_mono s s' : mac_to_ip s' ⊆ mac_to_ip s -> exclusive s -> exclusive s'.
Proof. intros H Hs m1 m2 ip H1 H2. by apply (Hs m1 m2 ip); eapply lookup_weaken. Qed.
Lemma exclusive_prospective mac : preserves exclusive (prospective mac).
Proof.
  intros s Hs. destruct (prospective_spec mac s) as (x & r & [[-> _]|(ip & -> & Hip)]).
  - assert (exclusive (set_start_ip x s)) by done. by destruct r.
  - by apply exclusive_insert.
Qed.
(** Properties of the tables are kept by what does not change them. *)
Definition of_tables (I : dhcpd -> Prop) : Prop := forall s l, I s -> I (set_sent l s).
Section tables.
Context (I : dhcpd -> Prop) (HI : of_tables I).
Lemma keeps_modify f : (forall s, I s -> I (f s)) -> preserves I (pm_modify f).
Proof. apply preserves_modify. Qed.
Lemma keeps_made m : preserves I (made m).
Proof. intros s Hs. unfold made. by destruct (m new_packet) as [[]]. Qed.
Lemma keeps_send p ip port : preserves I (SendDhcpPacketTo p ip port).
Proof. unfold SendDhcpPacketTo. auto using preserves_modify with py_preserve. Qed.
Lemma keeps_answer C m : preserves I (answer_with C m).
Proof. unfold answer_with. auto using keeps_made, keeps_send with py_preserve. Qed.
Context (Hip : forall mac, preserves I (prospective mac)).
Context (Hboot : forall s x, I s -> I (set_bootfile x s)) (Hdrop : forall s m, I s -> I (set_acl (acl s ∖ {[m]}) s)).
Context (Hadd : forall s m, I s -> I (set_acl ({[m]} ∪ acl s) s)).
Context (Hconf : forall s x, I s -> I (set_pxe_confs x s)).
Context (Hdel : forall s m, I s -> I (set_mac_to_ip (delete m (mac_to_ip s)) s)).
Ltac walk_tables :=
  repeat first
    [ match goal with |- forall _ : _, _ => intros ? end
    | apply Hip | apply keeps_answer | apply keeps_made | apply preserves_bind | apply preserves_if | apply preserves_lift
    | apply preserves_get | apply preserves_ret | (apply preserves_modify; by auto) | case_match ].
Lemma keeps_datagram C d : preserves I (GetNextDhcpPacket C d).
Proof.
  unfold GetNextDhcpPacket, HandleDhcpDiscover, HandleDhcpRequest, HandleDhcpDecline, HandleDhcpRelease, HandleDhcpInform.
  walk_tables.
Qed.
Lemma keeps_request m : preserves I (process_acl_request m).
Proof. unfold process_acl_request. walk_tables. Qed.
Lemma keeps_event C e s : I s -> I (on_event C e s).
Proof.
  intros Hs. destruct e as [d|m]; cbn [on_event].
  - pose proof (keeps_datagram C (take 2048 d) s Hs). by destruct (GetNextDhcpPacket C (take 2048 d) s) as [[]].
  - pose proof (keeps_request (take 512 m) s Hs). by destruct (process_acl_request (take 512 m) s) as [[]].
Qed.
Lemma keeps_events C l s : I s -> I (on_events C l s).
Proof. revert s. induction l as [|e l IH]; intros s Hs; [done|]. cbn. by apply IH, keeps_event. Qed.
End tables.

(** Leases of the DHCP server: whatever datagrams and requests to the access list arrive,
    in whatever order, no two clients hold the same address. *)
Theorem dhcpd_leases_exclusive C l s : exclusive s -> exclusive (on_events C l s).
Proof.
  apply keeps_events; [by intros ? ? ?|apply exclusive_prospective|by intros ? ? ?..|].
  intros s' m Hs'. apply (exclusive_mono s'); [apply delete_subseteq|done].
Qed.
Definition demo_conf : dconfig :=
  DConfig (lit "10.0.0.1") [10; 0; 0; 1] (lit "pxelinux.0") (lit "255.255.255.0") (lit "10.0.0.255") [] 68.
(** A server with a pool of [n] addresses from 10.0.0.100 on *)
Definition fresh_dhcpd (n : Z) : dhcpd := Dhcpd [10; 0; 0; 100] n ∅ ∅ ∅ ∅ [].
(** A message of type [t] of the client with the last byte [c], from a PXE client *)
Definition client_packet (t c : Z) : dpacket :=
  DPacket (set_slice (set_slice (packet_data new_packet) 2 3 [6]) 28 34 [2; 0; 0; 0; 0; c])
    {["dhcp_message_type" := [t]; "vendor_class_identifier" := lit "PXEClient:Arch:00000"]}.
Definition client_data (t c : Z) : bytes := match EncodePacket (client_packet t c) with Ret d => d | Raise _ => [] end.
Lemma dhcpd_leases_exclusive_witness :
  exclusive (on_events demo_conf [Datagram (client_data 1 7); Connection (lit "addacl 02:00:00:00:00:08"); Datagram (client_data 1 8)]
    (fresh_dhcpd 2)).
Proof. apply dhcpd_leases_exclusive. intros m1 m2 ip H. cbn [fresh_dhcpd mac_to_ip] in H. by rewrite lookup_empty in H. Defined.

(** ** Leaving the pool *)

(** While the address at the start of the search is leased and the next is free, a new client
    gets the next, wherever the pool began. *)
Lemma search_moves s mac a b c d : start_ip s = [a; b; c; d] -> 2 <= pool_size s -> mac_to_ip s !! mac = None ->
  [a; b; c; d] ∈ leased s -> [a; b; c; d + 1] ∉ leased s ->
  prospective mac s = (Ret (Some [a; b; c; d + 1]),
    set_mac_to_ip (<[mac := [a; b; c; d + 1]]> (mac_to_ip s)) (set_start_ip [a; b; c; d + 1] s)).
Proof.
  intros Hs Hp Hm Hu Hf. unfold prospective, GetFreeIP, pm_bind, pm_get. rewrite Hm.
  rewrite (seqZ_cons 0), (seqZ_cons (Z.succ 0)) by lia. cbn [free_loop]. unfold pm_bind, pm_get, pm_lift, pm_modify.
  rewrite Hs. change (py_index [a; b; c; d] 3) with (Ret (A:=Z) d). cbn iota beta.
  change (py_setitem [a; b; c; d] 3 (d + 0)) with (Ret (A:=list Z) [a; b; c; d + 0]). rewrite Z.add_0_r. cbn iota beta.
  rewrite bool_decide_true by exact Hu. cbn [negb start_ip set_start_ip].
  change (py_index [a; b; c; d] 3) with (Ret (A:=Z) d). cbn iota beta.
  change (py_setitem [a; b; c; d] 3 (d + Z.succ 0)) with (Ret (A:=list Z) [a; b; c; d + 1]). cbn iota beta.
  rewrite bool_decide_false by exact Hf. cbn. by destruct s.
Qed.
(** Two clients and a pool of two addresses: when the first leaves, the next one is given the
    address behind the pool although the first address is free. *)
Lemma pool_left :
  let s := on_events demo_conf [Datagram (client_data 1 7); Datagram (client_data 1 8); Datagram (client_data 7 7); Datagram (client_data 1 9)]
    (fresh_dhcpd 2) in
  mac_to_ip s !! lit "02:00:00:00:00:09" = Some [10; 0; 0; 102] /\ map_to_list (mac_to_ip s) !! 2%nat = None.
Proof. by vm_compute. Qed.
(** A PXE request without a discover: the permission is gone and there is no answer. *)
Lemma request_without_discover :
  let s := on_events demo_conf [Connection (lit "addacl 02:00:00:00:00:07"); Datagram (client_data 3 7)] (fresh_dhcpd 2) in
  acl s = ∅ /\ sent s = [].
Proof. by vm_compute. Qed.
(** A client that names no vendor class gets an address and no answer. *)
Lemma plain_client_unanswered C src mac s : mac_of src = Ret mac -> options_data src !! "vendor_class_identifier" = None ->
  sent (HandleDhcpDiscover C src s).2 = sent s /\ sent (HandleDhcpRequest C src s).2 = sent s.
Proof.
  intros Hm Ho. assert (IsOption src "vendor_class_identifier" = false) as Hn.
  { unfold IsOption. rewrite Ho. by vm_compute. }
  unfold HandleDhcpDiscover, HandleDhcpRequest, pm_bind, pm_lift. rewrite Hm, Hn. cbn iota beta.
  destruct (prospective_spec mac s) as (x & r & [[-> Hr]|(ip & -> & _)]); [|done]. by destruct r as [[]|].
Qed.

(** * Which machines boot over the network *)

(** [C30] The boot file of an offer: a PXE client that asks for an address and gets one is sent
    exactly one datagram, which decodes to an offer of that address for its transaction and
    hardware address, with the configured boot file if the client is on the access list and
    otherwise with a file that does not exist; the list is not changed. *)
Theorem discover_boot_file C la mask bc src mac ip s s1 :
  config_ok C la mask bc -> request_ok src -> mac_of src = Ret mac -> IsOption src "vendor_class_identifier" = true ->
  is_pxe src = true -> prospective mac s = (Ret (Some ip), s1) -> quad ip ->
  exists raw p s', HandleDhcpDiscover C src s = (Ret tt, s') /\ sent s' = sent s ++ [(raw, everyone, client_port C)] /\
    acl s' = acl s /\ (forall q, DecodePacket (drop 8 raw) q = (Ret tt, p)) /\ IsDhcpOfferPacket p = true /\
    GetOption p "yiaddr" = ip /\ GetOption p "file" = ljust 128 (if bool_decide (mac ∈ acl s) then filename C else no_access) /\
    GetOption p "xid" = GetOption src "xid" /\ GetOption p "chaddr" = GetOption src "chaddr".
Proof.
  intros HC Hs Hm Ho Hpxe Hip Hq. set (file := if bool_decide (mac ∈ acl s) then filename C else no_access).
  assert (Forall in_byte file /\ (length file <= 128)%nat) as [Hfb Hfl].
  { subst file. case_bool_decide; [apply HC|]. split; [apply (bool_decide_unpack _); by vm_compute|apply Nat.leb_le; by vm_compute]. }
  destruct (pxe_offer_made C la mask bc src ip file HC Hs Hq Hfb Hfl) as (m & p & Hm' & Hp & (names & Hlen & Hsend) & Htype & Hy & Hf & Hx & Hc).
  destruct Hsend as [Hok Honly]. set (s2 := set_bootfile (<[mac := file]> (mac_to_bootfile s1)) s1).
  destruct (dhcpd_send_spec names p everyone (client_port C) s2 Hok Honly Hlen) as (raw & Hsent & Hdec).
  assert (acl s1 = acl s /\ sent s1 = sent s) as [Ha Hse].
  { destruct (prospective_spec mac s) as (x & r & [[E Hr]|(ip' & E & _)]); rewrite E in Hip;
      [injection Hip as Hi _; by destruct (Hr ip)|by injection Hip as _ <-]. }
  exists raw, p, (set_sent (sent s2 ++ [(raw, everyone, client_port C)]) s2). split_and!; [|by cbn; rewrite Hse|done..].
  unfold HandleDhcpDiscover, pm_bind, pm_lift. rewrite Hm. cbn iota beta. rewrite Hip, Ho, Hpxe. cbn [negb].
  unfold pm_bind, pm_get, pm_modify. cbn iota beta. rewrite Ha. fold file. fold s2.
  unfold answer_with, pm_bind, pm_lift. rewrite Hm'. cbn iota beta. unfold made. rewrite Hp. exact Hsent.
Qed.
Lemma demo_conf_ok : config_ok demo_conf [10; 0; 0; 1] [255; 255; 255; 0] [10; 0; 0; 255].
Proof.
  split; [by vm_compute..| |split; [apply (bool_decide_unpack _); by vm_compute|apply Nat.leb_le; by vm_compute]].
  unfold quad. apply (bool_decide_unpack _). by vm_compute.
Qed.
Lemma client_request_ok : request_ok (client_packet 1 7).
Proof.
  split; [by split|]. split; [apply (bool_decide_unpack _); by vm_compute|]. split; [by vm_compute|]. split; [by vm_compute|].
  right. exists 51. by apply (bool_decide_unpack _); vm_compute.
Qed.
Lemma discover_boot_file_witness :
  exists raw p s', HandleDhcpDiscover demo_conf (client_packet 1 7) (set_acl {[lit "02:00:00:00:00:07"]} (fresh_dhcpd 2)) = (Ret tt, s') /\
    sent s' = [(raw, everyone, 68)] /\ acl s' = {[lit "02:00:00:00:00:07"]} /\
    (forall q, DecodePacket (drop 8 raw) q = (Ret tt, p)) /\ IsDhcpOfferPacket p = true /\
    GetOption p "yiaddr" = [10; 0; 0; 100] /\ GetOption p "file" = ljust 128 (lit "pxelinux.0") /\
    GetOption p "xid" = GetOption (client_packet 1 7) "xid" /\ GetOption p "chaddr" = GetOption (client_packet 1 7) "chaddr".
Proof.
  refine (discover_boot_file demo_conf _ _ _ (client_packet 1 7) (lit "02:00:00:00:00:07") [10; 0; 0; 100] _ _
    demo_conf_ok client_request_ok _ _ _ _ _); [by vm_compute..|]. unfold quad. apply (bool_decide_unpack _). by vm_compute.
Defined.

(** ** Permissions *)

Lemma message_words w l : 32 ∉ w -> split_on 32 (w ++ [32] ++ l) [] = w :: split_on 32 l [].
Proof. intros Hw. cbn [app]. by rewrite split_on_app. Qed.
Lemma short_message (m : bytes) : (length m <= 512)%nat -> take 512 m = m.
Proof. apply take_ge. Qed.
(** The requests of the client are what the server carries out. *)
Lemma add_mac_received C m s : 32 ∉ m -> (length m <= 500)%nat ->
  on_event C (Connection (add_mac_msg m)) s = set_acl ({[lower m]} ∪ acl s) s.
Proof.
  intros Hm Hl. cbn [on_event]. rewrite short_message by (unfold add_mac_msg; cbn; lia).
  unfold process_acl_request, add_mac_msg. cbn [join]. rewrite message_words by (apply (bool_decide_unpack _); by vm_compute).
  rewrite split_on_word by done. rewrite reverse_nil. cbn [app]. done.
Qed.
Lemma set_pxe_conf_received C m f s : 32 ∉ m -> 32 ∉ f -> (length m + length f <= 500)%nat ->
  on_event C (Connection (set_pxe_conf_msg m f)) s = set_pxe_confs (<[lower m := f]> (mac_to_pxe_conf s)) s.
Proof.
  intros Hm Hf Hl. cbn [on_event]. rewrite short_message by (unfold set_pxe_conf_msg; cbn; rewrite length_app; cbn; lia).
  unfold process_acl_request, set_pxe_conf_msg. cbn [join]. rewrite message_words by (apply (bool_decide_unpack _); by vm_compute).
  rewrite message_words by done. rewrite split_on_word by done. rewrite reverse_nil. cbn [app]. done.
Qed.
Lemma get_ip_answered m s : 32 ∉ m -> process_acl_request (get_ip_msg m) s =
  (Ret (Some (match mac_to_ip s !! lower m with Some ip => dotted_text ip | None => PXE_NO_IP_RESP end)), s).
Proof.
  intros Hm. unfold process_acl_request, get_ip_msg. cbn [join]. rewrite message_words by (apply (bool_decide_unpack _); by vm_compute).
  rewrite split_on_word by done. rewrite reverse_nil. cbn [app]. unfold pm_bind, pm_lift, pm_get.
  change (py_index [PXE_GET_IP; m] 0) with (Ret (A:=bytes) PXE_GET_IP). change (py_index [PXE_GET_IP; m] 1) with (Ret (A:=bytes) m).
  cbn iota beta. change (bool_decide (PXE_GET_IP = PXE_ADD_ACL)) with false. change (bool_decide (PXE_GET_IP = PXE_DEL_ACL)) with false.
  change (bool_decide (PXE_GET_IP = PXE_GET_IP)) with true. by change (bool_decide (PXE_GET_IP = PXE_SET_CONF)) with false.
Qed.

(** The client talking to the server *)
Definition to_server (C : dconfig) (msg : bytes) : PM dhcpd unit := pm_modify (on_event C (Connection msg)).
Definition ask_server (msg : bytes) : PM dhcpd bytes :=
  let! r := process_acl_request (take 512 msg) in pm_lift (of_option SocketTimeout r).
(** Client and server of the access list agree: adding an address puts it on the list in
    small letters, a boot configuration is entered for it, and asking for its address gives
    the leased one in dotted notation, or nothing if there is none. *)
Theorem client_server C m f s : 32 ∉ m -> 32 ∉ f -> (length m + length f <= 500)%nat ->
  client_add_mac (to_server C) m s = (Ret true, set_acl ({[lower m]} ∪ acl s) s) /\
  client_set_pxe_conf (to_server C) m f s = (Ret true, set_pxe_confs (<[lower m := f]> (mac_to_pxe_conf s)) s) /\
  client_get_ip ask_server m s =
    (Ret (match mac_to_ip s !! lower m with Some ip => get_ip_answer (Some (dotted_text ip)) | None => None end), s).
Proof.
  intros Hm Hf Hl. split_and!.
  - unfold client_add_mac, to_server, pm_catch, pm_bind, pm_modify. by rewrite add_mac_received by (done || lia).
  - unfold client_set_pxe_conf, to_server, pm_catch, pm_bind, pm_modify. by rewrite set_pxe_conf_received by (done || lia).
  - unfold client_get_ip, ask_server, pm_catch, pm_bind. rewrite short_message by (unfold get_ip_msg; cbn; lia).
    rewrite get_ip_answered by done. by destruct (mac_to_ip s !! lower m).
Qed.
Lemma client_server_witness :
  client_get_ip ask_server (lit "02:00:00:00:00:0A") (set_mac_to_ip {[lit "02:00:00:00:00:0a" := [10; 0; 0; 100]]} (fresh_dhcpd 2)) =
    (Ret (Some (lit "10.0.0.100")), set_mac_to_ip {[lit "02:00:00:00:00:0a" := [10; 0; 0; 100]]} (fresh_dhcpd 2)).
Proof.
  refine (proj2 (proj2 (client_server demo_conf (lit "02:00:00:00:00:0A") (lit "xp") _ _ _ _)));
    [apply (bool_decide_unpack _); by vm_compute..|apply Nat.leb_le; by vm_compute].
Defined.

(** The requests that permit a machine to boot *)
Definition permits (mac : bytes) (e : net_event) : Prop :=
  match e with
  | Connection m => exists m', split_on 32 (take 512 m) [] !! 1%nat = Some m' /\ head (split_on 32 (take 512 m) []) = Some PXE_ADD_ACL /\ lower m' = mac
  | Datagram _ => False
  end.
Lemma not_permitted C mac e s : ~ permits mac e -> mac ∉ acl s -> mac ∉ acl (on_event C e s).
Proof.
  intros He Hs. destruct e as [d|m]; cbn [on_event].
  - assert (preserves (fun s => mac ∉ acl s) (GetNextDhcpPacket C (take 2048 d))) as Hp.
    { apply keeps_datagram; [by intros ? ? ?| |by intros ? ? ?|cbn; set_solver|by intros ? ? ?].
      intros m' s' Hs'. destruct (prospective_spec m' s') as (x & r & [[-> _]|(ip & -> & _)]); [by destruct r|done]. }
    specialize (Hp s Hs). by destruct (GetNextDhcpPacket C (take 2048 d) s) as [[]].
  - cbn [permits] in He. unfold process_acl_request, pm_bind, pm_lift. destruct (split_on 32 (take 512 m) []) as [|verb l]; [done|].
    change (py_index (verb :: l) 0) with (Ret (A:=bytes) verb). cbn iota beta.
    case_bool_decide as H1; [|case_bool_decide as H2].
    + destruct l as [|m' l]; [done|]. change (py_index (verb :: m' :: l) 1) with (Ret (A:=bytes) m'). cbn.
      apply not_elem_of_union. split; [|done]. rewrite elem_of_singleton. intros ->. apply He. exists m'. by rewrite H1.
    + destruct (py_index (verb :: l) 1); [cbn; set_solver|done].
    + unfold pm_get. destruct (py_index (verb :: l) 1), (py_index (verb :: l) 2), (bool_decide (verb = PXE_GET_IP)),
        (bool_decide (verb = PXE_SET_CONF)); exact Hs.
Qed.

(** One boot per permission: once the server has taken a PXE client's request, the client is
    not on the access list again until somebody adds its address, whatever else arrives. *)
Theorem permission_once C src mac ip s s1 l :
  mac_of src = Ret mac -> IsOption src "vendor_class_identifier" = true -> is_pxe src = true ->
  prospective mac s = (Ret (Some ip), s1) -> Forall (fun e => ~ permits mac e) l ->
  mac ∉ acl (on_events C l (HandleDhcpRequest C src s).2).
Proof.
  intros Hm Ho Hp Hip Hl. assert (mac ∉ acl (HandleDhcpRequest C src s).2) as H0.
  { unfold HandleDhcpRequest, pm_bind, pm_lift. rewrite Hm. cbn iota beta. rewrite Hip, Ho, Hp. cbn [negb].
    unfold pm_bind, pm_modify, pm_get, pm_lift. cbn iota beta. set (s2 := set_acl _ s1).
    assert (mac ∉ acl s2) as H2 by (subst s2; cbn; set_solver).
    destruct (of_option KeyError (mac_to_bootfile s2 !! mac)) as [file|]; [|done].
    assert (preserves (fun s => mac ∉ acl s) (answer_with C (pxe_ack C src ip file))) as Ha by (apply keeps_answer; by intros ? ? ?).
    specialize (Ha s2 H2). by destruct (answer_with C (pxe_ack C src ip file) s2) as [[]]. }
  revert H0. generalize (HandleDhcpRequest C src s).2. induction Hl as [|e l He _ IH]; intros s' Hs'; [done|].
  cbn. by apply IH, not_permitted.
Qed.
Lemma permission_once_witness :
  lit "02:00:00:00:00:07" ∉ acl (on_events demo_conf [Datagram (client_data 1 7); Connection (lit "getip 02:00:00:00:00:07")]
    (HandleDhcpRequest demo_conf (client_packet 3 7) (set_acl {[lit "02:00:00:00:00:07"]} (fresh_dhcpd 2))).2).
Proof.
  refine (permission_once demo_conf (client_packet 3 7) (lit "02:00:00:00:00:07") [10; 0; 0; 100] _ _ _ _ _ _ _ _); [by vm_compute..|].
  repeat (apply Forall_cons; split); [by intros []|by intros (? & _ & ? & _)|by apply Forall_nil].
Defined.
(** Hardware addresses of packets are written in small letters, as the list keeps them, in
    whatever case a permission was given. *)
Lemma lower_app a b : lower (a ++ b) = lower a ++ lower b.
Proof. apply fmap_app. Qed.
Lemma fmtHex_lower x : in_byte x -> lower (fmtHex x) = fmtHex x.
Proof.
  intros Hx. set (f := fun x => bool_decide (lower (fmtHex x) = fmtHex x)).
  assert (f x = true) as Hf by (apply all_bytes; [by vm_compute|done]). by apply bool_decide_eq_true in Hf.
Qed.
Lemma mac_lower src mac : Forall in_byte (packet_data src) -> mac_of src = Ret mac -> lower mac = mac.
Proof.
  intros Hb. unfold mac_of. destruct (GetHardwareAddress src) as [hw|e] eqn:E; [|done]. cbn. intros [= <-].
  assert (Forall in_byte hw) as Hh.
  { revert E. unfold GetHardwareAddress. destruct (py_index (GetOption src "hlen") 0); cbn [res_bind]; [|done]. intros [= <-].
    change (GetOption src "chaddr") with (slice (packet_data src) 28 44).
    case_match; [do 2 apply slice_bytes; done|by apply slice_bytes]. }
  clear E. induction Hh as [|x hw Hx _ IH]; [done|]. cbn [fmap list_fmap join]. destruct hw as [|y hw]; [by apply fmtHex_lower|].
  cbn [fmap list_fmap join] in *. rewrite !lower_app, IH, fmtHex_lower by done. done.
Qed.
(** The proxy never answers: the table of boot files is only filled by the discover handler
    that it replaces. *)
Lemma proxy_never_answers C src s : mac_to_bootfile s = ∅ -> sent (proxy_request C src s).2 = sent s.
Proof.
  intros Hs. unfold proxy_request, pm_bind, pm_lift. destruct (mac_of src) as [mac|]; [|done].
  repeat (case_match; [done|]). unfold pm_get. by rewrite Hs, lookup_empty.
Qed.
