(* ===== verification/Dns.v ===== *)
(** Model of [lophinet/dns.py], the server that answers queries for a table of names.
    Theorems: a query is read in a bounded number of rounds, the name is that of the labels,
    and the answer, read by the rules of the protocol, is the address in the table. *)
From S2P Require Import Prelude Struct PyString.

(** * Queries *)

Fixpoint domain_loop (fuel : nat) (data : bytes) (ini : Z) (domain : bytes) : res bytes :=
  match fuel with
  | O => Raise Diverges
  | S fuel =>
      let? lon := py_index data ini in
      if lon =? 0 then Ret domain
      else domain_loop fuel data (ini + (lon + 1)) (domain ++ slice data (ini + 1) (ini + lon + 1) ++ [46])
  end.
(** [DNSQuery(data).domain] *)
Definition DNSQuery (data : bytes) : res bytes :=
  let? c := py_index data 2 in
  let type := Z.land (Z.shiftr c 3) 15 in
  if type =? 0 then domain_loop (S (length data)) data 12 [] else Ret [].

(** [map(lambda x: chr(int(x)), ip.split('.'))] *)
Fixpoint chr_ints (l : list bytes) : res bytes :=
  match l with
  | [] => Ret []
  | x :: l =>
      let? n := py_int x in
      if (0 <=? n) && (n <? 256) then let? r := chr_ints l in Ret (n :: r) else Raise ValueError
  end.
Definition response (data domain ip : bytes) : res bytes :=
  if bool_decide (domain = []) then Ret [] else
  let? addr := chr_ints (split_on 46 ip []) in
  Ret (slice data 0 2 ++ [129; 128] ++ slice data 4 6 ++ slice data 4 6 ++ [0; 0; 0; 0] ++ slice_from data 12 ++
       [192; 12] ++ [0; 1; 0; 1; 0; 0; 0; 60; 0; 4] ++ addr).
(** One round of the server: the datagram sent, if any.  Exceptions end the process. *)
Definition serve_query (table : gmap bytes bytes) (data : bytes) : res (option bytes) :=
  let? domain := DNSQuery data in
  match table !! domain with Some ip => let? r := response data domain ip in Ret (Some r) | None => Ret None end.
Fixpoint dns_run (table : gmap bytes bytes) (queries : list bytes) : list bytes * option pyexc :=
  match queries with
  | [] => ([], None)
  | q :: queries =>
      match serve_query table (take 1024 q) with
      | Ret r => let '(sent, e) := dns_run table queries in (option_list r ++ sent, e)
      | Raise e => ([], Some e)
      end
  end.

(** * Names *)

(** A name on the wire *)
Definition wire (labels : list bytes) : bytes := concat ((fun l => zlen l :: l) <$> labels) ++ [0].
Definition text (labels : list bytes) : bytes := concat ((fun l => l ++ [46]) <$> labels).
Definition label_ok (l : bytes) : Prop := l <> [] /\ (length l < 256)%nat.

Lemma domain_loop_spec labels : forall pre post domain fuel, Forall label_ok labels -> (length labels < fuel)%nat ->
  domain_loop fuel (pre ++ wire labels ++ post) (zlen pre) domain = Ret (domain ++ text labels).
Proof.
  induction labels as [|l labels IH]; intros pre post domain fuel Hl Hf; (destruct fuel as [|fuel]; [lia|]); cbn [domain_loop].
  - unfold wire, text. cbn [fmap list_fmap concat app]. rewrite py_index_middle. cbn. by rewrite app_nil_r.
  - apply Forall_cons in Hl as [[Hne Hlen] Hl]. unfold wire. cbn [fmap list_fmap concat]. rewrite <- !app_assoc. cbn [app].
    rewrite py_index_middle. cbn [res_bind]. assert (zlen l <> 0) as Hz by (destruct l; [done|]; unfold zlen; cbn; lia).
    rewrite (proj2 (Z.eqb_neq _ _)) by done. cbn in Hf.
    set (rest := (l ++ _)).
    assert (slice (pre ++ zlen l :: rest) (zlen pre + 1) (zlen pre + zlen l + 1) = l) as ->.
    { change (pre ++ zlen l :: rest) with (pre ++ [zlen l] ++ rest). rewrite app_assoc. subst rest.
      apply slice_middle; rewrite zlen_app; change (zlen [zlen l]) with 1; lia. }
    replace (pre ++ zlen l :: rest) with ((pre ++ zlen l :: l) ++ wire labels ++ post).
    2: { subst rest. unfold wire. by rewrite <- !app_assoc. }
    replace (zlen pre + (zlen l + 1)) with (zlen (pre ++ zlen l :: l)) by (rewrite zlen_app, zlen_cons; lia).
    rewrite IH by (done || lia). f_equal. unfold text. cbn [fmap list_fmap concat]. by rewrite <- !app_assoc.
Qed.
Lemma labels_length labels : (length labels < length (wire labels))%nat.
Proof.
  unfold wire. rewrite length_app. cbn [length]. assert (length labels <= length (concat ((fun l => zlen l :: l) <$> labels)))%nat; [|lia].
  induction labels as [|l labels IH]; cbn; [lia|]. rewrite length_app. lia.
Qed.
(** Reading ends: every round moves forward, and a name without an end raises. *)
Lemma domain_loop_ends data : Forall byte_ok data -> forall fuel ini domain, 0 <= ini -> (0 < fuel)%nat ->
  zlen data < ini + Z.of_nat fuel -> domain_loop fuel data ini domain <> Raise Diverges.
Proof.
  intros Hd. induction fuel as [|fuel IH]; intros ini domain Hi H0 Hf; cbn [domain_loop]; [lia|].
  unfold py_index. rewrite (proj2 (Z.ltb_ge ini 0)) by lia. rewrite (proj2 (Z.ltb_ge ini 0)) by lia.
  destruct (data !! Z.to_nat ini) as [lon|] eqn:Hl; [|done]. cbn [of_option res_bind].
  pose proof (proj1 (Forall_lookup _ _) Hd _ _ Hl) as Hb. apply lookup_lt_Some in Hl. unfold byte_ok, zlen in *.
  destruct (lon =? 0); [done|]. apply IH; lia.
Qed.

(** Queries are read whatever a datagram holds: reading ends with a name or with
    [IndexError], and a query for the labels of a name, whatever follows them, is read as
    the labels each followed by a dot. *)
Theorem query_read data : Forall byte_ok data -> DNSQuery data <> Raise Diverges /\
  forall header labels post, data = header ++ wire labels ++ post -> length header = 12%nat -> Forall label_ok labels ->
    (exists c, header !! 2%nat = Some c /\ Z.land (Z.shiftr c 3) 15 = 0) -> DNSQuery data = Ret (text labels).
Proof.
  intros Hd. split.
  - unfold DNSQuery. destruct (py_index data 2) as [c|e] eqn:E; cbn [res_bind].
    + case_match; [|done]. apply domain_loop_ends; [done|lia|lia|unfold zlen; lia].
    + unfold py_index in E. cbn in E. destruct (data !! _) in E; cbn in E; congruence.
  - intros header labels post -> Hh Hl (c & Hc & Ht). unfold DNSQuery.
    rewrite (py_index_lookup _ 2 c) by (try lia; change (Z.to_nat 2) with 2%nat; by rewrite lookup_app_l by lia).
    cbn [res_bind]. rewrite Ht. cbn [Z.eqb]. change 12 with (Z.of_nat 12). rewrite <- Hh. fold (zlen header).
    apply (domain_loop_spec labels header post []); [done|]. rewrite !length_app. pose proof (labels_length labels). lia.
Qed.
Definition demo_query : bytes := [18; 52; 1; 0; 0; 1; 0; 0; 0; 0; 0; 0] ++ wire [lit "lophi-pxe"] ++ [0; 1; 0; 1].
Lemma query_read_witness : DNSQuery demo_query = Ret (lit "lophi-pxe.").
Proof.
  assert (Forall byte_ok demo_query) as Hd by (unfold byte_ok; apply (bool_decide_unpack _); by vm_compute).
  apply (proj2 (query_read demo_query Hd) [18; 52; 1; 0; 0; 1; 0; 0; 0; 0; 0; 0] [lit "lophi-pxe"] [0; 1; 0; 1]);
    [done|done| |by exists 1]. apply Forall_cons. split; [|done]. split; [done|apply Nat.ltb_lt; by vm_compute].
Defined.

(** * Answers *)

(** Reading an answer by the rules of the protocol: the name of the question is skipped, and
    the record behind the question refers to it *)
Fixpoint skip_name (fuel : nat) (d : bytes) : option bytes :=
  match fuel, d with
  | S fuel, n :: d => if n =? 0 then Some d else skip_name fuel (drop (Z.to_nat n) d)
  | _, _ => None
  end.
Definition read_answer (r : bytes) : option (bytes * bytes) :=
  if bool_decide (slice r 2 4 = [129; 128]) && bool_decide (slice r 4 8 = [0; 1; 0; 1]) then
    match skip_name (length r) (drop 12 r) with
    | Some (_ :: _ :: _ :: _ :: 192 :: 12 :: 0 :: 1 :: 0 :: 1 :: _ :: _ :: _ :: _ :: 0 :: 4 :: addr) => Some (slice r 0 2, addr)
    | _ => None
    end
  else None.
Lemma skip_name_wire labels post fuel : Forall label_ok labels -> (length labels < fuel)%nat ->
  skip_name fuel (wire labels ++ post) = Some post.
Proof.
  revert fuel. induction labels as [|l labels IH]; intros fuel Hl Hf; (destruct fuel as [|fuel]; [lia|]); [done|].
  apply Forall_cons in Hl as [[Hne _] Hl]. unfold wire. cbn [fmap list_fmap concat]. cbn [app skip_name].
  rewrite (proj2 (Z.eqb_neq _ _)) by (destruct l; [done|]; unfold zlen; cbn; lia).
  rewrite <- !app_assoc. rewrite drop_app_length' by (unfold zlen; lia). rewrite app_assoc. apply IH; [done|]. cbn in Hf. lia.
Qed.
Lemma py_int_dec x : byte_ok x -> py_int (dec x) = Ret x.
Proof.
  intros Hx. set (f := fun x => bool_decide (py_int (dec x) = Ret x)).
  assert (f x = true) as Hf by (apply all_bytes; [by vm_compute|done]). by apply bool_decide_eq_true in Hf.
Qed.
(** The address of a dotted text *)
Lemma chr_ints_dotted a b c d : Forall byte_ok [a; b; c; d] ->
  chr_ints (split_on 46 (join [46] (dec <$> [a; b; c; d])) []) = Ret [a; b; c; d].
Proof.
  intros H. repeat (apply Forall_cons in H as [? H]).
  assert (forall x, byte_ok x -> 46 ∉ dec x) as Hd by (intros; by apply digits_no_dot, dec_chars).
  cbn [fmap list_fmap join app]. rewrite !split_on_app, split_on_word by (by apply Hd). rewrite reverse_nil. cbn [app chr_ints].
  rewrite !py_int_dec by done. cbn [res_bind]. unfold byte_ok in *.
  rewrite !(proj2 (Z.leb_le 0 _)), !(proj2 (Z.ltb_lt _ 256)) by lia. done.
Qed.

(** Answers: a query for one name of the table, with nothing behind the question, is
    answered by one datagram that, read by the rules of the protocol, is the answer to that
    query and holds the address of the table. *)
Theorem answer_read table id1 id2 f labels q1 q2 q3 q4 a b c d :
  let query := [id1; id2; f; 0; 0; 1; 0; 0; 0; 0; 0; 0] ++ wire labels ++ [q1; q2; q3; q4] in
  Z.land (Z.shiftr f 3) 15 = 0 -> labels <> [] -> Forall label_ok labels -> Forall byte_ok [a; b; c; d] ->
  table !! text labels = Some (join [46] (dec <$> [a; b; c; d])) ->
  exists r, serve_query table query = Ret (Some r) /\ read_answer r = Some ([id1; id2], [a; b; c; d]).
Proof.
  intros query Hf Hne Hl Hb Ht. unfold serve_query. pose proof (labels_length labels) as Hlen.
  assert (DNSQuery query = Ret (text labels)) as ->.
  { unfold DNSQuery. change (py_index query 2) with (Ret (A:=Z) f). cbn [res_bind]. rewrite Hf. cbn [Z.eqb].
    apply (domain_loop_spec labels [id1; id2; f; 0; 0; 1; 0; 0; 0; 0; 0; 0] [q1; q2; q3; q4] []); [done|].
    unfold query. rewrite !length_app. cbn [length]. lia. }
  cbn [res_bind]. rewrite Ht. unfold response. rewrite bool_decide_false.
  2: { unfold text. destruct labels as [|l labels]; [done|]. cbn. by destruct l. }
  rewrite chr_ints_dotted by done. cbn [res_bind]. eexists. split; [reflexivity|].
  set (rest := wire labels ++ [q1; q2; q3; q4]) in *.
  assert (slice query 0 2 = [id1; id2]) as -> by (by apply (slice_middle [] [id1; id2] ([f; 0; 0; 1; 0; 0; 0; 0; 0; 0] ++ rest))).
  assert (slice query 4 6 = [0; 1]) as -> by (by apply (slice_middle [id1; id2; f; 0] [0; 1] ([0; 0; 0; 0; 0; 0] ++ rest))).
  assert (slice_from query 12 = rest) as ->.
  { unfold slice_from. rewrite clamp_nonneg, Z.min_l; [done| |lia]. unfold query. rewrite zlen_app.
    change (zlen [id1; id2; f; 0; 0; 1; 0; 0; 0; 0; 0; 0]) with 12. pose proof (zlen_nonneg rest). lia. }
  set (tail := [192; 12] ++ _). unfold read_answer. set (r := _ ++ _).
  assert (slice r 0 2 = [id1; id2]) as -> by (by apply (slice_middle [] [id1; id2] (drop 2 r))).
  assert (slice r 2 4 = [129; 128]) as -> by (by apply (slice_middle [id1; id2] [129; 128] (drop 4 r))).
  assert (slice r 4 8 = [0; 1; 0; 1]) as -> by (by apply (slice_middle [id1; id2; 129; 128] [0; 1; 0; 1] (drop 8 r))).
  rewrite !bool_decide_true by done. cbn [andb].
  change (drop 12 r) with (rest ++ tail). assert (length (wire labels) <= length r)%nat as Hr.
  { subst r rest. rewrite !length_app. lia. }
  subst rest. rewrite <- app_assoc. by rewrite skip_name_wire by (done || lia).
Qed.
Lemma answer_read_witness :
  exists r, serve_query {[lit "lophi-pxe." := lit "10.0.0.1"]} demo_query = Ret (Some r) /\ read_answer r = Some ([18; 52], [10; 0; 0; 1]).
Proof.
  apply (answer_read {[lit "lophi-pxe." := lit "10.0.0.1"]} 18 52 1 [lit "lophi-pxe"] 0 1 0 1 10 0 0 1); [done|done| |
    unfold byte_ok; apply (bool_decide_unpack _); by vm_compute|by vm_compute].
  apply Forall_cons. split; [|done]. split; [done|apply Nat.ltb_lt; by vm_compute].
Defined.
(** Anything behind the question, such as the record a modern resolver adds, is put between
    the question and the answer, which is then not found. *)
Lemma additional_record_garbles :
  match serve_query {[lit "lophi-pxe." := lit "10.0.0.1"]} (demo_query ++ [0; 0; 41; 16; 0; 0; 0; 0; 0; 0; 0]) with
  | Ret (Some r) => read_answer r = None
  | _ => False
  end.
Proof. by vm_compute. Qed.
(** One short datagram ends the server. *)
Lemma short_query_ends_server table q rest : (length q < 3)%nat -> dns_run table (q :: rest) = ([], Some IndexError).
Proof. intros Hq. by destruct q as [|? [|? [|? q]]]; [..|cbn in Hq; lia]. Qed.
