(* ===== verification/Malware.v ===== *)
(** Model of [analysis_scripts/malware.py], the analysis of one sample on one machine, with the capture engines
    of [lophi_automation/analysis/__init__.py] that it starts and stops, and of the process
    [LophiAnalysis.run] of [analysis_scripts.py] that runs it.  What the machine, the sensors, the database and
    the clock answer is a list that calls take from.
    Theorems: an analysis that ends has stored the results of its last attempt, made in the right order on a
    machine that was reset, and no capture of it runs; a failed one gives its machine back
    with captures still running. *)
From S2P Require Import Prelude.

(** * The laboratory *)

(** Calls out of the program *)
Inductive act :=
  | CopySample | MakeTmp | Reset | PowerOn | DiskIsUp | PowerOff | NetworkStatus | Clock | PowerReset
  | DiskConnect | DiskDisconnect | WriterStart | Generator | FtpKeys | DumpClean | CopyClean | NetStart
  | MouseOn | MouseOff | ListButtons | RunBinary | DumpInterim | Screenshot | ClickButtons | RemoveTmp | UpdateRecord | StoreFile
  | DumpDirty | CompressDirty | Shutdown | PowerStatus | RemoveDirs.
#[global] Instance act_eq_dec : EqDecision act.
Proof. solve_decision. Defined.
(** What a file holds: the work of the attempt that began after so many calls, or something undetermined, when
    an earlier process may have written to it too *)
Inductive origin := From (calls : nat) | Mixed.
(** The processes of the capture and the mouse, what the database has (a name and where the content of the file came
    from), whether the directories exist, the files in the temporary one, the calls before the present attempt, and the compressions of
    clean memory that were started and not waited for *)
Record flags := Flags {
  disk_live : bool; dcap_live : bool; net_live : bool; pcap_live : bool; wiggling : bool;
  stored : list (string * option origin); dirs : bool; tmp : gmap string origin; began : nat; compressing : nat
}.
(** The answers to come and the calls made *)
Record lab := Lab { oracle : list (res bool); acts : list act; fl : flags }.
Abbreviation M := (PM lab).

(** A call: it is answered by a truth value or raises; without an answer it never returns. *)
Definition ask (a : act) : M bool := fun s =>
  match oracle s with
  | [] => (Raise Diverges, s)
  | r :: rest => (r, Lab rest (acts s ++ [a]) (fl s))
  end.
Definition call (a : act) : M unit := let! _ := ask a in pm_ret tt.
Definition set_flags (f : flags -> flags) : M unit := pm_modify (fun s => Lab (oracle s) (acts s) (f (fl s))).
(** [try: m except: h]; waiting for ever is not an exception. *)
Definition try_except {A} (m : M A) (h : M A) : M A := fun s =>
  match m s with
  | (Raise Diverges, s) => (Raise Diverges, s)
  | (Raise _, s) => h s
  | r => r
  end.
Definition set_disk b f := Flags b (dcap_live f) (net_live f) (pcap_live f) (wiggling f) (stored f) (dirs f) (tmp f) (began f) (compressing f).
Definition set_dcap b f := Flags (disk_live f) b (net_live f) (pcap_live f) (wiggling f) (stored f) (dirs f) (tmp f) (began f) (compressing f).
Definition set_net b f := Flags (disk_live f) (dcap_live f) b (pcap_live f) (wiggling f) (stored f) (dirs f) (tmp f) (began f) (compressing f).
Definition set_pcap b f := Flags (disk_live f) (dcap_live f) (net_live f) b (wiggling f) (stored f) (dirs f) (tmp f) (began f) (compressing f).
Definition set_wiggling b f := Flags (disk_live f) (dcap_live f) (net_live f) (pcap_live f) b (stored f) (dirs f) (tmp f) (began f) (compressing f).
Definition add_stored n file f := Flags (disk_live f) (dcap_live f) (net_live f) (pcap_live f) (wiggling f) (stored f ++ [(n, tmp f !! file)]) (dirs f) (tmp f) (began f) (compressing f).
Definition set_dirs b f := Flags (disk_live f) (dcap_live f) (net_live f) (pcap_live f) (wiggling f) (stored f) b (tmp f) (began f) (compressing f).
Definition set_began n f := Flags (disk_live f) (dcap_live f) (net_live f) (pcap_live f) (wiggling f) (stored f) (dirs f) (tmp f) n (compressing f).
Definition set_compressing n f := Flags (disk_live f) (dcap_live f) (net_live f) (pcap_live f) (wiggling f) (stored f) (dirs f) (tmp f) (began f) n.
Definition set_tmp t f := Flags (disk_live f) (dcap_live f) (net_live f) (pcap_live f) (wiggling f) (stored f) (dirs f) t (began f) (compressing f).
(** The present attempt writes a file. *)
Definition written (file : string) (f : flags) : flags := set_tmp (<[file := From (began f)]> (tmp f)) f.
(** What is in one file is put into another. *)
Definition taken_from (file from : string) (f : flags) : flags :=
  set_tmp (partial_alter (fun _ => tmp f !! from) file (tmp f)) f.
Definition disk_pcap_file := "sut_disk_io.dcap".
Definition memory_file_clean := "sut_memory_clean.mfd".
Definition memory_file_clean_gz := "sut_memory_clean.tar.gz".
Definition network_pcap_file := "sut_network.pcap".
Definition memory_file_dirty := "sut_memory_dirty.mfd".
Definition memory_file_dirty_gz := "sut_memory_dirty.tar.gz".
(** Waiting for the compression of clean memory: its file holds what the dump holds, unless one of an earlier attempt
    is not known to have ended, which writes to the same file. *)
Definition join_clean (f : flags) : flags :=
  let f := set_compressing (pred (compressing f)) f in
  if (compressing f =? 0)%nat then taken_from memory_file_clean_gz memory_file_clean f
  else set_tmp (<[memory_file_clean_gz := Mixed]> (tmp f)) f.

(** * Engines *)

(** [DiskCaptureEngine.start]: a failure is printed, and there is no process. *)
Definition disk_start : M unit := try_except (call DiskConnect ;! set_flags (set_disk true)) (pm_ret tt).
(** [DiskAnalysisEngine.stop] *)
Definition disk_stop : M unit :=
  call DiskDisconnect ;!
  let! live := pm_get (fun s => disk_live (fl s)) in
  if live then set_flags (set_disk false) else pm_raise AttributeError.
(** [NetworkCaptureEngine.start] and [stop] *)
Definition net_start : M unit := call NetStart ;! set_flags (set_net true).
Definition net_stop : M unit :=
  let! live := pm_get (fun s => net_live (fl s)) in
  if live then set_flags (set_net false) else pm_raise AttributeError.
(** The writers: a process that was started can always be stopped. *)
Definition dcap_start : M unit := call WriterStart ;! set_flags (fun f => written disk_pcap_file (set_dcap true f)).
Definition dcap_stop : M unit := set_flags (set_dcap false).
Definition pcap_start : M unit := call WriterStart ;! set_flags (fun f => written network_pcap_file (set_pcap true f)).
Definition pcap_stop : M unit := set_flags (set_pcap false).
Definition mouse_wiggle (on : bool) : M unit := call (if on then MouseOn else MouseOff) ;! set_flags (set_wiggling on).
(** [append_analysis_file] *)
Definition append_analysis_file (name file : string) : M unit := call StoreFile ;! set_flags (add_stored name file).

(** * An attempt *)

Section malware.
(** The type of the machine, and whether there is FTP information *)
Context (physical ftp : bool).
Definition OS_BOOT_ATTEMPTS : nat := 2.
(** Waits for the disk sensor, turning the machine off and on *)
Fixpoint disk_up_loop (fuel : nat) : M unit :=
  match fuel with
  | O => pm_raise Diverges
  | S fuel => let! up := ask DiskIsUp in if up then pm_ret tt else call PowerOff ;! call PowerOn ;! disk_up_loop fuel
  end.
(** Waits for the network; [true] when the time is over *)
Fixpoint network_loop (fuel : nat) : M bool :=
  match fuel with
  | O => pm_raise Diverges
  | S fuel =>
      let! up := ask NetworkStatus in
      if up then pm_ret false else let! late := ask Clock in if late then pm_ret true else network_loop fuel
  end.
Definition fuel_of : M nat := pm_get (fun s => S (length (oracle s))).
(** [true] when the disk image is bad *)
Fixpoint boot_attempts (n : nat) : M bool :=
  match n with
  | O => pm_ret true
  | S n => let! fuel := fuel_of in let! os_timed_out := network_loop fuel in if os_timed_out then call PowerReset ;! boot_attempts n else pm_ret false
  end.
(** Starting the binary and clicking, the body of the [try]: an interim dump that fails raises. *)
Definition screenshot (name file : string) : M unit :=
  try_except (call Screenshot ;! set_flags (written file) ;! append_analysis_file name file) (pm_ret tt).
Definition run_binary : M unit :=
  call ListButtons ;! call RunBinary ;! mouse_wiggle true ;!
  let! ok := ask DumpInterim in
  if negb ok then pm_raise BareExn else
  screenshot "screenshot" "sut_screenshot" ;! call ClickButtons ;! call RemoveTmp ;! call UpdateRecord.
(** [machine.power_shutdown()] and the wait for four times off in a row, or for a minute *)
Fixpoint off_loop (fuel offs : nat) : M unit :=
  match fuel with
  | O => pm_raise Diverges
  | S fuel =>
      let! on := ask PowerStatus in
      let offs := if on then O else S offs in
      if (3 <? offs)%nat then pm_ret tt
      else let! late := ask Clock in if late then pm_ret tt else off_loop fuel offs
  end.
Definition stop_all : M unit := dcap_stop ;! disk_stop ;! pcap_stop ;! net_stop.
Definition results : list (string * string) :=
  [("memory_dump_clean", memory_file_clean_gz); ("memory_dump_dirty", memory_file_dirty_gz);
   ("network_capture", network_pcap_file); ("disk_capture", disk_pcap_file)].
Fixpoint store_all (names : list (string * string)) : M unit :=
  match names with [] => pm_ret tt | (n, file) :: names => append_analysis_file n file ;! store_all names end.
(** From the dirty dump on *)
Definition finish : M bool :=
  let! ok := ask DumpDirty in
  if negb ok then mouse_wiggle false ;! stop_all ;! pm_ret false else
  set_flags (written memory_file_dirty) ;!
  screenshot "screenshot_final" "sut_screenshot_final" ;!
  set_flags join_clean ;!
  call CompressDirty ;! set_flags (taken_from memory_file_dirty_gz memory_file_dirty) ;!
  call Shutdown ;!
  let! fuel := fuel_of in off_loop fuel 0 ;!
  mouse_wiggle false ;!
  stop_all ;!
  store_all results ;!
  call RemoveDirs ;! set_flags (set_dirs false) ;!
  pm_ret true.
(** One round of the loop: [true] when the analysis is done, [false] to start over *)
Definition attempt : M bool :=
  pm_modify (fun s => Lab (oracle s) (acts s) (set_began (length (acts s)) (fl s))) ;!
  let! ok := ask Reset in
  if negb ok then pm_ret false else
  call PowerOn ;!
  (if physical then let! fuel := fuel_of in disk_up_loop fuel else pm_ret tt) ;!
  let! bad_disk_image := boot_attempts OS_BOOT_ATTEMPTS in
  if bad_disk_image then pm_ret false else
  disk_start ;! dcap_start ;!
  call Generator ;!
  (if ftp then call FtpKeys else pm_ret tt) ;!
  let! ok := ask DumpClean in
  if negb ok then dcap_stop ;! disk_stop ;! pm_ret false else
  set_flags (written memory_file_clean) ;!
  call CopyClean ;!
  set_flags (fun f => set_compressing (S (compressing f)) f) ;!
  pcap_start ;! net_start ;!
  let! started := try_except (run_binary ;! pm_ret true) (mouse_wiggle false ;! stop_all ;! pm_ret false) in
  if negb started then pm_ret false else finish.
(** Each attempt makes at least one call. *)
Fixpoint attempts (fuel : nat) : M unit :=
  match fuel with
  | O => pm_raise Diverges
  | S fuel => let! done := attempt in if done then pm_ret tt else attempts fuel
  end.
Definition analysis_start : M unit :=
  call CopySample ;! call MakeTmp ;! set_flags (set_dirs true) ;!
  let! fuel := fuel_of in attempts fuel.
End malware.

(** * What holds between calls *)

Definition is_result (n : string) : Prop := n ∈ results.*1.
Definition kept (f : flags) : list (string * option origin) := filter (fun x => is_result x.1) (stored f).
(** The calls of the present attempt, which began after [a0], include [l] in order. *)
Definition since (a0 l : list act) (s : lab) : Prop := exists rest, acts s = a0 ++ Reset :: rest /\ Reset ∉ rest /\ l `sublist_of` rest.
Definition at_point (a0 l : list act) (F : flags -> Prop) (s : lab) : Prop := F (fl s) /\ since a0 l s.
Lemma since_ask a0 l s a : since a0 l s -> a <> Reset -> forall r rest, oracle s = r :: rest -> since a0 (l ++ [a]) (Lab rest (acts s ++ [a]) (fl s)).
Proof.
  intros (rest & Ha & Hr & Hl) Hne r rest' _. exists (rest ++ [a]). cbn. rewrite Ha, <- app_assoc. split; [done|]. split; [set_solver|]. by apply sublist_app.
Qed.
Lemma since_mono a0 l l' s : l `sublist_of` l' -> since a0 l' s -> since a0 l s.
Proof. intros Hl (rest & Ha & Hr & Hs). exists rest. split; [done|]. split; [done|]. by etrans. Qed.
Section points.
Context (a0 : list act).
Implicit Types (l : list act) (F G : flags -> Prop).
Abbreviation ok := (fun _ _ => True).
(** A call, whatever it answers, happens at its point. *)
Lemma ask_step l F a : a <> Reset -> triple (at_point a0 l F) (ask a) (fun _ => at_point a0 (l ++ [a]) F) (fun _ => at_point a0 l F).
Proof.
  intros Hne s [HF Hs]. unfold ask. destruct (oracle s) as [|r rest] eqn:Ho; [by split|]. pose proof (since_ask a0 l s a Hs Hne r rest Ho) as Hs'.
  destruct r; split; try done. eapply since_mono; [|exact Hs']. by apply sublist_inserts_r.
Qed.
Lemma call_step l F a : a <> Reset -> triple (at_point a0 l F) (call a) (fun _ => at_point a0 (l ++ [a]) F) (fun _ => at_point a0 l F).
Proof. intros Hne. eapply triple_bind; [by apply ask_step|]. intros b s Hs. exact Hs. Qed.
Lemma call_keep l F a : a <> Reset -> triple (at_point a0 l F) (call a) (fun _ => at_point a0 l F) (fun _ => at_point a0 l F).
Proof.
  intros Hne. eapply triple_conseq; [by apply (call_step l)|done| |done]. intros _ s [? Hs]. split; [done|]. eapply since_mono; [|exact Hs]. by apply sublist_inserts_r.
Qed.
Lemma ask_keep l F a : a <> Reset -> triple (at_point a0 l F) (ask a) (fun _ => at_point a0 l F) (fun _ => at_point a0 l F).
Proof.
  intros Hne. eapply triple_conseq; [by apply (ask_step l)|done| |done]. intros _ s [? Hs]. split; [done|]. eapply since_mono; [|exact Hs]. by apply sublist_inserts_r.
Qed.
Lemma flags_step l F G f E : (forall x, F x -> G (f x)) -> triple (at_point a0 l F) (set_flags f) (fun _ => at_point a0 l G) E.
Proof. intros H s [HF Hs]. split; [by apply H|exact Hs]. Qed.
Lemma try_step {A} l F (m h : M A) Q E' : triple (at_point a0 l F) m Q (fun _ => at_point a0 l F) -> triple (at_point a0 l F) h Q E' ->
  triple (at_point a0 l F) (try_except m h) Q (fun e s => E' e s \/ at_point a0 l F s).
Proof.
  intros Hm Hh s Hs. specialize (Hm s Hs). unfold try_except. destruct (m s) as [[a|e] s1]; [done|].
  assert (Hx : match h s1 with (Ret a, s') => Q a s' | (Raise e0, s') => E' e0 s' end) by (by apply Hh).
  destruct e; try (destruct (h s1) as [[]]; [done|by left]). by right.
Qed.
End points.
Section attempt.
Context (a0 : list act) (physical ftp : bool).
Implicit Types (l : list act) (F G : flags -> Prop).
Abbreviation any := (fun _ _ => True).
(** Sequencing, when only a normal return matters *)
Lemma seq {A B} (P : lab -> Prop) (m : M A) (k : A -> M B) R Q E : triple P m R E -> (forall a, triple (R a) (k a) Q any) -> triple P (pm_bind m k) Q any.
Proof. intros Hm Hk. eapply triple_bind; [|exact Hk]. eapply triple_conseq; [exact Hm|done..]. Qed.
Lemma done_at {A} (P : lab -> Prop) (a : A) (Q : A -> lab -> Prop) E : (forall s, P s -> Q a s) -> triple P (pm_ret a) Q E.
Proof. intros H s Hs. by apply H. Qed.
Lemma keep_bind {A B} (P : lab -> Prop) (m : M A) (k : A -> M B) :
  triple P m (fun _ => P) (fun _ => P) -> (forall a, triple P (k a) (fun _ => P) (fun _ => P)) -> triple P (pm_bind m k) (fun _ => P) (fun _ => P).
Proof. apply preserves_bind. Qed.
Lemma fuel_keep (P : lab -> Prop) : triple P fuel_of (fun _ => P) (fun _ => P).
Proof. by intros s Hs. Qed.
Lemma disk_up_keep l F fuel : preserves (at_point a0 l F) (disk_up_loop fuel).
Proof.
  induction fuel as [|fuel IH]; cbn [disk_up_loop]; [apply preserves_raise|]. apply keep_bind; [by apply ask_keep|]. intros [|]; [apply preserves_ret|].
  apply keep_bind; [by apply call_keep|]. intros _. apply keep_bind; [by apply call_keep|]. intros _. exact IH.
Qed.
Lemma network_keep l F fuel : preserves (at_point a0 l F) (network_loop fuel).
Proof.
  induction fuel as [|fuel IH]; cbn [network_loop]; [apply preserves_raise|]. apply keep_bind; [by apply ask_keep|]. intros [|]; [apply preserves_ret|].
  apply keep_bind; [by apply ask_keep|]. intros [|]; [apply preserves_ret|exact IH].
Qed.
Lemma boot_keep l F n : preserves (at_point a0 l F) (boot_attempts n).
Proof.
  induction n as [|n IH]; cbn [boot_attempts]; [apply preserves_ret|]. apply keep_bind; [apply fuel_keep|]. intros fuel. apply keep_bind; [apply network_keep|].
  intros [|]; [|apply preserves_ret]. apply keep_bind; [by apply call_keep|]. intros _. exact IH.
Qed.
Lemma off_keep l F fuel : forall offs, preserves (at_point a0 l F) (off_loop fuel offs).
Proof.
  induction fuel as [|fuel IH]; intros offs; cbn [off_loop]; [apply preserves_raise|]. apply keep_bind; [by apply ask_keep|]. intros on.
  destruct (_ <? _)%nat; [apply preserves_ret|]. apply keep_bind; [by apply ask_keep|]. intros [|]; [apply preserves_ret|apply IH].
Qed.
(** Nothing runs *)
Definition still (f : flags) : Prop := disk_live f = false /\ dcap_live f = false /\ net_live f = false /\ pcap_live f = false /\ wiggling f = false.
(** Nothing runs and no result is stored *)
Definition idle (f : flags) : Prop := still f /\ kept f = [].
(** These files are the work of the present attempt. *)
Definition made (names : list string) (f : flags) : Prop :=
  began f = length a0 /\ Forall (fun n => tmp f !! n = Some (From (length a0))) names.
Definition ready (f : flags) : Prop := idle f /\ made [] f.
Definition disk_only names (f : flags) : Prop := net_live f = false /\ pcap_live f = false /\ wiggling f = false /\ kept f = [] /\ made names f.
Definition busy names (f : flags) : Prop := kept f = [] /\ made names f.
(** The compressed clean memory is that of the present attempt, if no other compression is about. *)
Definition clean_origin (f : flags) : origin := if (compressing f =? 0)%nat then From (length a0) else Mixed.
Definition packed names (f : flags) : Prop := busy names f /\ tmp f !! memory_file_clean_gz = Some (clean_origin f).
Definition stored_results (f : flags) : list (string * option origin) :=
  [("memory_dump_clean", Some (clean_origin f)); ("memory_dump_dirty", Some (From (length a0)));
   ("network_capture", Some (From (length a0))); ("disk_capture", Some (From (length a0)))].
Definition complete (f : flags) : Prop := still f /\ kept f = stored_results f.
(** Indifferent to what runs *)
Definition unaware (X : flags -> Prop) : Prop :=
  forall f b, X f -> X (set_disk b f) /\ X (set_dcap b f) /\ X (set_net b f) /\ X (set_pcap b f) /\ X (set_wiggling b f).
Lemma kept_add n file f : kept (add_stored n file f) = kept f ++ (if decide (is_result n) then [(n, tmp f !! file)] else []).
Proof.
  unfold kept. cbn [stored add_stored]. rewrite filter_app, filter_cons, filter_nil.
  destruct (decide (is_result n)); [by rewrite decide_True|by rewrite decide_False].
Qed.
Lemma made_written names n f : made names f -> made (n :: names) (written n f).
Proof.
  intros [Hb Hn]. split; [done|]. cbn. rewrite Hb. constructor; [apply lookup_insert_eq|]. eapply Forall_impl; [exact Hn|]. intros m Hm. cbn.
  destruct (decide (n = m)) as [->|]; [apply lookup_insert_eq|by rewrite lookup_insert_ne].
Qed.
Lemma made_less names n f : made (n :: names) f -> made names f.
Proof. intros [Hb [_ Hn]%Forall_cons]. by split. Qed.
Lemma screenshot_keep l names name file : ~ is_result name -> preserves (at_point a0 l (busy names)) (screenshot name file).
Proof.
  intros Hn. unfold screenshot, append_analysis_file.
  eapply triple_conseq; [apply (try_step a0 l (busy names) _ (pm_ret tt) (fun _ => at_point a0 l (busy names)) (fun _ => at_point a0 l (busy names)))|done|done|].
  - apply keep_bind; [by apply call_keep|]. intros _. apply keep_bind; [apply flags_step; intros f [Hk Hm]; split; [done|by eapply made_less, made_written]|].
    intros _. apply keep_bind; [by apply call_keep|]. intros _. apply flags_step. intros f [Hk Hm]. split; [by rewrite kept_add, Hk, decide_False|done].
  - apply preserves_ret.
  - intros e s [?|?]; done.
Qed.
Lemma stop_all_ends l X : unaware X -> triple (at_point a0 l (fun f => X f /\ wiggling f = false)) stop_all (fun _ => at_point a0 l (fun f => X f /\ still f)) any.
Proof.
  intros HX. unfold stop_all, dcap_stop, disk_stop, pcap_stop, net_stop.
  eapply seq; [apply (flags_step a0 l _ (fun f => X f /\ wiggling f = false /\ dcap_live f = false) _ any)|].
  { intros f [Hf Hw]. split_and!; [by apply HX|done..]. }
  intros []. eapply seq with (R := fun _ => at_point a0 l (fun f => X f /\ wiggling f = false /\ dcap_live f = false /\ disk_live f = false)) (E := any).
  { eapply seq; [by apply call_keep|]. intros [] s Hs. unfold pm_bind, pm_get. destruct Hs as [(Hf & Hw & Hd) Hs]. destruct (disk_live (fl s)); [|done].
    split; [split_and!; [by apply HX|done..]|exact Hs]. }
  intros []. eapply seq; [apply (flags_step a0 l _ (fun f => X f /\ wiggling f = false /\ dcap_live f = false /\ disk_live f = false /\ pcap_live f = false) _ any)|].
  { intros f (Hf & ? & ? & ?). split_and!; [by apply HX|done..]. }
  intros [] s Hs. unfold pm_bind, pm_get. destruct Hs as [(Hf & ? & ? & ? & ?) Hs]. destruct (net_live (fl s)); [|done].
  split; [split; [by apply HX|by split_and!]|exact Hs].
Qed.
Lemma mouse_off l X : unaware X -> triple (at_point a0 l X) (mouse_wiggle false) (fun _ => at_point a0 l (fun f => X f /\ wiggling f = false)) any.
Proof. intros HX. unfold mouse_wiggle. eapply seq; [by apply call_keep|]. intros []. apply flags_step. intros f Hf. split; [by apply HX|done]. Qed.
Lemma busy_unaware names : unaware (busy names).
Proof. intros f b Hf. by split_and!. Qed.
Lemma packed_unaware names : unaware (packed names).
Proof. intros f b Hf. by split_and!. Qed.
(** Stopping after a failure *)
Lemma abandon_step l names (Q : bool -> lab -> Prop) : (forall s, at_point a0 l idle s -> Q false s) ->
  triple (at_point a0 l (busy names)) (mouse_wiggle false ;! stop_all ;! pm_ret false) Q any.
Proof.
  intros HQ. eapply seq; [apply mouse_off, busy_unaware|]. intros []. eapply seq; [apply stop_all_ends, busy_unaware|]. intros [].
  apply done_at. intros s [[[Hk _] Hst] Hs]. apply HQ. by split.
Qed.
(** The order of the calls of an attempt that ends the analysis *)
Definition first_part : list act := [PowerOn; DumpClean].
Definition second_part : list act := first_part ++ [RunBinary; DumpInterim; ClickButtons].
Definition whole_order : list act := second_part ++ [DumpDirty; Shutdown; StoreFile; StoreFile; StoreFile; StoreFile].
(** What an attempt leaves: all done, or nothing running *)
Definition outcome (done : bool) (s : lab) : Prop := if done then at_point a0 whole_order complete s /\ dirs (fl s) = false else idle (fl s).
Lemma at_weaken l l' F G s : at_point a0 l F s -> l' `sublist_of` l -> (forall f, F f -> G f) -> at_point a0 l' G s.
Proof. intros [HF Hs] Hl HG. split; [by apply HG|by eapply since_mono]. Qed.
(** The files that are stored, once nothing runs *)
Definition all_made (f : flags) : Prop :=
  still f /\ made [memory_file_dirty_gz; network_pcap_file; disk_pcap_file] f /\ tmp f !! memory_file_clean_gz = Some (clean_origin f).
(** These results have been stored; the mark is for the clean memory. *)
Definition storing (done : list (string * bool)) (f : flags) : Prop :=
  all_made f /\ kept f = (fun x : string * bool => (x.1, Some (if x.2 then clean_origin f else From (length a0)))) <$> done.
Lemma store_step l done n file (clean : bool) : is_result n ->
  (forall f, all_made f -> tmp f !! file = Some (if clean then clean_origin f else From (length a0))) ->
  triple (at_point a0 l (storing done)) (append_analysis_file n file) (fun _ => at_point a0 (l ++ [StoreFile]) (storing (done ++ [(n, clean)]))) any.
Proof.
  intros Hn Ho. unfold append_analysis_file. eapply seq; [by apply call_step|]. intros []. apply flags_step. intros f [Hf Hk].
  split; [exact Hf|]. by rewrite kept_add, Hk, decide_True, (Ho f Hf), fmap_app.
Qed.
Lemma store_all_step l : triple (at_point a0 l (storing [])) (store_all results)
  (fun _ => at_point a0 (l ++ [StoreFile; StoreFile; StoreFile; StoreFile]) complete) any.
Proof.
  assert (forall file, file ∈ [memory_file_dirty_gz; network_pcap_file; disk_pcap_file] -> forall f, all_made f -> tmp f !! file = Some (From (length a0))) as Hm.
  { intros file Hin f (_ & [_ Hf] & _). rewrite Forall_forall in Hf. by apply Hf. }
  cbn [store_all results].
  eapply seq; [apply (store_step l [] _ _ true); [by apply (bool_decide_unpack _)|by intros f (_ & _ & ?)]|]. intros [].
  do 3 (eapply seq; [eapply (store_step _ _ _ _ false); [by apply (bool_decide_unpack _)|apply Hm; set_solver]|]; intros []).
  apply done_at. intros s [[(Hst & _ & _) Hk] Hs]. rewrite <- !app_assoc in Hs. by split.
Qed.
Lemma join_packed names f : busy (memory_file_clean :: names) f -> memory_file_clean_gz ∉ names -> packed names (join_clean f).
Proof.
  intros [Hk [Hb [Hc Hn]%Forall_cons]] Hne. unfold join_clean. cbn [compressing set_compressing].
  assert (forall t, (forall n, n ∈ names -> t !! n = tmp f !! n) -> made names (set_tmp t (set_compressing (pred (compressing f)) f))) as Hmade.
  { intros t Ht. split; [done|]. apply Forall_forall. intros n Hin. cbn. rewrite Ht by done. rewrite Forall_forall in Hn. by apply Hn. }
  destruct (pred (compressing f) =? 0)%nat eqn:E.
  - split; [split; [done|]|].
    + apply Hmade. intros n Hin. cbn. rewrite lookup_partial_alter_ne; [done|]. intros E'. by rewrite E' in Hne.
    + cbn. rewrite lookup_partial_alter_eq. unfold clean_origin. cbn. by rewrite E.
  - split; [split; [done|]|].
    + apply Hmade. intros n Hin. cbn. rewrite lookup_insert_ne; [done|]. intros E'. by rewrite E' in Hne.
    + cbn. rewrite lookup_insert_eq. unfold clean_origin. cbn. by rewrite E.
Qed.
Lemma compress_packed names f : packed (memory_file_dirty :: names) f -> packed (memory_file_dirty_gz :: names) (taken_from memory_file_dirty_gz memory_file_dirty f).
Proof.
  intros [[Hk [Hb [Hd Hn]%Forall_cons]] Hc]. split; [split; [done|split; [done|]]|].
  - constructor; [cbn; by rewrite lookup_partial_alter_eq|]. eapply Forall_impl; [exact Hn|]. intros n Ht. cbn.
    destruct (decide (memory_file_dirty_gz = n)) as [<-|]; [by rewrite lookup_partial_alter_eq|by rewrite lookup_partial_alter_ne].
  - cbn. by rewrite lookup_partial_alter_ne.
Qed.
(** The files of an attempt before the dirty dump *)
Definition captured : list string := [memory_file_clean; network_pcap_file; disk_pcap_file].
Lemma finish_outcome : triple (at_point a0 second_part (busy captured)) finish outcome any.
Proof.
  unfold finish. eapply seq; [by apply ask_step|]. intros [|]; cbn [negb].
  2: { eapply abandon_step. intros s [? _]. done. }
  eapply seq; [apply (flags_step a0 _ _ (busy (memory_file_clean :: memory_file_dirty :: [network_pcap_file; disk_pcap_file])) _ any)|].
  { intros f [Hk Hm]. split; [done|]. apply (made_written _ memory_file_dirty) in Hm as [Hb Hm]. split; [done|].
    rewrite Forall_forall in *. intros n Hin. apply Hm. set_solver. }
  intros []. eapply seq; [apply screenshot_keep; by apply (bool_decide_unpack _)|]. intros [].
  eapply seq; [apply (flags_step a0 _ _ (packed [memory_file_dirty; network_pcap_file; disk_pcap_file]) _ any)|].
  { intros f Hf. apply join_packed; [done|]. by apply (bool_decide_unpack _). }
  intros []. eapply seq; [by apply call_keep|]. intros []. eapply seq; [apply (flags_step a0 _ _ (packed [memory_file_dirty_gz; network_pcap_file; disk_pcap_file]) _ any)|].
  { intros f. apply compress_packed. }
  intros []. eapply seq; [by apply call_step|]. intros [].
  eapply seq; [apply fuel_keep|]. intros fuel. eapply seq; [apply off_keep|]. intros []. eapply seq; [apply mouse_off, packed_unaware|]. intros [].
  eapply seq; [apply stop_all_ends, packed_unaware|]. intros [].
  eapply seq with (R := fun _ => at_point a0 whole_order complete) (E := any).
  { eapply triple_conseq; [apply (store_all_step ((second_part ++ [DumpDirty]) ++ [Shutdown]))| |by intros []|done]. intros s [[[[Hk Hm] Hc] Hst] Hs]. split; [|exact Hs]. by unfold storing, all_made. }
  intros []. eapply seq; [by apply call_keep|]. intros [].
  eapply seq with (R := fun _ s => at_point a0 whole_order complete s /\ dirs (fl s) = false) (E := any); [by intros s Hs|]. intros []. by apply done_at.
Qed.
(** Steps of the body of the [try]: at an exception the calls before it are still known. *)
Abbreviation within l := (at_point a0 (first_part ++ l) (busy captured)).
Abbreviation failed := (fun _ : pyexc => at_point a0 first_part (busy captured)).
Lemma within_failed l s : within l s -> at_point a0 first_part (busy captured) s.
Proof. intros Hs. eapply at_weaken; [exact Hs|by apply sublist_inserts_r|done]. Qed.
Lemma keep_within {A B} l (m : M A) (k : A -> M B) Q : preserves (within l) m -> (forall a, triple (within l) (k a) Q failed) -> triple (within l) (pm_bind m k) Q failed.
Proof. intros Hm Hk. apply (triple_bind _ m k (fun _ => within l)); [|exact Hk]. eapply triple_conseq; [exact Hm|done|done|]. intros e s. apply within_failed. Qed.
Lemma ask_within {B} l a (k : bool -> M B) Q : a <> Reset -> (forall b, triple (within (l ++ [a])) (k b) Q failed) -> triple (within l) (pm_bind (ask a) k) Q failed.
Proof.
  intros Ha Hk. eapply (triple_bind _ _ _ (fun _ => within (l ++ [a]))); [|exact Hk]. rewrite app_assoc. eapply triple_conseq; [by apply (ask_step a0 (first_part ++ l))|done|done|].
  intros e s. apply within_failed.
Qed.
Lemma call_within {B} l a (k : unit -> M B) Q : a <> Reset -> (forall b, triple (within (l ++ [a])) (k b) Q failed) -> triple (within l) (pm_bind (call a) k) Q failed.
Proof.
  intros Ha Hk. eapply (triple_bind _ _ _ (fun _ => within (l ++ [a]))); [|exact Hk]. rewrite app_assoc. eapply triple_conseq; [by apply (call_step a0 (first_part ++ l))|done|done|].
  intros e s. apply within_failed.
Qed.
Lemma run_binary_step : triple (at_point a0 first_part (busy captured)) run_binary (fun _ => at_point a0 second_part (busy captured)) failed.
Proof.
  change (at_point a0 first_part (busy captured)) with (within []) at 1. unfold run_binary. apply keep_within; [by apply call_keep|]. intros [].
  apply call_within; [done|]. intros []. apply keep_within; [unfold mouse_wiggle; apply keep_bind; [by apply call_keep|]; intros []; by apply flags_step|]. intros [].
  apply ask_within; [done|]. intros [|]; cbn [negb]; [|intros s Hs; by eapply within_failed].
  apply keep_within; [apply screenshot_keep; by apply (bool_decide_unpack _)|]. intros []. apply call_within; [done|]. intros [].
  apply keep_within; [by apply call_keep|]. intros []. eapply triple_conseq; [by apply call_keep|done|done|]. intros e s. apply within_failed.
Qed.
Lemma reset_step F : triple (fun s => acts s = a0 /\ F (fl s)) (ask Reset) (fun _ => at_point a0 [] F) any.
Proof.
  intros s [Ha HF]. unfold ask. destruct (oracle s) as [|r rest]; [done|]. destruct r; [|done]. split; [done|]. exists []. cbn. rewrite Ha. split; [done|]. split; [set_solver|done].
Qed.
Lemma captures_step l : triple (at_point a0 l ready) disk_start (fun _ => at_point a0 l (disk_only [])) any.
Proof.
  unfold disk_start. eapply triple_conseq; [apply (try_step a0 l (disk_only []) _ (pm_ret tt) (fun _ => at_point a0 l (disk_only [])) any)| |done|done].
  - apply keep_bind; [by apply call_keep|]. intros []. by apply flags_step.
  - by apply done_at.
  - intros s [[[Hst Hk] Hm] Hs]. split; [|done]. destruct Hst as (? & ? & ? & ? & ?). by split_and!.
Qed.
Lemma writers_step l : triple (at_point a0 l (disk_only [])) dcap_start (fun _ => at_point a0 l (disk_only [disk_pcap_file])) any.
Proof.
  unfold dcap_start. eapply seq; [by apply call_keep|]. intros []. apply flags_step. intros f (? & ? & ? & ? & Hm).
  split_and!; [done..|]. by apply made_written.
Qed.
Lemma attempt_outcome : triple (fun s => acts s = a0 /\ idle (fl s)) (attempt physical ftp) outcome any.
Proof.
  assert (Hidle : forall l s, at_point a0 l ready s -> outcome false s) by (by intros l s [[? _] _]).
  unfold attempt. eapply seq with (R := fun _ s => acts s = a0 /\ ready (fl s)) (E := any).
  { intros s [Ha Hi]. split; [done|]. split; [done|]. split; [by rewrite <- Ha|done]. }
  intros []. eapply seq; [apply reset_step|]. intros [|]; cbn [negb]; [|apply done_at; apply Hidle].
  eapply seq; [by apply call_step|]. intros [].
  eapply seq with (E := any) (R := fun _ => at_point a0 [PowerOn] ready).
  { destruct physical; [|by apply done_at]. eapply seq; [apply fuel_keep|]. intros fuel. eapply triple_conseq; [apply (disk_up_keep [PowerOn])|done..]. }
  intros []. eapply seq; [apply boot_keep|]. intros [|]; [apply done_at; apply Hidle|].
  eapply seq; [apply captures_step|]. intros []. eapply seq; [apply writers_step|]. intros [].
  eapply seq; [by apply call_keep|]. intros [].
  eapply seq with (E := any) (R := fun _ => at_point a0 [PowerOn] (disk_only [disk_pcap_file])).
  { destruct ftp; [|by apply done_at]. eapply triple_conseq; [by apply (call_keep a0 [PowerOn])|done..]. }
  intros []. eapply seq; [by apply ask_step|]. intros [|]; cbn [negb].
  - eapply seq; [apply (flags_step a0 _ _ (busy [memory_file_clean; disk_pcap_file]) _ any)|].
    { intros f (? & ? & ? & ? & Hm). split; [done|]. by apply made_written. }
    intros []. eapply seq; [by apply call_keep|]. intros []. eapply seq; [apply (flags_step a0 _ _ (busy [memory_file_clean; disk_pcap_file]) _ any); by intros f Hf|].
    intros []. eapply seq with (E := any) (R := fun _ => at_point a0 first_part (busy captured)).
    { unfold pcap_start. eapply seq; [by apply call_keep|]. intros []. apply flags_step. intros f [Hk Hm]. split; [done|].
      apply (made_written _ network_pcap_file) in Hm as [Hb Hm]. split; [done|]. rewrite Forall_forall in *. intros n Hin. apply Hm. unfold captured in Hin. set_solver. }
    intros []. eapply seq with (E := any) (R := fun _ => at_point a0 first_part (busy captured)); [unfold net_start; eapply seq; [by apply call_keep|]; intros []; by apply flags_step|].
    intros []. eapply seq with (E := any) (R := fun (b : bool) s => if b then at_point a0 second_part (busy captured) s else idle (fl s)).
    + eapply triple_conseq; [apply (try_step a0 first_part (busy captured) _ _ (fun (b : bool) s => if b then at_point a0 second_part (busy captured) s else idle (fl s)) any)|done|done|done].
      * eapply triple_bind; [apply run_binary_step|]. intros []. by apply done_at.
      * eapply abandon_step. by intros s [? _].
    + intros [|]; cbn [negb]; [apply finish_outcome|]. by apply done_at.
  - unfold dcap_stop. eapply seq; [apply (flags_step a0 _ _ (fun f => disk_only [disk_pcap_file] f /\ dcap_live f = false) _ any); done|]. intros [].
    eapply seq with (E := any) (R := fun _ s => idle (fl s)); [|intros []; by apply done_at].
    unfold disk_stop. eapply seq; [by apply call_keep|]. intros [] s [[(? & ? & ? & ? & ?) ?] Hs]. unfold pm_bind, pm_get. destruct (disk_live (fl s)); [|done]. cbn. unfold idle, still. done.
Qed.
End attempt.

(** Answers with which an attempt on a physical machine succeeds; the machine is off after the shutdown. *)
Definition good : list (res bool) := replicate 26 (Ret true) ++ replicate 7 (Ret false) ++ replicate 7 (Ret true).
Definition new_flags : flags := Flags false false false false false [] false ∅ 0 0.
Definition new_lab (o : list (res bool)) : lab := Lab o [] new_flags.
(** However often resetting fails, the analysis ends once an attempt succeeds. *)
Lemma analysis_ends n : (analysis_start true true (new_lab ([Ret true; Ret true] ++ replicate n (Ret false) ++ good))).1 = Ret tt.
Proof.
  unfold analysis_start, call, ask, pm_bind, set_flags, pm_modify, fuel_of, pm_get, pm_ret. cbn [oracle app new_lab acts fl].
  set (fuel := S _). assert (n < fuel)%nat as Hf by (subst fuel; rewrite length_app, length_replicate; lia). clearbody fuel.
  change (set_dirs true new_flags) with (set_began 0 (set_dirs true new_flags)). generalize 0%nat. generalize [CopySample; MakeTmp].
  revert fuel Hf. induction n as [|n IH]; intros [|fuel] Hf a b; try lia.
  - by vm_compute.
  - cbn [attempts]. unfold pm_bind at 1. unfold attempt, ask, pm_bind, pm_ret, pm_modify. cbn [oracle replicate app negb acts fl]. apply (IH fuel ltac:(lia)).
Qed.

(** * The process of an analysis *)

(** [G.JOB_RUNNING] and the like *)
Inductive job := JOB_QUEUED | JOB_RUNNING | JOB_DONE | JOB_FAILED.
#[global] Instance job_eq_dec : EqDecision job.
Proof. solve_decision. Defined.
(** The laboratory, the record of the analysis in the database, the shared lists, and the machine with the queue it came from *)
Record proc := Proc { lab_of : lab; status : job; completed : bool; queued : list Z; running : list Z; ALLOCATED : Z; machine_queue : list bytes }.
Definition set_lab x p := Proc x (status p) (completed p) (queued p) (running p) (ALLOCATED p) (machine_queue p).
Definition set_status x p := Proc (lab_of p) x (completed p) (queued p) (running p) (ALLOCATED p) (machine_queue p).
Definition set_completed p := Proc (lab_of p) (status p) true (queued p) (running p) (ALLOCATED p) (machine_queue p).
Definition set_lists q r p := Proc (lab_of p) (status p) (completed p) q r (ALLOCATED p) (machine_queue p).
Definition set_allocated x p := Proc (lab_of p) (status p) (completed p) (queued p) (running p) x (machine_queue p).
Definition give_back name p := Proc (lab_of p) (status p) (completed p) (queued p) (running p) (ALLOCATED p) (machine_queue p ++ [name]).
(** [l.remove(x)] *)
Definition py_remove (x : Z) (l : list Z) : res (list Z) :=
  match list_find (fun y => y = x) l with Some (i, _) => Ret (take i l ++ drop (S i) l) | None => Raise ValueError end.
(** What the command asks for: the record in the database, and the profile *)
Record acommand := ACommand { db_analysis_id : bool; volatility_profile : option bytes }.
Section run.
Context (command : option acommand) (VOLATILITY_PROFILE : option bytes) (set_volatility_profile : bytes -> res bool).
(** Whether the database works, the script, the numbers of the analysis, and the machine: its name in the list of machines *)
Context (db_works : bool) (script : PM lab unit) (id : Z) (lophi_analysis_id : option Z) (machine_list : gset bytes) (given : bool) (machine_name : option bytes).
Abbreviation P := (PM proc).
(** An update of the database that fails is logged. *)
Definition db_update (f : proc -> proc) : P unit :=
  match command with
  | Some c => if db_analysis_id c && db_works then pm_modify f else pm_ret tt
  | None => pm_ret tt
  end.
Definition on_lab {A} (m : PM lab A) : P A := fun p => let '(r, l) := m (lab_of p) in (r, set_lab l p).
(** The profile: a failure to set it is only logged; without any the variable is not defined. *)
Definition set_profile : P unit :=
  match command with
  | None => pm_ret tt
  | Some c =>
      match volatility_profile c, VOLATILITY_PROFILE with
      | Some x, _ => let! _ := pm_lift (set_volatility_profile x) in pm_ret tt
      | None, Some x => let! _ := pm_lift (set_volatility_profile x) in pm_ret tt
      | None, None => pm_raise NameError
      end
  end.
(** The handler calls [analysis_stop] without its argument and swallows the exception: nothing is stopped. *)
Definition run_script : P unit := fun p =>
  match (set_profile ;! on_lab script ;! db_update (set_status JOB_DONE)) p with
  | (Raise Diverges, p) => (Raise Diverges, p)
  | (Raise _, p) => db_update (set_status JOB_FAILED) p
  | r => r
  end.
Definition run : P bool :=
  let! known := (match machine_name with
                 | Some name => if bool_decide (name ∈ machine_list) then pm_ret true else pm_raise KeyError
                 | None => pm_ret given
                 end) in
  if negb known then pm_ret false else
  pm_modify (set_allocated id) ;!
  (match lophi_analysis_id with
   | Some i =>
       let! q := pm_get queued in
       let! q := pm_lift (py_remove i q) in
       pm_modify (fun p => set_lists q (running p ++ [i]) p)
   | None => pm_ret tt
   end) ;!
  db_update (set_status JOB_RUNNING) ;!
  run_script ;!
  db_update set_completed ;!
  pm_modify (set_allocated (-1)) ;!
  (match lophi_analysis_id with
   | Some i =>
       let! r := pm_get running in
       let! r := pm_lift (py_remove i r) in
       pm_modify (fun p => set_lists (queued p) r p)
   | None => pm_ret tt
   end) ;!
  (match machine_name with Some name => pm_modify (give_back name) | None => pm_ret tt end) ;!
  pm_ret true.
End run.

Lemma remove_last x l : x ∉ l -> py_remove x (l ++ [x]) = Ret l.
Proof.
  intros Hx. unfold py_remove. assert (Hf : list_find (fun y => y = x) (l ++ [x]) = Some (length l, x)).
  { apply list_find_Some. split; [by rewrite lookup_app_r, Nat.sub_diag by lia|]. split; [done|]. intros j y Hj Hlt -> . rewrite lookup_app_l in Hj by done. apply Hx. by eapply list_elem_of_lookup_2. }
  rewrite Hf, take_app_length, drop_ge by (rewrite length_app; cbn; lia). by rewrite app_nil_r.
Qed.
Lemma remove_there x l : x ∈ l -> exists l', py_remove x l = Ret l' /\ l ≡ₚ x :: l'.
Proof.
  intros Hx. unfold py_remove. destruct (list_find (fun y => y = x) l) as [[i y]|] eqn:Hf.
  - apply list_find_Some in Hf as (Hi & -> & _). eexists. split; [done|]. rewrite <- (take_drop_middle l i x Hi) at 1. by rewrite Permutation_middle.
  - apply list_find_None in Hf. rewrite Forall_forall in Hf. by destruct (Hf x Hx).
Qed.
Section release.
Context (profile : bytes) (set_volatility_profile : bytes -> res bool) (script : PM lab unit) (id i : Z) (machine_list : gset bytes) (name : bytes) (p : proc).
Abbreviation the_run := (run (Some (ACommand true (Some profile))) (Some profile) set_volatility_profile true script id (Some i) machine_list false (Some name) p).
(** The process of an analysis releases what it holds, whether the script returns or raises: the machine is free again and back in its
    queue, the analysis is in neither list, and its record says that it is completed and whether it is done or failed. *)
Theorem analysis_released : name ∈ machine_list -> i ∈ queued p -> i ∉ running p -> set_volatility_profile profile <> Raise Diverges -> (script (lab_of p)).1 <> Raise Diverges ->
  exists p', the_run = (Ret true, p') /\ ALLOCATED p' = -1 /\ machine_queue p' = machine_queue p ++ [name] /\ queued p ≡ₚ i :: queued p' /\ running p' = running p /\
    completed p' = true /\ status p' = match set_volatility_profile profile, (script (lab_of p)).1 with Ret _, Ret _ => JOB_DONE | _, _ => JOB_FAILED end.
Proof.
  intros Hname Hq Hr Hprof Hscript. destruct (remove_there i (queued p) Hq) as (q & Hrem & Hperm).
  unfold run. unfold pm_bind at 1. rewrite bool_decide_true by done. unfold pm_ret at 1. cbn [negb]. unfold pm_bind at 1, pm_modify at 1. cbn iota.
  unfold pm_bind at 1. unfold pm_bind at 1, pm_get at 1. cbn [queued set_allocated]. unfold pm_bind at 1, pm_lift at 1. rewrite Hrem. unfold pm_modify at 1.
  unfold pm_bind at 1, db_update at 1. cbn [andb db_analysis_id]. unfold pm_modify at 1. unfold pm_bind at 1.
  assert (Hbody : forall p0, lab_of p0 = lab_of p -> exists l, run_script (Some (ACommand true (Some profile))) (Some profile) set_volatility_profile true script p0 =
    (Ret tt, set_status (match set_volatility_profile profile, (script (lab_of p)).1 with Ret _, Ret _ => JOB_DONE | _, _ => JOB_FAILED end) (set_lab l p0))).
  { intros p0 Hl. unfold run_script, set_profile, pm_bind, pm_lift, on_lab, db_update, pm_modify, pm_ret. cbn [volatility_profile db_analysis_id andb].
    destruct (set_volatility_profile profile) as [b|e]; [|exists (lab_of p0); by destruct e, p0]. rewrite Hl. destruct (script (lab_of p)) as [[u|e] l]; exists l; [done|by destruct e]. }
  edestruct Hbody as [l Hb]; [|rewrite Hb]; [done|]. unfold db_update, pm_bind, pm_modify, pm_get, pm_lift, pm_ret. cbn.
  rewrite remove_last by done. eexists. split; [reflexivity|]. cbn. done.
Qed.
End release.
(** The answers of a session whose key presses fail after the disk capture was started *)
Definition keys_fail : list (res bool) := replicate 9 (Ret true) ++ [Raise SocketError].
Definition new_proc (o : list (res bool)) : proc := Proc (new_lab o) JOB_QUEUED false [7] [] (-1) [].
Lemma analysis_released_witness : exists p', run (Some (ACommand true (Some [1]))) (Some [1]) (fun _ => Ret true) true (analysis_start true true) 0 (Some 7) {[ [109] ]} false (Some [109]) (new_proc keys_fail) = (Ret true, p') /\
  machine_queue p' = [[109]] /\ status p' = JOB_FAILED.
Proof.
  destruct (analysis_released [1] (fun _ => Ret true) (analysis_start true true) 0 7 {[ [109] ]} [109] (new_proc keys_fail)) as (p' & Hp & _ & Hq & _ & _ & _ & Hs);
    [set_solver|by left|apply not_elem_of_nil|done|by vm_compute|].
  exists p'. split; [exact Hp|]. split; [exact Hq|]. rewrite Hs. by vm_compute.
Defined.
(** An analysis that fails in the middle is released with its machine while the capture of the disk still runs. *)
Lemma failed_analysis_captures_on : exists p', run (Some (ACommand true (Some [1]))) (Some [1]) (fun _ => Ret true) true (analysis_start true true) 0 (Some 7) {[ [109] ]} false (Some [109]) (new_proc keys_fail) = (Ret true, p') /\
  machine_queue p' = [[109]] /\ disk_live (fl (lab_of p')) = true /\ dcap_live (fl (lab_of p')) = true.
Proof. eexists. split; [vm_compute; reflexivity|]. done. Qed.
(** A profile that could not be set does not keep the analysis from being done. *)
Lemma profile_failure_ignored : exists p', run (Some (ACommand true (Some [1]))) (Some [1]) (fun _ => Ret false) true (analysis_start true true) 0 (Some 7) {[ [109] ]} false (Some [109]) (new_proc ([Ret true; Ret true] ++ good)) = (Ret true, p') /\
  status p' = JOB_DONE.
Proof. eexists. split; [vm_compute; reflexivity|]. done. Qed.
(** A disk capture that could not be started is noticed only when it is stopped: all results are lost. *)
Lemma capture_failure_fatal : (analysis_start true true (new_lab (replicate 6 (Ret true) ++ [Raise SocketError] ++ replicate 21 (Ret true) ++ replicate 7 (Ret false) ++ replicate 20 (Ret true)))).1 = Raise AttributeError.
Proof. by vm_compute. Qed.
(** Starting over leaves the compression of clean memory of the attempt running. *)
Lemma compression_left_running : let s := (analysis_start true true (new_lab (replicate 14 (Ret true) ++ [Raise IOError; Ret true; Ret true]))).2 in
  compressing (fl s) = 1%nat /\ still (fl s).
Proof. vm_compute. by repeat split. Qed.
