(* ===== verification/Scheduler.v ===== *)
(** Model of the scheduler of [lophi_automation/controller.py] and of the analysis processes of
    [lophi_automation/analysis_scripts.py] and [analysis/__init__.py]: machines are handed out
    from a queue, used under a lock and given back, while the scheduler drops finished
    analyses and thereby kills their processes.  The processes interleave: a run is a list of
    events.  Theorems: machines are exclusive, no machine is lost while the scheduler does
    not look between two updates, and the run in which it does. *)
From S2P Require Import Prelude.

(** * The system *)

(** A machine object: one of the list, with one lock for all, or one made for a request *)
Abbreviation mach := (string * option Z)%type.
(** Where an analysis process is in its [run]: before the lock; with the lock; removed from
    the queued identifiers; added to the running ones; out of the lock; removed from the
    running identifiers; machine given back; terminated from outside *)
Inductive phase := Created | Locked | Unqueued | Running | Finished | Unlisted | Done | Killed.
#[global] Instance phase_eq_dec : EqDecision phase.
Proof. solve_decision. Defined.
Record proc := Proc { p_machine : mach; pooled : bool; p_phase : phase }.

(** A request: whether the script can be imported, the machine asked for, its type, and
    whether a domain of that name exists *)
Record sched_request := SchedRequest { valid : bool; machine : option string; is_physical : bool; vm_exists : bool }.
(** Where the scheduler is in its loop *)
Inductive pc := Top | Waiting | Got (id : Z) (r : sched_request) | Placed (id : Z) | Returned | Died (e : pyexc).

Record sys := Sys {
  free : list string;               (* [machine_queue] *)
  ANALYSIS_QUEUED : list Z;
  ANALYSIS_RUNNING : list Z;
  procs : gmap Z proc;
  ANALYSIS_DICT : list Z;           (* the keys *)
  current : option Z;               (* the local [analysis] *)
  sched : pc;
  next_id : Z;
  locks : gmap mach Z;              (* who holds [machine.MUTEX] *)
  dropped : list string             (* machines taken from the queue by a scheduler that died *)
}.

Section system.
Context (machine_list : list string).

Definition init_sys : sys := Sys machine_list [] [] ∅ [] None Top 0 ∅ [].

Definition set_phase (id : Z) (p : proc) (ph : phase) (s : sys) : sys :=
  Sys (free s) (ANALYSIS_QUEUED s) (ANALYSIS_RUNNING s) (<[id := Proc (p_machine p) (pooled p) ph]> (procs s))
    (ANALYSIS_DICT s) (current s) (sched s) (next_id s) (locks s) (dropped s).
(** [AnalysisEngine.__del__] *)
Definition terminate (id : Z) (s : sys) : sys :=
  match procs s !! id with
  | Some p => if bool_decide (p_phase p = Done) then s else set_phase id p Killed s
  | None => s
  end.
Definition set_sched x (s : sys) : sys :=
  Sys (free s) (ANALYSIS_QUEUED s) (ANALYSIS_RUNNING s) (procs s) (ANALYSIS_DICT s) (current s) x (next_id s) (locks s) (dropped s).
Definition set_dict x (s : sys) : sys :=
  Sys (free s) (ANALYSIS_QUEUED s) (ANALYSIS_RUNNING s) (procs s) x (current s) (sched s) (next_id s) (locks s) (dropped s).
Definition set_free x (s : sys) : sys :=
  Sys x (ANALYSIS_QUEUED s) (ANALYSIS_RUNNING s) (procs s) (ANALYSIS_DICT s) (current s) (sched s) (next_id s) (locks s) (dropped s).

Definition stale (s : sys) (aid : Z) : Prop := aid ∉ ANALYSIS_QUEUED s /\ aid ∉ ANALYSIS_RUNNING s.
#[global] Instance stale_dec s aid : Decision (stale s aid) := ltac:(unfold stale; apply _).
(** The references are dropped; the object the local variable still holds survives. *)
Definition _cleanup_pointers (s : sys) : sys :=
  let rem := filter (stale s) (ANALYSIS_DICT s) in
  let s := set_dict (filter (fun aid => ~ stale s aid) (ANALYSIS_DICT s)) s in
  foldl (fun s aid => if bool_decide (current s = Some aid) then s else terminate aid s) s rem.
(** A new engine: the local variable lets go of the previous one, which ends it unless the
    dictionary has it. *)
Definition new_engine (r : sched_request) (s : sys) : sys :=
  let id := next_id s in
  let s := match current s with
           | Some old => if bool_decide (old ∈ ANALYSIS_DICT s) then s else terminate old s
           | None => s
           end in
  Sys (free s) (ANALYSIS_QUEUED s ++ [id]) (ANALYSIS_RUNNING s) (procs s) (ANALYSIS_DICT s) (Some id) (Got id r)
    (id + 1) (locks s) (dropped s).
(** [analysis.start]; a script that could not be imported is called as a class all the same. *)
Definition start_analysis (id : Z) (r : sched_request) (m : mach) (from_queue : bool) (s : sys) : sys :=
  if valid r then
    Sys (free s) (ANALYSIS_QUEUED s) (ANALYSIS_RUNNING s) (<[id := Proc m from_queue Created]> (procs s))
      (ANALYSIS_DICT s) (current s) (Placed id) (next_id s) (locks s) (dropped s)
  else
    Sys (free s) (ANALYSIS_QUEUED s) (ANALYSIS_RUNNING s) (procs s) (ANALYSIS_DICT s) (current s) (Died TypeError)
      (next_id s) (locks s) (if from_queue then m.1 :: dropped s else dropped s).
(** [None]: the queue is empty and the scheduler waits. *)
Definition place (id : Z) (r : sched_request) (s : sys) : option sys :=
  match machine r with
  | None =>
      match free s with
      | [] => None
      | m :: rest => Some (start_analysis id r (m, None) true (set_free rest s))
      end
  | Some name =>
      if bool_decide (name ∈ machine_list) then Some (start_analysis id r (name, None) false s)
      else if is_physical r then Some (set_sched Returned s)
      else if vm_exists r then Some (start_analysis id r (name, Some id) false s)
      else Some (set_sched Returned s)
  end.

Inductive sched_event :=
  | Cleanup | Get (r : sched_request) | Place | Note
  | Lock (id : Z) | Unqueue (id : Z) | Enlist (id : Z) | Finish (id : Z) | Unlist (id : Z) | Release (id : Z).

Fixpoint remove_one (x : Z) (l : list Z) : list Z :=
  match l with [] => [] | y :: l => if bool_decide (x = y) then l else y :: remove_one x l end.
(** The steps of an analysis process *)
Definition proc_step (e : sched_event) (s : sys) : option sys :=
  let at_phase id ph (k : proc -> option sys) : option sys :=
    match procs s !! id with
    | Some p => if bool_decide (p_phase p = ph) then k p else None
    | None => None
    end in
  match e with
  | Lock id => at_phase id Created (fun p =>
      match locks s !! p_machine p with
      | Some _ => None
      | None => Some (set_phase id p Locked
          (Sys (free s) (ANALYSIS_QUEUED s) (ANALYSIS_RUNNING s) (procs s) (ANALYSIS_DICT s) (current s) (sched s) (next_id s)
            (<[p_machine p := id]> (locks s)) (dropped s)))
      end)
  | Unqueue id => at_phase id Locked (fun p => Some (set_phase id p Unqueued
      (Sys (free s) (remove_one id (ANALYSIS_QUEUED s)) (ANALYSIS_RUNNING s) (procs s) (ANALYSIS_DICT s) (current s) (sched s)
        (next_id s) (locks s) (dropped s))))
  | Enlist id => at_phase id Unqueued (fun p => Some (set_phase id p Running
      (Sys (free s) (ANALYSIS_QUEUED s) (ANALYSIS_RUNNING s ++ [id]) (procs s) (ANALYSIS_DICT s) (current s) (sched s)
        (next_id s) (locks s) (dropped s))))
  | Finish id => at_phase id Running (fun p => Some (set_phase id p Finished
      (Sys (free s) (ANALYSIS_QUEUED s) (ANALYSIS_RUNNING s) (procs s) (ANALYSIS_DICT s) (current s) (sched s) (next_id s)
        (delete (p_machine p) (locks s)) (dropped s))))
  | Unlist id => at_phase id Finished (fun p => Some (set_phase id p Unlisted
      (Sys (free s) (ANALYSIS_QUEUED s) (remove_one id (ANALYSIS_RUNNING s)) (procs s) (ANALYSIS_DICT s) (current s) (sched s)
        (next_id s) (locks s) (dropped s))))
  | Release id => at_phase id Unlisted (fun p => Some (set_phase id p Done
      (if pooled p then set_free (free s ++ [(p_machine p).1]) s else s)))
  | _ => None
  end.
(** The steps of the scheduler's loop *)
Definition sched_step (e : sched_event) (s : sys) : option sys :=
  match e, sched s with
  | Cleanup, Top => Some (set_sched Waiting (_cleanup_pointers s))
  | Get r, Waiting => Some (new_engine r s)
  | Place, Got id r => place id r s
  | Note, Placed id => Some (set_sched Top (set_dict (ANALYSIS_DICT s ++ [id]) s))
  | _, _ => None
  end.
Definition sys_step (e : sched_event) (s : sys) : option sys :=
  match e with
  | Cleanup | Get _ | Place | Note => sched_step e s
  | _ => proc_step e s
  end.
Fixpoint run_events (es : list sched_event) (s : sys) : option sys :=
  match es with [] => Some s | e :: es => match sys_step e s with Some s => run_events es s | None => None end end.
End system.

(** * Machines of the pool *)

Definition live (p : proc) : bool := pooled p && negb (bool_decide (p_phase p = Done)) && negb (bool_decide (p_phase p = Killed)).
Definition killed (p : proc) : bool := pooled p && bool_decide (p_phase p = Killed).
(** The names of the machines of the processes with [P] *)
Definition name_if (P : proc -> bool) (p : proc) : list string := if P p then [(p_machine p).1] else [].
Definition names (P : proc -> bool) (m : gmap Z proc) : list string := (map_to_list m).*2 ≫= name_if P.
Definition busy (s : sys) : list string := names live (procs s).
Definition lost (s : sys) : list string := names killed (procs s) ++ dropped s.

Lemma names_insert_new P i p m : m !! i = None -> names P (<[i := p]> m) ≡ₚ name_if P p ++ names P m.
Proof. intros Hi. unfold names. rewrite map_to_list_insert by done. done. Qed.
Lemma names_lookup P i p m : m !! i = Some p -> names P m ≡ₚ name_if P p ++ names P (delete i m).
Proof. intros Hi. rewrite <- (insert_delete_id m i p Hi) at 1. by rewrite names_insert_new by apply lookup_delete_eq. Qed.
Lemma names_update P i p q m : m !! i = Some p ->
  name_if P q = name_if P p -> names P (<[i := q]> m) ≡ₚ names P m.
Proof.
  intros Hi Hq. rewrite (names_lookup P i p m) by done. rewrite <- (insert_delete_eq m i q).
  rewrite names_insert_new by apply lookup_delete_eq. by rewrite Hq.
Qed.
(** A machine moves between two kinds of processes. *)
Lemma names_move P Q i p q m : m !! i = Some p -> P p = true -> P q = false -> Q p = false -> Q q = true ->
  p_machine q = p_machine p -> names P (<[i := q]> m) ++ names Q (<[i := q]> m) ≡ₚ names P m ++ names Q m.
Proof.
  intros Hi HPp HPq HQp HQq Hm. rewrite (names_lookup P i p m), (names_lookup Q i p m) by done.
  rewrite <- (insert_delete_eq m i q). rewrite !names_insert_new by apply lookup_delete_eq.
  unfold name_if. rewrite HPp, HPq, HQp, HQq, Hm. cbn. by rewrite Permutation_middle.
Qed.

Section invariant.
Context (machine_list : list string).

(** Every machine of the pool is free, in use or lost. *)
Record conserved (s : sys) : Prop := {
  co_machines : free s ++ busy s ++ lost s ≡ₚ machine_list;
  co_fresh : forall id r, sched s = Got id r -> procs s !! id = None;
  co_ids : forall id, next_id s <= id -> procs s !! id = None;
  co_got : forall id r, sched s = Got id r -> id < next_id s
}.
(** A process inside the lock of its machine holds it. *)
Definition holds (p : proc) : Prop := p_phase p = Locked \/ p_phase p = Unqueued \/ p_phase p = Running.
Definition exclusive (s : sys) : Prop :=
  forall id p, procs s !! id = Some p -> holds p -> locks s !! p_machine p = Some id.

Lemma terminate_lost id s : busy (terminate id s) ++ lost (terminate id s) ≡ₚ busy s ++ lost s.
Proof.
  unfold terminate. destruct (procs s !! id) as [p|] eqn:Hp; [|done]. case_bool_decide as Hd; [done|].
  unfold busy, lost. cbn [procs set_phase dropped]. rewrite !app_assoc. apply Permutation_app_tail.
  destruct (decide (p_phase p = Killed)) as [Hk|Hk]; [|destruct (pooled p) eqn:Hpo].
  - rewrite !(names_update _ id p) by (done || unfold name_if, live, killed; rewrite Hk; cbn; by rewrite ?andb_false_r). done.
  - apply (names_move live killed id p); unfold live, killed; rewrite ?Hpo; cbn; by rewrite ?(bool_decide_false _ Hd), ?(bool_decide_false _ Hk).
  - rewrite !(names_update _ id p) by (done || unfold name_if, live, killed; cbn; by rewrite Hpo). done.
Qed.
(** The states that differ in the processes only, in that some were terminated *)
Record ended (s s' : sys) : Prop := {
  en_free : free s' = free s; en_queued : ANALYSIS_QUEUED s' = ANALYSIS_QUEUED s; en_running : ANALYSIS_RUNNING s' = ANALYSIS_RUNNING s;
  en_dict : ANALYSIS_DICT s' = ANALYSIS_DICT s; en_current : current s' = current s; en_sched : sched s' = sched s;
  en_next : next_id s' = next_id s; en_locks : locks s' = locks s; en_dropped : dropped s' = dropped s;
  en_procs : forall id, procs s' !! id = procs s !! id \/
    exists p, procs s !! id = Some p /\ p_phase p <> Done /\ procs s' !! id = Some (Proc (p_machine p) (pooled p) Killed);
  en_machines : busy s' ++ lost s' ≡ₚ busy s ++ lost s
}.
Lemma ended_refl s : ended s s.
Proof. split; auto. Qed.
Lemma ended_trans s1 s2 s3 : ended s1 s2 -> ended s2 s3 -> ended s1 s3.
Proof.
  intros H1 H2. split; try (rewrite (en_free _ _ H2) || rewrite (en_queued _ _ H2) || rewrite (en_running _ _ H2) || rewrite (en_dict _ _ H2)
    || rewrite (en_current _ _ H2) || rewrite (en_sched _ _ H2) || rewrite (en_next _ _ H2) || rewrite (en_locks _ _ H2) || rewrite (en_dropped _ _ H2)).
  1-9: apply H1.
  - intros id. destruct (en_procs _ _ H2 id) as [->|(p & Hp & Hd & ->)]; [apply H1|].
    destruct (en_procs _ _ H1 id) as [E|(q & Hq & Hd' & E)]; rewrite E in Hp; [right; by exists p|].
    injection Hp as <-. right. by exists q.
  - by rewrite (en_machines _ _ H2), (en_machines _ _ H1).
Qed.
Lemma ended_terminate id s : ended s (terminate id s).
Proof.
  pose proof (terminate_lost id s) as Hm. revert Hm. unfold terminate. destruct (procs s !! id) as [p|] eqn:Hp; [|intros; apply ended_refl].
  case_bool_decide as Hd; [intros; apply ended_refl|]. intros Hm. split; try done. intros j. cbn.
  destruct (decide (j = id)) as [->|Hj]; [right; exists p; by rewrite lookup_insert_eq|left; by rewrite lookup_insert_ne].
Qed.
Lemma ended_fold (c : option Z) l s :
  ended s (foldl (fun s aid => if bool_decide (current s = Some aid) then s else terminate aid s) s l).
Proof.
  revert s. induction l as [|aid l IH]; intros s; [apply ended_refl|]. cbn. eapply ended_trans; [|apply IH].
  case_bool_decide; [apply ended_refl|apply ended_terminate].
Qed.
Lemma ended_none s s' id : ended s s' -> procs s !! id = None -> procs s' !! id = None.
Proof. intros He Hn. destruct (en_procs _ _ He id) as [->|(p & Hp & _)]; [done|congruence]. Qed.
Lemma ended_conserved s s' : ended s s' -> conserved s -> conserved s'.
Proof.
  intros He [Hm Hf Hi Hg]. split.
  - by rewrite (en_free _ _ He), (en_machines _ _ He).
  - intros id r Hs. rewrite (en_sched _ _ He) in Hs. eapply ended_none, Hf; eauto.
  - intros id Hid. rewrite (en_next _ _ He) in Hid. by eapply ended_none, Hi.
  - intros id r Hs. rewrite (en_sched _ _ He) in Hs. rewrite (en_next _ _ He). eauto.
Qed.
Lemma ended_exclusive s s' : ended s s' -> exclusive s -> exclusive s'.
Proof.
  intros He Hx id p Hp Hh. rewrite (en_locks _ _ He). destruct (en_procs _ _ He id) as [E|(q & Hq & Hd & E)]; rewrite E in Hp.
  - by apply Hx.
  - injection Hp as <-. by destruct Hh as [|[|]].
Qed.

(** A process moves on, and no machine with it. *)
Lemma conserved_phase s s' id p q :
  procs s !! id = Some p -> procs s' = <[id := q]> (procs s) -> p_machine q = p_machine p -> live q = live p -> killed q = killed p ->
  free s' = free s -> dropped s' = dropped s -> sched s' = sched s -> next_id s' = next_id s -> conserved s -> conserved s'.
Proof.
  intros Hp E Hm Hl Hk Hf Hd Hs Hn [Hmach Hfr Hi Hgot]. split; [..|rewrite Hs, Hn; done].
  - unfold busy, lost. rewrite E, Hf, Hd. rewrite !(names_update _ id p) by (done || unfold name_if; by rewrite ?Hl, ?Hk, Hm). done.
  - intros id' r Hg. rewrite Hs in Hg. rewrite E. pose proof (Hfr _ _ Hg). rewrite lookup_insert_ne by congruence. done.
  - intros id' Hid. rewrite Hn in Hid. rewrite E. pose proof (Hi _ Hid). rewrite lookup_insert_ne by congruence. done.
Qed.
Lemma exclusive_phase s s' id p q :
  procs s !! id = Some p -> procs s' = <[id := q]> (procs s) -> p_machine q = p_machine p -> (holds q -> holds p) ->
  locks s' = locks s -> exclusive s -> exclusive s'.
Proof.
  intros Hp E Hm Hh Hl Hx id' p' Hp' Hh'. rewrite E in Hp'. rewrite Hl. destruct (decide (id' = id)) as [->|Hne].
  - rewrite lookup_insert_eq in Hp'. injection Hp' as <-. rewrite Hm. apply Hx; auto.
  - rewrite lookup_insert_ne in Hp' by done. by apply Hx.
Qed.

Lemma proc_step_ok e s s' : conserved s -> exclusive s -> proc_step e s = Some s' -> conserved s' /\ exclusive s'.
Proof.
  intros Hc Hx Hs. destruct e as [| | | |id|id|id|id|id|id]; cbn in Hs; try done;
    (destruct (procs s !! id) as [p|] eqn:Hp; [|done]); case_bool_decide as Hph; try done.
  - destruct (locks s !! p_machine p) as [|] eqn:Hl; [done|]. injection Hs as <-. split.
    + eapply (conserved_phase s _ id p); try done; unfold live, killed; by rewrite Hph.
    + intros id' p' Hp' Hh. cbn in *. destruct (decide (id' = id)) as [->|Hne].
      * rewrite lookup_insert_eq in Hp'. injection Hp' as <-. by rewrite lookup_insert_eq.
      * rewrite lookup_insert_ne in Hp' by done. pose proof (Hx _ _ Hp' Hh) as Hl'.
        rewrite lookup_insert_ne by congruence. done.
  - injection Hs as <-. split.
    + eapply (conserved_phase s _ id p); try done; unfold live, killed; by rewrite Hph.
    + eapply (exclusive_phase s _ id p); try done. intros _. by left.
  - injection Hs as <-. split.
    + eapply (conserved_phase s _ id p); try done; unfold live, killed; by rewrite Hph.
    + eapply (exclusive_phase s _ id p); try done. intros _. right. by left.
  - injection Hs as <-. split.
    + eapply (conserved_phase s _ id p); try done; unfold live, killed; by rewrite Hph.
    + assert (locks s !! p_machine p = Some id) as Hl by (apply Hx; [done|right; by right]).
      intros id' p' Hp' Hh. cbn in *. destruct (decide (id' = id)) as [->|Hne].
      * rewrite lookup_insert_eq in Hp'. injection Hp' as <-. by destruct Hh as [|[|]].
      * rewrite lookup_insert_ne in Hp' by done. pose proof (Hx _ _ Hp' Hh) as Hl'.
        rewrite lookup_delete_ne by congruence. done.
  - injection Hs as <-. split.
    + eapply (conserved_phase s _ id p); try done; unfold live, killed; by rewrite Hph.
    + eapply (exclusive_phase s _ id p); try done. by intros [|[|]].
  - injection Hs as <-. split.
    + destruct Hc as [Hm Hf Hi Hgot]. split; [..|by destruct (pooled p)].
      * unfold busy, lost in *. cbn [procs set_phase free dropped].
        rewrite (names_lookup live id p) in Hm by done. rewrite (names_lookup killed id p) in Hm by done.
        assert (procs (if pooled p then set_free (free s ++ [(p_machine p).1]) s else s) = procs s) as -> by (by destruct (pooled p)).
        assert (dropped (if pooled p then set_free (free s ++ [(p_machine p).1]) s else s) = dropped s) as -> by (by destruct (pooled p)).
        rewrite <- (insert_delete_eq (procs s) id). rewrite !names_insert_new by apply lookup_delete_eq.
        rewrite <- Hm. unfold name_if, live, killed. rewrite Hph. cbn. rewrite !andb_false_r. cbn.
        destruct (pooled p); cbn; [|done]. by rewrite <- app_assoc.
      * intros id' r Hg. destruct (pooled p); cbn in *; pose proof (Hf _ _ Hg); rewrite lookup_insert_ne by congruence; done.
      * intros id' Hid. destruct (pooled p); cbn in *; pose proof (Hi _ Hid); rewrite lookup_insert_ne by congruence; done.
    + apply (exclusive_phase s _ id p (Proc (p_machine p) (pooled p) Done)); try done; [cbn; by destruct (pooled p)|by intros [|[|]]|cbn; by destruct (pooled p)].
Qed.
Lemma same_conserved s s' : free s' = free s -> procs s' = procs s -> dropped s' = dropped s -> next_id s' = next_id s ->
  (forall id r, sched s' <> Got id r) -> conserved s -> conserved s'.
Proof.
  intros Hf Hp Hd Hn Hg [Hm _ Hi _]. split; [by unfold busy, lost in *; rewrite Hf, Hp, Hd| |by rewrite Hn, Hp|];
    intros id r Hs; by destruct (Hg id r).
Qed.
Lemma same_exclusive s s' : procs s' = procs s -> locks s' = locks s -> exclusive s -> exclusive s'.
Proof. intros Hp Hl Hx id p. rewrite Hp, Hl. apply Hx. Qed.
Lemma new_engine_ok r s : conserved s -> exclusive s -> conserved (new_engine r s) /\ exclusive (new_engine r s).
Proof.
  intros Hc Hx. unfold new_engine.
  set (s1 := match current s with Some old => _ | None => s end).
  assert (ended s s1) as He by (unfold s1; destruct (current s); [case_bool_decide; [apply ended_refl|apply ended_terminate]|apply ended_refl]).
  pose proof (ended_conserved _ _ He Hc) as [Hm1 Hf1 Hi1 Hg1]. pose proof (ended_exclusive _ _ He Hx) as Hx1.
  split; [|by apply (same_exclusive s1)]. split; [done|..].
  - intros id r' [= <- <-]. cbn. apply Hi1. rewrite (en_next _ _ He). lia.
  - intros id Hid. cbn in *. apply Hi1. rewrite (en_next _ _ He). lia.
  - intros id r' [= <- <-]. cbn. lia.
Qed.
Lemma start_ok id r m (q : bool) s : procs s !! id = None -> id < next_id s -> exclusive s ->
  (forall id', next_id s <= id' -> procs s !! id' = None) ->
  free s ++ (if q then [m.1] else []) ++ busy s ++ lost s ≡ₚ machine_list ->
  conserved (start_analysis id r m q s) /\ exclusive (start_analysis id r m q s).
Proof.
  intros Hid Hlt Hx Hi Hm. unfold start_analysis. destruct (valid r).
  - split.
    + split; cbn; [|done| |done].
      * unfold busy, lost in *. cbn [procs dropped]. rewrite !names_insert_new by done. unfold name_if, live, killed. cbn.
        rewrite andb_false_r. cbn. destruct q; cbn in *; [|done]. done.
      * intros id' H'. cbn in H'. rewrite lookup_insert_ne by lia. by apply Hi.
    + intros id' p' Hp' Hh. cbn in *. destruct (decide (id' = id)) as [->|Hne].
      * rewrite lookup_insert_eq in Hp'. injection Hp' as <-. by destruct Hh as [|[|]].
      * rewrite lookup_insert_ne in Hp' by done. by apply Hx.
  - split; [|by apply (same_exclusive s)]. split; cbn; [|done|done|done].
    rewrite <- Hm. unfold busy, lost. cbn [procs dropped]. destruct q; [|done]. cbn.
    rewrite !Permutation_middle. rewrite <- !Permutation_middle. done.
Qed.
Lemma place_ok id r s s' : conserved s -> exclusive s -> sched s = Got id r -> place machine_list id r s = Some s' ->
  conserved s' /\ exclusive s'.
Proof.
  intros Hc Hx Hg Hp. pose proof Hc as [Hm Hf Hi Hgt]. unfold place in Hp.
  pose proof (Hf _ _ Hg) as Hnone. pose proof (Hgt _ _ Hg) as Hlt.
  assert (conserved (set_sched Returned s) /\ exclusive (set_sched Returned s)) as Hret
    by (split; [by apply (same_conserved s)|by apply (same_exclusive s)]).
  destruct (machine r) as [name|].
  - case_bool_decide; [injection Hp as <-; by apply start_ok|]. destruct (is_physical r); [by injection Hp as <-|].
    destruct (vm_exists r); injection Hp as <-; [by apply start_ok|done].
  - destruct (free s) as [|m rest] eqn:Hfree; [done|]. injection Hp as <-.
    apply start_ok; try done. rewrite <- Hm. cbn. unfold busy, lost. cbn. by rewrite <- Permutation_middle.
Qed.
Lemma sched_step_ok e s s' : conserved s -> exclusive s -> sched_step machine_list e s = Some s' -> conserved s' /\ exclusive s'.
Proof.
  intros Hc Hx Hs. unfold sched_step in Hs. destruct e; try done; destruct (sched s) as [| |id r'|id| |] eqn:Hg; try done.
  - injection Hs as <-. unfold _cleanup_pointers. set (s0 := set_dict _ s).
    pose proof (ended_fold (current s) (filter (stale s) (ANALYSIS_DICT s)) s0) as He.
    assert (conserved s0) as Hc0 by (apply (same_conserved s); try done; cbn; by rewrite Hg).
    assert (exclusive s0) as Hx0 by (by apply (same_exclusive s)).
    pose proof (ended_conserved _ _ He Hc0) as Hc1. pose proof (ended_exclusive _ _ He Hx0) as Hx1.
    split; [eapply same_conserved; [..|exact Hc1]; done|eapply same_exclusive; [..|exact Hx1]; done].
  - injection Hs as <-. by apply new_engine_ok.
  - by eapply place_ok.
  - injection Hs as <-. split; [by apply (same_conserved s)|by apply (same_exclusive s)].
Qed.
Lemma init_ok : conserved (init_sys machine_list) /\ exclusive (init_sys machine_list).
Proof.
  split; [|intros id p Hp; cbn in Hp; by rewrite lookup_empty in Hp].
  split; cbn; [|done|intros; apply lookup_empty|done]. unfold busy, lost, names. cbn. by rewrite map_to_list_empty, !app_nil_r.
Qed.
Lemma run_ok es s s' : conserved s -> exclusive s -> run_events machine_list es s = Some s' -> conserved s' /\ exclusive s'.
Proof.
  revert s. induction es as [|e es IH]; intros s Hc Hx Hr; cbn in Hr; [by injection Hr as <-|].
  destruct (sys_step machine_list e s) as [s1|] eqn:Hs; [|done].
  assert (conserved s1 /\ exclusive s1) as [H1 H2]
    by (unfold sys_step in Hs; destruct e; (by eapply sched_step_ok) || (by eapply proc_step_ok)).
  by apply (IH s1).
Qed.

(** [C9] Machines are conserved and exclusive: after any interleaving of the scheduler and the
    analysis processes, every machine of the pool is exactly once free, in use by one
    analysis, or lost, and of two analyses inside the lock of one machine there is one. *)
Theorem machines_exclusive es s :
  run_events machine_list es (init_sys machine_list) = Some s ->
  free s ++ busy s ++ lost s ≡ₚ machine_list /\
  (forall id1 id2 p1 p2, procs s !! id1 = Some p1 -> procs s !! id2 = Some p2 -> holds p1 -> holds p2 ->
     p_machine p1 = p_machine p2 -> id1 = id2).
Proof.
  intros Hr. destruct init_ok as [Hc Hx]. destruct (run_ok _ _ _ Hc Hx Hr) as [[Hm _ _ _] Hx']. split; [done|].
  intros id1 id2 p1 p2 H1 H2 Hh1 Hh2 Heq. apply (Hx' id1) in H1; [|done]. apply (Hx' id2) in H2; [|done]. congruence.
Qed.
End invariant.

(** * Looking at the right moments *)

Section careful.
Context (machine_list : list string).

(** Between two updates of the shared lists a process is in neither. *)
Definition between (p : proc) : Prop := p_phase p = Unqueued \/ p_phase p = Unlisted.
Fixpoint careful (es : list sched_event) (s : sys) : Prop :=
  match es with
  | [] => True
  | e :: es =>
      (e = Cleanup -> forall id p, procs s !! id = Some p -> ~ between p) /\
      match sys_step machine_list e s with Some s' => careful es s' | None => True end
  end.
Definition is_done (s : sys) (id : Z) : Prop := forall p, procs s !! id = Some p -> p_phase p = Done.
Record tracked (s : sys) : Prop := {
  tr_procs : forall id p, procs s !! id = Some p ->
    match p_phase p with
    | Created | Locked => id ∈ ANALYSIS_QUEUED s
    | Running | Finished => id ∈ ANALYSIS_RUNNING s
    | Killed => False
    | _ => True
    end;
  tr_got : forall id r, sched s = Got id r -> id ∈ ANALYSIS_QUEUED s /\ procs s !! id = None /\ current s = Some id;
  tr_placed : forall id, sched s = Placed id -> current s = Some id;
  tr_current : forall c, current s = Some c -> sched s = Top \/ sched s = Waiting -> c ∈ ANALYSIS_DICT s \/ is_done s c
}.

Lemma terminate_done id s : is_done s id -> terminate id s = s.
Proof.
  intros Hd. unfold terminate. destruct (procs s !! id) as [p|] eqn:Hp; [|done]. by rewrite bool_decide_true by (by apply Hd).
Qed.
Lemma fold_done l s : Forall (is_done s) l ->
  foldl (fun s aid => if bool_decide (current s = Some aid) then s else terminate aid s) s l = s.
Proof.
  induction 1 as [|aid l Hd _ IH]; [done|]. cbn. case_bool_decide; [done|]. by rewrite terminate_done.
Qed.
Lemma remove_one_other x y l : x <> y -> x ∈ l -> x ∈ remove_one y l.
Proof.
  intros Hne. induction l as [|z l IH]; [done|]. cbn. intros [->|Hin]%elem_of_cons.
  - rewrite bool_decide_false by congruence. left.
  - case_bool_decide; [done|]. right. by apply IH.
Qed.
Lemma stale_done s id : tracked s -> (forall id p, procs s !! id = Some p -> ~ between p) -> stale s id -> is_done s id.
Proof.
  intros Ht Hb [Hq Hr] p Hp. pose proof (tr_procs _ Ht _ _ Hp) as H. pose proof (Hb _ _ Hp) as Hn. unfold between in Hn.
  destruct (p_phase p); by try done; destruct Hn; auto.
Qed.
Lemma tracked_cleanup s : tracked s -> sched s = Top -> (forall id p, procs s !! id = Some p -> ~ between p) ->
  tracked (set_sched Waiting (_cleanup_pointers s)).
Proof.
  intros Ht Hs Hb. unfold _cleanup_pointers. set (s0 := set_dict _ s).
  rewrite fold_done by (apply Forall_forall; intros id [Hst _]%list_elem_of_filter; by apply (stale_done s)).
  split; [apply Ht|done|done|]. intros c Hc _. cbn in *.
  destruct (tr_current _ Ht c Hc (or_introl Hs)) as [Hin|Hd]; [|by right].
  destruct (decide (stale s c)) as [Hst|Hst]; [right; by apply (stale_done s)|left]. by apply list_elem_of_filter.
Qed.
Lemma tracked_get r s : conserved machine_list s -> tracked s -> sched s = Waiting -> tracked (new_engine r s).
Proof.
  intros Hc Ht Hs. unfold new_engine.
  assert (match current s with Some old => if bool_decide (old ∈ ANALYSIS_DICT s) then s else terminate old s | None => s end = s) as ->.
  { destruct (current s) as [c|] eqn:Ec; [|done]. case_bool_decide as Hd; [done|]. apply terminate_done.
    by destruct (tr_current _ Ht c Ec (or_intror Hs)). }
  split; cbn; [|intros id r' [= <- <-]|done|by intros ? ? [|]].
  - intros id p Hp. pose proof (tr_procs _ Ht _ _ Hp). destruct (p_phase p); set_solver.
  - split_and!; [set_solver| |done]. apply (co_ids _ _ Hc). lia.
Qed.
Lemma tracked_start id r m q s : tracked s -> sched s = Got id r -> tracked (start_analysis id r m q s).
Proof.
  intros Ht Hg. destruct (tr_got _ Ht _ _ Hg) as (Hq & Hn & Hc). unfold start_analysis. destruct (valid r).
  - split; cbn; [|done|by intros ? [= <-]|by intros ? ? [|]]. intros id' p Hp. destruct (decide (id' = id)) as [->|Hne].
    + rewrite lookup_insert_eq in Hp. by injection Hp as <-.
    + rewrite lookup_insert_ne in Hp by done. by apply (tr_procs _ Ht).
  - split; cbn; [apply Ht|done|done|by intros ? ? [|]].
Qed.
(** The process moves on, with what its phase promises. *)
Lemma tracked_phase s s' id p ph : conserved machine_list s -> tracked s -> procs s !! id = Some p -> p_phase p <> Done ->
  procs s' = <[id := Proc (p_machine p) (pooled p) ph]> (procs s) -> sched s' = sched s -> current s' = current s ->
  ANALYSIS_DICT s' = ANALYSIS_DICT s ->
  (forall j, j <> id -> j ∈ ANALYSIS_QUEUED s -> j ∈ ANALYSIS_QUEUED s') -> (forall j, j <> id -> j ∈ ANALYSIS_RUNNING s -> j ∈ ANALYSIS_RUNNING s') ->
  match ph with Created | Locked => id ∈ ANALYSIS_QUEUED s' | Running | Finished => id ∈ ANALYSIS_RUNNING s' | Killed => False | _ => True end ->
  tracked s'.
Proof.
  intros Hc Ht Hp Hnd E Hs Hcu Hd Hq Hr Hph. split.
  - intros j q Hj. rewrite E in Hj. destruct (decide (j = id)) as [->|Hne].
    + rewrite lookup_insert_eq in Hj. by injection Hj as <-.
    + rewrite lookup_insert_ne in Hj by done. pose proof (tr_procs _ Ht _ _ Hj). destruct (p_phase q); auto.
  - intros j r Hg. rewrite Hs in Hg. destruct (tr_got _ Ht _ _ Hg) as (Hjq & Hjn & Hjc).
    assert (j <> id) as Hne by congruence. split_and!; [by apply Hq| |congruence]. rewrite E. by rewrite lookup_insert_ne.
  - intros j Hg. rewrite Hs in Hg. rewrite Hcu. by apply Ht.
  - intros c Hcc Hpc. rewrite Hcu in Hcc. rewrite Hs in Hpc. rewrite Hd. destruct (tr_current _ Ht c Hcc Hpc) as [|Hdone]; [by left|].
    right. intros q Hq'. rewrite E in Hq'. destruct (decide (c = id)) as [->|Hne]; [by apply Hdone in Hp|].
    rewrite lookup_insert_ne in Hq' by done. by apply Hdone.
Qed.
Lemma tracked_proc e s s' : conserved machine_list s -> tracked s -> proc_step e s = Some s' -> tracked s'.
Proof.
  intros Hc Ht Hs. destruct e as [| | | |id|id|id|id|id|id]; cbn in Hs; try done;
    (destruct (procs s !! id) as [p|] eqn:Hp; [|done]); case_bool_decide as Hph; try done;
    pose proof (tr_procs _ Ht _ _ Hp) as H0; rewrite Hph in H0.
  - destruct (locks s !! p_machine p); [done|]. injection Hs as <-. by eapply (tracked_phase s _ id p); try done; rewrite Hph.
  - injection Hs as <-. eapply (tracked_phase s _ id p); try done; [by rewrite Hph|]. intros. by apply remove_one_other.
  - injection Hs as <-. eapply (tracked_phase s _ id p); try done; [by rewrite Hph|cbn; set_solver|cbn; set_solver].
  - injection Hs as <-. by eapply (tracked_phase s _ id p); try done; rewrite Hph.
  - injection Hs as <-. eapply (tracked_phase s _ id p); try done; [by rewrite Hph|]. intros. by apply remove_one_other.
  - injection Hs as <-. eapply (tracked_phase s _ id p Done); try done; try (cbn; by destruct (pooled p)). by rewrite Hph.
Qed.
Lemma tracked_sched e s s' : conserved machine_list s -> tracked s ->
  (e = Cleanup -> forall id p, procs s !! id = Some p -> ~ between p) -> sched_step machine_list e s = Some s' -> tracked s'.
Proof.
  intros Hc Ht Hb Hs. unfold sched_step in Hs. destruct e; try done; destruct (sched s) as [| |id r'|id| |] eqn:Hg; try done.
  - injection Hs as <-. apply tracked_cleanup; [done|done|by apply Hb].
  - injection Hs as <-. by apply tracked_get.
  - assert (tracked (set_sched Returned s)) as Hret by (split; cbn; [apply Ht|done|done|by intros ? ? [|]]).
    unfold place in Hs. destruct (machine r') as [name|].
    + case_bool_decide; [injection Hs as <-; by apply tracked_start|]. destruct (is_physical r'); [by injection Hs as <-|].
      destruct (vm_exists r'); injection Hs as <-; [by apply tracked_start|done].
    + destruct (free s); [done|]. injection Hs as <-. apply tracked_start; [|done].
      split; [apply (tr_procs _ Ht)|apply (tr_got _ Ht)|apply (tr_placed _ Ht)|apply (tr_current _ Ht)].
  - injection Hs as <-. split; cbn; [apply Ht|done|done|]. intros c Hcu _. left.
    rewrite (tr_placed _ Ht _ Hg) in Hcu. injection Hcu as <-. set_solver.
Qed.

(** Requests whose scripts can be imported leave the scheduler alive. *)
Definition wanted (e : sched_event) : Prop := match e with Get r => valid r = true | _ => True end.
Definition serving (s : sys) : Prop := dropped s = [] /\ forall id r, sched s = Got id r -> valid r = true.
Lemma terminate_serving id s : serving s -> serving (terminate id s).
Proof.
  intros [Hd Hv]. pose proof (ended_terminate id s) as He.
  split; [by rewrite (en_dropped _ _ He)|]. intros ? ?. rewrite (en_sched _ _ He). apply Hv.
Qed.
Lemma serving_step e s s' : wanted e -> serving s -> sys_step machine_list e s = Some s' -> serving s'.
Proof.
  intros Hw [Hd Hv] Hs. unfold sys_step in Hs. destruct e as [|r| | |id|id|id|id|id|id]; cbn in Hs.
  1-4: destruct (sched s) as [| |id r'|id| |] eqn:Hg; try done.
  5-10: (destruct (procs s !! id) as [p|]; [|done]); case_bool_decide; try done.
  - injection Hs as <-. unfold _cleanup_pointers. set (s0 := set_dict _ s).
    pose proof (ended_fold (current s) (filter (stale s) (ANALYSIS_DICT s)) s0) as He.
    split; [cbn; by rewrite (en_dropped _ _ He)|done].
  - injection Hs as <-. unfold new_engine. split; [|by intros ? ? [= <- <-]].
    destruct (current s); [|done]. cbn. case_bool_decide; [done|]. by rewrite (en_dropped _ _ (ended_terminate _ _)).
  - unfold place, start_analysis in Hs. rewrite (Hv _ _ eq_refl) in Hs.
    repeat case_match; simplify_eq; by split.
  - by injection Hs as <-.
  - destruct (locks s !! _); [done|]. by injection Hs as <-.
  - by injection Hs as <-.
  - by injection Hs as <-.
  - by injection Hs as <-.
  - by injection Hs as <-.
  - injection Hs as <-. by destruct (pooled p).
Qed.
Lemma names_none P m : (forall id p, m !! id = Some p -> P p = false) -> names P m = [].
Proof.
  intros Hn. unfold names. assert (Forall (fun p => P p = false) (map_to_list m).*2) as Hf.
  { apply Forall_fmap, Forall_forall. intros [id p] Hin%elem_of_map_to_list. by apply (Hn id). }
  induction Hf as [|p l Hp _ IH]; [done|]. cbn. unfold name_if at 1. by rewrite Hp, IH.
Qed.
Lemma run_tracked es s s' : conserved machine_list s -> exclusive s -> tracked s -> serving s -> careful es s -> Forall wanted es ->
  run_events machine_list es s = Some s' -> tracked s' /\ serving s'.
Proof.
  revert s. induction es as [|e es IH]; intros s Hc Hx Ht Hsv Hca Hw Hr; cbn in Hr; [by injection Hr as <-|].
  destruct Hca as [Hb Hca]. inversion Hw; subst. destruct (sys_step machine_list e s) as [s1|] eqn:Hs; [|done].
  assert (conserved machine_list s1 /\ exclusive s1) as [H3 H4]
    by (unfold sys_step in Hs; destruct e; (by eapply sched_step_ok) || (by eapply proc_step_ok)).
  apply (IH s1); try done; [|by eapply serving_step].
  unfold sys_step in Hs; destruct e; first [exact (tracked_sched _ s s1 Hc Ht Hb Hs) | exact (tracked_proc _ s s1 Hc Ht Hs)].
Qed.

(** [C10] No machine is lost: as long as the scheduler drops references at moments when no
    analysis is between two updates of the shared lists, and the scripts can be imported,
    every machine of the pool is free or in use after any interleaving. *)
Theorem careful_scheduler_loses_nothing es s :
  run_events machine_list es (init_sys machine_list) = Some s -> careful es (init_sys machine_list) -> Forall wanted es ->
  free s ++ busy s ≡ₚ machine_list.
Proof.
  intros Hr Hca Hw. destruct (init_ok machine_list) as [Hc Hx].
  assert (tracked (init_sys machine_list)) as Ht by (split; cbn; [intros id p Hp; by rewrite lookup_empty in Hp|done..]).
  destruct (run_tracked _ _ _ Hc Hx Ht ltac:(done) Hca Hw Hr) as [Ht' [Hd _]].
  destruct (run_ok _ _ _ _ Hc Hx Hr) as [[Hm _ _ _] _]. rewrite <- Hm. unfold lost. rewrite Hd, names_none, !app_nil_r; [done|].
  intros id p Hp. pose proof (tr_procs _ Ht' _ _ Hp). unfold killed. destruct (p_phase p); try by rewrite andb_false_r. done.
Qed.
End careful.

(** * A lost machine *)

Section race.
Context (machine_list : list string).

Lemma terminate_killed id i p s : procs s !! i = Some p -> p_phase p = Killed -> procs (terminate id s) !! i = Some p.
Proof.
  intros Hp Hk. unfold terminate. destruct (procs s !! id) as [q|] eqn:Hq; [|done]. case_bool_decide; [done|]. cbn.
  destruct (decide (i = id)) as [->|Hne]; [|by rewrite lookup_insert_ne]. rewrite Hp in Hq. injection Hq as <-.
  rewrite lookup_insert_eq. destruct p; cbn in *; by subst.
Qed.
Lemma fold_killed l i p s : procs s !! i = Some p -> p_phase p = Killed ->
  procs (foldl (fun s aid => if bool_decide (current s = Some aid) then s else terminate aid s) s l) !! i = Some p.
Proof.
  revert s. induction l as [|aid l IH]; intros s Hp Hk; [done|]. cbn. apply IH; [|done].
  case_bool_decide; [done|by apply terminate_killed].
Qed.
Lemma killed_step e s s' i p : conserved machine_list s -> sys_step machine_list e s = Some s' ->
  procs s !! i = Some p -> p_phase p = Killed -> procs s' !! i = Some p.
Proof.
  intros Hc Hs Hp Hk. unfold sys_step in Hs. destruct e as [|r| | |id|id|id|id|id|id]; cbn in Hs.
  1-4: destruct (sched s) as [| |id r'|id| |] eqn:Hg; try done.
  5-10: (destruct (procs s !! id) as [q|] eqn:Hq; [|done]); case_bool_decide as Hph; try done;
    assert (i <> id) as Hne by congruence; try (injection Hs as <-; cbn; by rewrite lookup_insert_ne).
  - injection Hs as <-. by apply fold_killed.
  - injection Hs as <-. cbn. destruct (current s); [|done]. case_bool_decide; [done|by apply terminate_killed].
  - assert (i <> id) as Hne by (pose proof (co_fresh _ _ Hc _ _ Hg); congruence).
    unfold place, start_analysis in Hs. repeat case_match; simplify_eq; cbn; by rewrite ?lookup_insert_ne.
  - by injection Hs as <-.
  - destruct (locks s !! _); [done|]. injection Hs as <-. cbn. by rewrite lookup_insert_ne.
  - injection Hs as <-. cbn. rewrite lookup_insert_ne by done. by destruct (pooled q).
Qed.
Lemma killed_stays es s s' i p : conserved machine_list s -> exclusive s -> run_events machine_list es s = Some s' ->
  procs s !! i = Some p -> p_phase p = Killed -> procs s' !! i = Some p.
Proof.
  revert s. induction es as [|e es IH]; intros s Hc Hx Hr Hp Hk; cbn in Hr; [by injection Hr as <-|].
  destruct (sys_step machine_list e s) as [s1|] eqn:Hs; [|done].
  assert (conserved machine_list s1 /\ exclusive s1) as [H3 H4]
    by (unfold sys_step in Hs; destruct e; (by eapply sched_step_ok) || (by eapply proc_step_ok)).
  apply (IH s1); try done. exact (killed_step e s s1 i p Hc Hs Hp Hk).
Qed.
End race.

Definition pool_request : sched_request := SchedRequest true None false false.
(** The scheduler looks while analysis 0 is between the two lists, and lets go of it with the
    next request. *)
Definition race_events : list sched_event :=
  [Cleanup; Get pool_request; Place; Note; Lock 0; Unqueue 0; Cleanup; Enlist 0; Get pool_request].

(** A race: two requests for a machine of a pool of one can end with the first analysis
    killed in the middle of its run and its machine lost, so that the second request and all
    later ones wait for ever. *)
Theorem race_loses_machine :
  exists s, run_events ["lophi-0"] race_events (init_sys ["lophi-0"]) = Some s /\
    p_phase <$> procs s !! 0 = Some Killed /\
    forall es s', run_events ["lophi-0"] es s = Some s' -> free s' = [] /\ busy s' = [].
Proof.
  set (s := default (init_sys []) (run_events ["lophi-0"] race_events (init_sys ["lophi-0"]))).
  assert (run_events ["lophi-0"] race_events (init_sys ["lophi-0"]) = Some s) as Hr by (vm_compute; reflexivity).
  assert (procs s !! 0 = Some (Proc ("lophi-0", None) true Killed)) as Hk by (vm_compute; reflexivity).
  clearbody s. exists s. split; [done|].
  split; [by rewrite Hk|]. intros es s' Hr'. destruct (init_ok ["lophi-0"]) as [Hc Hx].
  destruct (run_ok _ _ _ _ Hc Hx Hr) as [Hc1 Hx1]. pose proof (killed_stays _ _ _ _ _ _ Hc1 Hx1 Hr' Hk eq_refl) as Hk'.
  destruct (run_ok _ _ _ _ Hc1 Hx1 Hr') as [[Hm _ _ _] _]. unfold lost in Hm.
  rewrite (names_lookup killed 0 _ _ Hk') in Hm.
  change (name_if killed _) with ["lophi-0"] in Hm.
  apply Permutation_length in Hm. rewrite !length_app in Hm. cbn in Hm.
  destruct (free s'), (busy s'); cbn in Hm; try lia. done.
Qed.

(** A script that cannot be imported ends the scheduler and takes a machine with it. *)
Lemma invalid_script_kills_scheduler :
  exists s, run_events ["lophi-0"] [Cleanup; Get (SchedRequest false None false false); Place] (init_sys ["lophi-0"]) = Some s /\
    sched s = Died TypeError /\ free s = [] /\ dropped s = ["lophi-0"].
Proof. eexists. split; [reflexivity|done]. Qed.
(** So does a request for an unknown physical machine, with the identifier left queued. *)
Lemma unknown_machine_ends_scheduler :
  exists s, run_events ["lophi-0"] [Cleanup; Get (SchedRequest true (Some "x") true false); Place] (init_sys ["lophi-0"]) = Some s /\
    sched s = Returned /\ ANALYSIS_QUEUED s = [0].
Proof. eexists. split; [reflexivity|done]. Qed.

(** Whether a run is careful, by evaluation *)
Fixpoint check_careful (machine_list : list string) (es : list sched_event) (s : sys) : bool :=
  match es with
  | [] => true
  | e :: es =>
      (match e with
       | Cleanup => forallb (fun kv => negb (bool_decide (p_phase kv.2 = Unqueued)) && negb (bool_decide (p_phase kv.2 = Unlisted))) (map_to_list (procs s))
       | _ => true
       end) && match sys_step machine_list e s with Some s' => check_careful machine_list es s' | None => true end
  end.
Lemma check_careful_ok machine_list es s : check_careful machine_list es s = true -> careful machine_list es s.
Proof.
  revert s. induction es as [|e es IH]; intros s; cbn [check_careful careful]; [done|]. intros [Hb Hr]%andb_true_iff. split.
  - intros -> id p Hp [H|H]; rewrite forallb_forall in Hb;
      specialize (Hb (id, p) ltac:(by apply list_elem_of_In, elem_of_map_to_list)); cbn in Hb; by rewrite H in Hb.
  - destruct (sys_step machine_list e s); [by apply IH|done].
Qed.
(** Two analyses on a pool of two machines, the first of them finished *)
Definition demo_events : list sched_event :=
  [Cleanup; Get pool_request; Place; Note; Lock 0; Unqueue 0; Enlist 0; Cleanup; Get pool_request; Place; Note;
   Finish 0; Unlist 0; Release 0; Lock 1; Cleanup].
Definition demo_sys : sys := default (init_sys []) (run_events ["a"; "b"] demo_events (init_sys ["a"; "b"])).
Lemma machines_exclusive_witness :
  free demo_sys ++ busy demo_sys ++ lost demo_sys ≡ₚ ["a"; "b"] /\
  (forall id1 id2 p1 p2, procs demo_sys !! id1 = Some p1 -> procs demo_sys !! id2 = Some p2 -> holds p1 -> holds p2 ->
     p_machine p1 = p_machine p2 -> id1 = id2).
Proof. apply (machines_exclusive ["a"; "b"] demo_events demo_sys). vm_compute. reflexivity. Defined.
Lemma careful_scheduler_loses_nothing_witness : free demo_sys ++ busy demo_sys ≡ₚ ["a"; "b"].
Proof.
  apply (careful_scheduler_loses_nothing ["a"; "b"] demo_events demo_sys); [vm_compute; reflexivity|
    apply check_careful_ok; vm_compute; reflexivity|repeat constructor].
Defined.
