(* ===== verification/Controller.v ===== *)
(** Model of the controller of [lophi_automation/controller.py], of [AnalysisEngine] of
    [analysis/__init__.py] and of the messages between controller and master ([lophi/globals.py]).
    Theorems: messages survive any fragmentation that keeps their headers whole, a start
    command reaches the scheduler of its type, and commands on running analyses never do. *)
From S2P Require Import Prelude Struct PyString Stream.

(** * Messages *)

(** [send] accepts at least one byte; what is left is sent again. *)
Fixpoint sock_send_loop (accepted : list nat) (data : bytes) : bytes :=
  match accepted with
  | [] => data
  | a :: rest =>
      let k := Nat.max 1 a in take k data ++ (if (length data <=? k)%nat then [] else sock_send_loop rest (drop k data))
  end.
(** The bytes put on the wire *)
Definition send_socket_data (accepted : list nat) (data : bytes) : res bytes :=
  if zlen data <? 2 ^ 16 then Ret (sock_send_loop accepted (le_split 2 (zlen data) ++ data)) else Raise StructError.
Fixpoint read_loop (fuel : nat) (size : nat) (data : bytes) : PM sock_state (option bytes) :=
  if (size <=? length data)%nat then pm_ret (Some data) else
  match fuel with
  | O => pm_raise Diverges
  | S fuel =>
      let! tmp := sock_recv (size - length data) in
      if bool_decide (tmp = []) then pm_ret None else read_loop fuel size (data ++ tmp)
  end.
Definition read_socket_data : PM sock_state (option bytes) :=
  let! size := sock_recv 2 in
  if bool_decide (size = []) then pm_ret None else
  if bool_decide (length size = 2%nat) then
    let size := Z.to_nat (le_combine size) in read_loop size size []
  else pm_raise StructError.
Fixpoint read_all (n : nat) : PM sock_state (list (option bytes)) :=
  match n with
  | O => pm_ret []
  | S n => let! m := read_socket_data in let! ms := read_all n in pm_ret (m :: ms)
  end.

Lemma send_loop_all accepted data : sock_send_loop accepted data = data.
Proof.
  revert data. induction accepted as [|a rest IH]; intros data; cbn [sock_send_loop]; [done|].
  destruct (Nat.leb_spec (length data) (Nat.max 1 a)).
  - rewrite app_nil_r. by apply take_ge.
  - by rewrite IH, take_drop.
Qed.
Lemma read_loop_ok fuel size got data rest s : whole 2 s ->
  size = (length got + length data)%nat -> (length data <= fuel)%nat -> pending_bytes s = data ++ rest ->
  exists s', read_loop fuel size got s = (Ret (Some (got ++ data)), s') /\ pending_bytes s' = rest /\ whole 2 s'.
Proof.
  revert got data s. induction fuel as [|fuel IH]; intros got data s Hw Hs Hf Hp; cbn [read_loop].
  - destruct data; [|cbn in Hf; lia]. cbn in Hs, Hp. rewrite (proj2 (Nat.leb_le _ _)) by lia.
    exists s. by rewrite app_nil_r.
  - destruct (Nat.leb_spec size (length got)).
    { destruct data; [|cbn in Hs; lia]. exists s. by rewrite app_nil_r. }
    destruct data as [|c data]; [cbn in Hs; lia|].
    destruct (recv_some (size - length got) s) as (k & Hk & Hr & _); [lia|].
    unfold pm_bind. rewrite Hr, Hp. cbn [app]. destruct k as [|k]; [lia|]. cbn [take drop].
    rewrite bool_decide_false by done. cbn [length] in *.
    destruct (IH (got ++ c :: take k data) (drop k data) (Socket (drop k (data ++ rest)) (tail (arrivals s)))) as (s' & Hs' & Hp' & Hw').
    + unfold whole in *. cbn. by destruct Hw.
    + rewrite length_app. cbn [length]. rewrite length_take, length_drop. lia.
    + rewrite length_drop. lia.
    + cbn. rewrite drop_app_le by lia. done.
    + exists s'. split; [|done]. rewrite take_app_le by lia. rewrite Hs'. do 3 f_equal. by rewrite <- app_assoc, <- app_comm_cons, take_drop.
Qed.
Lemma read_one data rest s : whole 2 s -> zlen data < 2 ^ 16 -> pending_bytes s = (le_split 2 (zlen data) ++ data) ++ rest ->
  exists s', read_socket_data s = (Ret (Some data), s') /\ pending_bytes s' = rest /\ whole 2 s'.
Proof.
  intros Hw Hl Hp. unfold read_socket_data. destruct (recv_some 2 s) as (k & Hk & Hr & H2); [lia|].
  assert (k = 2)%nat as -> by (specialize (H2 2%nat Hw ltac:(lia)); lia). unfold pm_bind. rewrite Hr, Hp, <- app_assoc.
  pose proof (length_le_split 2 (zlen data)) as Hh. rewrite take_app_length' by done. rewrite drop_app_length' by done.
  rewrite bool_decide_false by (by intros E; rewrite E in Hh). rewrite bool_decide_true by done.
  pose proof (zlen_nonneg data). rewrite le_combine_split by (change (256 ^ Z.of_nat 2) with (2 ^ 16); lia).
  unfold zlen. rewrite Nat2Z.id. apply (read_loop_ok (length data) (length data) [] data rest); try done. unfold whole in *. cbn. by destruct Hw.
Qed.

(** Messages: whatever pieces the connection cuts them into on both sides, as long as
    two bytes asked for arrive together, the messages sent are received one by one. *)
Theorem messages_received msgs (accepted : list (list nat)) frames arrivals :
  Forall2 (fun am frame => send_socket_data am.1 am.2 = Ret frame) (zip accepted msgs) frames -> length accepted = length msgs ->
  Forall (fun a => 2 <= a)%nat arrivals ->
  exists s', read_all (length msgs) (Socket (concat frames) arrivals) = (Ret (Some <$> msgs), s') /\ pending_bytes s' = [].
Proof.
  intros Hf Hlen Ha. assert (forall s, whole 2 s -> pending_bytes s = concat frames ->
    exists s', read_all (length msgs) s = (Ret (Some <$> msgs), s') /\ pending_bytes s' = []) as Hx; [|by apply Hx].
  clear Ha. revert accepted frames Hf Hlen. induction msgs as [|m msgs IH]; intros [|a accepted] frames Hf Hlen s Hw Hp; try done.
  - inversion Hf; subst. by exists s.
  - cbn [zip zip_with] in Hf. inversion Hf as [|? ? ? fs Hsend Hrest]; subst. cbn in Hsend. unfold send_socket_data in Hsend.
    destruct (Z.ltb_spec (zlen m) (2 ^ 16)) as [Hl|]; [|done]. injection Hsend as <-. rewrite send_loop_all in Hp.
    destruct (read_one m (concat fs) s Hw Hl Hp) as (s1 & Hr & Hp1 & Hw1).
    destruct (IH accepted fs Hrest ltac:(cbn in Hlen; lia) s1 Hw1 Hp1) as (s2 & Hr2 & Hp2).
    exists s2. split; [|done]. cbn [length read_all]. unfold pm_bind. by rewrite Hr, Hr2.
Qed.
Lemma messages_received_witness :
  exists s', read_all 2 (Socket ([3; 0] ++ lit "abc" ++ [1; 0] ++ lit "d") [2; 2; 5]%nat) = (Ret [Some (lit "abc"); Some (lit "d")], s') /\
    pending_bytes s' = [].
Proof.
  apply (messages_received [lit "abc"; lit "d"] [[1; 1]%nat; []] [[3; 0] ++ lit "abc"; [1; 0] ++ lit "d"] [2; 2; 5]%nat);
    [repeat constructor|done|repeat constructor; lia].
Defined.
(** A header that arrives in two pieces is not put together. *)
Lemma split_header_raises : (read_socket_data (Socket ([3; 0] ++ lit "abc") [1%nat])).1 = Raise StructError.
Proof. reflexivity. Qed.

(** * Commands *)

(** [AnalysisEngine]: whether a process was started, and what was put into its queue *)
Record engine := Engine { started : bool; told : list string }.
Definition engine_stop (e : engine) : engine := if started e then Engine false (told e ++ ["stop"]) else e.
Definition engine_pause (e : engine) : engine := if started e then Engine true (told e ++ ["pause"]) else e.
Definition engine_resume (e : engine) : engine := if started e then Engine true (told e ++ ["resume"]) else e.

(** An argument of a command: an identifier of the shared list, or text *)
Inductive arg := Number (n : Z) | Word (s : bytes).
(** What only the analysis looks at *)
Record details := Details {
  corr_id : bytes; controller : option bytes; analysis : option bytes; machine : option bytes; volatility_profile : option bytes;
  submitter : option bytes; ftp_dir : option bytes; sample_doc_id : option bytes; db_analysis_id : option bytes
}.
Record command := Command {
  cmd : string; args : option (list arg); machine_type : option bytes; ftp_ip : option bytes; services_host : option bytes;
  for_analysis : details
}.
Record ctrl := Ctrl {
  analyses : gmap Z engine;                       (* [ANALYSIS_DICT] *)
  schedulers : gmap Z (list (bytes * command));   (* [ANALYSIS_SCHEDULER] with their queues *)
  ftp_ip_physical : option bytes;
  ftp_ip_virtual : option bytes;
  host : option bytes;
  replies : list bytes
}.
Definition set_analyses x c := Ctrl x (schedulers c) (ftp_ip_physical c) (ftp_ip_virtual c) (host c) (replies c).
Definition set_schedulers x c := Ctrl (analyses c) x (ftp_ip_physical c) (ftp_ip_virtual c) (host c) (replies c).
Definition set_replies x c := Ctrl (analyses c) (schedulers c) (ftp_ip_physical c) (ftp_ip_virtual c) (host c) x.
Abbreviation M := (PM ctrl).

Section controller.
(** The identifiers of [ANALYSIS_STATUS['running']] and the lists as they are packed *)
Context (running : list Z) (packed_machines packed_analyses help_text : bytes).

Definition respond (data : bytes) : M unit :=
  if zlen data <? 2 ^ 16 then pm_modify (fun c => set_replies (replies c ++ [data]) c) else pm_raise StructError.
(** [analysis_stop], [analysis_pause] and [analysis_resume] *)
Definition on_analysis (f : engine -> engine) (aid : Z) : M bool :=
  let! d := pm_get analyses in
  match d !! aid with
  | Some e => pm_modify (set_analyses (<[aid := f e]> d)) ;! pm_ret true
  | None => pm_ret false
  end.
Definition int_arg (a : arg) : res Z := match a with Number n => Ret n | Word s => py_int s end.
Fixpoint analysis_loop (f : option (engine -> engine)) (l : list arg) (rtn : bool) : M bool :=
  match l with
  | [] => pm_ret rtn
  | a :: l =>
      let! aid := pm_lift (int_arg a) in
      match f with
      | Some f => let! ok := on_analysis f aid in analysis_loop (Some f) l (rtn && ok)
      | None => analysis_loop None l rtn
      end
  end.
Definition action (cmd : string) : option (engine -> engine) :=
  if bool_decide (cmd = "stop") then Some engine_stop
  else if bool_decide (cmd = "pause") then Some engine_pause
  else if bool_decide (cmd = "resume") then Some engine_resume else None.
Definition command_analysis (c : command) : M bool :=
  let l := match args c with None | Some [] => Number <$> running | Some l => l end in
  analysis_loop (action (cmd c)) l true.
(** [_get_analysis] returns the name of the file written, never a class. *)
Definition command_start (c : command) (tmp_name_file : bytes) : M bool :=
  match machine_type c with
  | None => pm_raise AttributeError
  | Some t =>
      let! t := pm_lift (py_int t) in
      let! ip := pm_get (fun s => if t =? 0 then ftp_ip_physical s else ftp_ip_virtual s) in
      let! h := pm_get host in
      let c := Command (cmd c) (args c) (machine_type c) ip h (for_analysis c) in
      let! q := pm_get schedulers in
      match q !! t with
      | None => pm_raise KeyError
      | Some l => pm_modify (set_schedulers (<[t := l ++ [(tmp_name_file, c)]]> q)) ;! pm_ret true
      end
  end.
(** The command object has a length, that of its text, but no elements. *)
Definition command_list : M bool := pm_raise AttributeError.
Definition command_pickle (c : command) : M bool :=
  let! l := pm_lift (of_option TypeError (args c)) in
  let no_list := respond (lit "ERROR: No such list." ++ [10] ++ lit "   Available lists are: set(['machines', 'analysis'])" ++ [10]) ;! pm_ret false in
  match l with
  | Word w :: _ =>
      if bool_decide (w = lit "machines") then respond packed_machines ;! pm_ret true
      else if bool_decide (w = lit "analysis") then respond packed_analyses ;! pm_ret true
      else no_list
  | _ => no_list
  end.
(** One command of [proccess_input]; an exception other than that of a socket ends the
    controller. *)
Definition proccess_command (c : command) (tmp_name_file : bytes) : M unit :=
  if bool_decide (cmd c = "help") then respond help_text else
  let answer (m : M bool) : M unit := let! rtn := m in respond (if rtn then lit "Success." else lit "Failure.") in
  if bool_decide (cmd c = "start") then answer (command_start c tmp_name_file)
  else if bool_decide (cmd c ∈ ["stop"; "pause"; "resume"]) then answer (command_analysis c)
  else if bool_decide (cmd c = "list") then answer command_list
  else if bool_decide (cmd c = "pickle") then answer (command_pickle c)
  else respond (lit "Invalid Command: ").
Fixpoint proccess_input (cs : list (command * bytes)) : M unit :=
  match cs with
  | [] => pm_ret tt
  | (c, f) :: cs => proccess_command c f ;! proccess_input cs
  end.

Lemma reply_frame data c : analyses (respond data c).2 = analyses c /\ schedulers (respond data c).2 = schedulers c.
Proof. unfold respond. by destruct (zlen data <? 2 ^ 16). Qed.
Lemma empty_loop f l rtn c : analyses c = ∅ -> exists r, analysis_loop f l rtn c = (r, c).
Proof.
  intros He. revert rtn. induction l as [|a l IH]; intros rtn; [by eexists|]. cbn [analysis_loop]. unfold pm_bind, pm_lift.
  destruct (int_arg a) as [aid|]; [|by eexists]. destruct f as [f|]; [|apply IH].
  unfold on_analysis, pm_bind, pm_get. rewrite He, lookup_empty. apply IH.
Qed.
Lemma answered_frame (m : M bool) c : (forall r c', m c = (r, c') -> analyses c' = analyses c) ->
  analyses ((let! rtn := m in respond (if rtn then lit "Success." else lit "Failure.")) c).2 = analyses c.
Proof.
  intros Hm. unfold pm_bind. destruct (m c) as [[b|] c'] eqn:E; [|by eapply Hm].
  change (analyses (respond (if b then lit "Success." else lit "Failure.") c').2 = analyses c).
  destruct (reply_frame (if b then lit "Success." else lit "Failure.") c') as [-> _]. by eapply Hm.
Qed.
Lemma reply_then data (b : bool) s : analyses ((respond data ;! pm_ret b) s).2 = analyses s.
Proof. unfold pm_bind, respond. by destruct (zlen data <? 2 ^ 16). Qed.
Lemma pickle_frame c s : analyses (command_pickle c s).2 = analyses s.
Proof.
  unfold command_pickle. unfold pm_bind at 1, pm_lift. destruct (args c) as [l|]; [|done]. cbn [of_option].
  destruct l as [|[n|w] l]; [apply reply_then|apply reply_then|]. do 2 (case_bool_decide; [apply reply_then|]). apply reply_then.
Qed.
Lemma start_frame c f s : analyses (command_start c f s).2 = analyses s.
Proof.
  unfold command_start, pm_bind, pm_lift, pm_get. destruct (machine_type c) as [t|]; [|done].
  destruct (py_int t) as [z|]; [|done]. by destruct (schedulers s !! z).
Qed.
Lemma command_keeps_empty c f s : analyses s = ∅ -> analyses (proccess_command c f s).2 = ∅.
Proof.
  intros He. rewrite <- He. unfold proccess_command. case_bool_decide; [apply reply_frame|].
  repeat (case_bool_decide; [apply answered_frame; intros r c' Hr|]); try apply reply_frame.
  - pose proof (start_frame c f s) as Hp. by rewrite Hr in Hp.
  - unfold command_analysis in Hr. destruct (empty_loop (action (cmd c)) (match args c with None | Some [] => Number <$> running | Some l => l end) true s He)
      as [r' Hr']. rewrite Hr' in Hr. by injection Hr as <- <-.
  - by injection Hr as <- <-.
  - pose proof (pickle_frame c s) as Hp. by rewrite Hr in Hp.
Qed.
Lemma input_keeps_empty cs s : analyses s = ∅ -> analyses (proccess_input cs s).2 = ∅.
Proof.
  revert s. induction cs as [|[c f] cs IH]; intros s He; [done|]. cbn [proccess_input]. unfold pm_bind.
  pose proof (command_keeps_empty c f s He) as H1. destruct (proccess_command c f s) as [[|] s1]; cbn in *; [by apply IH|done].
Qed.

(** Commands on analyses: no command ever puts an analysis into the controller's
    dictionary, so that after any commands stopping, pausing or resuming analyses named by
    numbers is answered by a failure and tells no analysis anything. *)
Theorem analyses_unreachable cs s c f aids :
  analyses s = ∅ -> (proccess_input cs s).1 = Ret tt ->
  cmd c ∈ ["stop"; "pause"; "resume"] -> args c = Some aids -> aids <> [] -> Forall (fun a => exists n, int_arg a = Ret n) aids ->
  let s1 := (proccess_input cs s).2 in
  analyses s1 = ∅ /\ proccess_command c f s1 = (Ret tt, set_replies (replies s1 ++ [lit "Failure."]) s1).
Proof.
  intros He Hok Hc Ha Hne Hints s1. pose proof (input_keeps_empty cs s He) as He1. fold s1 in He1. split; [done|].
  assert (exists g, action (cmd c) = Some g) as [g Hg]
    by (repeat (apply elem_of_cons in Hc as [->|Hc]; [by eexists|]); by apply elem_of_nil in Hc).
  assert (forall l rtn, Forall (fun a => exists n, int_arg a = Ret n) l ->
    analysis_loop (Some g) l rtn s1 = (Ret (rtn && bool_decide (l = [])), s1)) as Hloop.
  { induction l as [|a l IH]; intros rtn Hl; [by rewrite andb_true_r|]. inversion Hl as [|? ? [n Hn] Hl']; subst.
    cbn [analysis_loop]. unfold pm_bind, pm_lift. rewrite Hn. unfold on_analysis, pm_bind, pm_get. rewrite He1, lookup_empty. cbn.
    rewrite IH by done. by rewrite !andb_false_r. }
  unfold proccess_command. rewrite (bool_decide_true (cmd c ∈ _)) by done.
  rewrite !(bool_decide_false (cmd c = _)) by (intros E; rewrite E in Hc; revert Hc; apply (bool_decide_unpack _); reflexivity).
  unfold pm_bind, command_analysis. rewrite Ha, Hg. destruct aids as [|a aids]; [done|]. rewrite Hloop by done. done.
Qed.
End controller.

Section start.
Context (running : list Z) (packed_machines packed_analyses help_text : bytes).
Local Abbreviation proccess_command := (proccess_command running packed_machines packed_analyses help_text).

(** Starting an analysis: a start command with a machine type for which there is a
    scheduler is answered by success and reaches the end of the queue of that scheduler and
    of no other, with the addresses of the FTP server of its kind of machine and of the services, and otherwise
    as it came. *)
Theorem start_reaches_scheduler c f s t z q :
  cmd c = "start" -> machine_type c = Some t -> py_int t = Ret z -> schedulers s !! z = Some q ->
  exists s', proccess_command c f s = (Ret tt, s') /\
    schedulers s' !! z = Some (q ++ [(f, Command (cmd c) (args c) (machine_type c)
      (if z =? 0 then ftp_ip_physical s else ftp_ip_virtual s) (host s) (for_analysis c))]) /\
    (forall z', z' <> z -> schedulers s' !! z' = schedulers s !! z') /\ replies s' = replies s ++ [lit "Success."].
Proof.
  intros Hc Ht Hz Hq. unfold Controller.proccess_command. rewrite !Hc. rewrite bool_decide_false, bool_decide_true by done.
  unfold pm_bind at 1. unfold command_start, pm_bind, pm_lift, pm_get. rewrite Ht, Hz, Hq. cbn.
  eexists. split; [reflexivity|]. cbn. rewrite Hc. split_and!; [by rewrite lookup_insert_eq| |done..].
  intros z' Hne. by rewrite lookup_insert_ne.
Qed.
(** Commands that end the controller: a start without a machine type, and any list *)
Lemma fatal_commands c f s : cmd c = "list" \/ (cmd c = "start" /\ machine_type c = None) ->
  proccess_command c f s = (Raise AttributeError, s).
Proof.
  unfold Controller.proccess_command, pm_bind, command_start, command_list. intros [->|[-> ->]]; done.
Qed.
End start.

Definition demo_ctrl : ctrl := Ctrl ∅ {[0 := []; 2 := []]} (Some (lit "10.0.0.1")) (Some (lit "10.0.1.1")) None [].
Definition no_details : details := Details [] None None None None None None None None.
Definition demo_start : command := Command "start" (Some []) (Some (lit "2")) None None no_details.
Definition demo_stop : command := Command "stop" (Some [Word (lit "0")]) None None None no_details.
Lemma start_reaches_scheduler_witness :
  exists s', proccess_command [] [] [] [] demo_start (lit "/tmp/A.py") demo_ctrl = (Ret tt, s') /\
    schedulers s' !! 2 = Some ([] ++ [(lit "/tmp/A.py", Command "start" (Some []) (Some (lit "2")) (Some (lit "10.0.1.1")) None no_details)]) /\
    (forall z', z' <> 2 -> schedulers s' !! z' = schedulers demo_ctrl !! z') /\ replies s' = [lit "Success."].
Proof. by apply (start_reaches_scheduler [] [] [] [] demo_start (lit "/tmp/A.py") demo_ctrl (lit "2") 2 []). Defined.
Lemma analyses_unreachable_witness :
  let s1 := (proccess_input [0] [] [] [] [(demo_start, lit "/tmp/A.py")] demo_ctrl).2 in
  analyses s1 = ∅ /\ proccess_command [0] [] [] [] demo_stop [] s1 = (Ret tt, set_replies (replies s1 ++ [lit "Failure."]) s1).
Proof.
  apply (analyses_unreachable [0] [] [] [] [(demo_start, lit "/tmp/A.py")] demo_ctrl demo_stop [] [Word (lit "0")]);
    [done|reflexivity|apply (bool_decide_unpack _); reflexivity|done|done|].
  repeat constructor. by exists 0.
Defined.
