(* ===== verification/Protobuf.v ===== *)
(** Model of [lophi_automation/protobuf/helper.py]: the messages that carry commands, cards, machines,
    analyses and sensor output, and of [volatilty_to_str], [get_hex] and [generate_dict] of
    [lophi/globals.py].  The byte format of a message is that of the generated classes: an interface
    with its law.  Theorems: what is packed is unpacked, machine by machine and cell by cell. *)
From S2P Require Import Prelude PyString.

(** The protocol buffers of a kind of message: [SerializeToString] and [ParseFromString] *)
Class Format (A : Type) := {
  serialize : A -> bytes;
  parse : bytes -> option A;
  parse_serialize : forall x, parse (serialize x) = Some x
}.
(** A dictionary made from the entries of a message, the last entry of a key *)
Definition index {K} `{Countable K} {A} (key : A -> K) (l : list A) : gmap K A := foldl (fun tmp m => <[key m := m]> tmp) ∅ l.

(** * Commands and cards *)

Section commands.
Context `{Format (bytes * list bytes)}.
Definition pack_rabbitmq (cmd : bytes) (args : list bytes) : bytes := serialize (cmd, args).
Definition unpack_rabbitmq (msg_buff : bytes) : option (bytes * list bytes) := parse msg_buff.
End commands.
Record card := Card { c_opcode : Z; c_capability_bitvector : Z; c_ip : bytes }.
Record pcard := PCard { pc_type : Z; pc_card_id : Z; pc_capability_bitvector : Z; pc_ip : bytes; pc_is_registered : bool }.
Definition pack_card (card_id : Z) (c : option card) : pcard :=
  match c with
  | Some c => PCard (c_opcode c) card_id (c_capability_bitvector c) (c_ip c) true
  | None => PCard 0 card_id 0 (lit "0.0.0.0") false
  end.
Section cards.
Context `{Format (list pcard)}.
(** The dictionary in the order Python goes through it *)
Definition pack_card_list (cards : list (Z * option card)) : bytes := serialize ((fun c => pack_card c.1 c.2) <$> cards).
Definition unpack_card_list (buf : bytes) : option (gmap Z pcard) :=
  index pc_card_id ∘ filter (fun c => pc_is_registered c = true) <$> parse buf.
End cards.

(** * Machines and analyses *)

(** A machine of a controller, and what is sent of it *)
Record lmachine := LMachine { lm_name : bytes; lm_type : Z; lm_allocated : option Z; lm_profile : option bytes }.
Record pmachine := PMachine { pm_name : bytes; pm_type : Z; pm_ALLOCATED : Z; pm_profile : bytes }.
Definition pack_machine (m : lmachine) : pmachine :=
  PMachine (lm_name m) (lm_type m) (default (-1) (lm_allocated m)) (default [] (lm_profile m)).
Section machines.
Context `{Format (list pmachine)}.
Definition pack_machine_list (l : list lmachine) : bytes := serialize (pack_machine <$> l).
Definition unpack_machine_list (buf : bytes) : option (gmap bytes pmachine) := index pm_name <$> parse buf.
End machines.
Record panalysis := PAnalysis { pa_id : Z; pa_lophi_name : bytes; pa_machine_type : Z; pa_machine_name : bytes; pa_profile : bytes; pa_created : Z }.
Section analyses.
Context `{Format (list panalysis)}.
(** An analysis that lacks an attribute leaves its entry incomplete, which cannot be serialized. *)
Definition pack_analysis_list (l : list (option panalysis)) : res bytes := match mapM id l with Some l => Ret (serialize l) | None => Raise ValueError end.
Definition unpack_analysis_list (buf : bytes) : option (gmap Z panalysis) := index pa_id <$> parse buf.
End analyses.

(** * Sensor output *)

(** [str(a).decode("latin1").encode("utf8")] *)
Definition utf8_byte (b : Z) : bytes := if b <? 128 then [b] else [192 + b / 64; 128 + b mod 64].
Definition volatilty_to_str (a : bytes) : bytes := concat (utf8_byte <$> a).
Record soutput := SOutput { so_module : bytes; so_sensor : bytes; so_profile : bytes; so_machine : bytes; so_header : list bytes; so_data : list (list bytes) }.
Definition as_text (o : soutput) : soutput :=
  SOutput (so_module o) (so_sensor o) (so_profile o) (so_machine o) (map volatilty_to_str (so_header o)) (map (map volatilty_to_str) (so_data o)).
Section output.
Context `{Format soutput}.
Definition pack_sensor_output (o : soutput) : bytes := serialize (as_text o).
Definition unpack_sensor_output (buf : bytes) : option soutput := parse buf.
End output.
(** "%02X" of every byte *)
Definition get_hex (input_list : bytes) : bytes := concat (HEX2 <$> input_list).
Fixpoint generate_dict_loop (keys : list bytes) (values : list bytes) (rtn : gmap bytes bytes) : res (gmap bytes bytes) :=
  match keys, values with
  | [], _ => Ret rtn
  | _, [] => Raise IndexError
  | k :: keys, v :: values => generate_dict_loop keys values (<[k := v]> rtn)
  end.
Definition generate_dict (keys values : list bytes) : res (gmap bytes bytes) := generate_dict_loop keys values ∅.

(** * Theorems *)

Lemma index_lookup {K} `{Countable K} {A} (key : A -> K) (l : list A) n p : NoDup (key <$> l) ->
  index key l !! n = Some p <-> p ∈ l /\ key p = n.
Proof.
  unfold index. assert (Hgen : forall tmp : gmap K A, NoDup (key <$> l) -> foldl (fun tmp m => <[key m := m]> tmp) tmp l !! n = Some p <->
    (p ∈ l /\ key p = n) \/ (tmp !! n = Some p /\ n ∉ key <$> l)).
  - induction l as [|m l IH]; intros tmp Hnd; cbn [foldl].
    + split; [intros ?; right; split; [done|apply not_elem_of_nil]|]. intros [[?%elem_of_nil _]|[? _]]; done.
    + rewrite fmap_cons, NoDup_cons in Hnd. destruct Hnd as [Hm Hnd]. rewrite (IH _ Hnd), fmap_cons, !elem_of_cons. clear IH. split.
      * intros [[? ?]|[Hp Hn]]; [naive_solver|]. destruct (decide (n = key m)) as [->|Hne].
        -- rewrite lookup_insert_eq in Hp. injection Hp as <-. left. naive_solver.
        -- rewrite lookup_insert_ne in Hp by done. right. split; [done|]. naive_solver.
      * intros [[[->|Hp] <-]|[Hp Hn]]; [right|left; done|right].
        -- by rewrite lookup_insert_eq.
        -- rewrite lookup_insert_ne by naive_solver. naive_solver.
  - intros Hnd. rewrite (Hgen ∅ Hnd), lookup_empty. naive_solver.
Qed.
(** A card is listed at the other side exactly when it is registered. *)
Lemma cards_exchanged `{Format (list pcard)} cards : NoDup cards.*1 ->
  exists m, unpack_card_list (pack_card_list cards) = Some m /\
    forall id p, m !! id = Some p <-> exists c, (id, Some c) ∈ cards /\ p = PCard (c_opcode c) id (c_capability_bitvector c) (c_ip c) true.
Proof.
  intros Hnd. unfold unpack_card_list, pack_card_list. rewrite parse_serialize. eexists. split; [done|]. intros id p. cbn.
  set (l := filter _ _).
  assert (Hl : forall x, x ∈ l <-> exists i c, (i, Some c) ∈ cards /\ x = PCard (c_opcode c) i (c_capability_bitvector c) (c_ip c) true).
  { intros x. unfold l. rewrite list_elem_of_filter, list_elem_of_fmap. split.
    - intros [Hr ([i [c|]] & -> & Hin)]; [|done]. by exists i, c.
    - intros (i & c & Hin & ->). split; [done|]. by exists (i, Some c). }
  rewrite index_lookup.
  - rewrite Hl. split; [intros [(i & c & Hin & ->) <-]; by exists c|]. intros (c & Hin & ->). split; [by exists id, c|done].
  - unfold l. eapply sublist_NoDup; [|apply fmap_sublist, sublist_filter]. rewrite <- list_fmap_compose.
    erewrite (list_fmap_ext _ fst); [exact Hnd|]. by intros i [n [c|]] _.
Qed.
(** Text in ASCII stays as it is. *)
Lemma ascii_kept a : Forall (fun b => b < 128) a -> volatilty_to_str a = a.
Proof.
  induction 1 as [|b a Hb _ IH]; [done|]. unfold volatilty_to_str in *. rewrite fmap_cons. cbn [concat]. rewrite IH. unfold utf8_byte.
  by rewrite (proj2 (Z.ltb_lt _ _)).
Qed.
Fixpoint utf8_decode (u : bytes) : option bytes :=
  match u with
  | [] => Some []
  | b :: u => if b <? 128 then cons b <$> utf8_decode u else
      match u with c :: u => cons ((b - 192) * 64 + (c - 128)) <$> utf8_decode u | [] => None end
  end.
Lemma utf8_decode_encode a : bytes_ok a -> utf8_decode (volatilty_to_str a) = Some a.
Proof.
  induction 1 as [|b a Hb _ IH]; [done|]. unfold volatilty_to_str in *. rewrite fmap_cons. cbn [concat]. unfold utf8_byte at 1.
  destruct (Z.ltb_spec b 128).
  - cbn [app utf8_decode]. rewrite (proj2 (Z.ltb_lt _ _)) by done. by rewrite IH.
  - cbn [app utf8_decode]. rewrite (proj2 (Z.ltb_ge _ _)) by (pose proof (Z.div_pos b 64); lia). rewrite IH. cbn. do 2 f_equal.
    pose proof (Z.div_mod b 64). lia.
Qed.
(** Sensor output survives packing and unpacking: rows and columns stay in place, the names as they are, and
    header and cells as the UTF-8 text of their characters, from which the original bytes can be read. *)
Theorem sensor_output_exchanged `{Format soutput} o : Forall bytes_ok (so_header o) -> Forall (Forall bytes_ok) (so_data o) ->
  exists o', unpack_sensor_output (pack_sensor_output o) = Some o' /\
    so_module o' = so_module o /\ so_sensor o' = so_sensor o /\ so_profile o' = so_profile o /\ so_machine o' = so_machine o /\
    mapM utf8_decode (so_header o') = Some (so_header o) /\ mapM (mapM utf8_decode) (so_data o') = Some (so_data o).
Proof.
  intros Hh Hd. unfold unpack_sensor_output, pack_sensor_output. rewrite parse_serialize. eexists. split; [done|]. cbn.
  assert (Hrow : forall l, Forall bytes_ok l -> mapM utf8_decode (map volatilty_to_str l) = Some l).
  { induction 1 as [|x l Hx _ IH]; [done|]. cbn. by rewrite utf8_decode_encode, IH. }
  split_and!; try done; [by apply Hrow|]. induction Hd as [|r l Hr _ IH]; [done|]. cbn. by rewrite Hrow, IH.
Qed.
(** The master sees of a controller's machines what was packed: by the name of each, its type and profile, and
    its allocation with -1 for none, whatever the byte format, and nothing else. *)
Theorem machine_lists_exchanged `{Format (list pmachine)} (l : list lmachine) :
  NoDup (lm_name <$> l) -> exists machines, unpack_machine_list (pack_machine_list l) = Some machines /\
    forall n p, machines !! n = Some p <-> exists m, m ∈ l /\ n = lm_name m /\
      p = PMachine (lm_name m) (lm_type m) (default (-1) (lm_allocated m)) (default [] (lm_profile m)).
Proof.
  intros Hnd. unfold unpack_machine_list, pack_machine_list. rewrite parse_serialize. eexists. split; [done|]. intros n p. cbn.
  rewrite index_lookup by (by rewrite <- list_fmap_compose). split.
  - intros [Hp <-]. apply list_elem_of_fmap in Hp as (m & -> & Hm). by exists m.
  - intros (m & Hm & -> & ->). split; [|done]. apply list_elem_of_fmap. by exists m.
Qed.
(** A dictionary needs a value for every key. *)
Lemma generate_dict_short keys values : (length values < length keys)%nat -> generate_dict keys values = Raise IndexError.
Proof.
  unfold generate_dict. generalize (∅ : gmap bytes bytes). revert values.
  induction keys as [|k keys IH]; intros [|v values] rtn Hl; cbn in *; try lia; [done|]. apply IH. lia.
Qed.

(** A format for messages that can be numbered: one number for the whole message *)
Definition number_format {A} `{Countable A} : Format A :=
  {| serialize l := [Zpos (encode l)]; parse buf := match buf with [Zpos p] => decode p | _ => None end; parse_serialize l := decode_encode l |}.
#[global] Instance pmachine_eq_dec : EqDecision pmachine.
Proof. solve_decision. Defined.
#[global] Program Instance pmachine_countable : Countable pmachine :=
  inj_countable' (fun m => (pm_name m, pm_type m, pm_ALLOCATED m, pm_profile m)) (fun '(n, t, a, p) => PMachine n t a p) _.
Next Obligation. by intros []. Qed.
#[global] Instance soutput_eq_dec : EqDecision soutput.
Proof. solve_decision. Defined.
#[global] Program Instance soutput_countable : Countable soutput :=
  inj_countable' (fun o => (so_module o, so_sensor o, so_profile o, so_machine o, so_header o, so_data o)) (fun '(a, b, c, d, h, l) => SOutput a b c d h l) _.
Next Obligation. by intros []. Qed.
#[global] Instance machine_numbers : Format (list pmachine) := number_format.
Definition demo_machines : list lmachine := [LMachine (lit "m1") 0 None (Some (lit "WinXP")); LMachine (lit "m2") 2 (Some 7) None].
Lemma machine_lists_exchanged_witness : exists machines, unpack_machine_list (pack_machine_list demo_machines) = Some machines /\
  machines !! lit "m1" = Some (PMachine (lit "m1") 0 (-1) (lit "WinXP")).
Proof.
  destruct (machine_lists_exchanged demo_machines) as (machines & He & Hm); [by apply (bool_decide_unpack _); vm_compute|].
  exists machines. split; [exact He|]. apply Hm. exists (LMachine (lit "m1") 0 None (Some (lit "WinXP"))). split; [apply list_elem_of_here|done].
Defined.
Definition demo_output : soutput := SOutput (lit "pslist") (lit "mem") (lit "WinXP") (lit "m1") [lit "Name"; lit "PID"] [[[233; 101]; lit "4"]].
Lemma sensor_output_exchanged_witness : exists o', @unpack_sensor_output number_format (@pack_sensor_output number_format demo_output) = Some o' /\
  mapM (mapM utf8_decode) (so_data o') = Some [[[233; 101]; lit "4"]].
Proof.
  destruct (@sensor_output_exchanged number_format demo_output) as (o' & He & _ & _ & _ & _ & _ & Hd).
  - repeat constructor; done.
  - repeat constructor; done.
  - exists o'. split; [exact He|exact Hd].
Defined.
