(* ===== verification/Master.v ===== *)
(** Model of the master of [lophi_automation/master.py], of its connections to controllers
    ([configs/controllerconfig.py]) and of the commands between them ([network/command.py]).  The
    controllers are those of [Controller.v], the machine lists those of [Protobuf.v]. *)
From S2P Require Import Prelude PyString Protobuf Controller.

(** * Commands *)

(** A machine type as JSON gives it *)
Inductive mtype := MtInt (z : Z) | MtStr (s : bytes).
#[global] Instance mtype_eq_dec : EqDecision mtype.
Proof. solve_decision. Defined.
Record lcmd := LophiCommand {
  l_corr_id : bytes; l_cmd : string; l_args : list arg; l_controller : option bytes; l_analysis : option bytes;
  l_machine : option bytes; l_machine_type : option mtype; l_volatility_profile : option bytes; l_submitter : option bytes;
  l_ftp_ip : option bytes; l_ftp_dir : option bytes; l_sample_doc_id : option bytes; l_db_analysis_id : option bytes
}.
Definition set_db_analysis_id x (c : lcmd) : lcmd :=
  LophiCommand (l_corr_id c) (l_cmd c) (l_args c) (l_controller c) (l_analysis c) (l_machine c) (l_machine_type c) (l_volatility_profile c)
    (l_submitter c) (l_ftp_ip c) (l_ftp_dir c) (l_sample_doc_id c) x.
(** The command as the controller reads it, with all fields; [int(machine_type)] takes numbers and text.  The services
    host is no field of a new command. *)
Definition type_text (t : mtype) : bytes := match t with MtInt z => dec z | MtStr s => s end.
Definition to_command (c : lcmd) : command :=
  Command (l_cmd c) (Some (l_args c)) (type_text <$> l_machine_type c) (l_ftp_ip c) None
    (Details (l_corr_id c) (l_controller c) (l_analysis c) (l_machine c) (l_volatility_profile c) (l_submitter c) (l_ftp_dir c)
      (l_sample_doc_id c) (l_db_analysis_id c)).
(** A new command of the master, whose identifier no one looks at *)
Definition pickle_machines : command :=
  Command "pickle" (Some [Word (lit "machines")]) None None None (Details [] None None None None None None None None).

(** * Connections *)

(** A controller, as long as it runs, with its machines and running analyses, and the replies that
    were not read yet *)
Record link := Link { k_ctrl : option ctrl; k_machines : list lmachine; k_running : list Z; k_unread : list bytes; c_machines : gmap bytes pmachine }.
Definition set_unread x k := Link (k_ctrl k) (k_machines k) (k_running k) x (c_machines k).
Definition set_machines x k := Link (k_ctrl k) (k_machines k) (k_running k) (k_unread k) x.

Section connection.
Context `{Format (list pmachine)} (help_text packed_analyses : bytes).

(** The controller gets a command (and a script, written to [file]); an exception ends it. *)
Definition deliver (c : command) (file : bytes) : PM link unit := fun k =>
  match k_ctrl k with
  | None => (Ret tt, k)
  | Some s =>
      let '(r, s') := proccess_command (k_running k) (pack_machine_list (k_machines k)) packed_analyses help_text c file s in
      let new := drop (length (replies s)) (replies s') in
      (Ret tt, Link (match r with Ret _ => Some s' | Raise _ => None end) (k_machines k) (k_running k) (k_unread k ++ new) (c_machines k))
  end.
(** [read_socket_data] blocks until a reply comes; nothing comes from a controller that ended. *)
Definition read_reply : PM link (option bytes) := fun k =>
  match k_unread k, k_ctrl k with
  | m :: rest, _ => (Ret (Some m), set_unread rest k)
  | [], None => (Ret None, k)
  | [], Some _ => (Raise Diverges, k)
  end.
(** Without an answer the connection is tried again for ever. *)
Definition send_cmd (c : command) : PM link bytes :=
  deliver c [] ;!
  let! status := read_reply in
  match status with Some m => pm_ret m | None => pm_raise Diverges end.
Definition cc_get_machines : PM link (option bytes) :=
  let! data := send_cmd pickle_machines in
  let! status := read_reply in
  match unpack_machine_list data with
  | Some machines => pm_modify (set_machines machines) ;! pm_ret status
  | None => pm_raise Diverges
  end.
(** A script that is too long for a message is sent again for ever. *)
Definition send_analysis (script : bytes) (c : command) : PM link (option bytes) :=
  if zlen script <? 2 ^ 16 then deliver c script ;! read_reply else pm_raise Diverges.
End connection.

(** * The master *)

Inductive answer :=
  | NoSuchList | Listing (l : list bytes) | NoAnalysisName | NoSuchAnalysis | NoSuchController
  | NoControllers (z : Z) | Started | Sent (cmd : string) | Splash | NoAnswer | InvalidCommand (cmd : string).
(** A response: the identifier of the command and the answer; put into the queue as text or as an object *)
Record lresponse := LophiResponse { rs_corr_id : bytes; rs_message : answer; rs_text : bool }.
Record master := Master { config_list : list (bytes * link); out_queue : list lresponse }.
Abbreviation MM := (PM master).
Definition set_links x (s : master) := Master x (out_queue s).
Definition put_response r (s : master) := Master (config_list s) (out_queue s ++ [r]).

Section master.
Context `{Format (list pmachine)} (help_text packed_analyses : bytes).
(** The analysis scripts found: the machine type of the class, the file and its text; the directory; a controller as text;
    the database's new identifier; [random.randint(0, n - 1)] *)
Context (analysis_list : gmap bytes (option Z * bytes * bytes)) (analysis_directory : bytes) (controller_text : bytes -> bytes) (create_analysis : bytes -> lcmd -> bytes) (randint : nat -> nat).

(** A call on the connection at position [i] *)
Definition on_link {A} (i : nat) (m : PM link A) : MM A := fun s =>
  match config_list s !! i with
  | Some (name, k) => let '(r, k') := m k in (r, set_links (<[i := (name, k')]> (config_list s)) s)
  | None => (Raise KeyError, s)
  end.
Fixpoint on_links {A} (l : list nat) (m : PM link A) : MM unit :=
  match l with [] => pm_ret tt | i :: l => on_link i m ;! on_links l m end.
Definition all_links (s : master) : list nat := seq 0 (length (config_list s)).
(** [%s] of a machine type, one of the small numbers of [MACHINE_TYPES] *)
Definition machine_line (m : pmachine) : bytes := lit " [" ++ pm_name m ++ lit "] Type: " ++ dec (pm_type m) ++ lit ", Profile: " ++ pm_profile m.
Definition machine_lines (s : master) : list bytes :=
  concat ((fun nk => [lit "--- " ++ nk.1] ++ (machine_line ∘ snd <$> map_to_list (c_machines nk.2)) ++ [lit "--- " ++ nk.1]) <$> config_list s).
Definition controller_lines (s : master) : list bytes :=
  if bool_decide (config_list s = []) then [lit "No controllers are configured."]
  else [lit "--- Available Controllers"] ++ (controller_text ∘ fst <$> config_list s) ++ [lit "--- Available Controllers"].
Definition analysis_lines : list bytes :=
  match map_to_list analysis_list with
  | [] => [lit "No analysis scripts found in " ++ analysis_directory ++ lit "."]
  | l => (fun a => [10] ++ lit "[" ++ a.1 ++ lit "] " ++ a.2.1.2) <$> l
  end.
Definition command_list (c : lcmd) : MM answer :=
  match l_args c with
  | Word w :: _ =>
      if bool_decide (w = lit "machines") then
        let! links := pm_get all_links in
        on_links links (cc_get_machines help_text packed_analyses) ;!
        pm_get (fun s => Listing (machine_lines s))
      else if bool_decide (w = lit "controllers") then pm_get (fun s => Listing (controller_lines s))
      else if bool_decide (w = lit "analysis") then pm_ret (Listing analysis_lines)
      else pm_ret NoSuchList
  | _ => pm_ret NoSuchList
  end.
Definition link_named (name : bytes) (s : master) : option nat := fst <$> list_find (fun nk => nk.1 = name) (config_list s).
(** The positions of the controllers, once for every machine of the type *)
Definition matching_controllers (t : option mtype) (s : master) : list nat :=
  concat (imap (fun i nk => (fun _ => i) <$> filter (fun m => t = Some (MtInt (pm_type m))) (snd <$> map_to_list (c_machines nk.2))) (config_list s)).
Definition command_start (c : lcmd) : MM answer :=
  match l_analysis c with
  | None => pm_ret NoAnalysisName
  | Some a =>
      match analysis_list !! a with
      | None => pm_ret NoSuchAnalysis
      | Some (class_type, _, script) =>
          let! known := pm_get (fun s => match l_controller c with Some n => bool_decide (is_Some (link_named n s)) | None => true end) in
          if negb known then pm_ret NoSuchController else
          let c := match l_sample_doc_id c with
                   | Some d => set_db_analysis_id (Some (create_analysis d c)) c
                   | None => c
                   end in
          match l_controller c with
          | Some n =>
              let! i := (fun s => (of_option KeyError (link_named n s), s)) in
              on_link i (send_analysis help_text packed_analyses script (to_command c)) ;! pm_ret Started
          | None =>
              let t := match l_machine_type c with Some t => Some t | None => MtInt <$> class_type end in
              let! links := pm_get all_links in
              on_links links (cc_get_machines help_text packed_analyses) ;!
              let! controllers := pm_get (matching_controllers t) in
              match controllers with
              | [] => match t with Some (MtInt z) => pm_ret (NoControllers z) | _ => pm_raise TypeError end
              | _ =>
                  let! i := pm_lift (of_option IndexError (controllers !! randint (length controllers))) in
                  on_link i (send_analysis help_text packed_analyses script (to_command c)) ;! pm_ret Started
              end
          end
      end
  end.
(** How many machines of each controller fit a profile and a type; nothing calls it. *)
Definition fitting (config : option (bytes * Z)) (m : pmachine) : bool :=
  match config with
  | None => true
  | Some (profile, type) => bool_decide (pm_profile m = profile) && (pm_ALLOCATED m <? 0) && (pm_type m =? type)
  end.
Definition get_machines (config : option (bytes * Z)) : MM (option (list (bytes * nat))) :=
  let! links := pm_get all_links in
  on_links links (cc_get_machines help_text packed_analyses) ;!
  let! machines := pm_get (fun s => filter (fun cn => cn.2 <> 0%nat)
    ((fun nk => (nk.1, length (filter (fun m => fitting config m = true) (snd <$> map_to_list (c_machines nk.2))))) <$> config_list s)) in
  pm_ret (if bool_decide (machines = []) then None else Some machines).
Definition command_abstract (c : lcmd) : MM answer :=
  let! links := pm_get all_links in
  on_links links (send_cmd help_text packed_analyses (to_command c)) ;! pm_ret (Sent (l_cmd c)).
Definition COMMANDS : list (string * (lcmd -> MM answer)) :=
  [("start", command_start); ("list", command_list); ("pause", command_abstract); ("resume", command_abstract);
   ("splash", fun _ => pm_ret Splash); ("update hw", fun _ => pm_ret NoAnswer); ("stop", command_abstract);
   ("die", command_abstract); ("attach", command_abstract); ("execute", command_abstract)].
Definition process_cmd (f : lcmd -> MM answer) (c : lcmd) : MM unit :=
  let! resp := f c in pm_modify (put_response (LophiResponse (l_corr_id c) resp true)).
(** One message of the queue; [None] is a message that is not a command *)
Definition master_step (user_input : option lcmd) : MM unit :=
  match user_input with
  | None => pm_ret tt
  | Some c =>
      match snd <$> List.find (fun kf => String.eqb kf.1 (l_cmd c)) COMMANDS with
      | None => pm_modify (put_response (LophiResponse (l_corr_id c) (InvalidCommand (l_cmd c)) false))
      | Some f => process_cmd f c
      end
  end.
Fixpoint master_loop (inputs : list (option lcmd)) : MM unit :=
  match inputs with [] => pm_ret tt | i :: inputs => master_step i ;! master_loop inputs end.
End master.
