(* ===== verification/MasterTheorems.v ===== *)
(** Theorems on the master and its controllers: every reply of a controller is read by the call it
    answers, every command gets one response, a typed start command reaches the right scheduler of a
    controller with such a machine, and one without a type ends the controller that gets it. *)
From stdpp Require Import gmap.
From S2P Require Import Prelude PyString Protobuf Controller Master.

Section theorems.
Context `{Format (list pmachine)} (help_text packed_analyses : bytes).

Lemma unpack_pack l : unpack_machine_list (pack_machine_list l) = Some (index pm_name (pack_machine <$> l)).
Proof. unfold unpack_machine_list, pack_machine_list. by rewrite parse_serialize. Qed.

(** * Replies *)

Lemma respond_ok data s : zlen data < 2 ^ 16 -> respond data s = (Ret tt, set_replies (replies s ++ [data]) s).
Proof. intros Hd. unfold respond. by rewrite (proj2 (Z.ltb_lt _ _)). Qed.
Lemma respond_spec data s : respond data s = (Ret tt, set_replies (replies s ++ [data]) s) \/ respond data s = (Raise StructError, s).
Proof. unfold respond. destruct (zlen data <? 2 ^ 16); [by left|by right]. Qed.
Lemma loop_replies f l : forall rtn s, replies (analysis_loop f l rtn s).2 = replies s.
Proof.
  induction l as [|a l IH]; intros rtn s; [done|]. cbn [analysis_loop]. unfold pm_bind, pm_lift. destruct (int_arg a) as [aid|]; [|done].
  destruct f as [f|]; [|apply IH]. unfold on_analysis, pm_bind, pm_get, pm_modify. destruct (analyses s !! aid); cbn; by rewrite IH.
Qed.
Lemma start_replies c f s : replies (Controller.command_start c f s).2 = replies s.
Proof.
  unfold Controller.command_start, pm_bind, pm_lift, pm_get. destruct (machine_type c) as [t|]; [|done].
  destruct (py_int t) as [z|]; [|done]. by destruct (schedulers s !! z).
Qed.
(** A command is answered once, or ends the controller without an answer. *)
Definition answered_once (s : ctrl) (o : res unit * ctrl) : Prop :=
  (exists r, o.1 = Ret tt /\ replies o.2 = replies s ++ [r]) \/ (exists e, o.1 = Raise e /\ replies o.2 = replies s).
Lemma respond_once data s s0 : replies s = replies s0 -> answered_once s0 (respond data s).
Proof. intros He. destruct (respond_spec data s) as [->| ->]; [left; exists data|right; eexists]; (split; [done|]); cbn; congruence. Qed.
Lemma answer_once (m : PM ctrl bool) s : replies (m s).2 = replies s ->
  answered_once s ((let! rtn := m in respond (if rtn then lit "Success." else lit "Failure.")) s).
Proof. intros Hm. unfold pm_bind. destruct (m s) as [[b|e] s1]; [by apply respond_once|]. right. by exists e. Qed.
Lemma command_once running packed c f s : cmd c <> "pickle" ->
  answered_once s (proccess_command running packed packed_analyses help_text c f s).
Proof.
  intros Hc. unfold proccess_command. case_bool_decide; [by apply respond_once|]. case_bool_decide; [apply answer_once, start_replies|].
  case_bool_decide; [apply answer_once, loop_replies|]. case_bool_decide; [by apply answer_once|].
  rewrite bool_decide_false by done. by apply respond_once.
Qed.
Lemma pickle_twice running packed f s : zlen packed < 2 ^ 16 ->
  proccess_command running packed packed_analyses help_text pickle_machines f s = (Ret tt, set_replies (replies s ++ [packed; lit "Success."]) s).
Proof.
  intros Hp. unfold proccess_command. cbn [cmd pickle_machines]. rewrite !bool_decide_false by (done || (apply (bool_decide_unpack _); reflexivity)).
  rewrite bool_decide_true by done. unfold pm_bind at 1. unfold command_pickle. cbn [args pickle_machines]. unfold pm_bind at 1, pm_lift. cbn [of_option].
  rewrite bool_decide_true by done. unfold pm_bind. rewrite respond_ok by done. cbn [pm_ret].
  rewrite respond_ok by done. unfold set_replies. cbn [replies Controller.analyses Controller.schedulers ftp_ip_physical ftp_ip_virtual host].
  by rewrite <- app_assoc.
Qed.

(** * Connections *)

Definition idle (k : link) : Prop := k_unread k = [].
Lemma deliver_once c f k : cmd c <> "pickle" -> idle k -> exists k', deliver help_text packed_analyses c f k = (Ret tt, k') /\
  ((exists r, k_unread k' = [r] /\ is_Some (k_ctrl k')) \/ (k_unread k' = [] /\ k_ctrl k' = None)).
Proof.
  intros Hc Hk. unfold deliver. destruct (k_ctrl k) as [s|] eqn:Hs; [|by eexists; split; [|right]].
  pose proof (command_once (k_running k) (pack_machine_list (k_machines k)) c f s Hc) as Ho.
  destruct (proccess_command _ _ _ _ c f s) as [r s']. eexists. split; [done|]. cbn. rewrite Hk.
  destruct Ho as [(m & Hr & Hm)|(e & Hr & Hm)]; cbn in Hr, Hm; rewrite Hr, Hm.
  - left. exists m. rewrite drop_app_length. split; [done|by eexists].
  - right. by rewrite drop_all.
Qed.
(** A read after a command finds its answer, or the end of the connection. *)
Lemma exchange_idle c f k : cmd c <> "pickle" -> idle k ->
  exists m k', (deliver help_text packed_analyses c f ;! read_reply) k = (Ret m, k') /\ idle k' /\ (m = None <-> k_ctrl k' = None).
Proof.
  intros Hc Hk. destruct (deliver_once c f k Hc Hk) as (k' & Hd & Hk'). unfold pm_bind. rewrite Hd. unfold read_reply.
  destruct Hk' as [(r & -> & [s Hs])|[Hu Hs]].
  - eexists _, _. split; [done|]. split; [done|]. cbn. by rewrite Hs.
  - rewrite Hu, Hs. eexists _, _. by split.
Qed.
Lemma send_cmd_idle c : cmd c <> "pickle" -> preserves idle (send_cmd help_text packed_analyses c).
Proof.
  intros Hc k Hk. destruct (exchange_idle c [] k Hc Hk) as (m & k' & He & Hi & _). unfold send_cmd. unfold pm_bind in *.
  destruct (deliver help_text packed_analyses c [] k) as [[] k1]; [|done]. rewrite He. by destruct m.
Qed.
Lemma send_analysis_idle script c : cmd c <> "pickle" -> preserves idle (send_analysis help_text packed_analyses script c).
Proof.
  intros Hc k Hk. unfold send_analysis. destruct (_ <? _); [|done]. destruct (exchange_idle c script k Hc Hk) as (m & k' & -> & Hi & _). done.
Qed.
(** The connection after its machines were asked for *)
Definition refreshed (k : link) : link :=
  Link ((fun s => set_replies (replies s ++ [pack_machine_list (k_machines k); lit "Success."]) s) <$> k_ctrl k) (k_machines k) (k_running k)
    (k_unread k) (index pm_name (pack_machine <$> k_machines k)).
Definition list_fits (k : link) : Prop := zlen (pack_machine_list (k_machines k)) < 2 ^ 16.
Lemma get_machines_refreshed k : idle k -> is_Some (k_ctrl k) -> list_fits k ->
  cc_get_machines help_text packed_analyses k = (Ret (Some (lit "Success.")), refreshed k).
Proof.
  intros Hk [s Hs] Hf. unfold cc_get_machines, send_cmd, pm_bind, deliver. rewrite Hs, pickle_twice by done. cbn [replies set_replies].
  rewrite drop_app_length, Hk. cbn. rewrite unpack_pack. unfold refreshed, set_unread. by rewrite Hs, Hk.
Qed.
Lemma get_machines_idle : preserves idle (cc_get_machines help_text packed_analyses).
Proof.
  intros k Hk. destruct (k_ctrl k) as [s|] eqn:Hs.
  - destruct (Z.lt_ge_cases (zlen (pack_machine_list (k_machines k))) (2 ^ 16)) as [Hf|Hf].
    + rewrite get_machines_refreshed by (done || by eexists). done.
    + unfold cc_get_machines, send_cmd, pm_bind, deliver. rewrite Hs.
      assert (He : proccess_command (k_running k) (pack_machine_list (k_machines k)) packed_analyses help_text pickle_machines [] s = (Raise StructError, s)).
      { unfold proccess_command. cbn [cmd pickle_machines]. rewrite !bool_decide_false by (done || (apply (bool_decide_unpack _); reflexivity)).
        rewrite bool_decide_true by done. unfold pm_bind, command_pickle. cbn [args pickle_machines]. unfold pm_bind, pm_lift. cbn [of_option].
        rewrite bool_decide_true by done. unfold respond. by rewrite (proj2 (Z.ltb_ge _ _)). }
      rewrite He, drop_all, app_nil_r. unfold read_reply. cbn. by rewrite Hk.
  - unfold cc_get_machines, send_cmd, pm_bind, deliver, read_reply. rewrite Hs. unfold idle in *. rewrite Hk, Hs. exact Hk.
Qed.
(** A controller that ended is waited for in vain. *)
Lemma ended_controller_hangs k : idle k -> k_ctrl k = None -> cc_get_machines help_text packed_analyses k = (Raise Diverges, k).
Proof. unfold idle. intros Hk Hs. unfold cc_get_machines, send_cmd, pm_bind, deliver, read_reply. by rewrite Hs, Hk, Hs. Qed.

(** * The master *)

Context (analysis_list : gmap bytes (option Z * bytes * bytes)) (analysis_directory : bytes) (controller_text : bytes -> bytes)
  (create_analysis : bytes -> lcmd -> bytes) (randint : nat -> nat).
Local Abbreviation master_step := (master_step help_text packed_analyses analysis_list analysis_directory controller_text create_analysis randint).
Local Abbreviation master_loop := (master_loop help_text packed_analyses analysis_list analysis_directory controller_text create_analysis randint).
Local Abbreviation COMMANDS := (COMMANDS help_text packed_analyses analysis_list analysis_directory controller_text create_analysis randint).
Local Abbreviation command_start := (Master.command_start help_text packed_analyses analysis_list create_analysis randint).

(** A property of the master that the calls on its connections keep is kept by every command. *)
Definition link_invariant (I : master -> Prop) : Prop :=
  (forall i script c, cmd c <> "pickle" -> preserves I (on_link i (send_analysis help_text packed_analyses script c))) /\
  (forall i c, cmd c <> "pickle" -> preserves I (on_link i (send_cmd help_text packed_analyses c))) /\
  (forall i, preserves I (on_link i (cc_get_machines help_text packed_analyses))).
Section invariant.
Context (I : master -> Prop) (HI : link_invariant I).
Lemma on_links_keep {A} l (m : PM link A) : (forall i, preserves I (on_link i m)) -> preserves I (on_links l m).
Proof. intros Hm. induction l as [|i l IH]; cbn [on_links]; [apply preserves_ret|]. apply preserves_bind; [by apply Hm|]. by intros _. Qed.
Lemma start_keeps c : l_cmd c <> "pickle" -> preserves I (command_start c).
Proof.
  destruct HI as (Hsend & _ & Hget).
  intros Hc. unfold Master.command_start. destruct (l_analysis c) as [a|]; [|apply preserves_ret].
  destruct (analysis_list !! a) as [[[class_type file] script]|]; [|apply preserves_ret]. apply preserves_bind; [apply preserves_get|].
  intros known. apply preserves_if; [apply preserves_ret|]. set (c' := match l_sample_doc_id c with Some _ => _ | None => _ end).
  assert (Hc' : cmd (to_command c') <> "pickle") by (unfold c'; by destruct (l_sample_doc_id c)). clearbody c'.
  assert (Hs : forall i, preserves I (on_link i (send_analysis help_text packed_analyses script (to_command c')) ;! pm_ret Started)).
  { intros i. apply preserves_bind; [by apply Hsend|]. intros _. apply preserves_ret. }
  destruct (l_controller c') as [n|].
  - apply preserves_bind; [|apply Hs]. intros s H0. cbn. by destruct (of_option _ _).
  - apply preserves_bind; [apply preserves_get|]. intros links. apply preserves_bind; [by apply on_links_keep|]. intros _.
    apply preserves_bind; [apply preserves_get|]. intros [|i controllers].
    + repeat case_match; first [apply preserves_ret|apply preserves_raise].
    + apply preserves_bind; [apply preserves_lift|apply Hs].
Qed.
Lemma abstract_keeps c : l_cmd c <> "pickle" -> preserves I (command_abstract help_text packed_analyses c).
Proof.
  destruct HI as (_ & Hcmd & _). intros Hc. apply preserves_bind; [apply preserves_get|]. intros links.
  apply preserves_bind; [apply on_links_keep; intros i; by apply Hcmd|]. intros _. apply preserves_ret.
Qed.
Lemma list_keeps c : preserves I (command_list help_text packed_analyses analysis_list analysis_directory controller_text c).
Proof.
  destruct HI as (_ & _ & Hget). unfold command_list. destruct (l_args c) as [|[n|w] l]; try apply preserves_ret. case_bool_decide.
  - apply preserves_bind; [apply preserves_get|]. intros links. apply preserves_bind; [by apply on_links_keep|]. intros _. apply preserves_get.
  - repeat (case_bool_decide; [first [apply preserves_get|apply preserves_ret]|]). apply preserves_ret.
Qed.
Lemma command_keeps c f : snd <$> List.find (fun kf => String.eqb kf.1 (l_cmd c)) COMMANDS = Some f -> preserves I (f c).
Proof.
  intros Hf. apply fmap_Some in Hf as ([k g] & Hfind & ->). apply List.find_some in Hfind as [Hin Heq%String.eqb_eq]. cbn in Heq. subst k.
  apply list_elem_of_In in Hin. unfold Master.COMMANDS in Hin. cbn [snd].
  repeat (apply elem_of_cons in Hin as [Hin|Hin]; [injection Hin as Hk ->;
    first [apply start_keeps; by rewrite Hk|apply list_keeps|apply abstract_keeps; by rewrite Hk|apply preserves_ret]|]).
  by apply elem_of_nil in Hin.
Qed.
End invariant.

(** Every reply that was sent has been read. *)
Definition all_idle (s : master) : Prop := Forall (fun nk => idle nk.2) (config_list s).
Lemma on_link_idle {A} i (m : PM link A) : preserves idle m -> preserves all_idle (on_link i m).
Proof.
  intros Hm s Hs. unfold on_link. destruct (config_list s !! i) as [[name k]|] eqn:Hi; [|done].
  assert (Hk : idle k) by (by apply (proj1 (Forall_lookup _ _) Hs i (name, k))). specialize (Hm k Hk). destruct (m k) as [r k'].
  assert (idle k') by (by destruct r). assert (all_idle (set_links (<[i := (name, k')]> (config_list s)) s)) by (by apply Forall_insert).
  by destruct r.
Qed.
Lemma idle_invariant : link_invariant all_idle.
Proof.
  split_and!; intros; apply on_link_idle; [by apply send_analysis_idle|by apply send_cmd_idle|apply get_machines_idle].
Qed.
(** Whatever commands come in, the master and its controllers stay in step: the master never leaves a
    reply of a controller unread, so that no later call can take it for its own. *)
Theorem replies_matched inputs s : Forall (fun nk => k_unread nk.2 = []) (config_list s) ->
  Forall (fun nk => k_unread nk.2 = []) (config_list (master_loop inputs s).2).
Proof.
  revert s. induction inputs as [|i inputs IH]; intros s Hs; cbn [Master.master_loop]; [done|]. unfold pm_bind.
  assert (H1 : preserves all_idle (master_step i)).
  { unfold Master.master_step. destruct i as [c|]; [|apply preserves_ret].
    destruct (snd <$> List.find _ COMMANDS) as [f|] eqn:Hf; [|by apply preserves_modify].
    apply preserves_bind; [by eapply command_keeps; [apply idle_invariant|]|]. intros a. by apply preserves_modify. }
  specialize (H1 s Hs). destruct (master_step i s) as [[[]|e] s1]; [by apply IH|done].
Qed.

Lemma out_invariant q : link_invariant (fun s => out_queue s = q).
Proof.
  assert (Ho : forall A i (m : PM link A), preserves (fun s => out_queue s = q) (on_link i m)).
  { intros A i m s Hs. unfold on_link. destruct (config_list s !! i) as [[name k]|]; [|done]. by destruct (m k) as [[] k']. }
  split_and!; intros; apply Ho.
Qed.
Lemma step_response i s s' : master_step i s = (Ret tt, s') ->
  exists q, out_queue s' = out_queue s ++ q /\ rs_corr_id <$> q = match i with Some c => [l_corr_id c] | None => [] end.
Proof.
  unfold Master.master_step. destruct i as [c|].
  - destruct (snd <$> List.find _ COMMANDS) as [f|] eqn:Hf.
    + unfold process_cmd, pm_bind. pose proof (command_keeps _ (out_invariant (out_queue s)) c f Hf s eq_refl) as Ho.
      destruct (f c s) as [[a|] s1]; [|done]. intros [= <-]. eexists. cbn. rewrite Ho. by split.
    + intros [= <-]. eexists. by split.
  - intros [= <-]. exists []. by rewrite app_nil_r.
Qed.
(** As long as the master runs, every command it reads is answered once and in order, by a response with
    the identifier of the command, and messages that are no commands are not answered. *)
Theorem one_response inputs s s' : master_loop inputs s = (Ret tt, s') ->
  exists q, out_queue s' = out_queue s ++ q /\ rs_corr_id <$> q = omap (fmap l_corr_id) inputs.
Proof.
  revert s. induction inputs as [|i inputs IH]; intros s; cbn [Master.master_loop].
  - intros [= <-]. exists []. by rewrite app_nil_r.
  - unfold pm_bind. destruct (master_step i s) as [[[]|] s1] eqn:Hi; [|done]. intros Hl.
    destruct (step_response i s s1 Hi) as (q1 & Hq1 & Hc1). destruct (IH s1 Hl) as (q2 & Hq2 & Hc2).
    exists (q1 ++ q2). rewrite Hq2, Hq1, app_assoc, fmap_app, Hc1, Hc2. split; [done|]. by destruct i.
Qed.

(** * Starting an analysis *)

Lemma on_links_refresh l s (pre : list (bytes * link)) : config_list s = pre ++ l ->
  Forall (fun nk => idle nk.2 /\ is_Some (k_ctrl nk.2) /\ list_fits nk.2) l ->
  on_links (seq (length pre) (length l)) (cc_get_machines help_text packed_analyses) s =
    (Ret tt, set_links (pre ++ (prod_map id refreshed <$> l)) s).
Proof.
  revert s pre. induction l as [|[name k] l IH]; intros s pre Hs Hl; cbn [length seq on_links].
  - destruct s. cbn in *. by subst.
  - apply Forall_cons in Hl as [(Hi & Hc & Hf) Hl]. unfold pm_bind, on_link. rewrite Hs, list_lookup_middle by done.
    rewrite get_machines_refreshed by done. rewrite insert_app_r_alt, Nat.sub_diag by lia. cbn [list_insert insert].
    specialize (IH (set_links (pre ++ (name, refreshed k) :: l) s) (pre ++ [(name, refreshed k)])).
    rewrite length_app, Nat.add_1_r in IH. rewrite IH; [|by rewrite <- app_assoc|done]. by rewrite <- app_assoc.
Qed.
Lemma elem_of_concat {A} (x : A) (ll : list (list A)) : x ∈ concat ll <-> exists l, l ∈ ll /\ x ∈ l.
Proof.
  rewrite list_elem_of_In, in_concat. by setoid_rewrite list_elem_of_In.
Qed.
(** A controller that can be used: connected, with machines of distinct names *)
Definition ready (k : link) : Prop := idle k /\ is_Some (k_ctrl k) /\ list_fits k /\ NoDup (lm_name <$> k_machines k).
Lemma matching_controllers_spec z (l : list (bytes * link)) s i : config_list s = prod_map id refreshed <$> l -> Forall (fun nk => ready nk.2) l ->
  i ∈ matching_controllers (Some (MtInt z)) s <-> exists nk, l !! i = Some nk /\ Exists (fun m => lm_type m = z) (k_machines nk.2).
Proof.
  intros Hs Hl. unfold matching_controllers. rewrite Hs, elem_of_concat. setoid_rewrite elem_of_lookup_imap.
  assert (Hin : forall nk, nk ∈ l -> (exists m, m ∈ filter (fun m => Some (MtInt z) = Some (MtInt (pm_type m))) (snd <$> map_to_list (c_machines (refreshed nk.2)))) <->
      Exists (fun m => lm_type m = z) (k_machines nk.2)).
  { intros nk Hnk. rewrite Forall_forall in Hl. destruct (Hl nk Hnk) as (_ & _ & _ & Hnd). setoid_rewrite list_elem_of_filter.
    assert (Hnd' : NoDup (pm_name <$> (pack_machine <$> k_machines nk.2))) by (rewrite <- list_fmap_compose; exact Hnd).
    setoid_rewrite list_elem_of_fmap. rewrite Exists_exists. split.
    - intros (m & [= Hz] & ([n m'] & -> & Hm%elem_of_map_to_list)). cbn in Hm. apply (index_lookup pm_name _ n m' Hnd') in Hm as [Hm _].
      apply list_elem_of_fmap in Hm as (m & -> & Hm). by exists m.
    - intros (m & Hm & Hz). exists (pack_machine m). split; [by rewrite <- Hz|]. exists (lm_name m, pack_machine m). split; [done|].
      apply elem_of_map_to_list. apply (index_lookup pm_name _ _ _ Hnd'). split; [|done]. apply list_elem_of_fmap. by exists m. }
  split.
  - intros (x & (j & nk & -> & Hj) & Hi). rewrite list_lookup_fmap in Hj. apply fmap_Some in Hj as (nk' & Hj & ->).
    apply list_elem_of_fmap in Hi as (m & -> & Hm). exists nk'. split; [done|]. apply Hin; [by eapply list_elem_of_lookup_2|]. by exists m.
  - intros (nk & Hi & He). apply Hin in He as [m Hm]; [|by eapply list_elem_of_lookup_2]. eexists. split.
    + exists i, (prod_map id refreshed nk). split; [reflexivity|]. by rewrite list_lookup_fmap, Hi.
    + apply list_elem_of_fmap. by exists m.
Qed.
Lemma byte_arg_parsed z : byte_ok z -> py_int (dec z) = Ret z.
Proof.
  intros Hz. pose proof (all_bytes (fun z => match py_int (dec z) with Ret x => x =? z | Raise _ => false end) ltac:(by vm_compute) z Hz) as H0.
  cbn in H0. destruct (py_int (dec z)); [|done]. by apply Z.eqb_eq in H0 as ->.
Qed.
Definition has_type (z : Z) (k : link) : Prop := Exists (fun m => lm_type m = z) (k_machines k).
Section start.
Context (c : lcmd) (a file script : bytes) (class_type : option Z) (z : Z) (s : master).
Context (is_start : l_cmd c = "start") (named : l_analysis c = Some a) (known : analysis_list !! a = Some (class_type, file, script)).
Context (any_controller : l_controller c = None) (fits : zlen script < 2 ^ 16) (random_ok : forall n, (0 < n)%nat -> (randint n < n)%nat).
Context (links_ready : Forall (fun nk => ready nk.2) (config_list s)) (exists_machine : Exists (fun nk => has_type z nk.2) (config_list s)).
Context (type_wanted : match l_machine_type c with Some t => Some t | None => MtInt <$> class_type end = Some (MtInt z)).

(** The command with the identifier of its database entry *)
Definition stored : lcmd :=
  match l_sample_doc_id c with
  | Some d => set_db_analysis_id (Some (create_analysis d c)) c
  | None => c
  end.
(** A controller with a machine of the type gets the script and the command, and answers or ends. *)
Lemma start_sent : exists i name k r k',
  config_list s !! i = Some (name, k) /\ has_type z k /\ send_analysis help_text packed_analyses script (to_command stored) (refreshed k) = (Ret r, k') /\
  master_step (Some c) s = (Ret tt, Master (<[i := (name, k')]> (prod_map id refreshed <$> config_list s)) (out_queue s ++ [LophiResponse (l_corr_id c) Started true])).
Proof.
  unfold Master.master_step. rewrite is_start. cbn -[Master.command_start]. unfold process_cmd, pm_bind at 1.
  unfold Master.command_start.
  fold stored. rewrite named, known, any_controller. unfold pm_bind at 1, pm_get. cbn [negb].
  assert (Hst : l_controller stored = None /\ l_machine_type stored = l_machine_type c /\ l_cmd stored = l_cmd c)
    by (unfold stored; by destruct (l_sample_doc_id c)).
  destruct Hst as (-> & -> & Hcmd). rewrite type_wanted. unfold pm_bind at 1, all_links.
  assert (Hall : Forall (fun nk => idle nk.2 /\ is_Some (k_ctrl nk.2) /\ list_fits nk.2) (config_list s))
    by (eapply Forall_impl; [exact links_ready|]; intros nk (? & ? & ? & _); done).
  pose proof (on_links_refresh (config_list s) s [] eq_refl Hall) as Href. cbn [app length] in Href.
  unfold pm_bind at 1. rewrite Href. set (s1 := set_links (prod_map id refreshed <$> config_list s) s). unfold pm_bind at 1.
  assert (Hm := fun i => matching_controllers_spec z (config_list s) s1 i eq_refl links_ready).
  assert (Hne : matching_controllers (Some (MtInt z)) s1 <> []).
  { apply Exists_exists in exists_machine as (nk & Hin & Ht). apply list_elem_of_lookup in Hin as [i Hi]. intros Hn.
    apply (not_elem_of_nil i). rewrite <- Hn. apply Hm. by exists nk. }
  destruct (matching_controllers (Some (MtInt z)) s1) as [|i0 l] eqn:Hl; [done|]. rewrite <- Hl in *. clear Hne.
  destruct (lookup_lt_is_Some_2 (matching_controllers (Some (MtInt z)) s1) (randint (length (matching_controllers (Some (MtInt z)) s1)))) as [i Hi].
  { apply random_ok. rewrite Hl. cbn. lia. }
  unfold pm_bind at 1, pm_lift. rewrite Hi. cbn [of_option]. destruct (proj1 (Hm i) (list_elem_of_lookup_2 _ _ _ Hi)) as ([name k] & Hk & Ht).
  assert (Hready : ready k) by (by apply (proj1 (Forall_lookup _ _) links_ready i (name, k))).
  unfold pm_bind, on_link. unfold s1 at 1. cbn [config_list set_links]. rewrite list_lookup_fmap, Hk. cbn [fmap option_fmap option_map prod_map id fst snd].
  assert (Hidle : idle (refreshed k)) by apply Hready.
  assert (Hc' : cmd (to_command stored) <> "pickle") by (cbn; by rewrite Hcmd, is_start).
  destruct (exchange_idle (to_command stored) script (refreshed k) Hc' Hidle) as (r & k' & He & _ & _).
  assert (Hsend : send_analysis help_text packed_analyses script (to_command stored) (refreshed k) = (Ret r, k')).
  { unfold send_analysis. by rewrite (proj2 (Z.ltb_lt _ _)). }
  exists i, name, k, r, k'. split; [exact Hk|]. split; [exact Ht|]. split; [exact Hsend|]. by rewrite Hsend.
Qed.
End start.

(** The command that a controller passes on for machines of type [z] *)
Definition sent_to (ctl : ctrl) (z : Z) (c : lcmd) : command :=
  let c := to_command (stored c) in
  Command (cmd c) (args c) (machine_type c) (if z =? 0 then ftp_ip_physical ctl else ftp_ip_virtual ctl) (host ctl) (for_analysis c).
(** The schedulers of the controllers *)
Definition queues (nk : bytes * link) : option (gmap Z (list (bytes * command))) := schedulers <$> k_ctrl nk.2.
Lemma refreshed_queues (nk : bytes * link) : queues (prod_map id refreshed nk) = queues nk.
Proof. destruct nk as [n k]. unfold queues, refreshed. cbn. by destruct (k_ctrl k). Qed.
Lemma others_same (l : list (bytes * link)) i j x : j <> i ->
  queues <$> <[i := x]> (prod_map id refreshed <$> l) !! j = queues <$> l !! j.
Proof.
  intros Hj. rewrite list_lookup_insert_ne by done. rewrite list_lookup_fmap. destruct (l !! j); [|done]. cbn [fmap option_fmap option_map].
  f_equal. apply refreshed_queues.
Qed.
(** [C32] A start command with a type of machine as a number and without a controller, for a script of less than 64 KiB,
    when all controllers are connected and one has a machine of the type, is answered by success and reaches
    the end of the queue of the scheduler for that type at one controller that has such a machine: with all its fields,
    the identifier of its entry in the database if it has a sample, and the addresses this controller adds; no
    other queue of any controller changes. *)
Theorem typed_start c a file script class_type z s :
  l_cmd c = "start" -> l_analysis c = Some a -> analysis_list !! a = Some (class_type, file, script) ->
  l_controller c = None -> zlen script < 2 ^ 16 -> (forall n, (0 < n)%nat -> (randint n < n)%nat) ->
  Forall (fun nk => ready nk.2) (config_list s) -> Exists (fun nk => has_type z nk.2) (config_list s) ->
  l_machine_type c = Some (MtInt z) -> 0 <= z < 256 ->
  Forall (fun nk => has_type z nk.2 -> exists ctl q, k_ctrl nk.2 = Some ctl /\ schedulers ctl !! z = Some q) (config_list s) ->
  exists i nk ctl s', config_list s !! i = Some nk /\ has_type z nk.2 /\ k_ctrl nk.2 = Some ctl /\
    master_step (Some c) s = (Ret tt, s') /\ out_queue s' = out_queue s ++ [LophiResponse (l_corr_id c) Started true] /\
    (exists nk', config_list s' !! i = Some nk' /\ queues nk' = Some (<[z := default [] (schedulers ctl !! z) ++ [(script, sent_to ctl z c)]]> (schedulers ctl))) /\
    forall j, j <> i -> queues <$> config_list s' !! j = queues <$> config_list s !! j.
Proof.
  intros Hc Ha Hl Hn Hs Hr Hready Hex Ht Hz Hsched.
  destruct (start_sent c a file script class_type z s Hc Ha Hl Hn Hs Hr Hready Hex) as (i & name & k & r & k' & Hi & Hty & Hsend & ->); [by rewrite Ht|].
  destruct (proj1 (Forall_lookup _ _) Hsched i (name, k) Hi Hty) as (ctl & q & Hctl & Hq). cbn in Hctl.
  assert (Hst : l_cmd (stored c) = "start" /\ l_machine_type (stored c) = Some (MtInt z))
    by (unfold stored; destruct (l_sample_doc_id c); cbn; rewrite ?Hc, ?Ht; done). destruct Hst as (Hst & Hmt).
  set (ctl1 := set_replies (replies ctl ++ [pack_machine_list (k_machines k); lit "Success."]) ctl).
  destruct (start_reaches_scheduler (k_running k) (pack_machine_list (k_machines k)) packed_analyses help_text (to_command (stored c)) script ctl1
    (dec z) z q) as (s' & Hp & Hq' & Hother & Hrep); [done|cbn; by rewrite Hmt|by apply byte_arg_parsed|done|].
  assert (Hk' : k_ctrl k' = Some s').
  { unfold send_analysis in Hsend. rewrite (proj2 (Z.ltb_lt _ _)) in Hsend by done. unfold pm_bind, deliver in Hsend. cbn [k_ctrl refreshed k_running k_machines] in Hsend.
    rewrite Hctl in Hsend. cbn [fmap option_fmap option_map] in Hsend. fold ctl1 in Hsend. rewrite Hp in Hsend. unfold read_reply in Hsend. cbn in Hsend.
    destruct (Forall_lookup_1 _ _ _ _ Hready Hi) as (Hidle & _). unfold idle in Hidle. cbn in Hidle. rewrite Hidle, Hrep, drop_app_length in Hsend.
    by injection Hsend as <- <-. }
  exists i, (name, k), ctl. eexists. split; [exact Hi|]. split; [exact Hty|]. split; [done|].
  split; [done|]. split; [done|]. cbn [config_list]. split.
  - eexists. split; [apply list_lookup_insert_eq; rewrite length_fmap; by eapply lookup_lt_Some|]. unfold queues. cbn. rewrite Hk'. cbn. f_equal.
    apply map_eq. intros z'. destruct (decide (z' = z)) as [->|Hne].
    + by rewrite lookup_insert_eq, Hq, Hq'.
    + rewrite lookup_insert_ne by done. by apply Hother.
  - intros j Hj. by apply others_same.
Qed.
(** [C38] A start command without a type of machine and without a controller, for a script of less than 64 KiB that names
    a type, is answered by success too, when all controllers are connected and one has a machine of that type; but the controller that gets it ends, because it looks for the type in the name
    of the script, and the next question for its machines is never answered. *)
Theorem untyped_start_ends_controller c a file script class_type z s :
  l_cmd c = "start" -> l_analysis c = Some a -> analysis_list !! a = Some (class_type, file, script) ->
  l_controller c = None -> zlen script < 2 ^ 16 -> (forall n, (0 < n)%nat -> (randint n < n)%nat) ->
  Forall (fun nk => ready nk.2) (config_list s) -> Exists (fun nk => has_type z nk.2) (config_list s) ->
  l_machine_type c = None -> class_type = Some z ->
  exists i name k s', master_step (Some c) s = (Ret tt, s') /\ out_queue s' = out_queue s ++ [LophiResponse (l_corr_id c) Started true] /\
    config_list s' !! i = Some (name, k) /\ k_ctrl k = None /\ (cc_get_machines help_text packed_analyses k).1 = Raise Diverges.
Proof.
  intros Hc Ha Hl Hn Hs Hr Hready Hex Ht ->.
  destruct (start_sent c a file script (Some z) z s Hc Ha Hl Hn Hs Hr Hready Hex) as (i & name & k & r & k' & Hi & Hty & Hsend & ->); [by rewrite Ht|].
  destruct (Forall_lookup_1 _ _ _ _ Hready Hi) as (Hidle & [ctl Hctl] & _). cbn in Hidle, Hctl.
  assert (Hst : l_cmd (stored c) = "start" /\ l_machine_type (stored c) = None)
    by (unfold stored; destruct (l_sample_doc_id c); cbn; rewrite ?Hc, ?Ht; done). destruct Hst as (Hst & Hmt).
  assert (Hk' : k_ctrl k' = None /\ idle k').
  { unfold send_analysis in Hsend. rewrite (proj2 (Z.ltb_lt _ _)) in Hsend by done. unfold pm_bind, deliver in Hsend. cbn [k_ctrl refreshed k_running k_machines] in Hsend.
    rewrite Hctl in Hsend. cbn [fmap option_fmap option_map] in Hsend.
    rewrite fatal_commands in Hsend by (right; cbn; by rewrite Hmt). unfold read_reply in Hsend. cbn in Hsend. unfold idle in Hidle.
    rewrite drop_all, Hidle in Hsend. cbn in Hsend. by injection Hsend as <- <-. }
  destruct Hk' as [Hk' Hi']. exists i, name, k'. eexists. split; [done|]. split; [done|]. cbn [config_list].
  split; [apply list_lookup_insert_eq; rewrite length_fmap; by eapply lookup_lt_Some|]. split; [done|].
  by rewrite ended_controller_hangs.
Qed.
End theorems.

Definition demo_link : link := Link (Some demo_ctrl) demo_machines [] [] ∅.
Definition demo_master : master := Master [(lit "c1", demo_link)] [].
Definition demo_scripts : gmap bytes (option Z * bytes * bytes) := {[lit "a" := (Some 0, lit "a.py", lit "pass")]}.
Definition demo_cmd (t : option mtype) : lcmd := LophiCommand (lit "id") "start" [] None (Some (lit "a")) (Some (lit "m1")) t None None None None (Some (lit "d")) None.
Lemma demo_ready : Forall (fun nk => ready nk.2) (config_list demo_master).
Proof.
  apply Forall_singleton. split; [done|]. split; [by eexists|]. split; [done|]. by apply (bool_decide_unpack _); vm_compute.
Qed.
Lemma replies_matched_witness : k_unread demo_link = [] /\
  Forall (fun nk => k_unread nk.2 = []) (config_list (master_loop [] [] demo_scripts [] id (fun _ _ => []) (fun _ => 0%nat) [Some (demo_cmd None); None] demo_master).2).
Proof. split; [done|]. apply (replies_matched [] [] demo_scripts [] id (fun _ _ => []) (fun _ => 0%nat) [Some (demo_cmd None); None] demo_master). by repeat constructor. Defined.
Lemma one_response_witness : exists q, out_queue (master_loop [] [] demo_scripts [] id (fun _ _ => []) (fun _ => 0%nat) [Some (demo_cmd None); None] demo_master).2 = [] ++ q /\
  rs_corr_id <$> q = [lit "id"].
Proof. apply (one_response [] [] demo_scripts [] id (fun _ _ => []) (fun _ => 0%nat) [Some (demo_cmd None); None] demo_master). vm_compute. reflexivity. Defined.
Lemma typed_start_witness : exists s', master_step [] [] demo_scripts [] id (fun _ _ => []) (fun _ => 0%nat) (Some (demo_cmd (Some (MtInt 0)))) demo_master = (Ret tt, s') /\
  out_queue s' = [LophiResponse (lit "id") Started true].
Proof.
  destruct (typed_start [] [] demo_scripts [] id (fun _ _ => []) (fun _ => 0%nat) (demo_cmd (Some (MtInt 0))) (lit "a") (lit "a.py") (lit "pass") (Some 0) 0 demo_master)
    as (i & nk & ctl & s' & _ & _ & _ & Hs & Ho & _).
  - reflexivity.
  - reflexivity.
  - apply lookup_singleton_eq.
  - reflexivity.
  - reflexivity.
  - intros n Hn. exact Hn.
  - apply demo_ready.
  - apply Exists_cons. left. apply Exists_cons. left. reflexivity.
  - reflexivity.
  - lia.
  - apply Forall_singleton. intros _. eexists _, _. split; reflexivity.
  - exists s'. split; [exact Hs|exact Ho].
Defined.
Lemma untyped_start_ends_controller_witness : exists i name k s',
  master_step [] [] demo_scripts [] id (fun _ _ => []) (fun _ => 0%nat) (Some (demo_cmd None)) demo_master = (Ret tt, s') /\
  config_list s' !! i = Some (name, k) /\ k_ctrl k = None.
Proof.
  destruct (untyped_start_ends_controller [] [] demo_scripts [] id (fun _ _ => []) (fun _ => 0%nat) (demo_cmd None) (lit "a") (lit "a.py") (lit "pass") (Some 0) 0 demo_master)
    as (i & name & k & s' & Hs & _ & Hi & Hk & _).
  - reflexivity.
  - reflexivity.
  - apply lookup_singleton_eq.
  - reflexivity.
  - reflexivity.
  - intros n Hn. exact Hn.
  - apply demo_ready.
  - apply Exists_cons. left. apply Exists_cons. left. reflexivity.
  - reflexivity.
  - reflexivity.
  - exists i, name, k, s'. split; [exact Hs|]. split; [exact Hi|exact Hk].
Defined.
