(* ===== verification/Rabbit.v ===== *)
(** Model of [lophi_automation/ext_interface/rabbitmq.py]: the producer, which publishes what is put
    into a queue, and the consumer, a set of callbacks that opens a channel, declares an exchange and
    a queue, binds and consumes, and puts what it is sent into a queue.  The library and the broker
    are the environment: the requests are recorded, and the callbacks come in any order.
    Theorems: every message delivered is acknowledged and put once and in order, whatever
    happens in between; and after a lost connection the answers to its requests bring the consumer
    back to consuming. *)
From S2P Require Import Prelude PyString.

(** * The consumer *)

Record rconfig := RConfig { EXCHANGE : string; EXCHANGE_TYPE : string; QUEUE : string; ROUTING_KEY : string; exclusive_queue : bool; auto_delete : bool }.
(** The arguments of the constructors of consumer and producer *)
Definition consumer_config (queue exchange_type : string) (routing_key : option string) (exchange : string) (auto_delete : bool) : rconfig :=
  let fanout := bool_decide (exchange_type = "fanout") in
  RConfig exchange exchange_type queue (default queue routing_key) fanout (fanout || auto_delete).
Definition producer_config (queue exchange_type : string) (routing_key : option string) (exchange : string) : rconfig :=
  let fanout := bool_decide (exchange_type = "fanout") in
  RConfig exchange exchange_type queue (default queue routing_key) fanout fanout.

(** What is asked of the library *)
Inductive request :=
  | Connect | OnClose | OpenChannel | OnChannelClose | ExchangeDeclare (name type : string)
  | QueueDeclare (name : string) (exclusive auto_delete : bool) | QueueBind (queue exchange key : string)
  | BasicConsume (queue : string) | BasicAck (tag : Z) | BasicCancel (tag : option Z) | ChannelClose
  | ConnectionClose | AddTimeout (seconds : Z) | LoopStop | LoopStart.
Record consumer := Consumer {
  rc : rconfig;
  has_channel : bool; closing : bool; consumer_tag : option Z;
  asked : list request; master_queue : list bytes
}.
Definition ask (r : request) (c : consumer) : consumer := Consumer (rc c) (has_channel c) (closing c) (consumer_tag c) (asked c ++ [r]) (master_queue c).
Definition set_channel (b : bool) (c : consumer) : consumer := Consumer (rc c) b (closing c) (consumer_tag c) (asked c) (master_queue c).
Definition set_closing (c : consumer) : consumer := Consumer (rc c) (has_channel c) true (consumer_tag c) (asked c) (master_queue c).
Definition set_tag (t : Z) (c : consumer) : consumer := Consumer (rc c) (has_channel c) (closing c) (Some t) (asked c) (master_queue c).
Definition put (m : bytes) (c : consumer) : consumer := Consumer (rc c) (has_channel c) (closing c) (consumer_tag c) (asked c) (master_queue c ++ [m]).
Abbreviation CM := (PM consumer).
Definition request_ (r : request) : CM unit := pm_modify (ask r).
(** A method of [self._channel], which may be [None] *)
Definition on_channel (r : request) : CM unit :=
  let! ch := pm_get has_channel in if ch then request_ r else pm_raise AttributeError.

Definition open_channel : CM unit := request_ OpenChannel.
Definition on_connection_open : CM unit := request_ OnClose ;! open_channel.
Definition on_connection_closed : CM unit :=
  pm_modify (set_channel false) ;!
  let! c := pm_get closing in if c then request_ LoopStop else request_ (AddTimeout 5).
(** The new loop runs inside the callback of the old one. *)
Definition reconnect : CM unit :=
  request_ LoopStop ;!
  let! c := pm_get closing in if c then pm_ret tt else request_ Connect ;! request_ LoopStart.
Definition on_channel_closed : CM unit := request_ ConnectionClose.
Definition setup_exchange : CM unit := let! c := pm_get rc in on_channel (ExchangeDeclare (EXCHANGE c) (EXCHANGE_TYPE c)).
Definition on_channel_open : CM unit := pm_modify (set_channel true) ;! on_channel OnChannelClose ;! setup_exchange.
Definition setup_queue : CM unit := let! c := pm_get rc in on_channel (QueueDeclare (QUEUE c) (exclusive_queue c) (auto_delete c)).
Definition on_exchange_declareok : CM unit := setup_queue.
Definition on_queue_declareok : CM unit := let! c := pm_get rc in on_channel (QueueBind (QUEUE c) (EXCHANGE c) (ROUTING_KEY c)).
(** [tag] is the consumer tag that [basic_consume] returns. *)
Definition start_consuming (tag : Z) : CM unit := let! c := pm_get rc in on_channel (BasicConsume (QUEUE c)) ;! pm_modify (set_tag tag).
Definition on_bindok (tag : Z) : CM unit := start_consuming tag.
Definition acknowledge_message (delivery_tag : Z) : CM unit := on_channel (BasicAck delivery_tag).
Definition on_message (delivery_tag : Z) (body : bytes) : CM unit := acknowledge_message delivery_tag ;! pm_modify (put body).
Definition on_consumer_cancelled : CM unit := let! ch := pm_get has_channel in if ch then on_channel ChannelClose else pm_ret tt.
Definition close_channel : CM unit := on_channel ChannelClose.
Definition on_cancelok : CM unit := close_channel.
Definition stop_consuming : CM unit := let! c := pm_get (fun c => c) in if has_channel c then on_channel (BasicCancel (consumer_tag c)) else pm_ret tt.
Definition consumer_stop : CM unit := pm_modify set_closing ;! stop_consuming.
Definition consumer_run : CM unit := request_ Connect ;! request_ LoopStart.

(** The callbacks the library makes *)
Inductive event :=
  | ConnectionOpen | ConnectionClosed | Timer | ChannelOpen | ChannelClosed | ExchangeOk | QueueOk | BindOk (tag : Z)
  | Message (delivery_tag : Z) (body : bytes) | CancelOk | Stop.
Definition consumer_event (e : event) : CM unit :=
  match e with
  | ConnectionOpen => on_connection_open
  | ConnectionClosed => on_connection_closed
  | Timer => reconnect
  | ChannelOpen => on_channel_open
  | ChannelClosed => on_channel_closed
  | ExchangeOk => on_exchange_declareok
  | QueueOk => on_queue_declareok
  | BindOk tag => on_bindok tag
  | Message tag body => on_message tag body
  | CancelOk => on_cancelok
  | Stop => consumer_stop
  end.
Fixpoint consumer_events (l : list event) : CM unit :=
  match l with [] => pm_ret tt | e :: l => consumer_event e ;! consumer_events l end.

(** * The producer *)

Record published := Published { p_exchange : string; p_key : string; p_body : bytes }.
(** The messages in the queue up to the command that ends the producer; [RUNNING] is only changed by [stop],
    and an exception while waiting, here the end of the list, ends the loop too. *)
Fixpoint producer_loop (c : rconfig) (messages : list bytes) : list published :=
  match messages with
  | [] => []
  | m :: messages => if bool_decide (m = lit "kill") then [] else Published (EXCHANGE c) (ROUTING_KEY c) m :: producer_loop c messages
  end.
(** The requests before the loop *)
Definition producer_setup (c : rconfig) : list request :=
  [Connect; OpenChannel; QueueDeclare (QUEUE c) (exclusive_queue c) (auto_delete c); ExchangeDeclare (EXCHANGE c) (EXCHANGE_TYPE c)].

(** * Theorems *)

Definition delivery (e : event) : option (Z * bytes) := match e with Message t b => Some (t, b) | _ => None end.
Definition ack_of (r : request) : option Z := match r with BasicAck t => Some t | _ => None end.
(** What an event adds to the queue and to the acknowledgements *)
Definition adds (e : event) (c c' : consumer) : Prop :=
  master_queue c' = master_queue c ++ (snd <$> omap delivery [e]) /\ omap ack_of (asked c') = omap ack_of (asked c) ++ (fst <$> omap delivery [e]).
Lemma event_adds e c c' : consumer_event e c = (Ret tt, c') -> adds e c c'.
Proof.
  unfold adds. destruct c as [conf ch cl tag asked queue]. destruct e; cbn; intros H;
    unfold on_connection_open, open_channel, on_connection_closed, reconnect, on_channel_open, setup_exchange, on_channel_closed, on_exchange_declareok, setup_queue,
      on_queue_declareok, on_bindok, start_consuming, on_message, acknowledge_message, on_cancelok, close_channel, consumer_stop, stop_consuming,
      on_channel, request_, pm_bind, pm_get, pm_modify, pm_ret, pm_raise in H; cbn in H;
    try destruct ch; try destruct cl; cbn in H; try discriminate; injection H as <-; cbn; rewrite ?omap_app, ?app_nil_r; cbn; rewrite ?app_nil_r; done.
Qed.
(** Whatever callbacks come and in whatever order, the messages delivered are put into the master's
    queue once each and in order, and exactly their tags are acknowledged, in the same order. *)
Theorem consumer_delivers l c c' : consumer_events l c = (Ret tt, c') ->
  master_queue c' = master_queue c ++ (snd <$> omap delivery l) /\ omap ack_of (asked c') = omap ack_of (asked c) ++ (fst <$> omap delivery l).
Proof.
  revert c. induction l as [|e l IH]; intros c; cbn [consumer_events].
  - intros [= <-]. by rewrite !app_nil_r.
  - unfold pm_bind. destruct (consumer_event e c) as [[[]|] c1] eqn:He; [|done]. intros Hl.
    destruct (event_adds e c c1 He) as [H1 H2]. destruct (IH c1 Hl) as [H3 H4]. rewrite H3, H4, H1, H2, <- !app_assoc.
    change (omap delivery (e :: l)) with (omap delivery ([e] ++ l)). by rewrite omap_app, !fmap_app.
Qed.

(** The callback that answers a request, with the tag of the consumer *)
Definition answer (tag : Z) (r : request) : option event :=
  match r with
  | Connect => Some ConnectionOpen | OpenChannel => Some ChannelOpen | ExchangeDeclare _ _ => Some ExchangeOk
  | QueueDeclare _ _ _ => Some QueueOk | QueueBind _ _ _ => Some (BindOk tag) | BasicCancel _ => Some CancelOk
  | ChannelClose => Some ChannelClosed | ConnectionClose => Some ConnectionClosed | AddTimeout _ => Some Timer
  | _ => None
  end.
(** The callbacks that follow from some when every request is answered in turn *)
Fixpoint settle (fuel : nat) (tag : Z) (events : list event) : CM unit :=
  match events, fuel with
  | [], _ => pm_ret tt
  | _, O => pm_raise Diverges
  | e :: events, S fuel =>
      let! n := pm_get (fun c => length (asked c)) in
      consumer_event e ;!
      let! new := pm_get (fun c => drop n (asked c)) in
      settle fuel tag (events ++ omap (answer tag) new)
  end.
Definition setup_requests (c : rconfig) : list request :=
  [OnClose; OpenChannel; OnChannelClose; ExchangeDeclare (EXCHANGE c) (EXCHANGE_TYPE c); QueueDeclare (QUEUE c) (exclusive_queue c) (auto_delete c);
   QueueBind (QUEUE c) (EXCHANGE c) (ROUTING_KEY c); BasicConsume (QUEUE c)].
Lemma settle_cons fuel tag e events c c1 new : consumer_event e c = (Ret tt, c1) -> asked c1 = asked c ++ new ->
  settle (S fuel) tag (e :: events) c = settle fuel tag (events ++ omap (answer tag) new) c1.
Proof. intros He Ha. cbn [settle]. unfold pm_bind, pm_get. by rewrite He, Ha, drop_app_length. Qed.
(** [C15] When the broker closes the connection or the channel and then answers every request, a consumer
    that is not being stopped connects again, declares exchange and queue, binds them, and consumes from the
    queue under its new tag, after at most eight callbacks; messages already put are kept. *)
Theorem consumer_recovers c e tag : closing c = false -> e = ConnectionClosed \/ (e = ChannelClosed) ->
  exists c', settle 8 tag [e] c = (Ret tt, c') /\ has_channel c' = true /\ consumer_tag c' = Some tag /\ master_queue c' = master_queue c /\
    exists pre, asked c' = asked c ++ pre ++ [AddTimeout 5; LoopStop; Connect; LoopStart] ++ setup_requests (rc c).
Proof.
  intros Hc He. destruct c as [conf ch cl t asked queue]. cbn in Hc. subst cl.
  assert (Hrec : forall n asked, exists c', settle (7 + n) tag [ConnectionClosed] (Consumer conf ch false t asked queue) = (Ret tt, c') /\ has_channel c' = true /\
    consumer_tag c' = Some tag /\ master_queue c' = queue /\ Rabbit.asked c' = asked ++ [AddTimeout 5; LoopStop; Connect; LoopStart] ++ setup_requests conf).
  { intros n l. eexists. cbn [plus].
    do 7 (erewrite settle_cons; [|reflexivity|cbn; rewrite <- ?app_assoc; reflexivity]; cbn [omap list_omap answer app]).
    destruct n; (split; [reflexivity|]); cbn; rewrite <- !app_assoc; done. }
  destruct He as [-> | ->].
  - destruct (Hrec 1%nat asked) as (c' & H1 & H2 & H3 & H4 & H5). exists c'. split_and!; try done. by exists [].
  - erewrite settle_cons; [|reflexivity|reflexivity]. cbn [omap list_omap answer app].
    destruct (Hrec 0%nat (asked ++ [ConnectionClose])) as (c' & H1 & H2 & H3 & H4 & H5). exists c'. split; [exact H1|]. split_and!; try done.
    exists [ConnectionClose]. rewrite H5. cbn. by rewrite <- app_assoc.
Qed.
(** A consumer that is stopped ends its loop and does not connect again. *)
Lemma stop_ends c tag : has_channel c = true -> exists c', settle 4 tag [Stop] c = (Ret tt, c') /\ closing c' = true /\
  asked c' = asked c ++ [BasicCancel (consumer_tag c); ChannelClose; ConnectionClose; LoopStop].
Proof.
  intros Hc. destruct c as [conf ch cl t asked queue]. cbn in Hc. subst ch. eexists.
  do 4 (erewrite settle_cons; [|reflexivity|cbn; rewrite <- ?app_assoc; reflexivity]; cbn [omap list_omap answer app]).
  split; [reflexivity|]. cbn. by rewrite <- !app_assoc.
Qed.
(** A message delivered while the channel is gone is not put: the callback raises. *)
Lemma message_without_channel t b c : has_channel c = false -> consumer_event (Message t b) c = (Raise AttributeError, c).
Proof. intros Hc. cbn. unfold on_message, acknowledge_message, on_channel, pm_bind, pm_get. by rewrite Hc. Qed.
(** The producer publishes, in order, exactly the messages before the command that ends it. *)
Lemma producer_prefix c before after : lit "kill" ∉ before ->
  producer_loop c (before ++ lit "kill" :: after) = Published (EXCHANGE c) (ROUTING_KEY c) <$> before.
Proof.
  induction before as [|m before IH]; intros Hn; cbn [producer_loop app].
  - by rewrite bool_decide_true.
  - apply not_elem_of_cons in Hn as [Hm Hn]. rewrite bool_decide_false by congruence. by rewrite IH.
Qed.
Definition demo_consumer : consumer := Consumer (consumer_config "lophi.control-in" "direct" None "lophi.direct" false) false false None [] [].
Definition demo_events : list event := [ConnectionOpen; ChannelOpen; ExchangeOk; QueueOk; BindOk 1; Message 4 [1]; Message 5 [2]; ConnectionClosed].
Lemma consumer_delivers_witness : exists c', consumer_events demo_events demo_consumer = (Ret tt, c') /\ master_queue c' = [[1]; [2]].
Proof.
  destruct (consumer_events demo_events demo_consumer) as [[[]|e] c'] eqn:He; [|vm_compute in He; discriminate].
  exists c'. split; [reflexivity|]. destruct (consumer_delivers demo_events demo_consumer c' He) as [H _]. exact H.
Defined.
Lemma consumer_recovers_witness : exists c', settle 8 3 [ChannelClosed] demo_consumer = (Ret tt, c') /\ has_channel c' = true /\ consumer_tag c' = Some 3.
Proof.
  destruct (consumer_recovers demo_consumer ChannelClosed 3) as (c' & H1 & H2 & H3 & _); [done|by right|]. by exists c'.
Defined.
