(* ===== verification/PacketLoss.v ===== *)
(** Packet loss of a sensor ([lophi_automation/analysis/packetloss.py]): the loop that counts
    the packets that are missing between the IP identifiers of those captured.

    The capture library gives the frames and [dpkt] parses them; both are parameters.  The
    counters of the loop and the dictionary it shares with its engine are the state.  The
    count is exact for a sender whose identifiers go round from 1 to 65535, as long as fewer
    than a whole round of packets is lost in a row. *)
From S2P Require Import Prelude PyString.

(** What [dpkt] makes of a frame: the payload of an IP frame that cannot be parsed stays a
    string, and its attributes do not exist. *)
Record ip_packet := IP { src : bytes; p : Z; id : Z }.
Record ethernet := Ethernet { type : Z; data : option ip_packet; size : Z }.

Definition ETH_TYPE_IP : Z := 0x800.
Definition IP_PROTO_UDP : Z := 17.

(** [self.return_values] *)
Record shared := Shared { total : Z; dropped : Z; data_received : Z }.
Record loss := Loss { last_id : option Z; total_packets : Z; dropped_packets : Z; return_values : shared }.

Definition init : loss := Loss None 0 0 (Shared 0 0 0).

(** The two branches that count [d] packets as lost. *)
Definition drop_some (d : Z) (s : loss) : loss :=
  let n := dropped_packets s + d in
  Loss (last_id s) (total_packets s + d) n (Shared (total (return_values s)) n (data_received (return_values s))).

(** A packet of the sensor: statistics, the comparison of its identifier, and the update. *)
Definition seen (len i : Z) (s : loss) : loss :=
  let r := return_values s in
  let t := total_packets s + 1 in
  let s := Loss (last_id s) t (dropped_packets s) (Shared t (dropped r) (data_received r + len)) in
  let s := match last_id s with
           | None => s
           | Some l => if l + 1 <? i then drop_some (i - l - 1) s
                       else if (i <? l) && (0 <? i) then drop_some (i - 1 + (0xffff - l)) s
                       else s
           end in
  Loss (Some i) (total_packets s) (dropped_packets s) (return_values s).

Section analyzer.
(** [dpkt.ethernet.Ethernet], and the address of the sensor in network order. *)
Context (parse : bytes -> res ethernet) (sensor_ip_int : bytes).

(** The body of the loop: [true] when it goes on to the next frame. *)
Definition body (pkt : bytes) : PM loss bool :=
  let! eth_packet := pm_lift (parse pkt) in
  if negb (type eth_packet =? ETH_TYPE_IP) then pm_ret true else
  let! ip_packet := pm_lift (of_option AttributeError (data eth_packet)) in
  (if bool_decide (src ip_packet = sensor_ip_int) && (p ip_packet =? IP_PROTO_UDP)
   then pm_modify (seen (size eth_packet) (id ip_packet)) else pm_ret tt) ;!
  let! s := pm_get (fun s => s) in
  pm_ret (negb (total_packets s <? dropped_packets s)).

Fixpoint frames (pc : list bytes) : PM loss unit :=
  match pc with
  | [] => pm_ret tt
  | pkt :: pc => let! go := body pkt in if go then frames pc else pm_ret tt
  end.
End analyzer.

(** [run]: the address is converted before the counters are set. *)
Definition run (parse : bytes -> res ethernet) (sensor_ip : bytes) (pc : list bytes) : res unit * loss :=
  match inet_aton sensor_ip with
  | Ret a => frames parse a pc init
  | Raise e => (Raise e, init)
  end.

(** [PacketlossAnalysisEngine.get_results] *)
Definition get_results (s : loss) : shared := return_values s.

(** * What is counted *)

(** The packets of the sensor among the frames that [parse] takes apart, with their sizes. *)
Definition of_sensor (a : bytes) (e : ethernet) : option (Z * Z) :=
  if type e =? ETH_TYPE_IP
  then match data e with
       | Some ip => if bool_decide (src ip = a) && (p ip =? IP_PROTO_UDP) then Some (size e, id ip) else None
       | None => None
       end
  else None.

Definition count (l : list (Z * Z)) (s : loss) : loss := foldl (fun s x => seen x.1 x.2 s) s l.

(** Identifiers are 16 bits wide, and no more is lost than was counted. *)
Definition wf (s : loss) : Prop :=
  0 <= dropped_packets s <= total_packets s /\ dropped (return_values s) = dropped_packets s /\
  match last_id s with Some l => 0 <= l < 65536 | None => dropped_packets s = 0 end.

Lemma wf_init : wf init.
Proof. by unfold wf; cbn. Qed.

Lemma seen_wf len i s : 0 <= i < 65536 -> wf s -> wf (seen len i s).
Proof.
  intros Hi (H & Hd & Hl). unfold wf, seen, drop_some in *. cbn -[Z.sub Z.add].
  destruct (last_id s) as [l|]; [|cbn -[Z.sub Z.add]; lia].
  destruct (Z.ltb_spec (l + 1) i); [cbn -[Z.sub Z.add]; lia|].
  destruct (Z.ltb_spec i l), (Z.ltb_spec 0 i); cbn -[Z.sub Z.add]; lia.
Qed.

(** A frame that can be parsed: its payload too, and its identifier has 16 bits. *)
Definition parsed (parse : bytes -> res ethernet) (pkt : bytes) (e : ethernet) : Prop :=
  parse pkt = Ret e /\ (type e = ETH_TYPE_IP -> exists ip, data e = Some ip /\ 0 <= id ip < 65536).

Section counting.
Context (parse : bytes -> res ethernet) (a : bytes).

(** The body keeps the invariant, never stops the loop and counts a packet of the sensor. *)
Lemma body_counts pkt e s : parsed parse pkt e -> wf s ->
  body parse a pkt s = (Ret true, count (option_list (of_sensor a e)) s) /\
  wf (count (option_list (of_sensor a e)) s).
Proof.
  intros [Hp Hip] Hs. unfold body, pm_bind, pm_lift, of_sensor. rewrite Hp.
  destruct (Z.eqb_spec (type e) ETH_TYPE_IP) as [Ht|Ht]; cbn [negb]; [|done].
  destruct (Hip Ht) as (ip & -> & Hid). cbn [of_option].
  assert (forall s', wf s' -> (negb (total_packets s' <? dropped_packets s')) = true) as Hgo.
  { intros s' (H & _). destruct (Z.ltb_spec (total_packets s') (dropped_packets s')); [lia|done]. }
  destruct (_ && _); unfold pm_modify, pm_ret, pm_get; cbn [option_list count foldl fst snd].
  - pose proof (seen_wf (size e) (id ip) s Hid Hs). by rewrite Hgo.
  - by rewrite Hgo.
Qed.

Lemma frames_count pc es : Forall2 (parsed parse) pc es -> forall s, wf s ->
  frames parse a pc s = (Ret tt, count (omap (of_sensor a) es) s) /\ wf (count (omap (of_sensor a) es) s).
Proof.
  induction 1 as [|pkt e pc es Hpk _ IH]; intros s Hs; [done|].
  destruct (body_counts pkt e s Hpk Hs) as [Hb Hw]. cbn [frames]. unfold pm_bind. rewrite Hb.
  destruct (IH _ Hw) as [-> Hw']. cbn [omap list_omap].
  destruct (of_sensor a e); cbn [option_list] in *; done.
Qed.
End counting.

(** * A sender whose identifiers go round from 1 to 65535 *)

Definition cyc (n : Z) : Z := 1 + n mod 65535.

Lemma cyc_bound n : 0 < cyc n < 65536.
Proof. unfold cyc. pose proof (Z.mod_pos_bound n 65535). lia. Qed.

Lemma cyc_step m n : m < n < m + 65535 ->
  (cyc m < cyc n /\ cyc n - cyc m = n - m) \/ (cyc n < cyc m /\ cyc n - cyc m + 65535 = n - m).
Proof.
  intros H. unfold cyc. pose proof (Z.mod_pos_bound m 65535). pose proof (Z.mod_pos_bound n 65535).
  pose proof (Z.div_mod m 65535). pose proof (Z.div_mod n 65535).
  assert (n / 65535 = m / 65535 \/ n / 65535 = m / 65535 + 1) as [E|E] by nia; nia.
Qed.

(** After packets of which [n] is the latest and [f] the first, everything between is seen or lost. *)
Definition counted (f n got : Z) (s : loss) : Prop :=
  last_id s = Some (cyc n) /\ total_packets s = n - f + 1 /\ dropped_packets s = n - f + 1 - got /\
  dropped (return_values s) = dropped_packets s.

Lemma seen_counted f m n len got s : m < n < m + 65535 -> counted f m got s -> counted f n (got + 1) (seen len (cyc n) s).
Proof.
  intros Hn (Hl & Ht & Hd & Hr). pose proof (cyc_bound n). pose proof (cyc_bound m).
  pose proof (cyc_step m n Hn) as Hc. unfold counted, seen, drop_some. rewrite Hl. cbn -[Z.sub Z.add cyc]. split; [done|].
  destruct (Z.ltb_spec (cyc m + 1) (cyc n)); [cbn -[Z.sub Z.add cyc]; lia|].
  destruct (Z.ltb_spec (cyc n) (cyc m)), (Z.ltb_spec 0 (cyc n)); cbn -[Z.sub Z.add cyc]; lia.
Qed.

(** Positions in the stream of the sender that arrive in order, less than a round apart. *)
Fixpoint arrives (m : Z) (l : list (Z * Z)) : Prop :=
  match l with [] => True | (_, n) :: l => m < n < m + 65535 /\ arrives n l end.

Definition latest (m : Z) (l : list (Z * Z)) : Z := from_option snd m (last l).
Definition numbered (l : list (Z * Z)) : list (Z * Z) := (fun x => (x.1, cyc x.2)) <$> l.

Lemma latest_cons m x l : latest m (x :: l) = latest x.2 l.
Proof. unfold latest. rewrite last_cons. by destruct (last l). Qed.

Lemma count_counted f l : forall m got s, arrives m l -> counted f m got s ->
  counted f (latest m l) (got + zlen l) (count (numbered l) s).
Proof.
  induction l as [|[len n] l IH]; intros m got s Ha Hc; [by rewrite zlen_nil, Z.add_0_r|].
  destruct Ha as [Hn Ha]. rewrite latest_cons, zlen_cons, Z.add_assoc. cbn [numbered fmap list_fmap count foldl fst snd].
  apply IH; [done|]. by eapply seen_counted.
Qed.

Lemma first_counted len f : counted f f 1 (seen len (cyc f) init).
Proof. unfold counted, seen, init. cbn -[cyc]. repeat split; lia. Qed.

(** The analyzer, on any traffic in which packets of the sensor arrive in order with
    identifiers that go round from 1 to 65535 and fewer than 65534 are lost in a row,
    ends without an error and reports exactly the number of packets that were lost between
    the first and the last that arrived, whatever other frames are in between. *)
Theorem loss_exact parse sensor_ip a pc es len f l :
  inet_aton sensor_ip = Ret a -> Forall2 (parsed parse) pc es ->
  omap (of_sensor a) es = numbered ((len, f) :: l) -> arrives f l ->
  let '(r, s) := run parse sensor_ip pc in
  r = Ret tt /\ dropped (get_results s) = latest f l - f - zlen l /\ total_packets s = latest f l - f + 1.
Proof.
  intros Ha Hpc He Hl. unfold run. rewrite Ha.
  destruct (frames_count parse a pc es Hpc init wf_init) as [-> _]. rewrite He.
  destruct (count_counted f l f 1 (seen len (cyc f) init) Hl (first_counted len f)) as (_ & Ht & Hd & Hr).
  unfold get_results. change (count (numbered ((len, f) :: l)) init) with (count (numbered l) (seen len (cyc f) init)).
  rewrite Hr, Hd, Ht. repeat split; lia.
Qed.

(** A parser for frames of the form identifier, length. *)
Definition toy_parse (pkt : bytes) : res ethernet :=
  match pkt with
  | [i; n] => Ret (Ethernet ETH_TYPE_IP (Some (IP [10; 0; 0; 1] IP_PROTO_UDP i)) n)
  | _ => Ret (Ethernet 0x806 None 0)
  end.

Lemma loss_exact_witness :
  let '(r, s) := run toy_parse (lit "10.0.0.1") [[65534; 100]; []; [2; 60]; [3; 60]] in
  r = Ret tt /\ dropped (get_results s) = 65537 - 65533 - zlen [(60, 65536); (60, 65537)] /\
  total_packets s = 65537 - 65533 + 1.
Proof.
  apply (loss_exact toy_parse (lit "10.0.0.1") [10; 0; 0; 1] _
    [Ethernet ETH_TYPE_IP (Some (IP [10; 0; 0; 1] IP_PROTO_UDP 65534)) 100; Ethernet 0x806 None 0;
     Ethernet ETH_TYPE_IP (Some (IP [10; 0; 0; 1] IP_PROTO_UDP 2)) 60;
     Ethernet ETH_TYPE_IP (Some (IP [10; 0; 0; 1] IP_PROTO_UDP 3)) 60] 100 65533 [(60, 65536); (60, 65537)]).
  - vm_compute. reflexivity.
  - repeat (apply Forall2_cons; split); try constructor; try reflexivity; try (intros ?; discriminate);
      intros _; eexists; (split; [reflexivity|cbn; lia]).
  - vm_compute. reflexivity.
  - cbn. lia.
Defined.

(** The check that more was lost than seen never stops the loop, whatever the traffic. *)
Theorem never_stops parse sensor_ip a pc es :
  inet_aton sensor_ip = Ret a -> Forall2 (parsed parse) pc es ->
  run parse sensor_ip pc = (Ret tt, count (omap (of_sensor a) es) init).
Proof. intros Ha Hpc. unfold run. rewrite Ha. by apply frames_count, wf_init. Qed.

(** A sender that counts through 0: a whole lost round is not seen when it ends at 0, two packets
    that change places count as a round of lost ones, and the total misses the last loss. *)
Theorem loss_at_zero : dropped (get_results (count [(60, 5); (60, 0)] init)) = 0.
Proof. reflexivity. Qed.
Theorem reordered_counts_as_lost : dropped (get_results (count [(60, 1); (60, 3); (60, 2)] init)) = 65534.
Proof. reflexivity. Qed.
Theorem total_lags : let s := count [(60, 1); (60, 9)] init in total (get_results s) = 2 /\ total_packets s = 9.
Proof. by split. Qed.
(** A frame whose payload cannot be parsed ends the process. *)
Theorem unparsed_raises parse sensor_ip a pkt pc n :
  inet_aton sensor_ip = Ret a -> parse pkt = Ret (Ethernet ETH_TYPE_IP None n) ->
  (run parse sensor_ip (pkt :: pc)).1 = Raise AttributeError.
Proof. intros Ha Hp. unfold run. rewrite Ha. cbn [frames]. unfold pm_bind, body, pm_bind, pm_lift. by rewrite Hp. Qed.
