(* ===== verification/Network.v ===== *)
(** Network helpers ([lophi/network/ping.py], [lophi/network/__init__.py]): the checksum of echo
    requests, the wait for their replies, addresses, and the reader of datagrams.

    The checksum is proved equal to the sum in one's complement arithmetic that the Internet
    protocols define, computed over the words in network order.  Time is counted in ticks,
    and the packets that will arrive are part of the state of a host. *)
From S2P Require Import Prelude Struct PyString.

(** * [ping.py] *)

Definition ICMP_ECHO_REQUEST : Z := 8.

(** The loop over pairs of bytes and the odd byte after it. *)
Fixpoint sum_words (sum : Z) (source_string : bytes) : Z :=
  match source_string with
  | c0 :: c1 :: rest => sum_words (Z.land (sum + (c1 * 256 + c0)) 0xffffffff) rest
  | [c] => Z.land (sum + c) 0xffffffff
  | [] => sum
  end.

(** [x >> 8 | (x << 8 & 0xff00)]; the same for [socket.htons] on a little-endian host. *)
Definition swap (x : Z) : Z := Z.lor (Z.shiftr x 8) (Z.land (Z.shiftl x 8) 0xff00).

Definition checksum (source_string : bytes) : Z :=
  let sum := sum_words 0 source_string in
  let sum := Z.shiftr sum 16 + Z.land sum 0xffff in
  let sum := sum + Z.shiftr sum 16 in
  let answer := Z.land (Z.lnot sum) 0xffff in
  swap answer.

(** ['bbHHh']: the codes are aligned without padding, and no value written is negative. *)
Definition icmp_header : fmt := Fmt Native [CInt 1; CInt 1; CInt 2; CInt 2; CInt 2].
Definition header (check id : Z) : res bytes :=
  pack icmp_header [SInt ICMP_ECHO_REQUEST; SInt 0; SInt check; SInt id; SInt 1].

Definition create_packet (id : Z) : res bytes :=
  let data := py_repeat 81 192 in
  let? h := header 0 id in
  let? h := header (swap (checksum (h ++ data))) id in
  Ret (h ++ data).

(** A host: its clock, the packets that arrive and when, open sockets and what was sent. *)
Record host := Host { clock : Z; inbox : list (Z * bytes); opened : Z; sent : list bytes }.

Definition rec_id (vs : list sval) : option Z :=
  match vs !! 3%nat with Some (SInt i) => Some i | _ => None end.

(** The loop of [response_handler]: [select] waits for the next packet or the timeout. *)
Fixpoint response_loop (packet_id time_sent : Z) (inb : list (Z * bytes)) (now timeout : Z) :
    res (option Z) * (Z * list (Z * bytes)) :=
  match inb with
  | [] => (Ret None, (now + timeout, []))
  | (t, pkt) :: rest =>
      if now + timeout <? t then (Ret None, (now + timeout, inb)) else
      let time_received := Z.max now t in
      match unpack icmp_header (slice (take 1024 pkt) 20 28) with
      | Raise e => (Raise e, (time_received, rest))
      | Ret vs =>
          if bool_decide (rec_id vs = Some packet_id)
          then (Ret (Some (time_received - time_sent)), (time_received, rest))
          else let timeout := timeout - (time_received - time_sent) in
               if timeout <=? 0 then (Ret None, (time_received, rest))
               else response_loop packet_id time_sent rest time_received timeout
      end
  end.

Definition response_handler (packet_id time_sent timeout : Z) : PM host (option Z) := fun h =>
  let '(r, (now, rest)) := response_loop packet_id time_sent (inbox h) (clock h) timeout in
  (r, Host now rest (opened h) (sent h)).

(** What the system answers to one call of [echo]: the error of opening a raw socket, whether
    the name is known, the number drawn, and how much of a datagram is taken. *)
Record draws := Draws { refused : option Z; known : bool; drawn : Z; sendto : bytes -> res Z }.

(** [while packet: sent = sock.sendto(..); packet = packet[sent:]] *)
Fixpoint send_loop (fuel : nat) (d : draws) (packet : bytes) : PM host unit :=
  match packet, fuel with
  | [], _ => pm_ret tt
  | _, O => pm_raise Diverges
  | _, S fuel =>
      let! n := pm_lift (sendto d packet) in
      pm_modify (fun h => Host (clock h) (inbox h) (opened h) (sent h ++ [slice_to packet n])) ;!
      send_loop fuel d (slice_from packet n)
  end.

Definition set_opened (n : Z) : PM host unit :=
  pm_modify (fun h => Host (clock h) (inbox h) (opened h + n) (sent h)).

(** [echo]: [drawn d] is [id(timeout) * random.random()]. *)
Definition echo (d : draws) (timeout : Z) : PM host (option Z) :=
  match refused d with
  | Some _ => pm_raise SocketError
  | None =>
      set_opened 1 ;!
      if negb (known d) then pm_ret None else
      let packet_id := drawn d mod 65535 in
      let! packet := pm_lift (create_packet packet_id) in
      send_loop (length packet) d packet ;!
      let! now := pm_get clock in
      let! delay := response_handler packet_id now timeout in
      set_opened (-1) ;!
      pm_ret delay
  end.

(** [recursive]: one call per element of [ds]; what it prints is left out. *)
Fixpoint recursive (ds : list draws) (timeout : Z) (log : list (option Z)) : PM host (list (option Z)) :=
  match ds with
  | [] => pm_ret log
  | d :: ds => let! r := echo d timeout in recursive ds timeout (log ++ [r])
  end.

(** * [lophi/network/__init__.py] *)

Definition ip2int (addr : bytes) : res Z :=
  let? packed := inet_aton addr in Ret (be_combine packed).

Definition int2ip (buffer : bytes) : res bytes :=
  let? a := py_index buffer 0 in
  let? b := py_index buffer 1 in
  let? c := py_index buffer 2 in
  let? d := py_index buffer 3 in
  Ret (dec a ++ [46] ++ dec b ++ [46] ++ dec c ++ [46] ++ dec d).

Definition MAX_PACKET_SIZE : Z := 65516.

(** What the reader of datagrams puts into its queue: an object of [packet_type], or the data
    with the address of the sender. *)
Inductive item (P A : Type) := Packet (x : P) | Raw (recv_data : bytes) (recv_addr : A).
Arguments Packet {P A} x.
Arguments Raw {P A} recv_data recv_addr.

(** [PacketReaderUDP.run]: an event is a datagram, or [None] when receiving raises. *)
Fixpoint reader_run {P A} (packet_type : option (bytes -> res P)) (events : list (option (bytes * A)))
    (output_queue : list (item P A)) : list (item P A) :=
  match events with
  | [] | None :: _ => output_queue
  | Some (d, recv_addr) :: events =>
      let recv_data := slice_to d MAX_PACKET_SIZE in
      match packet_type with
      | Some f => match f recv_data with
                  | Ret packet => reader_run packet_type events (output_queue ++ [Packet packet])
                  | Raise _ => reader_run packet_type events output_queue
                  end
      | None => reader_run packet_type events (output_queue ++ [Raw recv_data recv_addr])
      end
  end.

(** * The sum in one's complement arithmetic *)

(** Addition with end-around carry, and the sum of the words in network order; an odd byte is
    the first of a word. *)
Definition oc_add (a b : Z) : Z := let s := a + b in s mod 65536 + s / 65536.
Fixpoint net_words (d : bytes) : list Z :=
  match d with
  | c0 :: c1 :: d => c0 * 256 + c1 :: net_words d
  | [c] => [c * 256]
  | [] => []
  end.
Definition internet_sum (d : bytes) : Z := foldl oc_add 0 (net_words d).

(** The words as the code reads them. *)
Fixpoint le_words (d : bytes) : list Z :=
  match d with
  | c0 :: c1 :: d => c1 * 256 + c0 :: le_words d
  | [c] => [c]
  | [] => []
  end.
Definition total (l : list Z) : Z := foldr Z.add 0 l.

(** The number from 0 to 65535 that a sum stands for; zero only stands for itself. *)
Definition rep (s : Z) : Z := if s =? 0 then 0 else 1 + (s - 1) mod 65535.

Lemma rep_unique r s k : 0 <= r <= 65535 -> 0 <= s -> s = r + 65535 * k -> (s = 0 <-> r = 0) -> rep s = r.
Proof.
  intros Hr Hs Hk Hz. unfold rep. destruct (Z.eqb_spec s 0); [lia|].
  replace (s - 1) with ((r - 1) + k * 65535) by lia. rewrite Z.mod_add, Z.mod_small; lia.
Qed.
Lemma rep_cases s : 0 <= s -> exists k, s = rep s + 65535 * k /\ 0 <= rep s <= 65535 /\ (s = 0 <-> rep s = 0).
Proof.
  intros Hs. unfold rep. destruct (Z.eqb_spec s 0); [exists 0; lia|].
  pose proof (Z.mod_pos_bound (s - 1) 65535). pose proof (Z.div_mod (s - 1) 65535).
  exists ((s - 1) / 65535). lia.
Qed.

Definition word_ok (w : Z) : Prop := 0 <= w <= 65535.

Lemma oc_add_rep s w : 0 <= s -> word_ok w -> oc_add (rep s) w = rep (s + w).
Proof.
  unfold word_ok. intros Hs Hw. destruct (rep_cases s Hs) as (k & E & Hr & Hz). symmetry.
  unfold oc_add. pose proof (Z.div_mod (rep s + w) 65536). pose proof (Z.mod_pos_bound (rep s + w) 65536).
  assert ((rep s + w) / 65536 = 0 \/ (rep s + w) / 65536 = 1) by lia.
  apply (rep_unique _ _ (k + (rep s + w) / 65536)); lia.
Qed.
Lemma foldl_oc l : Forall word_ok l -> forall s, 0 <= s -> foldl oc_add (rep s) l = rep (s + total l).
Proof.
  induction 1 as [|w l Hw Hl IH]; intros s Hs; cbn [foldl total foldr]; [by rewrite Z.add_0_r|].
  rewrite oc_add_rep, IH by (unfold word_ok in *; lia). f_equal. unfold total. lia.
Qed.

(** Induction by pairs of bytes *)
Lemma list_ind2 {A} (P : list A -> Prop) :
  P [] -> (forall a, P [a]) -> (forall a b l, P l -> P (a :: b :: l)) -> forall l, P l.
Proof. intros H0 H1 H2. fix IH 1. intros [|a [|b l]]; [auto..|]. apply H2, IH. Qed.

Ltac bytes_cons H := repeat (apply Forall_cons in H as [? H]); unfold byte_ok in *.

Lemma sum_words_ok d : bytes_ok d -> Forall word_ok (le_words d) /\ Forall word_ok (net_words d).
Proof.
  induction d as [|a|a b d IH] using list_ind2; intros Hd; cbn [le_words net_words]; [done|..];
    bytes_cons Hd; [|destruct (IH Hd)]; split; (apply Forall_cons; split; [unfold word_ok; lia|done]).
Qed.
Lemma total_nonneg l : Forall word_ok l -> 0 <= total l <= 65535 * zlen l.
Proof.
  unfold word_ok. induction 1 as [|w l Hw _ IH]; cbn [total foldr]; [by cbn|].
  rewrite zlen_cons. unfold total in IH. lia.
Qed.

(** Swapping the bytes of all words multiplies their sum by 256. *)
Lemma total_swap d : bytes_ok d -> exists k, total (net_words d) = 256 * total (le_words d) - 65535 * k /\ 0 <= k /\
  (total (net_words d) = 0 <-> total (le_words d) = 0).
Proof.
  induction d as [|a|a b d IH] using list_ind2; intros Hd; cbn [le_words net_words total foldr].
  - exists 0. lia.
  - bytes_cons Hd. exists 0. lia.
  - bytes_cons Hd. destruct (IH Hd) as (k & E & Hk & Hz). unfold total in *. exists (k + b).
    destruct (sum_words_ok d Hd) as [W1 W2]. pose proof (total_nonneg _ W1). pose proof (total_nonneg _ W2). unfold total in *. lia.
Qed.

(** ** Words of 16 bits, by evaluation *)

Lemma all_words (f : Z -> bool) :
  forallb (fun a => forallb (fun b => f (256 * a + b)) (seqZ 0 256)) (seqZ 0 256) = true -> forall x, word_ok x -> f x = true.
Proof.
  unfold word_ok. intros H x Hx. pose proof (Z.div_mod x 256) as E. pose proof (Z.mod_pos_bound x 256).
  rewrite E by done. apply (all_bytes (fun b => f (256 * (x / 256) + b))); [|unfold byte_ok; lia].
  apply (all_bytes (fun a => forallb (fun b => f (256 * a + b)) (seqZ 0 256))); [done|].
  unfold byte_ok. lia.
Qed.
Lemma swap_div x : word_ok x -> swap x = x / 256 + 256 * (x mod 256).
Proof.
  intros Hx. apply Z.eqb_eq. revert x Hx. apply (all_words (fun x => swap x =? x / 256 + 256 * (x mod 256))).
  vm_compute. reflexivity.
Qed.
Lemma swap_ok x : word_ok x -> word_ok (swap x).
Proof.
  intros Hx. rewrite swap_div by done. unfold word_ok in *. pose proof (Z.mod_pos_bound x 256).
  pose proof (Z.div_mod x 256). lia.
Qed.
Lemma swap_swap x : word_ok x -> swap (swap x) = x.
Proof.
  intros Hx. apply Z.eqb_eq. revert x Hx. apply (all_words (fun x => swap (swap x) =? x)). vm_compute. reflexivity.
Qed.
Lemma swap_compl x : word_ok x -> swap (65535 - x) = 65535 - swap x.
Proof.
  intros Hx. apply Z.eqb_eq. revert x Hx. apply (all_words (fun x => swap (65535 - x) =? 65535 - swap x)).
  vm_compute. reflexivity.
Qed.
Lemma rep_swap d : bytes_ok d -> swap (rep (total (le_words d))) = rep (total (net_words d)).
Proof.
  intros Hd. destruct (sum_words_ok d Hd) as [W1 W2]. pose proof (total_nonneg _ W1) as H1. pose proof (total_nonneg _ W2) as H2.
  destruct (rep_cases (total (le_words d))) as (k & E & Hr & Hz); [lia|].
  destruct (total_swap d Hd) as (j & F & Hj & Hz'). symmetry.
  assert (word_ok (rep (total (le_words d)))) as Hw by done. pose proof (swap_ok _ Hw). unfold word_ok in *.
  rewrite swap_div in * by done. set (r := rep _) in *.
  pose proof (Z.div_mod r 256). pose proof (Z.mod_pos_bound r 256).
  apply (rep_unique _ _ (256 * k - j + r / 256)); lia.
Qed.

(** ** The checksum *)

Lemma sum_words_total d : bytes_ok d -> forall s, 0 <= s -> s + total (le_words d) < 2 ^ 32 ->
  sum_words s d = s + total (le_words d).
Proof.
  assert (forall x, 0 <= x < 2 ^ 32 -> Z.land x 0xffffffff = x) as Hl.
  { intros x Hx. change 0xffffffff with (Z.ones 32). rewrite Z.land_ones by lia. by apply Z.mod_small. }
  induction d as [|a|a b d IH] using list_ind2; intros Hd s Hs Hb; cbn [sum_words le_words total foldr] in *.
  - lia.
  - bytes_cons Hd. rewrite Hl; lia.
  - bytes_cons Hd. destruct (sum_words_ok d Hd) as [W _]. pose proof (total_nonneg _ W). unfold total in *.
    rewrite Hl by lia. rewrite IH; [lia|done|lia|lia].
Qed.

Lemma fold_carries s : 0 <= s < 2 ^ 32 ->
  let t := Z.shiftr s 16 + Z.land s 0xffff in Z.land (Z.lnot (t + Z.shiftr t 16)) 0xffff = 65535 - rep s.
Proof.
  intros Hs t. subst t. rewrite !Z.shiftr_div_pow2 by lia. change 0xffff with (Z.ones 16).
  rewrite !Z.land_ones by lia. change (Z.ones 16) with 65535. change (2 ^ 16) with 65536. change (2 ^ 32) with (65536 * 65536) in Hs.
  set (t := s / 65536 + s mod 65536). unfold Z.lnot.
  pose proof (Z.div_mod s 65536). pose proof (Z.mod_pos_bound s 65536).
  assert (0 <= s / 65536 < 65536) by (split; [apply Z.div_pos; lia|apply Z.div_lt_upper_bound; lia]).
  pose proof (Z.div_mod t 65536). pose proof (Z.mod_pos_bound t 65536).
  assert (t / 65536 = 0 \/ t / 65536 = 1) as Ht by lia.
  assert (rep s = t - 65535 * (t / 65536)) as -> by (apply (rep_unique _ _ (s / 65536 + t / 65536)); lia).
  replace (Z.pred (- (t + t / 65536))) with (65535 - (t - 65535 * (t / 65536)) + (- 1 - t / 65536) * 65536) by lia.
  rewrite Z.mod_add, Z.mod_small by lia. lia.
Qed.

Lemma zlen_le_words d : 2 * zlen (le_words d) <= zlen d + 1.
Proof.
  induction d as [|a|a b d IH] using list_ind2; [by cbn..|]. cbn [le_words]. rewrite !zlen_cons. lia.
Qed.
Lemma internet_sum_rep d : bytes_ok d -> internet_sum d = rep (total (net_words d)).
Proof.
  intros Hd. destruct (sum_words_ok d Hd) as [_ W]. unfold internet_sum.
  change 0 with (rep 0) at 1. by rewrite foldl_oc.
Qed.

(** On any data of up to 128 KiB the checksum of a packet, computed from words in the order of
    the host and swapped at the end, is the complement of the one's complement sum of the
    words in network order. *)
Theorem checksum_internet d : bytes_ok d -> zlen d <= 131072 -> checksum d = 65535 - internet_sum d.
Proof.
  intros Hd Hlen. destruct (sum_words_ok d Hd) as [W _]. pose proof (total_nonneg _ W). pose proof (zlen_le_words d).
  assert (0 <= total (le_words d) < 2 ^ 32) as Hb by lia.
  unfold checksum. rewrite sum_words_total by (done || lia). rewrite Z.add_0_l, fold_carries by done.
  destruct (rep_cases (total (le_words d))) as (_ & _ & Hr & _); [lia|].
  by rewrite swap_compl, rep_swap, internet_sum_rep.
Qed.

Lemma checksum_internet_witness : checksum [0; 1; 242; 3; 244; 245; 246; 247] = 65535 - internet_sum [0; 1; 242; 3; 244; 245; 246; 247].
Proof. apply checksum_internet; [repeat constructor; unfold byte_ok; lia|vm_compute; discriminate]. Defined.

(** ** Requests *)

Definition padding : bytes := py_repeat 81 192.

Lemma header_bytes check id : word_ok check -> word_ok id ->
  header check id = Ret ([8; 0] ++ le_split 2 check ++ le_split 2 id ++ [1; 0]).
Proof.
  unfold word_ok. intros Hc Hi. unfold header, pack. cbn [f_order f_codes icmp_header pack_codes].
  change (256 ^ Z.of_nat 2) with 65536. change (256 ^ Z.of_nat 1) with 256.
  rewrite (proj2 (Z.ltb_lt check 65536)), (proj2 (Z.ltb_lt id 65536)) by lia.
  by rewrite (proj2 (Z.leb_le 0 check)), (proj2 (Z.leb_le 0 id)) by lia.
Qed.

Definition request (check id : Z) : bytes := [8; 0] ++ le_split 2 check ++ le_split 2 id ++ [1; 0] ++ padding.

Lemma echo_request_ok check id : bytes_ok (request check id).
Proof.
  unfold request, bytes_ok. repeat apply Forall_app_2; try apply le_split_ok;
    unfold padding, py_repeat; try apply Forall_replicate; repeat constructor; unfold byte_ok; lia.
Qed.
Lemma total_request check id : word_ok check -> word_ok id ->
  total (le_words (request check id)) = check + id + 8 + 1 + total (le_words padding).
Proof.
  unfold word_ok. intros Hc Hi. unfold request. cbn [le_split app le_words total foldr].
  assert (forall x, 0 <= x <= 65535 -> 0 <= x / 256 < 256) as Hq by (intros x Hx; split; [apply Z.div_pos|apply Z.div_lt_upper_bound]; lia).
  rewrite (Z.mod_small (check / 256)), (Z.mod_small (id / 256)) by (by apply Hq).
  pose proof (Z.div_mod check 256). pose proof (Z.div_mod id 256). unfold total. lia.
Qed.

(** The request that is sent: the checksum field holds the complement of the sum of the rest. *)
Definition ping_check (id : Z) : Z := 65535 - rep (total (le_words (request 0 id))).

Lemma create_packet_request id : word_ok id -> word_ok (ping_check id) /\ create_packet id = Ret (request (ping_check id) id).
Proof.
  intros Hi. destruct (sum_words_ok _ (echo_request_ok 0 id)) as [W _]. pose proof (total_nonneg _ W) as Ht.
  destruct (rep_cases (total (le_words (request 0 id)))) as (_ & _ & Hr & _); [lia|].
  assert (word_ok (ping_check id)) as Hw by (unfold word_ok, ping_check; lia). split; [done|].
  unfold create_packet. rewrite header_bytes by (done || by unfold word_ok). cbn [res_bind].
  change (([8; 0] ++ le_split 2 0 ++ le_split 2 id ++ [1; 0]) ++ py_repeat 81 192) with (request 0 id).
  rewrite checksum_internet, internet_sum_rep, <- rep_swap, <- swap_compl, swap_swap by (done || apply echo_request_ok || by vm_compute).
  fold (ping_check id). by rewrite header_bytes.
Qed.

(** A receiver that sums the words of the request finds all ones. *)
Lemma request_sum id : word_ok id -> internet_sum (request (ping_check id) id) = 65535.
Proof.
  intros Hi. destruct (create_packet_request id Hi) as [Hw _]. rewrite internet_sum_rep, <- rep_swap by apply echo_request_ok.
  assert (rep (total (le_words (request (ping_check id) id))) = 65535) as ->; [|by vm_compute].
  rewrite total_request by done. unfold ping_check in *. destruct (sum_words_ok _ (echo_request_ok 0 id)) as [W _].
  pose proof (total_nonneg _ W). destruct (rep_cases (total (le_words (request 0 id)))) as (k & E & Hr & Hz); [lia|].
  rewrite total_request in * by (done || by unfold word_ok). set (r := rep _) in *.
  apply (rep_unique _ _ k); unfold word_ok in *; lia.
Qed.

(** ** Replies *)

(** The identifier that [response_handler] reads in a packet: 20 bytes of IP header are skipped. *)
Definition reply_id (pkt : bytes) : option Z :=
  match unpack icmp_header (slice (take 1024 pkt) 20 28) with Ret vs => rec_id vs | Raise _ => None end.

(** Waiting ends in time, and what is returned is the delay of a packet with the identifier. *)
Lemma response_in_time i ts T inb : forall now timeout, ts <= now -> 0 <= timeout <= T -> now + timeout <= ts + T ->
  let '(r, (now', _)) := response_loop i ts inb now timeout in
  now' <= ts + T /\
  forall d, r = Ret (Some d) -> 0 <= d <= T /\ exists t pkt, (t, pkt) ∈ inb /\ reply_id pkt = Some i.
Proof.
  induction inb as [|[t pkt] inb IH]; intros now timeout Hn Ht HT; cbn [response_loop]; [done|].
  destruct (Z.ltb_spec (now + timeout) t); [done|].
  unfold reply_id in *. destruct (unpack _ _) as [vs|e] eqn:E; [|split; [lia|done]].
  case_bool_decide as Hi.
  - split; [lia|]. intros d [= <-]. split; [lia|]. exists t, pkt. rewrite E. split; [left|done].
  - destruct (Z.leb_spec (timeout - (Z.max now t - ts)) 0); [split; [lia|done]|].
    specialize (IH (Z.max now t) (timeout - (Z.max now t - ts)) ltac:(lia) ltac:(lia) ltac:(lia)).
    destruct (response_loop _ _ _ _ _) as [r [now' rest]]. destruct IH as [H1 H2]. split; [done|].
    intros d Hd. destruct (H2 d Hd) as [Hb (t' & pkt' & Hin & Hr)]. split; [done|].
    exists t', pkt'. split; [by right|done].
Qed.

(** Packets of others are skipped as long as the timeout is not used up by them. *)
Definition foreign (i ts t : Z) (x : Z * bytes) : Prop :=
  ts <= x.1 <= t /\ exists j, reply_id x.2 = Some j /\ j <> i.

Lemma reply_found i ts t pkt rest others : Forall (foreign i ts t) others -> reply_id pkt = Some i ->
  forall now timeout, ts <= now <= t -> ts < t -> (zlen others + 1) * (t - ts) <= timeout ->
  response_loop i ts (others ++ (t, pkt) :: rest) now timeout = (Ret (Some (t - ts)), (t, rest)).
Proof.
  intros Ho Hp. induction Ho as [|[t' pkt'] others [Hb (j & Hj & Hne)] _ IH]; intros now timeout Hn Hts Hto; cbn [app response_loop].
  - rewrite zlen_nil in Hto. rewrite (proj2 (Z.ltb_ge _ _)), (Z.max_r now t) by lia. unfold reply_id in Hp.
    destruct (unpack _ _) as [vs|]; [|done]. by rewrite bool_decide_eq_true_2.
  - rewrite zlen_cons in Hto. cbn [fst snd] in *. pose proof (zlen_nonneg others).
    assert (0 <= zlen others * (t - ts)) by nia. rewrite (proj2 (Z.ltb_ge _ _)) by nia.
    unfold reply_id in Hj. destruct (unpack _ _) as [vs|]; [|done].
    rewrite bool_decide_eq_false_2 by (rewrite Hj; congruence).
    destruct (Z.leb_spec (timeout - (Z.max now t' - ts)) 0); [nia|]. apply IH; nia.
Qed.

Lemma echo_send_whole d packet h : packet <> [] -> (forall p, sendto d p = Ret (zlen p)) ->
  send_loop (length packet) d packet h = (Ret tt, Host (clock h) (inbox h) (opened h) (sent h ++ [packet])).
Proof.
  intros Hne Hs. destruct packet as [|c packet]; [done|]. cbn [send_loop length]. unfold pm_bind, pm_lift. rewrite Hs.
  unfold pm_modify, slice_from, slice_to. rewrite clamp_nonneg, Z.min_id by apply zlen_nonneg. unfold zlen.
  rewrite Nat2Z.id, drop_all, firstn_all. by destruct (length packet).
Qed.

(** A host that is known and answers is measured: whatever other packets arrive before, one
    request of 200 bytes goes out, with the drawn identifier and a checksum that a receiver
    accepts, the delay returned is that of the answer, and the socket is closed. *)
Theorem echo_answered d timeout h t reply rest others :
  refused d = None -> known d = true -> (forall p, sendto d p = Ret (zlen p)) ->
  inbox h = others ++ (t, reply) :: rest -> reply_id reply = Some (drawn d mod 65535) ->
  Forall (foreign (drawn d mod 65535) (clock h) t) others ->
  clock h < t -> (zlen others + 1) * (t - clock h) <= timeout ->
  exists pkt check, echo d timeout h = (Ret (Some (t - clock h)), Host t rest (opened h) (sent h ++ [pkt])) /\
    zlen pkt = 200 /\ internet_sum pkt = 65535 /\
    unpack icmp_header (take 8 pkt) = Ret [SInt ICMP_ECHO_REQUEST; SInt 0; SInt check; SInt (drawn d mod 65535); SInt 1].
Proof.
  intros Hr Hk Hs Hin Hre Ho Ht Hto. pose proof (Z.mod_pos_bound (drawn d) 65535).
  set (i := drawn d mod 65535) in *. assert (word_ok i) as Hi by (unfold word_ok; lia).
  destruct (create_packet_request i Hi) as [Hc Hp]. exists (request (ping_check i) i), (ping_check i). repeat split.
  - unfold echo. rewrite Hr, Hk. fold i. rewrite Hp. unfold set_opened, pm_modify, pm_get, pm_ret. cbn [negb].
    unfold pm_bind, pm_lift at 1. rewrite echo_send_whole by done. unfold response_handler. cbn [inbox clock opened sent].
    rewrite Hin, (reply_found i (clock h) t) by (done || lia). cbn [clock inbox opened sent]. do 2 f_equal. lia.
  - by apply request_sum.
  - pose proof (header_bytes (ping_check i) i Hc Hi) as Hh. unfold header, pack in Hh.
    unfold request. rewrite !app_assoc, take_app_length', <- !app_assoc by done.
    unfold unpack. rewrite bool_decide_eq_true_2 by done. f_equal. by rewrite (unpack_pack_codes _ _ _ _ Hh).
Qed.

(** An answer to the request 5 that arrives at time 7. *)
Definition answer (i : Z) : bytes := replicate 20 69 ++ [0; 0; 1; 2] ++ le_split 2 i ++ [1; 0].
Lemma echo_answered_witness : exists pkt check,
  echo (Draws None true 65540 (fun p => Ret (zlen p))) 20 (Host 0 [(3, answer 9); (7, answer 5)] 0 []) =
    (Ret (Some (7 - 0)), Host 7 [] 0 ([] ++ [pkt])) /\
  zlen pkt = 200 /\ internet_sum pkt = 65535 /\
  unpack icmp_header (take 8 pkt) = Ret [SInt ICMP_ECHO_REQUEST; SInt 0; SInt check; SInt (65540 mod 65535); SInt 1].
Proof.
  apply (echo_answered (Draws None true 65540 (fun p => Ret (zlen p))) 20 (Host 0 [(3, answer 9); (7, answer 5)] 0 []) 7 (answer 5) []
    [(3, answer 9)]); try reflexivity; [|vm_compute; discriminate].
  apply Forall_singleton. split; [cbn; lia|]. exists 9. split; [vm_compute; reflexivity|vm_compute; discriminate].
Defined.

(** ** Errors *)

(** The time since the request is taken off again with every packet: an answer within the
    timeout is not waited for. *)
Theorem answer_missed :
  response_loop 5 0 [(4, answer 9); (5, answer 9); (8, answer 5)] 0 10 = (Ret None, (6, [(8, answer 5)])).
Proof. vm_compute. reflexivity. Qed.
(** A datagram that is too short for a header ends the wait with an exception. *)
Theorem short_packet_raises i ts t rest now timeout : t <= now + timeout ->
  (response_loop i ts ((t, replicate 20 0) :: rest) now timeout).1 = Raise StructError.
Proof. intros H. cbn [response_loop]. by rewrite (proj2 (Z.ltb_ge _ _)). Qed.
(** The socket of a request to an unknown name stays open. *)
Theorem unknown_leaks d timeout h : refused d = None -> known d = false ->
  echo d timeout h = (Ret None, Host (clock h) (inbox h) (opened h + 1) (sent h)).
Proof. intros Hr Hk. unfold echo. by rewrite Hr, Hk. Qed.
(** The request itself, which arrives on the loopback interface, passes for its answer. *)
Theorem request_is_answer : reply_id (replicate 20 69 ++ request (ping_check 5) 5) = Some 5.
Proof. vm_compute. reflexivity. Qed.

(** ** Addresses and datagrams *)

Theorem int2ip_back packed : bytes_ok packed -> length packed = 4%nat ->
  exists s, int2ip packed = Ret s /\ ip2int s = Ret (be_combine packed).
Proof.
  intros Hok Hl. destruct packed as [|a [|b [|c [|e [|]]]]]; try done.
  exists (join [46] (dec <$> [a; b; c; e])). split; [done|]. unfold ip2int, inet_aton.
  assert (inet_ntoa [a; b; c; e] = Ret (join [46] (dec <$> [a; b; c; e]))) as Hn by done.
  rewrite (aton_ntoa _ _ Hok Hn). cbn [res_bind]. by rewrite (be_combine_split 4) by exact (be_combine_bound _ Hok).
Qed.

(** The queue of the reader holds the datagrams that were received, cut to the size of a packet,
    in order; those that cannot be converted are left out, and the first error ends it. *)
Fixpoint received {A} (events : list (option A)) : list A :=
  match events with Some x :: events => x :: received events | _ => [] end.
Theorem reader_queue {P A} (packet_type : option (bytes -> res P)) (events : list (option (bytes * A))) : forall q,
  reader_run packet_type events q = q ++ omap (fun x =>
    match packet_type with
    | Some f => match f (slice_to x.1 MAX_PACKET_SIZE) with Ret p => Some (Packet p) | Raise _ => None end
    | None => Some (Raw (slice_to x.1 MAX_PACKET_SIZE) x.2)
    end) (received events).
Proof.
  induction events as [|[[d a]|] events IH]; intros q; cbn [reader_run received omap list_omap]; [by rewrite app_nil_r| |by rewrite app_nil_r].
  destruct packet_type as [f|]; cbn [fst snd]; [destruct (f _)|]; rewrite IH, <- ?app_assoc; done.
Qed.
