(* ===== verification/AddressSpace.v ===== *)
(** The address space for Volatility ([python-lophi-volatility/volatility/lophiaddressspace.py]):
    reads of a memory sensor behind the interface of Volatility, and amounts of memory as text.

    The sensor is any instance of the class of [MemorySensor], so the theorems hold for both. *)
From S2P Require Import Prelude Struct PyString MemorySensor PhysicalMemory.

(** * Amounts of memory *)

(** [s.startswith(t)], [s.endswith(t)] *)
Definition startswith (t s : bytes) : bool := bool_decide (take (length t) s = t).
Definition endswith (t s : bytes) : bool := bool_decide (drop (length s - length t) s = t).

Definition multiplier (normalized : bytes) : Z :=
  if endswith (lit "kb") normalized || endswith (lit "k") normalized then 1024
  else if endswith (lit "mb") normalized || endswith (lit "m") normalized then 1024 * 1024
  else if endswith (lit "gb") normalized || endswith (lit "g") normalized then 1024 * 1024 * 1024
  else 1.

Definition parse_byte_amount (spec_string : bytes) : res Z :=
  let normalized := strip (lower spec_string) in
  let m := multiplier normalized in
  let? c := py_index normalized (-1) in
  let normalized := if c =? 98 then slice_to normalized (-2)
                    else if negb (is_digit c) then slice_to normalized (-1) else normalized in
  let? n := py_int normalized in
  Ret (n * m).

(** * The address space *)

(** The options of Volatility that are read. *)
Record config := Config { LOCATION : bytes; LOPHI_CACHE : bool; RAM_SIZE : option bytes }.

Record aspace (S : Type) := ASpace {
  client : msensor S; virtual : bool; dtb : option Z; name : bytes;
  caching : bool; address : Z; size : Z
}.
Arguments ASpace {S}.
Arguments client {S}.
Arguments virtual {S}.
Arguments dtb {S}.
Arguments name {S}.
Arguments caching {S}.
Arguments address {S}.
Arguments size {S}.

Section space.
Context {S : Type} `{Sensor S}.
(** The classes of sensors, given a location and a cache timeout, and the register of a guest. *)
Context (MemorySensorPhysical MemorySensorVirtual : bytes -> Z -> msensor S).
Context (get_vcpureg : msensor S -> res Z).
Abbreviation M := (PM (aspace S)).

Definition set_client (c : msensor S) (a : aspace S) : aspace S :=
  ASpace c (virtual a) (dtb a) (name a) (caching a) (address a) (size a).
Definition set_address (z : Z) (a : aspace S) : aspace S :=
  ASpace (client a) (virtual a) (dtb a) (name a) (caching a) z (size a).

(** [__init__]: [None] when the program exits for want of a size.  [raise] of a string is a
    [TypeError]. *)
Definition init (base_none layered : bool) (c : config) : res (option (aspace S)) :=
  if negb (base_none || layered) then Raise AssertionError else
  let cache_timeout := if LOPHI_CACHE c then 1 else 0 in
  let? s := (if startswith (lit "lophi://") (LOCATION c) then
               let location := slice_from (LOCATION c) 8 in
               Ret (MemorySensorPhysical location cache_timeout, false, None, location)
             else if startswith (lit "vmi://") (LOCATION c) then
               let location := slice_from (LOCATION c) 6 in
               let cl := MemorySensorVirtual location cache_timeout in
               let? cr3 := get_vcpureg cl in Ret (cl, true, Some cr3, location)
             else Raise TypeError) in
  let '(cl, v, d, location) := s in
  match RAM_SIZE c with
  | None => Ret None
  | Some spec => let? n := parse_byte_amount spec in Ret (Some (ASpace cl v d location false 0 n))
  end.

Definition set_caching (status : bool) : M unit := pm_modify (fun a =>
  ASpace (client a) (virtual a) (dtb a) (name a) status (address a) (size a)).

Definition read (addr length : Z) : M (option bytes) := fun a =>
  let '(r, c) := MemorySensor.read addr length (client a) in (r, set_client c a).

(** [self.vmi] does not exist. *)
Definition write (addr : Z) (data : bytes) : M bool := pm_raise AttributeError.

Definition get_cr3 : M (option Z) := fun a =>
  if virtual a then ((let? z := get_vcpureg (client a) in Ret (Some z)), a) else (Ret None, a).

Definition fread (len : Z) : M (option bytes) :=
  let! a := pm_get address in
  let! data := read a len in
  pm_modify (fun s => set_address (address s + len) s) ;!
  pm_ret data.

Definition zread (addr len : Z) : M (option bytes) := read addr len.

Definition read_long (addr : Z) : M Z :=
  let! string := read addr 4 in
  match string with
  | None => pm_raise TypeError
  | Some s => let! vs := pm_lift (unpack (Fmt Native [CInt 4]) s) in
              match vs with [SInt longval] => pm_ret longval | _ => pm_raise ValueError end
  end.

Definition intervals (start end_ : Z) : list (Z * Z) := [(start, end_)].
Definition get_available_addresses (a : aspace S) : list (Z * Z) := [(0, size a - 1)].
Definition is_valid_address (addr : option Z) (a : aspace S) : bool :=
  match addr with None => false | Some x => x <? size a end.

(** * Memory that does not change while it is read *)

Context (mem : Z -> Z) (lim : Z) (ok : S -> Prop) `{!SensorLaws S (fun _ => mem) lim ok}.

(** What the sensor shows of [mem]: zeros in the holes. *)
Definition shown (m : msensor S) (x : Z) : Z := if decide (is_bad (BAD_MEM_REGIONS m) x) then 0 else mem x.

Lemma separated_filter P `{!forall x, Decision (P x)} bads : separated bads -> separated (filter P bads).
Proof.
  intros [H2 H1]. split.
  - clear H1. induction H2 as [|r bads Hs IH Hr]; [constructor|]. rewrite filter_cons. destruct (decide _); [|done].
    constructor; [done|]. apply Forall_forall. intros x [_ Hx]%list_elem_of_filter. by eapply Forall_forall in Hr.
  - apply Forall_forall. intros x [_ Hx]%list_elem_of_filter. by eapply Forall_forall in H1.
Qed.

(** A client whose cache, if it has one, holds the memory, and whose holes are in order. *)
Definition client_ok (m : msensor S) : Prop := cache_inv (fun _ => mem) ok m /\ separated (BAD_MEM_REGIONS m).

Lemma read_shown m a n : client_ok m -> 0 <= a -> 0 < n -> a + n + CACHE_CHUNK <= lim ->
  exists m', MemorySensor.read a n m = (Ret (Some (shown m <$> seqZ a n)), m') /\ client_ok m' /\
    BAD_MEM_REGIONS m' = BAD_MEM_REGIONS m.
Proof.
  intros [Hm Hs] Ha Hn Hl.
  destruct (read_spec (fun _ => mem) lim ok m a n Hm (proj2 Hs)) as (d & m' & Hr & Hm' & Hz & Hb & _ & Hd);
    [by apply separated_filter|done..|]. exists m'. unfold client_ok. rewrite Hb. split; [|done]. rewrite Hr. do 3 f_equal.
  apply list_eq_same_length with (length d); [|done|].
  - rewrite length_fmap, length_seqZ. unfold zlen in Hz. lia.
  - intros i x y Hi Hx Hy. destruct (Hd i x Hx) as [H1 H2].
    apply list_lookup_fmap_Some in Hy as (z & -> & Hzz). apply lookup_seqZ in Hzz as [-> _]. unfold shown.
    destruct (decide _) as [Hbad|Hgood]; [by apply H1|]. by destruct (H2 Hgood) as (_ & _ & ->).
Qed.

Lemma space_read a x n : client_ok (client a) -> 0 <= x -> 0 < n -> x + n + CACHE_CHUNK <= lim ->
  exists c, read x n a = (Ret (Some (shown (client a) <$> seqZ x n)), set_client c a) /\ client_ok c /\
    BAD_MEM_REGIONS c = BAD_MEM_REGIONS (client a).
Proof.
  intros Hc Hx Hn Hl. destruct (read_shown _ x n Hc Hx Hn Hl) as (c & Hr & Hok & Hb). exists c.
  unfold read. by rewrite Hr.
Qed.

(** A sequence of calls of [fread] and what they return. *)
Fixpoint freads (lens : list Z) : M (list (option bytes)) :=
  match lens with
  | [] => pm_ret []
  | n :: lens => let! d := fread n in let! ds := freads lens in pm_ret (d :: ds)
  end.

Definition sum_of (l : list Z) : Z := foldr Z.add 0 l.

(** Reading an address space as a file, in pieces of any sizes and through any sensor that keeps
    its promises, gives the memory from the current address on, with the holes of the
    machine as zeros, each piece of the length asked for, and ends behind it. *)
Theorem fread_stream lens : forall a, client_ok (client a) -> Forall (fun n => 0 < n) lens -> 0 <= address a ->
  address a + sum_of lens + CACHE_CHUNK <= lim ->
  exists ds a', freads lens a = (Ret (Some <$> ds), a') /\ concat ds = shown (client a) <$> seqZ (address a) (sum_of lens) /\
    length <$> ds = Z.to_nat <$> lens /\ address a' = address a + sum_of lens.
Proof.
  induction lens as [|n lens IH]; intros a Hc Hpos Ha Hl; cbn [freads sum_of foldr] in *.
  { exists [], a. cbn. split_and!; [done|done|done|lia]. }
  apply Forall_cons in Hpos as [Hn Hpos]. fold (sum_of lens) in *.
  assert (0 <= sum_of lens) as Hs.
  { clear -Hpos. unfold sum_of. induction Hpos; cbn [foldr]; lia. }
  destruct (space_read a (address a) n Hc Ha Hn) as (c & Hr & Hok & Hb); [lia|].
  destruct (IH (set_address (address a + n) (set_client c a))) as (ds & a' & Hf & Hd & Hlen & Ha'); [done|done|cbn; lia|cbn; lia|].
  exists ((shown (client a) <$> seqZ (address a) n) :: ds), a'. unfold fread, pm_bind, pm_get. rewrite Hr.
  unfold pm_modify, pm_ret. cbn [address set_client]. rewrite Hf. split; [done|]. cbn [concat fmap list_fmap]. split_and!.
  - rewrite Hd, seqZ_app, fmap_app by lia. f_equal. cbn [address set_address client set_client].
    unfold shown. by rewrite Hb.
  - rewrite length_fmap, length_seqZ. f_equal. exact Hlen.
  - rewrite Ha'. cbn [address set_address set_client]. lia.
Qed.

(** A long is the four bytes at its address, the first one the lowest. *)
Theorem read_long_value a x : client_ok (client a) -> 0 <= x -> x + 4 + CACHE_CHUNK <= lim ->
  (read_long x a).1 = Ret (le_combine (shown (client a) <$> seqZ x 4)).
Proof.
  intros Hc Hx Hl. destruct (space_read a x 4 Hc Hx ltac:(lia) Hl) as (c & Hr & _). unfold read_long, pm_bind at 1. rewrite Hr.
  unfold pm_bind, pm_lift, unpack. rewrite bool_decide_eq_true_2 by done. done.
Qed.

(** Writing raises. *)
Theorem write_raises x d a : (write x d a).1 = Raise AttributeError.
Proof. done. Qed.
End space.

(** * Units *)

Lemma endswith_spec t s : endswith t s = true <-> exists p, s = p ++ t.
Proof.
  unfold endswith. rewrite bool_decide_eq_true. split.
  - intros E. exists (take (length s - length t) s). rewrite <- E at 2. by rewrite take_drop.
  - intros [p ->]. rewrite length_app. replace (_ + _ - _)%nat with (length p) by lia. apply drop_app_length.
Qed.
Lemma endswith_snoc d c t c' : endswith (t ++ [c']) (d ++ [c]) = (c =? c') && endswith t d.
Proof.
  apply eq_true_iff_eq. rewrite andb_true_iff, !endswith_spec, Z.eqb_eq. split.
  - intros [p E]. rewrite app_assoc in E. apply app_inj_tail in E as [-> ->]. eauto.
  - intros [-> [p ->]]. exists p. by rewrite app_assoc.
Qed.
Lemma endswith_nil d : endswith [] d = true.
Proof. apply endswith_spec. exists d. by rewrite app_nil_r. Qed.
Lemma endswith1 d c x : endswith [x] (d ++ [c]) = (c =? x).
Proof. change [x] with ([] ++ [x]). by rewrite endswith_snoc, endswith_nil, andb_true_r. Qed.
Lemma endswith2 d c x y : endswith [x; y] (d ++ [c]) = (c =? y) && endswith [x] d.
Proof. change [x; y] with ([x] ++ [y]). by rewrite endswith_snoc. Qed.

Definition units : list (bytes * Z) :=
  [(lit "", 1); (lit "k", 1024); (lit "K", 1024); (lit "kb", 1024); (lit "KB", 1024);
   (lit "m", 1024 ^ 2); (lit "M", 1024 ^ 2); (lit "mb", 1024 ^ 2); (lit "MB", 1024 ^ 2);
   (lit "g", 1024 ^ 3); (lit "G", 1024 ^ 3); (lit "gb", 1024 ^ 3); (lit "GB", 1024 ^ 3)].

Lemma lower_digits d : forallb is_digit d = true -> lower d = d.
Proof.
  intros H. unfold lower. rewrite <- (map_id d) at 2. apply map_ext_in. intros c Hc.
  pose proof (proj1 (forallb_forall _ _) H c Hc) as Hd. unfold is_digit in Hd.
  destruct (Z.leb_spec 65 c); [lia|done].
Qed.

(** What the last one or two characters of a text decide. *)
Lemma multiplier_last d c : multiplier (d ++ [c]) =
  if ((c =? 98) && endswith [107] d) || (c =? 107) then 1024
  else if ((c =? 98) && endswith [109] d) || (c =? 109) then 1024 * 1024
  else if ((c =? 98) && endswith [103] d) || (c =? 103) then 1024 * 1024 * 1024 else 1.
Proof.
  unfold multiplier. change (lit "kb") with [107; 98]. change (lit "mb") with [109; 98]. change (lit "gb") with [103; 98].
  change (lit "k") with [107]. change (lit "m") with [109]. change (lit "g") with [103]. by rewrite !endswith2, !endswith1.
Qed.
Lemma py_index_last {A} (d : list A) c : py_index (d ++ [c]) (-1) = Ret c.
Proof.
  unfold py_index. cbn [Z.ltb Z.compare]. rewrite zlen_app. replace (-1 + (zlen d + zlen [c])) with (zlen d) by (change (zlen [c]) with 1; lia).
  pose proof (zlen_nonneg d). destruct (Z.ltb_spec (zlen d) 0); [lia|].
  unfold zlen. by rewrite Nat2Z.id, list_lookup_middle.
Qed.
Lemma slice_to_neg {A} (d e : list A) n : n = - zlen e -> 0 < zlen e -> slice_to (d ++ e) n = d.
Proof.
  intros -> He. unfold slice_to, clamp. rewrite (proj2 (Z.ltb_lt (- zlen e) 0)) by lia. rewrite zlen_app, Z.max_r by (pose proof (zlen_nonneg d); lia).
  apply take_app_length'. unfold zlen. lia.
Qed.

Lemma py_int_digits d n : digits d = Some n -> forallb is_digit d = true -> py_int d = Ret n.
Proof.
  intros Hn Hd. unfold py_int. rewrite strip_none by (by apply digits_no_space). destruct d as [|c d]; [done|].
    cbn in Hd. apply andb_true_iff in Hd as [Hc _]. unfold is_digit in Hc.
    assert (c = 48 \/ c = 49 \/ c = 50 \/ c = 51 \/ c = 52 \/ c = 53 \/ c = 54 \/ c = 55 \/ c = 56 \/ c = 57) as Hc10 by lia.
    destruct_or! Hc10; subst c; by rewrite Hn.
Qed.

(** The factor of a letter *)
Definition factor (x : Z) : Z :=
  if x =? 107 then 1024 else if x =? 109 then 1024 * 1024 else if x =? 103 then 1024 * 1024 * 1024 else 1.

Lemma parse_letter s d n x (b : bool) : strip (lower s) = d ++ x :: (if b then [98] else []) ->
  digits d = Some n -> forallb is_digit d = true -> is_digit x = false -> x <> 98 ->
  parse_byte_amount s = Ret (n * factor x).
Proof.
  intros Hs Hn Hd Hx H98. unfold parse_byte_amount. rewrite Hs. destruct b.
  - change (d ++ [x; 98]) with (d ++ [x] ++ [98]). rewrite app_assoc, py_index_last, multiplier_last, <- app_assoc.
    cbn [res_bind Z.eqb Pos.eqb]. rewrite slice_to_neg, (py_int_digits _ _ Hn Hd), !endswith1 by done. cbn [res_bind andb].
    unfold factor. by destruct (x =? 107), (x =? 109), (x =? 103).
  - rewrite py_index_last, multiplier_last. cbn [res_bind]. rewrite (proj2 (Z.eqb_neq x 98)), Hx by done. cbn [negb andb orb].
    rewrite slice_to_neg, (py_int_digits _ _ Hn Hd) by done. done.
Qed.
Lemma parse_plain s d n : strip (lower s) = d -> digits d = Some n -> forallb is_digit d = true ->
  parse_byte_amount s = Ret n.
Proof.
  intros Hs Hn Hd. unfold parse_byte_amount. rewrite Hs.
  destruct (stack_cases d) as [->|(d' & c & ->)]; [done|]. rewrite py_index_last, multiplier_last. cbn [res_bind].
  assert (is_digit c = true) as Hc.
  { rewrite forallb_app in Hd. apply andb_true_iff in Hd as [_ Hc]. cbn in Hc. by rewrite andb_true_r in Hc. }
  assert (forall k, (k < 48 \/ 57 < k) -> (c =? k) = false) as Hk by (intros k ?; apply Z.eqb_neq; unfold is_digit in Hc; lia).
  rewrite !Hk, Hc by lia. cbn [negb andb orb]. rewrite (py_int_digits _ _ Hn Hd). cbn [res_bind]. by rewrite Z.mul_1_r.
Qed.

(** An amount of memory written as a number with or without a unit, in either case and with
    or without a [B], is the number of bytes it names. *)
Theorem parse_units n u m : 0 <= n -> (u, m) ∈ units -> parse_byte_amount (py_str n ++ u) = Ret (n * m).
Proof.
  intros Hn Hu. destruct (py_str_digits n Hn) as (Hd & _ & Hv).
  assert (forall v, forallb (fun c => negb (is_space c)) (lower v) = true -> strip (lower (py_str n ++ v)) = py_str n ++ lower v) as Hs.
  { intros v Hsp. unfold lower at 1. rewrite fmap_app. fold (lower (py_str n)). fold (lower v). rewrite lower_digits by done.
    apply strip_none. by rewrite forallb_app, digits_no_space. }
  repeat (apply elem_of_cons in Hu as [[= -> ->]|Hu]); [..|by apply elem_of_nil in Hu].
  1: { rewrite Z.mul_1_r, app_nil_r. eapply parse_plain; [|done..]. pose proof (Hs [] eq_refl) as E. by rewrite !app_nil_r in E. }
  all: let go x b := (apply (parse_letter _ (py_str n) n x b); [by apply Hs|done..]) in
       first [go 107 true|go 107 false|go 109 true|go 109 false|go 103 true|go 103 false].
Qed.
Lemma parse_units_witness : parse_byte_amount (py_str 12 ++ lit "GB") = Ret (12 * 1024 ^ 3).
Proof. apply parse_units; [lia|]. repeat constructor. Defined.

(** Bytes are a documented unit, and the last digit goes with it; a unit alone is no number. *)
Theorem bytes_lose_a_digit : parse_byte_amount (lit "4096B") = Ret 409.
Proof. vm_compute. reflexivity. Qed.
Theorem empty_amount_raises : parse_byte_amount (lit " ") = Raise IndexError /\ parse_byte_amount (lit "MB") = Raise ValueError.
Proof. by vm_compute. Qed.

(** * An address space over the physical sensor *)

Section phys_space.
Context (virt : bytes -> Z -> msensor phys) (reg : msensor phys -> res Z) (phys_of : bytes -> Z -> msensor phys).

(** A location and a size open the sensor, without cache unless it is asked for. *)
Theorem init_physical loc n u m c : 0 <= n -> (u, m) ∈ units ->
  init phys_of virt reg true false (Config (lit "lophi://" ++ loc) c (Some (py_str n ++ u))) =
  Ret (Some (ASpace (phys_of loc (if c then 1 else 0)) false None loc false 0 (n * m))).
Proof.
  intros Hn Hu. unfold init. cbn [orb negb LOCATION LOPHI_CACHE RAM_SIZE].
  assert (startswith (lit "lophi://") (lit "lophi://" ++ loc) = true) as ->.
  { unfold startswith. by rewrite take_app_length, bool_decide_eq_true_2. }
  cbn [res_bind]. rewrite (parse_units n u m) by done. unfold slice_from. rewrite clamp_nonneg, zlen_app by lia.
  change (zlen (lit "lophi://")) with 8. rewrite Z.min_l by (pose proof (zlen_nonneg loc); lia). done.
Qed.
End phys_space.

(** Another location raises, and without a size the program ends. *)
Theorem init_other {S} (p v : bytes -> Z -> msensor S) reg c r :
  init p v reg true false (Config (lit "file:///tmp/dump") c r) = Raise TypeError.
Proof. done. Qed.
Theorem init_no_size {S} (p v : bytes -> Z -> msensor S) reg c loc :
  init p v reg true false (Config (lit "lophi://" ++ loc) c None) = Ret None.
Proof. unfold init, startswith. cbn [LOCATION]. by rewrite take_app_length, bool_decide_eq_true_2. Qed.

Definition example_space : aspace phys :=
  ASpace (MSensor example_phys ∅ ∅ 0 [(0xa0000, 0x100000)]) false None (lit "172.20.1.1") false 0x9fffd (2 ^ 30).

Lemma fread_stream_witness : exists ds a',
  @freads phys (phys_sensor (memory_card example_memory) 1) [2; 4; 7] example_space = (Ret (Some <$> ds), a') /\
  concat ds = shown example_memory (client example_space) <$> seqZ 0x9fffd 13 /\
  length <$> ds = [2; 4; 7]%nat /\ address a' = 0x9fffd + 13.
Proof.
  apply (@fread_stream phys (phys_sensor (memory_card example_memory) 1) example_memory (2 ^ 40) phys_ok
    (phys_laws _ _ _ 1 (memory_card_ok example_memory (2 ^ 40) ltac:(lia)) ltac:(by split) ltac:(lia)) [2; 4; 7] example_space).
  - split; [split; [apply example_phys_ok|intros i e; cbn [cache client example_space]; by rewrite lookup_empty]|].
    split; repeat constructor.
  - repeat constructor.
  - done.
  - vm_compute. discriminate.
Defined.
