(* ===== verification/Database.v ===== *)
(** The database of samples and analyses ([lophi_automation/database]): [mongodb_al.py],
    [datastore.py], [db.py], [documents.py] and [utils.py].

    A collection is a finite map from identifiers to documents, the store for files a finite
    map from identifiers to contents, as MongoDB and GridFS document them: inserting a second
    document with the same identifier fails, and so does a second file.  The hash functions
    of [hashlib], the text of a time stamp and what is drawn at random are parameters. *)
From S2P Require Import Prelude Struct PyString AddressSpace.
Open Scope string_scope.
Open Scope list_scope.
Open Scope Z_scope.

(** * Hashes ([utils.py]) *)

(** A hash object: created, updated with data, asked for its digest. *)
Record hash := Hash {
  hstate : Type; hnew : hstate; hupdate : hstate -> bytes -> hstate; hexdigest : hstate -> bytes; block_size : Z
}.

(** [for chunk in iter(lambda: f.read(128 * hasher.block_size), b'')] *)
Fixpoint update_loop (h : hash) (fuel : nat) (s : hstate h) (rest : bytes) : res (hstate h) :=
  match fuel with
  | O => Raise Diverges
  | S fuel =>
      let chunk := slice_to rest (128 * block_size h) in
      if bool_decide (chunk = []) then Ret s
      else update_loop h fuel (hupdate h s chunk) (slice_from rest (128 * block_size h))
  end.
Definition calculate (h : hash) (content : bytes) : res bytes :=
  let? s := update_loop h (S (length content)) (hnew h) content in Ret (hexdigest h s).

(** * Documents ([documents.py]) *)

(** Values: texts, numbers, names of files, and the tables that analyses of captures add. *)
Inductive cell := CText (s : string) | CNum (z : Z).
#[global] Instance cell_eq_dec : EqDecision cell.
Proof. solve_decision. Defined.
Inductive val := VStr (s : bytes) | VNum (z : Z) | VMap (m : gmap string bytes) | VTable (l : list (list cell * Z)).
#[global] Instance val_eq_dec : EqDecision val.
Proof. solve_decision. Defined.
Abbreviation doc := (gmap string val).

Definition DELIMITER : bytes := lit "_".
Definition analysis_doc_uid (analyzer_name : bytes) (analyzer_version : Z) (sample_uid : bytes) : bytes :=
  join DELIMITER [lit "analysis"; analyzer_name; py_str analyzer_version; sample_uid].
Definition documents_sample_doc_id (uid : bytes) : bytes := join DELIMITER [lit "sample"; uid].

(** * State *)

(** Local files and directories, the clock, the collection, the store of files (name and
    content) and the lock of [datastore.py]. *)
Record world := World {
  files : gmap bytes bytes; dirs : gset bytes; now : Z;
  coll : gmap bytes doc; fs : gmap bytes (bytes * bytes); MUTEX : bool
}.
Abbreviation M := (PM world).

Definition set_coll (c : gmap bytes doc) (w : world) : world := World (files w) (dirs w) (now w) c (fs w) (MUTEX w).
Definition set_fs (f : gmap bytes (bytes * bytes)) (w : world) : world := World (files w) (dirs w) (now w) (coll w) f (MUTEX w).
Definition set_mutex (b : bool) (w : world) : world := World (files w) (dirs w) (now w) (coll w) (fs w) b.
Definition set_files (f : gmap bytes bytes) (d : gset bytes) (w : world) : world := World f d (now w) (coll w) (fs w) (MUTEX w).

(** [open(path, 'rb').read()] and writing a whole file *)
Definition read_file (path : bytes) : M bytes := fun w => (of_option IOError (files w !! path), w).
Definition write_file (path content : bytes) : M unit := pm_modify (fun w => set_files (<[path := content]> (files w)) (dirs w) w).
Definition basename (path : bytes) : bytes := default [] (last (split_on 47 path [])).

(** [doc['_id']] *)
Definition doc_id (d : doc) : res bytes :=
  match d !! "_id" with Some (VStr i) => Ret i | Some _ => Raise TypeError | None => Raise KeyError end.

(** [with MUTEX]: the lock is released when the body raises; taking it twice blocks. *)
Definition with_mutex {A} (m : M A) : M A := fun w =>
  if MUTEX w then (Raise Diverges, w) else
  let '(r, w) := m (set_mutex true w) in (r, set_mutex false w).

(** * [mongodb_al.py] *)

(** The result of [urlparse.urlparse] *)
Record url := Url { scheme : bytes; netloc : bytes; path : bytes }.
Record mongo := Mongo { host : bytes; port : Z; database_name : bytes; collection_name : bytes }.

Definition mongo_init (u : url) : res mongo :=
  match split_on 58 (netloc u) [] with
  | [host; port] =>
      let pathelements := split_on 47 (slice_from (path u) 1) [] in
      let? x := (if 1 <? zlen pathelements then
                   let? y := py_pop pathelements in
                   Ret (if bool_decide (y.1 = []) then lit "documents" else y.1, y.2)
                 else Ret (lit "documents", pathelements)) in
      let? y := py_pop x.2 in
      let? p := py_int port in
      Ret (Mongo host p y.1 x.1)
  | _ => Raise ValueError
  end.

Definition upload_dict (d : doc) : M unit := fun w =>
  match doc_id d with
  | Raise e => (Raise e, w)
  | Ret i => match coll w !! i with
             | Some _ => (Ret tt, w)
             | None => (Ret tt, set_coll (<[i := d]> (coll w)) w)
             end
  end.
Definition download_dict (did : bytes) : M (option doc) := pm_get (fun w => coll w !! did).
Definition delete_dict (did : bytes) : M unit := pm_modify (fun w => set_coll (delete did (coll w)) w).
Definition contains_dict (did : bytes) : M bool := pm_get (fun w => bool_decide (coll w !! did <> None)).
Definition db_download_file (fid local_path : bytes) : M unit :=
  let! infile := (fun w => (of_option IOError (fs w !! fid), w)) in write_file local_path infile.2.
Definition delete_file (fid : bytes) : M bool :=
  pm_modify (fun w => set_fs (delete fid (fs w)) w) ;! pm_ret true.
Definition reset : M unit := pm_modify (fun w => set_fs ∅ (set_coll ∅ w)).

(** * The store, given the hash functions *)

Section store.
Context (md5 sha1 sha256 sha512 : hash) (stamp : Z -> bytes).

Definition calculate_file (h : hash) (local_path : bytes) : M bytes :=
  let! content := read_file local_path in pm_lift (calculate h content).
Definition calculate_combined_hash (file_path : bytes) : M bytes :=
  let! md5sum := calculate_file md5 file_path in
  let! sha1sum := calculate_file sha1 file_path in
  let! sha256sum := calculate_file sha256 file_path in
  let! sha512sum := calculate_file sha512 file_path in
  pm_ret (hexdigest md5 (hupdate md5 (hnew md5) (join [] [md5sum; sha1sum; sha256sum; sha512sum]))).

Definition file_doc_id (file_path : bytes) : M bytes :=
  let! h := calculate_file sha256 file_path in pm_ret (join DELIMITER [lit "file"; h]).
Definition sample_doc (file_path file_doc_id : bytes) : M doc :=
  let! uid := calculate_combined_hash file_path in
  let doc_id := documents_sample_doc_id uid in
  let! content := read_file file_path in
  let! m := calculate_file md5 file_path in
  let! s1 := calculate_file sha1 file_path in
  let! s256 := calculate_file sha256 file_path in
  let! s512 := calculate_file sha512 file_path in
  let! t := pm_get now in
  pm_ret (list_to_map [("_id", VStr doc_id); ("uid", VStr uid); ("file_doc_id", VStr file_doc_id);
    ("sample", VStr doc_id); ("type", VStr (lit "sample")); ("size", VNum (zlen content));
    ("md5", VStr m); ("sha1", VStr s1); ("sha256", VStr s256); ("sha512", VStr s512);
    ("first_uploaded", VStr (stamp t)); ("redistribution", VStr (lit "none"));
    ("original filename", VStr (basename file_path))]).

(** [MongoDb.upload_file] *)
Definition db_upload_file (local_path : bytes) : M bytes :=
  let fname := basename local_path in
  let! fid := file_doc_id local_path in
  let! content := read_file local_path in
  pm_modify (fun w => match fs w !! fid with Some _ => w | None => set_fs (<[fid := (fname, content)]> (fs w)) w end) ;!
  pm_ret fid.

(** ** [datastore.py] *)

Definition upload_sample (file_path : bytes) : M bytes :=
  let! file_doc_id := db_upload_file file_path in
  let! d := sample_doc file_path file_doc_id in
  upload_dict d ;!
  pm_lift (doc_id d).
Definition download_sample (sample_uid local_path : bytes) : M unit :=
  let! d := download_dict sample_uid in
  match d with
  | None => pm_raise TypeError
  | Some d => match d !! "file_doc_id" with
              | Some (VStr fid) => db_download_file fid local_path
              | Some _ => pm_raise TypeError
              | None => pm_raise KeyError
              end
  end.
Definition upload_doc (d : doc) (replace : bool) : M unit := with_mutex (
  let! i := pm_lift (doc_id d) in
  let! c := contains_dict i in
  (if c && replace then delete_dict i else pm_ret tt) ;!
  upload_dict d).
Definition upload_file (file_path : bytes) : M bytes := with_mutex (db_upload_file file_path).

(** ** [db.py] *)

Record command := Command { submitter : bytes; volatility_profile : bytes; analysis : bytes; machine_type : Z }.

(** [rand_num] is the number drawn. *)
Definition analysis_doc (sample_doc_id : bytes) (lophi_command : command) (rand_num t : Z) : doc :=
  list_to_map [("_id", VStr (join DELIMITER [lit "analysis"; sample_doc_id; py_str rand_num])); ("created", VNum t);
    ("sample", VStr sample_doc_id); ("submitted_by", VStr (submitter lophi_command));
    ("volatility_profile", VStr (volatility_profile lophi_command)); ("analysis_script", VStr (analysis lophi_command));
    ("status", VStr (lit "QUEUED")); ("machine", VStr []); ("machine_type", VNum (machine_type lophi_command));
    ("output_files", VMap ∅)].

Definition create_analysis (sample_doc_id : bytes) (lophi_command : command) (rand_num : Z) : M bytes :=
  let! t := pm_get now in
  let d := analysis_doc sample_doc_id lophi_command rand_num t in
  upload_doc d false ;!
  pm_lift (doc_id d).

(** A document is fetched, changed and put back; one that is missing is only logged. *)
Definition change_doc (i : bytes) (f : doc -> res doc) : M unit :=
  let! d := download_dict i in
  match d with
  | None => pm_raise TypeError
  | Some d => let! d := pm_lift (f d) in upload_doc d true
  end.
Definition guarded (i : bytes) (m : M unit) : M unit :=
  let! c := contains_dict i in if c then m else pm_ret tt.

Definition add_file (name : string) (fid : bytes) (d : doc) : res doc :=
  match d !! "output_files" with
  | Some (VMap m) => Ret (<["output_files" := VMap (<[name := fid]> m)]> d)
  | Some _ => Raise TypeError
  | None => Raise KeyError
  end.
Definition append_analysis_file (i analysis_file_path : bytes) (analysis_filename : string) : M unit :=
  guarded i (let! file_id := upload_file analysis_file_path in change_doc i (add_file analysis_filename file_id)).
Definition update_analysis_machine (i name : bytes) (MACHINE_TYPE : Z) : M unit :=
  guarded i (change_doc i (fun d => Ret (<["machine_type" := VNum MACHINE_TYPE]> (<["machine" := VStr name]> d)))).
Definition update_analysis (i : bytes) (parameter : string) (value : val) : M unit :=
  guarded i (change_doc i (fun d => Ret (<[parameter := value]> d))).

(** ** Samples on the FTP server

    [os.makedirs] and [shutil.rmtree] raise [OSError], written [IOError] here. *)

Context (FTP_ROOT : bytes).

Definition letters : bytes := lit "abcdefghijklmnopqrstuvwxyzABCDEFGHIJKLMNOPQRSTUVWXYZ".
(** One letter for each number drawn *)
Definition _get_random_filename (draws : list Z) : bytes := (fun i => nth (Z.to_nat i) letters 0) <$> draws.
Definition _get_sample_dir (sample_doc_id : bytes) : M bytes :=
  let! t := pm_get now in
  pm_ret (os_path_join (os_path_join FTP_ROOT (lit "binaries")) (sample_doc_id ++ lit "_" ++ stamp t)).
Definition makedirs (d : bytes) : M unit := fun w =>
  match files w !! d with
  | Some _ => (Raise IOError, w)
  | None => (Ret tt, set_files (files w) ({[ d ]} ∪ dirs w) w)
  end.
Definition rmtree (d : bytes) : M unit := fun w =>
  if bool_decide (d ∈ dirs w)
  then (Ret tt, set_files (filter (fun x => startswith (d ++ [47]) x.1 = false) (files w)) (dirs w ∖ {[ d ]}) w)
  else (Raise IOError, w).

(** [s.replace(old, new)] *)
Fixpoint replace_loop (fuel : nat) (old new s : bytes) : bytes :=
  match fuel, s with
  | O, _ | _, [] => s
  | S fuel, c :: s' => if startswith old s then new ++ replace_loop fuel old new (drop (length old) s)
                       else c :: replace_loop fuel old new s'
  end.
Definition py_replace (old new s : bytes) : bytes := replace_loop (length s) old new s.

Definition exe (i : bytes) : bytes := i ++ lit ".exe".
Definition lophi_bat (sample_doc_id rand_name : bytes) (commands : list bytes) : bytes :=
  concat ((fun c => py_replace (lit "%sample%") (exe sample_doc_id) c ++ [10]) <$> commands) ++
  lit "move " ++ exe sample_doc_id ++ lit " " ++ exe rand_name ++ [10] ++ rand_name ++ [10] ++ lit "exit" ++ [10].

Definition copy_sample_to_ftp (sample_doc_id : bytes) (commands : list bytes) (draws : list Z) : M bytes :=
  let! new_path_dir := _get_sample_dir sample_doc_id in
  makedirs new_path_dir ;!
  download_sample sample_doc_id (os_path_join new_path_dir (exe sample_doc_id)) ;!
  write_file (os_path_join new_path_dir (lit "lophi.bat")) (lophi_bat sample_doc_id (_get_random_filename draws) commands) ;!
  pm_ret new_path_dir.
Definition delete_sample_from_ftp (sample_doc_id : bytes) : M unit :=
  let! rm_dir := _get_sample_dir sample_doc_id in rmtree rm_dir.
End store.

(** * Hashing a file in pieces *)

(** What [hashlib] documents: updating with two pieces is updating with both. *)
Record hash_laws (h : hash) : Prop := {
  update_app : forall s a b, hupdate h (hupdate h s a) b = hupdate h s (a ++ b);
  update_nil : forall s, hupdate h s [] = s;
  block_pos : 0 < block_size h
}.
Definition digest (h : hash) (content : bytes) : bytes := hexdigest h (hupdate h (hnew h) content).

Lemma update_whole h : hash_laws h -> forall fuel s rest, (length rest < fuel)%nat ->
  update_loop h fuel s rest = Ret (hupdate h s rest).
Proof.
  intros [Happ Hnil Hpos]. induction fuel as [|fuel IH]; intros s rest Hf; [lia|]. cbn [update_loop].
  unfold slice_to, slice_from. rewrite clamp_nonneg by lia. set (n := Z.to_nat _).
  assert (rest <> [] -> (0 < n)%nat) as Hn.
  { intros Hr. subst n. destruct rest; [done|]. rewrite zlen_cons. pose proof (zlen_nonneg rest). lia. }
  case_bool_decide as Hc.
  - destruct rest as [|c rest]; [by rewrite Hnil|]. specialize (Hn ltac:(done)). by destruct n; [lia|].
  - destruct rest as [|c rest]; [by rewrite take_nil in Hc|]. specialize (Hn ltac:(done)).
    rewrite IH by (rewrite length_drop; cbn [length] in *; lia). by rewrite Happ, take_drop.
Qed.
Lemma calculate_digest h content : hash_laws h -> calculate h content = Ret (digest h content).
Proof. intros Hh. unfold calculate. rewrite update_whole by (done || lia). done. Qed.

(** * The record of an analysis *)

Section record.
Context (sha256 : hash) (Hsha : hash_laws sha256).

Definition file_id (content : bytes) : bytes := join DELIMITER [lit "file"; digest sha256 content].

Lemma relock {A} (m : M A) w r w' : MUTEX w = false -> m (set_mutex true w) = (r, w') ->
  with_mutex m w = (r, set_mutex false w').
Proof. intros Hl Hm. unfold with_mutex. by rewrite Hl, Hm. Qed.

(** Putting a changed document back replaces the old one and leaves the rest alone. *)
Lemma upload_replace i d d' w : coll w !! i = Some d -> doc_id d' = Ret i -> MUTEX w = false ->
  upload_doc d' true w = (Ret tt, set_coll (<[i := d']> (coll w)) w).
Proof.
  intros Hd Hi Hl. unfold upload_doc. erewrite relock; [|done|].
  2: { unfold pm_bind, pm_lift. rewrite Hi. unfold contains_dict, pm_get. cbn [coll set_mutex].
       rewrite Hd, bool_decide_eq_true_2 by done. cbn [andb]. unfold delete_dict, pm_modify, upload_dict. rewrite Hi.
       cbn [coll set_coll set_mutex]. by rewrite lookup_delete_eq. }
  destruct w; cbn in *. subst. unfold set_coll, set_mutex; cbn. by rewrite insert_delete_eq.
Qed.
Lemma guarded_present i d m w : coll w !! i = Some d -> guarded i m w = m w.
Proof. intros Hd. unfold guarded, pm_bind, contains_dict, pm_get. by rewrite Hd, bool_decide_eq_true_2. Qed.
Lemma change_doc_put i f d d' w : coll w !! i = Some d -> f d = Ret d' -> doc_id d' = Ret i -> MUTEX w = false ->
  change_doc i f w = (Ret tt, set_coll (<[i := d']> (coll w)) w).
Proof.
  intros Hd Hf Hi Hl. unfold change_doc, pm_bind, download_dict, pm_get, pm_lift. rewrite Hd, Hf. by eapply upload_replace.
Qed.
Lemma change_doc_spec i f d d' w : coll w !! i = Some d -> f d = Ret d' -> doc_id d' = Ret i -> MUTEX w = false ->
  guarded i (change_doc i f) w = (Ret tt, set_coll (<[i := d']> (coll w)) w).
Proof. intros Hd Hf Hi Hl. rewrite (guarded_present i d) by done. by eapply change_doc_put. Qed.

(** Uploading a file keeps one copy under the identifier of its content. *)
Definition stored (nm content : bytes) (f : gmap bytes (bytes * bytes)) : gmap bytes (bytes * bytes) :=
  match f !! file_id content with Some _ => f | None => <[file_id content := (nm, content)]> f end.
Lemma upload_file_spec path content w : files w !! path = Some content -> MUTEX w = false ->
  upload_file sha256 path w = (Ret (file_id content), set_fs (stored (basename path) content (fs w)) w).
Proof.
  intros Hp Hl. unfold upload_file. erewrite relock; [|done|].
  2: { unfold db_upload_file, file_doc_id, calculate_file, read_file, pm_bind, pm_lift. cbn [files set_mutex].
       rewrite Hp. cbn [of_option]. rewrite calculate_digest by done. unfold pm_ret, pm_modify. cbn [files set_mutex]. rewrite Hp. done. }
  fold (file_id content). unfold stored, set_mutex, set_fs. destruct w as [fl ds t c f l]. cbn [files dirs now coll fs MUTEX] in *. subst l.
  by destruct (f !! file_id content).
Qed.

(** ** Operations on one analysis *)

Inductive op := OAppend (path : bytes) (name : string) | OMachine (name : bytes) (type : Z) | OUpdate (parameter : string) (value : val).

Definition run_op (i : bytes) (o : op) : M unit :=
  match o with
  | OAppend path name => append_analysis_file sha256 i path name
  | OMachine name type => update_analysis_machine i name type
  | OUpdate parameter value => update_analysis i parameter value
  end.
Fixpoint run_ops (i : bytes) (l : list op) : M unit :=
  match l with [] => pm_ret tt | o :: l => run_op i o ;! run_ops i l end.

(** The abstract record: fields and named results, with the contents themselves. *)
Record arecord := ARecord { fields : gmap string val; outputs : gmap string bytes }.
Definition spec_op (fl : gmap bytes bytes) (r : arecord) (o : op) : arecord :=
  match o with
  | OAppend path name => ARecord (fields r) (<[name := default [] (fl !! path)]> (outputs r))
  | OMachine name type => ARecord (<["machine_type" := VNum type]> (<["machine" := VStr name]> (fields r))) (outputs r)
  | OUpdate p v => ARecord (<[p := v]> (fields r)) (outputs r)
  end.

(** A file that is appended exists, and the fields with a meaning of their own are not set. *)
Definition op_ok (fl : gmap bytes bytes) (o : op) : Prop :=
  match o with
  | OAppend path _ => is_Some (fl !! path)
  | OMachine _ _ => True
  | OUpdate p _ => p <> "_id" /\ p <> "output_files"
  end.

(** The document of a record: its results are identifiers, and each is in the store. *)
Record represents (i : bytes) (r : arecord) (d : doc) (f : gmap bytes (bytes * bytes)) : Prop := {
  rep_id : d !! "_id" = Some (VStr i);
  rep_fields : forall k, k <> "_id" -> k <> "output_files" -> d !! k = fields r !! k;
  rep_outputs : d !! "output_files" = Some (VMap (file_id <$> outputs r));
  rep_stored : forall k c, outputs r !! k = Some c -> exists nm, f !! file_id c = Some (nm, c)
}.

(** Every file in the store has the identifier of its content. *)
Definition store_ok (f : gmap bytes (bytes * bytes)) : Prop := forall fid nm c, f !! fid = Some (nm, c) -> fid = file_id c.
(** No two of the contents at hand have the same digest. *)
Definition collision_free (f : gmap bytes (bytes * bytes)) (fl : gmap bytes bytes) : Prop :=
  forall c c', ((exists fid nm, f !! fid = Some (nm, c)) \/ exists path, fl !! path = Some c) ->
    (exists path, fl !! path = Some c') -> file_id c = file_id c' -> c = c'.

Lemma stored_spec nm c path f fl : store_ok f -> collision_free f fl -> fl !! path = Some c ->
  store_ok (stored nm c f) /\ collision_free (stored nm c f) fl /\ (exists nm', stored nm c f !! file_id c = Some (nm', c)) /\
  forall fid x, f !! fid = Some x -> stored nm c f !! fid = Some x.
Proof.
  intros Hs Hc Hp. unfold stored. destruct (f !! file_id c) as [[nm' c']|] eqn:E.
  - split_and!; try done. exists nm'. rewrite E. do 2 f_equal. apply Hc; [left; eauto|eauto|]. symmetry. by eapply Hs.
  - split_and!.
    + intros fid n x. rewrite lookup_insert_Some. intros [[<- [= <- <-]]|[_ H]]; [done|by eapply Hs].
    + intros x y [(fid & n & Hx)|Hx] Hy; [|apply Hc; eauto].
      apply lookup_insert_Some in Hx as [[_ [= <- <-]]|[_ Hx]]; apply Hc; eauto.
    + exists nm. apply lookup_insert_eq.
    + intros fid x Hx. rewrite lookup_insert_ne; [done|]. intros <-. by rewrite E in Hx.
Qed.

(** A world in which the record is kept: lock free, files and store sound. *)
Record kept (i : bytes) (r : arecord) (fl : gmap bytes bytes) (w : world) : Prop := {
  kept_doc : exists d, coll w !! i = Some d /\ represents i r d (fs w);
  kept_files : files w = fl;
  kept_lock : MUTEX w = false;
  kept_store : store_ok (fs w);
  kept_free : collision_free (fs w) fl
}.

Lemma lookup_field k v (m : gmap string val) k' : (<[k := v]> m) !! k' = if decide (k = k') then Some v else m !! k'.
Proof. destruct (decide _) as [<-|]; [apply lookup_insert_eq|by apply lookup_insert_ne]. Qed.

Lemma id_insert k v (d : doc) i : k <> "_id" -> d !! "_id" = Some (VStr i) -> (<[k := v]> d) !! "_id" = Some (VStr i).
Proof. intros Hk Hd. by rewrite lookup_insert_ne. Qed.
Lemma doc_id_of (d : doc) i : d !! "_id" = Some (VStr i) -> doc_id d = Ret i.
Proof. intros Hd. unfold doc_id. by rewrite Hd. Qed.

(** A step of the store is the step of the record; other documents are not touched. *)
Lemma op_step i r fl o w : kept i r fl w -> op_ok fl o ->
  exists w', run_op i o w = (Ret tt, w') /\ kept i (spec_op fl r o) fl w' /\ delete i (coll w') = delete i (coll w).
Proof.
  intros [(d & Hd & [Hid Hf Ho Hs]) Hfl Hl Hst Hfree] Hok.
  assert (forall f, represents i (spec_op fl r o) f (fs w) -> forall w', w' = set_coll (<[i := f]> (coll w)) w ->
    kept i (spec_op fl r o) fl w' /\ delete i (coll w') = delete i (coll w)) as Hput.
  { intros f Hr w' ->. split; [split; try done; exists f; cbn; by rewrite lookup_insert_eq|cbn; apply delete_insert_eq]. }
  destruct o as [path nm|nm t|k v]; cbn [run_op op_ok spec_op] in *.
  - destruct Hok as [c Hc]. destruct (stored_spec (basename path) c path (fs w) fl Hst Hfree Hc) as (Hst' & Hfree' & Hin & Hmono).
    set (w1 := set_fs (stored (basename path) c (fs w)) w).
    set (d' := <["output_files" := VMap (<[nm := file_id c]> (file_id <$> outputs r))]> d).
    exists (set_coll (<[i := d']> (coll w1)) w1). split.
    + unfold append_analysis_file. rewrite (guarded_present i d) by done. unfold pm_bind at 1.
      rewrite (upload_file_spec path c) by (done || by subst fl).
      apply (change_doc_put i _ d); [done| |by apply doc_id_of, id_insert|done]. unfold add_file. by rewrite Ho.
    + split; [|cbn; apply delete_insert_eq]. split; try done. exists d'. cbn [coll set_coll]. rewrite lookup_insert_eq. split; [done|].
      split; unfold d'; cbn [fields outputs]; rewrite ?Hc; cbn [default].
      * by apply id_insert.
      * intros k H1 H2. rewrite lookup_field. destruct (decide _); [done|]. by apply Hf.
      * by rewrite lookup_insert_eq, fmap_insert.
      * intros k x. rewrite lookup_insert_Some. intros [[_ <-]|[_ Hx]]; [done|].
        destruct (Hs k x Hx) as [n Hn]. exists n. by apply Hmono.
  - eexists. unfold update_analysis_machine.
    rewrite (change_doc_spec i _ d (<["machine_type":=VNum t]> (<["machine":=VStr nm]> d))); [|done|done|by apply doc_id_of; do 2 (apply id_insert; [done|])|done].
    split; [done|]. eapply Hput; [|done]. split; cbn [fields outputs]; [by do 2 (apply id_insert; [done|])| |by rewrite !lookup_insert_ne|done].
    intros k H1 H2. rewrite !lookup_field. by rewrite (Hf k).
  - destruct Hok as [Hk1 Hk2]. eexists. unfold update_analysis.
    rewrite (change_doc_spec i _ d (<[k := v]> d)); [|done|done|by apply doc_id_of, id_insert|done].
    split; [done|]. eapply Hput; [|done]. split; cbn [fields outputs]; [by apply id_insert| |by rewrite lookup_insert_ne|done].
    intros k' H1 H2. rewrite !lookup_field. by rewrite (Hf k').
Qed.

Lemma ops_steps i fl l : forall r w, kept i r fl w -> Forall (op_ok fl) l ->
  exists w', run_ops i l w = (Ret tt, w') /\ kept i (foldl (spec_op fl) r l) fl w' /\ delete i (coll w') = delete i (coll w).
Proof.
  induction l as [|o l IH]; intros r w Hk Hok; [by exists w|]. apply Forall_cons in Hok as [Ho Hok].
  destruct (op_step i r fl o w Hk Ho) as (w1 & Hr & Hk1 & Hd1). destruct (IH _ _ Hk1 Hok) as (w2 & Hr2 & Hk2 & Hd2).
  exists w2. cbn [run_ops foldl]. unfold pm_bind. rewrite Hr. split; [done|]. split; [done|]. by rewrite Hd2.
Qed.

Lemma create_spec sample cmd rnd w : let d := analysis_doc sample cmd rnd (now w) in
  let i := join DELIMITER [lit "analysis"; sample; py_str rnd] in
  coll w !! i = None -> MUTEX w = false ->
  create_analysis sample cmd rnd w = (Ret i, set_coll (<[i := d]> (coll w)) w).
Proof.
  intros d i Hi Hl. assert (d !! "_id" = Some (VStr i)) as Hd by done.
  unfold create_analysis, pm_bind, pm_get. fold d. unfold upload_doc. erewrite relock; [|done|].
  2: { unfold pm_bind, pm_lift. rewrite (doc_id_of _ _ Hd). unfold contains_dict, pm_get. rewrite andb_false_r.
       unfold pm_ret, upload_dict. rewrite (doc_id_of _ _ Hd). cbn [coll set_mutex]. by rewrite Hi. }
  unfold pm_lift. rewrite (doc_id_of _ _ Hd). f_equal. by destruct w; cbn in *; subst.
Qed.

(** [C39] The record of an analysis: once it is created under a new identifier, any sequence of
    updates, assignments of a machine and appended results returns with the lock free and
    leaves the document that the operations describe, later ones overriding earlier ones;
    all other documents are as before, and every result can be downloaded and has the
    content its file had, provided no two contents have the same digest. *)
Theorem analysis_record sample cmd rnd ops w :
  let i := join DELIMITER [lit "analysis"; sample; py_str rnd] in
  let r := foldl (spec_op (files w)) (ARecord (analysis_doc sample cmd rnd (now w)) ∅) ops in
  coll w !! i = None -> MUTEX w = false -> store_ok (fs w) -> collision_free (fs w) (files w) ->
  Forall (op_ok (files w)) ops ->
  exists w' d, (create_analysis sample cmd rnd ;! run_ops i ops) w = (Ret tt, w') /\
    coll w' !! i = Some d /\ represents i r d (fs w') /\ delete i (coll w') = coll w /\ MUTEX w' = false /\
    forall name c dest, outputs r !! name = Some c ->
      db_download_file (file_id c) dest w' = (Ret tt, set_files (<[dest := c]> (files w')) (dirs w') w').
Proof.
  intros i r Hi Hl Hs Hc Hok. unfold pm_bind. rewrite create_spec by done. fold i.
  destruct (ops_steps i (files w) ops (ARecord (analysis_doc sample cmd rnd (now w)) ∅)
    (set_coll (<[i := analysis_doc sample cmd rnd (now w)]> (coll w)) w)) as (w' & Hr & Hk & Hd); [|done|].
  - split; try done. eexists. cbn [coll set_coll]. rewrite lookup_insert_eq. split; [done|]. split; [done|done|done|].
    intros k c H. cbn [outputs] in H. by rewrite lookup_empty in H.
  - destruct Hk as [(d & Hcd & Hrep) _ Hl' _ _]. exists w', d. rewrite Hr. split_and!; try done.
    + rewrite Hd. cbn [coll set_coll]. by rewrite delete_insert_id.
    + intros name c dest Hn. destruct (rep_stored _ _ _ _ Hrep name c Hn) as [nm Hf].
      unfold db_download_file, pm_bind. by rewrite Hf.
Qed.
End record.

(** * Samples *)

Section samples.
Context (md5 sha1 sha256 sha512 : hash) (stamp : Z -> bytes) (FTP_ROOT : bytes).
Context (H5 : hash_laws md5) (H1 : hash_laws sha1) (H2 : hash_laws sha256) (H3 : hash_laws sha512).

Definition sample_uid (content : bytes) : bytes :=
  digest md5 (join [] [digest md5 content; digest sha1 content; digest sha256 content; digest sha512 content]).
Definition sample_id (content : bytes) : bytes := documents_sample_doc_id (sample_uid content).

Lemma calculate_file_spec h path content w : hash_laws h -> files w !! path = Some content ->
  calculate_file h path w = (Ret (digest h content), w).
Proof. intros Hh Hp. unfold calculate_file, pm_bind, read_file, pm_lift. rewrite Hp. cbn [of_option]. by rewrite calculate_digest. Qed.

(** A sample is stored under a name made of its four digests. *)
Lemma upload_sample_spec path content w : files w !! path = Some content -> coll w !! sample_id content = None ->
  exists d, upload_sample md5 sha1 sha256 sha512 stamp path w =
    (Ret (sample_id content), set_coll (<[sample_id content := d]> (coll w)) (set_fs (stored sha256 (basename path) content (fs w)) w)) /\
    d !! "file_doc_id" = Some (VStr (file_id sha256 content)).
Proof.
  intros Hp Hc. set (w1 := set_fs (stored sha256 (basename path) content (fs w)) w).
  assert (files w1 !! path = Some content) as Hp1 by done.
  assert (db_upload_file sha256 path w = (Ret (file_id sha256 content), w1)) as Hup.
  { unfold db_upload_file, file_doc_id, pm_bind. rewrite (calculate_file_spec sha256 path content) by done.
    unfold pm_ret, read_file. rewrite Hp. cbn [of_option pm_modify]. unfold pm_modify, w1, stored, file_id.
    destruct (fs w !! _) eqn:E; [|done]. by destruct w. }
  unfold upload_sample, pm_bind. rewrite Hup. unfold sample_doc, calculate_combined_hash, pm_bind.
  rewrite !(calculate_file_spec _ path content) by done. unfold pm_ret, read_file. rewrite Hp1. cbn [of_option].
  rewrite !(calculate_file_spec _ path content) by done. unfold pm_get.
  fold (digest md5 (join [] [digest md5 content; digest sha1 content; digest sha256 content; digest sha512 content])).
  fold (sample_uid content). fold (sample_id content). set (d := list_to_map _).
  assert (d !! "_id" = Some (VStr (sample_id content))) as Hd by done. exists d. split; [|done].
  unfold upload_dict, pm_lift. rewrite (doc_id_of _ _ Hd). cbn [coll w1 set_fs]. by rewrite Hc.
Qed.

(** The directory for a sample at a time *)
Definition sample_dir (i : bytes) (t : Z) : bytes := os_path_join (os_path_join FTP_ROOT (lit "binaries")) (i ++ lit "_" ++ stamp t).

Lemma os_path_join_inj d a b : head a <> Some 47 -> head b <> Some 47 -> os_path_join d a = os_path_join d b -> a = b.
Proof.
  intros Ha Hb. unfold os_path_join. rewrite (bool_decide_eq_false_2 (head a = _)), (bool_decide_eq_false_2 (head b = _)) by done.
  destruct (_ || _); intros E; [by apply app_inv_head in E|by apply app_inv_head in E; simplify_eq].
Qed.

(** The copy for the machine is the sample that was uploaded, with the script that runs it. *)
Theorem copy_is_sample path content cmds draws w : files w !! path = Some content -> coll w !! sample_id content = None ->
  store_ok sha256 (fs w) -> collision_free sha256 (fs w) (files w) ->
  let i := sample_id content in let dir := sample_dir i (now w) in files w !! dir = None ->
  exists w', (upload_sample md5 sha1 sha256 sha512 stamp path ;! copy_sample_to_ftp stamp FTP_ROOT i cmds draws) w = (Ret dir, w') /\
  files w' !! os_path_join dir (exe i) = Some content /\
  files w' !! os_path_join dir (lit "lophi.bat") = Some (lophi_bat i (_get_random_filename draws) cmds).
Proof.
  intros Hp Hc Hs Hfree i dir Hdir. unfold pm_bind at 1.
  destruct (upload_sample_spec path content w Hp Hc) as (d & -> & Hf). fold i.
  destruct (stored_spec sha256 (basename path) content path (fs w) (files w) Hs Hfree Hp) as (_ & _ & [nm Hin] & _).
  unfold copy_sample_to_ftp, _get_sample_dir, pm_bind, pm_get, pm_ret. cbn [now set_coll set_fs]. fold (sample_dir i (now w)). fold dir.
  unfold makedirs. cbn [files set_coll set_fs]. rewrite Hdir. unfold download_sample, pm_bind, download_dict, pm_get. cbn [coll set_files set_coll].
  rewrite lookup_insert_eq, Hf. unfold db_download_file, pm_bind. cbn [fs set_files set_coll set_fs]. rewrite Hin.
  eexists. split; [done|]. cbn [files set_files snd]. split; [|apply lookup_insert_eq].
  rewrite lookup_insert_ne; [apply lookup_insert_eq|]. intros E. by apply os_path_join_inj in E.
Qed.

(** The directory of a sample has the time in its name: when it is to be deleted it is looked for
    under another one, and the sample stays. *)
Theorem delete_looks_elsewhere i w :
  sample_dir i (now w) ∉ dirs w ->
  delete_sample_from_ftp stamp FTP_ROOT i w = (Raise IOError, w).
Proof.
  intros Hd. unfold delete_sample_from_ftp, _get_sample_dir, pm_bind, pm_get, pm_ret, rmtree. by rewrite bool_decide_eq_false_2.
Qed.
End samples.

(** * Two writers *)

(** The lock does not span fetching and putting back: of two processes that change one document
    at once, the first one's change is lost. *)
Theorem update_lost i d k1 v1 k2 v2 w : coll w !! i = Some d -> d !! "_id" = Some (VStr i) -> MUTEX w = false ->
  k1 <> "_id" -> k2 <> "_id" -> k1 <> k2 ->
  exists w', (update_analysis i k1 v1 ;! upload_doc (<[k2 := v2]> d) true) w = (Ret tt, w') /\
    coll w' !! i = Some (<[k2 := v2]> d).
Proof.
  intros Hd Hi Hl Hk1 Hk2 Hne. unfold pm_bind at 1, update_analysis.
  rewrite (change_doc_spec i _ d (<[k1 := v1]> d)) by (done || by apply doc_id_of, id_insert).
  eexists. split; [eapply upload_replace|].
  - cbn. apply lookup_insert_eq.
  - by apply doc_id_of, id_insert.
  - done.
  - apply lookup_insert_eq.
Qed.

(** * The database of the configuration *)

Theorem mongo_of_host h : 58 ∉ h ->
  mongo_init (Url (lit "mongodb") (h ++ lit ":27017") (lit "/lophi_db/samples")) =
  Ret (Mongo h 27017 (lit "lophi_db") (lit "samples")).
Proof.
  intros Hh. unfold mongo_init. cbn [netloc path]. change (lit ":27017") with (58 :: lit "27017").
  rewrite split_on_app by done. rewrite split_on_word by (by vm_compute; set_solver). done.
Qed.

(** * Examples *)

(** A hash that keeps everything *)
Definition plain_hash : hash := Hash bytes [] (fun s d => s ++ d) (fun s => s) 64.
Lemma plain_laws : hash_laws plain_hash.
Proof. split; [intros s a b; symmetry; apply app_assoc|intros s; apply app_nil_r|done]. Qed.

Definition example_world : world :=
  World {[ lit "/tmp/mem.dump" := [1; 2; 3]; lit "/tmp/net.pcap" := [4] ]} ∅ 7 ∅ ∅ false.
Definition example_ops : list op :=
  [OMachine (lit "dell") 0; OAppend (lit "/tmp/mem.dump") "memory"; OUpdate "status" (VStr (lit "DONE"));
   OAppend (lit "/tmp/net.pcap") "network"].

Lemma analysis_record_witness :
  let i := join DELIMITER [lit "analysis"; lit "s"; py_str 5] in
  let cmd := Command (lit "me") (lit "WinXPSP3x86") (lit "malware") 0 in
  let r := foldl (spec_op (files example_world)) (ARecord (analysis_doc (lit "s") cmd 5 7) ∅) example_ops in
  exists w' d, (create_analysis (lit "s") cmd 5 ;! run_ops plain_hash i example_ops) example_world = (Ret tt, w') /\
    coll w' !! i = Some d /\ represents plain_hash i r d (fs w') /\ delete i (coll w') = ∅ /\ MUTEX w' = false /\
    forall name c dest, outputs r !! name = Some c ->
      db_download_file (file_id plain_hash c) dest w' = (Ret tt, set_files (<[dest := c]> (files w')) (dirs w') w').
Proof.
  apply (analysis_record plain_hash plain_laws (lit "s") (Command (lit "me") (lit "WinXPSP3x86") (lit "malware") 0) 5 example_ops example_world).
  - reflexivity.
  - reflexivity.
  - intros fid nm c H. vm_compute in H. discriminate.
  - intros c c' _ _ H. unfold file_id, digest in H. cbn [join hexdigest plain_hash hupdate hnew app] in H.
    apply (app_inv_head (lit "file" ++ DELIMITER)). exact H.
  - repeat constructor; try (vm_compute; discriminate); eexists; vm_compute; reflexivity.
Defined.
