(* ===== verification/RemoteQueue.v ===== *)
(** Queues over the network ([lophi_automation/dataconsumers/remotequeue.py]): a client that sends
    sensor output which has changed, over connections that break, and the relays of the
    server that put it into a queue.

    Messages are those of [Controller] (a length and the data), packed by [Protobuf].  The
    network says of each message whether it goes out or how much of it does before the
    connection breaks, and of each attempt to connect whether it succeeds. *)
From S2P Require Import Prelude Struct PyString Stream Protobuf Controller.

(** * The client *)

(** An output as a dictionary: the key [MODULE_NAME], which may be missing, and the keys that are packed. *)
Record output := Output { MODULE_NAME : option bytes; content : soutput }.
#[global] Instance output_eq_dec : EqDecision output.
Proof. solve_decision. Defined.

Inductive event := Data (o : output) | Kill | GetFails.
Inductive sending := Whole (accepted : list nat) | Broken (k : nat).

(** The bytes put on the connection and on those before, the latest first, and what the network does next *)
Record client := Client {
  cache : gmap bytes output; SOCK : option bytes; closed : list bytes; sends : list sending; connects : list bool
}.
Definition set_cache (c : gmap bytes output) (s : client) : client := Client c (SOCK s) (closed s) (sends s) (connects s).

(** [connect]: attempts until one succeeds; the old socket is dropped. *)
Fixpoint connect_loop (l : list bool) : list bool :=
  match l with [] => [] | true :: l => l | false :: l => connect_loop l end.
Definition connect : PM client unit := pm_modify (fun s =>
  Client (cache s) (Some []) (option_list (SOCK s) ++ closed s) (sends s) (connect_loop (connects s))).

(** [G.send_socket_data(self.SOCK, pb2_data)]: an error is any exception, that of packing the length too. *)
Definition send (pb2_data : bytes) : PM client unit := fun s =>
  match send_socket_data [] pb2_data with
  | Raise e => (Raise e, s)
  | Ret frame =>
      match SOCK s, sends s with
      | None, _ => (Raise AttributeError, s)
      | Some st, [] => (Ret tt, Client (cache s) (Some (st ++ frame)) (closed s) [] (connects s))
      | Some st, Whole accepted :: l => (Ret tt, Client (cache s) (Some (st ++ sock_send_loop accepted frame)) (closed s) l (connects s))
      | Some st, Broken k :: l => (Raise SocketError, Client (cache s) (Some (st ++ take k frame)) (closed s) l (connects s))
      end
  end.

(** [while True]: a failure clears the entry of the module and connects again. *)
Fixpoint send_loop (fuel : nat) (module pb2_data : bytes) : PM client unit :=
  match fuel with
  | O => pm_raise Diverges
  | S fuel =>
      pm_catch (send pb2_data) (fun _ =>
        let! c := pm_get cache in
        match c !! module with
        | None => pm_raise KeyError
        | Some _ => pm_modify (set_cache (delete module c)) ;! connect ;! send_loop fuel module pb2_data
        end)
  end.

Section client.
Context `{Format soutput}.

(** One round of the loop with [data]: the entry of a module is compared and replaced. *)
Definition relay_one (o : output) : PM client unit :=
  match MODULE_NAME o with
  | None => pm_raise KeyError
  | Some module =>
      let pb2_data := pack_sensor_output (content o) in
      let! c := pm_get cache in
      if bool_decide (c !! module = Some o) then pm_ret tt
      else pm_modify (set_cache (<[module := o]> c)) ;! send_loop 2 module pb2_data
  end.

(** The loop; [data] keeps its value when nothing can be taken from the queue. *)
Fixpoint run_loop (q : list event) (data : option event) : PM client unit :=
  match q with
  | [] => pm_ret tt
  | e :: q =>
      let data := match e with GetFails => data | _ => Some e end in
      match data with
      | None => pm_raise NameError
      | Some (Data o) => relay_one o ;! run_loop q data
      | Some _ => pm_ret tt
      end
  end.
Definition run (q : list event) : PM client unit := connect ;! run_loop q None.

(** * The relays *)

(** The address of the client is put before the name of the machine. *)
Definition from_address (address : bytes) (o : soutput) : soutput :=
  SOutput (so_module o) (so_sensor o) (so_profile o) (address ++ [45] ++ so_machine o) (so_header o) (so_data o).

(** One round of [ClientRelay.run]: a message is read and put into the queue that all relays share; every
    exception ends the relay, and so does a full queue.  [maxsize] is how many items the queue takes. *)
Definition relay (address : bytes) (maxsize : nat) (s : sock_state) (queue : list soutput) : option sock_state * list soutput :=
  match read_socket_data s with
  | (Ret (Some data), s) =>
      match unpack_sensor_output data with
      | Some o => if (length queue <? maxsize)%nat then (Some s, queue ++ [from_address address o]) else (None, queue)
      | None => (None, queue)
      end
  | _ => (None, queue)
  end.

(** The relays are processes, one for each connection: the schedule says which of them makes its next round.
    One that has ended is [None]. *)
Definition serve_step (address : bytes) (maxsize : nat) (st : list (option sock_state) * list soutput) (i : nat) :
    list (option sock_state) * list soutput :=
  match st.1 !! i with
  | Some (Some s) => let '(s, queue) := relay address maxsize s st.2 in (<[i := s]> st.1, queue)
  | _ => st
  end.
Definition serve (address : bytes) (maxsize : nat) (conns : list sock_state) (schedule : list nat) : list (option sock_state) * list soutput :=
  foldl (serve_step address maxsize) (Some <$> conns, []) schedule.
End client.

(** * Frames *)

Definition frame (data : bytes) : bytes := le_split 2 (zlen data) ++ data.
Lemma length_frame data : length (frame data) = (2 + length data)%nat.
Proof. unfold frame. rewrite length_app, length_le_split. done. Qed.
Lemma send_frame data : zlen data < 2 ^ 16 -> send_socket_data [] data = Ret (frame data).
Proof. intros Hl. unfold send_socket_data. by rewrite (proj2 (Z.ltb_lt _ _)). Qed.

(** A message of which less than the whole arrives is not delivered. *)
Lemma read_loop_short fuel : forall size got s, (length got + length (pending_bytes s) < size)%nat ->
  (length (pending_bytes s) < fuel)%nat -> exists s', read_loop fuel size got s = (Ret None, s').
Proof.
  induction fuel as [|fuel IH]; intros size got s Hs Hf; [lia|]. cbn [read_loop].
  destruct (Nat.leb_spec size (length got)); [lia|]. destruct (recv_some (size - length got) s) as (k & Hk & Hr & _); [lia|].
  unfold pm_bind. rewrite Hr. case_bool_decide as Hn; [by eexists|]. apply IH; cbn [pending_bytes].
  - rewrite length_app, length_take, length_drop. lia.
  - rewrite length_drop. destruct (pending_bytes s); [by rewrite take_nil in Hn|]. cbn [length] in *. lia.
Qed.
Lemma read_partial data k s : (k < length (frame data))%nat -> zlen data < 2 ^ 16 -> pending_bytes s = take k (frame data) ->
  whole 2 s -> forall x s', read_socket_data s <> (Ret (Some x), s').
Proof.
  intros Hk Hl Hp Hw x s'. unfold read_socket_data, pm_bind. destruct (recv_some 2 s) as (j & Hj & Hr & H2); [lia|].
  assert (j = 2)%nat as -> by (specialize (H2 2%nat Hw ltac:(lia)); lia). rewrite Hr, Hp. rewrite length_frame in Hk.
  case_bool_decide as Hn; [done|]. case_bool_decide as H2'; [|done].
  rewrite length_take, length_take, length_frame in H2'. pose proof (zlen_nonneg data).
  assert (take 2 (take k (frame data)) = le_split 2 (zlen data)) as ->.
  { rewrite take_take, Nat.min_l by lia. unfold frame. by rewrite take_app_length' by (by rewrite length_le_split). }
  rewrite le_combine_split by (change (256 ^ Z.of_nat 2) with (2 ^ 16); lia). unfold zlen. rewrite Nat2Z.id.
  destruct (read_loop_short (length data) (length data) [] (Socket (drop 2 (take k (frame data))) (tail (arrivals s)))) as [s'' ->];
    [|..|done]; cbn [pending_bytes length]; rewrite length_drop, length_take, length_frame; lia.
Qed.

Section delivery.
Context `{Format soutput}.

Abbreviation packed o := (frame (pack_sensor_output (content o))).
Definition small (o : output) : Prop := zlen (pack_sensor_output (content o)) < 2 ^ 16.

(** What a relay makes of a stream of whole messages and the beginning of another *)
Definition stream_of (ms : list output) (st : bytes) : Prop := Forall small ms /\
  exists d k, zlen d < 2 ^ 16 /\ (k < length (frame d))%nat /\ st = concat ((fun o => packed o) <$> ms) ++ take k (frame d).

(** What arrives of a stream that is cut short holds fewer of its messages. *)
Lemma stream_prefix ms st st' : stream_of ms st -> st' `prefix_of` st -> exists ms', ms' `prefix_of` ms /\ stream_of ms' st'.
Proof.
  intros (Hsm & d & k & Hd & Hk & ->). revert st'. induction Hsm as [|o ms Ho _ IH]; intros st' Hp; cbn [fmap list_fmap concat app] in Hp.
  - exists []. split; [done|]. split; [done|]. destruct Hp as [x Hx]. exists d, (length st'). assert (length st' <= k)%nat.
    { apply (f_equal length) in Hx. rewrite length_app, length_take in Hx. lia. }
    split_and!; [done|lia|]. transitivity (take (length st') (st' ++ x)); [by rewrite take_app_length|].
    by rewrite <- Hx, take_take, Nat.min_l.
  - rewrite <- app_assoc in Hp. destruct (decide (length st' < length (packed o))%nat) as [Hl|Hl].
    + exists []. split; [apply prefix_nil|]. split; [done|]. exists (pack_sensor_output (content o)), (length st'). split_and!; [done|done|].
      destruct Hp as [x Hx]. transitivity (take (length st') (st' ++ x)); [by rewrite take_app_length|].
      by rewrite <- Hx, take_app_le by lia.
    + destruct Hp as [x Hx]. assert (exists st2, st' = packed o ++ st2) as [st2 ->].
      { exists (drop (length (packed o)) st'). rewrite <- (take_drop (length (packed o)) st') at 1. f_equal.
        rewrite <- (take_app_le st' x) by lia. by rewrite <- Hx, take_app_length. }
      rewrite <- app_assoc in Hx. apply app_inv_head in Hx. destruct (IH st2) as (ms' & Hms & Hs & d' & k' & Hd' & Hk' & ->); [by exists x|].
      exists (o :: ms'). split; [by apply prefix_cons|]. split; [by constructor|]. exists d', k'. cbn [fmap list_fmap concat]. by rewrite <- app_assoc.
Qed.
Lemma streams_prefix parts streams arrived : Forall2 stream_of parts streams -> Forall2 prefix arrived streams ->
  exists got, Forall2 prefix got parts /\ Forall2 stream_of got arrived /\
    forall i, arrived !! i = streams !! i -> got !! i = parts !! i.
Proof.
  intros Hp. revert arrived. induction Hp as [|ms st parts streams Hs _ IH]; intros arrived Ha; inversion Ha as [|st' ? arrived' ? Hst Ha']; subst.
  - by exists [].
  - destruct (IH _ Ha') as (got & H1 & H2 & H3). destruct (decide (st' = st)) as [->|Hne].
    + exists (ms :: got). split_and!; [by constructor|by constructor|]. intros [|i] Hi; [done|]. by apply H3.
    + destruct (stream_prefix ms st st' Hs Hst) as (ms' & Hms & Hs'). exists (ms' :: got). split_and!; [by constructor|by constructor|].
      intros [|i] Hi; [by injection Hi|]. by apply H3.
Qed.
Lemma stream_length ms st : stream_of ms st -> (length ms <= length st)%nat.
Proof.
  intros (_ & d & k & _ & _ & ->). rewrite length_app. induction ms as [|o ms IH]; [cbn; lia|]. cbn [fmap list_fmap concat].
  rewrite length_app, length_frame. cbn [length]. lia.
Qed.

(** ** Relays side by side *)

Lemma concat_insert {A} (l : list (list A)) i x y : l !! i = Some x -> concat (<[i := x ++ [y]]> l) ≡ₚ concat l ++ [y].
Proof.
  intros Hi. rewrite insert_take_drop by (by eapply lookup_lt_Some). rewrite <- (take_drop_middle l i x Hi) at 3.
  rewrite !concat_app. cbn [concat]. rewrite <- !app_assoc. apply Permutation_app_head, Permutation_app_head. apply Permutation_app_comm.
Qed.
Lemma count_snoc (i : nat) t j : length (filter (eq i) (t ++ [j])) = (length (filter (eq i) t) + if decide (i = j) then 1 else 0)%nat.
Proof. rewrite filter_app, length_app, filter_cons, filter_nil. by destruct (decide (i = j)). Qed.
Lemma prefix_concat_length {A} (l l' : list (list A)) : length l = length l' ->
  (forall i x y, l !! i = Some x -> l' !! i = Some y -> (length x <= length y)%nat) -> (length (concat l) <= length (concat l'))%nat.
Proof.
  revert l'. induction l as [|x l IH]; intros [|y l'] Hl Hi; try done. cbn [concat]. rewrite !length_app.
  pose proof (Hi 0%nat x y eq_refl eq_refl). pose proof (IH l' ltac:(by injection Hl) (fun i => Hi (S i))). lia.
Qed.

Section relays.
Context (address : bytes) (maxsize : nat) (parts : list (list output)).
Definition received (o : output) : soutput := from_address address (as_text (content o)).
(** After the schedule [t], the relay with number [i] has put the outputs [taken] of [part]. *)
Definition relay_ok (t : list nat) (i : nat) (part taken : list output) (c : option sock_state) : Prop :=
  match c with
  | None => taken = part
  | Some s => whole 2 s /\ length taken = length (filter (eq i) t) /\ exists rest, part = taken ++ rest /\ stream_of rest (pending_bytes s)
  end.
Record relaying (t : list nat) (taken : list (list output)) (st : list (option sock_state) * list soutput) : Prop := {
  rl_taken : length taken = length parts;
  rl_conns : length st.1 = length parts;
  rl_each : forall i part tk c, parts !! i = Some part -> taken !! i = Some tk -> st.1 !! i = Some c -> relay_ok t i part tk c;
  rl_queue : st.2 ≡ₚ received <$> concat taken;
  rl_order : Forall (fun tk => received <$> tk `sublist_of` st.2) taken
}.
Hypothesis enough : (length (concat parts) <= maxsize)%nat.

Lemma relay_round s o ms queue : stream_of (o :: ms) (pending_bytes s) -> whole 2 s -> (length queue < maxsize)%nat ->
  exists s', relay address maxsize s queue = (Some s', queue ++ [received o]) /\ stream_of ms (pending_bytes s') /\ whole 2 s'.
Proof.
  intros (Hsm & d & k & Hd & Hk & Hp) Hw Hr. apply Forall_cons in Hsm as [Ho Hsm]. cbn [fmap list_fmap concat] in Hp. rewrite <- app_assoc in Hp.
  destruct (read_one _ _ s Hw Ho Hp) as (s' & He & Hp' & Hw'). exists s'. unfold relay. rewrite He.
  unfold unpack_sensor_output, pack_sensor_output. rewrite parse_serialize, (proj2 (Nat.ltb_lt _ _)) by done. split; [done|]. split; [|done].
  split; [done|]. by exists d, k.
Qed.
Lemma relay_end s queue : stream_of [] (pending_bytes s) -> whole 2 s -> relay address maxsize s queue = (None, queue).
Proof.
  intros (_ & d & k & Hd & Hk & Hp) Hw. unfold relay. pose proof (read_partial d k s Hk Hd Hp Hw) as Hn.
  destruct (read_socket_data s) as [[[x|]|] s'] eqn:E; [|done|done]. by destruct (Hn x s').
Qed.
Lemma relay_ok_other t i j part tk c : i <> j -> relay_ok t i part tk c -> relay_ok (t ++ [j]) i part tk c.
Proof. intros Hne. unfold relay_ok. rewrite count_snoc, decide_False, Nat.add_0_r by done. done. Qed.
Lemma relay_ok_length t i part tk c : relay_ok t i part tk c -> (length tk <= length part)%nat.
Proof. destruct c; [|by intros ->]. intros (_ & _ & rest & -> & _). rewrite length_app. lia. Qed.

Lemma serve_step_ok t taken st j : relaying t taken st -> exists taken', relaying (t ++ [j]) taken' (serve_step address maxsize st j).
Proof.
  intros Hr. pose proof Hr as [H1 H2 H3 H4 H5]. unfold serve_step. destruct (st.1 !! j) as [[s|]|] eqn:Hj.
  2, 3: exists taken; split; try done; intros i part tk c Hp Htk Hc; specialize (H3 i part tk c Hp Htk Hc); destruct (decide (i = j)) as [->|Hne];
    [rewrite Hj in Hc; try done; injection Hc as <-; exact H3|by apply relay_ok_other].
  assert (j < length parts)%nat as Hlt by (rewrite <- H2; by eapply lookup_lt_Some).
  destruct (lookup_lt_is_Some_2 parts j Hlt) as [part Hpart]. destruct (lookup_lt_is_Some_2 taken j ltac:(lia)) as [tk Htk].
  destruct (H3 j part tk (Some s) Hpart Htk Hj) as (Hw & Hn & rest & Hrest & Hs). destruct rest as [|o rest].
  - rewrite relay_end by done. exists taken. split; cbn [fst snd]; try done; [by rewrite length_insert|].
    intros i p k c Hp Hk Hc. destruct (decide (i = j)) as [->|Hne].
    + rewrite list_lookup_insert_eq in Hc by lia. injection Hc as <-. rewrite app_nil_r in Hrest. cbn. congruence.
    + rewrite list_lookup_insert_ne in Hc by done. apply relay_ok_other; [done|by apply H3].
  - assert (length st.2 < maxsize)%nat as Hroom.
    { rewrite H4, length_fmap. assert (length (concat (<[j := tk ++ [o]]> taken)) <= length (concat parts))%nat as Hle.
      { apply prefix_concat_length; [by rewrite length_insert|]. intros i x y Hx Hy. destruct (decide (i = j)) as [->|Hne].
        - rewrite list_lookup_insert_eq in Hx by lia. injection Hx as <-. assert (y = part) as -> by congruence. rewrite Hrest, !length_app. cbn. lia.
        - rewrite list_lookup_insert_ne in Hx by done. destruct (lookup_lt_is_Some_2 st.1 i) as [c Hc]; [rewrite H2; by eapply lookup_lt_Some|].
          by eapply relay_ok_length, H3. }
      rewrite (Permutation_length (concat_insert taken j tk o Htk)), length_app in Hle. cbn in Hle. lia. }
    destruct (relay_round s o rest st.2 Hs Hw Hroom) as (s' & -> & Hs' & Hw'). exists (<[j := tk ++ [o]]> taken). split; cbn [fst snd].
    + by rewrite length_insert.
    + by rewrite length_insert.
    + intros i p k c Hp Hk Hc. destruct (decide (i = j)) as [->|Hne].
      * rewrite list_lookup_insert_eq in Hk by lia. rewrite list_lookup_insert_eq in Hc by lia. injection Hk as <-. injection Hc as <-. assert (p = part) as -> by congruence.
        split; [done|]. split; [rewrite length_app, count_snoc, decide_True, Hn by done; done|]. exists rest. by rewrite <- app_assoc.
      * rewrite list_lookup_insert_ne in Hk by done. rewrite list_lookup_insert_ne in Hc by done. apply relay_ok_other; [done|by apply H3].
    + rewrite concat_insert, H4, fmap_app by done. done.
    + apply Forall_insert; [eapply Forall_impl; [exact H5|]; intros; by apply sublist_inserts_r|]. rewrite fmap_app. apply sublist_app; [|done].
      rewrite Forall_forall in H5. apply H5. by eapply list_elem_of_lookup_2.
Qed.
Lemma serve_ok schedule : forall t taken st, relaying t taken st ->
  exists taken', relaying (t ++ schedule) taken' (foldl (serve_step address maxsize) st schedule).
Proof.
  induction schedule as [|j schedule IH]; intros t taken st Hr; [exists taken; by rewrite app_nil_r|].
  destruct (serve_step_ok t taken st j Hr) as [taken1 Hr1]. destruct (IH _ _ _ Hr1) as [taken2 Hr2]. exists taken2. by rewrite <- app_assoc in Hr2.
Qed.
(** Relays that make enough rounds end, and the queue holds the outputs of every connection, in order for each. *)
Lemma serve_all conns schedule : Forall2 stream_of parts (pending_bytes <$> conns) -> Forall (whole 2) conns ->
  (forall i s, conns !! i = Some s -> (length (pending_bytes s) < length (filter (eq i) schedule))%nat) ->
  Forall (eq None) (serve address maxsize conns schedule).1 /\
  (serve address maxsize conns schedule).2 ≡ₚ received <$> concat parts /\
  Forall (fun part => received <$> part `sublist_of` (serve address maxsize conns schedule).2) parts.
Proof.
  intros Hs Hw Hf. pose proof (Forall2_length _ _ _ Hs) as Hlen. rewrite length_fmap in Hlen.
  assert (relaying [] ((fun _ => []) <$> parts) (Some <$> conns, [])) as H0.
  { split; cbn [fst snd]; rewrite ?length_fmap; try done.
    - intros i part tk c Hp Htk Hc. rewrite list_lookup_fmap in Htk. rewrite list_lookup_fmap in Hc. rewrite Hp in Htk. injection Htk as <-.
      destruct (conns !! i) as [s|] eqn:Hi; [|done]. injection Hc as <-. split; [rewrite Forall_forall in Hw; apply Hw; by eapply list_elem_of_lookup_2|].
      split; [done|]. exists part. split; [done|]. eapply Forall2_lookup_lr; [exact Hs|exact Hp|]. by rewrite list_lookup_fmap, Hi.
    - clear. by induction parts.
    - apply Forall_fmap, Forall_true. intros x. cbn. apply sublist_nil_l. }
  destruct (serve_ok schedule _ _ _ H0) as [taken [H1 H2 H3 H4 H5]]. cbn [app] in *. fold (serve address maxsize conns schedule) in *.
  assert (forall i c, (serve address maxsize conns schedule).1 !! i = Some c -> c = None /\ taken !! i = parts !! i) as Hend.
  { intros i c Hc. assert (i < length parts)%nat as Hlt by (rewrite <- H2; by eapply lookup_lt_Some).
    destruct (lookup_lt_is_Some_2 parts i Hlt) as [part Hpart]. destruct (lookup_lt_is_Some_2 taken i ltac:(lia)) as [tk Htk].
    destruct (lookup_lt_is_Some_2 conns i ltac:(lia)) as [s Hi]. specialize (H3 i part tk c Hpart Htk Hc). destruct c as [s'|]; [|cbn in H3; by rewrite Htk, Hpart, H3].
    exfalso. destruct H3 as (_ & Hn & rest & Hr & _). specialize (Hf i s Hi).
    assert (stream_of part (pending_bytes s)) as Hp%stream_length by (eapply Forall2_lookup_lr; [exact Hs|exact Hpart|by rewrite list_lookup_fmap, Hi]).
    rewrite Hr, length_app in Hp. lia. }
  assert (taken = parts) as ->.
  { apply list_eq. intros i. destruct (decide (i < length parts)%nat) as [Hlt|Hge]; [|by rewrite !lookup_ge_None_2 by lia].
    destruct (lookup_lt_is_Some_2 (serve address maxsize conns schedule).1 i ltac:(lia)) as [c Hc]. by apply (Hend i c). }
  split; [|done]. apply Forall_lookup. intros i c Hc. by destruct (Hend i c Hc).
Qed.
End relays.

(** What the network does with each output that is sent, and the outputs that are *)
Abbreviation script := (list (output * (option nat * list nat))).
Fixpoint plan (latest : gmap bytes output) (l : script) : list sending * list output :=
  match l with
  | [] => ([], [])
  | (o, (b, accepted)) :: l =>
      match MODULE_NAME o with
      | None => ([], [])
      | Some m =>
          if bool_decide (latest !! m = Some o) then plan latest l
          else match b with
               | None => let '(s, d) := plan (<[m := o]> latest) l in (Whole accepted :: s, o :: d)
               | Some k => let '(s, d) := plan (delete m latest) l in (Broken k :: Whole accepted :: s, o :: d)
               end
      end
  end.

Definition item_ok (x : output * (option nat * list nat)) : Prop :=
  is_Some (MODULE_NAME x.1) /\ small x.1 /\ match x.2.1 with Some k => (k < length (packed x.1))%nat | None => True end.

(** The streams of a client hold the outputs delivered so far. *)
Definition holds (delivered : list output) (s : client) : Prop := exists cur past,
  SOCK s = Some (concat ((fun o => packed o) <$> cur)) /\ Forall small cur /\ Forall2 stream_of past (closed s) /\
  delivered = concat (reverse past) ++ cur.

Lemma holds_send del o st s c l : holds del s -> small o -> SOCK s = Some st ->
  holds (del ++ [o]) (Client c (Some (st ++ packed o)) (closed s) l (connects s)).
Proof.
  intros (cur & past & Hs & Hsm & Hp & ->) Ho Hst. exists (cur ++ [o]), past. cbn [SOCK closed].
  rewrite Hst in Hs. injection Hs as ->. rewrite fmap_app, concat_app. cbn [fmap list_fmap concat]. rewrite app_nil_r.
  split_and!; [done|apply Forall_app; split; [done|by constructor]|done|by rewrite app_assoc].
Qed.
Lemma holds_break del o k st s c l m : holds del s -> small o -> SOCK s = Some st -> (k < length (packed o))%nat ->
  holds del (Client c (Some []) ((st ++ take k (packed o)) :: closed s) l m).
Proof.
  intros (cur & past & Hs & Hsm & Hp & ->) Ho Hst Hk. exists [], (cur :: past). cbn [SOCK closed].
  rewrite Hst in Hs. injection Hs as ->. split_and!; [done|done| |].
  - constructor; [|done]. split; [done|]. eauto.
  - by rewrite reverse_cons, concat_app, app_nil_r; cbn; rewrite app_nil_r.
Qed.

Lemma send_whole o st accepted rest s : small o -> SOCK s = Some st -> sends s = Whole accepted :: rest ->
  send (pack_sensor_output (content o)) s = (Ret tt, Client (cache s) (Some (st ++ packed o)) (closed s) rest (connects s)).
Proof. intros Ho Hs Hse. unfold send. by rewrite send_frame, Hs, Hse, send_loop_all. Qed.

(** An output that is new goes out, if need be on a second connection. *)
Lemma relay_one_sends o b accepted rest s del m : holds del s -> item_ok (o, (b, accepted)) -> MODULE_NAME o = Some m ->
  cache s !! m <> Some o -> sends s = match b with None => [] | Some k => [Broken k] end ++ Whole accepted :: rest ->
  exists s', relay_one o s = (Ret tt, s') /\ holds (del ++ [o]) s' /\ sends s' = rest /\
    cache s' = match b with None => <[m := o]> (cache s) | Some _ => delete m (cache s) end.
Proof.
  intros Hh (_ & Ho & Hk) Hm Hc Hs. destruct Hh as (cur & past & Hst & Hh'). set (st := concat _) in Hst.
  assert (holds del s) as Hh by (exists cur, past; done). clear Hh'.
  unfold relay_one. rewrite Hm. unfold pm_bind at 1, pm_get. rewrite bool_decide_eq_false_2 by done.
  unfold pm_bind at 1, pm_modify. cbn [send_loop]. unfold pm_catch.
  destruct b as [k|]; cbn [app fst snd] in *.
  - unfold send at 1. rewrite send_frame by done. cbn [SOCK sends set_cache]. rewrite Hst, Hs.
    unfold pm_bind, pm_get. cbn [cache set_cache]. rewrite lookup_insert_eq. unfold pm_modify, connect, pm_modify, pm_catch.
    cbn [cache SOCK closed sends connects set_cache option_list app]. erewrite send_whole by done.
    eexists. split; [done|]. cbn [sends cache closed]. split; [|split; [done|apply delete_insert_eq]].
    apply (holds_send del o [] (Client _ (Some []) _ _ _)); [|done|done]. by apply holds_break.
  - erewrite send_whole by done. eexists. split; [done|]. split; [|done]. by apply holds_send.
Qed.

Lemma run_loop_plan l : forall s del data, holds del s -> Forall item_ok l -> sends s = (plan (cache s) l).1 ->
  exists s', run_loop ((Data <$> l.*1) ++ [Kill]) data s = (Ret tt, s') /\ holds (del ++ (plan (cache s) l).2) s'.
Proof.
  induction l as [|[o [b accepted]] l IH]; intros s del data Hh Hok Hs; [exists s; split; [done|by rewrite app_nil_r]|].
  apply Forall_cons in Hok as [Ho Hok]. destruct Ho as ([m Hm] & Hsm & Hk) eqn:E. clear E. cbn [plan fst] in *. rewrite Hm in *.
  cbn [fmap list_fmap app fst run_loop]. unfold pm_bind at 1.
  case_bool_decide as Hc.
  - assert (relay_one o s = (Ret tt, s)) as ->.
    { unfold relay_one. rewrite Hm. unfold pm_bind, pm_get. by rewrite bool_decide_eq_true_2. }
    apply IH; done.
  - destruct (plan (match b with None => <[m := o]> (cache s) | Some _ => delete m (cache s) end) l) as [se de] eqn:Ep.
    assert (sends s = match b with None => [] | Some k => [Broken k] end ++ Whole accepted :: se) as Hse.
    { rewrite Hs. destruct b; by rewrite Ep. }
    destruct (relay_one_sends o b accepted se s del m Hh) as (s1 & -> & Hh1 & Hs1 & Hc1); [by split_and!|done|done|done|].
    destruct (IH s1 (del ++ [o]) (Some (Data o)) Hh1 Hok) as (s2 & Hr & Hh2); [by rewrite Hs1, Hc1, Ep|].
    exists s2. split; [exact Hr|]. rewrite Hc1, Ep in Hh2. rewrite <- app_assoc in Hh2. destruct b; rewrite Ep; exact Hh2.
Qed.


(** ** Errors *)

(** A message that cannot be sent at all ends the client: its entry is cleared at the first failure
    and missing at the second. *)
Lemma send_loop_fails m d s : (forall s, exists e s', send d s = (Raise e, s') /\ cache s' = cache s) ->
  is_Some (cache s !! m) -> (send_loop 2 m d s).1 = Raise KeyError.
Proof.
  intros Hf [o Hm]. cbn [send_loop]. unfold pm_catch at 1. destruct (Hf s) as (e & s1 & -> & Hc).
  unfold pm_bind at 1, pm_get. rewrite Hc, Hm. unfold pm_bind at 1, pm_modify. unfold pm_bind at 1, connect, pm_modify.
  unfold pm_catch at 1. set (s2 := Client _ _ _ _ _). destruct (Hf s2) as (e' & s3 & -> & Hc3). unfold pm_bind at 1, pm_get.
  rewrite Hc3. cbn [cache s2 set_cache]. by rewrite lookup_delete_eq.
Qed.
Theorem large_output_ends o m s : MODULE_NAME o = Some m -> 2 ^ 16 <= zlen (pack_sensor_output (content o)) -> cache s !! m <> Some o ->
  (relay_one o s).1 = Raise KeyError.
Proof.
  intros Hm Hl Hc. unfold relay_one. rewrite Hm. unfold pm_bind at 1, pm_get. rewrite bool_decide_eq_false_2 by done.
  unfold pm_bind, pm_modify. apply send_loop_fails; [|cbn; rewrite lookup_insert_eq; by eexists].
  intros s'. exists StructError, s'. unfold send, send_socket_data. by rewrite (proj2 (Z.ltb_ge _ _)).
Qed.
(** The outputs of the analyses have no key [MODULE_NAME]: the first one ends the client. *)
Theorem no_module_name q o s : MODULE_NAME o = None -> (run (Data o :: q) s).1 = Raise KeyError.
Proof. intros Hm. unfold run, pm_bind at 1, connect, pm_modify. cbn [run_loop]. unfold pm_bind, relay_one. by rewrite Hm. Qed.
Theorem empty_get_raises q s : (run (GetFails :: q) s).1 = Raise NameError.
Proof. done. Qed.
End delivery.

Definition demo : output := Output (Some (lit "pslist")) demo_output.
