(* ===== verification/MemoryDiff.v ===== *)
(** Differential memory analysis ([lophi-analysis/analysis/memory/memory_analysis.py]): the plugins of
    Volatility are run on a clean and on a dirty image, and their outputs are compared.

    Volatility is a parameter: what a plugin gives for an image, or the exception it raises.
    The code compares sets of lines; it is proved equal to keeping, in their order, the lines
    that the other output does not have. *)
From S2P Require Import Prelude PyString.

(** * [DictDiff] *)

Section dict_diff.
Context {K V : Type} `{Countable K} `{EqDecision V}.
Record DictDiff := DDiff { dict1 : gmap K V; dict2 : gmap K V }.
Definition set1 (d : DictDiff) : gset K := dom (dict1 d).
Definition set2 (d : DictDiff) : gset K := dom (dict2 d).
Definition intersection_ (d : DictDiff) : gset K := set1 d ∩ set2 d.
Definition added (d : DictDiff) : gset K := set2 d ∖ intersection_ d.
Definition removed (d : DictDiff) : gset K := set1 d ∖ intersection_ d.
Definition changed_keys (d : DictDiff) : gset K := filter (fun k => dict2 d !! k <> dict1 d !! k) (intersection_ d).
Definition unchanged_keys (d : DictDiff) : gset K := filter (fun k => dict2 d !! k = dict1 d !! k) (intersection_ d).
End dict_diff.
Arguments DictDiff K V {_ _}.

(** * Outputs of plugins *)

(** A line: text, or a row of cells *)
Inductive line := LText (s : bytes) | LRow (cells : list bytes).
#[global] Instance line_eq_dec : EqDecision line.
Proof. solve_decision. Defined.
#[global] Instance line_countable : Countable line :=
  inj_countable' (fun l => match l with LText s => inl s | LRow c => inr c end)
                 (fun x => match x with inl s => LText s | inr c => LRow c end) ltac:(by intros []).

(** [None], a text, or a dictionary with [HEADER], [DATA] and other entries *)
Inductive vout := ONone | OText (s : bytes) | ODict (HEADER : option (list bytes)) (DATA : option (list line)) (others : gmap string bytes).
#[global] Instance vout_eq_dec : EqDecision vout.
Proof. solve_decision. Defined.

(** [if output] *)
Definition truthy (o : vout) : bool :=
  match o with
  | ONone | OText [] => false
  | ODict None None others => negb (bool_decide (others = ∅))
  | _ => true
  end.

(** [s.splitlines()]: a carriage return and a line feed end a line together. *)
Fixpoint splitlines (s cur : bytes) : list bytes :=
  match s with
  | [] => match cur with [] => [] | _ => [reverse cur] end
  | 13 :: s' => match s' with 10 :: s'' => reverse cur :: splitlines s'' [] | _ => reverse cur :: splitlines s' [] end
  | c :: s' => if c =? 10 then reverse cur :: splitlines s' [] else splitlines s' (c :: cur)
  end.

(** The result for a plugin *)
Inductive entry := Same | Differs (removed_entries added_entries : list line) | ErrorText (s : string).

(** The lines that are compared: an exception of any kind is caught by the caller. *)
Definition lines_of (o1 o2 : vout) : res (list line * list line) :=
  match o1, o2 with
  | ODict _ d1 _, ODict _ d2 _ =>
      let? l1 := of_option KeyError d1 in let? l2 := of_option KeyError d2 in Ret (l1, l2)
  | ODict _ d1 _, _ => let? l1 := of_option KeyError d1 in Raise TypeError
  | _, ODict _ _ _ => Raise AttributeError
  | OText s1, OText s2 =>
      let l1 := LText <$> splitlines s1 [] in
      let? header := py_index l1 0 in Ret (l1, LText <$> splitlines s2 [])
  | _, _ => Raise AttributeError
  end.

(** What differs, by sets of lines *)
Definition compare (l1 l2 : list line) : entry :=
  let output_set1 : gset line := list_to_set l1 in
  let output_set2 : gset line := list_to_set l2 in
  let intersect := output_set1 ∩ output_set2 in
  Differs (filter (fun x => x ∈ output_set1 ∖ intersect) l1) (filter (fun x => x ∈ output_set2 ∖ intersect) l2).

Definition diff_plugin (plugin_name : string) (output1 : vout) (output2 : option vout) : entry :=
  match output2 with
  | None => ErrorText ("Error: Dirty memory image did not have analysis for plugin " +:+ plugin_name)
  | Some output2 =>
      if truthy output1 && truthy output2 then
        if bool_decide (output1 = output2) then Same else
        match lines_of output1 output2 with
        | Ret (l1, l2) => compare l1 l2
        | Raise _ => ErrorText "Error processing output for this plugin on one or both memory images."
        end
      else ErrorText "Error running this plugin on one or both memory images."
  end.

(** [diff_volatility_output]: the loop over the plugins of the first output *)
Definition diff_volatility_output (output_dict1 output_dict2 : gmap string vout) : gmap string entry :=
  map_imap (fun plugin_name output1 => Some (diff_plugin plugin_name output1 (output_dict2 !! plugin_name))) output_dict1.

Definition PLUGINS_TO_USE : list string :=
  ["modscan"; "psscan"; "envars"; "ssdt"; "netscan"; "ldrmodules"; "driverirp"; "psxview"].

Section analysis.
(** [vol_wrapper.execute_plugin] for an image *)
Context (execute_plugin : bytes -> string -> res vout).

(** A plugin that raises is left out of the result. *)
Fixpoint run_plugins (url : bytes) (plugins : list string) (ret : gmap string vout) : gmap string vout :=
  match plugins with
  | [] => ret
  | plugin_name :: plugins =>
      run_plugins url plugins (match execute_plugin url plugin_name with Ret output => <[plugin_name := output]> ret | Raise _ => ret end)
  end.
Definition analyze_sample (url : bytes) : gmap string vout := run_plugins url PLUGINS_TO_USE ∅.

(** [MemoryAnalysis.run]: each image is analyzed by a process of its own. *)
Definition run (clean_url dirty_url : bytes) : gmap string entry :=
  diff_volatility_output (analyze_sample (lit "file://" ++ clean_url)) (analyze_sample (lit "file://" ++ dirty_url)).
End analysis.

(** * Comparison *)

(** The lines of [l] that [other] does not have, in their order and with repetitions *)
Definition only_in (l other : list line) : list line := filter (fun x => x ∉ other) l.

Lemma filter_ext_in {A} (P Q : A -> Prop) `{!forall x, Decision (P x)} `{!forall x, Decision (Q x)} (l : list A) :
  Forall (fun x => P x <-> Q x) l -> filter P l = filter Q l.
Proof.
  induction 1 as [|x l Hx _ IH]; [done|]. rewrite !filter_cons, IH. destruct (decide (P x)), (decide (Q x)); naive_solver.
Qed.
Lemma compare_only l1 l2 : compare l1 l2 = Differs (only_in l1 l2) (only_in l2 l1).
Proof.
  assert (forall l k : list line, filter (fun x => x ∈ (list_to_set l : gset line) ∖ (list_to_set l ∩ list_to_set k)) l = only_in l k) as Hf.
  { intros l k. unfold only_in. apply filter_ext_in, Forall_forall. intros x Hx.
    rewrite elem_of_difference, elem_of_intersection, !elem_of_list_to_set. naive_solver. }
  unfold compare. f_equal; [apply Hf|]. rewrite (intersection_comm_L _ (list_to_set l2)). apply Hf.
Qed.

Lemma run_plugins_lookup ex url plugins : NoDup plugins -> forall ret name,
  run_plugins ex url plugins ret !! name =
  if decide (name ∈ plugins) then match ex url name with Ret o => Some o | Raise _ => ret !! name end else ret !! name.
Proof.
  induction 1 as [|p plugins Hp _ IH]; intros ret name; cbn [run_plugins]; [by rewrite decide_False by apply not_elem_of_nil|].
  rewrite IH. destruct (decide (name = p)) as [->|Hne].
  - rewrite decide_False, decide_True by (done || set_solver). destruct (ex url p); [by rewrite lookup_insert_eq|done].
  - assert (name ∈ p :: plugins <-> name ∈ plugins) as Hin by set_solver.
    destruct (decide (name ∈ plugins)), (decide (name ∈ p :: plugins)); try tauto; destruct (ex url p); by rewrite ?lookup_insert_ne.
Qed.
Lemma plugins_nodup : NoDup PLUGINS_TO_USE.
Proof. by apply (bool_decide_unpack _); vm_compute. Qed.

(** The result for a plugin, from what it gives for the two images *)
Lemma run_lookup ex clean dirty name : name ∈ PLUGINS_TO_USE ->
  run ex clean dirty !! name =
  match ex (lit "file://" ++ clean) name with
  | Ret o1 => Some (diff_plugin name o1 (match ex (lit "file://" ++ dirty) name with Ret o2 => Some o2 | Raise _ => None end))
  | Raise _ => None
  end.
Proof.
  intros Hn. unfold run, diff_volatility_output, analyze_sample. rewrite map_lookup_imap, !run_plugins_lookup by apply plugins_nodup.
  rewrite !decide_True by done. rewrite !lookup_empty.
  destruct (ex (lit "file://" ++ clean) name), (ex (lit "file://" ++ dirty) name); done.
Qed.

(** [C28] The differential analysis: for every plugin that gives lines for both images, what is
    reported as removed and as added is exactly the lines of the one output that the other one
    does not have, in their order, and equal outputs are reported as equal. *)
Theorem memory_diff ex clean dirty name o1 o2 l1 l2 : name ∈ PLUGINS_TO_USE ->
  ex (lit "file://" ++ clean) name = Ret o1 -> ex (lit "file://" ++ dirty) name = Ret o2 ->
  truthy o1 = true -> truthy o2 = true -> lines_of o1 o2 = Ret (l1, l2) ->
  run ex clean dirty !! name = Some (if bool_decide (o1 = o2) then Same else
    Differs (filter (fun x => x ∉ l2) l1) (filter (fun x => x ∉ l1) l2)).
Proof.
  intros Hn H1 H2 T1 T2 Hl. rewrite run_lookup, H1, H2 by done. f_equal. unfold diff_plugin. rewrite T1, T2. cbn [andb].
  case_bool_decide; [done|]. rewrite Hl. apply compare_only.
Qed.

(** A plugin that ran in one process and a second image in the other *)
Definition demo_plugin (url : bytes) (name : string) : res vout :=
  if bool_decide (name = "psscan") then
    Ret (ODict None (Some ([LRow [lit "System"; lit "4"]] ++ if bool_decide (url = lit "file:///d") then [LRow [lit "evil"; lit "9"]] else [])) ∅)
  else Raise ValueError.
Lemma memory_diff_witness :
  run demo_plugin (lit "/c") (lit "/d") !! "psscan" = Some (Differs [] [LRow [lit "evil"; lit "9"]]).
Proof.
  apply (memory_diff demo_plugin (lit "/c") (lit "/d") "psscan" (ODict None (Some [LRow [lit "System"; lit "4"]]) ∅)
    (ODict None (Some [LRow [lit "System"; lit "4"]; LRow [lit "evil"; lit "9"]]) ∅)
    [LRow [lit "System"; lit "4"]] [LRow [lit "System"; lit "4"]; LRow [lit "evil"; lit "9"]]); try reflexivity.
  right. left.
Defined.

(** ** Losses *)

(** A plugin that fails on the clean image is not reported, whatever it finds in the dirty one. *)
Theorem clean_failure_hides ex clean dirty name e : name ∈ PLUGINS_TO_USE -> ex (lit "file://" ++ clean) name = Raise e ->
  run ex clean dirty !! name = None.
Proof. intros Hn He. by rewrite run_lookup, He. Qed.
(** Lines that change places or are repeated do not show. *)
Theorem order_hidden ex clean dirty name s1 s2 : name ∈ PLUGINS_TO_USE ->
  ex (lit "file://" ++ clean) name = Ret (OText s1) -> ex (lit "file://" ++ dirty) name = Ret (OText s2) ->
  s1 <> [] -> s2 <> [] -> s1 <> s2 -> splitlines s1 [] <> [] -> (forall x, x ∈ splitlines s1 [] <-> x ∈ splitlines s2 []) ->
  run ex clean dirty !! name = Some (Differs [] []).
Proof.
  intros Hn H1 H2 N1 N2 Hne Hsp Hx. rewrite run_lookup, H1, H2 by done. f_equal. unfold diff_plugin.
  assert (truthy (OText s1) && truthy (OText s2) = true) as -> by (by destruct s1, s2).
  rewrite bool_decide_eq_false_2 by congruence. cbn [lines_of]. destruct (splitlines s1 []) as [|h t] eqn:E; [done|]. rewrite <- E in *.
  assert (py_index (LText <$> splitlines s1 []) 0 = Ret (LText h)) as -> by (by rewrite E).
  cbn [res_bind]. rewrite compare_only. unfold only_in.
  assert (forall l k : list bytes, (forall x, x ∈ l -> x ∈ k) -> filter (fun x => x ∉ LText <$> k) (LText <$> l) = []) as Hnil.
  { intros l k Hlk. rewrite (filter_ext_in _ (fun _ => False)); [by induction (LText <$> l)|]. apply Forall_forall.
    intros x (y & -> & Hy)%list_elem_of_fmap. split; [|done]. intros Hno. apply Hno, list_elem_of_fmap. eauto. }
  f_equal; apply Hnil; intros x; apply Hx.
Qed.

(** * Keys of dictionaries *)

Section keys.
Context {K V : Type} `{Countable K} `{EqDecision V}.
(** Every key of either dictionary is in exactly one of the four sets. *)
Theorem keys_partition (d : DictDiff K V) :
  set1 d ∪ set2 d = added d ∪ removed d ∪ changed_keys d ∪ unchanged_keys d /\
  added d ## set1 d /\ removed d ## set2 d /\ changed_keys d ## unchanged_keys d /\
  (forall k, k ∈ unchanged_keys d <-> is_Some (dict1 d !! k) /\ dict2 d !! k = dict1 d !! k).
Proof.
  unfold added, removed, changed_keys, unchanged_keys, intersection_. split_and!.
  - apply set_eq. intros k. rewrite !elem_of_union, !elem_of_difference, !elem_of_filter, !elem_of_intersection.
    destruct (decide (k ∈ set1 d)), (decide (k ∈ set2 d)), (decide (dict2 d !! k = dict1 d !! k)); tauto.
  - set_solver.
  - set_solver.
  - set_solver.
  - intros k. rewrite elem_of_filter, elem_of_intersection. unfold set1, set2. rewrite !elem_of_dom. split; [tauto|].
    intros [Hs He]. rewrite He. done.
Qed.
End keys.
