(* ===== verification/Replay.v ===== *)
(** Offline analysis of disk captures ([lophi-analysis/analysis/disk/disk_analysis.py]): a capture
    file is replayed through the decoder and the reconstructor, or packet by packet, into the
    engine of the disk, and the file operations are counted; and the same from and to the database.

    Every part is the model of its own file: [Capture], [Sata], [SataReconstructor],
    [ShadowDisk], [Database].  The image of the disk, opened by the Sleuth Kit, is a parameter. *)
From S2P Require Import Prelude Struct PyString DataStruct Sata SataReconstructor Filesystem ShadowImage BlockVolume ShadowNtfs ShadowDisk Capture DiskVirtual DiskEngine Database.

(** * Replay *)

(** What the loop over the results of the engine appends to the log: operations, or the keys of a
    dictionary, which are names of files. *)
Record logop := LogOp { l_type : string; l_filename : string; l_inode : inode_ref }.
Inductive logged := LOp (o : logop) | LName (s : string).
Definition log_of (a : saccess) : option (list logged) :=
  match a with
  | FilesTouched files => (fun m => LName <$> (map_to_list m).*1) <$> files
  | FileOps ops => Some ((fun o => LOp (LogOp (so_type o) (so_filename o) (so_inode o))) <$> ops)
  | NonFilesystem _ _ _ =>
      Some [LOp (LogOp "[NON FILESYSTEM]" "[n/a non filesystem]" (NoInode "[n/a non filesystem]"))]
  end.

Record rstate := RState { r_recon : recon; r_disk : sdisk; output_log : list logged }.
Abbreviation key := (string * string * inode_ref)%type.
#[global] Instance inode_ref_countable : Countable inode_ref :=
  inj_countable' (fun i => match i with Inode n => inl n | NoInode s => inr s end)
                 (fun x => match x with inl n => Inode n | inr s => NoInode s end)
                 ltac:(by intros []).

Section replay.
Context (fs_open : string -> res unit) (fs_info : gmap Z bytes -> res tsk_fs) (parse_record : bytes -> res mft_record)
        (set_order : gset Z -> list Z).
Abbreviation disk_get_access := (sdisk_access fs_open fs_info parse_record set_order).
Abbreviation M := (PM rstate).

(** One packet: an access outside of the disk is logged and skipped. *)
Definition access_one (d : dstruct) : M unit :=
  let! sector := pm_lift (get_int d "sector") in
  let! num_sectors := pm_lift (get_int d "num_sectors") in
  let! disk_operation := pm_lift (get_int d "disk_operation") in
  let! data := pm_lift (data_str d) in
  fun s => let '(r, disk) := disk_get_access sector num_sectors disk_operation data (r_disk s) in
           let log l := RState (r_recon s) disk (output_log s ++ l) in
           match r with
           | Raise e => (Raise e, log [])
           | Ret a => (Ret tt, log (default [] (a ≫= log_of)))
           end.
Fixpoint access_all (ds : list dstruct) : M unit :=
  match ds with
  | [] => pm_ret tt
  | d :: ds => (if (__len__ d =? 0)%nat then pm_ret tt else pm_catch (access_one d) (fun _ => pm_ret tt)) ;! access_all ds
  end.

(** The packets of a record of the capture *)
Definition packets_of (physical : bool) (data : bytes) : M (list dstruct) :=
  if physical then
    let! hd := pm_lift (extract_sata_data module_globals data) in
    let! hd := pm_lift (of_option TypeError hd) in
    if bool_decide (hd.2 = None) then pm_ret [] else
    fun s => let (r, recon') := process_packet (PhysicalPacket hd.1 hd.2) (r_recon s) in
             (match r with Ret pkts => Ret (default [] pkts) | Raise e => Raise e end, RState recon' (r_disk s) (output_log s))
  else let! d := pm_lift (init_struct DiskSensorPacket data) in pm_ret [d].
Definition handle (physical : bool) (data : bytes) : M unit :=
  let! ds := packets_of physical data in access_all ds.

Fixpoint replay_loop (fuel : nat) (physical : bool) (r : reader) : M unit :=
  match fuel with
  | O => pm_raise Diverges
  | S fuel =>
      match next r with
      | (Ret x, r) => handle physical x.2 ;! replay_loop fuel physical r
      | (Raise StopIteration, _) => pm_ret tt
      | (Raise e, _) => pm_raise e
      end
  end.

(** The activity as a dictionary of counters; a name of a file has no fields. *)
Fixpoint consolidate (log : list logged) (fs_dict : gmap key Z) : res (gmap key Z) :=
  match log with
  | [] => Ret fs_dict
  | LName _ :: _ => Raise TypeError
  | LOp o :: log =>
      let k := (l_type o, l_filename o, l_inode o) in
      consolidate log (match fs_dict !! k with Some n => <[k := n + 1]> fs_dict | None => <[k := 1]> fs_dict end)
  end.

(** [replay] of a capture, given the disk of the image and the size of a sector *)
Definition replay (physical : bool) (capture : bytes) (disk : sdisk) (sector_size : Z) : res (gmap key Z) :=
  match replay_loop (S (length capture)) physical (Reader capture 0) (RState (new_recon sector_size) disk []) with
  | (Ret _, s) => consolidate (output_log s) ∅
  | (Raise e, _) => Raise e
  end.
End replay.

(** [fs_activity_diff] *)
Definition fs_activity_diff (d1 d2 : gmap key Z) : gmap key Z * gmap key Z :=
  (filter (fun x => d2 !! x.1 = None) d1, filter (fun x => d1 !! x.1 = None) d2).

(** * What is counted *)

Definition acc : Type := Z * Z * Z * bytes.
Definition carries (a : acc) (d : dstruct) : Prop := let '(sector, n, op, data) := a in
  get_int d "sector" = Ret sector /\ get_int d "num_sectors" = Ret n /\ get_int d "disk_operation" = Ret op /\ data_str d = Ret data /\
  (0 < __len__ d)%nat.

Section counting.
Context (fs_open : string -> res unit) (fs_info : gmap Z bytes -> res tsk_fs) (parse_record : bytes -> res mft_record)
        (set_order : gset Z -> list Z).

(** What the engine adds for an access; one that fails adds nothing. *)
Definition touch (v : list logged * sdisk) (a : acc) : list logged * sdisk :=
  let '(sector, n, op, data) := a in
  let '(r, d) := sdisk_access fs_open fs_info parse_record set_order sector n op data v.2 in
  (v.1 ++ match r with Ret x => default [] (x ≫= log_of) | Raise _ => [] end, d).
Definition view (s : rstate) : list logged * sdisk := (output_log s, r_disk s).

Lemma rview_pair r v : view (RState r v.2 v.1) = v.
Proof. by destruct v. Qed.
Lemma access_one_touch a d s : carries a d ->
  pm_catch (access_one fs_open fs_info parse_record set_order d) (fun _ => pm_ret tt) s =
  (Ret tt, RState (r_recon s) (touch (view s) a).2 (touch (view s) a).1).
Proof.
  destruct a as [[[sector n] op] data]. intros (H1 & H2 & H3 & H4 & _). unfold pm_catch, access_one, pm_bind, pm_lift.
  rewrite H1, H2, H3, H4. unfold touch, view. cbn [fst snd]. by destruct (sdisk_access _ _ _ _ _ _ _ _ _) as [[x|e] d'].
Qed.
Lemma access_all_touch accs ds : Forall2 carries accs ds -> forall s,
  access_all fs_open fs_info parse_record set_order ds s =
  (Ret tt, RState (r_recon s) (foldl touch (view s) accs).2 (foldl touch (view s) accs).1).
Proof.
  induction 1 as [|a d accs ds Ha _ IH]; intros s; [by destruct s|]. cbn [access_all foldl].
  assert ((__len__ d =? 0)%nat = false) as ->.
  { destruct a as [[[]]]. destruct Ha as (_ & _ & _ & _ & Hl). apply Nat.eqb_neq. lia. }
  unfold pm_bind. rewrite (access_one_touch a) by done. rewrite IH. by rewrite rview_pair.
Qed.

(** The loop over a capture file is the loop over its records. *)
Fixpoint handle_all (physical : bool) (l : list bytes) : PM rstate unit :=
  match l with
  | [] => pm_ret tt
  | x :: l => handle fs_open fs_info parse_record set_order physical x ;! handle_all physical l
  end.
Lemma replay_file physical rs : forall fuel pre s, Forall record_ok rs -> (length rs < fuel)%nat ->
  replay_loop fs_open fs_info parse_record set_order fuel physical (Reader (pre ++ file_bytes rs) (length pre)) s =
  handle_all physical rs.*2 s.
Proof.
  induction rs as [|r rs IH]; intros fuel pre s Hok Hf; (destruct fuel as [|fuel]; [cbn in Hf; lia|]); cbn [replay_loop].
  - unfold file_bytes. cbn [fmap list_fmap concat]. by rewrite app_nil_r, next_end.
  - apply Forall_cons in Hok as [Hr Hok]. unfold file_bytes. cbn [fmap list_fmap concat]. rewrite next_record by done.
    cbn [handle_all]. unfold pm_bind. destruct (handle _ _ _ _ _ _ _) as [[u|e] s']; [|done].
    rewrite app_assoc, <- length_app. apply IH; [done|cbn in Hf; lia].
Qed.
Lemma length_file_bytes rs : (length rs <= length (file_bytes rs))%nat.
Proof.
  induction rs as [|r rs IH]; [done|]. unfold file_bytes in *. cbn [fmap list_fmap concat length].
  rewrite length_app, length_record. lia.
Qed.


(** ** Accesses of a machine as records of a capture *)

Lemma handle_all_step physical x l accs ds r s : packets_of physical x s = (Ret ds, RState r (r_disk s) (output_log s)) ->
  Forall2 carries accs ds -> handle_all physical (x :: l) s =
    handle_all physical l (RState r (foldl touch (view s) accs).2 (foldl touch (view s) accs).1).
Proof. intros Hp Ha. cbn [handle_all]. unfold pm_bind at 1, handle, pm_bind. by rewrite Hp, (access_all_touch accs). Qed.

(** A packet of a virtual machine *)
Definition packet_acc (p : dpkt) : acc := (p_sector p, p_num_sectors p, p_operation p, p_data p).
Lemma virtual_packet p : dpkt_ok p -> p_data p <> [] -> exists d, init_struct DiskSensorPacket (wire p) = Ret d /\ carries (packet_acc p) d.
Proof.
  intros Hp Hne. assert (length (wire p) = (20 + length (p_data p))%nat) as Hl by (unfold wire; by rewrite length_app, header_length).
  rewrite init_struct_decode by (rewrite Hl; change (layout_size DiskSensorPacket) with 20%nat; lia). eexists. split; [reflexivity|].
  change (layout_size DiskSensorPacket) with 20%nat.
  assert ((20 <? length (wire p))%nat = true) as -> by (apply Nat.ltb_lt; destruct (p_data p); cbn in *; [done|lia]).
  unfold wire. rewrite take_app_length', drop_app_length' by (by rewrite header_length).
  destruct (header_fields p (<["data" := FVal (SStr (p_data p))]> (blank_dict DiskSensorPacket)) Hp) as (E1 & E2 & E3 & E4 & E5).
  rewrite lookup_insert_eq in E5. unfold carries, packet_acc, get_int, data_str, getattr, __len__. cbn [dict].
  rewrite E1, E2, E3, E5. split_and!; try done. cbn. lia.
Qed.
Lemma virtual_touch ps : Forall (fun p => dpkt_ok p /\ p_data p <> []) ps -> forall s,
  exists r, handle_all false (wire <$> ps) s = (Ret tt, RState r (foldl touch (view s) (packet_acc <$> ps)).2 (foldl touch (view s) (packet_acc <$> ps)).1).
Proof.
  induction 1 as [|p ps [Hp Hne] _ IH]; intros s; [exists (r_recon s); by destruct s|].
  destruct (virtual_packet p Hp Hne) as (d & Hd & Hc). cbn [fmap list_fmap foldl].
  rewrite (handle_all_step false (wire p) (wire <$> ps) [packet_acc p] [d] (r_recon s) s).
  2: { unfold packets_of, pm_bind, pm_lift. rewrite Hd. by destruct s. }
  2: { by constructor. }
  cbn [foldl]. destruct (IH (RState (r_recon s) (touch (view s) (packet_acc p)).2 (touch (view s) (packet_acc p)).1)) as (r' & ->).
  exists r'. by rewrite !rview_pair.
Qed.

(** ** Counters *)

Definition key_of (x : logged) : option key := match x with LOp o => Some (l_type o, l_filename o, l_inode o) | LName _ => None end.
(** The number of operations with a key *)
Definition occurrences (k : key) (log : list logged) : Z := zlen (filter (fun x => key_of x = Some k) log).
Definition all_ops (log : list logged) : Prop := Forall (fun x => key_of x <> None) log.

Lemma consolidate_counts log : all_ops log -> forall d, exists d', consolidate log d = Ret d' /\
  forall k, d' !! k = if decide (occurrences k log = 0) then d !! k else Some (default 0 (d !! k) + occurrences k log).
Proof.
  induction 1 as [|x log Hx _ IH]; intros d; [by exists d|]. destruct x as [o|]; [|done]. cbn [consolidate].
  set (k0 := (l_type o, l_filename o, l_inode o)).
  assert (match d !! k0 with Some n => <[k0 := n + 1]> d | None => <[k0 := 1]> d end = <[k0 := default 0 (d !! k0) + 1]> d) as -> by (by destruct (d !! k0)).
  destruct (IH (<[k0 := default 0 (d !! k0) + 1]> d)) as (d' & -> & Hd). exists d'. split; [done|]. intros k. rewrite Hd.
  unfold occurrences. rewrite filter_cons. cbn [key_of]. fold k0. pose proof (zlen_nonneg (filter (fun x => key_of x = Some k) log)).
  destruct (decide (Some k0 = Some k)) as [[= ->]|Hne].
  - rewrite lookup_insert_eq, zlen_cons. cbn [default]. destruct (decide _), (decide _); try lia; f_equal; cbn; lia.
  - rewrite lookup_insert_ne by congruence. done.
Qed.

(** A capture of a virtual machine holds the packets of its accesses, each with data. *)
Definition captured (datas : list bytes) (accs : list acc) : Prop :=
  exists ps, Forall (fun p => dpkt_ok p /\ p_data p <> []) ps /\ datas = wire <$> ps /\ accs = packet_acc <$> ps.

Lemma replay_log ss rs accs disk : Forall record_ok rs -> captured rs.*2 accs ->
  replay fs_open fs_info parse_record set_order false (file_bytes rs) disk ss = consolidate (foldl touch ([], disk) accs).1 ∅.
Proof.
  intros Hok (ps & Hps & Hrs & ->). unfold replay. pose proof (length_file_bytes rs).
  rewrite (replay_file false rs (S (length (file_bytes rs))) []) by (done || lia).
  rewrite Hrs. by destruct (virtual_touch ps Hps (RState (new_recon ss) disk [])) as [r ->].
Qed.

(** An access to a volume that is not NTFS puts names of files into the log, and the analysis fails. *)
Lemma consolidate_names log : ~ all_ops log -> forall d, consolidate log d = Raise TypeError.
Proof.
  induction log as [|x log IH]; intros Hn d; [destruct Hn; constructor|]. destruct x as [o|]; [|done]. cbn [consolidate].
  apply IH. intros Ha. apply Hn. by constructor.
Qed.

(** [C27] The analysis of the disk capture of a virtual machine counts what happened: when every access goes to an
    NTFS volume or to no file system, the dictionary has, for each operation, file and inode,
    exactly the number of times the engine of the disk reports them for the accesses in their
    order; when one touches files of another file system, the analysis raises [TypeError]. *)
Theorem replay_counts ss rs accs disk : Forall record_ok rs -> captured rs.*2 accs ->
  let log := (foldl touch ([], disk) accs).1 in
  match replay fs_open fs_info parse_record set_order false (file_bytes rs) disk ss with
  | Ret d => all_ops log /\ forall k, d !! k = if decide (occurrences k log = 0) then None else Some (occurrences k log)
  | Raise e => e = TypeError /\ ~ all_ops log
  end.
Proof.
  intros Hok Hc log. rewrite (replay_log ss rs accs) by done. fold log. destruct (decide (all_ops log)) as [Ha|Ha].
  - destruct (consolidate_counts log Ha ∅) as (d & -> & Hd). split; [done|]. intros k. by rewrite Hd, lookup_empty.
  - by rewrite consolidate_names.
Qed.

(** The capture of a physical machine is not analyzed: the decoder raises at its first record, or
    gives nothing to unpack. *)
Theorem physical_replay_raises ss r rs disk : Forall record_ok (r :: rs) ->
  exists e, replay fs_open fs_info parse_record set_order true (file_bytes (r :: rs)) disk ss = Raise e.
Proof.
  intros Hok. unfold replay. pose proof (length_file_bytes (r :: rs)).
  rewrite (replay_file true (r :: rs) (S (length (file_bytes (r :: rs)))) []) by (done || lia).
  cbn [fmap list_fmap handle_all]. unfold pm_bind at 1, handle, pm_bind at 1, packets_of, pm_bind at 1, pm_lift.
  pose proof (extract_never_decodes r.2) as Hx. destruct (zlen r.2 <? 4).
  - rewrite Hx. unfold pm_bind. cbn. eauto.
  - destruct Hx as [e ->]. cbn. eauto.
Qed.
End counting.

(** The difference of two activities: what one has and the other has not, with its counters *)
Theorem fs_activity_diff_spec d1 d2 k n : (fs_activity_diff d1 d2).1 !! k = Some n <-> d1 !! k = Some n /\ d2 !! k = None.
Proof. unfold fs_activity_diff. cbn [fst]. rewrite map_lookup_filter_Some. done. Qed.

(** * From and to the database *)

Section database.
Context (replay_of : bool -> bytes -> res (gmap key Z)).
Abbreviation DB := (PM world).

Definition exists_path (path : bytes) (w : world) : bool := bool_decide (path ∈ dirs w) || bool_decide (is_Some (files w !! path)).
Definition mkdir (path : bytes) : DB unit := fun w =>
  if exists_path path w then (Raise IOError, w) else (Ret tt, set_files (files w) ({[ path ]} ∪ dirs w) w).
Definition completed (id : bytes) (w : world) : option doc :=
  d ← coll w !! id; if bool_decide (d !! "status" = Some (VStr (lit "COMPLETED"))) then Some d else None.
Definition output_file (d : doc) (name : string) : res bytes :=
  match d !! "output_files" with Some (VMap m) => of_option KeyError (m !! name) | Some _ => Raise TypeError | None => Raise KeyError end.
Definition cell_of (i : inode_ref) : cell := match i with Inode n => CNum n | NoInode s => CText s end.
Definition rows (d : gmap key Z) : list (list cell * Z) := (fun '(t, f, i, n) => ([CText t; CText f; cell_of i], n)) <$> map_to_list d.
Definition working_path : bytes := lit "/tmp/lophi-tmp-disk".
Definition outdir_path (id : bytes) : bytes := os_path_join working_path id.

(** [DiskAnalysis.run]: the directory is removed after the replay. *)
Definition analysis_run (machine_type : Z) (dcap_url output_dir : bytes) : DB (gmap key Z) :=
  let! capture := read_file dcap_url in
  let! d := pm_lift (replay_of (machine_type =? 0) capture) in
  rmtree output_dir ;! pm_ret d.

Definition analyze_body (id : bytes) : DB unit :=
  let! d := pm_get (completed id) in
  match d with
  | None => pm_ret tt
  | Some d =>
      let! there := pm_get (exists_path working_path) in
      (if there then pm_ret tt else mkdir working_path) ;!
      let outdir := outdir_path id in
      mkdir outdir ;!
      let! disk_cap_id := pm_lift (output_file d "disk_capture") in
      let disk_cap_url := os_path_join outdir (lit "dcap") in
      db_download_file disk_cap_id disk_cap_url ;!
      let! machine_type := pm_lift (match d !! "machine_type" with Some (VNum t) => Ret t | Some _ => Raise TypeError | None => Raise KeyError end) in
      let! result_dict := analysis_run machine_type disk_cap_url outdir in
      pm_modify (fun w => set_coll (alter (fun d => <["disk_analysis" := VTable (rows result_dict)]> d) id (coll w)) w) ;!
      rmtree outdir
  end.
(** [true] when an error is logged; no exception leaves the function. *)
Definition disk_analyze_from_db (id : bytes) : DB bool :=
  pm_catch (analyze_body id ;! pm_ret false) (fun _ => pm_ret true).

(** [disk_analyze_all], for the documents that are found *)
Fixpoint disk_analyze_all (ids : list bytes) : DB unit :=
  match ids with [] => pm_ret tt | id :: ids => disk_analyze_from_db id ;! disk_analyze_all ids end.
End database.

Section stored.
Context (replay_of : bool -> bytes -> res (gmap key Z)).

(** A completed analysis whose capture is in the store, before it is analyzed *)
Record ready (id : bytes) (d : doc) (t : Z) (capture : bytes) (w : world) : Prop := {
  ready_doc : completed id w = Some d;
  ready_type : d !! "machine_type" = Some (VNum t);
  ready_file : exists fid nm, output_file d "disk_capture" = Ret fid /\ fs w !! fid = Some (nm, capture);
  ready_dir : exists_path (outdir_path id) w = false;
  ready_id : outdir_path id <> working_path
}.

(** The state in which the capture is replayed *)
Lemma analyze_prefix id d t capture w : ready id d t capture w -> exists w1,
  dirs w1 = {[ outdir_path id ]} ∪ (if exists_path working_path w then dirs w else {[ working_path ]} ∪ dirs w) /\ coll w1 = coll w /\
  analyze_body replay_of id w =
  (let! r := analysis_run replay_of t (os_path_join (outdir_path id) (lit "dcap")) (outdir_path id) in
   pm_modify (fun w => set_coll (alter (fun d => <["disk_analysis" := VTable (rows r)]> d) id (coll w)) w) ;! rmtree (outdir_path id)) w1 /\
  files w1 !! os_path_join (outdir_path id) (lit "dcap") = Some capture /\ exists_path working_path w1 = true.
Proof.
  intros [Hd Ht (fid & nm & Hfid & Hst) Hdir Hne]. unfold analyze_body. unfold pm_bind at 1, pm_get. rewrite Hd. unfold pm_bind at 1, pm_get.
  set (w0 := if exists_path working_path w then w else set_files (files w) ({[ working_path ]} ∪ dirs w) w).
  assert ((if exists_path working_path w then pm_ret tt else mkdir working_path) w = (Ret tt, w0)) as E0.
  { unfold w0, mkdir. by destruct (exists_path working_path w) eqn:E; [|rewrite E]. }
  assert (exists_path (outdir_path id) w0 = false) as Hdir0.
  { unfold w0. destruct (exists_path working_path w); [done|]. unfold exists_path in *. cbn [dirs files set_files] in *.
    apply orb_false_iff in Hdir as [Hd1 Hd2]. apply orb_false_iff. split; [|done]. apply bool_decide_eq_false in Hd1. apply bool_decide_eq_false. set_solver. }
  unfold pm_bind at 1. rewrite E0. unfold pm_bind at 1, mkdir. rewrite Hdir0. unfold pm_bind at 1, pm_lift. rewrite Hfid.
  unfold pm_bind at 1, db_download_file, pm_bind at 1.
  assert (fs w0 = fs w) as Hfs by (unfold w0; by destruct (exists_path working_path w)). cbn [fs set_files]. rewrite Hfs, Hst. cbn [of_option]. unfold write_file, pm_modify at 1. unfold pm_bind at 1, pm_lift. rewrite Ht.
  eexists. split; [|split; [|split; [reflexivity|split]]].
  - unfold w0. by destruct (exists_path working_path w).
  - unfold w0. by destruct (exists_path working_path w).
  - cbn [files set_files snd]. apply lookup_insert_eq.
  - unfold w0. destruct (exists_path working_path w) eqn:E; unfold exists_path in *; cbn [dirs files set_files snd].
    + apply orb_true_iff in E as [E|E]; apply bool_decide_eq_true in E; apply orb_true_iff; [left|right]; apply bool_decide_eq_true; [set_solver|].
      destruct (decide (os_path_join (outdir_path id) (lit "dcap") = working_path)) as [->|Hn]; [rewrite lookup_insert_eq|rewrite lookup_insert_ne by done]; done.
    + apply orb_true_iff. left. apply bool_decide_eq_true. set_solver.
Qed.

(** The result of a completed analysis is stored with its document and the directory is gone; as it
    is removed twice, an error is logged all the same. *)
Theorem analysis_stored id d t capture r w : ready id d t capture w -> replay_of (t =? 0) capture = Ret r ->
  exists w', disk_analyze_from_db replay_of id w = (Ret true, w') /\
    coll w' !! id = Some (<["disk_analysis" := VTable (rows r)]> d) /\ delete id (coll w') = delete id (coll w) /\
    outdir_path id ∉ dirs w'.
Proof.
  intros Hr Hrep. destruct (analyze_prefix id d t capture w Hr) as (w1 & Hdirs & Hcoll & Hrun & Hcap & _).
  assert (coll w !! id = Some d) as Hcd.
  { pose proof (ready_doc _ _ _ _ _ Hr) as H. unfold completed in H. destruct (coll w !! id) as [d'|]; [|done]. cbn in H. case_bool_decide; [|done]. by injection H as ->. }
  eexists. split.
  { unfold disk_analyze_from_db, pm_catch, pm_bind at 1. rewrite Hrun. unfold analysis_run, pm_bind, read_file. rewrite Hcap. cbn [of_option]. unfold pm_lift. rewrite Hrep.
    unfold rmtree at 1. rewrite bool_decide_eq_true_2 by (rewrite Hdirs; set_solver). unfold pm_ret, pm_modify, rmtree. cbn [dirs set_coll set_files coll].
    rewrite bool_decide_eq_false_2 by set_solver. reflexivity. }
  cbn [coll dirs set_coll set_files]. rewrite Hcoll. split_and!.
  - by rewrite lookup_alter_eq, Hcd.
  - apply map_eq. intros j. destruct (decide (j = id)) as [->|Hne]; [by rewrite !lookup_delete_eq|]. by rewrite !lookup_delete_ne, lookup_alter_ne by done.
  - set_solver.
Qed.

(** One that fails leaves its directory behind, and every later attempt fails for it. *)
Theorem failure_is_final id d t capture e w : ready id d t capture w -> replay_of (t =? 0) capture = Raise e ->
  exists w', disk_analyze_from_db replay_of id w = (Ret true, w') /\ coll w' = coll w /\
    disk_analyze_from_db replay_of id w' = (Ret true, w').
Proof.
  intros Hr Hrep. destruct (analyze_prefix id d t capture w Hr) as (w1 & Hdirs & Hcoll & Hrun & Hcap & Hew). exists w1.
  assert (exists_path (outdir_path id) w1 = true) as Hex by (unfold exists_path; rewrite bool_decide_eq_true_2 by (rewrite Hdirs; set_solver); done).
  split; [|split; [done|]].
  - unfold disk_analyze_from_db, pm_catch, pm_bind at 1. rewrite Hrun. unfold analysis_run, pm_bind, read_file. rewrite Hcap. cbn [of_option]. unfold pm_lift. by rewrite Hrep.
  - unfold disk_analyze_from_db, pm_catch, pm_bind at 1, analyze_body, pm_bind at 1, pm_get.
    assert (completed id w1 = Some d) as -> by (unfold completed; rewrite Hcoll; apply (ready_doc _ _ _ _ _ Hr)).
    unfold pm_bind at 1, pm_get. rewrite Hew. unfold pm_bind at 1, pm_ret at 1. unfold pm_bind at 1, mkdir. by rewrite Hex.
Qed.
End stored.

(** * Example: three accesses to a disk without a file system *)

Definition demo_disk : sdisk := [SVolume 63 "Unallocated" None].
Definition demo_packets : list dpkt := [DPkt 100 1 1 [7; 7]; DPkt 101 1 0 [8]; DPkt 200 1 1 [9]].
Definition demo_records : list (Z * bytes) := zip [10; 11; 12] (wire <$> demo_packets).
Definition demo_log : list logged :=
  (foldl (touch (fun _ => Ret tt) (fun _ => Raise IOError) (fun _ => Raise IOError) elements) ([], demo_disk) (packet_acc <$> demo_packets)).1.

Lemma replay_counts_witness :
  match replay (fun _ => Ret tt) (fun _ => Raise IOError) (fun _ => Raise IOError) elements false (file_bytes demo_records) demo_disk 512 with
  | Ret d => all_ops demo_log /\ forall k, d !! k = if decide (occurrences k demo_log = 0) then None else Some (occurrences k demo_log)
  | Raise e => e = TypeError /\ ~ all_ops demo_log
  end.
Proof.
  apply (replay_counts (fun _ => Ret tt) (fun _ => Raise IOError) (fun _ => Raise IOError) elements 512 demo_records (packet_acc <$> demo_packets) demo_disk).
  - repeat constructor; vm_compute; (discriminate || reflexivity).
  - exists demo_packets. split; [|by split]. repeat constructor; cbn; try lia; try discriminate; vm_compute; discriminate.
Defined.
Example demo_counts : occurrences ("[NON FILESYSTEM]", "[n/a non filesystem]", NoInode "[n/a non filesystem]") demo_log = 3.
Proof. vm_compute. reflexivity. Qed.
