(* ===== verification/Setup.v ===== *)
(** Configuration and start-up ([lophi_automation/configs], [LoPhiController.__init__] of
    [controller.py]): configuration files become sensors and machines, machines get their
    images and sensors ([Machine]) and are put into the queues of the schedulers.

    A file that [ConfigParser] has read is a list of sections with their options; an option
    that is missing raises [KeyError] here.  The import of a Python module is a parameter,
    and so are the sensors that a new virtual machine has ([MachineVirtual]). *)
From Stdlib Require Import Strings.Ascii.
From S2P Require Import Prelude PyString AddressSpace Machine.

(** * Options *)

Abbreviation cfg := (list (string * gmap string bytes)).
Definition section (c : cfg) (name : string) : option (gmap string bytes) := (list_to_map c : gmap string (gmap string bytes)) !! name.
Definition get_option (c : cfg) (name option : string) : res bytes := of_option KeyError (section c name ≫= (.!! option)).

(** The attributes of a configuration: [None] when the option is missing *)
Abbreviation attrs := (gmap string (option bytes)).
Definition _get_option (c : cfg) (name option : string) (a : attrs) : bool * attrs :=
  match get_option c name option with
  | Ret v => (true, <[option := Some v]> a)
  | Raise _ => (false, <[option := None]> a)
  end.

(** [MachineConfig]: the size of memory and the scan of the disk are only read with their sensors. *)
Definition MachineConfig (c : cfg) (name : string) : attrs :=
  let '(_, a) := _get_option c name "volatility_profile" ∅ in
  let '(memory, a) := _get_option c name "memory_sensor" a in
  let a := if memory then (_get_option c name "ram_size" a).2 else a in
  let '(disk, a) := _get_option c name "disk_sensor" a in
  let a := if disk then (_get_option c name "disk_scan" a).2 else a in
  foldl (fun a option => (_get_option c name option a).2) a
    ["control_sensor"; "cpu_sensor"; "network_sensor"; "mac_address"; "dhcp_server"; "mac_addr"].

(** [ControllerConfig]: [int(None)] is a [TypeError]. *)
Definition ControllerConfig (c : cfg) (name : string) : res (option bytes * Z) :=
  let '(_, a) := _get_option c name "host" ∅ in
  let '(_, a) := _get_option c name "port" a in
  match a !! "port" with
  | Some (Some port) => let? p := py_int port in Ret (mjoin (a !! "host"), p)
  | _ => Raise TypeError
  end.

(** * [import_from_config] *)

Inductive config_item :=
  | IMachine (a : attrs)
  | IController (host : option bytes) (port : Z)
  | ISensor (kind : skind) (address : bytes) (port : option Z).
Inductive imported := Items (m : gmap string config_item) | Images (m : gmap Z (gmap bytes bytes)).

Definition PHYSICAL : Z := 0.
Definition XEN : Z := 1.
Definition KVM : Z := 2.
Definition sensor_kind (t : Z) : option skind :=
  if t =? 2 then Some SControl else if t =? 1 then Some SDisk else if t =? 0 then Some SMemory
  else if t =? 3 then Some SCpu else if t =? 4 then Some SNetwork else None.

(** A sensor of an unknown type is only reported. *)
Definition import_sensor (c : cfg) (name : string) : res (option config_item) :=
  let? t := get_option c name "type" in
  let? sensor_type := py_int t in
  if sensor_type =? 4 then
    let? interface := get_option c name "interface" in Ret (Some (ISensor SNetwork interface None))
  else
    let? sensor_ip := get_option c name "ip" in
    let? p := get_option c name "port" in
    let? sensor_port := py_int p in
    Ret ((fun k => ISensor k sensor_ip (Some sensor_port)) <$> sensor_kind sensor_type).

(** The images of the sections [physical] and [virtual]; the names of profiles in lower case. *)
Definition lower_keys (m : gmap string bytes) : gmap bytes bytes := list_to_map (reverse ((fun x => (lower (lit x.1), x.2)) <$> map_to_list m)).
Definition import_images (c : cfg) : gmap Z (gmap bytes bytes) :=
  let table s := default ∅ (lower_keys <$> section c s) in
  {[ PHYSICAL := table "physical"; KVM := table "virtual"; XEN := table "virtual" ]}.

Fixpoint import_loop (c : cfg) (config_type : string) (sections : list string) (config_list : imported) : res (option imported) :=
  match sections with
  | [] => Ret (Some config_list)
  | name :: sections =>
      let put (i : config_item) := match config_list with Items m => Items (<[name := i]> m) | l => l end in
      if bool_decide (config_type = "machine") then
        import_loop c config_type sections (put (IMachine (MachineConfig c name)))
      else if bool_decide (config_type = "controller") then
        let? x := ControllerConfig c name in import_loop c config_type sections (put (IController x.1 x.2))
      else if bool_decide (config_type = "sensor") then
        let? s := import_sensor c name in
        import_loop c config_type sections (match s with Some i => put i | None => config_list end)
      else if bool_decide (config_type = "images") then
        import_loop c config_type sections (Images (import_images c))
      else Ret None
  end.
Definition import_from_config (c : cfg) (config_type : option string) : res (option imported) :=
  match config_type with None => Ret None | Some t => import_loop c t c.*1 (Items ∅) end.

(** * Analysis scripts *)

(** A class of a module: whether it is a strict subclass of [LophiAnalysis], and its own [NAME] *)
Record cls := Cls { cls_id : Z; is_analysis : bool; NAME : option bytes }.
#[global] Instance cls_eq_dec : EqDecision cls.
Proof. solve_decision. Defined.

(** [extract_analysis]: the one analysis among the values of a module *)
Definition analysis_modules (values : list cls) : list cls :=
  foldl (fun l v => if is_analysis v && negb (bool_decide (v ∈ l)) then l ++ [v] else l) [] values.
Definition extract_analysis (values : list cls) : option cls :=
  match analysis_modules values with [a] => Some a | _ => None end.

Section scripts.
Context (import_module : bytes -> res (list cls)).
(** The files of a directory tree, as [os.walk] gives them; a class without a name is put under that of its metaclass. *)
Fixpoint import_scripts (files : list (bytes * bytes)) (classes : gmap bytes (cls * bytes)) : gmap bytes (cls * bytes) :=
  match files with
  | [] => classes
  | (dirpath, filename) :: files =>
      if endswith (lit ".py") filename && negb (startswith (lit "_") filename) then
        match import_module (slice_to filename (-3)) with
        | Raise _ => import_scripts files classes
        | Ret values =>
            match extract_analysis values with
            | None => import_scripts files classes
            | Some a => import_scripts files (<[default (lit "type") (NAME a) := (a, os_path_join dirpath filename)]> classes)
            end
        end
      else import_scripts files classes
  end.
(** [None] when the path is no directory *)
Definition import_analysis_scripts (is_dir : bool) (files : list (bytes * bytes)) : option (gmap bytes (cls * bytes)) :=
  if is_dir then Some (import_scripts files ∅) else None.
End scripts.

(** * The controller *)

(** A machine of the controller, and the machines, sensor objects and queues while it starts *)
Record mdesc := MDesc { d_type : Z; d_attrs : attrs; d_images : gmap bytes bytes; d_slot : skind -> option Z; d_pxe : option bytes }.
Record setup := SetUp { machine_list : gmap string mdesc; sensor_objects : gmap Z sens; MACHINE_QUEUES : gmap Z (list string) }.

(** The sensors that were imported, by their names, and the objects themselves *)
Definition kind_of (i : config_item) : option skind := match i with ISensor k _ _ => Some k | _ => None end.
Definition sensor_list (m : gmap string config_item) : gmap string Z := list_to_map (imap (fun i x => (x.1, Z.of_nat i)) (map_to_list m)).
Definition sensor_store (m : gmap string config_item) : gmap Z sens :=
  list_to_map (imap (fun i x => (Z.of_nat i, Sens (kind_of x.2) true true false false)) (map_to_list m)).

(** [sensor_list.get(self.config.memory_sensor)] and so on *)
Definition named_sensor (sensors : gmap string Z) (a : attrs) (o : string) : option Z :=
  name ← mjoin (a !! o); sensors !! name_of name.

Section controller.
Context (sensors : gmap string Z) (images_map : gmap Z (gmap bytes bytes)) (pxe_server : bytes).

(** The images of a machine, and the sensors and the PXE server of a physical one *)
Definition configure (m : string) : PM setup unit := fun s =>
  match machine_list s !! m with
  | None => (Raise KeyError, s)
  | Some d =>
      match images_map !! d_type d with
      | None => (Raise KeyError, s)
      | Some images =>
          let put slot pxe objects := SetUp (<[m := MDesc (d_type d) (d_attrs d) images slot pxe]> (machine_list s)) objects (MACHINE_QUEUES s) in
          if d_type d =? PHYSICAL then
            let named option := named_sensor sensors (d_attrs d) option in
            let '(r, x) := add_sensors (named "memory_sensor") (named "cpu_sensor") (named "disk_sensor") (named "control_sensor") (named "network_sensor")
                             (Mach false (d_slot d) (sensor_objects s)) in
            match r with Ret _ => (Ret tt, put (slot x) (Some pxe_server) (objects x)) | Raise e => (Raise e, put (slot x) (d_pxe d) (objects x)) end
          else (Ret tt, put (d_slot d) (d_pxe d) (sensor_objects s))
      end
  end.
Fixpoint configure_all (l : list string) : PM setup unit :=
  match l with [] => pm_ret tt | m :: l => configure m ;! configure_all l end.

(** A machine goes to the queue of its type; a new queue comes with a scheduler. *)
Definition queue_machine (m : string) : PM setup unit := fun s =>
  match machine_list s !! m with
  | None => (Raise KeyError, s)
  | Some d => (Ret tt, SetUp (machine_list s) (sensor_objects s)
                 (<[d_type d := default [] (MACHINE_QUEUES s !! d_type d) ++ [m]]> (MACHINE_QUEUES s)))
  end.
Fixpoint queue_machines (l : list string) : PM setup unit :=
  match l with [] => pm_ret tt | m :: l => queue_machine m ;! queue_machines l end.
End controller.

(** The virtual machines that are provisioned, which may replace configured ones; [VirtualMachine] makes them of the type [KVM]. *)
Definition vm_name (x : Z) : string := name_of (lit "lophi-" ++ py_str x).
Definition new_vm (vm_slot : string -> skind -> option Z) (name : string) : mdesc := MDesc KVM ∅ ∅ (vm_slot name) None.
Definition provision (vm_slot : string -> skind -> option Z) (vm_count : Z) (m : gmap string mdesc) : gmap string mdesc :=
  foldl (fun m name => <[name := new_vm vm_slot name]> m) m (vm_name <$> seqZ 0 vm_count).
Definition machines_of (m : gmap string config_item) : gmap string mdesc :=
  omap (fun i => match i with IMachine a => Some (MDesc PHYSICAL a ∅ (fun _ => None) None) | _ => None end) m.

(** [LoPhiController.__init__] up to the queues; [order] is the order in which a dictionary is gone through. *)
Definition items (x : option imported) : gmap string config_item := match x with Some (Items m) => m | _ => ∅ end.
Definition image_maps (x : option imported) : gmap Z (gmap bytes bytes) := match x with Some (Images m) => m | _ => ∅ end.
Definition controller_init (order : gmap string mdesc -> list string) (vm_slot : string -> skind -> option Z) (vm_count : Z) (pxe_server : bytes)
    (sensor_file machine_file images_file : cfg) : res setup :=
  let? sensors := import_from_config sensor_file (Some "sensor") in
  let? machines := import_from_config machine_file (Some "machine") in
  let? images := import_from_config images_file (Some "images") in
  let ms := provision vm_slot vm_count (machines_of (items machines)) in
  match (configure_all (sensor_list (items sensors)) (image_maps images) pxe_server (order ms) ;! queue_machines (order ms))
          (SetUp ms (sensor_store (items sensors)) ∅) with
  | (Ret _, s) => Ret s
  | (Raise e, _) => Raise e
  end.

(** * What is imported *)

(** Importing machines gives each section its machine. *)
Lemma import_machines c l m : import_loop c "machine" l (Items m) =
  Ret (Some (Items (foldl (fun m name => <[name := IMachine (MachineConfig c name)]> m) m l))).
Proof. revert m. induction l as [|name l IH]; intros m; [done|]. cbn [import_loop foldl]. apply IH. Qed.
Lemma lookup_foldl_insert {A} (f : string -> A) l : forall (m : gmap string A) k,
  foldl (fun m name => <[name := f name]> m) m l !! k = if decide (k ∈ l) then Some (f k) else m !! k.
Proof.
  induction l as [|name l IH]; intros m k; cbn [foldl]; [by rewrite decide_False by apply not_elem_of_nil|]. rewrite IH.
  destruct (decide (k = name)) as [->|Hne].
  - rewrite (decide_True (P := name ∈ name :: l)) by (by left). rewrite lookup_insert_eq. by destruct (decide _).
  - rewrite lookup_insert_ne by done. assert (k ∈ name :: l <-> k ∈ l) as Hin by set_solver.
    destruct (decide (k ∈ l)), (decide (k ∈ name :: l)); tauto.
Qed.
Lemma import_images_loop c l x : import_loop c "images" l x = Ret (Some (if decide (l = []) then x else Images (import_images c))).
Proof. revert x. induction l as [|name l IH]; intros x; [done|]. cbn [import_loop]. change (bool_decide ("images" = "images")) with true.
  change (bool_decide ("images" = "machine")) with false. change (bool_decide ("images" = "controller")) with false. change (bool_decide ("images" = "sensor")) with false.
  cbn iota. rewrite IH. by destruct (decide (l = [])), (decide (name :: l = [])).
Qed.

(** * Sensors of a machine *)

Definition sensor_options : list (string * skind) :=
  [("memory_sensor", SMemory); ("cpu_sensor", SCpu); ("disk_sensor", SDisk); ("control_sensor", SControl); ("network_sensor", SNetwork)].
(** The objects of physical sensors *)
Definition phys_objs (o : gmap Z sens) : Prop := map_Forall (fun _ s => is_sensor s = true /\ names_virtual s = false) o.
Definition kinds (o : gmap Z sens) : gmap Z (option skind) := s_kind <$> o.

Lemma add_typed k id m : is_virtual m = false -> phys_objs (objects m) -> kinds (objects m) !! id = Some (Some k) ->
  exists m', add_sensor (Some id) m = (Ret true, m') /\ is_virtual m' = false /\ phys_objs (objects m') /\ kinds (objects m') = kinds (objects m) /\
    forall k', slot m' k' = if decide (k' = k) then Some id else slot m k'.
Proof.
  intros Hv Ho Hk. unfold kinds in Hk. rewrite lookup_fmap in Hk. apply fmap_Some in Hk as (s & Hs & Hk).
  destruct (Ho id s Hs) as [H1 H2]. unfold add_sensor. rewrite Hs, Hv, H1, H2, <- Hk. cbn [negb andb].
  eexists. split; [done|]. cbn [is_virtual put_slot set_objects objects slot]. split_and!; [done|..].
  - apply map_Forall_insert_2; [|done]. by split.
  - unfold kinds. rewrite fmap_insert. apply insert_id. rewrite lookup_fmap, Hs. by cbn; rewrite <- Hk.
  - intros k'. by rewrite bool_decide_decide; destruct (decide _).
Qed.

(** Sensors that are each of the kind they are named for fill the slots of these kinds. *)
Lemma add_each_typed (l : list (skind * option Z)) : NoDup l.*1 -> forall m, is_virtual m = false -> phys_objs (objects m) ->
  Forall (fun x => forall id, x.2 = Some id -> kinds (objects m) !! id = Some (Some x.1)) l ->
  exists r m', add_each l.*2 m = (Ret r, m') /\ phys_objs (objects m') /\ kinds (objects m') = kinds (objects m) /\
    forall k, (k ∉ l.*1 -> slot m' k = slot m k) /\ forall x, (k, x) ∈ l -> slot m k = None -> slot m' k = x.
Proof.
  induction l as [|[k0 x] l IH]; intros Hnd m Hv Ho Ht; cbn [fmap list_fmap fst snd add_each] in *.
  { exists [], m. split_and!; try done. intros k. split; [done|]. intros y H. by apply elem_of_nil in H. }
  apply NoDup_cons in Hnd as [Hk0 Hnd]. apply Forall_cons in Ht as [Hx Ht]. cbn [fst snd] in Hx.
  assert (exists b m1, add_sensor x m = (Ret b, m1) /\ is_virtual m1 = false /\ phys_objs (objects m1) /\ kinds (objects m1) = kinds (objects m) /\
    forall k', slot m1 k' = if decide (k' = k0) then (match x with Some id => Some id | None => slot m k' end) else slot m k') as (b & m1 & Ha & Hv1 & Ho1 & Hks & Hsl).
  { destruct x as [id|].
    - destruct (add_typed k0 id m Hv Ho (Hx id eq_refl)) as (m1 & ? & ? & ? & ? & ?). by exists true, m1.
    - exists false, m. split_and!; try done. intros k'. by destruct (decide _). }
  destruct (IH Hnd m1 Hv1 Ho1) as (r & m2 & Hr & Ho2 & Hks2 & Hsl2); [by rewrite Hks|].
  exists ((if b then option_list x else []) ++ r), m2. unfold pm_bind. rewrite Ha, Hr. split_and!; [done|done|by rewrite Hks2|].
  intros k. destruct (Hsl2 k) as [Hout Hin]. split.
  - intros [Hne Hk]%not_elem_of_cons. rewrite Hout, Hsl by done. by rewrite decide_False.
  - intros y [[= -> ->]|Hy]%elem_of_cons Hnone.
    + rewrite Hout, Hsl, decide_True by done. by destruct x; rewrite ?Hnone.
    + apply Hin; [done|]. rewrite Hsl. destruct (decide (k = k0)) as [->|]; [|done]. destruct Hk0. apply list_elem_of_fmap. by exists (k0, y).
Qed.

(** Each option of a machine that names a sensor names one of its own kind. *)
Definition well_named (sensors : gmap string Z) (ks : gmap Z (option skind)) (a : attrs) : Prop :=
  Forall (fun o => forall id, named_sensor sensors a o.1 = Some id -> ks !! id = Some (Some o.2)) sensor_options.

Section configuring.
Context (sensors : gmap string Z) (images_map : gmap Z (gmap bytes bytes)) (pxe_server : bytes).

(** What a configured machine has *)
Definition machine_configured (d d' : mdesc) : Prop :=
  d_type d' = d_type d /\ d_attrs d' = d_attrs d /\ images_map !! d_type d = Some (d_images d') /\
  if d_type d =? PHYSICAL
  then d_pxe d' = Some pxe_server /\ Forall (fun o => d_slot d' o.2 = named_sensor sensors (d_attrs d) o.1) sensor_options
  else d_pxe d' = d_pxe d /\ d_slot d' = d_slot d.
(** A machine before it is configured *)
Definition unconfigured (ks : gmap Z (option skind)) (d : mdesc) : Prop :=
  is_Some (images_map !! d_type d) /\ (d_type d = PHYSICAL -> (forall k, d_slot d k = None) /\ well_named sensors ks (d_attrs d)).

Lemma configure_spec m d s : machine_list s !! m = Some d -> phys_objs (sensor_objects s) ->
  unconfigured (kinds (sensor_objects s)) d ->
  exists d' o, configure sensors images_map pxe_server m s = (Ret tt, SetUp (<[m := d']> (machine_list s)) o (MACHINE_QUEUES s)) /\
    machine_configured d d' /\ phys_objs o /\ kinds o = kinds (sensor_objects s).
Proof.
  intros Hm Ho ([images Hi] & Hw). unfold configure, machine_configured. rewrite Hm, Hi. destruct (Z.eqb_spec (d_type d) PHYSICAL) as [Hp|Hp].
  - destruct (Hw Hp) as [Hn Hwn]. set (l := (fun o => (o.2, named_sensor sensors (d_attrs d) o.1)) <$> sensor_options).
    destruct (add_each_typed l) with (m := Mach false (d_slot d) (sensor_objects s)) as (r & m' & Hr & Ho' & Hk' & Hsl); [|done|done| |].
    { by apply (bool_decide_unpack _). }
    { apply Forall_fmap. eapply Forall_impl; [exact Hwn|]. done. }
    change (l.*2) with ((fun o => named_sensor sensors (d_attrs d) o.1) <$> sensor_options) in Hr. cbn [sensor_options fmap list_fmap fst] in Hr.
    unfold add_sensors, pm_bind. cbn [is_virtual]. rewrite Hr. eexists _, _. split; [reflexivity|]. split; [|done].
    split_and!; try done. apply Forall_forall. intros o Hin. cbn [d_slot]. apply (proj2 (Hsl o.2)); [|apply Hn].
    apply list_elem_of_fmap. by exists o.
  - eexists _, _. split; [reflexivity|]. by split_and!.
Qed.

Lemma configure_all_spec l : NoDup l -> forall s, phys_objs (sensor_objects s) ->
  Forall (fun m => exists d, machine_list s !! m = Some d /\ unconfigured (kinds (sensor_objects s)) d) l ->
  exists s', configure_all sensors images_map pxe_server l s = (Ret tt, s') /\ MACHINE_QUEUES s' = MACHINE_QUEUES s /\
    (forall m, m ∉ l -> machine_list s' !! m = machine_list s !! m) /\
    (forall m d, m ∈ l -> machine_list s !! m = Some d -> exists d', machine_list s' !! m = Some d' /\ machine_configured d d').
Proof.
  induction 1 as [|m l Hm Hnd IH]; intros s Ho Hall; [exists s; split_and!; try done; intros m d H; by apply elem_of_nil in H|].
  apply Forall_cons in Hall as [(d & Hd & Hu) Hall].
  destruct (configure_spec m d s Hd Ho Hu) as (d' & o & Hc & Hcd & Hoo & Hk).
  destruct (IH (SetUp (<[m := d']> (machine_list s)) o (MACHINE_QUEUES s)) Hoo) as (s' & Hs' & Hq & Hout & Hin).
  { cbn [machine_list sensor_objects]. rewrite Hk. apply Forall_forall. intros x Hx. rewrite lookup_insert_ne by (by intros <-). by eapply Forall_forall in Hall. }
  exists s'. cbn [configure_all]. unfold pm_bind. rewrite Hc. cbn [machine_list MACHINE_QUEUES] in *. split_and!; [done|done|..].
  - intros x [Hne Hx]%not_elem_of_cons. by rewrite Hout, lookup_insert_ne by done.
  - intros x dx [->|Hx]%elem_of_cons Hdx.
    + rewrite Hd in Hdx. injection Hdx as <-. exists d'. by rewrite Hout, lookup_insert_eq.
    + apply Hin; [done|]. rewrite lookup_insert_ne; [done|]. by intros <-.
Qed.
End configuring.

(** * Queues *)

(** The queue of a type holds the machines of the type, in the order in which they are gone through. *)
Definition typed_as (ms : gmap string mdesc) (t : Z) (m : string) : Prop := d_type <$> ms !! m = Some t.
#[global] Instance typed_as_dec ms t m : Decision (typed_as ms t m) := ltac:(unfold typed_as; apply _).
Definition queue (s : setup) (t : Z) : list string := default [] (MACHINE_QUEUES s !! t).
Lemma queue_machines_spec l : forall s, Forall (fun m => is_Some (machine_list s !! m)) l ->
  exists s', queue_machines l s = (Ret tt, s') /\ machine_list s' = machine_list s /\
    forall t, queue s' t = queue s t ++ filter (typed_as (machine_list s) t) l.
Proof.
  induction l as [|m l IH]; intros s Hl; [exists s; split_and!; try done; intros t; by rewrite app_nil_r|].
  apply Forall_cons in Hl as [[d Hd] Hl]. cbn [queue_machines]. unfold pm_bind, queue_machine. rewrite Hd.
  destruct (IH (SetUp (machine_list s) (sensor_objects s) (<[d_type d := queue s (d_type d) ++ [m]]> (MACHINE_QUEUES s))) Hl) as (s' & Hs' & Hm & Hq).
  exists s'. unfold queue in Hs'. rewrite Hs'. split_and!; [done|done|]. intros t. rewrite Hq, filter_cons. unfold queue at 1. cbn [machine_list MACHINE_QUEUES].
  assert (typed_as (machine_list s) t m <-> d_type d = t) as Ht by (unfold typed_as; rewrite Hd; cbn; split; [by intros [= ->]|by intros ->]).
  destruct (decide (d_type d = t)) as [<-|Hne].
  - rewrite lookup_insert_eq, decide_True by (by apply Ht). change (default [] (Some ?x)) with x. by rewrite <- app_assoc.
  - rewrite lookup_insert_ne by done. rewrite decide_False; [done|]. by rewrite Ht.
Qed.

(** * The sensors of the file *)

Lemma sensor_known m name id : sensor_list m !! name = Some id ->
  exists i, m !! name = Some i /\ sensor_store m !! id = Some (Sens (kind_of i) true true false false).
Proof.
  unfold sensor_list, sensor_store. intros H%elem_of_list_to_map_2. apply list_elem_of_lookup in H as [j Hj].
  rewrite list_lookup_imap in Hj. apply fmap_Some in Hj as ([n i] & Hj & [= -> ->]). exists i. split.
  - apply elem_of_map_to_list. by eapply list_elem_of_lookup_2.
  - apply elem_of_list_to_map_1.
    + apply NoDup_alt. intros a b z Ha Hb. rewrite list_lookup_fmap, list_lookup_imap in Ha, Hb.
      destruct (map_to_list m !! a); [|done]. destruct (map_to_list m !! b); [|done]. cbn in *. injection Ha as <-. injection Hb as Hb. lia.
    + apply list_elem_of_lookup. exists j. by rewrite list_lookup_imap, Hj.
Qed.
Lemma store_physical m : phys_objs (sensor_store m).
Proof.
  intros id s H%elem_of_list_to_map_2. apply list_elem_of_lookup in H as [j Hj]. rewrite list_lookup_imap in Hj.
  by apply fmap_Some in Hj as (x & _ & [= -> ->]).
Qed.

(** A section of a sensor that is read *)
Definition sensor_section (c : cfg) (name : string) (i : config_item) : Prop := import_sensor c name = Ret (Some i).
Lemma import_sensors c l (f : string -> config_item) : Forall (fun name => sensor_section c name (f name)) l -> forall m,
  import_loop c "sensor" l (Items m) = Ret (Some (Items (foldl (fun m name => <[name := f name]> m) m l))).
Proof.
  induction 1 as [|name l Hn _ IH]; intros m; [done|]. cbn [import_loop foldl]. change (bool_decide ("sensor" = "sensor")) with true.
  change (bool_decide ("sensor" = "machine")) with false. change (bool_decide ("sensor" = "controller")) with false. cbn iota.
  rewrite Hn. cbn [res_bind]. apply IH.
Qed.

(** * A controller that has started *)

Section ready.
Context (order : gmap string mdesc -> list string) (vm_slot : string -> skind -> option Z) (vm_count : Z) (pxe_server : bytes).
Context (sensor_file machine_file images_file : cfg) (f : string -> config_item).

Definition vms : list string := vm_name <$> seqZ 0 vm_count.
Definition sensor_map : gmap string config_item := foldl (fun m name => <[name := f name]> m) ∅ sensor_file.*1.
Definition machine_map : gmap string config_item := foldl (fun m name => <[name := IMachine (MachineConfig machine_file name)]> m) ∅ machine_file.*1.
Definition initial : gmap string mdesc := provision vm_slot vm_count (machines_of machine_map).

(** Each option of a machine that names a section of the file of sensors names one of its own kind. *)
Definition matched (name : string) : Prop :=
  Forall (fun o => match mjoin (MachineConfig machine_file name !! o.1) with
                   | Some v => name_of v ∈ sensor_file.*1 -> kind_of (f (name_of v)) = Some o.2
                   | None => True
                   end) sensor_options.

Lemma initial_lookup name : initial !! name =
  if decide (name ∈ vms) then Some (new_vm vm_slot name)
  else if decide (name ∈ machine_file.*1) then Some (MDesc PHYSICAL (MachineConfig machine_file name) ∅ (fun _ => None) None) else None.
Proof.
  unfold initial, provision. rewrite (lookup_foldl_insert (new_vm vm_slot)). fold vms. destruct (decide (name ∈ vms)); [done|].
  unfold machines_of, machine_map. rewrite lookup_omap, (lookup_foldl_insert (fun n => IMachine (MachineConfig machine_file n))).
  by destruct (decide (name ∈ machine_file.*1)).
Qed.

Lemma matched_named name : matched name -> well_named (sensor_list sensor_map) (kinds (sensor_store sensor_map)) (MachineConfig machine_file name).
Proof.
  unfold matched, well_named. intros Hm. eapply Forall_impl; [exact Hm|]. intros o Ho id Hid. cbn beta in Ho. unfold named_sensor in Hid.
  apply bind_Some in Hid as (v & Hv & Hid). rewrite Hv in Ho. apply sensor_known in Hid as (i & Hi & Hs).
  unfold kinds. rewrite lookup_fmap, Hs. cbn. unfold sensor_map in Hi. rewrite lookup_foldl_insert in Hi.
  destruct (decide _) as [Hin|]; [|done]. injection Hi as <-. by rewrite Ho.
Qed.

Lemma images_known t : t ∈ [PHYSICAL; XEN; KVM] -> import_images images_file !! t =
  Some (default ∅ (lower_keys <$> section images_file (if t =? PHYSICAL then "physical" else "virtual"))).
Proof. intros H. repeat (apply elem_of_cons in H as [->|H]; [done|]). by apply elem_of_nil in H. Qed.

Lemma all_unconfigured : Forall matched machine_file.*1 -> forall name d, initial !! name = Some d ->
  unconfigured (sensor_list sensor_map) (import_images images_file) (kinds (sensor_store sensor_map)) d.
Proof.
  intros Hm name d Hd. rewrite initial_lookup in Hd. case_decide as Hv; [|case_decide as Hin; [|done]]; injection Hd as <-; split; cbn [d_type new_vm].
  - eexists. by apply (images_known KVM), (bool_decide_unpack _).
  - done.
  - eexists. by apply (images_known PHYSICAL), (bool_decide_unpack _).
  - intros _. split; [done|]. apply matched_named. by eapply Forall_forall in Hm.
Qed.

(** A controller whose files are in order starts: a machine of the file has the images of
    physical machines, the PXE server and, in each slot, the sensor that its section names; a
    provisioned machine has the images of virtual machines and keeps its sensors; and the queue
    of a type holds each machine of the type, once. *)
Theorem controller_ready :
  (forall m, order m ≡ₚ (map_to_list m).*1) ->
  Forall (fun name => sensor_section sensor_file name (f name)) sensor_file.*1 -> images_file <> [] -> Forall matched machine_file.*1 ->
  exists s, controller_init order vm_slot vm_count pxe_server sensor_file machine_file images_file = Ret s /\
    (forall name, name ∈ machine_file.*1 -> name ∉ vms -> exists d, machine_list s !! name = Some d /\ d_type d = PHYSICAL /\
       d_images d = default ∅ (lower_keys <$> section images_file "physical") /\ d_pxe d = Some pxe_server /\
       Forall (fun o => d_slot d o.2 = named_sensor (sensor_list sensor_map) (MachineConfig machine_file name) o.1) sensor_options) /\
    (forall name, name ∈ vms -> exists d, machine_list s !! name = Some d /\ d_type d = KVM /\
       d_images d = default ∅ (lower_keys <$> section images_file "virtual") /\ d_slot d = vm_slot name) /\
    (forall name, is_Some (machine_list s !! name) -> name ∈ vms \/ name ∈ machine_file.*1) /\
    (forall t, NoDup (queue s t) /\ forall name, name ∈ queue s t <-> typed_as (machine_list s) t name).
Proof.
  intros Hord Hs Hi Hm. unfold controller_init, import_from_config.
  rewrite (import_sensors _ _ f) by done. cbn [res_bind]. rewrite import_machines. cbn [res_bind]. rewrite import_images_loop. cbn [res_bind].
  rewrite decide_False by (by destruct images_file). cbn [items image_maps]. fold sensor_map machine_map initial.
  assert (forall name, name ∈ order initial <-> is_Some (initial !! name)) as Hin.
  { intros name. rewrite (Hord initial), list_elem_of_fmap. split.
    - intros ([n d] & -> & H%elem_of_map_to_list). by eexists.
    - intros [d H%elem_of_map_to_list]. by exists (name, d). }
  assert (NoDup (order initial)) as Hnd by (rewrite (Hord initial); apply NoDup_fst_map_to_list).
  destruct (configure_all_spec (sensor_list sensor_map) (import_images images_file) pxe_server (order initial) Hnd
    (SetUp initial (sensor_store sensor_map) ∅)) as (s1 & Hs1 & Hq1 & Hout & Hconf); [apply store_physical| |].
  { apply Forall_forall. intros name [d Hd]%Hin. exists d. split; [done|]. by eapply all_unconfigured. }
  cbn [machine_list MACHINE_QUEUES sensor_objects] in *.
  assert (forall name, is_Some (machine_list s1 !! name) <-> is_Some (initial !! name)) as Hdom.
  { intros name. destruct (decide (name ∈ order initial)) as [Ho|Ho]; [|by rewrite Hout].
    pose proof Ho as [d Hd]%Hin. destruct (Hconf name d Ho Hd) as (d' & -> & _). rewrite Hd. by split; eexists. }
  destruct (queue_machines_spec (order initial) s1) as (s2 & Hs2 & Hm2 & Hq2).
  { apply Forall_forall. intros name Hn%Hin. by apply Hdom. }
  exists s2. unfold pm_bind. rewrite Hs1, Hs2, Hm2. split; [done|].
  assert (forall name d, initial !! name = Some d -> exists d', machine_list s1 !! name = Some d' /\
    machine_configured (sensor_list sensor_map) (import_images images_file) pxe_server d d') as Hall.
  { intros name d Hd. apply Hconf; [|done]. apply Hin. by eexists. }
  split_and!.
  - intros name Hn Hv. destruct (Hall name _ ltac:(rewrite initial_lookup, decide_False, decide_True by done; done)) as (d & Hd & H1 & H2 & H3 & H4 & H5).
    exists d. split_and!; try done. cbn [d_type] in H3. rewrite (images_known PHYSICAL) in H3 by (by apply (bool_decide_unpack _)). by injection H3.
  - intros name Hv. destruct (Hall name _ ltac:(rewrite initial_lookup, decide_True by done; done)) as (d & Hd & H1 & H2 & H3 & H4 & H5).
    exists d. split_and!; try done. cbn [d_type new_vm] in H3. rewrite (images_known KVM) in H3 by (by apply (bool_decide_unpack _)). by injection H3.
  - intros name Hn%Hdom. rewrite initial_lookup in Hn. case_decide; [by left|]. case_decide; [by right|]. by destruct Hn.
  - intros t. rewrite Hq2. assert (queue s1 t = []) as -> by (unfold queue; by rewrite Hq1). cbn [app]. split; [by apply NoDup_filter|]. intros name. rewrite list_elem_of_filter, Hin, <- Hdom.
    unfold typed_as. split; [by intros [? _]|]. intros H. split; [done|]. by destruct (machine_list s1 !! name).
Qed.
End ready.

(** Two machines of the file, one of which is provisioned over, and two sensors *)
Definition demo_sensors : cfg :=
  [("mem0", {["type" := lit "0"; "ip" := lit "172.20.1.11"; "port" := lit "31337"]}); ("net0", {["type" := lit "4"; "interface" := lit "eth1"]})].
Definition demo_machine_file : cfg :=
  [("alpha", {["memory_sensor" := lit "mem0"; "network_sensor" := lit "net0"; "disk_sensor" := lit "absent"]}); ("lophi-1", ∅)].
Definition demo_images : cfg := [("physical", {["WinXPSP3x86" := lit "xp-image"]})].
Definition demo_item (name : string) : config_item :=
  if bool_decide (name = "mem0") then ISensor SMemory (lit "172.20.1.11") (Some 31337) else ISensor SNetwork (lit "eth1") None.
Lemma controller_ready_witness : exists s,
  controller_init (fun m => (map_to_list m).*1) (fun _ _ => None) 2 (lit "172.20.1.1") demo_sensors demo_machine_file demo_images = Ret s /\
  (forall name, name ∈ queue s PHYSICAL <-> typed_as (machine_list s) PHYSICAL name).
Proof.
  destruct (controller_ready (fun m => (map_to_list m).*1) (fun _ _ => None) 2 (lit "172.20.1.1") demo_sensors demo_machine_file demo_images demo_item)
    as (s & H1 & H2 & H3 & H4 & H5).
  - done.
  - repeat constructor.
  - done.
  - repeat constructor; vm_compute; intros H; try done; exfalso; repeat (apply elem_of_cons in H as [H|H]; [done|]); by apply elem_of_nil in H.
  - exists s. split; [done|]. apply H5.
Defined.
Example demo_started :
  match controller_init (fun m => (map_to_list m).*1) (fun _ _ => None) 2 (lit "172.20.1.1") demo_sensors demo_machine_file demo_images with
  | Ret s => (queue s PHYSICAL, length (queue s KVM), (fun d => (bool_decide (is_Some (d_slot d SMemory)), d_slot d SDisk)) <$> machine_list s !! "alpha",
              (fun d => d_images d !! lit "winxpsp3x86") <$> machine_list s !! "alpha")
  | Raise _ => ([], O, None, None)
  end = (["alpha"], 2%nat, Some (true, None), Some (Some (lit "xp-image"))).
Proof. by vm_compute. Qed.

(** * Errors *)

(** Without a section of images the controller does not start, if it has a machine. *)
Example no_images_raises : controller_init (fun m => (map_to_list m).*1) (fun _ _ => None) 1 [] [] [] [] = Raise KeyError.
Proof. by vm_compute. Qed.
(** Without its sensor of memory the size of the memory is never read, and is no attribute. *)
Lemma get_option_ne c name o k a : k <> o -> (_get_option c name o a).2 !! k = a !! k.
Proof. intros Hk. unfold _get_option. by destruct (get_option c name o); cbn [snd]; rewrite lookup_insert_ne. Qed.
Lemma no_ram_size c name : get_option c name "memory_sensor" = Raise KeyError -> MachineConfig c name !! "ram_size" = None.
Proof.
  intros H. unfold MachineConfig. rewrite (surjective_pairing (_get_option c name "volatility_profile" ∅)).
  set (a0 := (_get_option c name "volatility_profile" ∅).2). unfold _get_option at 1. rewrite H.
  rewrite (surjective_pairing (_get_option c name "disk_sensor" _)). cbn [foldl]. rewrite !get_option_ne by done.
  destruct (fst _); rewrite ?get_option_ne by done; rewrite lookup_insert_ne by done; unfold a0; by rewrite get_option_ne.
Qed.
(** A controller without a port is not only reported: the conversion raises. *)
Lemma no_port_raises c name : (forall v, get_option c name "port" <> Ret v) -> ControllerConfig c name = Raise TypeError.
Proof.
  intros H. unfold ControllerConfig, _get_option at 2. destruct (get_option c name "port") as [v|]; [by destruct (H v)|].
  destruct (_get_option _ _ _ _). by rewrite lookup_insert_eq.
Qed.

(** * Scripts *)

(** The analysis of a module is its one analysis class, however many names it has. *)
Lemma analysis_modules_spec values : forall l, NoDup l ->
  let r := foldl (fun l v => if is_analysis v && negb (bool_decide (v ∈ l)) then l ++ [v] else l) l values in
  NoDup r /\ forall v, v ∈ r <-> v ∈ l \/ (v ∈ values /\ is_analysis v = true).
Proof.
  induction values as [|x values IH]; intros l Hl; cbn [foldl].
  { split; [done|]. intros v. rewrite elem_of_nil. tauto. }
  destruct (is_analysis x) eqn:Ha; cbn [andb]; [case_bool_decide as Hin; cbn [negb]|].
  - destruct (IH l Hl) as [H1 H2]. split; [done|]. intros v. rewrite H2, elem_of_cons. intuition congruence.
  - destruct (IH (l ++ [x])) as [H1 H2]; [apply NoDup_app; split_and!; [done|set_solver|apply NoDup_singleton]|].
    split; [done|]. intros v. rewrite H2, elem_of_app, list_elem_of_singleton, elem_of_cons. intuition congruence.
  - destruct (IH l Hl) as [H1 H2]. split; [done|]. intros v. rewrite H2, elem_of_cons. intuition congruence.
Qed.
Theorem extract_one values a : extract_analysis values = Some a <-> forall v, v ∈ values /\ is_analysis v = true <-> v = a.
Proof.
  unfold extract_analysis. destruct (analysis_modules_spec values [] (NoDup_nil_2)) as [Hnd Hin]. fold (analysis_modules values) in *.
  assert (forall v, v ∈ analysis_modules values <-> v ∈ values /\ is_analysis v = true) as H by (intros v; rewrite Hin, elem_of_nil; tauto).
  setoid_rewrite <- H. destruct (analysis_modules values) as [|x [|y l]] eqn:E.
  - split; [done|]. intros Hv. destruct (proj1 (elem_of_nil a) (proj2 (Hv a) eq_refl)).
  - split; [intros [= ->] v; by rewrite list_elem_of_singleton|]. intros Hv. f_equal. apply Hv. by left.
  - split; [done|]. intros Hv. pose proof (proj1 (Hv x) ltac:(by left)) as ->. pose proof (proj1 (Hv y) ltac:(right; by left)) as ->.
    apply NoDup_cons in Hnd as [[] _]. by left.
Qed.
